(* ===== verification/_CoqProject ===== *)
-Q . S2P
Prelude.v
Bytes.v
Libc.v
Bitmap.v
Cpu.v
Kmalloc.v
Pagepool.v
Vm.v
Kstate.v
Queues.v
Kinv.v
Scheduler.v
Sleepq.v
Semaphore.v
Kservice.v
Usersem.v
Thread.v
Boot.v
Kernel.v
Interrupt.v
InterruptSpec.v
Tty.v
TtySpec.v
Polltty.v
Xprintf.v
XprintfSpec.v
Tlbops.v
Bootargs.v
BootargsSpec.v
Device.v
DeviceSpec.v
Disk.v
DiskSpec.v
Sync.v
Tfs.v
TfsFile.v
TfsLock.v
Vfs.v
VfsSpec.v
VfsFile.v
VfsTfs.v
Process.v
ProcTable.v
ProcSpec.v
Elf.v
ElfSpec.v
Usermem.v
Syscall.v
SyscallSpec.v
Start.v
StartSpec.v
Net.v
SocketSpec.v
NetMem.v
PopSpec.v
PopService.v
NetSpec.v
Hostio.v
Tfstool.v
Volume.v
Toolrun.v
Toolscan.v
ToolWrite.v
ToolAdd.v
ToolRead.v
ToolDelete.v
ToolCreate.v
TfstoolSpec.v
Main.v
MainSpec.v
Userheap.v
Heaplayout.v
Heaprun.v
Heapfree.v
UserheapSpec.v
Userio.v
UserioSpec.v
