(* ===== verification/Prelude.v ===== *)
(** * BUENOS: a verification library for the kernel sources

    BUENOS is a small multiprocessor operating system for the YAMS machine
    (MIPS32, big-endian), with user processes, a virtual file system and a
    network stack.  This library models its C code as Rocq functions and
    proves what each part promises.

    ** How code becomes definitions

    A routine is a function [M S A := S → outcome S A] on the state [S] of its
    component.  Its outcome is [Done] (the result and the new state), [Panic]
    (KERNEL_PANIC or a failed KERNEL_ASSERT), [Fault] (an access outside a C
    object), [Spin] (it never returns) or [Blocked] (the thread gives up the
    CPU; the second argument is what it does when it runs again, from whatever
    state it then finds).  [;;] and [←] are sequencing.  Records carry the C
    structures, [s <| f := v |>] assigns a field, arrays are lists with
    [arr_get]/[arr_set] (out of range is a fault), pointers are integers, and
    machine words are integers with [u8], [u16], [u32], [i32] where the code
    wraps.  A component's routine runs inside a larger state by [zoom].
    Definitions keep the names of the C functions; loops are [for_loop],
    [find_loop] or a Fixpoint over what bounds them.

    ** The files, and the sources they model

    - Prelude: this header, the monad, arrays, words and locks
      (kernel/_spinlock.S).  Bytes: byte memory and big-endian words.
    - Libc, Bitmap (lib/libc.c, lib/bitmap.c); Cpu (the Status register,
      kernel/_interrupt.S); Kmalloc (kernel/kmalloc.c).
    - Pagepool (vm/pagepool.c): the free pages as a bitmap, refined to a set of
      page numbers.  Vm (vm/vm.c, vm/tlb.c): page tables and the TLB.
    - The kernel core: Kstate (the state that kernel/thread.c, scheduler.c,
      sleepq.c and semaphore.c share, drivers/timer.c, lib/rand.S), Queues (the
      ready queue and the hash table of sleep queues as lists), Kinv (the
      invariant that ties thread states to queues and CPUs), Scheduler, Sleepq,
      Semaphore, Thread, Boot (the part of init/main.c that sets them up), and
      Kernel: machines of several CPUs, threads that call these services, and
      interrupts as a step relation.  Kservice: what drivers and processes use.
    - Interrupt, InterruptSpec (kernel/interrupt.c, kernel/exception.c).
    - Tty, TtySpec (drivers/tty.c); Disk, DiskSpec (drivers/disk.c, disksched.c):
      drivers on the ports of a device given by a class, with the device's laws.
    - Sync: semaphores as permits and block devices, what file systems use.
      Tfs (fs/tfs.c) with TfsFile (files as byte sequences) and TfsLock (the lock);
      Vfs (fs/vfs.c, fs/filesystems.c) with VfsSpec (any driver of the class
      [FileSystem]), VfsFile (the tables) and VfsTfs (on top of tfs).
    - Process (proc/process.c) with ProcTable (the process table, its lists of
      zombies) and ProcSpec; Elf, ElfSpec (proc/elf.c).
    - Net (net/network.c, socket.c, pop.c, protocols.c) with SocketSpec (ports),
      NetMem (accesses to memory), PopSpec (the queue), PopService (the service
      thread) and NetSpec (from end to end).
    - Polltty (drivers/polltty.c), Xprintf, XprintfSpec (lib/xprintf.c): formatted
      output.  Bootargs, BootargsSpec (drivers/bootargs.c); Device, DeviceSpec
      (drivers/device.c, drivers.c, metadev.c, kernel/panic.c); Tlbops (the rest of
      vm/_tlb.S and tlb.c, the TLB exceptions).
    - System calls: Usersem (proc/semaphore.c), Usermem (user memory through the
      TLB), Syscall, SyscallSpec (proc/syscall.c, exception.c, kernel/halt.c), Start,
      StartSpec (process_start of proc/process.c).
    - Main, MainSpec (init/main.c, lib/debug.c): the start of the system.
    - The volume tool (util/tfstool.c): Hostio (files and streams of the host),
      Tfstool (the program), Volume (the content of an image), Toolrun, Toolscan,
      ToolWrite, ToolAdd, ToolRead, ToolDelete, ToolCreate (its runs), TfstoolSpec.
    - The library of user programs (tests/lib.c): Userheap (the allocator),
      Heaplayout, Heaprun, Heapfree, UserheapSpec; Userio, UserioSpec (the terminal).

    ** How the parts meet

    The kernel core is one state, [kstate]; drivers, processes and interrupts
    contain it and run its routines by [zoom].  Kservice restates the theorems of
    the core in the form they are used: [kern_ok], a consistent core between two
    services, and [sleep_and_switch], waiting.  File systems, the virtual file
    system and the network sit on Sync instead, whose semaphores are the
    specification ([spec_P], [spec_V]) that Semaphore proves of kernel/semaphore.c.
    Vfs is proved for every driver with the interface [FileSystem]; VfsTfs
    discharges that interface with Tfs.  Elf reads through Vfs.  Syscall is the
    state of the whole system, with lenses to its parts; Start and Main run on it.
    TfstoolSpec joins the volume tool and Tfs at the bytes of the image.  What the
    hardware does is stated by classes with laws: [TtyPorts]/[TtyLaws],
    [DiskPorts]/[DiskLaws], [Gbd], [NetEnv]; every theorem about them has a witness
    with a concrete device.

    ** What the theorems show

    - Kernel core: the invariant holds in every reachable machine state, permits
      of semaphores are bounded by what was created and released, no thread is
      ever stuck in the kernel; P, V, sleeping, waking, scheduling and thread
      creation have exact functional specifications and refine abstract queues.
    - Memory: the page pool refines a set of free pages, page tables translate
      as they were built, also through the TLB.
    - Interrupts: exactly the handlers of the pending lines run, in order; a
      timer interrupt leaves the next ready thread running on its page table.
    - Drivers: every character written is sent once and in order, characters
      read are those received; disk requests are served once, in the order of
      the queue, and each waiting thread is released.
    - File systems: reads and writes act on files as byte sequences, locks are
      returned on every path, open files read in sequence through both layers.
    - Processes: the process table stays well-formed under spawn, join and exit,
      and a parent collects exactly the status its child left.
    - ELF: the parser accepts exactly the executables, as the format defines them on
      bytes, and describes their segments.
    - Network: ports stay distinct and the port search ends, the packet queue owns
      each page once, and a packet sent over loopback reaches its receiver.
    - Output: snprintf writes what its directives show, cut to the buffer, and
      atoi reads numbers back; boot arguments and devices are found as parsed.
    - System calls: from the exception to the driver and back, reading a file
      and writing the console; exceptions of user programs stop the kernel.
      process_start stops the kernel at its first store, if no timer interrupt fills
      the TLB again (see the findings); the
      fallback of init/main.c unmounts the volumes and powers the machine off.
    - Volume tool: every command keeps a good volume good, what it writes it
      reads back, and the driver of the kernel reads it from the same image.
    - User library: the heap serves every program that keeps to the rules, freed
      space is whole again, realloc keeps bytes; readline is a line editor.

    The findings of the manifest name the places where the code does not do what
    it means to; most are lemmas here.

    ** Bounds and fuel

    Loops over tables run for the size of the table.  Fuel that is not structural:
    [buf_fuel], [take_fuel] (Tty) exceed the ring buffer by one and two, [port_fuel]
    (Net) the number of sockets by one, [zombie_fuel] (Process) the process table by
    one; the theorems show that they suffice.  [wakeups], [depth] and [budget]
    bound how often a thread is woken for nothing, the recursion to ancestors, and
    the characters taken in one interrupt; theorems hold for every value, or say
    which one is enough.  A format and a string of boot arguments are read with
    their length as fuel, numbers with 32 digits ([digit_fuel]).  The heap of a user
    program has 256 bytes and so at most 32 blocks: malloc takes 64 turns, free 65.
    readline takes one turn per character typed, and one.  The loops of the volume
    tool are bounded by their counters.

    ** Not modelled

    - Context switch and exception entry (kernel/cswitch.S, _boot.S): registers are
      saved and restored by assembler; the model keeps which thread runs.
    - User programs under tests/, and of their library the stubs of the system
      calls, the string routines and the copy of printf; the port of Newlib.
    - An address of the kernel in a system call is taken for a fault, and a store
      that leaves a byte as it is is not checked against the TLB.
    - Errors of the host under util/tfstool.c, and the buffers of its streams.
    - The network keeps its own copy of physical memory, apart from that of the
      processes.
    - Where the linker puts the array of the user heap: a multiple of four,
      which [heap_placed] states.
    - The messages kprintf prints, but for those of init/main.c, the halt of the
      kernel, the forced unmount, shutdown and panic; the text of a panic is the
      value of the outcome.
    - What interrupts do while process_start runs is a parameter that comes
      between its steps; elsewhere a routine that leaves interrupts enabled runs
      to its end or to the point where it gives up the CPU.
    - Weak memory: CPUs interleave at the steps of Kernel. *)
From stdpp Require Export base numbers list option strings.
From Corelib Require Export ssreflect.
From Stdlib Require Import FunctionalExtensionality.
From Stdlib Require Export ZArith Lia.

#[global] Open Scope Z_scope.
#[global] Open Scope general_if_scope.
#[global] Set Default Goal Selector "!".

(** ** Record update

    [s <| f := v |>] replaces field [f] of the record [s].  A record type
    declares its eta expansion once (class [Eta]); the update function of a
    field is computed from it. *)
Class Eta (R : Type) := eta : R → R.
Class Update {R T : Type} (f : R → T) := update : (T → T) → R → R.
Arguments update {R T} f {_} g r : simpl never.

Ltac build_update f :=
  lazymatch type of f with
  | ?R → ?T =>
    let e := constr:(_ : Eta R) in
    let e' := eval red in e in
    lazymatch eval pattern f in e' with
    | ?G _ => exact (fun g : T → T => G (fun r => g (f r)))
    end
  end.

#[export] Hint Extern 1 (Update ?f) => build_update f : typeclass_instances.

Declare Scope buenos_scope.
Delimit Scope buenos_scope with buenos.
#[global] Open Scope buenos_scope.
Notation "s <| f := v |>" := (update f (fun _ => v) s) (at level 1) : buenos_scope.

(** ** Machine integers

    Every C integer is a [Z]; these are the conversions to the fixed-width
    types of lib/types.h ([int] is 32 bits on MIPS). *)
Definition u8 (z : Z) : Z := z `mod` 2 ^ 8.
Definition u16 (z : Z) : Z := z `mod` 2 ^ 16.
Definition u32 (z : Z) : Z := z `mod` 2 ^ 32.
Definition i32 (z : Z) : Z := (z + 2 ^ 31) `mod` 2 ^ 32 - 2 ^ 31.

Lemma u32_range z : 0 ≤ u32 z < 2 ^ 32.
Proof. unfold u32. apply Z.mod_pos_bound. lia. Qed.

Lemma u32_small z : 0 ≤ z < 2 ^ 32 → u32 z = z.
Proof. unfold u32. apply Z.mod_small. Qed.

Lemma u16_range z : 0 ≤ u16 z < 2 ^ 16.
Proof. unfold u16. apply Z.mod_pos_bound. lia. Qed.

Lemma u16_small z : 0 ≤ z < 2 ^ 16 → u16 z = z.
Proof. unfold u16. apply Z.mod_small. Qed.

Lemma i32_range z : - 2 ^ 31 ≤ i32 z < 2 ^ 31.
Proof. unfold i32. pose proof (Z.mod_pos_bound (z + 2 ^ 31) (2 ^ 32)). lia. Qed.

Lemma i32_small z : - 2 ^ 31 ≤ z < 2 ^ 31 → i32 z = z.
Proof. intros. unfold i32. rw Z.mod_small; lia. Qed.

Lemma u32_u32 z : u32 (u32 z) = u32 z.
Proof. apply u32_small, u32_range. Qed.

Lemma u32_i32 z : u32 (i32 z) = u32 z.
Proof.
  unfold u32, i32. rw Zminus_mod_idemp_l. f_equal. lia.
Qed.

Lemma i32_u32 z : i32 (u32 z) = i32 z.
Proof. unfold u32, i32. f_equal. by rw Zplus_mod_idemp_l. Qed.

Lemma u32_testbit z k : 0 ≤ k < 32 → Z.testbit (u32 z) k = Z.testbit z k.
Proof. intros. unfold u32. apply Z.mod_pow2_bits_low. lia. Qed.

Lemma i32_testbit z k : 0 ≤ k < 32 → Z.testbit (i32 z) k = Z.testbit z k.
Proof.
  intros. rw -(u32_testbit (i32 z)) // u32_i32 u32_testbit //.
Qed.

Lemma u32_testbit_high z k : 32 ≤ k → Z.testbit (u32 z) k = false.
Proof. intros. unfold u32. apply Z.mod_pow2_bits_high. lia. Qed.

Lemma pow2_testbit j k : 0 ≤ j → Z.testbit (Z.shiftl 1 j) k = bool_decide (j = k).
Proof.
  intros. rw Z.shiftl_1_l Z.pow2_bits_eqb //.
  destruct (Z.eqb_spec j k); by case_bool_decide.
Qed.

(** Two 32-bit words with the same low 32 bits are equal. *)
Lemma u32_bits_inj x y :
  0 ≤ x < 2 ^ 32 → 0 ≤ y < 2 ^ 32 →
  (∀ k, 0 ≤ k < 32 → Z.testbit x k = Z.testbit y k) → x = y.
Proof.
  intros Hx Hy H. rw -(u32_small x) // -(u32_small y) //.
  apply Z.bits_inj'. intros k Hk. destruct (decide (k < 32)).
  - rw !u32_testbit; [lia..|]. apply H. lia.
  - rw !u32_testbit_high //; lia.
Qed.

(** A bitwise operation on 32-bit words stays within 32 bits. *)
Lemma land_range x y : 0 ≤ x < 2 ^ 32 → 0 ≤ Z.land x y < 2 ^ 32.
Proof.
  intros Hx.
  assert (Z.land x y = u32 (Z.land x y)) as ->; [|apply u32_range].
  apply Z.bits_inj'. intros k Hk. destruct (decide (k < 32)).
  - by rw u32_testbit.
  - rw u32_testbit_high; [lia|].
    rw Z.land_spec -(u32_small x) // u32_testbit_high; [lia|done].
Qed.

Lemma lor_range x y :
  0 ≤ x < 2 ^ 32 → 0 ≤ y < 2 ^ 32 → 0 ≤ Z.lor x y < 2 ^ 32.
Proof.
  intros Hx Hy.
  assert (Z.lor x y = u32 (Z.lor x y)) as ->; [|apply u32_range].
  apply Z.bits_inj'. intros k Hk. destruct (decide (k < 32)).
  - by rw u32_testbit.
  - rw u32_testbit_high; [lia|].
    rw Z.lor_spec -(u32_small x) // -(u32_small y) // !u32_testbit_high; [lia..|done].
Qed.

(** ** Outcomes and the kernel monad

    A kernel routine is a function from the state to an outcome.
    [Blocked s k] : the calling thread gave up the CPU inside the routine, in
    state [s]; other threads run, and it continues as [k] from the state in
    which the scheduler picks it again.  [Panic msg] :
    KERNEL_PANIC or a failed KERNEL_ASSERT.  [Fault] : an access outside a C
    object, which C leaves undefined.  [Spin] : the routine never returns (a
    spinlock that is already held, a loop without end). *)
Inductive outcome (S A : Type) : Type :=
| Done (a : A) (s : S)
| Blocked (s : S) (resume : S → outcome S A)
| Panic (msg : string)
| Fault
| Spin.
Arguments Done {S A} a s.
Arguments Blocked {S A} s resume.
Arguments Panic {S A} msg.
Arguments Fault {S A}.
Arguments Spin {S A}.

Definition M (S A : Type) : Type := S → outcome S A.

#[export] Instance M_ret S : MRet (M S) := fun A a s => Done a s.
Fixpoint obind {S A B} (f : A → M S B) (o : outcome S A) : outcome S B :=
  match o with
  | Done a s => f a s
  | Blocked s k => Blocked s (λ s', obind f (k s'))
  | Panic msg => Panic msg
  | Fault => Fault
  | Spin => Spin
  end.
#[export] Instance M_bind S : MBind (M S) := fun A B f m s => obind f (m s).

(** Give up the CPU. *)
Definition yield {S} : M S unit := fun s => Blocked s (λ s', Done tt s').

Definition gets {S A} (f : S → A) : M S A := fun s => Done (f s) s.
Definition modify {S} (f : S → S) : M S unit := fun s => Done tt (f s).
Definition panic {S A} (msg : string) : M S A := fun _ => Panic msg.
Definition fault {S A} : M S A := fun _ => Fault.
Definition spin {S A} : M S A := fun _ => Spin.

(** KERNEL_ASSERT of kernel/assert.h. *)
Definition kernel_assert {S} (b : bool) : M S unit :=
  if b then mret tt else panic "Assertion failed".

(** An access that is undefined when the option is [None]. *)
Definition oread {S A} (o : option A) : M S A :=
  match o with Some a => mret a | None => fault end.

(** ** Arrays: an index outside the array is a fault *)
Definition arr_get {A} (l : list A) (i : Z) : option A :=
  if decide (0 ≤ i) then l !! Z.to_nat i else None.
Definition arr_set {A} (l : list A) (i : Z) (x : A) : option (list A) :=
  if decide (0 ≤ i < Z.of_nat (length l)) then Some (<[Z.to_nat i := x]> l) else None.

(** ** Lenses: a component's state inside a larger one *)
Record lens (S T : Type) := Lens { lget : S → T; lset : T → S → S }.
Arguments Lens {S T} lget lset.
Arguments lget {S T} l s.
Arguments lset {S T} l v s.

Class LensLaws {S T} (l : lens S T) := {
  lget_lset v s : lget l (lset l v s) = v;
  lset_lget s : lset l (lget l s) s = s;
  lset_lset v w s : lset l v (lset l w s) = lset l v s }.

(** The lens of a record field. *)
Notation "'#' f" := (Lens f (fun v s => update f (fun _ => v) s))
  (at level 1, f at level 0) : buenos_scope.

(** Run a routine of a component on its part of the state. *)
Fixpoint ozoom {S T A} (l : lens S T) (s : S) (o : outcome T A) : outcome S A :=
  match o with
  | Done a t => Done a (lset l t s)
  | Blocked t k => Blocked (lset l t s) (λ s', ozoom l s' (k (lget l s')))
  | Panic msg => Panic msg
  | Fault => Fault
  | Spin => Spin
  end.
Definition zoom {S T A} (l : lens S T) (m : M T A) : M S A := fun s =>
  ozoom l s (m (lget l s)).

(** kernel/_spinlock.S: acquire loops while the lock word is not zero. *)
Definition spinlock_acquire {S} (l : lens S Z) : M S unit := fun s =>
  if decide (lget l s = 0) then Done tt (lset l 1 s) else Spin.
Definition spinlock_release {S} (l : lens S Z) : M S unit :=
  modify (lset l 0).
Definition spinlock_reset {S} (l : lens S Z) : M S unit :=
  modify (lset l 0).

(** ** Loops *)

(** [for (i = lo; ...; i++) body], [n] iterations. *)
Fixpoint for_loop {S} (n : nat) (lo : Z) (body : Z → M S unit) : M S unit :=
  match n with
  | O => mret tt
  | Datatypes.S n' => body lo;; for_loop n' (lo + 1) body
  end.

(** [for (i = lo; ...; i++) if (test) break;], [n] iterations at most: the
    index at which the loop was left, if any. *)
Fixpoint find_loop {S} (n : nat) (lo : Z) (test : Z → M S bool) : M S (option Z) :=
  match n with
  | O => mret None
  | Datatypes.S n' =>
    b ← test lo;
    if b : bool then mret (Some lo) else find_loop n' (lo + 1) test
  end.

(** [while (test) body], unrolled [fuel] times. *)
Fixpoint while_loop {S} (fuel : nat) (test : M S bool) (body : M S unit) : M S unit :=
  match fuel with
  | O => spin
  | Datatypes.S fuel' =>
    b ← test;
    if b : bool then body;; while_loop fuel' test body else mret tt
  end.

(** ** Weakest preconditions: the routine returns, and [Q] holds of its
    result and final state *)
Definition wp {S A} (m : M S A) (Q : A → S → Prop) (s : S) : Prop :=
  match m s with Done a s' => Q a s' | _ => False end.

Section monad_rules.
Context {S : Type}.
Implicit Types s : S.

Lemma bind_Done {A B} (m : M S A) (f : A → M S B) s a s' :
  m s = Done a s' → (m ≫= f) s = f a s'.
Proof. unfold mbind, M_bind. by intros ->. Qed.

Lemma bind_ret {A B} (a : A) (f : A → M S B) s : (mret a ≫= f) s = f a s.
Proof. done. Qed.
Lemma bind_gets {A B} (g : S → A) (f : A → M S B) s : (gets g ≫= f) s = f (g s) s.
Proof. done. Qed.
Lemma bind_modify {B} (g : S → S) (f : unit → M S B) s : (modify g ≫= f) s = f tt (g s).
Proof. done. Qed.
Lemma bind_oread {A B} (a : A) (f : A → M S B) s : (oread (Some a) ≫= f) s = f a s.
Proof. done. Qed.
Lemma bind_assert {B} (P : Prop) `{!Decision P} (f : unit → M S B) s :
  P → (kernel_assert (bool_decide P) ≫= f) s = f tt s.
Proof. intros. by rw bool_decide_true. Qed.
Lemma bind_assert_fails {B} (P : Prop) `{!Decision P} (f : unit → M S B) s :
  ¬ P → (kernel_assert (bool_decide P) ≫= f) s = Panic "Assertion failed".
Proof. intros. by rw bool_decide_false. Qed.
Lemma bind_zoom {T A B} (l : lens S T) (m : M T A) (f : A → M S B) s a t :
  m (lget l s) = Done a t → (zoom l m ≫= f) s = f a (lset l t s).
Proof. intros H. unfold mbind, M_bind, zoom. by rw H. Qed.
Lemma bind_bind {A B C} (m : M S A) (f : A → M S B) (g : B → M S C) s :
  ((m ≫= f) ≫= g) s = (m ≫= λ a, f a ≫= g) s.
Proof.
  unfold mbind, M_bind. induction (m s) as [| |k IH| |] => //=.
  f_equal. apply functional_extensionality. done.
Qed.
Lemma bind_Blocked {A B} (m : M S A) (f : A → M S B) s s' k :
  m s = Blocked s' k → (m ≫= f) s = Blocked s' (λ t, obind f (k t)).
Proof. unfold mbind, M_bind. by intros ->. Qed.
Lemma bind_yield {B} (f : unit → M S B) s :
  (yield ≫= f) s = Blocked s (λ s', f tt s').
Proof. done. Qed.
Lemma bind_acquire {B} (l : lens S Z) (f : unit → M S B) s :
  lget l s = 0 → (spinlock_acquire l ≫= f) s = f tt (lset l 1 s).
Proof. intros H. unfold mbind, M_bind, spinlock_acquire. by case_decide. Qed.
Lemma bind_release {B} (l : lens S Z) (f : unit → M S B) s :
  (spinlock_release l ≫= f) s = f tt (lset l 0 s).
Proof. done. Qed.

Lemma wp_Done {A} (m : M S A) Q s :
  wp m Q s ↔ ∃ a s', m s = Done a s' ∧ Q a s'.
Proof.
  unfold wp. destruct (m s); split; try by intros (?&?&?&?).
  - eauto.
  - intros (?&?&[= -> ->]&?). done.
  - done.
  - done.
  - done.
  - done.
Qed.

Lemma wp_bind {A B} (m : M S A) (f : A → M S B) Q s :
  wp m (λ a s', wp (f a) Q s') s → wp (m ≫= f) Q s.
Proof. unfold wp, mbind, M_bind. by destruct (m s). Qed.

Lemma wp_mono {A} (m : M S A) (P Q : A → S → Prop) s :
  wp m P s → (∀ a s', P a s' → Q a s') → wp m Q s.
Proof. unfold wp. destruct (m s); naive_solver. Qed.

Lemma wp_ret {A} (a : A) (Q : A → S → Prop) s : Q a s → wp (mret a) Q s.
Proof. done. Qed.

Lemma wp_oread {A} (o : option A) (a : A) (Q : A → S → Prop) s :
  o = Some a → Q a s → wp (oread o) Q s.
Proof. by intros ->. Qed.

(** Invariant rule for [for_loop]. *)
Lemma wp_for_loop (I : Z → S → Prop) n lo (body : Z → M S unit) Q s :
  I lo s →
  (∀ i t, lo ≤ i < lo + Z.of_nat n → I i t → wp (body i) (λ _ t', I (i + 1) t') t) →
  (∀ t, I (lo + Z.of_nat n) t → Q tt t) →
  wp (for_loop n lo body) Q s.
Proof.
  revert lo s. induction n as [|n IH]; intros lo s HI Hbody HQ; simpl.
  - apply wp_ret, HQ. by replace (lo + Z.of_nat 0) with lo by lia.
  - apply wp_bind. eapply wp_mono; [apply Hbody; [lia|done]|].
    intros [] t Ht. apply IH; [done| |].
    + intros i u Hi. apply Hbody. lia.
    + intros u Hu. apply HQ. by replace (lo + Z.of_nat (Datatypes.S n))
        with (lo + 1 + Z.of_nat n) by lia.
Qed.

(** The search loop returns the first index that passes a test which does
    not change the state. *)
Lemma find_loop_pure n lo (test : Z → M S bool) (p : Z → bool) s :
  (∀ i, lo ≤ i < lo + Z.of_nat n →
    (∀ j, lo ≤ j < i → p j = false) → test i s = Done (p i) s) →
  ∃ r, find_loop n lo test s = Done r s ∧
    match r with
    | Some i => lo ≤ i < lo + Z.of_nat n ∧ p i = true ∧
                ∀ j, lo ≤ j < i → p j = false
    | None => ∀ j, lo ≤ j < lo + Z.of_nat n → p j = false
    end.
Proof.
  revert lo. induction n as [|n IH]; intros lo Ht; simpl.
  - exists None. split; [done|]. lia.
  - erewrite bind_Done; [|apply Ht; lia].
    destruct (p lo) eqn:Hp.
    + exists (Some lo). repeat split; [lia..|done|lia].
    + destruct (IH (lo + 1)) as (r & Hr & Hspec).
      { intros i Hi Hj. apply Ht; [lia|]. intros j Hj'.
        destruct (decide (j = lo)) as [->|]; [done|]. apply Hj. lia. }
      exists r. split; [done|]. destruct r as [i|].
      * destruct Hspec as (? & ? & Hf). repeat split; [lia..|done|].
        intros j Hj. destruct (decide (j = lo)) as [->|]; [done|]. apply Hf. lia.
      * intros j Hj. destruct (decide (j = lo)) as [->|]; [done|]. apply Hspec. lia.
Qed.
End monad_rules.

(** ** Arrays: lemmas *)
Section arrays.
Context {A : Type}.
Implicit Types (l : list A) (x : A) (i j : Z).

Lemma arr_get_Some l i x :
  arr_get l i = Some x ↔ 0 ≤ i ∧ l !! Z.to_nat i = Some x.
Proof. unfold arr_get. case_decide; naive_solver. Qed.

Lemma arr_get_lt l i x : arr_get l i = Some x → 0 ≤ i < Z.of_nat (length l).
Proof. rw arr_get_Some. intros [? H%lookup_lt_Some]. lia. Qed.

Lemma arr_get_is_Some l i :
  0 ≤ i < Z.of_nat (length l) → ∃ x, arr_get l i = Some x.
Proof.
  intros. destruct (lookup_lt_is_Some_2 l (Z.to_nat i)) as [x Hx]; [lia|].
  exists x. apply arr_get_Some. split; [lia|done].
Qed.

Lemma arr_get_None l i :
  arr_get l i = None ↔ ¬ (0 ≤ i < Z.of_nat (length l)).
Proof.
  unfold arr_get. case_decide as Hd.
  - rw lookup_ge_None. lia.
  - split; [lia|done].
Qed.

Lemma arr_set_Some l i x :
  0 ≤ i < Z.of_nat (length l) → arr_set l i x = Some (<[Z.to_nat i := x]> l).
Proof. intros. unfold arr_set. by rw decide_True. Qed.

Lemma arr_set_inv l i x l' :
  arr_set l i x = Some l' →
  0 ≤ i < Z.of_nat (length l) ∧ l' = <[Z.to_nat i := x]> l.
Proof. unfold arr_set. case_decide; naive_solver. Qed.

Lemma arr_get_insert l i j x :
  0 ≤ i < Z.of_nat (length l) →
  arr_get (<[Z.to_nat i := x]> l) j = if decide (j = i) then Some x else arr_get l j.
Proof.
  intros Hi. unfold arr_get. destruct (decide (j = i)) as [->|Hne].
  - rw decide_True; [lia|]. apply list_lookup_insert_eq. lia.
  - case_decide; [|done]. apply list_lookup_insert_ne. lia.
Qed.

Lemma arr_get_replicate (n : nat) x i :
  0 ≤ i < Z.of_nat n → arr_get (replicate n x) i = Some x.
Proof.
  intros. apply arr_get_Some. split; [lia|]. apply lookup_replicate_2. lia.
Qed.

Lemma arr_get_app (l1 l2 : list A) i :
  0 ≤ i →
  arr_get (l1 ++ l2) i =
    if decide (i < Z.of_nat (length l1)) then arr_get l1 i else arr_get l2 (i - Z.of_nat (length l1)).
Proof.
  intros Hi. unfold arr_get. destruct (decide (0 ≤ i)); [|lia]. case_decide.
  - rw lookup_app_l; [lia|done].
  - rw lookup_app_r; [lia|]. rw decide_True; [lia|]. f_equal. lia.
Qed.

(** Two arrays with the same length and the same entries are equal. *)
Lemma arr_ext (l1 l2 : list A) :
  (∀ i, 0 ≤ i → arr_get l1 i = arr_get l2 i) → l1 = l2.
Proof.
  intros H. apply list_eq. intros n. specialize (H (Z.of_nat n)).
  unfold arr_get in H. rw !decide_True in H; [lia..|].
  rw Nat2Z.id in H. apply H. lia.
Qed.
End arrays.

(** Filtering with predicates that agree on the list. *)
Lemma filter_ext_in {A} (P Q : A → Prop) `{∀ x, Decision (P x), ∀ x, Decision (Q x)} (l : list A) :
  (∀ x, x ∈ l → P x ↔ Q x) → filter P l = filter Q l.
Proof.
  intros H1. induction l as [|x l IH]; [done|]. rw !filter_cons IH; [intros y Hy; apply H1; by right|].
  pose proof (H1 x ltac:(by left)). repeat case_decide; tauto || done.
Qed.

(** A search through a table is [list_find]. *)
Lemma find_loop_list {S A} (P : A → Prop) `{∀ x, Decision (P x)} (l : list A) lo (t : Z → M S bool) s :
  (∀ i x, l !! i = Some x → t (lo + Z.of_nat i) s = Done (bool_decide (P x)) s) →
  find_loop (length l) lo t s = Done ((λ r, lo + Z.of_nat r.1) <$> list_find P l) s.
Proof.
  revert lo. induction l as [|x l IH]; intros lo Ht; [done|]. cbn [length find_loop list_find].
  erewrite bind_Done; [|rewrite -{1}(Z.add_0_r lo); by apply (Ht O x)]. destruct (decide (P x)) as [Hx|Hx].
  - rw bool_decide_true //. cbn. unfold mret, M_ret. do 3 f_equal. lia.
  - rw bool_decide_false // IH.
    + intros i y Hy. rw -(Ht (Datatypes.S i) y Hy). f_equal. lia.
    + f_equal. destruct (list_find P l) as [[i y]|]; [|done]. cbn. f_equal. lia.
Qed.

(** ** Tactics and hints of the development *)
Create HintDb buenos.


(** Reduce the projections of record updates, [p (s <| f := v |>)], without
    expanding the updated record. *)
Ltac rproj p R T f i g r :=
  let t := eval cbv [update] in (fun r' : R => p (@update R T f i g r')) in
  let t' := eval cbn in t in
  eval cbv beta in (t' r).
Ltac rstep :=
  match goal with
  | |- context [?p (@update ?R ?T ?f ?i ?g ?r)] =>
    let u := rproj p R T f i g r in change (p (@update R T f i g r)) with u
  | H : context [?p (@update ?R ?T ?f ?i ?g ?r)] |- _ =>
    let u := rproj p R T f i g r in change (p (@update R T f i g r)) with u in H
  end.
Ltac rsimpl := cbn in *; repeat (progress (repeat rstep; cbn in *)).

(** Run the head of a bind whose outcome is known. *)
Ltac mstep := erewrite bind_Done; [|first [eassumption|reflexivity|eauto]]; cbn beta iota.

(** Case analysis on the tests of a routine's body. *)
Ltac mcases :=
  repeat match goal with
  | |- context [if decide ?P then _ else _] => destruct (decide P)
  | |- context [bool_decide ?P] => destruct (bool_decide_reflect P)
  end.

(** Arithmetic with [div] and [mod]. *)
Ltac zdm := Z.div_mod_to_equations; lia.
