(* ===== verification/Bytes.v ===== *)
(** * Byte memory and big-endian words

    MIPS runs big-endian here (proc/elf.h accepts ELFDATA2MSB only).  A buffer
    is a list of bytes; [ld32]/[st32] are the accesses the C code makes through
    [uint32_t] pointers, [slice]/[splice] the copies made by [memcopy]. *)
From Stdlib Require Ascii.
From S2P Require Import Prelude.
Export Ascii.AsciiSyntax.

Definition is_byte (b : Z) : Prop := 0 ≤ b < 256.
Definition bytes_ok (m : list Z) : Prop := Forall is_byte m.

(** ** Words *)

Definition be_join (b0 b1 b2 b3 : Z) : Z := ((b0 * 256 + b1) * 256 + b2) * 256 + b3.
Definition be_split (w : Z) : list Z :=
  [(w `div` 2 ^ 24) `mod` 256; (w `div` 2 ^ 16) `mod` 256; (w `div` 2 ^ 8) `mod` 256; w `mod` 256].

Lemma be_join_range b0 b1 b2 b3 :
  is_byte b0 → is_byte b1 → is_byte b2 → is_byte b3 →
  0 ≤ be_join b0 b1 b2 b3 < 2 ^ 32.
Proof. unfold is_byte, be_join. lia. Qed.

Lemma be_split_join b0 b1 b2 b3 :
  is_byte b0 → is_byte b1 → is_byte b2 → is_byte b3 →
  be_split (be_join b0 b1 b2 b3) = [b0; b1; b2; b3].
Proof.
  unfold is_byte, be_join, be_split. intros.
  change (2 ^ 24) with 16777216. change (2 ^ 16) with 65536. change (2 ^ 8) with 256.
  repeat f_equal; zdm.
Qed.

Lemma be_join_split w :
  0 ≤ w < 2 ^ 32 →
  be_join ((w `div` 2 ^ 24) `mod` 256) ((w `div` 2 ^ 16) `mod` 256)
          ((w `div` 2 ^ 8) `mod` 256) (w `mod` 256) = w.
Proof.
  intros Hw. unfold be_join.
  change (2 ^ 24) with 16777216. change (2 ^ 16) with 65536. change (2 ^ 8) with 256.
  zdm.
Qed.

Lemma be_split_bytes w : bytes_ok (be_split w).
Proof. unfold be_split. repeat constructor; zdm. Qed.

(** ** Slices *)

Definition slice (m : list Z) (a n : Z) : list Z :=
  take (Z.to_nat n) (drop (Z.to_nat a) m).
Definition splice (m : list Z) (a : Z) (l : list Z) : list Z :=
  take (Z.to_nat a) m ++ l ++ drop (Z.to_nat a + length l) m.

Lemma length_slice m a n :
  0 ≤ a → 0 ≤ n → a + n ≤ Z.of_nat (length m) → length (slice m a n) = Z.to_nat n.
Proof. intros. unfold slice. rw length_take length_drop. lia. Qed.

Lemma length_splice m a l :
  0 ≤ a → a + Z.of_nat (length l) ≤ Z.of_nat (length m) →
  length (splice m a l) = length m.
Proof. intros. unfold splice. rw !length_app length_take length_drop. lia. Qed.

Lemma slice_splice_same m a l :
  0 ≤ a → a + Z.of_nat (length l) ≤ Z.of_nat (length m) →
  slice (splice m a l) a (Z.of_nat (length l)) = l.
Proof.
  intros. unfold slice, splice.
  rw drop_app_length'; [rw length_take; lia|].
  rw take_app_length' //. lia.
Qed.

Lemma arr_get_slice m a n i :
  0 ≤ a → 0 ≤ i < n → arr_get (slice m a n) i = arr_get m (a + i).
Proof.
  intros. unfold arr_get, slice. rw !decide_True; [lia..|].
  rw lookup_take_lt; [lia|]. rw lookup_drop. f_equal. lia.
Qed.

Lemma arr_get_splice m a l i :
  0 ≤ a → a + Z.of_nat (length l) ≤ Z.of_nat (length m) →
  arr_get (splice m a l) i =
    if decide (a ≤ i < a + Z.of_nat (length l)) then arr_get l (i - a) else arr_get m i.
Proof.
  intros Ha Hl. unfold arr_get, splice.
  destruct (decide (0 ≤ i)) as [Hi|Hi].
  - case_decide.
    + rw decide_True; [lia|]. rw lookup_app_r; [rw length_take; lia|].
      rw lookup_app_l; rw length_take; [lia|]. f_equal. lia.
    + destruct (decide (i < a)).
      * rw lookup_app_l; [rw length_take; lia|]. rw lookup_take_lt //. lia.
      * rw lookup_app_r; [rw length_take; lia|].
        rw lookup_app_r; rw length_take; [lia|]. rw lookup_drop. f_equal. lia.
  - by rw decide_False; [lia|].
Qed.

Lemma slice_splice_disj m a l b n :
  0 ≤ a → a + Z.of_nat (length l) ≤ Z.of_nat (length m) →
  0 ≤ b → 0 ≤ n → b + n ≤ Z.of_nat (length m) →
  b + n ≤ a ∨ a + Z.of_nat (length l) ≤ b →
  slice (splice m a l) b n = slice m b n.
Proof.
  intros. apply arr_ext. intros i Hi. destruct (decide (i < n)).
  - rw !arr_get_slice; [lia..|]. rw arr_get_splice //. by rw decide_False; [lia|].
  - transitivity (@None Z); [|symmetry]; apply arr_get_None;
      rw length_slice ?length_splice //; lia.
Qed.

Lemma splice_splice_same m a l l' :
  0 ≤ a → a + Z.of_nat (length l) ≤ Z.of_nat (length m) → length l = length l' →
  splice (splice m a l) a l' = splice m a l'.
Proof.
  intros Ha Hl He. apply arr_ext. intros i Hi.
  rw !arr_get_splice ?length_splice //; try lia. by repeat case_decide; try lia.
Qed.

Lemma slice_bytes m a n : bytes_ok m → bytes_ok (slice m a n).
Proof. intros. unfold slice. apply Forall_take. by apply Forall_drop. Qed.

Lemma splice_bytes m a l : bytes_ok m → bytes_ok l → bytes_ok (splice m a l).
Proof.
  intros. unfold splice. repeat apply Forall_app_2; [by apply Forall_take|done|].
  by apply Forall_drop.
Qed.

Lemma slice_all m n : n = Z.of_nat (length m) → slice m 0 n = m.
Proof. intros ->. unfold slice. rw drop_0 take_ge //. lia. Qed.

Lemma splice_all m l : length m = length l → splice m 0 l = l.
Proof.
  intros He. unfold splice. simpl. rw -He drop_all app_nil_r //.
Qed.

(** Extending a copied range: the step of every copy loop. *)
Lemma splice_slice_extend m t s a l :
  0 ≤ t → 0 ≤ s → 0 ≤ a →
  t + a + Z.of_nat (length l) ≤ Z.of_nat (length m) →
  s + a + Z.of_nat (length l) ≤ Z.of_nat (length m) →
  l = slice m (s + a) (Z.of_nat (length l)) →
  splice (splice m t (slice m s a)) (t + a) l =
  splice m t (slice m s (a + Z.of_nat (length l))).
Proof.
  intros Ht Hs Ha Htl Hsl Hl. apply arr_ext. intros i Hi.
  assert (length (slice m s a) = Z.to_nat a) as L1 by (apply length_slice; lia).
  assert (length (slice m s (a + Z.of_nat (length l))) = Z.to_nat (a + Z.of_nat (length l)))
    as L2 by (apply length_slice; lia).
  assert (length (splice m t (slice m s a)) = length m) as L3 by (apply length_splice; lia).
  rw (arr_get_splice (splice _ _ _)) ?L3; [lia..|].
  rw !(arr_get_splice m) ?L1 ?L2; [lia..|].
  rw !Z2Nat.id; [lia..|]. repeat case_decide; try lia; try done.
  - rw {1}Hl !arr_get_slice; [lia..|]. f_equal. lia.
  - rw !arr_get_slice; [lia..|]. done.
Qed.

(** Two byte ranges of length [n] do not overlap. *)
Definition disjoint_ranges (a b n : Z) : Prop := a + n ≤ b ∨ b + n ≤ a.

Lemma slice_after_copy m t s n b k :
  0 ≤ t → 0 ≤ s → 0 ≤ b → 0 ≤ k → 0 ≤ n → t + n ≤ Z.of_nat (length m) →
  s + n ≤ Z.of_nat (length m) → b + k ≤ Z.of_nat (length m) →
  b + k ≤ t ∨ t + n ≤ b →
  slice (splice m t (slice m s n)) b k = slice m b k.
Proof.
  intros. apply slice_splice_disj; rw ?length_slice; lia.
Qed.

(** ** Word accesses *)

Definition ld32 (m : list Z) (a : Z) : option Z :=
  b0 ← arr_get m a; b1 ← arr_get m (a + 1);
  b2 ← arr_get m (a + 2); b3 ← arr_get m (a + 3);
  Some (be_join b0 b1 b2 b3).

Definition st32 (m : list Z) (a w : Z) : option (list Z) :=
  if decide (0 ≤ a ∧ a + 4 ≤ Z.of_nat (length m)) then Some (splice m a (be_split w)) else None.

Lemma arr_get_byte m a b : bytes_ok m → arr_get m a = Some b → is_byte b.
Proof. intros Hm [_ Hb]%arr_get_Some. exact (Forall_lookup_1 _ _ _ _ Hm Hb). Qed.

Lemma ld32_Some m a :
  bytes_ok m → 0 ≤ a → a + 4 ≤ Z.of_nat (length m) →
  ∃ w, ld32 m a = Some w ∧ 0 ≤ w < 2 ^ 32 ∧ be_split w = slice m a 4.
Proof.
  intros Hm Ha Hl. unfold ld32.
  destruct (arr_get_is_Some m a) as [b0 E0]; [lia|].
  destruct (arr_get_is_Some m (a + 1)) as [b1 E1]; [lia|].
  destruct (arr_get_is_Some m (a + 2)) as [b2 E2]; [lia|].
  destruct (arr_get_is_Some m (a + 3)) as [b3 E3]; [lia|].
  rw E0 E1 E2 E3 /=. eexists. split; [done|].
  pose proof (arr_get_byte _ _ _ Hm E0). pose proof (arr_get_byte _ _ _ Hm E1).
  pose proof (arr_get_byte _ _ _ Hm E2). pose proof (arr_get_byte _ _ _ Hm E3).
  split; [by apply be_join_range|]. rw be_split_join //.
  apply arr_ext. intros i Hi. destruct (decide (i < 4)).
  - rw arr_get_slice; [lia..|].
    assert (i = 0 ∨ i = 1 ∨ i = 2 ∨ i = 3) as [-> | [-> | [-> | ->]]] by lia;
      [rw Z.add_0_r| | |]; symmetry; done.
  - transitivity (@None Z); [|symmetry]; apply arr_get_None; [simpl; lia|].
    rw length_slice //; lia.
Qed.

Lemma ld32_range m a w : bytes_ok m → ld32 m a = Some w → 0 ≤ w < 2 ^ 32.
Proof.
  intros Hm. unfold ld32.
  destruct (arr_get m a) as [b0|] eqn:E0; [|done]. destruct (arr_get m (a + 1)) as [b1|] eqn:E1; [|done].
  destruct (arr_get m (a + 2)) as [b2|] eqn:E2; [|done].
  destruct (arr_get m (a + 3)) as [b3|] eqn:E3; [|done]. intros [= <-].
  apply be_join_range; eapply arr_get_byte; eauto.
Qed.

Lemma ld32_splice_disj m a l b :
  0 ≤ a → a + Z.of_nat (length l) ≤ Z.of_nat (length m) →
  b + 4 ≤ a ∨ a + Z.of_nat (length l) ≤ b →
  ld32 (splice m a l) b = ld32 m b.
Proof.
  intros. unfold ld32. rw !arr_get_splice //. by rw !decide_False; [lia..|].
Qed.

Lemma ld32_splice_word m a w :
  0 ≤ w < 2 ^ 32 → 0 ≤ a → a + 4 ≤ Z.of_nat (length m) →
  ld32 (splice m a (be_split w)) a = Some w.
Proof.
  intros Hw Ha Hl. unfold ld32. rw !arr_get_splice //; try (simpl; lia).
  rw !decide_True; [simpl; lia..|].
  replace (a - a) with 0 by lia. replace (a + 1 - a) with 1 by lia.
  replace (a + 2 - a) with 2 by lia. replace (a + 3 - a) with 3 by lia.
  simpl. by rw be_join_split.
Qed.

Lemma st32_splice m a w :
  0 ≤ a → a + 4 ≤ Z.of_nat (length m) → st32 m a w = Some (splice m a (be_split w)).
Proof. intros. unfold st32. by rw decide_True. Qed.

(** A slice and a copy in two parts. *)
Lemma slice_app (m : list Z) a n k :
  0 ≤ a → 0 ≤ n → 0 ≤ k → slice m a (n + k) = slice m a n ++ slice m (a + n) k.
Proof.
  intros. unfold slice. rw (Z2Nat.inj_add n k) // (Z2Nat.inj_add a n) // -take_take_drop drop_drop //.
Qed.

Lemma splice_app (m : list Z) a l1 l2 :
  0 ≤ a → a + Z.of_nat (length l1 + length l2) ≤ Z.of_nat (length m) →
  splice (splice m a l1) (a + Z.of_nat (length l1)) l2 = splice m a (l1 ++ l2).
Proof.
  intros Ha Hl. apply arr_ext. intros i Hi.
  rw !arr_get_splice ?length_splice ?length_app; [lia..|].
  repeat case_decide; try lia; try done.
  - rw arr_get_app; [lia|]. rw decide_False; [lia|]. f_equal. lia.
  - rw arr_get_app; [lia|]. rw decide_True; [lia|]. done.
Qed.

Lemma slice_cons (m : list Z) a n x :
  arr_get m a = Some x → 0 < n → slice m a n = x :: slice m (a + 1) (n - 1).
Proof.
  intros [Ha Hx]%arr_get_Some Hn. unfold slice. replace (Z.to_nat n) with (S (Z.to_nat (n - 1))) by lia.
  rw (drop_S _ _ _ Hx). replace (Z.to_nat (a + 1)) with (S (Z.to_nat a)) by lia. done.
Qed.

Lemma slice_none (m : list Z) a : slice m a 0 = [].
Proof. done. Qed.

#[export] Hint Resolve be_split_bytes slice_bytes splice_bytes : buenos.

(** ** Text: the bytes of characters and of C string literals *)
Definition chr (c : Ascii.ascii) : Z := Z.of_N (Ascii.N_of_ascii c).
Arguments chr c%_char_scope.
Definition text (s : string) : list Z := chr <$> String.list_ascii_of_string s.
Definition cstring (s : string) : list Z := text s ++ [0].
(** A message and its newline. *)
Definition line (s : string) : string := String.append s (String.String (Ascii.ascii_of_nat 10) String.EmptyString).
