(* ===== verification/Libc.v ===== *)
(** * Library routines (lib/libc.c)

    Strings are the characters from the pointer to the end of the object it
    points into; [0] terminates the string and reading past the end of the
    list is a fault.  [memcopy] and [memoryset] run on a flat byte memory
    indexed by address, because [memcopy] looks at the alignment of its
    arguments. *)
From S2P Require Import Prelude Bytes.

Module Libc.

(** ** Strings *)

(** [stringcmp]; [None] when one of the strings is not terminated. *)
Fixpoint stringcmp (str1 str2 : list Z) : option Z :=
  match str1, str2 with
  | c1 :: r1, c2 :: r2 =>
    if decide (c1 = 0 ∧ c2 = 0) then Some 0
    else if decide (c1 = 0 ∨ c2 = 0 ∨ c1 ≠ c2) then Some (c1 - c2)
    else stringcmp r1 r2
  | _, _ => None
  end.

(** The inner loop of [stringcopy]: [n] more writes of NUL at the same place. *)
Fixpoint stringcopy_pad (n : nat) (target : list Z) (t : Z) : option (list Z) :=
  match n with
  | O => Some target
  | S n' => target' ← arr_set target t 0; stringcopy_pad n' target' t
  end.

(** The loop of [stringcopy]: [n] iterations left, [t] the offset of the
    [target] pointer (which is also [i]). *)
Fixpoint stringcopy_loop (n : nat) (target source : list Z) (t buflen : Z) : option (list Z) :=
  match n with
  | O => arr_set target t 0
  | S n' =>
    match source with
    | [] => None
    | c :: source' =>
      target' ← arr_set target t c;
      if decide (c = 0) then stringcopy_pad (Z.to_nat (buflen - (t + 1))) target' t
      else stringcopy_loop n' target' source' (t + 1) buflen
    end
  end.

(** [stringcopy]: the target buffer afterwards. *)
Definition stringcopy (target source : list Z) (buflen : Z) : option (list Z) :=
  stringcopy_loop (Z.to_nat (buflen - 1)) target source 0 buflen.

Fixpoint strlen_from (str : list Z) (l : Z) : option Z :=
  match str with
  | [] => None
  | c :: r => if decide (c = 0) then Some l else strlen_from r (l + 1)
  end.
Definition strlen (str : list Z) : option Z := strlen_from str 0.

(** ** Memory *)

Definition load8 (a : Z) : M (list Z) Z := fun m => oread (arr_get m a) m.
Definition store8 (a v : Z) : M (list Z) unit := fun m =>
  match arr_set m a v with Some m' => Done tt m' | None => Fault end.
Definition load32 (a : Z) : M (list Z) Z := fun m => oread (ld32 m a) m.
Definition store32 (a v : Z) : M (list Z) unit := fun m =>
  match st32 m a v with Some m' => Done tt m' | None => Fault end.

Definition copy_bytes (n : nat) (t s : Z) : M (list Z) unit :=
  for_loop n 0 (λ i, b ← load8 (s + i); store8 (t + i) b).

Definition copy_words (n : nat) (tgt src : Z) : M (list Z) unit :=
  for_loop n 0 (λ i, w ← load32 (src + 4 * i); store32 (tgt + 4 * i) w).

Definition memcopy (buflen target source : Z) : M (list Z) unit :=
  if decide (u32 target `mod` 4 ≠ 0 ∨ u32 source `mod` 4 ≠ 0) then
    copy_bytes (Z.to_nat buflen) target source
  else
    let words := Z.to_nat (Z.quot buflen 4) in
    copy_words words target source;;
    copy_bytes (Z.to_nat (Z.rem buflen 4))
      (target + 4 * Z.of_nat words) (source + 4 * Z.of_nat words).

Definition memoryset (target value size : Z) : M (list Z) unit :=
  for_loop (Z.to_nat size) 0 (λ i, store8 (target + i) value).

(** ** Numbers *)

Definition is_space (c : Z) : bool :=
  bool_decide (c = 32 ∨ c = 9 ∨ c = 13 ∨ c = 10).
Definition is_digit (c : Z) : bool := bool_decide (48 ≤ c ≤ 57).

Fixpoint atoi_skip (s : list Z) : option (list Z) :=
  match s with
  | [] => None
  | c :: r => if decide (c ≠ 0) then if is_space c then atoi_skip r else Some s else Some s
  end.

(** [value] is an [int]: every step wraps to 32 bits. *)
Fixpoint atoi_digits (s : list Z) (sign value : Z) : option Z :=
  match s with
  | [] => None
  | c :: r =>
    if is_digit c then atoi_digits r sign (i32 (10 * value + sign * (c - 48)))
    else Some value
  end.

Definition atoi (s : list Z) : option Z :=
  s' ← atoi_skip s;
  match s' with
  | [] => None
  | c :: r =>
    if decide (c = 0) then Some 0
    else if decide (c = 45) then atoi_digits r (-1) 0
    else if decide (c = 43) then atoi_digits r 1 0
    else atoi_digits s' 1 0
  end.

(** ** Console input: the characters polltty_getchar delivers *)
Definition polltty_getchar : M (list Z) Z := fun input =>
  match input with c :: rest => Done c rest | [] => Spin end.

(** [kread]: [n] characters may still be stored, [count] are. *)
Fixpoint kread_loop (n : nat) (s : list Z) (count : Z) : M (list Z) (list Z) :=
  ch ← polltty_getchar;
  if decide (ch = 10) then oread (arr_set s count 0)
  else match n with
       | O => oread (arr_set s count 0)
       | S n' => s' ← oread (arr_set s count ch); kread_loop n' s' (count + 1)
       end.

Definition kread (s : list Z) (len : Z) : M (list Z) (list Z) :=
  kread_loop (Z.to_nat (len - 1)) s 0.

(** ** C strings, abstractly: the characters before the terminator *)

Fixpoint cstr (s : list Z) : option (list Z) :=
  match s with
  | [] => None
  | c :: r => if decide (c = 0) then Some [] else l ← cstr r; Some (c :: l)
  end.

Lemma cstr_app l r : 0 ∉ l → cstr (l ++ 0 :: r) = Some l.
Proof.
  induction l as [|c l IH]; intros Hl; [done|]. simpl. apply not_elem_of_cons in Hl as [? ?].
  rw decide_False; [congruence|]. by rw IH.
Qed.

Lemma cstr_inv s l : cstr s = Some l → 0 ∉ l ∧ ∃ r, s = l ++ 0 :: r.
Proof.
  revert l. induction s as [|c s IH]; intros l; simpl; [done|]. case_decide as Hc.
  - intros [= <-]. subst. split; [apply not_elem_of_nil|by exists s].
  - destruct (cstr s) as [l'|]; [|done]. intros [= <-].
    destruct (IH l' eq_refl) as (? & r & ->). split; [apply not_elem_of_cons; split; [congruence|done]|].
    by exists r.
Qed.

Lemma stringcmp_defined s1 s2 l1 l2 :
  cstr s1 = Some l1 → cstr s2 = Some l2 → is_Some (stringcmp s1 s2).
Proof.
  revert s2 l1 l2. induction s1 as [|c1 s1 IH]; intros [|c2 s2] l1 l2; simpl; try done.
  destruct (decide (c1 = 0)), (decide (c2 = 0)); intros H1 H2;
    repeat case_decide; eauto; try naive_solver.
  destruct (cstr s1) eqn:E1, (cstr s2) eqn:E2; try done. eauto.
Qed.

(** The comparison is zero exactly on equal strings. *)
Lemma stringcmp_zero s1 s2 l1 l2 :
  cstr s1 = Some l1 → cstr s2 = Some l2 → (stringcmp s1 s2 = Some 0 ↔ l1 = l2).
Proof.
  revert s2 l1 l2. induction s1 as [|c1 s1 IH]; intros [|c2 s2] l1 l2; simpl; try done.
  destruct (decide (c1 = 0)), (decide (c2 = 0)).
  - rw decide_True //. naive_solver.
  - intros [= <-]. destruct (cstr s2); [|done]. intros [= <-].
    rw decide_False; [naive_solver|]. rw decide_True; [auto|].
    split; intros [=]; lia.
  - destruct (cstr s1); [|done]. intros [= <-] [= <-].
    rw decide_False; [naive_solver|]. rw decide_True; [auto|].
    split; intros [=]; lia.
  - destruct (cstr s1) as [r1|] eqn:E1; [|done]. destruct (cstr s2) as [r2|] eqn:E2; [|done].
    intros [= <-] [= <-]. rw decide_False; [naive_solver|]. case_decide as Hd.
    + split; intros [=]; naive_solver lia.
    + rw (IH s2 r1 r2) //. assert (c1 = c2) as -> by (destruct (decide (c1 = c2)); tauto).
      naive_solver.
Qed.

Lemma stringcmp_self s l : cstr s = Some l → stringcmp s s = Some 0.
Proof. intros. by apply (stringcmp_zero s s l l). Qed.

Lemma strlen_cstr s l : cstr s = Some l → strlen s = Some (Z.of_nat (length l)).
Proof.
  unfold strlen. assert (∀ s l k, cstr s = Some l →
    strlen_from s k = Some (k + Z.of_nat (length l))) as H; [|intros; by apply (H s l 0)].
  clear. intros s. induction s as [|c s IH]; intros l k; simpl; [done|]. case_decide.
  - intros [= <-]. f_equal. simpl. lia.
  - destruct (cstr s) eqn:E; [|done]. intros [= <-]. rw (IH l0 (k + 1) eq_refl). f_equal. simpl. lia.
Qed.

(** ** stringcopy *)

Lemma stringcopy_pad_id n target t :
  arr_get target t = Some 0 → stringcopy_pad n target t = Some target.
Proof.
  intros Ht. induction n as [|n IH]; simpl; [done|].
  pose proof (arr_get_lt _ _ _ Ht). rw arr_set_Some //=.
  rw list_insert_id; [by apply arr_get_Some in Ht as [_ Ht]|]. done.
Qed.

Lemma splice_cons_insert m t c l :
  0 ≤ t → t + 1 + Z.of_nat (length l) ≤ Z.of_nat (length m) →
  splice (<[Z.to_nat t := c]> m) (t + 1) l = splice m t (c :: l).
Proof.
  intros. apply arr_ext. intros i Hi.
  rw !arr_get_splice ?length_insert; simpl; [lia..|]. rw arr_get_insert; [lia|].
  repeat case_decide; try lia; subst; try done.
  - rw /arr_get !decide_True; [lia..|].
    by replace (Z.to_nat (i - t)) with (S (Z.to_nat (i - (t + 1)))) by lia.
  - by rw Z.sub_diag.
Qed.

Lemma stringcopy_loop_spec n target source t buflen l :
  cstr source = Some l → 0 ≤ t → t + Z.of_nat n + 1 ≤ Z.of_nat (length target) →
  stringcopy_loop n target source t buflen = Some (splice target t (take n l ++ [0])).
Proof.
  revert target source t l. induction n as [|n IH]; intros target source t l Hs Ht Hn; simpl.
  - rw arr_set_Some; [lia|]. f_equal. rw -splice_cons_insert /=; [lia..|].
    unfold splice. simpl. rw Nat.add_0_r take_drop //.
  - destruct source as [|c source]; [done|]. simpl in Hs. rw arr_set_Some; [lia|]. simpl.
    case_decide as Hc.
    + injection Hs as <-. subst c. rw stringcopy_pad_id.
      * rw arr_get_insert; [lia|]. by rw decide_True.
      * f_equal. simpl. rw -splice_cons_insert; [simpl; lia..|].
        unfold splice. simpl. rw Nat.add_0_r take_drop //.
    + destruct (cstr source) as [l'|] eqn:E; [|done]. injection Hs as <-.
      rw (IH _ _ _ l') //; [lia|rw length_insert; lia|]. f_equal. simpl.
      apply splice_cons_insert; [lia|]. rw length_app length_take /=. lia.
Qed.

(** What the buffer holds after [stringcopy]: the first [buflen - 1]
    characters, one terminator, and the old contents after it. *)
Lemma stringcopy_spec target source buflen l :
  cstr source = Some l → 1 ≤ buflen ≤ Z.of_nat (length target) →
  stringcopy target source buflen =
    Some (splice target 0 (take (Z.to_nat (buflen - 1)) l ++ [0])).
Proof. intros. unfold stringcopy. by rw (stringcopy_loop_spec _ _ _ _ _ l) //; lia. Qed.

Lemma stringcopy_cstr target source buflen l target' :
  cstr source = Some l → 1 ≤ buflen ≤ Z.of_nat (length target) →
  stringcopy target source buflen = Some target' →
  length target' = length target ∧ cstr target' = Some (take (Z.to_nat (buflen - 1)) l).
Proof.
  intros Hl Hb. rw (stringcopy_spec _ _ _ l) //. intros [= <-]. split.
  - apply length_splice; [lia|]. rw length_app length_take /=. lia.
  - unfold splice. simpl. rw -app_assoc /=. apply cstr_app.
    apply cstr_inv in Hl as [Hl _]. intros Hin. apply Hl.
    rw -(take_drop (Z.to_nat (buflen - 1)) l). apply elem_of_app. by left.
Qed.

(** ** memcopy and memoryset *)

Lemma copy_bytes_spec n t s m :
  0 ≤ t → 0 ≤ s → t + Z.of_nat n ≤ Z.of_nat (length m) →
  s + Z.of_nat n ≤ Z.of_nat (length m) → disjoint_ranges t s (Z.of_nat n) →
  copy_bytes n t s m = Done tt (splice m t (slice m s (Z.of_nat n))).
Proof.
  intros Ht Hs Htl Hsl Hd.
  assert (wp (copy_bytes n t s) (λ _ m', m' = splice m t (slice m s (Z.of_nat n))) m) as Hwp.
  { apply (wp_for_loop (λ i m', m' = splice m t (slice m s i))).
    - unfold splice, slice. by rw take_0 /= Nat.add_0_r take_drop.
    - intros i ? Hi ->. unfold wp, mbind, M_bind, load8, store8, oread.
      rw arr_get_splice; [lia|rw length_slice; lia|].
      rw decide_False; [rw length_slice; unfold disjoint_ranges in Hd; lia|].
      destruct (arr_get_is_Some m (s + i)) as [b Hb]; [lia|]. rw Hb /=.
      assert (length (splice m t (slice m s i)) = length m) as L
        by (apply length_splice; rw ?length_slice; lia).
      rw arr_set_Some; [lia|].
      rw -(splice_slice_extend m t s i [b]); [simpl; lia..| |].
      + apply arr_ext. intros j Hj. destruct (decide (j = 0)) as [->|].
        * rw arr_get_slice; [simpl; lia..|]. rw Z.add_0_r Hb //.
        * transitivity (@None Z); [|symmetry]; apply arr_get_None; [simpl; lia|].
          rw length_slice; simpl; lia.
      + rw -splice_cons_insert; [simpl; lia..|].
        unfold splice at 2. simpl. by rw Nat.add_0_r take_drop.
    - intros ? ->. f_equal. }
  apply wp_Done in Hwp as ([] & ? & ? & ->). done.
Qed.

Lemma copy_words_spec n t s m :
  bytes_ok m → 0 ≤ t → 0 ≤ s → t + 4 * Z.of_nat n ≤ Z.of_nat (length m) →
  s + 4 * Z.of_nat n ≤ Z.of_nat (length m) → disjoint_ranges t s (4 * Z.of_nat n) →
  copy_words n t s m = Done tt (splice m t (slice m s (4 * Z.of_nat n))).
Proof.
  intros Hm Ht Hs Htl Hsl Hd.
  assert (wp (copy_words n t s) (λ _ m', m' = splice m t (slice m s (4 * Z.of_nat n))) m) as Hwp.
  { apply (wp_for_loop (λ i m', m' = splice m t (slice m s (4 * i)))).
    - unfold splice, slice. by rw take_0 /= Nat.add_0_r take_drop.
    - intros i ? Hi ->. unfold wp, mbind, M_bind, load32, store32, oread.
      rw ld32_splice_disj; [lia|rw length_slice; lia|
        rw length_slice; unfold disjoint_ranges in Hd; lia|].
      destruct (ld32_Some m (s + 4 * i)) as (w & Hw & Hr & Hsp); [done|lia..|]. rw Hw /=.
      assert (length (splice m t (slice m s (4 * i))) = length m) as L
        by (apply length_splice; rw ?length_slice; lia).
      rw st32_splice; [lia..|].
      replace (4 * (i + 1)) with (4 * i + Z.of_nat (length (be_split w))) by (simpl; lia).
      rw -splice_slice_extend; [simpl; lia..|done|done].
    - intros ? ->. f_equal. }
  apply wp_Done in Hwp as ([] & ? & ? & ->). done.
Qed.

Lemma memcopy_spec buflen t s m :
  bytes_ok m → 0 ≤ buflen → 0 ≤ t → 0 ≤ s → t + buflen ≤ Z.of_nat (length m) →
  s + buflen ≤ Z.of_nat (length m) → disjoint_ranges t s buflen →
  memcopy buflen t s m = Done tt (splice m t (slice m s buflen)).
Proof.
  intros Hm Hn Ht Hs Htl Hsl Hd. unfold memcopy. case_decide.
  - rw copy_bytes_spec; rw ?Z2Nat.id; done.
  - rw Z.quot_div_nonneg; [lia..|]. rw Z.rem_mod_nonneg; [lia..|].
    set (q := buflen `div` 4). set (r := buflen `mod` 4).
    assert (buflen = 4 * q + r ∧ 0 ≤ q ∧ 0 ≤ r) as (Hq & ? & ?) by (subst q r; zdm).
    unfold disjoint_ranges in Hd.
    erewrite bind_Done; [|apply copy_words_spec; rw ?Z2Nat.id; unfold disjoint_ranges; first [done|lia]].
    rw !Z2Nat.id; [done|].
    assert (length (splice m t (slice m s (4 * q))) = length m) as L
      by (apply length_splice; rw ?length_slice; lia).
    rw copy_bytes_spec ?Z2Nat.id ?L //; [lia..|unfold disjoint_ranges; lia|].
    f_equal. rw slice_after_copy; [lia..|].
    assert (length (slice m (s + 4 * q) r) = Z.to_nat r) as Lr by (apply length_slice; lia).
    rw splice_slice_extend; rw ?Lr ?Z2Nat.id //; [lia..|]. by rw -Hq.
Qed.

Lemma memoryset_spec target value size m :
  0 ≤ target → 0 ≤ size → target + size ≤ Z.of_nat (length m) →
  memoryset target value size m =
    Done tt (splice m target (replicate (Z.to_nat size) value)).
Proof.
  intros Ht Hs Hl.
  assert (wp (memoryset target value size)
    (λ _ m', m' = splice m target (replicate (Z.to_nat size) value)) m) as Hwp.
  { apply (wp_for_loop (λ i m', m' = splice m target (replicate (Z.to_nat i) value))).
    - unfold splice. by rw /= Nat.add_0_r take_drop.
    - intros i ? Hi ->. unfold wp, store8.
      assert (length (splice m target (replicate (Z.to_nat i) value)) = length m) as L
        by (apply length_splice; rw ?length_replicate; lia).
      rw arr_set_Some; [lia|]. apply arr_ext. intros j Hj. rw arr_get_insert; [lia|].
      rw !arr_get_splice ?length_replicate; [lia..|].
      repeat case_decide; try lia; try done.
      + subst. symmetry. apply arr_get_replicate. lia.
      + rw !arr_get_replicate //; lia.
    - intros ? ->. f_equal. f_equal. lia. }
  apply wp_Done in Hwp as ([] & ? & ? & ->). done.
Qed.

(** ** atoi *)

(** The value of a list of decimal digits, most significant first. *)
Definition dec_value (ds : list Z) : Z := fold_left (λ v c, 10 * v + (c - 48)) ds 0.

Lemma i32_cong a b : a `mod` 2 ^ 32 = b `mod` 2 ^ 32 → i32 a = i32 b.
Proof. intros H. rw -(i32_u32 a) -(i32_u32 b). unfold u32. by rw H. Qed.

Lemma i32_mod a : i32 a `mod` 2 ^ 32 = a `mod` 2 ^ 32.
Proof. apply (u32_i32 a). Qed.

Lemma i32_step v d : i32 (10 * i32 v + d) = i32 (10 * v + d).
Proof.
  apply i32_cong. rw -Zplus_mod_idemp_l -Zmult_mod_idemp_r i32_mod Zmult_mod_idemp_r.
  by rw Zplus_mod_idemp_l.
Qed.

Lemma atoi_digits_spec ds c rest sign v :
  Forall (λ d, is_digit d = true) ds → is_digit c = false →
  atoi_digits (ds ++ c :: rest) sign (i32 v) =
    Some (i32 (fold_left (λ v c, 10 * v + sign * (c - 48)) ds v)).
Proof.
  intros Hds Hc. revert v. induction Hds as [|d ds Hd Hds IH]; intros v; simpl.
  - by rw Hc.
  - by rw Hd i32_step IH.
Qed.

Lemma dec_fold_sign ds sign v w :
  v = sign * w →
  fold_left (λ v c, 10 * v + sign * (c - 48)) ds v =
  sign * fold_left (λ v c, 10 * v + (c - 48)) ds w.
Proof.
  revert v w. induction ds as [|d ds IH]; intros v w Hv; simpl; [done|].
  apply IH. subst. lia.
Qed.

Lemma atoi_signed ds c rest sign :
  Forall (λ d, is_digit d = true) ds → is_digit c = false →
  atoi_digits (ds ++ c :: rest) sign 0 = Some (i32 (sign * dec_value ds)).
Proof.
  intros Hds Hc. change 0 with (i32 0) at 1. rw atoi_digits_spec //.
  do 2 f_equal. apply dec_fold_sign. lia.
Qed.

(** ** Properties *)

(** Memcopy, which copies words when both pointers are
    aligned and bytes otherwise, is the plain copy of [buflen] bytes for every
    alignment of its arguments, as long as the two areas do not overlap; no
    byte outside the target area changes. *)
Theorem memcopy_copies buflen t s m :
  bytes_ok m → 0 ≤ buflen → 0 ≤ t → 0 ≤ s → t + buflen ≤ Z.of_nat (length m) →
  s + buflen ≤ Z.of_nat (length m) → disjoint_ranges t s buflen →
  ∃ m', memcopy buflen t s m = Done tt m' ∧ length m' = length m ∧
    ∀ a, arr_get m' a = if decide (t ≤ a < t + buflen) then arr_get m (s + (a - t)) else arr_get m a.
Proof.
  intros Hm Hb Ht Hs Htl Hsl Hd. eexists. split; [by apply memcopy_spec|].
  assert (length (slice m s buflen) = Z.to_nat buflen) as Hl by (apply length_slice; lia).
  split; [apply length_splice; lia|]. intros a. destruct (decide (0 ≤ a)).
  - rw arr_get_splice; [lia..|]. rw Hl. rw Z2Nat.id; [lia|]. case_decide; [|done].
    apply arr_get_slice; lia.
  - rw decide_False; [lia|]. unfold arr_get. by rw !decide_False.
Qed.

Lemma memcopy_copies_witness :
  let m := [1; 2; 3; 4; 5; 6; 7; 8; 0; 0; 0; 0; 0; 0; 0; 0] in
  memcopy 6 8 0 m = Done tt [1; 2; 3; 4; 5; 6; 7; 8; 1; 2; 3; 4; 5; 6; 0; 0] ∧
  ∃ m', memcopy 5 9 2 m = Done tt m' ∧ arr_get m' 13 = Some 7.
Proof.
  intros m. split; [by vm_compute|].
  destruct (memcopy_copies 5 9 2 m) as (m' & H1 & _ & H2).
  - repeat constructor; lia.
  - lia.
  - lia.
  - lia.
  - cbn. lia.
  - cbn. lia.
  - unfold disjoint_ranges. lia.
  - exists m'. split; [exact H1|]. rewrite H2. reflexivity.
Defined.

(** Stringcopy leaves a terminated string in the target, the
    longest prefix of the source that fits with its terminator; it writes
    nothing beyond that terminator and nothing outside the buffer. *)
Theorem stringcopy_prefix target source buflen l :
  cstr source = Some l → 1 ≤ buflen ≤ Z.of_nat (length target) →
  ∃ target', stringcopy target source buflen = Some target' ∧
    length target' = length target ∧
    cstr target' = Some (take (Z.to_nat (buflen - 1)) l) ∧
    ∀ i, Z.of_nat (length l) < i ∨ buflen ≤ i → arr_get target' i = arr_get target i.
Proof.
  intros Hl Hb. eexists. split; [by apply (stringcopy_spec _ _ _ l)|].
  destruct (stringcopy_cstr target source buflen l _ Hl Hb (stringcopy_spec _ _ _ _ Hl Hb)) as [H1 H2].
  split_and!; [done..|]. intros i Hi.
  assert ((length (take (Z.to_nat (buflen - 1)) l ++ [0 : Z])) ≤ Z.to_nat buflen)%nat as Hle
    by (rw length_app length_take /=; lia).
  rw arr_get_splice; [lia..|]. rw decide_False //. rw length_app length_take /=. lia.
Qed.

Lemma stringcopy_prefix_witness :
  stringcopy [9; 9; 9; 9; 9; 9] [97; 98; 0; 7] 6 = Some [97; 98; 0; 9; 9; 9] ∧
  ∃ t, stringcopy [9; 9; 9] [97; 98; 99; 0] 3 = Some t ∧ cstr t = Some [97; 98].
Proof.
  split; [reflexivity|].
  destruct (stringcopy_prefix [9; 9; 9] [97; 98; 99; 0] 3 [97; 98; 99]) as (t & H1 & _ & H2 & _).
  - reflexivity.
  - cbn. lia.
  - exists t. split; [exact H1|exact H2].
Defined.

(** On terminated strings stringcmp returns, zero exactly when
    the strings are equal, and otherwise the difference of the first pair of
    characters that differ (the terminator of the shorter string counts). *)
Theorem stringcmp_first_difference s1 s2 l1 l2 :
  cstr s1 = Some l1 → cstr s2 = Some l2 →
  ∃ r, stringcmp s1 s2 = Some r ∧ (r = 0 ↔ l1 = l2) ∧
    (r ≠ 0 → ∃ p c1 c2 r1 r2, s1 = p ++ c1 :: r1 ∧ s2 = p ++ c2 :: r2 ∧ r = c1 - c2 ∧ 0 ∉ p).
Proof.
  intros H1 H2. destruct (stringcmp_defined s1 s2 l1 l2 H1 H2) as [r Hr]. exists r.
  split; [done|]. split.
  { rw -(stringcmp_zero s1 s2 l1 l2) // Hr. split; congruence. }
  clear H1 H2. revert s2 r Hr. induction s1 as [|c1 s1 IH]; intros [|c2 s2] r; simpl; try done.
  case_decide; [congruence|]. case_decide as Hc.
  - intros [= <-] Hne. exists [], c1, c2, s1, s2. split_and!; try done. apply not_elem_of_nil.
  - intros Hr Hne. destruct (IH s2 r Hr Hne) as (p & d1 & d2 & r1 & r2 & -> & -> & -> & Hp).
    exists (c1 :: p), d1, d2, r1, r2. split_and!; [done| |done|].
    + by replace c2 with c1 by (destruct (decide (c1 = c2)); tauto).
    + apply not_elem_of_cons. split; [|done]. intros <-. tauto.
Qed.

Lemma stringcmp_first_difference_witness :
  stringcmp [97; 98; 0] [97; 0] = Some 98 ∧ stringcmp [97; 98; 0] [97; 98; 0; 5] = Some 0.
Proof.
  split; [reflexivity|].
  destruct (stringcmp_first_difference [97; 98; 0] [97; 98; 0; 5] [97; 98] [97; 98]) as (r & H1 & H2 & _).
  - reflexivity.
  - reflexivity.
  - rewrite H1. f_equal. apply H2. reflexivity.
Defined.

(** The optional sign of a number in the input of atoi. *)
Inductive sign_of : list Z → Z → Prop :=
| sign_none : sign_of [] 1
| sign_plus : sign_of [43] 1
| sign_minus : sign_of [45] (-1).

Lemma atoi_skip_spaces sp r :
  Forall (λ c, is_space c = true) sp →
  (∀ c r', r = c :: r' → is_space c = false) → r ≠ [] → atoi_skip (sp ++ r) = Some r.
Proof.
  intros Hsp Hr Hne. induction Hsp as [|c sp Hc Hsp IH]; simpl.
  - destruct r as [|c r]; [done|]. simpl. case_decide; [|done]. by rw (Hr c r).
  - rw Hc IH. rw decide_True //. intros ->. unfold is_space in Hc. discriminate.
Qed.

(** Atoi skips white space, takes an optional sign and the
    decimal digits that follow, and returns their value as a 32-bit int, that
    is modulo 2^32 when it does not fit; it stops at the first other
    character. *)
Theorem atoi_decimal sp sg sign ds c rest :
  Forall (λ c, is_space c = true) sp → sign_of sg sign →
  Forall (λ d, is_digit d = true) ds → is_digit c = false → ds ≠ [] →
  atoi (sp ++ sg ++ ds ++ c :: rest) = Some (i32 (sign * dec_value ds)).
Proof.
  intros Hsp Hsg Hds Hc Hne. unfold atoi. rw atoi_skip_spaces; [done| | |].
  - destruct Hsg; [|by intros ?? [= <- _]..]. destruct Hds as [|d ds Hd Hds]; [done|].
    intros ?? [= <- _]. unfold is_digit in Hd. unfold is_space.
    apply bool_decide_eq_true in Hd. apply bool_decide_eq_false. lia.
  - destruct Hsg; [|done..]. by destruct ds.
  - simpl. destruct Hsg; simpl; [|by apply atoi_signed..].
    destruct ds as [|d ds]; [done|]. cbn [app]. inversion Hds as [|?? Hd Hds']; subst.
    unfold is_digit in Hd. apply bool_decide_eq_true in Hd.
    rw decide_False; [lia|]. rw decide_False; [lia|]. rw decide_False; [lia|].
    by apply (atoi_signed (d :: ds)).
Qed.

Lemma atoi_decimal_witness :
  atoi [32; 45; 49; 50; 120; 0] = Some (-12) ∧
  atoi [52; 50; 57; 52; 57; 54; 55; 50; 57; 55; 0] = Some 1.
Proof.
  split; [reflexivity|].
  exact (atoi_decimal [] [] 1 [52; 50; 57; 52; 57; 54; 55; 50; 57; 55] 0 [] ltac:(constructor)
    sign_none ltac:(repeat constructor) eq_refl ltac:(discriminate)).
Defined.

End Libc.
