(* ===== verification/Bitmap.v ===== *)
(** * Bitmaps (lib/bitmap.c)

    A bitmap is the array of 32-bit words the C code points to; the routines
    run on that array as their state.  [bm_bit bm k] is the abstract view, the
    [k]-th bit, and [bm_wf] says that every word fits 32 bits. *)
From S2P Require Import Prelude.

Module Bitmap.

Abbreviation bitmap_t := (list Z).

(** ** Operations *)

Definition bitmap_sizeof (num_bits : Z) : Z := Z.quot (num_bits + 31) 32 * 4.

(** [bitmap[i] = v] *)
Definition bitmap_store (i v : Z) : M bitmap_t unit := fun bm =>
  match arr_set bm i v with Some bm' => Done tt bm' | None => Fault end.

Definition bitmap_load (i : Z) : M bitmap_t Z := fun bm =>
  match arr_get bm i with Some w => Done w bm | None => Fault end.

Definition bitmap_init (size : Z) : M bitmap_t unit :=
  kernel_assert (bool_decide (0 ≤ size));;
  for_loop (Z.to_nat (Z.quot (size + 31) 32)) 0 (λ i, bitmap_store i 0).

Definition bitmap_get (pos : Z) : M bitmap_t Z :=
  kernel_assert (bool_decide (0 ≤ pos));;
  let i := Z.quot pos 32 in
  let j := Z.rem pos 32 in
  w ← bitmap_load i;
  mret (Z.land (Z.shiftr w j) 1).

Definition bitmap_set (pos value : Z) : M bitmap_t unit :=
  kernel_assert (bool_decide (0 ≤ pos));;
  let i := Z.quot pos 32 in
  let j := Z.rem pos 32 in
  if decide (value = 0) then
    w ← bitmap_load i;
    bitmap_store i (Z.land w (u32 (Z.lnot (i32 (Z.shiftl 1 j)))))
  else if decide (value = 1) then
    w ← bitmap_load i;
    bitmap_store i (Z.lor w (u32 (i32 (Z.shiftl 1 j))))
  else panic "bit value other than 0 or 1".

(** The loop over the bits of one word: [Some r] when the C code returns [r]
    from inside the loop. *)
Definition bitmap_findnset_word (basepos l : Z) : M bitmap_t (option Z) :=
  r ← find_loop 32 0 (λ j, b ← bitmap_get (basepos + j); mret (bool_decide (b = 0)));
  match r with
  | None => mret None
  | Some j =>
    if decide (l ≤ basepos + j) then mret (Some (-1))
    else bitmap_set (basepos + j) 1;; mret (Some (basepos + j))
  end.

(** The loop over the words, [n] of them left, the next one [i]. *)
Fixpoint bitmap_findnset_from (n : nat) (i l : Z) : M bitmap_t Z :=
  match n with
  | O => mret (-1)
  | S n' =>
    w ← bitmap_load i;
    if decide (w ≠ 0xffffffff) then
      r ← bitmap_findnset_word (i * 32) l;
      match r with
      | Some v => mret v
      | None => bitmap_findnset_from n' (i + 1) l
      end
    else bitmap_findnset_from n' (i + 1) l
  end.

Definition bitmap_findnset (l : Z) : M bitmap_t Z :=
  kernel_assert (bool_decide (0 ≤ l));;
  bitmap_findnset_from (Z.to_nat (Z.quot (bitmap_sizeof l) 4)) 0 l.

(** ** The abstract view *)

Definition bm_word (bm : bitmap_t) (i : Z) : Z := default 0 (arr_get bm i).
Definition bm_bit (bm : bitmap_t) (k : Z) : bool :=
  Z.testbit (bm_word bm (k `div` 32)) (k `mod` 32).
Definition bm_len (bm : bitmap_t) : Z := 32 * Z.of_nat (length bm).
Definition bm_wf (bm : bitmap_t) : Prop := Forall (λ w, 0 ≤ w < 2 ^ 32) bm.

(** Set bit [k] to [b]. *)
Definition bm_upd (bm : bitmap_t) (k : Z) (b : bool) : bitmap_t :=
  <[Z.to_nat (k `div` 32) :=
     (if b then Z.setbit else Z.clearbit) (bm_word bm (k `div` 32)) (k `mod` 32)]> bm.

Lemma bm_word_range bm i : bm_wf bm → 0 ≤ bm_word bm i < 2 ^ 32.
Proof.
  intros Hwf. unfold bm_word. destruct (arr_get bm i) as [w|] eqn:E; [|simpl; lia].
  apply arr_get_Some in E as [_ E]. exact (Forall_lookup_1 _ _ _ _ Hwf E).
Qed.

Lemma arr_get_bm_word (bm : bitmap_t) i :
  0 ≤ i < Z.of_nat (length bm) → arr_get bm i = Some (bm_word bm i).
Proof. intros H. unfold bm_word. by destruct (arr_get_is_Some bm i H) as [w ->]. Qed.

Lemma bm_word_upd bm k b i :
  0 ≤ k < bm_len bm →
  bm_word (bm_upd bm k b) i =
    if decide (i = k `div` 32)
    then (if b then Z.setbit else Z.clearbit) (bm_word bm i) (k `mod` 32)
    else bm_word bm i.
Proof.
  unfold bm_len. intros Hk. unfold bm_word at 1, bm_upd.
  rw arr_get_insert; [zdm|]. by case_decide; subst.
Qed.

Lemma bm_bit_upd bm k b j :
  0 ≤ k < bm_len bm →
  bm_bit (bm_upd bm k b) j = if decide (j = k) then b else bm_bit bm j.
Proof.
  intros Hk. unfold bm_bit. rw bm_word_upd //.
  assert (0 ≤ k `mod` 32 ∧ 0 ≤ j `mod` 32) as [? ?] by zdm.
  case_decide as Hd; [|rw decide_False //; naive_solver].
  destruct b; [rw Z.setbit_eqb; [done|]|rw Z.clearbit_eqb];
    destruct (Z.eqb_spec (k `mod` 32) (j `mod` 32)) as [He|He];
    case_decide as Hjk; subst; rw ?Hd ?andb_false_r ?andb_true_r; try done.
  - zdm.
  - zdm.
Qed.

Lemma bm_len_upd bm k b : bm_len (bm_upd bm k b) = bm_len bm.
Proof. unfold bm_len, bm_upd. by rw length_insert. Qed.

Lemma setbit_range w j : 0 ≤ w < 2 ^ 32 → 0 ≤ j < 32 → 0 ≤ Z.setbit w j < 2 ^ 32.
Proof.
  intros. rw Z.setbit_spec'. apply lor_range; [done|].
  split; [apply Z.pow_nonneg; lia|]. apply Z.pow_lt_mono_r; lia.
Qed.

Lemma clearbit_range w j : 0 ≤ w < 2 ^ 32 → 0 ≤ Z.clearbit w j < 2 ^ 32.
Proof. intros. rw Z.clearbit_spec' Z.ldiff_land. by apply land_range. Qed.

Lemma bm_wf_upd bm k b : bm_wf bm → 0 ≤ k → bm_wf (bm_upd bm k b).
Proof.
  intros Hwf Hk. unfold bm_wf, bm_upd. apply Forall_insert; [done|].
  pose proof (bm_word_range bm (k `div` 32) Hwf).
  destruct b; [apply setbit_range; [done|zdm]|by apply clearbit_range].
Qed.

#[export] Hint Resolve bm_wf_upd bm_word_range : buenos.

(** ** The operations on the abstract view *)

Lemma shiftr_land_1 w j : 0 ≤ j → Z.land (Z.shiftr w j) 1 = Z.b2z (Z.testbit w j).
Proof.
  intros. change 1 with (Z.ones 1). rw Z.land_ones; [lia|].
  by rw Z.shiftr_div_pow2 // Z.testbit_spec'.
Qed.

Lemma mask_clear w j :
  0 ≤ w < 2 ^ 32 → 0 ≤ j < 32 →
  Z.land w (u32 (Z.lnot (i32 (Z.shiftl 1 j)))) = Z.clearbit w j.
Proof.
  intros Hw Hj. apply u32_bits_inj; [by apply land_range|by apply clearbit_range|].
  intros k Hk. rw Z.land_spec u32_testbit // Z.lnot_spec; [lia|].
  rw i32_testbit // pow2_testbit; [lia|]. rw Z.clearbit_eqb.
  by destruct (Z.eqb_spec j k); case_bool_decide.
Qed.

Lemma mask_set w j :
  0 ≤ w < 2 ^ 32 → 0 ≤ j < 32 →
  Z.lor w (u32 (i32 (Z.shiftl 1 j))) = Z.setbit w j.
Proof.
  intros Hw Hj. apply u32_bits_inj.
  - apply lor_range; [done|apply u32_range].
  - by apply setbit_range.
  - intros k Hk. rw Z.lor_spec u32_testbit // i32_testbit // pow2_testbit; [lia|].
    rw Z.setbit_eqb; [lia|]. rw orb_comm. f_equal.
    by destruct (Z.eqb_spec j k); case_bool_decide.
Qed.

Lemma bitmap_get_Done bm k :
  0 ≤ k < bm_len bm → bitmap_get k bm = Done (Z.b2z (bm_bit bm k)) bm.
Proof.
  unfold bm_len. intros Hk. unfold bitmap_get. rw bool_decide_true; [lia|]. mstep.
  rw Z.quot_div_nonneg; [lia..|]. rw Z.rem_mod_nonneg; [lia..|].
  unfold bitmap_load, mbind, M_bind. rw arr_get_bm_word; [zdm|].
  cbn [obind]. rw shiftr_land_1 //. zdm.
Qed.

Lemma bitmap_set_Done bm k b :
  bm_wf bm → 0 ≤ k < bm_len bm →
  bitmap_set k (Z.b2z b) bm = Done tt (bm_upd bm k b).
Proof.
  unfold bm_len. intros Hwf Hk. unfold bitmap_set. rw bool_decide_true; [lia|]. mstep.
  rw Z.quot_div_nonneg; [lia..|]. rw Z.rem_mod_nonneg; [lia..|].
  assert (0 ≤ k `mod` 32 < 32) by zdm.
  pose proof (bm_word_range bm (k `div` 32) Hwf).
  unfold bitmap_load, bitmap_store, mbind, M_bind, bm_upd.
  destruct b; simpl; rw arr_get_bm_word; [zdm| |zdm|]; cbn [obind]; rw arr_set_Some; [zdm| |zdm|].
  - by rw mask_set.
  - by rw mask_clear.
Qed.

(** What bitmap_findnset promises: the lowest clear bit below [l] is set and
    returned, or -1 and no change when there is none. *)
Definition findnset_result (bm : bitmap_t) (l r : Z) (bm' : bitmap_t) : Prop :=
  (r = -1 ∧ bm' = bm ∧ ∀ k, 0 ≤ k < l → bm_bit bm k = true) ∨
  (0 ≤ r < l ∧ bm_bit bm r = false ∧ (∀ k, 0 ≤ k < r → bm_bit bm k = true) ∧
   bm' = bm_upd bm r true).

Lemma bm_bit_in_word bm i j :
  0 ≤ j < 32 → bm_bit bm (i * 32 + j) = Z.testbit (bm_word bm i) j.
Proof. intros. unfold bm_bit. f_equal; [f_equal|]; zdm. Qed.

Lemma bm_bit_full_word bm i k :
  bm_word bm i = 0xffffffff → i * 32 ≤ k < i * 32 + 32 → bm_bit bm k = true.
Proof.
  intros Hw Hk. replace k with (i * 32 + (k - i * 32)) by lia.
  rw bm_bit_in_word; [lia|]. rw Hw. change 0xffffffff with (Z.ones 32).
  apply Z.ones_spec_low. lia.
Qed.

(** One word that has a clear bit, whose lower words are full. *)
Lemma findnset_word_spec bm i l :
  bm_wf bm → 0 ≤ i < Z.of_nat (length bm) → i * 32 < l →
  (∀ k, 0 ≤ k < i * 32 → bm_bit bm k = true) →
  (∃ r bm', bitmap_findnset_word (i * 32) l bm = Done (Some r) bm' ∧
     findnset_result bm l r bm') ∨
  (bitmap_findnset_word (i * 32) l bm = Done None bm ∧
   ∀ k, 0 ≤ k < i * 32 + 32 → bm_bit bm k = true).
Proof.
  intros Hwf Hi Hl Hlow. unfold bitmap_findnset_word.
  destruct (find_loop_pure 32 0
    (λ j, b ← bitmap_get (i * 32 + j); mret (bool_decide (b = 0)))
    (λ j, negb (bm_bit bm (i * 32 + j))) bm) as (r & Hr & Hspec).
  { intros j Hj _. unfold mbind, M_bind.
    rw bitmap_get_Done; [unfold bm_len; lia|]. by destruct (bm_bit _ _). }
  mstep. destruct r as [j|].
  - destruct Hspec as (Hj & Hfree%negb_true_iff & Hfull). left.
    assert (∀ k, 0 ≤ k < i * 32 + j → bm_bit bm k = true) as Hbelow.
    { intros k Hk. destruct (decide (k < i * 32)); [apply Hlow; lia|].
      specialize (Hfull (k - i * 32) ltac:(lia)). apply negb_false_iff in Hfull.
      by replace (i * 32 + (k - i * 32)) with k in Hfull by lia. }
    case_decide.
    + exists (-1), bm. split; [done|]. left. split_and!; [done..|].
      intros k Hk. apply Hbelow. lia.
    + exists (i * 32 + j), (bm_upd bm (i * 32 + j) true). split.
      * rw (bind_Done _ _ bm tt (bm_upd bm (i * 32 + j) true)) //.
        apply (bitmap_set_Done bm (i * 32 + j) true); [done|unfold bm_len; lia].
      * right. split_and!; [lia..|done|done|done].
  - right. split; [done|]. intros k Hk. destruct (decide (k < i * 32)); [apply Hlow; lia|].
    specialize (Hspec (k - i * 32) ltac:(lia)). apply negb_false_iff in Hspec.
    by replace (i * 32 + (k - i * 32)) with k in Hspec by lia.
Qed.

Lemma findnset_from_spec n i l bm :
  bm_wf bm → 0 ≤ i → i + Z.of_nat n ≤ Z.of_nat (length bm) →
  (n ≠ 0%nat → (i + Z.of_nat n - 1) * 32 < l) → l ≤ (i + Z.of_nat n) * 32 →
  (∀ k, 0 ≤ k < i * 32 → bm_bit bm k = true) →
  ∃ r bm', bitmap_findnset_from n i l bm = Done r bm' ∧ findnset_result bm l r bm'.
Proof.
  revert i. induction n as [|n IH]; intros i Hwf Hi Hlen Hl1 Hl2 Hlow; simpl.
  - exists (-1), bm. split; [done|]. left. split_and!; [done..|].
    intros k Hk. apply Hlow. lia.
  - erewrite bind_Done; [|unfold bitmap_load; by rw arr_get_bm_word; [lia|]].
    assert ((∀ k, 0 ≤ k < i * 32 + 32 → bm_bit bm k = true) →
      ∃ r bm', bitmap_findnset_from n (i + 1) l bm = Done r bm' ∧
               findnset_result bm l r bm') as Hnext.
    { intros Hfull. apply IH; try lia; [done|]. intros k Hk. apply Hfull. lia. }
    case_decide as Hw.
    + destruct (findnset_word_spec bm i l) as [(r & bm' & Hr & Hres)|[Hr Hfull]];
        [done|lia|lia|done| |].
      * exists r, bm'. by mstep.
      * mstep. auto.
    + apply Hnext. intros k Hk. destruct (decide (k < i * 32)); [apply Hlow; lia|].
      apply (bm_bit_full_word bm i); [done|lia].
Qed.

Lemma findnset_spec bm l :
  bm_wf bm → 0 ≤ l ≤ bm_len bm →
  ∃ r bm', bitmap_findnset l bm = Done r bm' ∧ findnset_result bm l r bm'.
Proof.
  unfold bm_len. intros Hwf Hl. unfold bitmap_findnset.
  rw bool_decide_true; [lia|]. mstep. unfold bitmap_sizeof.
  rw !Z.quot_div_nonneg; [try zdm..|].
  apply findnset_from_spec; [done|lia|zdm|intros; zdm|zdm|lia].
Qed.

Lemma bitmap_init_spec size bm :
  0 ≤ size ≤ bm_len bm →
  wp (bitmap_init size) (λ _ bm', length bm' = length bm ∧
    (bm_wf bm → bm_wf bm') ∧
    (∀ k, 0 ≤ k < size → bm_bit bm' k = false)) bm.
Proof.
  unfold bm_len. intros Hs. unfold bitmap_init. apply wp_bind.
  rw bool_decide_true; [lia|]. apply wp_ret.
  rw Z.quot_div_nonneg; [lia..|].
  apply (wp_for_loop (λ i bm', length bm' = length bm ∧ (bm_wf bm → bm_wf bm') ∧
    ∀ j, 0 ≤ j < i → bm_word bm' j = 0)).
  - split_and!; [done..|lia].
  - intros i bm' Hi (Hlen & Hwf & Hz). unfold wp, bitmap_store.
    rw arr_set_Some; [zdm|]. split_and!; [by rw length_insert| |].
    + intros. apply Forall_insert; [by apply Hwf|lia].
    + intros j Hj. unfold bm_word. rw arr_get_insert; [zdm|].
      case_decide; [done|]. apply Hz. lia.
  - intros bm' (Hlen & Hwf & Hz). split_and!; [done..|]. intros k Hk.
    unfold bm_bit. rw Hz; [zdm|]. apply Z.testbit_0_l.
Qed.

(** ** The clear bits below [n], in increasing order *)

Definition bm_free (bm : bitmap_t) (n : Z) : list Z :=
  filter (λ k, bm_bit bm k = false) (seqZ 0 n).

Lemma seqZ_split n k :
  0 ≤ k < n → seqZ 0 n = seqZ 0 k ++ k :: seqZ (k + 1) (n - k - 1).
Proof.
  intros. replace n with (k + (n - k)) at 1 by lia. rw seqZ_app; [lia..|]. f_equal.
  rw Z.add_0_l seqZ_cons; [lia|]. f_equal; f_equal; lia.
Qed.

Lemma elem_of_bm_free bm n k : k ∈ bm_free bm n ↔ 0 ≤ k < n ∧ bm_bit bm k = false.
Proof. unfold bm_free. rw list_elem_of_filter elem_of_seqZ. intuition lia. Qed.

Lemma bm_free_NoDup bm n : NoDup (bm_free bm n).
Proof. apply NoDup_filter, NoDup_seqZ. Qed.

Lemma filter_bit_ext bm bm' (l : list Z) :
  (∀ k, k ∈ l → bm_bit bm k = bm_bit bm' k) →
  filter (λ k, bm_bit bm k = false) l = filter (λ k, bm_bit bm' k = false) l.
Proof.
  intros H. induction l as [|k l IH]; [done|]. rw !filter_cons (H k); [by left|].
  rw IH; [|done]. intros j Hj. apply H. by right.
Qed.

Lemma bm_free_full bm n : (∀ k, 0 ≤ k < n → bm_bit bm k = true) → bm_free bm n = [].
Proof.
  intros H. apply elem_of_nil_inv. intros k [Hk Hf]%elem_of_bm_free. by rw H in Hf.
Qed.

Lemma bm_free_take bm n r :
  0 ≤ r < n → n ≤ bm_len bm → bm_bit bm r = false →
  (∀ k, 0 ≤ k < r → bm_bit bm k = true) →
  bm_free bm n = r :: bm_free (bm_upd bm r true) n.
Proof.
  intros Hr Hn Hf Hlow. unfold bm_free. rw (seqZ_split n r) // !filter_app !filter_cons.
  rw (decide_True (P := bm_bit bm r = false)) //.
  rw (decide_False (P := bm_bit (bm_upd bm r true) r = false));
    [rw bm_bit_upd; [lia|]; by rw decide_True|].
  change (filter _ (seqZ 0 r)) with (bm_free bm r) at 1.
  change (filter _ (seqZ 0 r)) with (bm_free (bm_upd bm r true) r).
  rw !bm_free_full; [done| |].
  - intros k Hk. rw bm_bit_upd; [lia|]. rw decide_False; [lia|]. by apply Hlow.
  - simpl. f_equal. apply filter_bit_ext. intros k Hk%elem_of_seqZ.
    rw bm_bit_upd; [lia|]. by rw decide_False; [lia|].
Qed.

Lemma bm_free_give bm n k :
  0 ≤ k < n → n ≤ bm_len bm → bm_bit bm k = true →
  bm_free (bm_upd bm k false) n ≡ₚ k :: bm_free bm n.
Proof.
  intros Hk Hn Hb. unfold bm_free. rw (seqZ_split n k) // !filter_app !filter_cons.
  rw (decide_False (P := bm_bit bm k = false)); [by rw Hb|].
  rw (decide_True (P := bm_bit (bm_upd bm k false) k = false));
    [rw bm_bit_upd; [lia|]; by rw decide_True|].
  rw -Permutation_middle. constructor.
  apply Permutation_app; match goal with |- ?a ≡ₚ ?b => enough (a = b) as -> by done end;
    apply filter_bit_ext;
    intros j Hj%elem_of_seqZ; (rw bm_bit_upd; [lia|]); by rw decide_False; [lia|].
Qed.

(** [bitmap_findnset] takes the first element of the list of clear bits. *)
Lemma findnset_free bm l r bm' :
  findnset_result bm l r bm' → l ≤ bm_len bm →
  (r = -1 ∧ bm' = bm ∧ bm_free bm l = []) ∨
  (0 ≤ r < l ∧ bm_free bm l = r :: bm_free bm' l ∧ bm' = bm_upd bm r true).
Proof.
  intros [(-> & -> & H)|(Hr & Hf & Hlow & ->)] Hl.
  - left. split_and!; [done..|]. by apply bm_free_full.
  - right. split_and!; [lia..| |done]. by apply bm_free_take.
Qed.

(** Setting a clear bit and clearing it again changes nothing. *)
Lemma bm_upd_undo bm k :
  0 ≤ k < bm_len bm → bm_bit bm k = false → bm_upd (bm_upd bm k true) k false = bm.
Proof.
  intros Hk Hb. unfold bm_upd at 1. rw bm_word_upd // decide_True //.
  unfold bm_upd. rw list_insert_insert_eq. apply list_insert_id.
  assert (0 ≤ k `mod` 32) by zdm.
  replace (Z.clearbit _ _) with (bm_word bm (k `div` 32)).
  - apply arr_get_Some, arr_get_bm_word. unfold bm_len in Hk. zdm.
  - apply Z.bits_inj'. intros j Hj. rw Z.clearbit_eqb Z.setbit_eqb //.
    unfold bm_bit in Hb. destruct (Z.eqb_spec (k `mod` 32) j) as [<-|]; simpl.
    + by rw Hb ?andb_false_r.
    + by rw andb_true_r.
Qed.

(** ** Properties *)

(** Bitmap_findnset returns the lowest clear bit below the
    limit and sets it, changing no other bit; when every bit below the limit is
    set it returns -1 and changes nothing. Whole words of ones are skipped. *)
Theorem bitmap_findnset_lowest bm l :
  bm_wf bm → 0 ≤ l ≤ bm_len bm →
  ∃ r bm', bitmap_findnset l bm = Done r bm' ∧ bm_wf bm' ∧
    match bm_free bm l with
    | [] => r = -1 ∧ bm' = bm
    | k :: rest => r = k ∧ bm_free bm' l = rest ∧
        ∀ j, 0 ≤ j < bm_len bm → bm_bit bm' j = bool_decide (j = k) || bm_bit bm j
    end.
Proof.
  intros Hwf Hl. destruct (findnset_spec bm l Hwf Hl) as (r & bm' & Hrun & Hres).
  exists r, bm'. split; [done|].
  destruct (findnset_free _ _ _ _ Hres ltac:(lia)) as [(-> & -> & ->)|(Hr & -> & ->)]; [done|].
  split; [by apply bm_wf_upd; [|lia]|]. split_and!; [done..|].
  intros j Hj. rw bm_bit_upd; [lia|]. by repeat case_decide; case_bool_decide.
Qed.

Lemma bitmap_findnset_lowest_witness :
  ∃ bm', bitmap_findnset 40 [0xffffffff; 5] = Done 33 bm'.
Proof.
  destruct (bitmap_findnset_lowest [0xffffffff; 5] 40) as (r & bm' & H1 & _ & H2 & _).
  - repeat constructor; lia.
  - unfold bm_len. cbn. lia.
  - exists bm'. rewrite H1. f_equal. exact H2.
Defined.

End Bitmap.
