(* ===== verification/Cpu.v ===== *)
(** * Interrupt state (kernel/_interrupt.S, kernel/interrupt.h)

    The co-processor 0 Status word of the running CPU, the routines that read
    and write it, and the pattern every kernel service follows: disable
    interrupts, take a spinlock, work, release it, restore the state. *)
From S2P Require Import Prelude.

Definition INTERRUPT_MASK_ALL : Z := 0xff00.
Definition INTERRUPT_MASK_MASTER : Z := 0x1.
Definition INTERRUPT_CAUSE_SOFTWARE_0 : Z := Z.shiftl 1 8.
Definition INTERRUPT_CAUSE_HARDWARE_5 : Z := Z.shiftl 1 15.

Section cpu.
Context {S : Type} (st : lens S Z).

Definition _interrupt_disable : M S Z := fun s =>
  Done (lget st s) (lset st (Z.land 0xffff00fe (lget st s)) s).

Definition _interrupt_enable : M S Z := fun s =>
  Done (lget st s) (lset st (Z.lor 0x0000ff01 (lget st s)) s).

Definition _interrupt_get_state : M S Z := gets (lget st).

(** The old Status is returned, as the other two do. *)
Definition _interrupt_set_state (a0 : Z) : M S Z := fun s =>
  let v0 := lget st s in
  Done v0 (lset st (Z.lor (Z.land 0x0000ff01 a0) (Z.land v0 (u32 (Z.lnot 0x0000ff01)))) s).
End cpu.

(** The assertion of sleepq_add: no interrupt can be taken. *)
Definition interrupts_off (status : Z) : bool :=
  bool_decide (Z.land status INTERRUPT_MASK_ALL = 0) ||
  negb (bool_decide (Z.land status INTERRUPT_MASK_MASTER ≠ 0)).

Definition disabled (status : Z) : Z := Z.land 0xffff00fe status.

Lemma disabled_range w : 0 ≤ w < 2 ^ 32 → 0 ≤ disabled w < 2 ^ 32.
Proof. intros. unfold disabled. rw Z.land_comm. by apply land_range. Qed.

Lemma disabled_off w : interrupts_off (disabled w) = true.
Proof.
  unfold interrupts_off, disabled, INTERRUPT_MASK_ALL.
  rw Z.land_comm Z.land_assoc. change (Z.land 0xff00 0xffff00fe) with 0.
  by rw Z.land_0_l.
Qed.

(** Restoring the state saved by [_interrupt_disable] gives the state before it. *)
Lemma restore_disabled w :
  0 ≤ w < 2 ^ 32 →
  Z.lor (Z.land 0x0000ff01 w) (Z.land (disabled w) (u32 (Z.lnot 0x0000ff01))) = w.
Proof.
  intros Hw. unfold disabled. change (u32 (Z.lnot 0x0000ff01)) with 0xffff00fe.
  rw (Z.land_comm 0xffff00fe) -Z.land_assoc. change (Z.land 0xffff00fe 0xffff00fe) with 0xffff00fe.
  rw (Z.land_comm 0x0000ff01) -Z.land_lor_distr_r.
  change (Z.lor 0x0000ff01 0xffff00fe) with (Z.ones 32).
  rw Z.land_ones; [lia|]. by apply Z.mod_small.
Qed.

(** A critical section whose body keeps the Status word: the lock is free and
    the interrupt state is back afterwards. *)
Section critical.
Context {S A : Type} (st lk : lens S Z).

Definition critical (body : M S A) : M S A :=
  intr_status ← _interrupt_disable st;
  spinlock_acquire lk;;
  a ← body;
  spinlock_release lk;;
  _interrupt_set_state st intr_status;;
  mret a.

Lemma critical_run body s a s' :
  let s1 := lset st (disabled (lget st s)) s in
  lget lk s1 = 0 →
  body (lset lk 1 s1) = Done a s' →
  lget st (lset lk 0 s') = disabled (lget st s) →
  0 ≤ lget st s < 2 ^ 32 →
  critical body s = Done a (lset st (lget st s) (lset lk 0 s')).
Proof.
  simpl. intros Hlk Hbody Hst Hr. unfold critical, mbind, M_bind, mret, M_ret. cbn.
  fold (disabled (lget st s)). unfold spinlock_acquire. case_decide; [|done]. cbn [obind].
  rw Hbody /= Hst. by rw restore_disabled.
Qed.
End critical.

#[export] Hint Resolve disabled_off disabled_range : buenos.
