(* ===== verification/Kmalloc.v ===== *)
(** * Permanent kernel memory (kernel/kmalloc.c)

    The allocator keeps the start of the free area and the end of memory.  The
    YAMS descriptor area and the kernel image's end are hardware and linker
    facts: [descriptors], [io_word] (the word at a device port) and
    [KERNEL_ENDS_HERE] are parameters. *)
From S2P Require Import Prelude.

Module Kmalloc.

Definition PAGE_SIZE : Z := 4096.
Definition PAGE_SIZE_MASK : Z := 0xfffff000.
Definition YAMS_MAX_DEVICES : nat := 128.
Definition KERNEL_BOOT_ADDRESS : Z := 0x80010000.

(** The io_descriptor_t fields the kernel reads (drivers/yams.h). *)
Record io_descriptor := IoDescriptor { io_type : Z; io_area_base : Z; io_irq : Z }.

(** The two static variables of kmalloc.c. *)
Record kmalloc_t := Kmalloc { free_area_start : Z; memory_end : Z }.
#[export] Instance eta_kmalloc : Eta kmalloc_t :=
  fun k => Kmalloc (free_area_start k) (memory_end k).

Section kmalloc.
Variable descriptors : list io_descriptor.
Variable io_word : Z → Z.
Variable KERNEL_ENDS_HERE : Z.

Definition kmalloc_get_numpages {S} : M S Z :=
  found ← find_loop YAMS_MAX_DEVICES 0 (λ i,
    io_desc ← oread (arr_get descriptors i);
    mret (bool_decide (io_type io_desc = 0x101)));
  num_pages ← match found with
    | Some i => io_desc ← oread (arr_get descriptors i); mret (io_word (io_area_base io_desc))
    | None => mret 0
    end;
  if decide (num_pages = 0) then panic "No MemInfo device found." else mret num_pages.

Definition kmalloc_get_reserved_pages : M kmalloc_t Z :=
  start ← gets free_area_start;
  let num_res_pages := u32 (start - 0x80000000) `div` PAGE_SIZE in
  if decide (u32 (start - 0x80000000) `mod` PAGE_SIZE ≠ 0)
  then mret (num_res_pages + 1) else mret num_res_pages.

Definition kmalloc_disable : M kmalloc_t unit :=
  modify (λ k, k <| free_area_start := 0xffffffff |>).

(** The rounding step shared by kmalloc_init and kmalloc. *)
Definition align_word (a : Z) : Z :=
  if decide (Z.land a 0x03 ≠ 0) then Z.land (u32 (a + 4)) 0xfffffffc else a.

Definition kmalloc_init : M kmalloc_t unit :=
  modify (λ k, k <| memory_end := 0 |>);;
  num_pages ← kmalloc_get_numpages;
  let system_memory_size := u32 (num_pages * PAGE_SIZE) in
  modify (λ k, k <| memory_end := u32 (0x80000000 + system_memory_size) |>);;
  modify (λ k, k <| free_area_start := align_word KERNEL_ENDS_HERE |>).

Definition kmalloc (bytes : Z) : M kmalloc_t Z :=
  start ← gets free_area_start;
  mend ← gets memory_end;
  if decide (start = 0xffffffff) then panic "Attempting to use kmalloc after vm init"
  else if decide (start = 0) then panic "Attempting to use kmalloc before initialization"
  else if decide (bytes < 0) then panic "Attempting to kmalloc negative amount of bytes"
  else if decide (mend < u32 (start + bytes)) then panic "Out of memory"
  else
    modify (λ k, k <| free_area_start := align_word (u32 (start + bytes)) |>);;
    mret start.
End kmalloc.

(** ** Properties *)

Lemma align_word_spec a :
  0 ≤ a < 2 ^ 32 - 4 →
  align_word a `mod` 4 = 0 ∧ a ≤ align_word a < a + 4.
Proof.
  intros Ha. unfold align_word. change 0x03 with (Z.ones 2). rw Z.land_ones; [lia|].
  change (2 ^ 2) with 4. case_decide as Hm.
  - rw u32_small; [lia|].
    assert (Z.land (a + 4) 0xfffffffc = (a + 4) `div` 4 * 4) as ->; [|zdm].
    change ((a + 4) `div` 4 * 4) with ((a + 4) `div` 2 ^ 2 * 2 ^ 2).
    rw -Z.shiftl_mul_pow2 // -Z.shiftr_div_pow2 //.
    apply Z.bits_inj'. intros k Hk. rw Z.land_spec Z.shiftl_spec // .
    change 0xfffffffc with (Z.shiftl (Z.ones 30) 2). rw Z.shiftl_spec //.
    destruct (decide (k < 2)).
    + rw !(Z.testbit_neg_r _ (k - 2)); [lia..|]. apply andb_false_r.
    + rw Z.shiftr_spec; [lia|]. replace (k - 2 + 2) with k by lia.
      destruct (decide (k < 32)).
      * rw Z.ones_spec_low; [lia|]. apply andb_true_r.
      * rw -(u32_small (a + 4)); [lia|]. by rw u32_testbit_high; [lia|].
  - lia.
Qed.

(** A state in which kmalloc may be used: the free area is aligned, starts in
    kernel memory, ends at a page boundary. *)
Definition kmalloc_ok (k : kmalloc_t) : Prop :=
  0x80000000 ≤ free_area_start k ≤ memory_end k ∧ memory_end k < 2 ^ 32 - 4096 ∧
  free_area_start k `mod` 4 = 0 ∧ memory_end k `mod` PAGE_SIZE = 0.

Lemma kmalloc_Done bytes k :
  kmalloc_ok k → 0 ≤ bytes → free_area_start k + bytes ≤ memory_end k →
  ∃ k', kmalloc bytes k = Done (free_area_start k) k' ∧ kmalloc_ok k' ∧
    free_area_start k + bytes ≤ free_area_start k' < free_area_start k + bytes + 4 ∧
    memory_end k' = memory_end k.
Proof.
  intros (Hs & He & Ha & Hp) Hb Hfit. unfold kmalloc, mbind, M_bind, gets. cbn.
  rw decide_False; [lia|]. rw decide_False; [lia|]. rw decide_False; [lia|].
  rw u32_small; [lia|]. rw decide_False; [lia|].
  eexists. split; [reflexivity|]. rsimpl.
  destruct (align_word_spec (free_area_start k + bytes)) as [Hm Hr]; [lia|].
  split; [|done]. unfold kmalloc_ok. rsimpl. unfold PAGE_SIZE in *.
  split_and!; [lia|zdm|lia|done|done].
Qed.

(** Allocations of the given sizes, one after the other. *)
Fixpoint kmalloc_all (sizes : list Z) : M kmalloc_t (list Z) :=
  match sizes with
  | [] => mret []
  | n :: sizes' => a ← kmalloc n; l ← kmalloc_all sizes'; mret (a :: l)
  end.

(** Areas [a, a + n) that follow each other from [lo] on. *)
Fixpoint areas_from (lo hi : Z) (addrs sizes : list Z) : Prop :=
  match addrs, sizes with
  | [], [] => lo ≤ hi
  | a :: addrs', n :: sizes' =>
    lo ≤ a ∧ a `mod` 4 = 0 ∧ a + n ≤ hi ∧ areas_from (a + n) hi addrs' sizes'
  | _, _ => False
  end.

Definition total_size (sizes : list Z) : Z := fold_right (λ n t, n + 4 + t) 0 sizes.

Lemma areas_from_mono lo lo' hi addrs sizes :
  lo ≤ lo' → areas_from lo' hi addrs sizes → areas_from lo hi addrs sizes.
Proof. destruct addrs, sizes; simpl; try done; try lia. intros ? (?&?&?). split; [lia|done]. Qed.

(** The areas kmalloc hands out are word aligned, lie inside the
    RAM that is left, and follow each other without overlap, for every
    sequence of requests that fits (each request costs at most three bytes of
    padding). *)
Theorem kmalloc_disjoint sizes k :
  kmalloc_ok k → Forall (λ n, 0 ≤ n) sizes →
  free_area_start k + total_size sizes ≤ memory_end k →
  ∃ addrs k', kmalloc_all sizes k = Done addrs k' ∧ kmalloc_ok k' ∧
    areas_from (free_area_start k) (free_area_start k') addrs sizes.
Proof.
  intros Hk Hs. revert k Hk. induction Hs as [|n sizes Hn Hs IH]; intros k Hk Hfit; simpl in *.
  - exists [], k. split_and!; [done|done|cbn; lia].
  - destruct (kmalloc_Done n k Hk Hn) as (k1 & Hrun & Hk1 & Hst & He).
    { assert (0 ≤ total_size sizes) by (clear -Hs; induction Hs; simpl; lia). lia. }
    destruct (IH k1 Hk1) as (addrs & k2 & Hrun2 & Hk2 & Hareas); [lia|].
    exists (free_area_start k :: addrs), k2. rw (bind_Done _ _ _ _ _ Hrun).
    rw (bind_Done _ _ _ _ _ Hrun2). split_and!; [done|done|].
    assert (areas_from (free_area_start k + n) (free_area_start k2) addrs sizes) as Ha
      by (eapply areas_from_mono; [|exact Hareas]; lia).
    split_and!; [lia|by apply Hk| |done].
    clear -Ha Hs. revert Ha. generalize (free_area_start k + n). revert addrs.
    induction Hs as [|m sizes Hm Hs IH]; intros [|a addrs] lo; simpl; try done.
    intros (? & _ & ? & Ha). specialize (IH _ _ Ha). lia.
Qed.

Lemma kmalloc_disjoint_witness :
  ∃ addrs k', kmalloc_all [10; 3; 8] (Kmalloc 0x80010000 0x80020000) = Done addrs k' ∧
    addrs = [0x80010000; 0x8001000c; 0x80010010].
Proof.
  destruct (kmalloc_disjoint [10; 3; 8] (Kmalloc 0x80010000 0x80020000)) as (addrs & k' & H1 & _ & _).
  - unfold kmalloc_ok. cbn. split; [lia|]. split; [lia|]. split; reflexivity.
  - repeat constructor; lia.
  - cbn. lia.
  - exists addrs, k'. split; [exact H1|]. vm_compute in H1. injection H1 as <- _. reflexivity.
Defined.

End Kmalloc.
