(* ===== verification/Pagepool.v ===== *)
(** * Physical page reservation (vm/pagepool.c)

    [pagepool_t] holds the static variables of pagepool.c, the Status word of
    the CPU and the allocator state of kmalloc.c.  [free_list] is the
    specification: the free page numbers in increasing order; reserving takes
    its head, freeing puts the page back. *)
From stdpp Require Import gmap.
From S2P Require Import Prelude Cpu Bitmap Kmalloc.
Import Bitmap Kmalloc.

Module Pagepool.

Record pagepool_t := Pagepool {
  pagepool_free_pages : bitmap_t;
  pagepool_num_pages : Z;
  pagepool_num_free_pages : Z;
  pagepool_static_end : Z;
  pagepool_slock : Z;
  pp_status : Z;
  pp_kmalloc : kmalloc_t }.
#[export] Instance eta_pagepool : Eta pagepool_t := fun p =>
  Pagepool (pagepool_free_pages p) (pagepool_num_pages p) (pagepool_num_free_pages p)
    (pagepool_static_end p) (pagepool_slock p) (pp_status p) (pp_kmalloc p).

Definition ADDR_PHYS_TO_KERNEL (addr : Z) : Z := Z.lor addr 0x80000000.
Definition ADDR_KERNEL_TO_PHYS (addr : Z) : Z := Z.land addr 0x7fffffff.

Section init.
Variable descriptors : list io_descriptor.
Variable io_word : Z → Z.
(** The contents of [n] words of RAM at an address, before they are set. *)
Variable ram_words : Z → nat → list Z.

Definition pagepool_init : M pagepool_t unit :=
  n ← kmalloc_get_numpages descriptors io_word;
  modify (λ p, p <| pagepool_num_pages := n |>);;
  addr ← zoom #pp_kmalloc (kmalloc (bitmap_sizeof n));
  modify (λ p, p <| pagepool_free_pages := ram_words addr (Z.to_nat (bitmap_sizeof n / 4)) |>);;
  zoom #pagepool_free_pages (bitmap_init n);;
  num_res_pages ← zoom #pp_kmalloc kmalloc_get_reserved_pages;
  modify (λ p, p <| pagepool_num_free_pages := n - num_res_pages |>);;
  modify (λ p, p <| pagepool_static_end := num_res_pages |>);;
  for_loop (Z.to_nat num_res_pages) 0
    (λ i, zoom #pagepool_free_pages (bitmap_set i 1));;
  spinlock_reset #pagepool_slock.
End init.

Definition pagepool_get_phys_page : M pagepool_t Z :=
  i ← critical #pp_status #pagepool_slock (
    num_free ← gets pagepool_num_free_pages;
    if decide (0 < num_free) then
      num_pages ← gets pagepool_num_pages;
      i ← zoom #pagepool_free_pages (bitmap_findnset num_pages);
      modify (λ p, p <| pagepool_num_free_pages := num_free - 1 |>);;
      kernel_assert (bool_decide (0 ≤ i ∧ 0 ≤ num_free - 1));;
      mret i
    else mret 0);
  mret (u32 (i * PAGE_SIZE)).

Definition pagepool_free_phys_page (phys_addr : Z) : M pagepool_t unit :=
  let i := phys_addr `div` PAGE_SIZE in
  static_end ← gets pagepool_static_end;
  kernel_assert (bool_decide (static_end ≤ i));;
  critical #pp_status #pagepool_slock (
    b ← zoom #pagepool_free_pages (bitmap_get i);
    kernel_assert (bool_decide (b = 1));;
    zoom #pagepool_free_pages (bitmap_set i 0);;
    modify (λ p, p <| pagepool_num_free_pages := pagepool_num_free_pages p + 1 |>)).

(** ** Specification: the free pages, lowest first *)
Definition free_list (p : pagepool_t) : list Z :=
  bm_free (pagepool_free_pages p) (pagepool_num_pages p).

Record pp_inv (p : pagepool_t) : Prop := {
  pi_wf : bm_wf (pagepool_free_pages p);
  pi_len : 0 ≤ pagepool_num_pages p ≤ bm_len (pagepool_free_pages p);
  pi_num : pagepool_num_pages p * PAGE_SIZE ≤ 2 ^ 32;
  pi_count : pagepool_num_free_pages p = Z.of_nat (length (free_list p));
  pi_static : 1 ≤ pagepool_static_end p;
  pi_reserved : ∀ k, 0 ≤ k < pagepool_static_end p → k ∉ free_list p;
  pi_slock : pagepool_slock p = 0;
  pi_status : 0 ≤ pp_status p < 2 ^ 32 }.

(** [p'] is [p] with a different set of reserved pages. *)
Definition with_pages (p : pagepool_t) (bm : bitmap_t) (nfree : Z) : pagepool_t :=
  p <| pagepool_free_pages := bm |> <| pagepool_num_free_pages := nfree |>.

Lemma elem_of_free_list p k :
  k ∈ free_list p ↔
  0 ≤ k < pagepool_num_pages p ∧ bm_bit (pagepool_free_pages p) k = false.
Proof. apply elem_of_bm_free. Qed.

Lemma free_list_above_static p k :
  pp_inv p → k ∈ free_list p → pagepool_static_end p ≤ k < pagepool_num_pages p.
Proof.
  intros Hp Hk. pose proof Hk as [? _]%elem_of_free_list.
  destruct (decide (k < pagepool_static_end p)); [|lia].
  exfalso. by apply (pi_reserved p Hp k); [lia|].
Qed.

(** Pages leave or enter the free list without touching the rest. *)
Lemma pp_inv_update p bm nfree :
  pp_inv p → bm_wf bm → bm_len bm = bm_len (pagepool_free_pages p) →
  nfree = Z.of_nat (length (bm_free bm (pagepool_num_pages p))) →
  (∀ k, 0 ≤ k < pagepool_static_end p → k ∉ bm_free bm (pagepool_num_pages p)) →
  pp_inv (with_pages p bm nfree).
Proof. intros [] ????. constructor; rsimpl; try done. by rw H0. Qed.

Lemma get_phys_page_run p :
  pp_inv p →
  match free_list p with
  | [] => pagepool_get_phys_page p = Done 0 p
  | k :: rest =>
    ∃ p', pagepool_get_phys_page p = Done (k * PAGE_SIZE) p' ∧ pp_inv p' ∧
      free_list p' = rest ∧
      p' = with_pages p (bm_upd (pagepool_free_pages p) k true)
             (pagepool_num_free_pages p - 1)
  end.
Proof.
  intros Hp. destruct Hp as [Hwf Hlen Hnum Hcount Hstat Hres Hsl Hst] eqn:E.
  clear E. destruct p as [bm n nf se sl st km]. rsimpl. subst sl.
  unfold free_list in *. rsimpl. unfold pagepool_get_phys_page.
  destruct (findnset_spec bm n Hwf Hlen) as (r & bm' & Hrun & Hres').
  destruct (findnset_free _ _ _ _ Hres' ltac:(lia))
    as [(-> & -> & Hnil)|(Hr & Hcons & ->)].
  - rw Hnil in Hcount |- *. simpl in Hcount. subst nf.
    erewrite bind_Done; [|eapply critical_run; by rsimpl]. by rsimpl.
  - rw Hcons in Hcount |- *. simpl in Hcount.
    set (p := Pagepool bm n nf se 0 st km).
    exists (with_pages p (bm_upd bm r true) (nf - 1)). split.
    + erewrite bind_Done; [|eapply (critical_run _ _ _ p r
        (Pagepool (bm_upd bm r true) n (nf - 1) se 1 (disabled st) km)); [done| |done|done]].
      * by rw /= u32_small; [unfold PAGE_SIZE in *; lia|].
      * rw bind_gets. rsimpl. rw decide_True; [lia|]. rw bind_gets.
        erewrite bind_zoom; [|exact Hrun]. rw bind_modify bind_assert; [lia|]. done.
    + split; [|done].
      apply pp_inv_update; rsimpl; [|by apply bm_wf_upd; [|lia]|by apply bm_len_upd|lia|].
      * exact Hp.
      * intros k Hk Hin. apply (Hres k Hk). rw Hcons. by right.
Qed.

Lemma free_phys_page_run p k off :
  pp_inv p → pagepool_static_end p ≤ k < pagepool_num_pages p → k ∉ free_list p →
  0 ≤ off < PAGE_SIZE →
  ∃ p', pagepool_free_phys_page (k * PAGE_SIZE + off) p = Done tt p' ∧ pp_inv p' ∧
    free_list p' ≡ₚ k :: free_list p ∧
    p' = with_pages p (bm_upd (pagepool_free_pages p) k false)
           (pagepool_num_free_pages p + 1).
Proof.
  intros Hp Hk Hin Hoff. pose proof Hp as [Hwf Hlen Hnum Hcount Hstat Hres Hsl Hst].
  assert (bm_bit (pagepool_free_pages p) k = true) as Hb.
  { destruct (bm_bit _ k) eqn:Hb; [done|]. exfalso. apply Hin, elem_of_free_list.
    split; [lia|done]. }
  pose proof (bm_free_give (pagepool_free_pages p) (pagepool_num_pages p) k
    ltac:(lia) ltac:(lia) Hb) as Hperm.
  exists (with_pages p (bm_upd (pagepool_free_pages p) k false) (pagepool_num_free_pages p + 1)).
  split_and!; [| |done|done].
  - unfold pagepool_free_phys_page.
    replace ((k * PAGE_SIZE + off) `div` PAGE_SIZE) with k by (unfold PAGE_SIZE in *; zdm).
    destruct p as [bm n nf se sl st km]. rsimpl. subst sl. 
    rw bind_gets bind_assert; [rsimpl; lia|].
    erewrite (critical_run _ _ _ _ tt
      (Pagepool (bm_upd bm k false) n (nf + 1) se 1 (disabled st) km)); [done|done| |done|done].
    erewrite bind_zoom; [|apply bitmap_get_Done; rsimpl; lia]. rsimpl. rw Hb bind_assert //.
    by erewrite bind_zoom; [|apply (bitmap_set_Done bm k false); [done|rsimpl; lia]].
  - apply pp_inv_update; [done|by apply bm_wf_upd; [|lia]|by apply bm_len_upd| |].
    + rw (Permutation_length Hperm) Hcount /free_list /=. lia.
    + intros j Hj. rw Hperm. intros [->|Hj']%elem_of_cons; [lia|]. by apply (Hres j).
Qed.

Lemma free_phys_page_static p a :
  a `div` PAGE_SIZE < pagepool_static_end p →
  pagepool_free_phys_page a p = Panic "Assertion failed".
Proof.
  intros H. unfold pagepool_free_phys_page. rw bind_gets bind_assert_fails //. lia.
Qed.

Lemma free_phys_page_free p k off :
  pp_inv p → k ∈ free_list p → 0 ≤ off < PAGE_SIZE →
  pagepool_free_phys_page (k * PAGE_SIZE + off) p = Panic "Assertion failed".
Proof.
  intros Hp Hk Hoff. pose proof (free_list_above_static p k Hp Hk).
  pose proof Hk as [_ Hb]%elem_of_free_list.
  destruct Hp as [Hwf Hlen Hnum Hcount Hstat Hres Hsl Hst].
  unfold pagepool_free_phys_page.
  replace ((k * PAGE_SIZE + off) `div` PAGE_SIZE) with k by (unfold PAGE_SIZE in *; zdm).
  destruct p as [bm n nf se sl st km]. rsimpl. subst sl. rw bind_gets bind_assert; [rsimpl; lia|].
  unfold critical. erewrite bind_Done; [|reflexivity]. rw bind_acquire // bind_bind.
  erewrite bind_zoom; [|apply bitmap_get_Done; rsimpl; lia]. rsimpl. by rw Hb.
Qed.

(** ** Initialisation *)

(** The memory descriptor is the first one of its type. *)
Definition meminfo_at (descriptors : list io_descriptor) (i : Z) (d : io_descriptor) : Prop :=
  0 ≤ i < 128 ∧ arr_get descriptors i = Some d ∧ io_type d = 0x101 ∧
  ∀ j, 0 ≤ j < i → ∃ e, arr_get descriptors j = Some e ∧ io_type e ≠ 0x101.

Lemma find_loop_first {S} (n : nat) lo (test : Z → M S bool) (s : S) i :
  lo ≤ i < lo + Z.of_nat n → test i s = Done true s →
  (∀ j, lo ≤ j < i → test j s = Done false s) → find_loop n lo test s = Done (Some i) s.
Proof.
  revert lo. induction n as [|n IH]; intros lo Hi Ht Hf; [lia|]. simpl.
  destruct (decide (lo = i)) as [->|].
  - erewrite bind_Done; [|exact Ht]. done.
  - erewrite bind_Done; [|apply Hf; lia]. apply IH; [lia|done|]. intros. apply Hf. lia.
Qed.

Lemma get_numpages_run {S} descriptors io_word i d (s : S) :
  meminfo_at descriptors i d → io_word (io_area_base d) ≠ 0 →
  kmalloc_get_numpages descriptors io_word s = Done (io_word (io_area_base d)) s.
Proof.
  intros (Hi & Hd & Ht & Hj) Hn. unfold kmalloc_get_numpages.
  erewrite bind_Done; [|apply (find_loop_first _ _ _ _ i)].
  - cbn beta iota. rw bind_bind Hd bind_oread bind_ret. by rw decide_False.
  - unfold YAMS_MAX_DEVICES. lia.
  - rw Hd bind_oread. by rw bool_decide_true.
  - intros j Hj'. destruct (Hj j Hj') as (e & He & Hne). rw He bind_oread.
    by rw bool_decide_false.
Qed.

Lemma reserve_loop n bm r p :
  bm_wf bm → 0 ≤ r → r ≤ bm_len bm → (∀ k, 0 ≤ k < n → bm_bit bm k = false) →
  wp (for_loop (Z.to_nat r) 0 (λ i, zoom #pagepool_free_pages (bitmap_set i 1)))
    (λ _ p', ∃ bm', p' = p <| pagepool_free_pages := bm' |> ∧ bm_wf bm' ∧
      bm_len bm' = bm_len bm ∧
      ∀ k, 0 ≤ k < n → bm_bit bm' k = bool_decide (k < r))
    (p <| pagepool_free_pages := bm |>).
Proof.
  intros Hwf Hr Hlen Hz.
  apply (wp_for_loop (λ i p', ∃ bm', p' = p <| pagepool_free_pages := bm' |> ∧ bm_wf bm' ∧
    bm_len bm' = bm_len bm ∧ ∀ k, 0 ≤ k < n → bm_bit bm' k = bool_decide (k < i))).
  - exists bm. split_and!; [done..|]. intros k Hk. rw Hz // bool_decide_false //. lia.
  - intros i p' Hi (bm' & -> & Hwf' & Hlen' & Hb). unfold wp, zoom. rsimpl.
    rw (bitmap_set_Done bm' i true) //; [lia|]. exists (bm_upd bm' i true).
    split_and!; [done|by apply bm_wf_upd; [|lia]|by rw bm_len_upd|].
    intros k Hk. rw bm_bit_upd; [lia|]. case_decide.
    + rw bool_decide_true //. lia.
    + rw Hb //. apply bool_decide_ext. lia.
  - intros p'. by replace (0 + Z.of_nat (Z.to_nat r)) with r by lia.
Qed.

Lemma reserved_pages_run k :
  kmalloc_ok k → 0x80000000 < free_area_start k →
  ∃ r, kmalloc_get_reserved_pages k = Done r k ∧ 1 ≤ r ∧
    (r - 1) * PAGE_SIZE < free_area_start k - 0x80000000 ≤ r * PAGE_SIZE ∧
    r * PAGE_SIZE ≤ memory_end k - 0x80000000.
Proof.
  intros (Hs & He & Ha & Hp) Hgt. unfold kmalloc_get_reserved_pages, mbind, M_bind, gets. cbn.
  rw u32_small; [lia|]. unfold PAGE_SIZE in *. case_decide.
  - eexists. split; [reflexivity|]. split_and!; zdm.
  - eexists. split; [reflexivity|]. split_and!; zdm.
Qed.

Lemma bm_free_above bm n r :
  0 ≤ r ≤ n → (∀ k, 0 ≤ k < n → bm_bit bm k = bool_decide (k < r)) →
  bm_free bm n = seqZ r (n - r).
Proof.
  intros Hr Hb. unfold bm_free. replace n with (r + (n - r)) at 1 by lia.
  rw seqZ_app; [lia..|]. rw filter_app. change (filter _ (seqZ 0 r)) with (bm_free bm r).
  rw bm_free_full; [intros k Hk; rw Hb; [lia|]; by rw bool_decide_true; [lia|]|].
  simpl. assert (∀ l : list Z, (∀ k, k ∈ l → bm_bit bm k = false) →
    filter (λ k, bm_bit bm k = false) l = l) as H.
  { intros l. induction l as [|k l IH]; intros Hl; [done|]. rw filter_cons_True.
    - apply Hl. by left.
    - f_equal. apply IH. intros j Hj. apply Hl. by right. }
  apply H. intros k Hk%elem_of_seqZ. rw Hb; [lia|]. by rw bool_decide_false; [lia|].
Qed.

(** What the boot code guarantees before vm_init: kmalloc works and there is
    room for the bitmap. *)
Record boot_ok (descriptors : list io_descriptor) (io_word : Z → Z) (p : pagepool_t) (n : Z)
    : Prop := {
  bo_meminfo : ∃ i d, meminfo_at descriptors i d ∧ io_word (io_area_base d) = n;
  bo_pages : 0 < n ∧ n * PAGE_SIZE < 2 ^ 31 - PAGE_SIZE;
  bo_kmalloc : kmalloc_ok (pp_kmalloc p);
  bo_start : 0x80000000 < free_area_start (pp_kmalloc p);
  bo_end : memory_end (pp_kmalloc p) = 0x80000000 + n * PAGE_SIZE;
  bo_room : free_area_start (pp_kmalloc p) + bitmap_sizeof n ≤ memory_end (pp_kmalloc p);
  bo_status : 0 ≤ pp_status p < 2 ^ 32 }.

Definition ram_ok (ram_words : Z → nat → list Z) : Prop :=
  ∀ a k, length (ram_words a k) = k ∧ bm_wf (ram_words a k).

Lemma bitmap_sizeof_words n :
  0 ≤ n → 0 ≤ bitmap_sizeof n ∧ bitmap_sizeof n `div` 4 = (n + 31) `div` 32.
Proof.
  intros. unfold bitmap_sizeof. rw Z.quot_div_nonneg; [lia..|]. split; [zdm|].
  apply Z.div_mul. lia.
Qed.

Lemma pagepool_init_run descriptors io_word ram_words p n :
  boot_ok descriptors io_word p n → ram_ok ram_words →
  ∃ p', pagepool_init descriptors io_word ram_words p = Done tt p' ∧ pp_inv p' ∧
    pagepool_num_pages p' = n ∧
    free_area_start (pp_kmalloc p) + bitmap_sizeof n ≤
      0x80000000 + pagepool_static_end p' * PAGE_SIZE ∧
    free_list p' = seqZ (pagepool_static_end p') (n - pagepool_static_end p').
Proof.
  intros [(i & d & Hmi & Hw) Hn Hkm Hstart Hend Hroom Hst] Hram.
  destruct (bitmap_sizeof_words n ltac:(lia)) as [Hsz Hwords].
  destruct (kmalloc_Done (bitmap_sizeof n) (pp_kmalloc p) Hkm Hsz Hroom)
    as (km' & Hkrun & Hkm' & Hkst & Hkend).
  destruct (reserved_pages_run km' Hkm' ltac:(lia)) as (r & Hrrun & Hr1 & Hr2 & Hr3).
  unfold pagepool_init.
  erewrite bind_Done; [|apply (get_numpages_run _ _ i d _ Hmi); lia]. rw Hw bind_modify.
  erewrite bind_zoom; [|exact Hkrun]. rw bind_modify Hwords.
  set (bm0 := ram_words _ _).
  destruct (Hram (free_area_start (pp_kmalloc p)) (Z.to_nat ((n + 31) `div` 32))) as [Hl0 Hwf0].
  fold bm0 in Hl0, Hwf0.
  assert (0 ≤ n ≤ bm_len bm0) as Hbl by (unfold bm_len; rw Hl0; zdm).
  pose proof (bitmap_init_spec n bm0 Hbl) as (u & bm1 & Hinit & Hl1 & Hwf1 & Hz)%wp_Done.
  destruct u. specialize (Hwf1 Hwf0). assert (bm_len bm1 = bm_len bm0) as Hbl1
    by (unfold bm_len; by rw Hl1).
  erewrite bind_zoom; [|exact Hinit]. erewrite bind_zoom; [|exact Hrrun].
  rw !bind_modify. unfold PAGE_SIZE in *.
  set (p1 := update pagepool_static_end _ _).
  pose proof (reserve_loop n bm1 r p1 Hwf1 ltac:(lia) ltac:(lia) Hz)
    as (u & p2 & Hloop & bm2 & -> & Hwf2 & Hbl2 & Hb2)%wp_Done.
  assert (p1 <| pagepool_free_pages := bm1 |> = p1) as Hp1 by reflexivity.
  rw Hp1 in Hloop. rw (bind_Done _ _ _ _ _ Hloop).
  eexists. split; [reflexivity|].
  match goal with |- pp_inv ?q ∧ _ => assert (free_list q = seqZ r (n - r)) as Hfl
    by (apply (bm_free_above bm2 n r); [lia|done]) end.
  split_and!; [|done|subst p1; rsimpl; lia|done].
  constructor; [done| |..].
  all: try (intros k Hk); rw ?Hfl ?length_seqZ ?elem_of_seqZ; subst p1; rsimpl;
    unfold PAGE_SIZE; first [lia|done|intros ?; lia].
Qed.

(** ** The allocator as a set of free pages

    [spec_op] is the contract of the allocator on the set of free page numbers:
    a reservation takes the least free page (0 when there is none), a release
    of a reserved page gives it back, any other release stops the kernel. *)
Inductive page_op := OpGet | OpFree (phys_addr : Z).

Definition least_free (n : Z) (free : gset Z) : option Z :=
  head (filter (λ k, k ∈ free) (seqZ 0 n)).

Definition spec_op (static_end n : Z) (free : gset Z) (o : page_op) : option (Z * gset Z) :=
  match o with
  | OpGet =>
    match least_free n free with
    | Some k => Some (k * PAGE_SIZE, free ∖ {[k]})
    | None => Some (0, free)
    end
  | OpFree a =>
    let k := a `div` PAGE_SIZE in
    if decide (static_end ≤ k ∧ k ∉ free) then Some (0, {[k]} ∪ free) else None
  end.

Fixpoint spec_ops (static_end n : Z) (free : gset Z) (os : list page_op)
    : option (list Z * gset Z) :=
  match os with
  | [] => Some ([], free)
  | o :: os' =>
    '(r, free') ← spec_op static_end n free o;
    '(rs, free'') ← spec_ops static_end n free' os';
    Some (r :: rs, free'')
  end.

Definition run_op (o : page_op) : M pagepool_t Z :=
  match o with
  | OpGet => pagepool_get_phys_page
  | OpFree a => pagepool_free_phys_page a;; mret 0
  end.

Fixpoint run_ops (os : list page_op) : M pagepool_t (list Z) :=
  match os with
  | [] => mret []
  | o :: os' => r ← run_op o; rs ← run_ops os'; mret (r :: rs)
  end.

Definition free_set (p : pagepool_t) : gset Z := list_to_set (free_list p).

Lemma elem_of_free_set p k : k ∈ free_set p ↔ k ∈ free_list p.
Proof. apply elem_of_list_to_set. Qed.

Lemma free_list_NoDup p : NoDup (free_list p).
Proof. apply bm_free_NoDup. Qed.

Lemma least_free_head p : least_free (pagepool_num_pages p) (free_set p) = head (free_list p).
Proof.
  unfold least_free, free_list, bm_free. f_equal. apply filter_ext_in. intros k Hk%elem_of_seqZ. rw elem_of_free_set elem_of_free_list.
  intuition lia.
Qed.

(** The parts of the state that no operation changes. *)
Definition same_pool (p p' : pagepool_t) : Prop :=
  pagepool_num_pages p' = pagepool_num_pages p ∧ pagepool_static_end p' = pagepool_static_end p.

Lemma run_op_refines p o :
  pp_inv p → (∀ a, o = OpFree a → a `div` PAGE_SIZE < pagepool_num_pages p) →
  match spec_op (pagepool_static_end p) (pagepool_num_pages p) (free_set p) o with
  | Some (r, free') =>
    ∃ p', run_op o p = Done r p' ∧ pp_inv p' ∧ same_pool p p' ∧ free_set p' = free'
  | None => run_op o p = Panic "Assertion failed"
  end.
Proof.
  intros Hp Ha. destruct o as [|a]; simpl.
  - rw least_free_head. pose proof (get_phys_page_run p Hp) as Hrun.
    pose proof (free_list_NoDup p) as Hnd. pose proof (elem_of_free_set p) as Hset.
    destruct (free_list p) as [|k rest] eqn:Hfl; simpl.
    + by exists p.
    + destruct Hrun as (p' & Hrun & Hp' & Hrest & ->).
      eexists. split_and!; [exact Hrun|done|done|].
      apply NoDup_cons in Hnd as [Hk _]. apply set_eq. intros j.
      rw elem_of_free_set Hrest elem_of_difference Hset elem_of_singleton elem_of_cons.
      split; [intros Hj; split; [by right|intros ->; done]|tauto].
  - set (k := a `div` PAGE_SIZE). specialize (Ha a eq_refl). fold k in Ha.
    assert (a = k * PAGE_SIZE + a `mod` PAGE_SIZE) as Hak by (subst k; unfold PAGE_SIZE; zdm).
    assert (0 ≤ a `mod` PAGE_SIZE < PAGE_SIZE) as Hoff by (unfold PAGE_SIZE; zdm).
    case_decide as Hd; rw elem_of_free_set in Hd.
    + destruct (free_phys_page_run p k _ Hp ltac:(lia) ltac:(tauto) Hoff)
        as (p' & Hrun & Hp' & Hperm & ->).
      rw -Hak in Hrun. eexists. rw (bind_Done _ _ _ _ _ Hrun). split_and!; [done..|].
      apply set_eq. intros j. rw elem_of_free_set Hperm elem_of_cons. set_solver.
    + destruct (decide (pagepool_static_end p ≤ k)).
      * assert (k ∈ free_list p) as Hin by (destruct (decide (k ∈ free_list p)); tauto).
        pose proof (free_phys_page_free p k _ Hp Hin Hoff) as Hrun. rw -Hak in Hrun.
        unfold mbind, M_bind. by rw Hrun.
      * unfold mbind, M_bind. rw free_phys_page_static; [fold k; lia|]. done.
Qed.

(** C37 (refinement): the physical page allocator implements its contract. From
    any state in which the pool is consistent, every sequence of reservations
    and releases gives the results of the specification on the set of free
    pages: each reservation returns the lowest free page and removes it from
    the set, so that no page is handed out twice, a reservation from an empty
    pool returns 0, and releasing a page that is free or belongs to the
    permanent part stops the kernel. The bitmap, the counter of free pages and
    the lock stay consistent. *)
Theorem pagepool_refines_free_set p os :
  pp_inv p →
  (∀ a, OpFree a ∈ os → a `div` PAGE_SIZE < pagepool_num_pages p) →
  match spec_ops (pagepool_static_end p) (pagepool_num_pages p) (free_set p) os with
  | Some (rs, free') => ∃ p', run_ops os p = Done rs p' ∧ pp_inv p' ∧ free_set p' = free'
  | None => run_ops os p = Panic "Assertion failed"
  end.
Proof.
  revert p. induction os as [|o os IH]; intros p Hp Ha; [by exists p|]. simpl.
  pose proof (run_op_refines p o Hp) as Hop.
  destruct (spec_op _ _ _ _) as [[r free1]|]; simpl.
  - destruct Hop as (p1 & Hrun & Hp1 & [Hn Hs] & <-).
    { intros a ->. apply Ha. by left. }
    rw (bind_Done _ _ _ _ _ Hrun). rw -Hn -Hs. specialize (IH p1 Hp1).
    destruct (spec_ops _ _ _ _) as [[rs free2]|]; simpl.
    + destruct IH as (p2 & Hrun2 & Hp2 & Hf).
      { intros a Hin. rw Hn. apply Ha. by right. }
      exists p2. by rw (bind_Done _ _ _ _ _ Hrun2).
    + unfold mbind, M_bind. rw IH //. intros a Hin. rw Hn. apply Ha. by right.
  - unfold mbind, M_bind. rw Hop //. intros a ->. apply Ha. by left.
Qed.

(** A pool of 8 pages of which two are permanent. *)
Definition example_pool : pagepool_t :=
  Pagepool [3] 8 6 2 0 0xff01 (Kmalloc 0x80002000 0x80008000).

Lemma example_pool_ok : pp_inv example_pool.
Proof.
  constructor; cbn.
  - constructor; [lia|constructor].
  - unfold bm_len. simpl. lia.
  - unfold PAGE_SIZE. lia.
  - reflexivity.
  - lia.
  - intros k Hk [_ Hb]%elem_of_free_list.
    assert (k = 0 ∨ k = 1) as [-> | ->] by lia; vm_compute in Hb; discriminate.
  - reflexivity.
  - lia.
Defined.

Lemma pagepool_refines_free_set_witness :
  run_ops [OpGet; OpGet; OpFree 8192; OpGet; OpGet; OpFree 4096] example_pool =
    Panic "Assertion failed" ∧
  ∃ p', run_ops [OpGet; OpGet; OpFree 8192; OpGet; OpGet] example_pool =
    Done [8192; 12288; 0; 8192; 16384] p' ∧ pp_inv p'.
Proof.
  split; [by vm_compute|].
  destruct (pagepool_refines_free_set example_pool [OpGet; OpGet; OpFree 8192; OpGet; OpGet]
    example_pool_ok) as (p' & Hrun & Hp' & _).
  - intros a Hin. repeat (apply elem_of_cons in Hin as [Heq|Hin];
      [first [discriminate|injection Heq as ->; reflexivity]|]).
    by apply elem_of_nil in Hin.
  - exists p'. split; [exact Hrun|exact Hp'].
Defined.

(** After pagepool_init every page from the end of the
    permanent memory (kernel image, boot data and the bitmap itself) to the end
    of RAM is free, no other page is, and the pool is consistent. *)
Theorem pagepool_init_all_free descriptors io_word ram_words p n :
  boot_ok descriptors io_word p n → ram_ok ram_words →
  ∃ p', pagepool_init descriptors io_word ram_words p = Done tt p' ∧ pp_inv p' ∧
    pagepool_num_pages p' = n ∧
    free_area_start (pp_kmalloc p) + bitmap_sizeof n ≤
      0x80000000 + pagepool_static_end p' * PAGE_SIZE ∧
    free_list p' = seqZ (pagepool_static_end p') (n - pagepool_static_end p').
Proof. apply pagepool_init_run. Qed.

Lemma pagepool_init_all_free_witness :
  let descriptors := [IoDescriptor 0x101 0xb0000000 0] in
  let io_word := λ a, if decide (a = 0xb0000000) then 256 else 0 in
  let ram_words := λ (_ : Z) k, replicate k 0xffffffff in
  let p := Pagepool [] 0 0 0 0 0 (Kmalloc 0x80010000 0x80100000) in
  ∃ p', pagepool_init descriptors io_word ram_words p = Done tt p' ∧
    free_list p' = seqZ (pagepool_static_end p') (256 - pagepool_static_end p').
Proof.
  intros descriptors io_word ram_words p.
  destruct (pagepool_init_all_free descriptors io_word ram_words p 256)
    as (p' & H1 & _ & _ & _ & H2).
  - constructor; cbn; unfold PAGE_SIZE; try lia.
    + exists 0, (IoDescriptor 0x101 0xb0000000 0). split; [|reflexivity].
      split; [lia|]. split; [reflexivity|]. split; [reflexivity|]. intros; lia.
    + unfold kmalloc_ok. cbn. unfold PAGE_SIZE. split_and!; try lia; reflexivity.
    + unfold bitmap_sizeof. change (Z.quot (256 + 31) 32) with 8. lia.
  - intros a k. split; [apply length_replicate|]. apply Forall_replicate. lia.
  - exists p'. split; [exact H1|exact H2].
Defined.

End Pagepool.
