(* ===== verification/Vm.v ===== *)
(** * Page tables and the TLB (vm/vm.c, vm/tlb.c, vm/pagetable.h, vm/tlb.h)

    A page table is the record of vm/pagetable.h; [pt_translate] is the mapping
    it stands for (page number to frame number and write-enable bit).  The TLB
    hardware is the list of its rows and the current address space id. *)
From S2P Require Import Prelude Pagepool.
Import Pagepool.

Module Vm.

Definition PAGETABLE_ENTRIES : Z := 340.

(** tlb_entry_t, without the padding and the unused cache fields. *)
Record tlb_entry := TlbEntry {
  VPN2 : Z; ASID : Z;
  PFN0 : Z; D0 : Z; V0 : Z; G0 : Z;
  PFN1 : Z; D1 : Z; V1 : Z; G1 : Z }.
#[export] Instance eta_tlb_entry : Eta tlb_entry := fun e =>
  TlbEntry (VPN2 e) (ASID e) (PFN0 e) (D0 e) (V0 e) (G0 e) (PFN1 e) (D1 e) (V1 e) (G1 e).

Record pagetable_t := Pagetable {
  pt_ASID : Z; valid_count : Z; entries : list tlb_entry }.
#[export] Instance eta_pagetable : Eta pagetable_t := fun p =>
  Pagetable (pt_ASID p) (valid_count p) (entries p).

Definition ADDR_IS_ON_EVEN_PAGE (addr : Z) : bool :=
  bool_decide (Z.land addr 0x00001000 = 0).

(** ** Operations on a page table *)

Definition load_entry (i : Z) : M pagetable_t tlb_entry := fun pt =>
  oread (arr_get (entries pt) i) pt.
Definition store_entry (i : Z) (e : tlb_entry) : M pagetable_t unit := fun pt =>
  match arr_set (entries pt) i e with
  | Some es => Done tt (pt <| entries := es |>)
  | None => Fault
  end.

(** The loop shared by vm_map and vm_set_dirty: the first valid entry for the
    page pair of [vaddr]. *)
Definition find_entry (vaddr : Z) : M pagetable_t (option Z) :=
  n ← gets valid_count;
  find_loop (Z.to_nat n) 0 (λ i,
    e ← load_entry i; mret (bool_decide (VPN2 e = Z.shiftr vaddr 13))).

Definition vm_map (physaddr vaddr dirty : Z) : M pagetable_t unit :=
  kernel_assert (bool_decide (dirty = 0 ∨ dirty = 1));;
  found ← find_entry vaddr;
  match found with
  | Some i =>
    e ← load_entry i;
    if ADDR_IS_ON_EVEN_PAGE vaddr then
      if decide (V0 e = 1) then panic "Tried to re-map same virtual page"
      else store_entry i (e <| PFN0 := Z.shiftr physaddr 12 |> <| V0 := 1 |>
                            <| G0 := 0 |> <| D0 := dirty |>)
    else
      if decide (V1 e = 1) then panic "Tried to re-map same virtual page"
      else store_entry i (e <| PFN1 := Z.shiftr physaddr 12 |> <| V1 := 1 |>
                            <| G1 := 0 |> <| D1 := dirty |>)
  | None =>
    n ← gets valid_count;
    if decide (PAGETABLE_ENTRIES ≤ n)
    then panic "Thread run out of pagetable mapping entries."
    else
      asid ← gets pt_ASID;
      e ← load_entry n;
      let e := e <| VPN2 := Z.shiftr vaddr 13 |> <| ASID := u8 asid |> in
      (if ADDR_IS_ON_EVEN_PAGE vaddr then
         store_entry n (e <| PFN0 := Z.shiftr physaddr 12 |> <| D0 := dirty |>
                          <| V0 := 1 |> <| G0 := 0 |> <| V1 := 0 |>)
       else
         store_entry n (e <| PFN1 := Z.shiftr physaddr 12 |> <| D1 := dirty |>
                          <| V1 := 1 |> <| G1 := 0 |> <| V0 := 0 |>));;
      modify (λ pt, pt <| valid_count := n + 1 |>)
  end.

Definition vm_unmap (vaddr : Z) : M pagetable_t unit := mret tt.

Definition vm_set_dirty (vaddr dirty : Z) : M pagetable_t unit :=
  kernel_assert (bool_decide (dirty = 0 ∨ dirty = 1));;
  found ← find_entry vaddr;
  match found with
  | Some i =>
    e ← load_entry i;
    if ADDR_IS_ON_EVEN_PAGE vaddr then
      if decide (V0 e = 0) then panic "Tried to set dirty bit of an unmapped entry"
      else store_entry i (e <| D0 := dirty |>)
    else
      if decide (V1 e = 0) then panic "Tried to set dirty bit of an unmapped entry"
      else store_entry i (e <| D1 := dirty |>)
  | None => panic "Tried to set dirty bit of an unmapped entry"
  end.

(** ** Creating and destroying page tables

    [vm_tables] maps the kernel address of a page table to its contents; the
    entries of a fresh one are whatever the page held before. *)
Record vm_t := Vm { vm_pool : pagepool_t; vm_tables : list (Z * pagetable_t) }.
#[export] Instance eta_vm : Eta vm_t := fun v => Vm (vm_pool v) (vm_tables v).

Fixpoint tables_get (l : list (Z * pagetable_t)) (a : Z) : option pagetable_t :=
  match l with
  | [] => None
  | (b, pt) :: l' => if decide (a = b) then Some pt else tables_get l' a
  end.

Definition vm_create_pagetable (ram_entries : Z → list tlb_entry) (asid : Z) : M vm_t Z :=
  addr ← zoom #vm_pool pagepool_get_phys_page;
  if decide (addr = 0) then mret 0
  else
    let table := ADDR_PHYS_TO_KERNEL addr in
    modify (λ v, v <| vm_tables := (table, Pagetable asid 0 (ram_entries table)) :: vm_tables v |>);;
    mret table.

Definition vm_destroy_pagetable (pagetable : Z) : M vm_t unit :=
  zoom #vm_pool (pagepool_free_phys_page (ADDR_KERNEL_TO_PHYS pagetable)).

(** ** The TLB *)
Record tlb_t := Tlb { tlb_rows : list tlb_entry; tlb_asid : Z }.
#[export] Instance eta_tlb : Eta tlb_t := fun t => Tlb (tlb_rows t) (tlb_asid t).

Definition _tlb_get_maxindex (t : tlb_t) : Z := Z.of_nat (length (tlb_rows t)) - 1.

(** Rows are written until [num] are, or the last row of the TLB is.  A row is
    written through EntryHi, whose low bits are the current ASID. *)
Fixpoint _tlb_write (es : list tlb_entry) (index : Z) (num : nat) (t : tlb_t) : tlb_t :=
  match num, es with
  | S num', e :: es' =>
    match arr_set (tlb_rows t) index e with
    | Some rows => _tlb_write es' (index + 1) num' (t <| tlb_rows := rows |> <| tlb_asid := ASID e |>)
    | None => t
    end
  | _, _ => t
  end.

Definition _tlb_set_asid (asid : Z) (t : tlb_t) : tlb_t := t <| tlb_asid := Z.land asid 0x00ff |>.

(** [None] is the NULL page table of a kernel thread. *)
Definition tlb_fill (pagetable : option pagetable_t) : M tlb_t unit :=
  match pagetable with
  | None => mret tt
  | Some pt =>
    maxindex ← gets _tlb_get_maxindex;
    kernel_assert (bool_decide (valid_count pt ≤ maxindex + 1));;
    modify (_tlb_write (entries pt) 0 (Z.to_nat (valid_count pt)));;
    modify (_tlb_set_asid (pt_ASID pt))
  end.

(** ** The mapping a page table stands for *)

Fixpoint find_vpn (es : list tlb_entry) (v : Z) : option tlb_entry :=
  match es with
  | [] => None
  | e :: es' => if decide (VPN2 e = v) then Some e else find_vpn es' v
  end.

(** Frame number and write-enable bit of one half of an entry. *)
Definition entry_half (e : tlb_entry) (even : bool) : option (Z * Z) :=
  if even then if decide (V0 e = 1) then Some (PFN0 e, D0 e) else None
  else if decide (V1 e = 1) then Some (PFN1 e, D1 e) else None.

Definition valid_entries (pt : pagetable_t) : list tlb_entry :=
  take (Z.to_nat (valid_count pt)) (entries pt).

Definition pt_translate (pt : pagetable_t) (vaddr : Z) : option (Z * Z) :=
  e ← find_vpn (valid_entries pt) (Z.shiftr vaddr 13);
  entry_half e (ADDR_IS_ON_EVEN_PAGE vaddr).

(** What the hardware finds: a row for the page pair with the current ASID. *)
Fixpoint find_row (es : list tlb_entry) (asid v : Z) : option tlb_entry :=
  match es with
  | [] => None
  | e :: es' => if decide (VPN2 e = v ∧ ASID e = asid) then Some e else find_row es' asid v
  end.
Definition tlb_translate (t : tlb_t) (vaddr : Z) : option (Z * Z) :=
  e ← find_row (tlb_rows t) (tlb_asid t) (Z.shiftr vaddr 13);
  entry_half e (ADDR_IS_ON_EVEN_PAGE vaddr).

Definition entry_ok (asid : Z) (e : tlb_entry) : Prop :=
  (V0 e = 0 ∨ V0 e = 1) ∧ (V1 e = 0 ∨ V1 e = 1) ∧ ASID e = u8 asid.

Record pt_ok (pt : pagetable_t) : Prop := {
  po_len : Z.of_nat (length (entries pt)) = PAGETABLE_ENTRIES;
  po_count : 0 ≤ valid_count pt ≤ PAGETABLE_ENTRIES;
  po_entries : Forall (entry_ok (pt_ASID pt)) (valid_entries pt);
  po_nodup : NoDup (VPN2 <$> valid_entries pt) }.

Definition same_page (a b : Z) : Prop := Z.shiftr a 12 = Z.shiftr b 12.
#[export] Instance same_page_dec a b : Decision (same_page a b) := decide (_ = _).

(** ** Lookup lemmas *)

Definition first_at (es : list tlb_entry) (i : nat) (e : tlb_entry) (v : Z) : Prop :=
  es !! i = Some e ∧ VPN2 e = v ∧ ∀ j y, (j < i)%nat → es !! j = Some y → VPN2 y ≠ v.

Lemma find_vpn_first es i e v : first_at es i e v → find_vpn es v = Some e.
Proof.
  revert i. induction es as [|x es IH]; intros i (Hi & Hv & Hf); [done|]. simpl.
  destruct i as [|i].
  - injection Hi as ->. by rw decide_True.
  - rw decide_False; [by apply (Hf 0%nat); [lia|]|]. apply (IH i). split_and!; [done..|].
    intros j y Hj. apply (Hf (S j)). lia.
Qed.

Lemma find_vpn_insert es i e e' v w :
  first_at es i e v → VPN2 e' = v →
  find_vpn (<[i := e']> es) w = if decide (w = v) then Some e' else find_vpn es w.
Proof.
  revert i. induction es as [|x es IH]; intros i (Hi & Hv & Hf) Hv'; [done|].
  destruct i as [|i]; simpl.
  - injection Hi as ->. rw Hv Hv'. repeat case_decide; congruence.
  - assert (VPN2 x ≠ v) by (by apply (Hf 0%nat); [lia|]).
    rw (IH i); [|done|].
    + split_and!; [done..|]. intros j y Hj. apply (Hf (S j)). lia.
    + repeat case_decide; congruence.
Qed.

Lemma find_vpn_snoc es e w :
  find_vpn (es ++ [e]) w =
    match find_vpn es w with
    | Some x => Some x
    | None => if decide (VPN2 e = w) then Some e else None
    end.
Proof. induction es as [|x es IH]; simpl; [done|]. destruct (decide (VPN2 x = w)); [done|]. apply IH. Qed.

Lemma find_vpn_None es v :
  find_vpn es v = None ↔ (∀ j y, es !! j = Some y → VPN2 y ≠ v).
Proof.
  induction es as [|x es IH]; simpl; [naive_solver|]. case_decide as Hd.
  - split; [done|]. intros H. by destruct (H 0%nat x).
  - rw IH. split.
    + intros H [|j] y; [by intros [= <-]|apply H].
    + intros H j y. apply (H (S j)).
Qed.

Lemma find_entry_run pt v :
  pt_ok pt →
  ∃ r, find_entry v pt = Done r pt ∧
  match r with
  | Some i => ∃ e, 0 ≤ i < valid_count pt ∧ arr_get (entries pt) i = Some e ∧
      first_at (valid_entries pt) (Z.to_nat i) e (Z.shiftr v 13)
  | None => find_vpn (valid_entries pt) (Z.shiftr v 13) = None
  end.
Proof.
  intros [Hl Hc _ _]. unfold find_entry. rw bind_gets.
  set (p := λ i, match arr_get (entries pt) i with
                 | Some e => bool_decide (VPN2 e = Z.shiftr v 13) | None => false end).
  destruct (find_loop_pure (Z.to_nat (valid_count pt)) 0
    (λ i, e ← load_entry i; mret (bool_decide (VPN2 e = Z.shiftr v 13))) p pt) as (r & Hr & Hs).
  { intros i Hi _. destruct (arr_get_is_Some (entries pt) i) as [e He]; [lia|].
    unfold mbind, M_bind, load_entry. rw He /=. unfold p. by rw He. }
  exists r. split; [done|].
  assert (∀ j y, valid_entries pt !! j = Some y →
    (j < Z.to_nat (valid_count pt))%nat ∧ p (Z.of_nat j) = bool_decide (VPN2 y = Z.shiftr v 13))
    as Hval.
  { intros j y [Hy Hj]%lookup_take_Some. split; [done|]. unfold p, arr_get.
    rw decide_True; [lia|]. by rw Nat2Z.id Hy. }
  destruct r as [i|].
  - destruct Hs as (Hi & Hp & Hf). destruct (arr_get_is_Some (entries pt) i) as [e He]; [lia|].
    exists e. split_and!; [lia..|done|]. apply arr_get_Some in He as He'. split_and!.
    + apply lookup_take_Some. split; [by destruct He'|lia].
    + unfold p in Hp. rw He in Hp. by apply bool_decide_eq_true in Hp.
    + intros j y Hj Hy. destruct (Hval j y Hy) as [_ Hpj].
      rw Hf in Hpj; [lia|]. symmetry in Hpj. by apply bool_decide_eq_false in Hpj.
  - apply find_vpn_None. intros j y Hy. destruct (Hval j y Hy) as [? Hpj].
    rw Hs in Hpj; [lia|]. symmetry in Hpj. by apply bool_decide_eq_false in Hpj.
Qed.

(** Page number, page pair and parity. *)
Lemma even_testbit a : ADDR_IS_ON_EVEN_PAGE a = negb (Z.testbit a 12).
Proof.
  unfold ADDR_IS_ON_EVEN_PAGE.
  assert (Z.land a 0x00001000 = Z.b2z (Z.testbit a 12) * 2 ^ 12) as ->.
  { apply Z.bits_inj'. intros k Hk. rw Z.land_spec. change 0x1000 with (2 ^ 12).
    rw Z.pow2_bits_eqb; [lia|]. destruct (Z.eqb_spec 12 k) as [<-|Hne].
    - rw andb_true_r Z.mul_pow2_bits; [lia|]. by rw Z.sub_diag Z.b2z_bit0.
    - rw andb_false_r. destruct (Z.testbit a 12); [|by rw Z.bits_0].
      change (Z.b2z true * 2 ^ 12) with (2 ^ 12). by rw Z.pow2_bits_false. }
  by destruct (Z.testbit a 12).
Qed.

Lemma same_page_split a b :
  same_page a b ↔
  Z.shiftr a 13 = Z.shiftr b 13 ∧ ADDR_IS_ON_EVEN_PAGE a = ADDR_IS_ON_EVEN_PAGE b.
Proof.
  unfold same_page. rw !even_testbit.
  replace (Z.shiftr a 13) with (Z.shiftr (Z.shiftr a 12) 1) by (by rw Z.shiftr_shiftr).
  replace (Z.shiftr b 13) with (Z.shiftr (Z.shiftr b 12) 1) by (by rw Z.shiftr_shiftr).
  replace (Z.testbit a 12) with (Z.testbit (Z.shiftr a 12) 0) by (by rw Z.shiftr_spec).
  replace (Z.testbit b 12) with (Z.testbit (Z.shiftr b 12) 0) by (by rw Z.shiftr_spec).
  rw !Z.bit0_odd -!Z.div2_spec.
  generalize (Z.shiftr a 12) (Z.shiftr b 12). intros x y. split; [by intros ->|].
  intros [Hd Ho]. rw (Z.div2_odd x) (Z.div2_odd y) Hd.
  by destruct (Z.odd x), (Z.odd y).
Qed.

(** ** Updating an entry in place *)

Lemma store_entry_run pt i e e' v :
  pt_ok pt → 0 ≤ i < valid_count pt → first_at (valid_entries pt) (Z.to_nat i) e v →
  VPN2 e' = v → entry_ok (pt_ASID pt) e' →
  ∃ pt', store_entry i e' pt = Done tt pt' ∧ pt_ok pt' ∧ pt_ASID pt' = pt_ASID pt ∧
    valid_count pt' = valid_count pt ∧
    ∀ w, pt_translate pt' w =
      if decide (Z.shiftr w 13 = v) then entry_half e' (ADDR_IS_ON_EVEN_PAGE w)
      else pt_translate pt w.
Proof.
  intros [Hl Hc He Hnd] Hi Hf Hv Hok.
  exists (pt <| entries := <[Z.to_nat i := e']> (entries pt) |>).
  assert (valid_entries (pt <| entries := <[Z.to_nat i := e']> (entries pt) |>) =
          <[Z.to_nat i := e']> (valid_entries pt)) as Hval.
  { unfold valid_entries. rsimpl. rw take_insert_lt //. lia. }
  split_and!; try done.
  - unfold store_entry. by rw arr_set_Some; [lia|].
  - constructor; rw ?Hval.
    + rsimpl. by rw length_insert.
    + done.
    + by apply Forall_insert.
    + destruct Hf as (Hlk & He' & _). rw list_fmap_insert.
      rw list_insert_id; [|done]. rw list_lookup_fmap Hlk /=. congruence.
  - intros w. unfold pt_translate. rw Hval (find_vpn_insert _ _ e _ v) //. by case_decide.
Qed.

Lemma append_entry_ok pt e' :
  pt_ok pt → valid_count pt < PAGETABLE_ENTRIES →
  find_vpn (valid_entries pt) (VPN2 e') = None → entry_ok (pt_ASID pt) e' →
  let pt' := (pt <| entries := <[Z.to_nat (valid_count pt) := e']> (entries pt) |>)
                 <| valid_count := valid_count pt + 1 |> in
  pt_ok pt' ∧ ∀ w, pt_translate pt' w =
    if decide (Z.shiftr w 13 = VPN2 e') then entry_half e' (ADDR_IS_ON_EVEN_PAGE w)
    else pt_translate pt w.
Proof.
  intros [Hl Hc He Hnd] Hlt Hnone Hok pt'.
  assert (valid_entries pt' = valid_entries pt ++ [e']) as Hval.
  { unfold valid_entries, pt'. rsimpl.
    replace (Z.to_nat (valid_count pt + 1)) with (S (Z.to_nat (valid_count pt))) by lia.
    erewrite take_S_r; [|apply list_lookup_insert_eq; lia]. by rw take_insert_ge. }
  split.
  - constructor; rw ?Hval.
    + unfold pt'. rsimpl. by rw length_insert.
    + unfold pt'. rsimpl. lia.
    + apply Forall_app_2; [done|by constructor].
    + rw fmap_app /=. apply NoDup_app. split_and!; [done| |apply NoDup_singleton].
      intros x (y & -> & [j Hj]%list_elem_of_lookup)%list_elem_of_fmap.
      rw list_elem_of_singleton. by apply (proj1 (find_vpn_None _ _) Hnone j y).
  - intros w. unfold pt_translate. rw Hval find_vpn_snoc.
    destruct (decide (Z.shiftr w 13 = VPN2 e')) as [Hw|Hw].
    + rw Hw Hnone. by rw decide_True.
    + destruct (find_vpn (valid_entries pt) (Z.shiftr w 13)); [done|]. by case_decide; [congruence|].
Qed.

Lemma append_entry_run pt e' :
  pt_ok pt → valid_count pt < PAGETABLE_ENTRIES →
  find_vpn (valid_entries pt) (VPN2 e') = None → entry_ok (pt_ASID pt) e' →
  ∃ pt', (store_entry (valid_count pt) e';;
          modify (λ p, p <| valid_count := valid_count pt + 1 |>)) pt = Done tt pt' ∧
    pt_ok pt' ∧ pt_ASID pt' = pt_ASID pt ∧
    ∀ w, pt_translate pt' w =
      if decide (Z.shiftr w 13 = VPN2 e') then entry_half e' (ADDR_IS_ON_EVEN_PAGE w)
      else pt_translate pt w.
Proof.
  intros Hok Hlt Hnone Heok. destruct (append_entry_ok pt e' Hok Hlt Hnone Heok) as [Hok' Htr].
  eexists. split; [|split; [exact Hok'|split; [reflexivity|exact Htr]]].
  erewrite bind_Done; [reflexivity|]. unfold store_entry.
  rw arr_set_Some; [destruct Hok; lia|]. reflexivity.
Qed.

(** ** vm_map *)

Lemma half_of_translate pt e i v :
  first_at (valid_entries pt) i e (Z.shiftr v 13) →
  pt_translate pt v = entry_half e (ADDR_IS_ON_EVEN_PAGE v).
Proof. intros Hf. unfold pt_translate. by rw (find_vpn_first _ _ _ _ Hf). Qed.

(** The mapping after one half of a page pair has been given a new value. *)
Lemma translate_half pt e' v q w (f : Z → option (Z * Z)) :
  (∀ w, f w = if decide (Z.shiftr w 13 = Z.shiftr v 13)
              then entry_half e' (ADDR_IS_ON_EVEN_PAGE w) else pt_translate pt w) →
  entry_half e' (ADDR_IS_ON_EVEN_PAGE v) = q →
  (∀ w, Z.shiftr w 13 = Z.shiftr v 13 → ADDR_IS_ON_EVEN_PAGE w ≠ ADDR_IS_ON_EVEN_PAGE v →
     entry_half e' (ADDR_IS_ON_EVEN_PAGE w) = pt_translate pt w) →
  f w = if decide (same_page w v) then q else pt_translate pt w.
Proof.
  intros Hf Hq Hother. rw Hf. case_decide as Hw.
  - case_decide as Hp.
    + apply same_page_split in Hp as [_ ->]. done.
    + apply Hother; [done|]. intros He. apply Hp, same_page_split. done.
  - rw decide_False //. intros [? _]%same_page_split. done.
Qed.

Lemma pair_translate pt i e v w :
  first_at (valid_entries pt) i e (Z.shiftr v 13) → Z.shiftr w 13 = Z.shiftr v 13 →
  pt_translate pt w = entry_half e (ADDR_IS_ON_EVEN_PAGE w).
Proof. intros Hf Hw. apply (half_of_translate pt e i). by rw Hw. Qed.

Lemma first_at_ok pt i e v :
  pt_ok pt → first_at (valid_entries pt) i e v → entry_ok (pt_ASID pt) e.
Proof. intros [_ _ He _] (Hi & _ & _). by apply (Forall_lookup_1 _ _ _ _ He Hi). Qed.

Lemma load_entry_run pt i e : arr_get (entries pt) i = Some e → load_entry i pt = Done e pt.
Proof. intros H. unfold load_entry. by rw H. Qed.

Lemma vm_map_run pt physaddr v dirty :
  pt_ok pt → dirty = 0 ∨ dirty = 1 → pt_translate pt v = None →
  valid_count pt < PAGETABLE_ENTRIES ∨ is_Some (find_vpn (valid_entries pt) (Z.shiftr v 13)) →
  ∃ pt', vm_map physaddr v dirty pt = Done tt pt' ∧ pt_ok pt' ∧
    pt_ASID pt' = pt_ASID pt ∧
    ∀ w, pt_translate pt' w = if decide (same_page w v) then Some (Z.shiftr physaddr 12, dirty)
                              else pt_translate pt w.
Proof.
  intros Hok Hd Hnone Hroom. unfold vm_map. rw bind_assert //.
  destruct (find_entry_run pt v Hok) as (r & Hr & Hs). rw (bind_Done _ _ _ _ _ Hr).
  destruct r as [i|].
  - destruct Hs as (e & Hi & He & Hf). rw (bind_Done _ _ _ _ _ (load_entry_run _ _ _ He)).
    destruct (first_at_ok _ _ _ _ Hok Hf) as (H0 & H1 & Ha).
    rw (half_of_translate _ _ _ _ Hf) in Hnone.
    destruct (ADDR_IS_ON_EVEN_PAGE v) eqn:Hev; simpl in Hnone; case_decide; try done;
      match goal with |- context [store_entry i ?x] =>
        destruct (store_entry_run pt i e x _ Hok Hi Hf) as (pt' & Hst & Hok' & Has & _ & Htr);
          [by destruct Hf as (_ & ? & _)|by repeat split; rsimpl; auto|] end;
      (exists pt'; split; [exact Hst|]; split; [done|]; split; [done|]);
      intros w; (eapply translate_half; [apply Htr| |]); rsimpl; rw ?Hev; try done;
      intros u Hu Hne; rw (pair_translate _ _ _ _ _ Hf Hu);
      destruct (ADDR_IS_ON_EVEN_PAGE u); done.
  - rw bind_gets. destruct Hroom as [Hlt|[x Hx]]; [|congruence].
    rw decide_False; [lia|]. rw bind_gets.
    destruct (arr_get_is_Some (entries pt) (valid_count pt)) as [e He];
      [destruct Hok; lia|].
    rw (bind_Done _ _ _ _ _ (load_entry_run _ _ _ He)).
    destruct (ADDR_IS_ON_EVEN_PAGE v) eqn:Hev;
      match goal with |- context [store_entry _ ?x] =>
        destruct (append_entry_run pt x Hok Hlt Hs) as (pt' & Hst & Hok' & Has & Htr);
          [rsimpl; split_and!; auto|] end;
      (exists pt'; split; [exact Hst|]; split; [exact Hok'|]; split; [exact Has|]);
      intros w; (eapply translate_half; [apply Htr| |]); rsimpl; rw ?Hev; try reflexivity;
      intros u Hu Hne; unfold pt_translate; rw Hu Hs; simpl;
      destruct (ADDR_IS_ON_EVEN_PAGE u); first [reflexivity|congruence].
Qed.

Lemma vm_map_mapped pt physaddr v dirty q :
  pt_ok pt → dirty = 0 ∨ dirty = 1 → pt_translate pt v = Some q →
  vm_map physaddr v dirty pt = Panic "Tried to re-map same virtual page".
Proof.
  intros Hok Hd Hq. unfold vm_map. rw bind_assert //.
  destruct (find_entry_run pt v Hok) as (r & Hr & Hs). rw (bind_Done _ _ _ _ _ Hr).
  destruct r as [i|].
  - destruct Hs as (e & Hi & He & Hf). rw (bind_Done _ _ _ _ _ (load_entry_run _ _ _ He)).
    rw (half_of_translate _ _ _ _ Hf) in Hq.
    destruct (ADDR_IS_ON_EVEN_PAGE v); simpl in Hq; by case_decide.
  - unfold pt_translate in Hq. by rw Hs in Hq.
Qed.

Lemma vm_map_full pt physaddr v dirty :
  pt_ok pt → dirty = 0 ∨ dirty = 1 → valid_count pt = PAGETABLE_ENTRIES →
  find_vpn (valid_entries pt) (Z.shiftr v 13) = None →
  vm_map physaddr v dirty pt = Panic "Thread run out of pagetable mapping entries.".
Proof.
  intros Hok Hd Hfull Hnone. unfold vm_map. rw bind_assert //.
  destruct (find_entry_run pt v Hok) as (r & Hr & Hs). rw (bind_Done _ _ _ _ _ Hr).
  destruct r as [i|].
  - destruct Hs as (e & Hi & He & Hf). by rw (find_vpn_first _ _ _ _ Hf) in Hnone.
  - rw bind_gets. by rw decide_True; [rw Hfull; reflexivity|].
Qed.

(** ** vm_set_dirty *)

Lemma vm_set_dirty_run pt v dirty f d :
  pt_ok pt → dirty = 0 ∨ dirty = 1 → pt_translate pt v = Some (f, d) →
  ∃ pt', vm_set_dirty v dirty pt = Done tt pt' ∧ pt_ok pt' ∧ pt_ASID pt' = pt_ASID pt ∧
    ∀ w, pt_translate pt' w = if decide (same_page w v) then Some (f, dirty)
                              else pt_translate pt w.
Proof.
  intros Hok Hd Hq. unfold vm_set_dirty. rw bind_assert //.
  destruct (find_entry_run pt v Hok) as (r & Hr & Hs). rw (bind_Done _ _ _ _ _ Hr).
  destruct r as [i|]; [|unfold pt_translate in Hq; by rw Hs in Hq].
  destruct Hs as (e & Hi & He & Hf). rw (bind_Done _ _ _ _ _ (load_entry_run _ _ _ He)).
  destruct (first_at_ok _ _ _ _ Hok Hf) as (H0 & H1 & Ha).
  rw (half_of_translate _ _ _ _ Hf) in Hq.
  destruct (ADDR_IS_ON_EVEN_PAGE v) eqn:Hev; simpl in Hq; case_decide as Hv; try done;
    injection Hq as Hpf Hpd; (rw decide_False; [lia|]);
    match goal with |- context [store_entry i ?x] =>
      destruct (store_entry_run pt i e x _ Hok Hi Hf) as (pt' & Hst & Hok' & Has & _ & Htr);
        [by destruct Hf as (_ & ? & _)|by repeat split; rsimpl; auto|] end;
    (exists pt'; split; [exact Hst|]; split; [done|]; split; [done|]);
    intros w; (eapply translate_half; [apply Htr| |]); rsimpl; rw ?Hev;
    try (by rw /= decide_True // Hpf);
    intros u Hu Hne; rw (pair_translate _ _ _ _ _ Hf Hu);
    destruct (ADDR_IS_ON_EVEN_PAGE u); done.
Qed.

Lemma vm_set_dirty_unmapped pt v dirty :
  pt_ok pt → dirty = 0 ∨ dirty = 1 → pt_translate pt v = None →
  vm_set_dirty v dirty pt = Panic "Tried to set dirty bit of an unmapped entry".
Proof.
  intros Hok Hd Hq. unfold vm_set_dirty. rw bind_assert //.
  destruct (find_entry_run pt v Hok) as (r & Hr & Hs). rw (bind_Done _ _ _ _ _ Hr).
  destruct r as [i|]; [|done].
  destruct Hs as (e & Hi & He & Hf). rw (bind_Done _ _ _ _ _ (load_entry_run _ _ _ He)).
  destruct (first_at_ok _ _ _ _ Hok Hf) as (H0 & H1 & Ha).
  rw (half_of_translate _ _ _ _ Hf) in Hq.
  destruct (ADDR_IS_ON_EVEN_PAGE v); simpl in Hq; case_decide; try done; by case_decide; [|lia].
Qed.

(** ** tlb_fill *)

Lemma tlb_write_rows es index num t :
  0 ≤ index → index + Z.of_nat num ≤ Z.of_nat (length (tlb_rows t)) →
  (num ≤ length es)%nat →
  tlb_rows (_tlb_write es index num t) =
    take (Z.to_nat index) (tlb_rows t) ++ take num es ++ drop (Z.to_nat index + num) (tlb_rows t).
Proof.
  revert es index t. induction num as [|num IH]; intros es index t Hi Hn He.
  - rw Nat.add_0_r take_drop. by destruct es.
  - destruct es as [|e es]; simpl in He; [lia|]. simpl. rw arr_set_Some; [lia|].
    rw IH; [lia|rsimpl; rw length_insert; lia|lia|].
    destruct t as [rows asid]. unfold update. cbn in *.
    replace (Z.to_nat (index + 1)) with (S (Z.to_nat index)) by lia.
    erewrite take_S_r; [|apply list_lookup_insert_eq; lia].
    rw take_insert_ge; [lia|]. rw -app_assoc /= drop_insert_lt; [lia|].
    by replace (Z.to_nat index + S num)%nat with (S (Z.to_nat index + num)) by lia.
Qed.

Lemma find_row_vpn es rest asid v :
  Forall (λ e, ASID e = asid) es →
  find_row (es ++ rest) asid v =
    match find_vpn es v with Some e => Some e | None => find_row rest asid v end.
Proof.
  induction 1 as [|e es He _ IH]; simpl; [done|].
  destruct (decide (VPN2 e = v)).
  - by rw decide_True.
  - rw decide_False; [naive_solver|]. apply IH.
Qed.

Lemma find_row_none rows asid v :
  Forall (λ e, ASID e ≠ asid) rows → find_row rows asid v = None.
Proof. induction 1 as [|e es He _ IH]; simpl; [done|]. by rw decide_False; [naive_solver|]. Qed.

Lemma tlb_fill_run pt t :
  pt_ok pt → valid_count pt ≤ Z.of_nat (length (tlb_rows t)) →
  tlb_fill (Some pt) t =
    Done tt (Tlb (valid_entries pt ++ drop (Z.to_nat (valid_count pt)) (tlb_rows t))
                 (u8 (pt_ASID pt))).
Proof.
  intros [Hl Hc _ _] Hn. unfold tlb_fill. rw bind_gets bind_assert; [unfold _tlb_get_maxindex; lia|].
  rw bind_modify. unfold modify, _tlb_set_asid, update. cbn. f_equal. rw tlb_write_rows; [lia..|].
  unfold u8. f_equal.
  change 255 with (Z.ones 8). by rw Z.land_ones.
Qed.

Lemma tlb_fill_too_big pt t :
  Z.of_nat (length (tlb_rows t)) < valid_count pt →
  tlb_fill (Some pt) t = Panic "Assertion failed".
Proof.
  intros Hn. unfold tlb_fill. rw bind_gets bind_assert_fails //.
  unfold _tlb_get_maxindex. lia.
Qed.

(** The hardware translates as the page table does, when no row beyond the
    page table's entries carries its address space id. *)
Lemma tlb_fill_translate pt t w :
  pt_ok pt → valid_count pt ≤ Z.of_nat (length (tlb_rows t)) →
  Forall (λ e, ASID e ≠ u8 (pt_ASID pt)) (drop (Z.to_nat (valid_count pt)) (tlb_rows t)) →
  ∃ t', tlb_fill (Some pt) t = Done tt t' ∧ tlb_translate t' w = pt_translate pt w.
Proof.
  intros Hok Hn Hstale. eexists. split; [by apply tlb_fill_run|].
  unfold tlb_translate, pt_translate. simpl. rw find_row_vpn.
  - apply (Forall_impl _ _ _ (po_entries pt Hok)). by intros e (_ & _ & ?).
  - rw find_row_none //. by destruct (find_vpn _ _).
Qed.

(** ** Properties *)

(** There is an entry for the page of [v], or room for a new one. *)
Definition has_room (pt : pagetable_t) (v : Z) : bool :=
  bool_decide (valid_count pt < PAGETABLE_ENTRIES ∨
               is_Some (find_vpn (valid_entries pt) (Z.shiftr v 13))).

(** Vm_map on every branch. Mapping an unmapped page for which
    the page table has an entry or room for one makes exactly that page
    translate to the given frame and write-enable bit and leaves every other
    page, the other half of the entry included, as it was; mapping a page that
    is already mapped, or one more page pair than the table has entries,
    stops the kernel. *)
Theorem vm_map_maps_page pt physaddr v dirty :
  pt_ok pt → dirty = 0 ∨ dirty = 1 →
  match pt_translate pt v with
  | Some _ => vm_map physaddr v dirty pt = Panic "Tried to re-map same virtual page"
  | None =>
    if has_room pt v then
      ∃ pt', vm_map physaddr v dirty pt = Done tt pt' ∧ pt_ok pt' ∧
        pt_ASID pt' = pt_ASID pt ∧
        ∀ w, pt_translate pt' w =
          if decide (same_page w v) then Some (Z.shiftr physaddr 12, dirty)
          else pt_translate pt w
    else vm_map physaddr v dirty pt = Panic "Thread run out of pagetable mapping entries."
  end.
Proof.
  intros Hok Hd. destruct (pt_translate pt v) as [q|] eqn:Hq; [by apply (vm_map_mapped _ _ _ _ q)|].
  unfold has_room. case_bool_decide as Hroom; [by apply vm_map_run|].
  pose proof (po_count pt Hok). apply vm_map_full; [done..|lia|].
  destruct (find_vpn _ _) eqn:E; [|done]. exfalso. apply Hroom. right. by eexists.
Qed.

Definition empty_pt (asid : Z) : pagetable_t :=
  Pagetable asid 0 (replicate 340 (TlbEntry 0 0 0 0 0 0 0 0 0 0)).

Lemma empty_pt_ok asid : pt_ok (empty_pt asid).
Proof.
  constructor; cbn.
  - reflexivity.
  - unfold PAGETABLE_ENTRIES. lia.
  - constructor.
  - constructor.
Defined.

Lemma vm_map_maps_page_witness :
  ∃ pt', vm_map 0x5000 0x7000 1 (empty_pt 3) = Done tt pt' ∧ pt_ok pt' ∧
    pt_translate pt' 0x7abc = Some (5, 1) ∧ pt_translate pt' 0x6000 = None.
Proof.
  destruct (vm_map_maps_page (empty_pt 3) 0x5000 0x7000 1 (empty_pt_ok 3) ltac:(lia))
    as (pt' & Hrun & Hok & _ & Htr).
  exists pt'. split; [exact Hrun|]. split; [exact Hok|]. split.
  - rewrite (Htr 0x7abc). reflexivity.
  - rewrite (Htr 0x6000). reflexivity.
Defined.

(** Vm_set_dirty on every branch. It changes the write-enable
    bit of exactly the given page, keeping its frame, and stops the kernel when
    the page is not mapped. *)
Theorem vm_set_dirty_sets_bit pt v dirty :
  pt_ok pt → dirty = 0 ∨ dirty = 1 →
  match pt_translate pt v with
  | Some (f, _) =>
    ∃ pt', vm_set_dirty v dirty pt = Done tt pt' ∧ pt_ok pt' ∧ pt_ASID pt' = pt_ASID pt ∧
      ∀ w, pt_translate pt' w =
        if decide (same_page w v) then Some (f, dirty) else pt_translate pt w
  | None => vm_set_dirty v dirty pt = Panic "Tried to set dirty bit of an unmapped entry"
  end.
Proof.
  intros Hok Hd. destruct (pt_translate pt v) as [[f d]|] eqn:Hq.
  - by apply (vm_set_dirty_run _ _ _ _ d).
  - by apply vm_set_dirty_unmapped.
Qed.

Lemma vm_set_dirty_sets_bit_witness :
  match vm_map 0x5000 0x7000 1 (empty_pt 3) with
  | Done _ pt => ∃ pt', vm_set_dirty 0x7000 0 pt = Done tt pt' ∧
                        pt_translate pt' 0x7004 = Some (5, 0)
  | _ => False
  end.
Proof.
  destruct (vm_map_run (empty_pt 3) 0x5000 0x7000 1 (empty_pt_ok 3) ltac:(lia) eq_refl
    ltac:(left; reflexivity)) as (pt & Hrun & Hok & _ & Htr).
  rewrite Hrun. pose proof (vm_set_dirty_sets_bit pt 0x7000 0 Hok ltac:(lia)) as H.
  rewrite (Htr 0x7000) in H. cbn in H. destruct H as (pt' & Hrun' & _ & _ & Htr').
  exists pt'. split; [exact Hrun'|]. rewrite (Htr' 0x7004). reflexivity.
Defined.

(** ** Building an address space *)

(** vm_map for each (physical, virtual, dirty) triple, in order. *)
Fixpoint vm_map_all (l : list (Z * Z * Z)) : M pagetable_t unit :=
  match l with
  | [] => mret tt
  | (p, v, d) :: l' => vm_map p v d;; vm_map_all l'
  end.

Fixpoint lookup_page (l : list (Z * Z * Z)) (w : Z) : option (Z * Z) :=
  match l with
  | [] => None
  | (p, v, d) :: l' => if decide (same_page w v) then Some (Z.shiftr p 12, d) else lookup_page l' w
  end.

(** Every page occurs once and every dirty bit is a bit. *)
Fixpoint mappings_ok (l : list (Z * Z * Z)) : Prop :=
  match l with
  | [] => True
  | (p, v, d) :: l' => (d = 0 ∨ d = 1) ∧ lookup_page l' v = None ∧ mappings_ok l'
  end.

Lemma lookup_page_same l v w : same_page w v → lookup_page l w = lookup_page l v.
Proof.
  intros H. induction l as [|[[p u] d] l IH]; [done|]. simpl. rw IH.
  case_decide as H1; case_decide as H2; unfold same_page in *; congruence || done.
Qed.

Lemma vm_map_valid_count pt p v d pt' :
  pt_ok pt → d = 0 ∨ d = 1 → vm_map p v d pt = Done tt pt' →
  valid_count pt' ≤ valid_count pt + 1.
Proof.
  intros Hok Hd. unfold vm_map. rw bind_assert //.
  destruct (find_entry_run pt v Hok) as (r & Hr & Hs). rw (bind_Done _ _ _ _ _ Hr).
  destruct r as [i|].
  - destruct Hs as (e & Hi & He & Hf). rw (bind_Done _ _ _ _ _ (load_entry_run _ _ _ He)).
    destruct (ADDR_IS_ON_EVEN_PAGE v); (case_decide; [done|]); unfold store_entry;
      (destruct (arr_set _ _ _); [|done]); intros [= <-]; rsimpl; lia.
  - rw bind_gets. case_decide; [done|]. rw bind_gets.
    destruct (arr_get_is_Some (entries pt) (valid_count pt)) as [e He];
      [destruct Hok; lia|].
    rw (bind_Done _ _ _ _ _ (load_entry_run _ _ _ He)).
    destruct (ADDR_IS_ON_EVEN_PAGE v); unfold mbind, M_bind, store_entry;
      (destruct (arr_set _ _ _); [|done]); intros [= <-]; rsimpl; lia.
Qed.

Lemma vm_map_all_run l pt :
  pt_ok pt → mappings_ok l → valid_count pt + Z.of_nat (length l) ≤ PAGETABLE_ENTRIES →
  (∀ p v d, (p, v, d) ∈ l → pt_translate pt v = None) →
  ∃ pt', vm_map_all l pt = Done tt pt' ∧ pt_ok pt' ∧ pt_ASID pt' = pt_ASID pt ∧
    valid_count pt' ≤ valid_count pt + Z.of_nat (length l) ∧
    ∀ w, pt_translate pt' w =
      match lookup_page l w with Some q => Some q | None => pt_translate pt w end.
Proof.
  revert pt. induction l as [|[[p v] d] l IH]; intros pt Hok Hl Hn Hun; simpl in *.
  - exists pt. split_and!; [done..|lia|done].
  - destruct Hl as (Hd & Hnew & Hl).
    destruct (vm_map_run pt p v d Hok Hd) as (pt1 & Hrun & Hok1 & Ha1 & Htr1).
    { apply (Hun p v d). by left. }
    { left. lia. }
    pose proof (vm_map_valid_count _ _ _ _ _ Hok Hd Hrun) as Hvc.
    destruct (IH pt1) as (pt2 & Hrun2 & Hok2 & Ha2 & Hvc2 & Htr2); [done..|lia| |].
    { intros p' v' d' Hin. rw Htr1. case_decide as Hs.
      - exfalso. clear -Hin Hnew Hs. induction l as [|[[q u] e] l IH]; [by apply elem_of_nil in Hin|].
        simpl in Hnew. case_decide as Hq; [done|]. apply elem_of_cons in Hin as [[= -> -> ->]|Hin].
        + apply Hq. unfold same_page in *. congruence.
        + by apply IH.
      - apply (Hun p' v' d'). by right. }
    exists pt2. rw (bind_Done _ _ _ _ _ Hrun). split_and!; [done|done|congruence|lia|].
    intros w. rw Htr2 Htr1. case_decide as Hs; [|done].
    by rw (lookup_page_same l v w) // Hnew.
Qed.

(** A page table as vm_create_pagetable leaves it: with whatever its page held. *)
Lemma fresh_pt_ok asid es :
  Z.of_nat (length es) = PAGETABLE_ENTRIES → pt_ok (Pagetable asid 0 es) ∧ ∀ w, pt_translate (Pagetable asid 0 es) w = None.
Proof. intros Hl. split; [|done]. constructor; [done|cbn; unfold PAGETABLE_ENTRIES; lia|constructor|constructor]. Qed.

Lemma vm_create_pagetable_fresh ram_entries asid m a m' :
  vm_create_pagetable ram_entries asid m = Done a m' → a ≠ 0 →
  tables_get (vm_tables m') a = Some (Pagetable asid 0 (ram_entries a)).
Proof.
  unfold vm_create_pagetable, mbind, M_bind. destruct (zoom #vm_pool pagepool_get_phys_page m) as [addr m1| | | |]; try done.
  cbn [obind]. case_decide; [by intros [= <- _]|]. intros [= <- <-] _. cbn [vm_tables update]. simpl. by rw decide_True.
Qed.

(** C38 (refinement): an address space that vm_create_pagetable creates, in a page
    with any contents, vm_map fills and tlb_fill installs is the one the hardware
    sees: for every virtual address the TLB yields the frame and write-enable bit
    given for its page, and nothing for a page that was not mapped, if the page
    table fits the TLB and no row beyond those written still carries the address
    space id; see [tlb_fill_keeps_stale_rows] for what happens otherwise. *)
Theorem vm_map_tlb_fill_translates ram_entries asid m a m' l :
  vm_create_pagetable ram_entries asid m = Done a m' → a ≠ 0 → Z.of_nat (length (ram_entries a)) = PAGETABLE_ENTRIES →
  mappings_ok l → Z.of_nat (length l) ≤ PAGETABLE_ENTRIES →
  ∃ fresh pt, tables_get (vm_tables m') a = Some fresh ∧ vm_map_all l fresh = Done tt pt ∧ valid_count pt ≤ Z.of_nat (length l) ∧
    ∀ t, valid_count pt ≤ Z.of_nat (length (tlb_rows t)) →
      Forall (λ e, ASID e ≠ u8 asid) (drop (Z.to_nat (valid_count pt)) (tlb_rows t)) →
      ∃ t', tlb_fill (Some pt) t = Done tt t' ∧ ∀ w, tlb_translate t' w = lookup_page l w.
Proof.
  intros Hc Ha He Hl Hn. destruct (fresh_pt_ok asid _ He) as [Hf Hnone].
  destruct (vm_map_all_run l _ Hf Hl) as (pt & Hrun & Hok & Has & Hvc & Htr); [cbn; lia|done|].
  exists (Pagetable asid 0 (ram_entries a)), pt. split_and!; [by apply (vm_create_pagetable_fresh _ _ m)|done|cbn [valid_count] in Hvc; lia|].
  intros t Ht Hst.
  assert (∀ w, ∃ t', tlb_fill (Some pt) t = Done tt t' ∧ tlb_translate t' w = pt_translate pt w) as H.
  { intros w. apply tlb_fill_translate; [done|lia|]. by rw Has. }
  destruct (H 0) as (t' & Hfill & _). exists t'. split; [done|].
  intros w. destruct (H w) as (t'' & Hfill' & Hw). rw Hfill in Hfill'. injection Hfill' as <-.
  rw Hw Htr Hnone. by destruct (lookup_page l w).
Qed.

(** A page table in a page full of ones. *)
Definition used_page : Z → list tlb_entry := λ _, replicate 340 (TlbEntry 0x7ffff 255 1 1 1 1 1 1 1 1).
Definition example_vm : vm_t := Vm example_pool [].

Lemma vm_map_tlb_fill_translates_witness :
  let l := [(0x5000, 0x1000, 1); (0x9000, 0x2000, 0); (0x4000, 0x3000, 1)] in
  ∃ a m fresh pt t', vm_create_pagetable used_page 7 example_vm = Done a m ∧ tables_get (vm_tables m) a = Some fresh ∧
    vm_map_all l fresh = Done tt pt ∧
    tlb_fill (Some pt) (Tlb (replicate 16 (TlbEntry 0 0 0 0 0 0 0 0 0 0)) 0) = Done tt t' ∧
    tlb_translate t' 0x2010 = Some (9, 0) ∧ tlb_translate t' 0x0010 = None.
Proof.
  intros l. destruct (vm_create_pagetable used_page 7 example_vm) as [a m| | | |] eqn:E; [|vm_compute in E; discriminate E..].
  destruct (vm_map_tlb_fill_translates used_page 7 example_vm a m l E) as (fresh & pt & H1 & H2 & Hvc & H3).
  - vm_compute in E. injection E as <- _. done.
  - unfold used_page. by rw length_replicate.
  - cbn. repeat split; auto.
  - unfold PAGETABLE_ENTRIES. cbn. lia.
  - destruct (H3 (Tlb (replicate 16 (TlbEntry 0 0 0 0 0 0 0 0 0 0)) 0)) as (t' & H4 & H5).
    + cbn in Hvc |- *. lia.
    + apply Forall_drop, Forall_replicate. discriminate.
    + exists a, m, fresh, pt, t'. split; [done|]. split; [exact H1|]. split; [exact H2|]. split; [exact H4|]. split.
      * rewrite (H5 0x2010). reflexivity.
      * rewrite (H5 0x0010). reflexivity.
Defined.

(** Tlb_fill only writes the rows of the new page table. A row
    beyond them that carries the same address space id keeps translating: the
    thread that runs with a smaller page table under an id used before reaches
    frames its own page table does not map. *)
Theorem tlb_fill_keeps_stale_rows pt t e w :
  pt_ok pt → valid_count pt ≤ Z.of_nat (length (tlb_rows t)) →
  find_vpn (valid_entries pt) (Z.shiftr w 13) = None →
  find_row (drop (Z.to_nat (valid_count pt)) (tlb_rows t)) (u8 (pt_ASID pt)) (Z.shiftr w 13) = Some e →
  pt_translate pt w = None ∧
  ∃ t', tlb_fill (Some pt) t = Done tt t' ∧
    tlb_translate t' w = entry_half e (ADDR_IS_ON_EVEN_PAGE w).
Proof.
  intros Hok Hn Hnone Hrow. split; [unfold pt_translate; by rw Hnone|].
  eexists. split; [by apply tlb_fill_run|].
  unfold tlb_translate. cbn [tlb_rows tlb_asid]. rw find_row_vpn.
  - apply (Forall_impl _ _ _ (po_entries pt Hok)). by intros x (_ & _ & ?).
  - by rw Hnone Hrow.
Qed.

Lemma tlb_fill_keeps_stale_rows_witness :
  ∃ t', tlb_fill (Some (empty_pt 7)) (Tlb (replicate 16 (TlbEntry 2 7 5 1 1 0 6 1 1 0)) 0) = Done tt t' ∧
    pt_translate (empty_pt 7) 0x4000 = None ∧ tlb_translate t' 0x4000 = Some (5, 1).
Proof.
  destruct (tlb_fill_keeps_stale_rows (empty_pt 7)
    (Tlb (replicate 16 (TlbEntry 2 7 5 1 1 0 6 1 1 0)) 0) (TlbEntry 2 7 5 1 1 0 6 1 1 0) 0x4000)
    as (H1 & t' & H2 & H3).
  - apply empty_pt_ok.
  - cbn. lia.
  - reflexivity.
  - reflexivity.
  - exists t'. split; [exact H2|]. split; [exact H1|exact H3].
Defined.

End Vm.
