(* ===== verification/Kstate.v ===== *)
(** * The state of the kernel core (kernel/thread.h, kernel/cswitch.h,
      kernel/scheduler.c, kernel/sleepq.c, kernel/semaphore.c)

    [kstate] holds the static tables and locks of thread.c, scheduler.c,
    sleepq.c and semaphore.c together with the CPU the code runs on.  Pointers
    are addresses; NULL is 0. *)
From stdpp Require Export gmap.
From S2P Require Export Prelude Cpu.

Definition CONFIG_MAX_THREADS : Z := 32.
Definition CONFIG_MAX_CPUS : Z := 4.
Definition CONFIG_MAX_SEMAPHORES : Z := 128.
Definition CONFIG_SCHEDULER_TIMESLICE : Z := 750.
Definition CONFIG_THREAD_STACKSIZE : Z := 4096.
Definition IDLE_THREAD_TID : Z := 0.
Definition SLEEPQ_HASHTABLE_SIZE : Z := 127.

Inductive thread_state_t :=
| THREAD_FREE | THREAD_RUNNING | THREAD_READY
| THREAD_SLEEPING | THREAD_NONREADY | THREAD_DYING.
#[export] Instance thread_state_eq_dec : EqDecision thread_state_t.
Proof. solve_decision. Defined.

(** context_t of kernel/cswitch.h. *)
Record context_t := Context {
  cpu_regs : list Z; hi : Z; lo : Z; pc : Z; status : Z; prev_context : Z }.
#[export] Instance eta_context : Eta context_t := fun c =>
  Context (cpu_regs c) (hi c) (lo c) (pc c) (status c) (prev_context c).

Definition SIZEOF_CONTEXT : Z := 136.
Definition MIPS_REGISTER_V0 : Z := 1.
Definition MIPS_REGISTER_A0 : Z := 3.
Definition MIPS_REGISTER_A1 : Z := 4.
Definition MIPS_REGISTER_A2 : Z := 5.
Definition MIPS_REGISTER_A3 : Z := 6.
Definition MIPS_REGISTER_SP : Z := 26.
Definition MIPS_REGISTER_RA : Z := 28.

(** thread_table_t. *)
Record thread_t := Thread {
  t_context : Z; t_user_context : Z; t_state : thread_state_t;
  t_sleeps_on : Z; t_pagetable : Z; t_process_id : Z; t_next : Z }.
#[export] Instance eta_thread : Eta thread_t := fun t =>
  Thread (t_context t) (t_user_context t) (t_state t) (t_sleeps_on t)
    (t_pagetable t) (t_process_id t) (t_next t).

(** semaphore_t. *)
Record semaphore_t := Semaphore { sem_slock : Z; sem_value : Z; sem_creator : Z }.
#[export] Instance eta_semaphore : Eta semaphore_t := fun s =>
  Semaphore (sem_slock s) (sem_value s) (sem_creator s).

Record kstate := Kstate {
  (* the executing CPU *)
  this_cpu : Z;
  k_status : Z;
  k_cause : Z;
  k_timer : Z;
  rand5_seed : Z;
  (* thread.c *)
  thread_table : list thread_t;
  thread_table_slock : Z;
  next_tid : Z;
  k_contexts : Z → context_t;
  (* scheduler.c *)
  scheduler_current_thread : list Z;
  ready_head : Z;
  ready_tail : Z;
  (* sleepq.c *)
  sleepq_hashtable : list Z;
  sleepq_slock : Z;
  (* semaphore.c *)
  semaphore_table : list semaphore_t;
  semaphore_table_slock : Z;
  semaphore_next : Z }.
#[export] Instance eta_kstate : Eta kstate := fun k =>
  Kstate (this_cpu k) (k_status k) (k_cause k) (k_timer k) (rand5_seed k)
    (thread_table k) (thread_table_slock k) (next_tid k) (k_contexts k) (scheduler_current_thread k)
    (ready_head k) (ready_tail k) (sleepq_hashtable k) (sleepq_slock k)
    (semaphore_table k) (semaphore_table_slock k) (semaphore_next k).

Abbreviation K A := (M kstate A).

(** ** Accesses to the thread table *)
Definition get_thread (t : Z) : K thread_t := fun s => oread (arr_get (thread_table s) t) s.
Definition upd_thread (t : Z) (f : thread_t → thread_t) : K unit := fun s =>
  match arr_get (thread_table s) t with
  | Some e => Done tt (s <| thread_table := <[Z.to_nat t := f e]> (thread_table s) |>)
  | None => Fault
  end.

Definition _interrupt_getcpu : K Z := gets this_cpu.

Definition get_current (cpu : Z) : K Z := fun s =>
  oread (arr_get (scheduler_current_thread s) cpu) s.

Definition set_current (cpu t : Z) : K unit := fun s =>
  match arr_set (scheduler_current_thread s) cpu t with
  | Some l => Done tt (s <| scheduler_current_thread := l |>)
  | None => Fault
  end.

(** Write to the context save area at an address. *)
Definition upd_context (a : Z) (f : context_t → context_t) : K unit :=
  modify (λ s, s <| k_contexts := λ b, if decide (b = a) then f (k_contexts s a) else k_contexts s b |>).

(** Access to semaphore [i] of the table. *)
Definition get_sem (i : Z) : K semaphore_t := fun s => oread (arr_get (semaphore_table s) i) s.
Definition upd_sem (i : Z) (f : semaphore_t → semaphore_t) : K unit := fun s =>
  match arr_get (semaphore_table s) i with
  | Some e => Done tt (s <| semaphore_table := <[Z.to_nat i := f e]> (semaphore_table s) |>)
  | None => Fault
  end.
Definition sem_spinlock_acquire (i : Z) : K unit :=
  e ← get_sem i;
  if decide (sem_slock e = 0) then upd_sem i (λ e, e <| sem_slock := 1 |>) else spin.
Definition sem_spinlock_release (i : Z) : K unit := upd_sem i (λ e, e <| sem_slock := 0 |>).

(** lib/rand.S: the linear congruential generator; the high word of the product
    scales it to the range. *)
Definition _set_rand_seed (seed : Z) : K unit := modify (λ s, s <| rand5_seed := seed |>).
Definition _get_rand (range : Z) : K Z := fun s =>
  let x := u32 (u32 (rand5_seed s * 314159557) + 23550511) in
  Done (Z.shiftr (x * range) 32) (s <| rand5_seed := x |>).

(** drivers/timer.c. *)
Definition timer_set_ticks (ticks : Z) : K unit :=
  intr_status ← _interrupt_disable #k_status;
  modify (λ s, s <| k_timer := ticks |>);;
  _interrupt_set_state #k_status intr_status;;
  mret tt.

(** kernel/thread.c: thread_get_current_thread. *)
Definition thread_get_current_thread : K Z :=
  intr_status ← _interrupt_disable #k_status;
  cpu ← _interrupt_getcpu;
  t ← get_current cpu;
  _interrupt_set_state #k_status intr_status;;
  mret t.

(** kernel/_interrupt.S: request a context switch. *)
Definition _interrupt_generate_sw0 : K unit :=
  modify (λ s, s <| k_cause := Z.lor (k_cause s) 0x00000100 |>).

(** kernel/thread.c: thread_switch.  The software interrupt is taken as soon
    as it is requested with interrupts enabled: the calling thread leaves the
    CPU here and continues with the restoring of the interrupt state. *)
Definition thread_switch : K unit :=
  intr_status ← _interrupt_enable #k_status;
  _interrupt_generate_sw0;;
  yield;;
  _interrupt_set_state #k_status intr_status;;
  mret tt.

(** ** The core of the state

    [core] is what the invariants speak about: the tables and queues, without
    locks, CPU registers and the timer. *)
Record core := Core {
  c_threads : list thread_t;
  c_current : list Z;
  c_head : Z;
  c_tail : Z;
  c_buckets : list Z;
  c_sems : list semaphore_t }.
#[export] Instance eta_core : Eta core := fun c =>
  Core (c_threads c) (c_current c) (c_head c) (c_tail c) (c_buckets c) (c_sems c).

Definition core_of (s : kstate) : core :=
  Core (thread_table s) (scheduler_current_thread s) (ready_head s) (ready_tail s)
    (sleepq_hashtable s) (semaphore_table s).

Definition put_core (c : core) (s : kstate) : kstate :=
  Kstate (this_cpu s) (k_status s) (k_cause s) (k_timer s) (rand5_seed s)
    (c_threads c) (thread_table_slock s) (next_tid s) (k_contexts s) (c_current c)
    (c_head c) (c_tail c) (c_buckets c) (sleepq_slock s)
    (c_sems c) (semaphore_table_slock s) (semaphore_next s).

Lemma core_of_put c s : core_of (put_core c s) = c.
Proof. by destruct c. Qed.
Lemma put_core_of s : put_core (core_of s) s = s.
Proof. by destruct s. Qed.
Lemma put_put c c' s : put_core c (put_core c' s) = put_core c s.
Proof. done. Qed.

(** A thread by its id; ids outside the table read as a dummy entry. *)
Definition no_thread : thread_t := Thread 0 0 THREAD_FREE 0 0 (-1) (-1).
Definition cthr (c : core) (t : Z) : thread_t := default no_thread (arr_get (c_threads c) t).
Definition setthr (t : Z) (e : thread_t) (c : core) : core :=
  c <| c_threads := <[Z.to_nat t := e]> (c_threads c) |>.

Definition tid_ok (t : Z) : Prop := 0 ≤ t < CONFIG_MAX_THREADS.
#[export] Instance tid_ok_dec t : Decision (tid_ok t) := decide (_ ∧ _).

(** The tables have the sizes of kernel/config.h. *)
Record c_sizes (c : core) : Prop := {
  cs_threads : Z.of_nat (length (c_threads c)) = CONFIG_MAX_THREADS;
  cs_cpus : Z.of_nat (length (c_current c)) = CONFIG_MAX_CPUS;
  cs_buckets : Z.of_nat (length (c_buckets c)) = SLEEPQ_HASHTABLE_SIZE;
  cs_sems : Z.of_nat (length (c_sems c)) = CONFIG_MAX_SEMAPHORES }.

Lemma arr_get_cthr c t : c_sizes c → tid_ok t → arr_get (c_threads c) t = Some (cthr c t).
Proof.
  intros Hs Ht. unfold cthr. destruct (arr_get_is_Some (c_threads c) t) as [e He].
  - rw (cs_threads c Hs). done.
  - by rw He.
Qed.

Lemma get_thread_run s t :
  c_sizes (core_of s) → tid_ok t → get_thread t s = Done (cthr (core_of s) t) s.
Proof. intros Hs Ht. unfold get_thread. by rw (arr_get_cthr _ _ Hs Ht : arr_get (thread_table s) t = _). Qed.

Lemma upd_thread_run s t f :
  c_sizes (core_of s) → tid_ok t →
  upd_thread t f s = Done tt (put_core (setthr t (f (cthr (core_of s) t)) (core_of s)) s).
Proof.
  intros Hs Ht. unfold upd_thread. rw (arr_get_cthr _ _ Hs Ht : arr_get (thread_table s) t = _).
  by destruct s.
Qed.

Lemma cthr_setthr c t e u :
  c_sizes c → tid_ok t → cthr (setthr t e c) u = if decide (u = t) then e else cthr c u.
Proof.
  intros Hs Ht. unfold cthr, setthr. rsimpl. rw arr_get_insert.
  - rw (cs_threads c Hs). done.
  - by case_decide.
Qed.

Lemma c_sizes_setthr c t e : c_sizes c → c_sizes (setthr t e c).
Proof. intros []. constructor; unfold setthr; rsimpl; try done. by rw length_insert. Qed.

Lemma setthr_setthr t e e' c : setthr t e (setthr t e' c) = setthr t e c.
Proof.
  unfold setthr. destruct c. unfold update. cbn. f_equal. apply list_insert_insert_eq.
Qed.

#[export] Hint Resolve c_sizes_setthr : buenos.

(** What holds of the registers of the CPU. *)
Record cpu_ok (s : kstate) : Prop := {
  co_cpu : 0 ≤ this_cpu s < CONFIG_MAX_CPUS;
  co_status : 0 ≤ k_status s < 2 ^ 32 }.

Lemma cpu_ok_put c s : cpu_ok s → cpu_ok (put_core c s).
Proof. by intros []. Qed.

(** The thread running on this CPU. *)
Definition ccur (c : core) (cpu : Z) : Z := default 0 (arr_get (c_current c) cpu).
Definition current (s : kstate) : Z := ccur (core_of s) (this_cpu s).

Lemma arr_get_ccur c cpu :
  c_sizes c → 0 ≤ cpu < CONFIG_MAX_CPUS → arr_get (c_current c) cpu = Some (ccur c cpu).
Proof.
  intros Hs Hc. unfold ccur. destruct (arr_get_is_Some (c_current c) cpu) as [t Ht].
  - by rw (cs_cpus c Hs).
  - by rw Ht.
Qed.

Lemma get_current_run s cpu :
  c_sizes (core_of s) → 0 ≤ cpu < CONFIG_MAX_CPUS →
  get_current cpu s = Done (ccur (core_of s) cpu) s.
Proof.
  intros Hs Hc. unfold get_current.
  by rw (arr_get_ccur _ _ Hs Hc : arr_get (scheduler_current_thread s) cpu = _).
Qed.

Lemma thread_get_current_thread_run s :
  c_sizes (core_of s) → cpu_ok s → thread_get_current_thread s = Done (current s) s.
Proof.
  intros Hs [Hc Hr]. unfold thread_get_current_thread, current.
  erewrite bind_Done; [|reflexivity]. unfold _interrupt_getcpu. rw bind_gets.
  erewrite bind_Done; [|apply get_current_run; [exact Hs|exact Hc]].
  erewrite bind_Done; [|reflexivity]. cbn. fold (disabled (k_status s)).
  rw restore_disabled //. unfold mret, M_ret. f_equal. by destruct s.
Qed.
