(* ===== verification/Queues.v ===== *)
(** * The queues threaded through the thread table

    The scheduler's ready queue and the buckets of the sleep queue are linked
    through the [next] fields of the thread table.  [queues_ok c q] says that
    the core state [c] holds the queues [q]; the lemmas follow the pointer
    updates of scheduler.c and sleepq.c on them. *)
From S2P Require Import Prelude Kstate.

(** ** Linked segments *)

(** Following [nx] from [h] visits [l] and arrives at [e]. *)
Fixpoint seg (nx : Z → Z) (h : Z) (l : list Z) (e : Z) : Prop :=
  match l with
  | [] => h = e
  | t :: l' => h = t ∧ seg nx (nx t) l' e
  end.

Lemma seg_ext nx nx' h l e :
  (∀ t, t ∈ l → nx' t = nx t) → seg nx h l e → seg nx' h l e.
Proof.
  revert h. induction l as [|t l IH]; intros h Hx; simpl; [done|].
  intros [-> Hs]. split; [done|]. rw Hx; [by left|]. apply IH; [|done].
  intros u Hu. apply Hx. by right.
Qed.

Lemma seg_app nx h l1 l2 e :
  seg nx h (l1 ++ l2) e ↔ ∃ m, seg nx h l1 m ∧ seg nx m l2 e.
Proof.
  revert h. induction l1 as [|t l1 IH]; intros h; simpl.
  - split; [by exists h|]. by intros (m & -> & ?).
  - rw IH. naive_solver.
Qed.

Lemma seg_snoc nx h l t e : seg nx h (l ++ [t]) e ↔ seg nx h l t ∧ nx t = e.
Proof. rw seg_app. simpl. naive_solver. Qed.

(** The head of a segment is its first element. *)
Lemma seg_head nx h l e : seg nx h l e → h = default e (head l).
Proof. destruct l; simpl; naive_solver. Qed.

(** Appending [t] behind the last element. *)
Lemma seg_append nx h l t :
  t ∉ l → NoDup l → seg nx h l (-1) →
  let nx' := λ u, if decide (u = t) then -1 else
                  if decide (Some u = last l) then t else nx u in
  seg nx' (default t (head l)) (l ++ [t]) (-1).
Proof.
  intros Ht Hnd Hs nx'. destruct l as [|x l' _] using rev_ind.
  - simpl. split; [done|]. subst nx'. simpl. by rw decide_True.
  - apply seg_snoc in Hs as [Hs Hx].
    apply seg_snoc. split; [apply seg_snoc; split|].
    + eapply (seg_ext nx).
      { intros u Hu. unfold nx'. rw last_snoc. rw decide_False; [set_solver|].
        rw decide_False //. intros [= ->]. apply NoDup_app in Hnd as (_ & Hnd & _).
        apply (Hnd x Hu). by left. }
      pose proof (seg_head _ _ _ _ Hs) as Hh. by destruct l'; simpl in *; subst.
    + unfold nx'. rw last_snoc decide_False; [set_solver|]. by rw decide_True.
    + unfold nx'. by rw decide_True.
Qed.

(** Unlinking [t] from the middle. *)
Lemma seg_remove nx h l1 t l2 e :
  NoDup (l1 ++ t :: l2) → seg nx h (l1 ++ t :: l2) e →
  let nx' := λ u, if decide (Some u = last l1) then nx t else nx u in
  seg nx' (if l1 is [] then nx t else h) (l1 ++ l2) e.
Proof.
  intros Hnd Hs nx'. apply seg_app in Hs as (m & H1 & H2). simpl in H2. destruct H2 as [-> H2].
  assert (seg nx' (nx t) l2 e) as Hs2.
  { eapply seg_ext; [|exact H2]. intros u Hu. unfold nx'. rw decide_False //.
    intros Hl. symmetry in Hl. apply last_Some_elem_of in Hl.
    apply NoDup_app in Hnd as (_ & Hnd & _). apply (Hnd u Hl). by right. }
  destruct l1 as [|x l1' _] using rev_ind; [done|].
  apply seg_snoc in H1 as [H1 Hx].
  assert ((if l1' ++ [x] is [] then nx t else h) = h) as -> by by destruct l1'.
  apply seg_app. exists (nx t). split; [|done]. apply seg_snoc. split.
  - eapply seg_ext; [|exact H1]. intros u Hu. unfold nx'. rw last_snoc decide_False //.
    intros [= ->]. rw -app_assoc in Hnd. apply NoDup_app in Hnd as (_ & Hnd & _).
    apply (Hnd x Hu). by left.
  - unfold nx'. by rw last_snoc decide_True.
Qed.

(** ** The queues of a core state *)

Record queues := Queues { q_ready : list Z; q_sleep : Z → list Z }.
Definition set_ready (l : list Z) (q : queues) : queues := Queues l (q_sleep q).
Definition set_sleep (h : Z) (l : list Z) (q : queues) : queues :=
  Queues (q_ready q) (λ h', if decide (h' = h) then l else q_sleep q h').

Lemma set_ready_id q : set_ready (q_ready q) q = q.
Proof. by destruct q. Qed.

Definition SLEEPQ_HASH (res : Z) : Z := u32 res `mod` SLEEPQ_HASHTABLE_SIZE.

Definition bucket_ok (h : Z) : Prop := 0 ≤ h < SLEEPQ_HASHTABLE_SIZE.

Lemma hash_ok res : bucket_ok (SLEEPQ_HASH res).
Proof. unfold bucket_ok, SLEEPQ_HASH. apply Z.mod_pos_bound. done. Qed.

Definition c_next (c : core) (t : Z) : Z := t_next (cthr c t).

(** A thread that may be in a queue. *)
Definition qtid (t : Z) : Prop := 1 ≤ t < CONFIG_MAX_THREADS.

Lemma qtid_ok t : qtid t → tid_ok t.
Proof. unfold qtid, tid_ok. lia. Qed.

Record queues_ok (c : core) (q : queues) : Prop := {
  qo_sizes : c_sizes c;
  qo_ready : seg (c_next c) (c_head c) (q_ready q) (-1);
  qo_tail : c_tail c = default (-1) (last (q_ready q));
  qo_bucket h : bucket_ok h → ∃ hd, arr_get (c_buckets c) h = Some hd ∧
    seg (c_next c) hd (q_sleep q h) (-1);
  qo_ready_tid : Forall qtid (q_ready q);
  qo_sleep_tid h : Forall qtid (q_sleep q h);
  qo_ready_nodup : NoDup (q_ready q);
  qo_sleep_nodup h : NoDup (q_sleep q h);
  qo_disj t h : t ∈ q_ready q → t ∉ q_sleep q h;
  qo_buckets_disj t h h' : t ∈ q_sleep q h → t ∈ q_sleep q h' → h = h' }.

Lemma ready_qtid c q t : queues_ok c q → t ∈ q_ready q → qtid t.
Proof. intros Hq. exact (proj1 (Forall_forall _ _) (qo_ready_tid c q Hq) t). Qed.

Lemma sleep_qtid c q h t : queues_ok c q → t ∈ q_sleep q h → qtid t.
Proof. intros Hq. exact (proj1 (Forall_forall _ _) (qo_sleep_tid c q Hq h) t). Qed.

Definition in_queue (q : queues) (t : Z) : Prop := t ∈ q_ready q ∨ ∃ h, t ∈ q_sleep q h.

(** No more than 31 threads are in a queue. *)
Lemma queue_length l : NoDup l → Forall qtid l → (length l < Z.to_nat CONFIG_MAX_THREADS)%nat.
Proof.
  intros Hnd Hf. assert (l ⊆ seqZ 1 31) as Hsub.
  { intros t Ht. apply elem_of_seqZ. rw Forall_forall in Hf. specialize (Hf t Ht).
    unfold qtid, CONFIG_MAX_THREADS in Hf. lia. }
  pose proof (submseteq_length _ _ (NoDup_submseteq _ _ Hnd Hsub)) as Hlen.
  rw length_seqZ in Hlen. unfold CONFIG_MAX_THREADS. lia.
Qed.

(** Updating a thread without changing its link keeps the queues. *)
Lemma queues_ok_setthr c q t e :
  queues_ok c q → tid_ok t → t_next e = c_next c t ∨ ¬ in_queue q t →
  queues_ok (setthr t e c) q.
Proof.
  intros [] Ht He. assert (∀ (l : list Z) u, (u ∈ l → in_queue q u) → u ∈ l →
    c_next (setthr t e c) u = c_next c u) as Hx.
  { intros l u Hq Hu. unfold c_next. rw cthr_setthr //. case_decide; [|done]. subst.
    destruct He as [He|He]; [exact He|]. destruct (He (Hq Hu)). }
  constructor; try done; rsimpl.
  - by apply c_sizes_setthr.
  - eapply seg_ext; [|exact qo_ready0]. intros u Hu. apply (Hx (q_ready q) u); [by left|done].
  - intros h Hh. destruct (qo_bucket0 h Hh) as (hd & Hhd & Hs). exists hd. split; [done|].
    eapply seg_ext; [|exact Hs]. intros u Hu. apply (Hx (q_sleep q h) u); [right; by exists h|done].
Qed.

(** ** The ready queue *)

Definition enqueue (t : Z) (c : core) : core :=
  if decide (c_tail c < 0) then
    setthr t ((cthr c t) <| t_next := -1 |>) (c <| c_head := t |> <| c_tail := t |>)
  else
    let c1 := setthr (c_tail c) ((cthr c (c_tail c)) <| t_next := t |>) c in
    (setthr t ((cthr c1 t) <| t_next := -1 |>) c1) <| c_tail := t |>.

Lemma queues_tail c q :
  queues_ok c q →
  (c_tail c < 0 ∧ q_ready q = []) ∨ (qtid (c_tail c) ∧ last (q_ready q) = Some (c_tail c)).
Proof.
  intros Hq. pose proof (qo_tail c q Hq) as Ht. pose proof (qo_ready_tid c q Hq) as Hf.
  revert Ht Hf. generalize (q_ready q). intros rdy.
  destruct rdy as [|x l _] using rev_ind; intros Ht Hf.
  { left. rw Ht. done. }
  right.
  rw last_snoc /= in Ht |- *. rw Ht. split; [|done].
  apply Forall_app in Hf as [_ Hf]. by inversion Hf.
Qed.

Lemma thread_next_id (e : thread_t) : e <| t_next := t_next e |> = e.
Proof. by destruct e. Qed.

(** Every link after [enqueue]; nothing else of a thread changes. *)
Lemma cthr_enqueue c q t u :
  queues_ok c q → qtid t →
  cthr (enqueue t c) u = (cthr c u) <| t_next :=
    if decide (u = t) then -1 else
    if decide (Some u = last (q_ready q)) then t else c_next c u |>.
Proof.
  intros Hq Ht. pose proof (qo_sizes c q Hq) as Hs. pose proof (qtid_ok t Ht) as Ht'.
  unfold enqueue. destruct (queues_tail c q Hq) as [[Hneg Hnil]|[Htail Hlast]].
  - rw decide_True // Hnil /=. rw cthr_setthr //; [by destruct Hs|].
    case_decide; [by subst|]. unfold c_next. by rw thread_next_id.
  - rw decide_False; [unfold qtid in *; lia|]. rw Hlast. pose proof (qtid_ok _ Htail).
    match goal with |- cthr (update c_tail _ ?c1) u = _ =>
      change (cthr (update c_tail _ c1) u) with (cthr c1 u) end.
    rw cthr_setthr //; [by apply c_sizes_setthr|]. rw !cthr_setthr //.
    destruct (decide (u = t)) as [->|Hut].
    + case_decide as Htc; [|done]. by rw -Htc.
    + destruct (decide (u = c_tail c)) as [->|Hne].
      * by rw decide_True.
      * rw decide_False; [congruence|]. unfold c_next. by rw thread_next_id.
Qed.

Lemma c_sizes_enqueue c t : c_sizes c → c_sizes (enqueue t c).
Proof.
  intros Hs. unfold enqueue. case_decide; [by apply c_sizes_setthr; destruct Hs|].
  pose proof (c_sizes_setthr _ (c_tail c) ((cthr c (c_tail c)) <| t_next := t |>) Hs) as H1.
  pose proof (c_sizes_setthr _ t ((cthr (setthr (c_tail c) ((cthr c (c_tail c)) <| t_next := t |>) c) t)
    <| t_next := -1 |>) H1) as [].
  by constructor.
Qed.

Lemma enqueue_ok c q t :
  queues_ok c q → qtid t → ¬ in_queue q t →
  queues_ok (enqueue t c) (set_ready (q_ready q ++ [t]) q).
Proof.
  intros Hq Ht Hin. pose proof (cthr_enqueue c q t) as Hx.
  assert (∀ u, c_next (enqueue t c) u = if decide (u = t) then -1 else
    if decide (Some u = last (q_ready q)) then t else c_next c u) as Hnx.
  { intros u. unfold c_next at 1. by rw Hx. }
  assert (t ∉ q_ready q) as Hnr by (intros ?; apply Hin; by left).
  constructor; simpl; try apply Hq.
  - apply c_sizes_enqueue, Hq.
  - pose proof (seg_append _ _ _ t Hnr (qo_ready_nodup c q Hq) (qo_ready c q Hq)) as Hs.
    assert (c_head (enqueue t c) = default t (head (q_ready q))) as ->.
    { unfold enqueue. destruct (queues_tail c q Hq) as [[? ->]|[? Hl]].
      - by rw decide_True.
      - rw decide_False; [unfold qtid in *; lia|]. cbn.
        rw (seg_head _ _ _ _ (qo_ready c q Hq)). by destruct (q_ready q). }
    eapply seg_ext; [|exact Hs]. intros u Hu. apply Hnx.
  - rw last_snoc /=. unfold enqueue. by case_decide.
  - intros h Hh. destruct (qo_bucket c q Hq h Hh) as (hd & Hhd & Hs). exists hd. split.
    + rw -Hhd. unfold enqueue. by case_decide.
    + eapply seg_ext; [|exact Hs]. intros u Hu. rw Hnx. rw decide_False.
      { intros ->. apply Hin. right. by exists h. }
      rw decide_False //. intros Hl. symmetry in Hl. apply last_Some_elem_of in Hl.
      by apply (qo_disj c q Hq u h).
  - apply Forall_app. split; [apply Hq|by constructor].
  - apply NoDup_app. split_and!; [apply Hq| |apply NoDup_singleton].
    intros u Hu ->%list_elem_of_singleton. done.
  - intros u h [Hu| ->%list_elem_of_singleton]%elem_of_app; [by apply (qo_disj c q Hq)|].
    intros ?. apply Hin. right. by exists h.
Qed.

(** Take the first thread off the ready queue. *)
Definition dequeue (c : core) : core :=
  c <| c_tail := if decide (c_tail c = c_head c) then -1 else c_tail c |>
    <| c_head := c_next c (c_head c) |>.

Lemma dequeue_ok c q t rest :
  queues_ok c q → q_ready q = t :: rest →
  c_head c = t ∧ queues_ok (dequeue c) (set_ready rest q).
Proof.
  intros Hq Hr. pose proof (qo_ready c q Hq) as Hs. rw Hr /= in Hs. destruct Hs as [Hh Hs].
  pose proof (qo_ready_nodup c q Hq) as Hnd. rw Hr in Hnd. apply NoDup_cons in Hnd as [Hnt Hnd].
  split; [done|]. constructor; simpl; try apply Hq.
  - destruct (qo_sizes c q Hq). by constructor.
  - change (seg (c_next c) (c_next c (c_head c)) rest (-1)). by rw Hh.
  - change (c_tail (dequeue c)) with (if decide (c_tail c = c_head c) then -1 else c_tail c).
    rw Hh (qo_tail c q Hq) Hr. clear Hr Hs. destruct rest as [|x rest _] using rev_ind.
    + by rw decide_True.
    + rw last_snoc app_comm_cons last_snoc /=. rw decide_False //. set_solver.
  - pose proof (qo_ready_tid c q Hq) as Hf. rw Hr in Hf. by inversion Hf.
  - done.
  - intros u h Hu. apply (qo_disj c q Hq). rw Hr. by right.
Qed.

Lemma queues_head c q :
  queues_ok c q → c_head c = default (-1) (head (q_ready q)).
Proof. intros Hq. by rw (seg_head _ _ _ _ (qo_ready c q Hq)). Qed.

(** ** The buckets of the sleep queue *)

Definition set_bucket (h hd : Z) (c : core) : core :=
  c <| c_buckets := <[Z.to_nat h := hd]> (c_buckets c) |>.

Lemma get_set_bucket c h hd h' :
  c_sizes c → bucket_ok h →
  arr_get (c_buckets (set_bucket h hd c)) h' =
    if decide (h' = h) then Some hd else arr_get (c_buckets c) h'.
Proof. intros Hs Hh. apply arr_get_insert. rw (cs_buckets c Hs). exact Hh. Qed.

(** What two core states share when only links and buckets differ. *)
Lemma queues_ok_relink c c' q h l hd :
  queues_ok c q → bucket_ok h → c_sizes c' →
  c_head c' = c_head c → c_tail c' = c_tail c →
  (∀ h', h' ≠ h → arr_get (c_buckets c') h' = arr_get (c_buckets c) h') →
  arr_get (c_buckets c') h = Some hd → seg (c_next c') hd l (-1) →
  (∀ u, u ∉ q_sleep q h → u ∉ l → c_next c' u = c_next c u) →
  (∀ u, u ∈ l → u ∈ q_sleep q h ∨ (qtid u ∧ ¬ in_queue q u)) → NoDup l →
  queues_ok c' (set_sleep h l q).
Proof.
  intros Hq Hh Hsz Hhd Htl Hbk Hb Hseg Hnx Hl Hnd.
  assert (∀ u h', h' ≠ h → u ∈ q_sleep q h' → u ∉ q_sleep q h ∧ u ∉ l) as Hout.
  { intros u h' Hne Hu. assert (u ∉ q_sleep q h) as Hn.
    { intros Hu'. by apply Hne, (qo_buckets_disj c q Hq u). }
    split; [done|]. intros Hul. destruct (Hl u Hul) as [|[_ Hq']]; [done|].
    apply Hq'. right. by exists h'. }
  assert (∀ u, u ∈ q_ready q → u ∉ q_sleep q h ∧ u ∉ l) as Hrout.
  { intros u Hu. assert (u ∉ q_sleep q h) as Hn by by apply (qo_disj c q Hq).
    split; [done|]. intros Hul. destruct (Hl u Hul) as [|[_ Hq']]; [done|].
    apply Hq'. by left. }
  constructor; simpl; try apply Hq; try done.
  - rw Hhd. eapply seg_ext; [|apply Hq]. intros u Hu. by apply Hnx; apply Hrout.
  - rw Htl. apply Hq.
  - intros h' Hh'. destruct (decide (h' = h)) as [->|Hne]; [by exists hd|].
    destruct (qo_bucket c q Hq h' Hh') as (hd' & Hhd' & Hs). exists hd'.
    split; [by rw Hbk|]. eapply seg_ext; [|exact Hs]. intros u Hu.
    by apply Hnx; apply (Hout u h').
  - intros h'. case_decide; [|apply Hq]. apply Forall_forall. intros u Hu.
    destruct (Hl u Hu) as [Hu'|[? _]]; [|done].
    by apply (proj1 (Forall_forall _ _) (qo_sleep_tid c q Hq h)).
  - intros h'. case_decide; [done|apply Hq].
  - intros u h' Hu. case_decide; [by apply Hrout|by apply (qo_disj c q Hq)].
  - intros u h1 h2. destruct (decide (h1 = h)) as [->|N1], (decide (h2 = h)) as [->|N2];
      intros H1 H2; [done| | |by apply (qo_buckets_disj c q Hq u)].
    + by destruct (Hout u h2 N2 H2) as [_ []].
    + by destruct (Hout u h1 N1 H1) as [_ []].
Qed.

(** sleepq_add: chain [t], whose own link is already reset, to the end. *)
Definition bucket_append (h t : Z) (l : list Z) (c : core) : core :=
  match last l with
  | None => set_bucket h t c
  | Some x => setthr x ((cthr c x) <| t_next := t |>) c
  end.

Lemma cthr_bucket_append c q h t u :
  queues_ok c q →
  cthr (bucket_append h t (q_sleep q h) c) u =
    (cthr c u) <| t_next := if decide (Some u = last (q_sleep q h)) then t else c_next c u |>.
Proof.
  intros Hq. unfold bucket_append. destruct (last (q_sleep q h)) as [x|] eqn:Hl.
  - assert (qtid x) as Hx.
    { apply (proj1 (Forall_forall _ _) (qo_sleep_tid c q Hq h)). by apply last_Some_elem_of. }
    rw cthr_setthr; [apply Hq|by apply qtid_ok|]. destruct (decide (u = x)) as [->|Hne].
    + by rw decide_True.
    + rw decide_False; [congruence|]. unfold c_next. by rw thread_next_id.
  - case_decide; [done|]. unfold c_next. by rw thread_next_id.
Qed.

Lemma bucket_append_ok c q h t :
  queues_ok c q → bucket_ok h → qtid t → ¬ in_queue q t → c_next c t = -1 →
  queues_ok (bucket_append h t (q_sleep q h) c) (set_sleep h (q_sleep q h ++ [t]) q).
Proof.
  intros Hq Hh Ht Hin Hnt. set (l := q_sleep q h).
  assert (t ∉ l) as Htl by (intros ?; apply Hin; right; by exists h).
  assert (∀ u, c_next (bucket_append h t l c) u =
    if decide (Some u = last l) then t else c_next c u) as Hnx.
  { intros u. unfold c_next at 1. by rw (cthr_bucket_append c q). }
  destruct (qo_bucket c q Hq h Hh) as (hd & Hhd & Hs).
  assert (c_sizes (bucket_append h t l c)) as Hsz.
  { unfold bucket_append. destruct (last l); [apply c_sizes_setthr, Hq|].
    destruct (qo_sizes c q Hq). constructor; try done. unfold set_bucket. rsimpl.
    by rw length_insert. }
  apply (queues_ok_relink c _ q h (l ++ [t]) (default t (head l))); try done.
  - unfold bucket_append. by destruct (last l).
  - unfold bucket_append. by destruct (last l).
  - intros h' Hne. unfold bucket_append. destruct (last l); [done|].
    rw get_set_bucket //; [apply Hq|]. by rw decide_False.
  - unfold bucket_append. destruct (last l) as [x|] eqn:Hl.
    + rw (seg_head _ _ _ _ Hs) in Hhd. fold l in Hhd. destruct l; [done|exact Hhd].
    + apply last_None in Hl. rw get_set_bucket //; [apply Hq|]. by rw decide_True // Hl.
  - eapply seg_ext; [|apply (seg_append _ _ _ t Htl (qo_sleep_nodup c q Hq h) Hs)].
    intros u _. rw Hnx. simpl. fold l. destruct (decide (u = t)) as [->|].
    + rw decide_False //. intros Hl. symmetry in Hl. by apply last_Some_elem_of in Hl.
    + done.
  - intros u Hu Hu'. rw Hnx decide_False //. intros Hl. symmetry in Hl.
    by apply last_Some_elem_of in Hl.
  - intros u [Hu| ->%list_elem_of_singleton]%elem_of_app; [by left|by right].
  - apply NoDup_app. split_and!; [apply Hq| |apply NoDup_singleton].
    intros u Hu ->%list_elem_of_singleton. done.
Qed.

(** sleepq_wake: unlink [t], which comes after [l1] in bucket [h]. *)
Definition bucket_remove (h t : Z) (l1 : list Z) (c : core) : core :=
  match last l1 with
  | None => set_bucket h (c_next c t) c
  | Some x => setthr x ((cthr c x) <| t_next := c_next c t |>) c
  end.

Lemma cthr_bucket_remove c q h t l1 l2 u :
  queues_ok c q → q_sleep q h = l1 ++ t :: l2 →
  cthr (bucket_remove h t l1 c) u =
    (cthr c u) <| t_next := if decide (Some u = last l1) then c_next c t else c_next c u |>.
Proof.
  intros Hq Hl. unfold bucket_remove. destruct (last l1) as [x|] eqn:Hlx.
  - assert (qtid x) as Hx.
    { apply (proj1 (Forall_forall _ _) (qo_sleep_tid c q Hq h)). rw Hl.
      apply elem_of_app. left. by apply last_Some_elem_of. }
    rw cthr_setthr; [apply Hq|by apply qtid_ok|]. destruct (decide (u = x)) as [->|Hne].
    + by rw decide_True.
    + rw decide_False; [congruence|]. unfold c_next. by rw thread_next_id.
  - case_decide; [done|]. unfold c_next. by rw thread_next_id.
Qed.

Lemma bucket_remove_ok c q h t l1 l2 :
  queues_ok c q → bucket_ok h → q_sleep q h = l1 ++ t :: l2 →
  queues_ok (bucket_remove h t l1 c) (set_sleep h (l1 ++ l2) q).
Proof.
  intros Hq Hh Hl.
  assert (∀ u, c_next (bucket_remove h t l1 c) u =
    if decide (Some u = last l1) then c_next c t else c_next c u) as Hnx.
  { intros u. unfold c_next at 1. by rw (cthr_bucket_remove c q h t l1 l2). }
  destruct (qo_bucket c q Hq h Hh) as (hd & Hhd & Hs).
  pose proof (qo_sleep_nodup c q Hq h) as Hnd. rw Hl in Hnd Hs.
  assert (c_sizes (bucket_remove h t l1 c)) as Hsz.
  { unfold bucket_remove. destruct (last l1); [apply c_sizes_setthr, Hq|].
    destruct (qo_sizes c q Hq). constructor; try done. unfold set_bucket. rsimpl.
    by rw length_insert. }
  apply (queues_ok_relink c _ q h (l1 ++ l2) (if l1 is [] then c_next c t else hd)); try done.
  - unfold bucket_remove. by destruct (last l1).
  - unfold bucket_remove. by destruct (last l1).
  - intros h' Hne. unfold bucket_remove. destruct (last l1); [done|].
    rw get_set_bucket //; [apply Hq|]. by rw decide_False.
  - unfold bucket_remove. destruct (last l1) as [x|] eqn:Hlx.
    + by destruct l1.
    + apply last_None in Hlx. rw get_set_bucket //; [apply Hq|]. by rw decide_True // Hlx.
  - eapply seg_ext; [|apply (seg_remove _ _ _ _ _ _ Hnd Hs)]. intros u _. apply Hnx.
  - intros u Hu _. rw Hnx decide_False //. intros Hx. symmetry in Hx.
    apply last_Some_elem_of in Hx. apply Hu. rw Hl. apply elem_of_app. by left.
  - intros u Hu. left. rw Hl. set_solver.
  - apply NoDup_app in Hnd as (? & Hd & [? ?]%NoDup_cons). apply NoDup_app. split_and!; [done| |done].
    intros u Hu1 Hu2. apply (Hd u Hu1). by right.
Qed.
