(* ===== verification/Kinv.v ===== *)
(** * The invariant of the kernel core

    [kinv c q] relates the core state [c] to its queues [q]: which threads are
    in which queue, what their state and [sleeps_on] fields say, and which
    threads run on the CPUs.  [waiters c q r] is the list of threads that sleep
    on resource [r], in the order in which they will be woken. *)
From S2P Require Import Prelude Kstate Queues.

Abbreviation st c t := (t_state (cthr c t)).
Abbreviation so c t := (t_sleeps_on (cthr c t)).

(** One thread's fields agree with the queues it is in. *)
Record thread_ok (c : core) (q : queues) (t : Z) : Prop := {
  tk_ready : t ∈ q_ready q → st c t = THREAD_READY ∧ so c t = 0;
  tk_readied : qtid t → st c t = THREAD_READY → t ∈ q_ready q;
  tk_sleep h : t ∈ q_sleep q h →
    so c t ≠ 0 ∧ SLEEPQ_HASH (so c t) = h ∧ (st c t = THREAD_RUNNING ∨ st c t = THREAD_SLEEPING);
  tk_slept : so c t ≠ 0 → t ∈ q_sleep q (SLEEPQ_HASH (so c t));
  tk_sleeping : st c t = THREAD_SLEEPING → so c t ≠ 0;
  tk_range : 0 ≤ so c t < 2 ^ 32 }.

(** The threads that run on the CPUs.  [x] is a CPU that is choosing its next
    thread, -1 if none is. *)
Record currents_ok (c : core) (x : Z) : Prop := {
  cu_tid cpu : 0 ≤ cpu < CONFIG_MAX_CPUS → tid_ok (ccur c cpu);
  cu_state cpu : 0 ≤ cpu < CONFIG_MAX_CPUS → cpu ≠ x → ccur c cpu ≠ 0 →
    st c (ccur c cpu) = THREAD_RUNNING ∨ st c (ccur c cpu) = THREAD_DYING;
  cu_inj cpu cpu' : 0 ≤ cpu < CONFIG_MAX_CPUS → 0 ≤ cpu' < CONFIG_MAX_CPUS → cpu ≠ x → cpu' ≠ x →
    ccur c cpu ≠ 0 → ccur c cpu = ccur c cpu' → cpu = cpu';
  cu_running t : qtid t → st c t = THREAD_RUNNING ∨ st c t = THREAD_DYING →
    ∃ cpu, 0 ≤ cpu < CONFIG_MAX_CPUS ∧ cpu ≠ x ∧ ccur c cpu = t }.

Record kpre (c : core) (q : queues) : Prop := {
  kp_queues : queues_ok c q;
  kp_thread t : thread_ok c q t }.

Record kinv (c : core) (q : queues) : Prop := {
  ki_pre : kpre c q;
  ki_current : currents_ok c (-1) }.

(** The threads waiting for a resource, first come first. *)
Definition waiters (c : core) (q : queues) (r : Z) : list Z :=
  filter (λ t, so c t = r) (q_sleep q (SLEEPQ_HASH r)).

Lemma sizes_of c q : kinv c q → c_sizes c.
Proof. intros H. apply H. Qed.

Lemma kpre_not_queued c q t :
  kpre c q → st c t ≠ THREAD_READY → so c t = 0 → ¬ in_queue q t.
Proof.
  intros Hk Hs Hso [Hin|[h Hin]].
  - by apply (tk_ready c q t) in Hin as [? _]; [|apply Hk].
  - by apply (tk_sleep c q t) in Hin as [? _]; [|apply Hk].
Qed.

(** One thread changes; the others keep their fields and queues. *)
Lemma kpre_change c q c' q' t :
  kpre c q → queues_ok c' q' →
  (∀ u, u ≠ t → st c' u = st c u ∧ so c' u = so c u) →
  (∀ u, u ≠ t → (u ∈ q_ready q' ↔ u ∈ q_ready q) ∧ ∀ h, u ∈ q_sleep q' h ↔ u ∈ q_sleep q h) →
  thread_ok c' q' t → kpre c' q'.
Proof.
  intros Hk Hq' Hf Hm Ht. constructor; [done|]. intros u.
  destruct (decide (u = t)) as [->|Hne]; [done|].
  destruct (Hf u Hne) as [E1 E2]. destruct (Hm u Hne) as [M1 M2].
  destruct (kp_thread c q Hk u). constructor.
  - rw M1 E1 E2. done.
  - rw M1 E1. done.
  - intros h. rw M2 E1 E2. auto.
  - rw M2 E2. done.
  - by rw E1 E2.
  - by rw E2.
Qed.

(** The CPU's threads keep what they need when [t]'s state is not touched or
    [t] does not run. *)
Lemma currents_change c c' x :
  currents_ok c x → c_current c' = c_current c →
  (∀ u, st c u = THREAD_RUNNING ∨ st c u = THREAD_DYING ↔
        st c' u = THREAD_RUNNING ∨ st c' u = THREAD_DYING) →
  currents_ok c' x.
Proof.
  intros [] Hc Hs. assert (∀ cpu, ccur c' cpu = ccur c cpu) as Hcur.
  { intros cpu. unfold ccur. by rw Hc. }
  constructor.
  - intros cpu. rw Hcur. auto.
  - intros cpu. rw Hcur -Hs. auto.
  - intros cpu cpu'. rw !Hcur. auto.
  - intros t. rw -Hs. intros Ht Hst. destruct (cu_running0 t Ht Hst) as (cpu & ? & ? & ?).
    exists cpu. by rw Hcur.
Qed.

(** The list of waiters when nothing it reads changes. *)
Lemma waiters_ext c q c' q' r :
  q_sleep q' (SLEEPQ_HASH r) = q_sleep q (SLEEPQ_HASH r) →
  (∀ t, t ∈ q_sleep q (SLEEPQ_HASH r) → so c' t = so c t) →
  waiters c' q' r = waiters c q r.
Proof.
  intros Hq Hs. unfold waiters. rw Hq. apply filter_ext_in. intros t Ht. by rw Hs.
Qed.

Lemma elem_of_waiters c q r t :
  kpre c q → r ≠ 0 → t ∈ waiters c q r ↔ so c t = r.
Proof.
  intros Hk Hr. unfold waiters. rw list_elem_of_filter. split; [tauto|].
  intros <-. split; [done|]. by apply (kp_thread c q Hk t).
Qed.

Lemma waiters_NoDup c q r : kpre c q → NoDup (waiters c q r).
Proof. intros Hk. apply NoDup_filter. apply (qo_sleep_nodup c q), Hk. Qed.

Lemma waiters_qtid c q r t : kpre c q → t ∈ waiters c q r → qtid t.
Proof.
  intros Hk [_ Ht]%list_elem_of_filter.
  exact (sleep_qtid c q (SLEEPQ_HASH r) t (kp_queues c q Hk) Ht).
Qed.

(** Where the first waiter is in its bucket. *)
Lemma waiters_split c q r :
  match waiters c q r with
  | [] => Forall (λ t, so c t ≠ r) (q_sleep q (SLEEPQ_HASH r))
  | t :: ws => ∃ l1 l2, q_sleep q (SLEEPQ_HASH r) = l1 ++ t :: l2 ∧
      Forall (λ u, so c u ≠ r) l1 ∧ so c t = r ∧ ws = filter (λ t, so c t = r) l2
  end.
Proof.
  unfold waiters. induction (q_sleep q (SLEEPQ_HASH r)) as [|x l IH]; [constructor|].
  rw filter_cons. case_decide as Hx.
  - by exists [], l.
  - destruct (filter _ l) as [|t ws].
    + by constructor.
    + destruct IH as (l1 & l2 & -> & Hf & Ht & Hw). exists (x :: l1), l2.
      split_and!; [done|by constructor|done|done].
Qed.

(** ** Changes of state *)

Definition set_state (v : thread_state_t) (t : Z) (c : core) : core :=
  setthr t ((cthr c t) <| t_state := v |>) c.

Lemma set_state_queues c q t v :
  queues_ok c q → tid_ok t → queues_ok (set_state v t c) q.
Proof. intros. by apply queues_ok_setthr; [| |left]. Qed.

Lemma st_set_state c t v u :
  c_sizes c → tid_ok t → st (set_state v t c) u = if decide (u = t) then v else st c u.
Proof. intros. unfold set_state. rw cthr_setthr //. by case_decide. Qed.

Lemma so_set_state c t v u :
  c_sizes c → tid_ok t → so (set_state v t c) u = so c u.
Proof. intros. unfold set_state. rw cthr_setthr //. case_decide; by subst. Qed.

(** A thread outside the queues gets a state other than READY and SLEEPING. *)
Lemma kpre_set_state c q t v :
  kpre c q → tid_ok t → v ≠ THREAD_READY ∨ t = 0 → v ≠ THREAD_SLEEPING →
  so c t = 0 → st c t ≠ THREAD_READY ∨ t = 0 → kpre (set_state v t c) q.
Proof.
  intros Hk Ht Hv Hv' Hso Hst. pose proof (kp_queues c q Hk) as Hq.
  pose proof (qo_sizes c q Hq) as Hs. pose proof (kp_thread c q Hk t) as [].
  apply (kpre_change c q _ q t); [done|by apply set_state_queues| |done|].
  - intros u Hu. by rw st_set_state // so_set_state // decide_False.
  - assert (t ∉ q_ready q) as Hnr.
    { intros Hin. destruct Hst as [Hst|Hst].
      - by apply Hst, tk_ready0.
      - apply (ready_qtid c q t Hq) in Hin. unfold qtid in Hin. lia. }
    constructor; rw ?st_set_state // ?so_set_state // ?decide_True //.
    + intros Hq' ->. destruct Hv as [?| ->]; [done|]. unfold qtid in Hq'. lia.
    + intros h Hin. by destruct (tk_sleep0 h Hin).
Qed.

(** A runnable thread outside the queues joins the ready queue. *)
Lemma kpre_make_ready c q c' t :
  kpre c q → queues_ok c' (set_ready (q_ready q ++ [t]) q) → so c t = 0 →
  (∀ u, so c' u = so c u) → (∀ u, st c' u = if decide (u = t) then THREAD_READY else st c u) →
  kpre c' (set_ready (q_ready q ++ [t]) q).
Proof.
  intros Hk Hq' Ht Hso Hst. apply (kpre_change c q _ _ t); [done..| | |].
  - intros u Hu. by rw Hst Hso decide_False.
  - intros u Hu. simpl. rw elem_of_app list_elem_of_singleton. tauto.
  - destruct (kp_thread c q Hk t).
    constructor; rw ?Hst ?Hso ?decide_True //=.
    + intros _ _. apply elem_of_app. right. by apply list_elem_of_singleton.
    + intros h Hin. by destruct (tk_sleep0 h Hin).
Qed.

(** The first ready thread starts to run. *)
Lemma kpre_dispatch c q t rest :
  kpre c q → q_ready q = t :: rest →
  kpre (set_state THREAD_RUNNING t (dequeue c)) (set_ready rest q).
Proof.
  intros Hk Hr. pose proof (kp_queues c q Hk) as Hq.
  destruct (dequeue_ok c q t rest Hq Hr) as [Hh Hq'].
  assert (qtid t) as Ht by (apply (ready_qtid c q); [done|rw Hr; by left]).
  pose proof (qtid_ok t Ht) as Ht'. pose proof (qo_sizes _ _ Hq') as Hs.
  assert (t ∉ rest) as Hnr.
  { pose proof (qo_ready_nodup c q Hq) as Hnd. rw Hr in Hnd. by inversion Hnd. }
  apply (kpre_change c q _ _ t); [done|by apply set_state_queues| | |].
  - intros u Hu. rw st_set_state // so_set_state // decide_False //.
  - intros u Hu. simpl. rw Hr elem_of_cons. tauto.
  - destruct (kp_thread c q Hk t). destruct tk_ready0 as [Hst Hso]; [rw Hr; by left|].
    change (so c t) with (so (dequeue c) t) in *.
    constructor; rw ?st_set_state // ?so_set_state // ?decide_True //=.
    intros h Hin. exfalso. apply (qo_disj c q Hq t h); [rw Hr; by left|done].
Qed.

(** A CPU puts back its thread, then takes another one. *)
Lemma currents_leave c c' cpu :
  currents_ok c (-1) → 0 ≤ cpu < CONFIG_MAX_CPUS → c_current c' = c_current c →
  (∀ u, u ≠ ccur c cpu → st c' u = st c u) →
  (ccur c cpu ≠ 0 → st c' (ccur c cpu) ≠ THREAD_RUNNING ∧ st c' (ccur c cpu) ≠ THREAD_DYING) →
  currents_ok c' cpu.
Proof.
  intros [] Hcpu Hc Hst Hcur. assert (∀ i, ccur c' i = ccur c i) as E by (intros; unfold ccur; by rw Hc).
  constructor.
  - intros i. rw E. auto.
  - intros i Hi Hne. rw E. intros Hn0. rw Hst.
    { intros Heq. apply Hne, cu_inj0; lia || done. }
    apply cu_state0; lia || done.
  - intros i j Hi Hj _ _. rw !E. intros. apply cu_inj0; lia || done.
  - intros t Ht Hs. destruct (decide (t = ccur c cpu)) as [->|Hne].
    + destruct Hcur as [? ?]; [unfold qtid in Ht; lia|]. tauto.
    + rw (Hst t Hne) in Hs. destruct (cu_running0 t Ht Hs) as (i & Hi & _ & Ht').
      exists i. rw E. split_and!; [lia..| |done]. congruence.
Qed.

Lemma currents_enter c c' cpu t :
  currents_ok c cpu → 0 ≤ cpu < CONFIG_MAX_CPUS → tid_ok t →
  st c t ≠ THREAD_RUNNING ∧ st c t ≠ THREAD_DYING ∨ t = 0 →
  (∀ i, ccur c' i = if decide (i = cpu) then t else ccur c i) →
  (∀ u, u ≠ t → st c' u = st c u) → st c' t = THREAD_RUNNING →
  currents_ok c' (-1).
Proof.
  intros [] Hcpu Ht Hst E Hs' Ht'. assert (∀ i, 0 ≤ i < CONFIG_MAX_CPUS → i ≠ cpu →
    ccur c i ≠ 0 → ccur c i ≠ t) as Hdiff.
  { intros i Hi Hne Hn0 Heq. destruct Hst as [[H1 H2]|H0]; [|congruence].
    destruct (cu_state0 i Hi Hne Hn0); congruence. }
  constructor.
  - intros i Hi. rw E. case_decide; [done|auto].
  - intros i Hi _. rw E. case_decide as Hi'; [by left|]. intros Hn0.
    rw Hs'; [by apply Hdiff|]. by apply cu_state0.
  - intros i j Hi Hj _ _. rw !E. repeat case_decide; subst; try done.
    + intros Hn0 ->. destruct (decide (ccur c j = 0)); [done|]. by destruct (Hdiff j Hj).
    + intros Hn0 <-. by destruct (Hdiff i Hi).
    + intros Hn0 Heq. by apply cu_inj0.
  - intros u Hu Hs. destruct (decide (u = t)) as [->|Hne].
    + exists cpu. rw E decide_True //. split_and!; [lia..|done].
    + rw Hs' // in Hs. destruct (cu_running0 u Hu Hs) as (i & Hi & Hne' & Hu').
      exists i. rw E decide_False //. split_and!; [lia..|done].
Qed.

(** ** Boot: only the idle thread exists *)

Lemma kinv_boot c :
  c_sizes c → c_head c = -1 → c_tail c = -1 →
  c_buckets c = replicate 127 (-1) → c_current c = replicate 4 0 →
  (∀ t, so c t = 0) → st c 0 = THREAD_READY →
  (∀ t, qtid t → st c t = THREAD_FREE ∨ st c t = THREAD_NONREADY) →
  kinv c (Queues [] (λ _, [])).
Proof.
  intros Hs Hh Ht Hb Hc Hso Hst0 Hst.
  assert (∀ i, ccur c i = 0) as Hcur.
  { intros i. unfold ccur. rw Hc. destruct (arr_get (replicate 4 0) i) as [x|] eqn:E; [|done].
    apply arr_get_Some in E as [_ E]. by apply lookup_replicate in E as [-> _]. }
  assert (∀ t, st c t ≠ THREAD_SLEEPING) as Hns.
  { intros t. destruct (decide (qtid t)) as [Hq|Hq]; [destruct (Hst t Hq); congruence|].
    destruct (decide (t = 0)) as [->|]; [congruence|]. unfold cthr. unfold qtid in Hq.
    destruct (arr_get (c_threads c) t) eqn:E; [|done]. apply arr_get_lt in E.
    rw (cs_threads c Hs) in E. lia. }
  constructor; [constructor|].
  - constructor; simpl; try done; try (by constructor); try (intros; set_solver).
    intros h Hbk. exists (-1). split; [|done]. rw Hb. apply arr_get_replicate. exact Hbk.
  - intros t. constructor; rw ?Hso; simpl; try done; try (intros; set_solver).
    + intros Hq HR. destruct (Hst t Hq); congruence.
  - constructor.
    + intros i _. by rw Hcur.
    + intros i _ _. by rw Hcur.
    + intros i j _ _ _ _. by rw Hcur.
    + intros t Hq [HR|HR]; destruct (Hst t Hq); congruence.
Qed.

(** A thread that is neither running nor queued becomes ready. *)
Lemma kinv_ready_new c q t :
  kinv c q → qtid t → so c t = 0 → st c t = THREAD_NONREADY →
  kinv (set_state THREAD_READY t (enqueue t c)) (set_ready (q_ready q ++ [t]) q).
Proof.
  intros [Hk Hcu] Ht Hso Hst. pose proof (kp_queues _ _ Hk) as Hq.
  pose proof (qtid_ok t Ht) as Ht'. pose proof (c_sizes_enqueue _ t (qo_sizes _ _ Hq)) as Hs.
  assert (∀ u, st (set_state THREAD_READY t (enqueue t c)) u =
    if decide (u = t) then THREAD_READY else st c u) as Hst'.
  { intros u. rw st_set_state //. case_decide; [done|]. by rw (cthr_enqueue c q). }
  constructor.
  - apply (kpre_make_ready c q _ t); try done.
    + apply set_state_queues; [|done]. apply enqueue_ok; [done..|].
      apply (kpre_not_queued c q); [done|congruence|done].
    + intros u. rw so_set_state //. by rw (cthr_enqueue c q).
  - apply (currents_change c); [done| |].
    + change (c_current (enqueue t c) = c_current c). unfold enqueue. by case_decide.
    + intros u. rw Hst'. case_decide; [subst; rw Hst; naive_solver congruence|done].
Qed.

(** A thread that does not take part in scheduling. *)
Definition dormant (v : thread_state_t) : Prop := v = THREAD_FREE ∨ v = THREAD_NONREADY.

Lemma dormant_not_queued c q t : kpre c q → dormant (st c t) → ¬ in_queue q t ∧ so c t = 0.
Proof.
  intros Hk Hd. assert (so c t = 0) as Hso.
  { destruct (decide (so c t = 0)) as [|Hne]; [done|].
    destruct (kp_thread _ _ Hk t) as [_ _ tk3 tk4 _ _].
    destruct (tk3 _ (tk4 Hne)) as (_ & _ & Hst). unfold dormant in Hd. naive_solver congruence. }
  split; [|done]. apply (kpre_not_queued c q); [done| |done].
  unfold dormant in Hd. naive_solver congruence.
Qed.

Lemma kinv_set_dormant c q t e :
  kinv c q → tid_ok t → dormant (st c t) → dormant (t_state e) → t_sleeps_on e = 0 →
  kinv (setthr t e c) q.
Proof.
  intros [Hk Hcu] Ht Hd Hd' Hso. pose proof (kp_queues _ _ Hk) as Hq.
  destruct (dormant_not_queued _ _ _ Hk Hd) as [Hnq Hso0]. pose proof (qo_sizes _ _ Hq) as Hs.
  constructor.
  - apply (kpre_change c q _ q t); [done|apply queues_ok_setthr; auto| |done|].
    + intros u Hu. rw cthr_setthr // decide_False //.
    + constructor; rw cthr_setthr // decide_True // ?Hso //.
      * intros Hin. exfalso. apply Hnq. by left.
      * intros _ HR. unfold dormant in Hd'. naive_solver congruence.
      * intros h Hin. exfalso. apply Hnq. right. by exists h.
      * intros HR. unfold dormant in Hd'. naive_solver congruence.
  - apply (currents_change c); [done..|]. intros u. rw cthr_setthr //. case_decide; [subst|done].
    unfold dormant in Hd, Hd'. naive_solver congruence.
Qed.

(** The running thread starts to die. *)
Lemma kinv_dying c q t :
  kinv c q → qtid t → so c t = 0 → st c t = THREAD_RUNNING → kinv (set_state THREAD_DYING t c) q.
Proof.
  intros [Hk Hcu] Ht Hso Hst. pose proof (qtid_ok t Ht) as Ht'.
  pose proof (qo_sizes _ _ (kp_queues _ _ Hk)) as Hs. constructor.
  - apply kpre_set_state; try done; [by left|left; congruence].
  - apply (currents_change c); [done..|]. intros u. rw st_set_state //.
    case_decide; [subst; rw Hst; tauto|done].
Qed.

(** A kernel state with the idle thread on every CPU and the new thread 1. *)
Definition example_state : kstate :=
  Kstate 0 0xff01 0 0 1
    (Thread 0 0 THREAD_READY 0 0 (-1) (-1) :: Thread 0 0 THREAD_NONREADY 0 0 (-1) (-1)
     :: replicate 30 (Thread 0 0 THREAD_FREE 0 0 (-1) (-1)))
    0 0 (λ _, Context [] 0 0 0 0 0) (replicate 4 0) (-1) (-1) (replicate 127 (-1)) 0
    (replicate 128 (Semaphore 0 0 (-1))) 0 0.

Lemma example_state_cpu : cpu_ok example_state.
Proof. constructor; cbn; unfold CONFIG_MAX_CPUS; lia. Defined.

Lemma example_state_inv : kinv (core_of example_state) (Queues [] (λ _, [])).
Proof.
  assert (∀ t, cthr (core_of example_state) t = no_thread ∨
    cthr (core_of example_state) t ∈ c_threads (core_of example_state)) as Ht.
  { intros t. unfold cthr. destruct (arr_get _ t) as [e|] eqn:E; [|by left].
    right. apply arr_get_Some in E as [_ E]. by apply list_elem_of_lookup_2 in E. }
  assert (∀ e, e ∈ c_threads (core_of example_state) → t_sleeps_on e = 0) as Hso.
  { intros e [->|[->|Hin]%elem_of_cons]%elem_of_cons; [done..|].
    apply elem_of_replicate in Hin as [-> _]. done. }
  apply kinv_boot; try reflexivity.
  - constructor; reflexivity.
  - intros t. destruct (Ht t) as [-> |Hin]; [reflexivity|by apply Hso].
  - intros t Hq. unfold qtid, CONFIG_MAX_THREADS in Hq.
    destruct (decide (t = 1)) as [->|Hne]; [by right|]. left.
    unfold cthr, arr_get. rw decide_True; [lia|].
    replace (Z.to_nat t) with (S (S (Z.to_nat (t - 2)))) by lia. simpl.
    assert (Z.to_nat (t - 2) < 30)%nat by lia.
    by rw (lookup_replicate_2 30 (Thread 0 0 THREAD_FREE 0 0 (-1) (-1)) (Z.to_nat (t - 2))).
Qed.
