(* ===== verification/Scheduler.v ===== *)
(** * The scheduler (kernel/scheduler.c)

    The ready queue is a list threaded through the [next] fields of the thread
    table; the operations are append, remove first and the choice of the next
    thread. *)
From S2P Require Import Prelude Cpu Kstate Queues Kinv.

Module Scheduler.

Definition scheduler_init : K unit :=
  for_loop (Z.to_nat CONFIG_MAX_CPUS) 0 (λ i s,
    match arr_set (scheduler_current_thread s) i 0 with
    | Some l => Done tt (s <| scheduler_current_thread := l |>)
    | None => Fault
    end).

Definition scheduler_add_to_ready_list (t : Z) : K unit :=
  kernel_assert (bool_decide (t ≠ IDLE_THREAD_TID));;
  kernel_assert (bool_decide (0 ≤ t ∧ t < CONFIG_MAX_THREADS));;
  tail ← gets ready_tail;
  if decide (tail < 0) then
    modify (λ s, s <| ready_head := t |>);;
    modify (λ s, s <| ready_tail := t |>);;
    upd_thread t (λ e, e <| t_next := -1 |>)
  else
    upd_thread tail (λ e, e <| t_next := t |>);;
    upd_thread t (λ e, e <| t_next := -1 |>);;
    modify (λ s, s <| ready_tail := t |>).

Definition scheduler_remove_first_ready : K Z :=
  t ← gets ready_head;
  kernel_assert (bool_decide (t ≠ IDLE_THREAD_TID));;
  (if decide (0 ≤ t) then
     e ← get_thread t;
     kernel_assert (bool_decide (t_state e = THREAD_READY));;
     tail ← gets ready_tail;
     (if decide (tail = t) then modify (λ s, s <| ready_tail := -1 |>) else mret tt);;
     head ← gets ready_head;
     e ← get_thread head;
     modify (λ s, s <| ready_head := t_next e |>)
   else mret tt);;
  if decide (t < 0) then mret IDLE_THREAD_TID else mret t.

Definition scheduler_add_ready (t : Z) : K unit :=
  intr_status ← _interrupt_disable #k_status;
  spinlock_acquire #thread_table_slock;;
  scheduler_add_to_ready_list t;;
  upd_thread t (λ e, e <| t_state := THREAD_READY |>);;
  spinlock_release #thread_table_slock;;
  _interrupt_set_state #k_status intr_status;;
  mret tt.

Definition scheduler_schedule : K unit :=
  cpu ← _interrupt_getcpu;
  spinlock_acquire #thread_table_slock;;
  cur ← get_current cpu;
  current_thread ← get_thread cur;
  (if decide (t_state current_thread = THREAD_DYING) then
     upd_thread cur (λ e, e <| t_state := THREAD_FREE |>)
   else if decide (t_sleeps_on current_thread ≠ 0) then
     upd_thread cur (λ e, e <| t_state := THREAD_SLEEPING |>)
   else
     (if decide (cur ≠ IDLE_THREAD_TID) then scheduler_add_to_ready_list cur else mret tt);;
     upd_thread cur (λ e, e <| t_state := THREAD_READY |>));;
  t ← scheduler_remove_first_ready;
  upd_thread t (λ e, e <| t_state := THREAD_RUNNING |>);;
  spinlock_release #thread_table_slock;;
  set_current cpu t;;
  ticks ← _get_rand CONFIG_SCHEDULER_TIMESLICE;
  timer_set_ticks (ticks + Z.quot CONFIG_SCHEDULER_TIMESLICE 2).

(** ** The operations on the queues *)

Lemma scheduler_add_to_ready_list_run s q t :
  queues_ok (core_of s) q → qtid t →
  scheduler_add_to_ready_list t s = Done tt (put_core (enqueue t (core_of s)) s).
Proof.
  intros Hq Ht. pose proof (qo_sizes _ _ Hq) as Hs. pose proof (qtid_ok t Ht) as Ht'.
  unfold scheduler_add_to_ready_list, IDLE_THREAD_TID.
  rw bind_assert; [unfold qtid in Ht; lia|]. rw bind_assert; [done|]. rw bind_gets.
  unfold enqueue. change (c_tail (core_of s)) with (ready_tail s).
  case_decide as Hd.
  - rw !bind_modify upd_thread_run; [by destruct Hs|done|]. by destruct s.
  - destruct (queues_tail _ _ Hq) as [[? _]|[Htail _]]; [done|].
    erewrite bind_Done; [|apply upd_thread_run; [done|by apply qtid_ok]].
    erewrite bind_Done; [|apply upd_thread_run; [rw core_of_put; by apply c_sizes_setthr|done]].
    unfold modify. f_equal.
Qed.

Lemma scheduler_remove_first_ready_run s q :
  kpre (core_of s) q →
  scheduler_remove_first_ready s =
    match q_ready q with
    | [] => Done 0 s
    | t :: _ => Done t (put_core (dequeue (core_of s)) s)
    end.
Proof.
  intros Hk. pose proof (kp_queues _ _ Hk) as Hq. unfold scheduler_remove_first_ready, IDLE_THREAD_TID.
  rw bind_gets. pose proof (queues_head _ _ Hq) as Hh. change (c_head (core_of s)) with (ready_head s) in Hh.
  destruct (q_ready q) as [|t rest] eqn:Hr; simpl in Hh; rw Hh.
  - by rw bind_assert.
  - assert (qtid t) as Ht by (eapply ready_qtid; [exact Hq|rw Hr; by left]).
    pose proof (qtid_ok t Ht). unfold qtid in Ht.
    destruct (tk_ready _ _ t (kp_thread _ _ Hk t)) as [Hst _]; [rw Hr; by left|].
    rw bind_assert; [lia|]. rw (decide_True (P := 0 ≤ t)); [lia|].
    rw bind_bind. erewrite bind_Done; [|apply get_thread_run; [apply Hq|done]].
    rw bind_bind bind_assert // bind_bind bind_gets.
    destruct (decide (ready_tail s = t)) as [Hd|Hd].
    + rw bind_bind bind_modify bind_bind bind_gets.
      change (ready_head (s <| ready_tail := -1 |>)) with (ready_head s). rw Hh bind_bind.
      erewrite bind_Done; [|apply get_thread_run; [by destruct (qo_sizes _ _ Hq)|done]].
      rw bind_modify decide_False; [lia|]. unfold mret, M_ret, dequeue. f_equal.
      change (c_head (core_of s)) with (ready_head s). change (c_tail (core_of s)) with (ready_tail s).
      rw Hh decide_True //.
    + rw bind_bind bind_ret bind_bind bind_gets Hh bind_bind.
      erewrite bind_Done; [|apply get_thread_run; [apply Hq|done]].
      rw bind_modify decide_False; [lia|]. unfold mret, M_ret, dequeue. f_equal.
      change (c_head (core_of s)) with (ready_head s). change (c_tail (core_of s)) with (ready_tail s).
      rw Hh decide_False //.
Qed.

(** ** scheduler_schedule *)

(** What happens to the thread that leaves the CPU. *)
Definition put_back (cur : Z) (c : core) : core :=
  if decide (st c cur = THREAD_DYING) then set_state THREAD_FREE cur c
  else if decide (so c cur ≠ 0) then set_state THREAD_SLEEPING cur c
  else set_state THREAD_READY cur (if decide (cur ≠ 0) then enqueue cur c else c).

Definition runnable (c : core) (cur : Z) : Prop :=
  st c cur ≠ THREAD_DYING ∧ so c cur = 0 ∧ cur ≠ 0.
#[export] Instance runnable_dec c cur : Decision (runnable c cur) := decide (_ ∧ _ ∧ _).

(** The ready queue when the next thread is chosen. *)
Definition candidates (c : core) (q : queues) (cur : Z) : list Z :=
  q_ready q ++ (if decide (runnable c cur) then [cur] else []).

Lemma idle_so c q : kpre c q → so c 0 = 0.
Proof.
  intros Hk. destruct (decide (so c 0 = 0)) as [|Hne]; [done|].
  apply (tk_slept _ _ 0 (kp_thread _ _ Hk 0)) in Hne.
  apply (sleep_qtid _ _ _ _ (kp_queues _ _ Hk)) in Hne. unfold qtid in Hne. lia.
Qed.

(** A field of threads that neither the state nor the links touch. *)
Definition steady {A} (f : thread_t → A) : Prop :=
  (∀ e v, f (e <| t_state := v |>) = f e) ∧ (∀ e v, f (e <| t_next := v |>) = f e).

Lemma steady_set_state {A} (f : thread_t → A) c t v u :
  steady f → c_sizes c → tid_ok t → f (cthr (set_state v t c) u) = f (cthr c u).
Proof. intros [Hf _] Hs Ht. unfold set_state. rw cthr_setthr //. destruct (decide (u = t)) as [->|]; [apply Hf|done]. Qed.

Lemma steady_put_back {A} (f : thread_t → A) c q cur u :
  steady f → kpre c q → tid_ok cur → f (cthr (put_back cur c) u) = f (cthr c u).
Proof.
  intros Hf Hk Hc. pose proof (qo_sizes _ _ (kp_queues _ _ Hk)) as Hs. unfold put_back.
  repeat case_decide; rw steady_set_state //; [by apply c_sizes_enqueue|].
  rw (cthr_enqueue c q) //; [apply Hk|unfold qtid, tid_ok in *; lia|]. apply Hf.
Qed.

Lemma so_put_back c q cur u : kpre c q → tid_ok cur → so (put_back cur c) u = so c u.
Proof. by apply steady_put_back. Qed.

Lemma st_put_back c q cur u :
  kpre c q → tid_ok cur →
  st (put_back cur c) u =
    if decide (u = cur) then
      if decide (st c cur = THREAD_DYING) then THREAD_FREE
      else if decide (so c cur ≠ 0) then THREAD_SLEEPING else THREAD_READY
    else st c u.
Proof.
  intros Hk Hc. pose proof (qo_sizes _ _ (kp_queues _ _ Hk)) as Hs. unfold put_back.
  case_decide as H1; [by rw st_set_state|]. case_decide as H2; [by rw st_set_state|].
  case_decide as H3; [|by rw st_set_state].
  rw st_set_state //; [by apply c_sizes_enqueue|]. case_decide; [done|].
  by rw (cthr_enqueue c q) //; [apply Hk|unfold qtid, tid_ok in *; lia].
Qed.

Lemma current_put_back cur c : c_current (put_back cur c) = c_current c.
Proof. unfold put_back, enqueue. repeat case_decide; done. Qed.

Lemma put_back_ok c q cpu :
  kinv c q → 0 ≤ cpu < CONFIG_MAX_CPUS →
  let cur := ccur c cpu in
  kpre (put_back cur c) (set_ready (candidates c q cur) q) ∧
  currents_ok (put_back cur c) cpu.
Proof.
  intros [Hk Hcu] Hcpu cur. pose proof (cu_tid _ _ Hcu cpu Hcpu) as Htid. fold cur in Htid.
  pose proof (kp_queues _ _ Hk) as Hq. pose proof (qo_sizes _ _ Hq) as Hs.
  pose proof (cu_state _ _ Hcu cpu Hcpu ltac:(lia)) as Hcs. fold cur in Hcs.
  split.
  - pose proof (λ u, so_put_back c q cur u Hk Htid) as Hso.
    pose proof (λ u, st_put_back c q cur u Hk Htid) as Hst.
    unfold candidates, runnable. unfold put_back in *. case_decide as H1.
    + rw decide_False; [tauto|]. rw app_nil_r set_ready_id.
      apply kpre_set_state; try done; [by left| |].
      * destruct (decide (so c cur = 0)) as [|Hn]; [done|].
        destruct (tk_sleep _ _ _ (kp_thread _ _ Hk cur) _ (tk_slept _ _ _ (kp_thread _ _ Hk cur) Hn))
          as (_ & _ & [|]); congruence.
      * left. congruence.
    + case_decide as H2.
      * rw decide_False; [tauto|]. rw app_nil_r set_ready_id.
        apply (kpre_change c q _ _ cur); [done|by apply set_state_queues| |done|].
        -- intros u Hu. by rw Hst Hso decide_False.
        -- destruct (kp_thread _ _ Hk cur) as [tk1 tk2 tk3 tk4 tk5 tk6]. assert (st c cur ≠ THREAD_READY) as Hnr.
           { intros HR. destruct (tk3 _ (tk4 H2)) as (_ & _ & [|]); congruence. }
           constructor; rw ?Hst ?Hso ?decide_True //=.
           ++ intros Hin. by destruct (Hnr (proj1 (tk1 Hin))).
           ++ intros h Hin. destruct (tk3 h Hin) as (? & ? & _). auto.
      * assert (so c cur = 0) as Hz by (destruct (decide (so c cur = 0)); tauto).
        destruct (decide (cur ≠ 0)) as [Hn|Hn].
        -- rw decide_True; [done|]. apply kpre_make_ready with (c := c) (t := cur); try done.
           ++ apply set_state_queues; [|done]. apply enqueue_ok; [done|unfold qtid, tid_ok in *; lia|].
              apply (kpre_not_queued c q); [done| |done]. destruct (Hcs Hn); congruence.
        -- rw decide_False; [tauto|]. rw app_nil_r set_ready_id.
           assert (cur = 0) as -> by lia.
           apply (kpre_set_state c q 0); [done|done|by right|done|done|by right].
  - apply (currents_leave c); [done|done|apply current_put_back| |].
    + intros u Hu. by rw (st_put_back c q) // decide_False.
    + intros _. rw (st_put_back c q) // decide_True //. repeat case_decide; done.
Qed.
(** The core after CPU [cpu] took thread [t]. *)
Definition take_cpu (cpu t : Z) (c : core) : core :=
  let c2 := set_state THREAD_RUNNING t (if decide (t = 0) then c else dequeue c) in
  c2 <| c_current := <[Z.to_nat cpu := t]> (c_current c2) |>.

Lemma kpre_set_current c q l :
  kpre c q → length l = length (c_current c) → kpre (c <| c_current := l |>) q.
Proof.
  intros [Hq Ht] Hl. constructor.
  - destruct Hq as [[]]. constructor; try done. constructor; try done. rsimpl. by rw Hl.
  - intros t. destruct (Ht t). by constructor.
Qed.

Lemma ccur_take_cpu c cpu t i :
  c_sizes c → 0 ≤ cpu < CONFIG_MAX_CPUS →
  ccur (take_cpu cpu t c) i = if decide (i = cpu) then t else ccur c i.
Proof.
  intros Hs Hc. unfold ccur, take_cpu. cbn.
  change (c_current (set_state ?v t ?c)) with (c_current c).
  assert (c_current (if decide (t = 0) then c else dequeue c) = c_current c) as -> by by case_decide.
  rw arr_get_insert; [rw (cs_cpus c Hs); exact Hc|]. by case_decide.
Qed.

Lemma st_take_cpu c cpu t u :
  c_sizes c → tid_ok t →
  st (take_cpu cpu t c) u = if decide (u = t) then THREAD_RUNNING else st c u.
Proof.
  intros Hs Ht. unfold take_cpu. change (st (?c2 <| c_current := ?l |>) u) with (st c2 u).
  cbn zeta. destruct (decide (t = 0)); [by apply st_set_state|].
  rw st_set_state //. by destruct Hs.
Qed.

Lemma steady_take_cpu {A} (f : thread_t → A) c cpu t u :
  steady f → c_sizes c → tid_ok t → f (cthr (take_cpu cpu t c) u) = f (cthr c u).
Proof.
  intros Hf Hs Ht. unfold take_cpu. change (cthr (?c2 <| c_current := ?l |>) u) with (cthr c2 u).
  cbn zeta. destruct (decide (t = 0)); [by apply steady_set_state|]. rw steady_set_state //. by destruct Hs.
Qed.

Lemma so_take_cpu c cpu t u :
  c_sizes c → tid_ok t → so (take_cpu cpu t c) u = so c u.
Proof. by apply steady_take_cpu. Qed.

Lemma take_cpu_ok c q cpu :
  kpre c q → currents_ok c cpu → 0 ≤ cpu < CONFIG_MAX_CPUS →
  kinv (take_cpu cpu (default 0 (head (q_ready q))) c) (set_ready (tail (q_ready q)) q).
Proof.
  intros Hk Hcu Hcpu. set (t := default 0 (head (q_ready q))).
  pose proof (kp_queues _ _ Hk) as Hq. pose proof (qo_sizes _ _ Hq) as Hs.
  assert (tid_ok t ∧ (st c t ≠ THREAD_RUNNING ∧ st c t ≠ THREAD_DYING ∨ t = 0)) as [Ht Hst].
  { subst t. destruct (q_ready q) as [|t rest] eqn:Hr; simpl; [split; [done|by right]|].
    assert (t ∈ q_ready q) as Hin by (rw Hr; by left).
    split; [by apply qtid_ok, (ready_qtid c q)|]. left.
    destruct (tk_ready _ _ _ (kp_thread _ _ Hk t) Hin). split; congruence. }
  constructor.
  - apply kpre_set_current; [|apply length_insert]. subst t.
    destruct (q_ready q) as [|t rest] eqn:Hr; simpl.
    + rw -Hr set_ready_id. apply kpre_set_state; try done; [by right| |by right].
      by apply (idle_so c q).
    + assert (qtid t) by (eapply ready_qtid; [exact Hq|rw Hr; by left]).
      rw decide_False; [unfold qtid in *; lia|]. by apply kpre_dispatch.
  - apply (currents_enter c _ cpu t); try done.
    + intros i. by apply ccur_take_cpu.
    + intros u Hu. rw st_take_cpu // decide_False //.
    + rw st_take_cpu // decide_True //.
Qed.

Lemma rand_range seed range :
  0 < range → 0 ≤ Z.shiftr (u32 seed * range) 32 < range.
Proof.
  intros Hr. pose proof (u32_range seed). rw Z.shiftr_div_pow2 //.
  split; [apply Z.div_pos; [nia|done]|]. apply Z.div_lt_upper_bound; [done|nia].
Qed.

Lemma timer_set_ticks_run s n :
  cpu_ok s → timer_set_ticks n s = Done tt (s <| k_timer := n |>).
Proof.
  intros [_ Hr]. unfold timer_set_ticks. erewrite bind_Done; [|reflexivity].
  rw bind_modify. erewrite bind_Done; [|reflexivity]. cbn. fold (disabled (k_status s)).
  by rw restore_disabled.
Qed.

(** The part of scheduler_schedule that deals with the thread that leaves. *)
Lemma put_back_run s q cur :
  kinv (core_of s) q → tid_ok cur →
  (st (core_of s) cur = THREAD_RUNNING ∨ st (core_of s) cur = THREAD_DYING ∨ cur = 0) →
  (if decide (st (core_of s) cur = THREAD_DYING) then
     upd_thread cur (λ e, e <| t_state := THREAD_FREE |>)
   else if decide (so (core_of s) cur ≠ 0) then
     upd_thread cur (λ e, e <| t_state := THREAD_SLEEPING |>)
   else
     (if decide (cur ≠ IDLE_THREAD_TID) then scheduler_add_to_ready_list cur else mret tt);;
     upd_thread cur (λ e, e <| t_state := THREAD_READY |>)) s =
  Done tt (put_core (put_back cur (core_of s)) s).
Proof.
  intros Hinv Ht Hst. pose proof (ki_pre _ _ Hinv) as Hk.
  pose proof (kp_queues _ _ Hk) as Hq. pose proof (qo_sizes _ _ Hq) as Hs.
  unfold put_back, IDLE_THREAD_TID. case_decide as H1; [by rw upd_thread_run|].
  case_decide as H2; [by rw upd_thread_run|]. case_decide as H3.
  - erewrite bind_Done; [|apply (scheduler_add_to_ready_list_run s q); [done|unfold qtid, tid_ok in *; lia]].
    rw upd_thread_run; [rw core_of_put; by apply c_sizes_enqueue|done|]. by rw core_of_put.
  - by rw bind_ret upd_thread_run.
Qed.

Lemma scheduler_schedule_run s q :
  kinv (core_of s) q → cpu_ok s → thread_table_slock s = 0 →
  let cpu := this_cpu s in
  let cur := current s in
  let cand := candidates (core_of s) q cur in
  ∃ seed ticks, 375 ≤ ticks < 1125 ∧
    scheduler_schedule s =
      Done tt (put_core (take_cpu cpu (default 0 (head cand)) (put_back cur (core_of s))) s
               <| rand5_seed := seed |> <| k_timer := ticks |>).
Proof.
  intros Hinv Hcpu Hlk cpu cur cand. pose proof (ki_pre _ _ Hinv) as Hk.
  pose proof (kp_queues _ _ Hk) as Hq. pose proof (qo_sizes _ _ Hq) as Hs.
  destruct (put_back_ok _ _ cpu Hinv (co_cpu s Hcpu)) as [Hk1 Hcu1].
  fold (current s) in Hk1, Hcu1. fold cur in Hk1, Hcu1. fold cand in Hk1.
  pose proof (cu_tid _ _ (ki_current _ _ Hinv) cpu (co_cpu s Hcpu)) as Htid.
  pose proof (cu_state _ _ (ki_current _ _ Hinv) cpu (co_cpu s Hcpu)
    ltac:(pose proof (co_cpu s Hcpu); lia)) as Hst.
  change (ccur (core_of s) cpu) with cur in *.
  pose proof (take_cpu_ok _ _ cpu Hk1 Hcu1 (co_cpu s Hcpu)) as Hnext. cbn [q_ready set_ready] in Hnext.
  set (t := default 0 (head cand)) in *. set (c1 := put_back cur (core_of s)) in *.
  pose proof (qo_sizes _ _ (kp_queues _ _ Hk1)) as Hs1.
  exists (u32 (u32 (rand5_seed s * 314159557) + 23550511)).
  exists (Z.shiftr (u32 (u32 (rand5_seed s * 314159557) + 23550511) * 750) 32 + 375).
  split; [pose proof (rand_range (u32 (rand5_seed s * 314159557) + 23550511) 750); lia|].
  unfold scheduler_schedule, _interrupt_getcpu. rw bind_gets bind_acquire //.
  set (s1 := lset _ 1 s). assert (core_of s1 = core_of s) as Hc1 by done.
  erewrite bind_Done; [|apply get_current_run; [done|apply Hcpu]].
  erewrite bind_Done; [|apply get_thread_run; done].
  change (ccur (core_of s1) (this_cpu s)) with cur.
  erewrite bind_Done; [|apply (put_back_run s1 q cur); [done|done|]];
    [|destruct (decide (cur = 0)); tauto].
  fold c1. set (c2 := if decide (t = 0) then c1 else dequeue c1).
  assert (scheduler_remove_first_ready (put_core c1 s1) = Done t (put_core c2 s1)) as Hrem.
  { rw (scheduler_remove_first_ready_run _ (set_ready cand q)); [rw core_of_put; exact Hk1|].
    cbn [q_ready set_ready]. subst c2 t. destruct cand as [|t rest] eqn:Hcand; [done|]. simpl.
    rw decide_False //. intros ->. assert (qtid 0) as H0.
    { apply (ready_qtid _ _ _ (kp_queues _ _ Hk1)). fold cand. rw Hcand. by left. }
    unfold qtid in H0. lia. }
  erewrite bind_Done; [|exact Hrem].
  assert (c_sizes c2) as Hs2 by (subst c2; case_decide; [done|by destruct Hs1]).
  assert (tid_ok t) as Ht.
  { pose proof (cu_tid _ _ (ki_current _ _ Hnext) cpu (co_cpu s Hcpu)) as H1.
    rw ccur_take_cpu // in H1; [apply Hcpu|]. by rw decide_True in H1. }
  erewrite bind_Done; [|apply upd_thread_run; [by rw core_of_put|done]].
  rw core_of_put bind_release.
  erewrite bind_Done with (a := tt); [|unfold set_current; rw arr_set_Some; [|reflexivity]].
  2: { cbn. change (c_current (setthr ?t ?e c2)) with (c_current c2).
       rw (cs_cpus _ Hs2). apply Hcpu. }
  erewrite bind_Done; [|reflexivity]. rw timer_set_ticks_run; [by destruct Hcpu|].
  cbn. f_equal. unfold put_core, take_cpu. fold c2. destruct s. simpl in Hlk. subst. reflexivity.
Qed.

Lemma scheduler_schedule_spec s q :
  kinv (core_of s) q → cpu_ok s → thread_table_slock s = 0 →
  let c := core_of s in
  let cur := current s in
  let cand := q_ready q ++ (if decide (runnable c cur) then [cur] else []) in
  let t := default 0 (head cand) in
  ∃ s', scheduler_schedule s = Done tt s' ∧
    let c' := core_of s' in
    kinv c' (set_ready (tail cand) q) ∧ cpu_ok s' ∧ thread_table_slock s' = 0 ∧
    375 ≤ k_timer s' < 1125 ∧
    (∀ i, ccur c' i = if decide (i = this_cpu s) then t else ccur c i) ∧
    (∀ u, so c' u = so c u) ∧
    (∀ u, st c' u =
      if decide (u = t) then THREAD_RUNNING
      else if decide (u = cur) then
        if decide (st c cur = THREAD_DYING) then THREAD_FREE
        else if decide (so c cur ≠ 0) then THREAD_SLEEPING else THREAD_READY
      else st c u) ∧
    ∀ A (f : thread_t → A), steady f → ∀ u, f (cthr c' u) = f (cthr c u).
Proof.
  intros Hinv Hcpu Hlk c cur cand t.
  destruct (scheduler_schedule_run s q Hinv Hcpu Hlk) as (seed & ticks & Hticks & Hrun).
  fold c cur in Hrun. change (candidates c q cur) with cand in Hrun. fold t in Hrun.
  eexists. split; [exact Hrun|]. cbn zeta.
  change (core_of (put_core ?c0 s <| rand5_seed := seed |> <| k_timer := ticks |>))
    with (core_of (put_core c0 s)). rw core_of_put.
  pose proof (ki_pre _ _ Hinv) as Hk.
  pose proof (cu_tid _ _ (ki_current _ _ Hinv) _ (co_cpu s Hcpu)) as Htid.
  destruct (put_back_ok c q (this_cpu s) Hinv (co_cpu s Hcpu)) as [Hk1 Hcu1].
  change (ccur c (this_cpu s)) with cur in *. change (candidates c q cur) with cand in *.
  pose proof (take_cpu_ok _ _ _ Hk1 Hcu1 (co_cpu s Hcpu)) as Hk2.
  change (q_ready (set_ready cand q)) with cand in Hk2. fold t in Hk2.
  pose proof (qo_sizes _ _ (kp_queues _ _ Hk1)) as Hs1.
  assert (∀ i, ccur (take_cpu (this_cpu s) t (put_back cur c)) i =
    if decide (i = this_cpu s) then t else ccur c i) as Hcur.
  { intros i. rw ccur_take_cpu //; [apply Hcpu|]. case_decide; [done|].
    unfold ccur. by rw current_put_back. }
  assert (tid_ok t) as Ht.
  { pose proof (cu_tid _ _ (ki_current _ _ Hk2) _ (co_cpu s Hcpu)) as H1.
    rw Hcur in H1. by rw decide_True in H1. }
  split_and!; try done; try apply Hticks; try (by destruct Hcpu).
  - intros u. rw so_take_cpu //. by apply (so_put_back c q).
  - intros u. rw st_take_cpu //. case_decide; [done|]. by apply (st_put_back c q).
  - intros A f Hf u. rw steady_take_cpu //. by apply (steady_put_back f c q).
Qed.

(** C16 (functional): scheduler_schedule is round robin. From a consistent
    kernel state it always completes; the thread that was running goes to the
    end of the ready queue, unless it is dying (its table entry becomes free),
    waits for a resource (it becomes sleeping) or is the idle thread; the first
    thread of the ready queue is removed from it and runs next, the idle thread
    when the queue is empty. No other thread, no sleep queue and no other CPU
    is affected, the timer is set to between 375 and 1124 ticks, the lock is
    free again and the kernel state is consistent. *)
Theorem scheduler_schedule_round_robin s q :
  kinv (core_of s) q → cpu_ok s → thread_table_slock s = 0 →
  let c := core_of s in
  let cur := current s in
  let cand := q_ready q ++ (if decide (runnable c cur) then [cur] else []) in
  let t := default 0 (head cand) in
  ∃ s', scheduler_schedule s = Done tt s' ∧
    let c' := core_of s' in
    kinv c' (set_ready (tail cand) q) ∧ cpu_ok s' ∧ thread_table_slock s' = 0 ∧
    375 ≤ k_timer s' < 1125 ∧
    (∀ i, ccur c' i = if decide (i = this_cpu s) then t else ccur c i) ∧
    (∀ u, so c' u = so c u) ∧
    (∀ u, st c' u =
      if decide (u = t) then THREAD_RUNNING
      else if decide (u = cur) then
        if decide (st c cur = THREAD_DYING) then THREAD_FREE
        else if decide (so c cur ≠ 0) then THREAD_SLEEPING else THREAD_READY
      else st c u).
Proof.
  intros H1 H2 H3 c cur cand t. destruct (scheduler_schedule_spec s q H1 H2 H3) as (s' & Hrun & J1 & J2 & J3 & J4 & J5 & J6 & J7 & _).
  by exists s'.
Qed.

(** ** scheduler_add_ready *)

Lemma scheduler_add_ready_run s q t :
  kinv (core_of s) q → cpu_ok s → thread_table_slock s = 0 → qtid t →
  scheduler_add_ready t s =
    Done tt (put_core (set_state THREAD_READY t (enqueue t (core_of s))) s).
Proof.
  intros Hinv Hcpu Hlk Ht. pose proof (kp_queues _ _ (ki_pre _ _ Hinv)) as Hq.
  unfold scheduler_add_ready. erewrite bind_Done; [|reflexivity]. rw bind_acquire //.
  set (s1 := lset _ 1 _). assert (core_of s1 = core_of s) as Hc1 by done.
  erewrite bind_Done; [|apply (scheduler_add_to_ready_list_run s1 q); done].
  erewrite bind_Done; [|apply upd_thread_run; [|by apply qtid_ok]].
  2: { rw core_of_put. apply c_sizes_enqueue, Hq. }
  rw bind_release core_of_put Hc1. erewrite bind_Done; [|reflexivity]. cbn.
  fold (disabled (k_status s)). rw restore_disabled; [apply Hcpu|].
  unfold mret, M_ret. f_equal. destruct s. simpl in Hlk. subst. reflexivity.
Qed.

Lemma scheduler_schedule_round_robin_witness :
  let s := put_core (set_state THREAD_READY 1 (enqueue 1 (core_of example_state))) example_state in
  ∃ s', scheduler_schedule s = Done tt s' ∧ ccur (core_of s') 0 = 1 ∧
    st (core_of s') 1 = THREAD_RUNNING.
Proof.
  intros s. assert (qtid 1) as H1 by (unfold qtid, CONFIG_MAX_THREADS; lia).
  pose proof (kinv_ready_new _ _ 1 example_state_inv H1 eq_refl eq_refl) as Hinv.
  destruct (scheduler_schedule_round_robin s _ Hinv (cpu_ok_put _ _ example_state_cpu) eq_refl)
    as (s' & Hrun & _ & _ & _ & _ & Hcur & _ & Hst).
  exists s'. split; [exact Hrun|]. split.
  - rewrite Hcur. reflexivity.
  - rewrite Hst. reflexivity.
Defined.

End Scheduler.
