(* ===== verification/Sleepq.v ===== *)
(** * The sleep queue (kernel/sleepq.c)

    A hash table of linked lists of threads, keyed by the address of the
    resource they wait for.  Seen from outside it is one first-come first-served
    list of waiters per resource ([Kinv.waiters]).  The list walks are unrolled
    [CONFIG_MAX_THREADS] times, more than a bucket can hold threads. *)
From S2P Require Import Prelude Cpu Kstate Queues Kinv Scheduler.
Import Scheduler.

Module Sleepq.

Definition load_bucket (h : Z) : K Z := fun s => oread (arr_get (sleepq_hashtable s) h) s.
Definition store_bucket (h hd : Z) : K unit := fun s =>
  match arr_set (sleepq_hashtable s) h hd with
  | Some l => Done tt (s <| sleepq_hashtable := l |>)
  | None => Fault
  end.

Definition sleepq_init : K unit :=
  for_loop (Z.to_nat SLEEPQ_HASHTABLE_SIZE) 0 (λ i, store_bucket i (-1));;
  spinlock_reset #sleepq_slock.

Definition walk_fuel : nat := Z.to_nat CONFIG_MAX_THREADS.
Arguments walk_fuel : simpl never.

(** The loop of sleepq_add: the last thread of the chain that starts at [prev]. *)
Fixpoint chain_end (fuel : nat) (prev : Z) : K Z :=
  match fuel with
  | O => spin
  | S fuel' =>
    e ← get_thread prev;
    if decide (0 < t_next e) then chain_end fuel' (t_next e) else mret prev
  end.

Definition sleepq_add (resource : Z) : K unit :=
  intr_state ← _interrupt_get_state #k_status;
  kernel_assert (interrupts_off intr_state);;
  let hash := SLEEPQ_HASH resource in
  my_tid ← thread_get_current_thread;
  upd_thread my_tid (λ e, e <| t_next := -1 |>);;
  upd_thread my_tid (λ e, e <| t_sleeps_on := u32 resource |>);;
  kernel_assert (bool_decide (my_tid ≠ IDLE_THREAD_TID));;
  spinlock_acquire #sleepq_slock;;
  hd ← load_bucket hash;
  (if decide (hd ≤ 0) then store_bucket hash my_tid
   else
     prev ← chain_end walk_fuel hd;
     upd_thread prev (λ e, e <| t_next := my_tid |>));;
  spinlock_release #sleepq_slock.

(** The search loop of sleepq_wake and sleepq_wake_all, from [first] on: the
    pair ([prev], [first]) with which it ends. *)
Fixpoint find_sleeper (fuel : nat) (resource prev first : Z) : K (Z * Z) :=
  match fuel with
  | O => spin
  | S fuel' =>
    if decide (0 < first) then
      e ← get_thread first;
      if decide (t_sleeps_on e ≠ u32 resource) then find_sleeper fuel' resource first (t_next e)
      else mret (prev, first)
    else mret (prev, first)
  end.

(** Remove [first] from the sleep queue; the thread behind it. *)
Definition unlink (hash prev first : Z) : K Z :=
  e ← get_thread first;
  (if decide (prev ≤ 0) then store_bucket hash (t_next e)
   else upd_thread prev (λ p, p <| t_next := t_next e |>));;
  mret (t_next e).

(** Clear the [sleeps_on] field and add the thread to the ready list if it is
    already asleep. *)
Definition wake_thread (t : Z) : K unit :=
  spinlock_acquire #thread_table_slock;;
  upd_thread t (λ e, e <| t_sleeps_on := 0 |>);;
  upd_thread t (λ e, e <| t_next := -1 |>);;
  e ← get_thread t;
  (if decide (t_state e = THREAD_SLEEPING) then
     upd_thread t (λ e, e <| t_state := THREAD_READY |>);;
     scheduler_add_to_ready_list t
   else mret tt);;
  spinlock_release #thread_table_slock.

Definition sleepq_wake (resource : Z) : K unit :=
  let hash := SLEEPQ_HASH resource in
  intr_state ← _interrupt_disable #k_status;
  spinlock_acquire #sleepq_slock;;
  head ← load_bucket hash;
  '(prev, first) ← find_sleeper walk_fuel resource (-1) head;
  (if decide (0 < first) then
     unlink hash prev first;;
     wake_thread first
   else mret tt);;
  spinlock_release #sleepq_slock;;
  _interrupt_set_state #k_status intr_state;;
  mret tt.

(** The outer loop of sleepq_wake_all. *)
Fixpoint wake_all_loop (fuel : nat) (resource prev first : Z) : K unit :=
  match fuel with
  | O => spin
  | S fuel' =>
    if decide (0 < first) then
      '(prev, first) ← find_sleeper walk_fuel resource prev first;
      if decide (0 < first) then
        next ← unlink (SLEEPQ_HASH resource) prev first;
        wake_thread first;;
        wake_all_loop fuel' resource prev next
      else wake_all_loop fuel' resource prev first
    else mret tt
  end.

Definition sleepq_wake_all (resource : Z) : K unit :=
  let hash := SLEEPQ_HASH resource in
  intr_state ← _interrupt_disable #k_status;
  spinlock_acquire #sleepq_slock;;
  head ← load_bucket hash;
  wake_all_loop walk_fuel resource (-1) head;;
  spinlock_release #sleepq_slock;;
  _interrupt_set_state #k_status intr_state;;
  mret tt.

(** ** Walking a bucket *)

Lemma chain_end_run s l x hd fuel :
  c_sizes (core_of s) → seg (c_next (core_of s)) hd (l ++ [x]) (-1) → Forall qtid (l ++ [x]) →
  (length (l ++ [x]) ≤ fuel)%nat → chain_end fuel hd s = Done x s.
Proof.
  intros Hs. revert fuel hd. induction l as [|y l IH]; intros fuel hd Hseg Hf Hlen;
    (destruct fuel as [|fuel]; [simpl in Hlen; lia|]); simpl in *; inversion Hf; subst;
    destruct Hseg as [-> Hseg].
  - erewrite bind_Done; [|apply get_thread_run; [done|by apply qtid_ok]].
    change (t_next (cthr (core_of s) x)) with (c_next (core_of s) x). by rw Hseg.
  - erewrite bind_Done; [|apply get_thread_run; [done|by apply qtid_ok]].
    change (t_next (cthr (core_of s) y)) with (c_next (core_of s) y).
    assert (qtid (c_next (core_of s) y)) as Hq.
    { rw (seg_head _ _ _ _ Hseg). destruct l; simpl in *; by inversion H2. }
    rw decide_True; [unfold qtid in Hq; lia|]. apply IH; [done|done|lia].
Qed.

(** The search stops at the first thread that waits for the resource. *)
Lemma find_sleeper_run s res prev first l1 l2 fuel :
  c_sizes (core_of s) → seg (c_next (core_of s)) first (l1 ++ l2) (-1) → Forall qtid (l1 ++ l2) →
  Forall (λ u, so (core_of s) u ≠ u32 res) l1 →
  (∀ t, head l2 = Some t → so (core_of s) t = u32 res) → (length l1 < fuel)%nat →
  find_sleeper fuel res prev first s = Done (default prev (last l1), default (-1) (head l2)) s.
Proof.
  intros Hs. revert fuel prev first. induction l1 as [|y l1 IH]; intros fuel prev first Hseg Hf Hne Ht Hlen;
    (destruct fuel as [|fuel]; [simpl in Hlen; lia|]); simpl in *.
  - destruct l2 as [|t l2]; simpl in *; [by subst|]. destruct Hseg as [-> Hseg].
    inversion Hf; subst. rw decide_True; [unfold qtid in *; lia|].
    erewrite bind_Done; [|apply get_thread_run; [done|by apply qtid_ok]].
    rw decide_False; [rw Ht //; tauto|]. done.
  - destruct Hseg as [-> Hseg]. inversion Hf; subst. inversion Hne; subst.
    rw decide_True; [unfold qtid in *; lia|].
    erewrite bind_Done; [|apply get_thread_run; [done|by apply qtid_ok]].
    rw decide_True //. rw (IH fuel y) //; [lia|]. f_equal. f_equal.
    destruct l1 as [|z l1 _] using rev_ind; [done|]. by rw app_comm_cons !last_snoc.
Qed.

Lemma load_bucket_run s h hd :
  arr_get (c_buckets (core_of s)) h = Some hd → load_bucket h s = Done hd s.
Proof. intros H. unfold load_bucket. by rw (H : arr_get (sleepq_hashtable s) h = _). Qed.

Lemma store_bucket_run s h hd :
  c_sizes (core_of s) → bucket_ok h →
  store_bucket h hd s = Done tt (put_core (set_bucket h hd (core_of s)) s).
Proof.
  intros Hs Hh. unfold store_bucket. rw arr_set_Some; [|by destruct s].
  rw (cs_buckets _ Hs : Z.of_nat (length (sleepq_hashtable s)) = _). exact Hh.
Qed.

(** ** Unlinking and waking one thread *)

Lemma unlink_run s q h l1 t l2 :
  queues_ok (core_of s) q → bucket_ok h → q_sleep q h = l1 ++ t :: l2 →
  unlink h (default (-1) (last l1)) t s =
    Done (default (-1) (head l2)) (put_core (bucket_remove h t l1 (core_of s)) s).
Proof.
  intros Hq Hh Hl. pose proof (qo_sizes _ _ Hq) as Hs.
  pose proof (qo_sleep_tid _ _ Hq h) as Hf. rw Hl in Hf.
  apply Forall_app in Hf as [Hf1 Hf2]. inversion Hf2; subst.
  destruct (qo_bucket _ _ Hq h Hh) as (hd & Hhd & Hseg). rw Hl in Hseg.
  apply seg_app in Hseg as (m & _ & -> & Hseg).
  unfold unlink. erewrite bind_Done; [|apply get_thread_run; [done|by apply qtid_ok]].
  change (t_next (cthr (core_of s) t)) with (c_next (core_of s) t).
  rw (seg_head _ _ _ _ Hseg). unfold bucket_remove. destruct (last l1) as [x|] eqn:Hx; simpl.
  - assert (qtid x) as Hqx.
    { apply (proj1 (Forall_forall _ _) Hf1). by apply last_Some_elem_of. }
    rw decide_False; [unfold qtid in Hqx; lia|].
    erewrite bind_Done; [|apply upd_thread_run; [done|by apply qtid_ok]].
    by rw (seg_head _ _ _ _ Hseg).
  - erewrite bind_Done; [|by apply store_bucket_run].
    by rw (seg_head _ _ _ _ Hseg).
Qed.

Definition wake_core (t : Z) (c : core) : core :=
  let c1 := setthr t ((cthr c t) <| t_sleeps_on := 0 |> <| t_next := -1 |>) c in
  if decide (st c t = THREAD_SLEEPING) then enqueue t (set_state THREAD_READY t c1) else c1.

Lemma wake_thread_run s q t :
  queues_ok (core_of s) q → qtid t → ¬ in_queue q t → thread_table_slock s = 0 →
  wake_thread t s = Done tt (put_core (wake_core t (core_of s)) s).
Proof.
  intros Hq Ht Hin Hlk. pose proof (qo_sizes _ _ Hq) as Hs. pose proof (qtid_ok t Ht) as Ht'.
  unfold wake_thread. rw bind_acquire //. set (s1 := lset _ 1 s).
  assert (core_of s1 = core_of s) as Hc by done.
  erewrite bind_Done; [|by apply upd_thread_run]. rw Hc.
  erewrite bind_Done; [|apply upd_thread_run; [rw core_of_put; by apply c_sizes_setthr|done]].
  rw core_of_put cthr_setthr // decide_True // setthr_setthr.
  set (e := update t_next _ _). set (c1 := setthr t e (core_of s)).
  assert (c_sizes c1) as Hs1 by by apply c_sizes_setthr.
  assert (cthr c1 t = e) as He by (unfold c1; rw cthr_setthr //; by rw decide_True).
  erewrite bind_Done; [|apply get_thread_run; [by rw core_of_put|done]]. rw core_of_put He.
  unfold wake_core. change (update t_next _ (update t_sleeps_on _ (cthr (core_of s) t))) with e.
  fold c1. change (t_state e) with (st (core_of s) t). case_decide as Hst.
  - rw bind_bind. erewrite bind_Done; [|apply upd_thread_run; [by rw core_of_put|done]].
    rw core_of_put. change (setthr t ((cthr c1 t) <| t_state := THREAD_READY |>) c1)
      with (set_state THREAD_READY t c1).
    erewrite bind_Done; [|apply (scheduler_add_to_ready_list_run _ q); [rw core_of_put|done]].
    + rw core_of_put. unfold spinlock_release, modify. f_equal.
      destruct s. simpl in Hlk. subst. reflexivity.
    + apply set_state_queues; [|done]. apply queues_ok_setthr; [done..|]. by right.
  - rw bind_ret. unfold spinlock_release, modify. f_equal.
    destruct s. simpl in Hlk. subst. reflexivity.
Qed.
(** ** The effect on the queues *)

(** The queues after thread [t], found between [l1] and [l2], is woken. *)
Definition woken_queues (c : core) (q : queues) (h t : Z) (l1 l2 : list Z) : queues :=
  set_ready (if decide (st c t = THREAD_SLEEPING) then q_ready q ++ [t] else q_ready q)
    (set_sleep h (l1 ++ l2) q).

(** The core after that. *)
Definition woken_core (c : core) (h t : Z) (l1 : list Z) : core :=
  wake_core t (bucket_remove h t l1 c).

Section wake_step.
Context (c : core) (q : queues) (h t : Z) (l1 l2 : list Z).
Context (Hk : kpre c q) (Hh : bucket_ok h) (Hl : q_sleep q h = l1 ++ t :: l2).

Lemma wake_step_tid : qtid t.
Proof. apply (sleep_qtid c q h); [apply Hk|]. rw Hl. set_solver. Qed.

Lemma wake_step_not_queued : ¬ in_queue (set_sleep h (l1 ++ l2) q) t.
Proof.
  pose proof (qo_sleep_nodup _ _ (kp_queues _ _ Hk) h) as Hnd. rw Hl in Hnd.
  apply NoDup_app in Hnd as (Hn1 & Hd & [Hn2 _]%NoDup_cons).
  assert (t ∈ q_sleep q h) as Hin by (rw Hl; set_solver). intros [Hr|[h' Hs]].
  - by apply (qo_disj _ _ (kp_queues _ _ Hk) t h).
  - simpl in Hs. case_decide as Hd'.
    + apply elem_of_app in Hs as [Hs|Hs]; [|done]. apply (Hd t Hs). by left.
    + by apply Hd', (qo_buckets_disj _ _ (kp_queues _ _ Hk) t).
Qed.

Lemma so_woken u : so (woken_core c h t l1) u = if decide (u = t) then 0 else so c u.
Proof.
  pose proof (bucket_remove_ok c q h t l1 l2 (kp_queues _ _ Hk) Hh Hl) as Hq1.
  pose proof (qo_sizes _ _ Hq1) as Hs1. pose proof (qtid_ok t wake_step_tid) as Ht.
  assert (so (bucket_remove h t l1 c) u = so c u) as Hr
    by (by rw (cthr_bucket_remove c q h t l1 l2 _ (kp_queues _ _ Hk) Hl)).
  unfold woken_core, wake_core. case_decide as Hst.
  - rw (cthr_enqueue _ (set_sleep h (l1 ++ l2) q)); [|apply wake_step_tid|].
    + apply set_state_queues; [|done]. apply queues_ok_setthr; [done..|].
      right. apply wake_step_not_queued.
    + change (t_sleeps_on (update t_next ?f ?e)) with (t_sleeps_on e).
      rw so_set_state //; [by apply c_sizes_setthr|]. rw cthr_setthr //. by case_decide.
  - rw cthr_setthr //. by case_decide.
Qed.

Lemma st_woken u :
  st (woken_core c h t l1) u =
    if decide (u = t ∧ st c t = THREAD_SLEEPING) then THREAD_READY else st c u.
Proof.
  pose proof (bucket_remove_ok c q h t l1 l2 (kp_queues _ _ Hk) Hh Hl) as Hq1.
  pose proof (qo_sizes _ _ Hq1) as Hs1. pose proof (qtid_ok t wake_step_tid) as Ht.
  assert (∀ u, st (bucket_remove h t l1 c) u = st c u) as Hr
    by (intros v; by rw (cthr_bucket_remove c q h t l1 l2 _ (kp_queues _ _ Hk) Hl)).
  unfold woken_core, wake_core. rw !Hr. case_decide as Hst.
  - rw (cthr_enqueue _ (set_sleep h (l1 ++ l2) q)); [|apply wake_step_tid|].
    + apply set_state_queues; [|done]. apply queues_ok_setthr; [done..|].
      right. apply wake_step_not_queued.
    + change (t_state (update t_next ?f ?e)) with (t_state e).
      rw st_set_state //; [by apply c_sizes_setthr|]. case_decide as Hu.
      * rw decide_True //.
      * rw decide_False; [tauto|]. rw cthr_setthr // decide_False // Hr //.
  - rw decide_False; [tauto|]. rw cthr_setthr //. case_decide; [subst; apply Hr|apply Hr].
Qed.

Lemma wake_step_queues : queues_ok (woken_core c h t l1) (woken_queues c q h t l1 l2).
Proof.
  pose proof (bucket_remove_ok c q h t l1 l2 (kp_queues _ _ Hk) Hh Hl) as Hq1.
  pose proof (qtid_ok t wake_step_tid) as Ht.
  assert (st (bucket_remove h t l1 c) t = st c t) as Hr
    by (by rw (cthr_bucket_remove c q h t l1 l2 _ (kp_queues _ _ Hk) Hl)).
  assert (queues_ok (setthr t ((cthr (bucket_remove h t l1 c) t) <| t_sleeps_on := 0 |> <| t_next := -1 |>)
    (bucket_remove h t l1 c)) (set_sleep h (l1 ++ l2) q)) as Hq2.
  { apply queues_ok_setthr; [done..|]. right. apply wake_step_not_queued. }
  unfold woken_core, wake_core, woken_queues. rw Hr. case_decide.
  - apply (enqueue_ok _ (set_sleep h (l1 ++ l2) q)); [by apply set_state_queues|apply wake_step_tid|].
    apply wake_step_not_queued.
  - change (q_ready q) with (q_ready (set_sleep h (l1 ++ l2) q)). by rw set_ready_id.
Qed.

Lemma wake_step_ok : kpre (woken_core c h t l1) (woken_queues c q h t l1 l2).
Proof.
  assert (t ∈ q_sleep q h) as Hin by (rw Hl; set_solver).
  destruct (kp_thread _ _ Hk t) as [tk1 tk2 tk3 tk4 tk5 tk6].
  destruct (tk3 h Hin) as (Hso & Hhash & Hst).
  apply (kpre_change c q _ _ t); [done|apply wake_step_queues| | |].
  - intros u Hu. rw so_woken st_woken decide_False; [tauto|]. by rw decide_False.
  - intros u Hu. simpl. split.
    + case_decide; [|done]. rw elem_of_app list_elem_of_singleton. tauto.
    + intros h'. case_decide; [subst|done]. rw Hl !elem_of_app elem_of_cons. tauto.
  - pose proof wake_step_not_queued as Hnq.
    assert (so (woken_core c h t l1) t = 0) as E1 by (rw so_woken; by rw decide_True).
    constructor; rw ?E1 ?st_woken /=; try done.
    + case_decide as Hs; [|intros Hr; destruct (tk1 Hr) as [_ ?]; congruence].
      intros _. split; [|done]. by rw decide_True.
    + intros _. case_decide as Hs; [|destruct Hst; congruence]. destruct Hs as [_ Hs].
      rw decide_True //. set_solver.
    + intros h' Hs. exfalso. apply Hnq. right. by exists h'.
    + case_decide; [done|]. intros. tauto.
Qed.

Lemma wake_step_currents : currents_ok c (-1) → currents_ok (woken_core c h t l1) (-1).
Proof.
  intros Hcu. apply (currents_change c); [done| |].
  - unfold woken_core, wake_core, bucket_remove, enqueue. by destruct (last l1); repeat case_decide.
  - intros u. rw st_woken. case_decide as Hd; [|done]. destruct Hd as [-> ->]. naive_solver.
Qed.

(** The resource waited for is the one of [t]; the first of its waiters goes. *)
Lemma waiters_woken r :
  r ≠ 0 →
  waiters (woken_core c h t l1) (woken_queues c q h t l1 l2) r =
    filter (λ u, u ≠ t) (waiters c q r).
Proof.
  intros Hr. unfold waiters. simpl.
  pose proof (qo_sleep_nodup _ _ (kp_queues _ _ Hk) h) as Hnd. rw Hl in Hnd.
  rw list_filter_filter. destruct (decide (SLEEPQ_HASH r = h)) as [Heq|Hne].
  - rw Heq Hl. apply NoDup_app in Hnd as (_ & Hd & [Hn2 _]%NoDup_cons).
    rw !filter_app filter_cons. rw (decide_False (P := _ ∧ so c t = r)); [tauto|].
    assert (t ∉ l1) as Hn1 by (intros Hx; apply (Hd t Hx); by left).
    f_equal; apply filter_ext_in; intros u Hu; rw so_woken; case_decide; subst; naive_solver.
  - apply filter_ext_in. intros u Hu. rw so_woken. case_decide as Hut; [|naive_solver].
    subst. split; [intros; congruence|tauto].
Qed.
End wake_step.

Lemma hash_u32 r : SLEEPQ_HASH (u32 r) = SLEEPQ_HASH r.
Proof. unfold SLEEPQ_HASH. by rw u32_u32. Qed.

(** Removing and waking the thread the search found. *)
Lemma unlink_wake_run s q h t l1 l2 :
  kpre (core_of s) q → bucket_ok h → q_sleep q h = l1 ++ t :: l2 → thread_table_slock s = 0 →
  unlink h (default (-1) (last l1)) t s =
    Done (default (-1) (head l2)) (put_core (bucket_remove h t l1 (core_of s)) s) ∧
  wake_thread t (put_core (bucket_remove h t l1 (core_of s)) s) =
    Done tt (put_core (woken_core (core_of s) h t l1) s).
Proof.
  intros Hk Hh Hl Hlk. split; [by apply (unlink_run s q); [apply Hk|..]|].
  rw (wake_thread_run _ (set_sleep h (l1 ++ l2) q)).
  - rw core_of_put. by apply bucket_remove_ok; [apply Hk|..].
  - by apply (wake_step_tid (core_of s) q h t l1 l2).
  - by apply (wake_step_not_queued (core_of s) q h t l1 l2).
  - done.
  - by rw core_of_put put_put.
Qed.

Lemma bucket_short q c h : queues_ok c q → (length (q_sleep q h) < walk_fuel)%nat.
Proof. intros Hq. apply queue_length; apply Hq. Qed.

Lemma load_bucket_queues s q h :
  queues_ok (core_of s) q → bucket_ok h → load_bucket h s = Done (default (-1) (head (q_sleep q h))) s.
Proof.
  intros Hq Hh. destruct (qo_bucket _ _ Hq h Hh) as (hd & Hhd & Hseg).
  by rw (load_bucket_run _ _ _ Hhd) (seg_head _ _ _ _ Hseg).
Qed.

(** The state inside the two wake routines: interrupts off, lock held. *)
Definition locked (s : kstate) : kstate :=
  s <| k_status := disabled (k_status s) |> <| sleepq_slock := 1 |>.

Lemma wake_begin s q res (f : Z → Z → K unit) :
  kpre (core_of s) q → sleepq_slock s = 0 →
  (intr_state ← _interrupt_disable #k_status;
   spinlock_acquire #sleepq_slock;;
   head ← load_bucket (SLEEPQ_HASH res);
   f intr_state head) s =
  f (k_status s) (default (-1) (head (q_sleep q (SLEEPQ_HASH res)))) (locked s).
Proof.
  intros Hk Hlk. erewrite bind_Done; [|reflexivity]. rw bind_acquire //.
  by erewrite bind_Done; [|apply (load_bucket_queues _ q); [apply Hk|apply hash_ok]].
Qed.

Lemma wake_end s c' :
  cpu_ok s → sleepq_slock s = 0 →
  (spinlock_release #sleepq_slock;;
   _interrupt_set_state #k_status (k_status s);;
   mret tt) (put_core c' (locked s)) = Done tt (put_core c' s).
Proof.
  intros Hcpu Hlk. rw bind_release. erewrite bind_Done; [|reflexivity]. cbn.
  rw restore_disabled; [apply Hcpu|]. unfold mret, M_ret. f_equal.
  destruct s. simpl in Hlk. subst. reflexivity.
Qed.

Lemma sleepq_wake_run s q res :
  kinv (core_of s) q → cpu_ok s → sleepq_slock s = 0 → thread_table_slock s = 0 →
  let c := core_of s in
  let h := SLEEPQ_HASH res in
  match waiters c q (u32 res) with
  | [] => sleepq_wake res s = Done tt s
  | t :: _ => ∃ l1 l2, q_sleep q h = l1 ++ t :: l2 ∧ so c t = u32 res ∧
      sleepq_wake res s = Done tt (put_core (woken_core c h t l1) s)
  end.
Proof.
  intros Hinv Hcpu Hlk Hlk' c h. pose proof (ki_pre _ _ Hinv) as Hk.
  pose proof (kp_queues _ _ Hk) as Hq. pose proof (waiters_split c q (u32 res)) as Hsplit.
  rw hash_u32 in Hsplit. fold h in Hsplit. pose proof (qo_sleep_tid _ _ Hq h) as Htid.
  pose proof (bucket_short q c h Hq) as Hshort. pose proof (qo_sizes _ _ Hq) as Hs.
  destruct (qo_bucket _ _ Hq h (hash_ok res)) as (hd & Hhd & Hseg).
  pose proof (seg_head _ _ _ _ Hseg) as ->.
  unfold sleepq_wake. rw (wake_begin s q) //. fold h.
  assert (core_of (locked s) = c) as Hc1 by done.
  destruct (waiters c q (u32 res)) as [|t ws].
  - erewrite bind_Done; [|apply (find_sleeper_run _ res _ _ (q_sleep q h) [] walk_fuel);
      rewrite ?app_nil_r; done]. cbn [head default id].
    case_decide; [lia|]. rw bind_ret -(put_core_of (locked s)) wake_end //. by destruct s.
  - destruct Hsplit as (l1 & l2 & Hl & Hne & Ht & _). exists l1, l2. split; [done|]. split; [done|].
    rw Hl in Htid Hshort Hseg |- *. rw length_app in Hshort.
    destruct (unlink_wake_run (locked s) q h t l1 l2 Hk (hash_ok res) Hl Hlk') as [Hu Hw].
    assert (qtid t) as Hqt by (apply Forall_app in Htid as [_ Htid]; by inversion Htid).
    erewrite bind_Done; [|apply (find_sleeper_run _ res _ _ l1 (t :: l2) walk_fuel); try done].
    + cbn [head default id]. case_decide; [|unfold qtid in Hqt; lia]. rw bind_bind.
      rw (bind_Done _ _ _ _ _ Hu) (bind_Done _ _ _ _ _ Hw). by apply wake_end.
    + by intros ? [= <-].
    + lia.
Qed.

Lemma split_first {A} (P : A → Prop) `{∀ x, Decision (P x)} (l : list A) :
  Forall (λ x, ¬ P x) l ∨ ∃ la t lb, l = la ++ t :: lb ∧ Forall (λ x, ¬ P x) la ∧ P t.
Proof.
  induction l as [|x l IH]; [by left; constructor|]. destruct (decide (P x)) as [Hx|Hx].
  - right. by exists [], x, l.
  - destruct IH as [?|(la & t & lb & -> & ? & ?)]; [left; by constructor|].
    right. exists (x :: la), t, lb. split_and!; [done|by constructor|done].
Qed.

Lemma filter_none {A} (P : A → Prop) `{∀ x, Decision (P x)} (l : list A) :
  Forall (λ x, ¬ P x) l → filter P l = [].
Proof. induction 1; [done|]. by rw filter_cons_False. Qed.

Lemma filter_all {A} (P : A → Prop) `{∀ x, Decision (P x)} (l : list A) :
  Forall P l → filter P l = l.
Proof. induction 1; [done|]. rw filter_cons_True //. by f_equal. Qed.

(** Nobody waits for [r] when the rest of the bucket is empty. *)
Lemma no_more_waiters c q r l u :
  kpre c q → r ≠ 0 → q_sleep q (SLEEPQ_HASH r) = l → Forall (λ v, so c v ≠ r) l → so c u ≠ r.
Proof.
  intros Hk Hr Hl Hf Hu. assert (u ∈ l) as Hin.
  { rw -Hl -Hu. apply (tk_slept _ _ _ (kp_thread _ _ Hk u)). congruence. }
  by apply (proj1 (Forall_forall _ _) Hf u).
Qed.

(** The state the loop of sleepq_wake_all reaches from [c], [q] when [l2] is
    the part of the bucket it has not passed yet. *)
Record woken_all (c : core) (q : queues) (r : Z) (l1 l2 : list Z) (c' : core) (q' : queues) : Prop := {
  wa_inv : kinv c' q';
  wa_sleep h : q_sleep q' h =
    if decide (h = SLEEPQ_HASH r) then l1 ++ filter (λ u, so c u ≠ r) l2 else q_sleep q h;
  wa_ready : q_ready q' = q_ready q ++ filter (λ u, so c u = r ∧ st c u = THREAD_SLEEPING) l2;
  wa_so u : so c' u = if decide (so c u = r) then 0 else so c u;
  wa_st u : st c' u = if decide (so c u = r ∧ st c u = THREAD_SLEEPING) then THREAD_READY else st c u;
  wa_sems : c_sems c' = c_sems c }.

Lemma woken_all_none c q r l1 l2 :
  kinv c q → r ≠ 0 → q_sleep q (SLEEPQ_HASH r) = l1 ++ l2 →
  Forall (λ u, so c u ≠ r) (l1 ++ l2) → woken_all c q r l1 l2 c q.
Proof.
  intros Hinv Hr Hl Hf.
  assert (∀ u, so c u ≠ r) as Hn
    by (intros u; apply (no_more_waiters c q r (l1 ++ l2)); [apply Hinv|done..]).
  apply Forall_app in Hf as [Hf1 Hf2]. constructor; [done|..].
  - intros h. case_decide; [subst|done]. by rw (filter_all _ l2).
  - rw filter_none; [|by rw app_nil_r]. apply (Forall_impl _ _ _ Hf2). naive_solver.
  - intros u. by rw decide_False.
  - intros u. rw decide_False //. naive_solver.
  - done.
Qed.

Lemma sems_woken c h t l : c_sems (woken_core c h t l) = c_sems c.
Proof.
  unfold woken_core, wake_core, bucket_remove, enqueue. by destruct (last l); repeat case_decide.
Qed.

Lemma woken_all_step c q r l1 la t lb c' q' :
  kinv c q → r ≠ 0 → q_sleep q (SLEEPQ_HASH r) = l1 ++ la ++ t :: lb →
  Forall (λ u, so c u ≠ r) la → so c t = r →
  woken_all (woken_core c (SLEEPQ_HASH r) t (l1 ++ la))
    (woken_queues c q (SLEEPQ_HASH r) t (l1 ++ la) lb) r (l1 ++ la) lb c' q' →
  woken_all c q r l1 (la ++ t :: lb) c' q'.
Proof.
  intros Hinv Hr Hl Hne Ht [W1 W2 W3 W4 W5 W6]. pose proof (ki_pre _ _ Hinv) as Hk.
  rw app_assoc in Hl. pose proof (so_woken c q _ t (l1 ++ la) lb Hk (hash_ok r) Hl) as Hso.
  pose proof (st_woken c q _ t (l1 ++ la) lb Hk (hash_ok r) Hl) as Hst.
  assert (t ∉ lb) as Hlb.
  { pose proof (qo_sleep_nodup _ _ (kp_queues _ _ Hk) (SLEEPQ_HASH r)) as Hnd. rw Hl in Hnd.
    by apply NoDup_app in Hnd as (_ & _ & [Hn2 _]%NoDup_cons). }
  constructor; [done|..].
  - intros h. rw W2. destruct (decide (h = SLEEPQ_HASH r)) as [->|Hh]; [|unfold woken_queues; simpl; by rw (decide_False (P := h = SLEEPQ_HASH r))].
    rw filter_app filter_cons decide_False; [tauto|]. rw (filter_all _ la) // -app_assoc.
    do 2 f_equal. apply filter_ext_in. intros u Hu. rw Hso. by destruct (decide (u = t)) as [->|].
  - rw W3. unfold woken_queues; simpl. rw filter_app filter_cons (filter_none _ la).
    { apply (Forall_impl _ _ _ Hne). naive_solver. }
    rw app_nil_l. assert (filter (λ u, so (woken_core c (SLEEPQ_HASH r) t (l1 ++ la)) u = r ∧
      st (woken_core c (SLEEPQ_HASH r) t (l1 ++ la)) u = THREAD_SLEEPING) lb =
      filter (λ u, so c u = r ∧ st c u = THREAD_SLEEPING) lb) as ->.
    { apply filter_ext_in. intros u Hu. rw Hso Hst. rw decide_False; [by intros ->|].
      rw decide_False //. intros [-> _]. done. }
    destruct (decide (st c t = THREAD_SLEEPING)) as [Hs|Hs].
    + rw decide_True //. by rw -app_assoc.
    + rw decide_False //. tauto.
  - intros u. rw W4 !Hso. repeat case_decide; subst; try done; congruence.
  - intros u. rw W5 !Hso !Hst. destruct (decide (u = t)) as [->|Hu].
    + rw (decide_False (P := _ ∧ _)); [intros [? _]; congruence|].
      destruct (decide (st c t = THREAD_SLEEPING)); [rw !decide_True //|rw !decide_False //; tauto].
    + rw (decide_False (P := u = t ∧ _)); [tauto|]. done.
  - rw W6. apply sems_woken.
Qed.

Lemma wake_all_loop_run res fuel s q l1 l2 :
  kinv (core_of s) q → u32 res ≠ 0 → thread_table_slock s = 0 →
  q_sleep q (SLEEPQ_HASH (u32 res)) = l1 ++ l2 →
  Forall (λ u, so (core_of s) u ≠ u32 res) l1 → (length l2 < fuel)%nat →
  ∃ c' q', wake_all_loop fuel res (default (-1) (last l1)) (default (-1) (head l2)) s =
      Done tt (put_core c' s) ∧ woken_all (core_of s) q (u32 res) l1 l2 c' q'.
Proof.
  intros Hinv Hr Hlk. revert s q l1 l2 Hinv Hlk.
  induction fuel as [|fuel IH]; intros s q l1 l2 Hinv Hlk Hl Hne Hlen; [lia|].
  pose proof (ki_pre _ _ Hinv) as Hk. pose proof (kp_queues _ _ Hk) as Hq.
  pose proof (qo_sizes _ _ Hq) as Hs. rw hash_u32 in Hl.
  pose proof (qo_sleep_tid _ _ Hq (SLEEPQ_HASH res)) as Htid. rw Hl in Htid.
  apply Forall_app in Htid as [Htid1 Htid2].
  pose proof (bucket_short q _ (SLEEPQ_HASH res) Hq) as Hshort. rw Hl length_app in Hshort.
  destruct l2 as [|x l2'] eqn:Hl2; cbn [wake_all_loop head default id].
  { exists (core_of s), q. split; [by rw put_core_of|]. apply woken_all_none; [done..|by rw hash_u32|].
    by rw app_nil_r. }
  assert (qtid x) as Hx by by inversion Htid2. rw -Hl2 in Hl Htid2 Hshort |- *.
  case_decide; [|unfold qtid in Hx; lia].
  destruct (qo_bucket _ _ Hq _ (hash_ok res)) as (hd & Hhd & Hseg). rw Hl in Hseg.
  apply seg_app in Hseg as (m & _ & Hseg). pose proof (seg_head _ _ _ _ Hseg) as Hm.
  rw {1}Hl2 /= in Hm. subst m.
  destruct (split_first (λ u, so (core_of s) u = u32 res) l2) as [Hf|(la & t & lb & Hl2' & Hf & Ht)].
  - erewrite bind_Done; [|apply (find_sleeper_run s res _ _ l2 [] walk_fuel); rewrite ?app_nil_r; done || lia].
    cbn [head default id]. case_decide; [lia|]. subst l2. simpl in Hlen.
    destruct fuel as [|fuel]; [lia|]. cbn [wake_all_loop]. destruct (decide (0 < -1)); [lia|]. exists (core_of s), q. split; [by rw put_core_of|].
    apply woken_all_none; [done..|by rw hash_u32|]. by apply Forall_app.
  - rw Hl2' in Hseg Htid2 Hl Hshort. rw length_app in Hshort.
    erewrite bind_Done; [|apply (find_sleeper_run s res _ _ la (t :: lb) walk_fuel); try done].
    2: { by intros ? [= <-]. }
    2: { lia. }
    cbn [head default id]. assert (qtid t) as Hqt by (apply Forall_app in Htid2 as [_ H2]; by inversion H2).
    case_decide; [|unfold qtid in Hqt; lia].
    assert (default (default (-1) (last l1)) (last la) = default (-1) (last (l1 ++ la))) as ->.
    { destruct la as [|z la' _] using rev_ind; [by rw app_nil_r|]. by rw app_assoc !last_snoc. }
    pose proof Hl as Hl'. rw app_assoc in Hl'.
    destruct (unlink_wake_run s q _ t (l1 ++ la) lb Hk (hash_ok res) Hl' Hlk) as [Hu Hw].
    rw (bind_Done _ _ _ _ _ Hu) (bind_Done _ _ _ _ _ Hw).
    pose proof (so_woken _ _ _ t (l1 ++ la) lb Hk (hash_ok res) Hl') as Hso.
    destruct (IH (put_core (woken_core (core_of s) (SLEEPQ_HASH res) t (l1 ++ la)) s)
      (woken_queues (core_of s) q (SLEEPQ_HASH res) t (l1 ++ la) lb) (l1 ++ la) lb)
      as (c' & q' & Hrun & Hwa).
    + rw core_of_put. constructor; [by apply wake_step_ok; [..|apply hash_ok|]|].
      apply (wake_step_currents _ q _ _ _ lb); [done|apply hash_ok|done|apply Hinv].
    + done.
    + rw hash_u32. simpl. by rw decide_True.
    + rw core_of_put. apply Forall_forall. intros u Hu'. rw Hso. destruct (decide (u = t)); [congruence|].
      apply elem_of_app in Hu' as [Hu'|Hu'].
      * by apply (proj1 (Forall_forall _ _) Hne).
      * by apply (proj1 (Forall_forall _ _) Hf).
    + assert (length l2 = length (la ++ t :: lb)) as Hll by by rw Hl2'.
      rw length_app /= in Hll. rw -Hl2 in Hlen. lia.
    + exists c', q'. rw Hrun. split; [done|]. rw core_of_put in Hwa. rw Hl2'.
      apply (woken_all_step _ _ _ _ la t lb); try done; rw hash_u32 //.
Qed.

(** ** sleepq_add *)

Definition added_core (c : core) (q : queues) (t r : Z) : core :=
  bucket_append (SLEEPQ_HASH r) t (q_sleep q (SLEEPQ_HASH r))
    (setthr t ((cthr c t) <| t_next := -1 |> <| t_sleeps_on := r |>) c).

Definition added_queues (q : queues) (t r : Z) : queues :=
  set_sleep (SLEEPQ_HASH r) (q_sleep q (SLEEPQ_HASH r) ++ [t]) q.

Section add_step.
Context (c : core) (q : queues) (t r : Z).
Context (Hk : kpre c q) (Ht : qtid t) (Hso : so c t = 0) (Hst : st c t = THREAD_RUNNING).

Lemma add_step_base :
  let c1 := setthr t ((cthr c t) <| t_next := -1 |> <| t_sleeps_on := r |>) c in
  queues_ok c1 q ∧ ¬ in_queue q t ∧ c_next c1 t = -1.
Proof.
  assert (¬ in_queue q t) as Hnq by (apply (kpre_not_queued c q); congruence).
  pose proof (kp_queues _ _ Hk) as Hq. split_and!; [|done|].
  - apply queues_ok_setthr; [done|by apply qtid_ok|by right].
  - unfold c_next. rw cthr_setthr; [apply Hq|by apply qtid_ok|]. by rw decide_True.
Qed.

Lemma cthr_added u :
  st (added_core c q t r) u = st c u ∧
  so (added_core c q t r) u = if decide (u = t) then r else so c u.
Proof.
  destruct add_step_base as (Hq1 & _ & _). unfold added_core.
  rw !(cthr_bucket_append _ q) // cthr_setthr; [apply (kp_queues _ _ Hk)|by apply qtid_ok|].
  by destruct (decide (u = t)) as [->|].
Qed.

Lemma add_step_ok : r ≠ 0 → 0 ≤ r < 2 ^ 32 → kpre (added_core c q t r) (added_queues q t r).
Proof.
  intros Hr0 Hr. destruct add_step_base as (Hq1 & Hnq & Hnx).
  destruct (cthr_added t) as [Et1 Et2]. rw decide_True // in Et2.
  apply (kpre_change c q _ _ t); [done|by apply bucket_append_ok; [|apply hash_ok|..]| | |].
  - intros u Hu. destruct (cthr_added u) as [-> ->]. by rw decide_False.
  - intros u Hu. split; [done|]. intros h. simpl. case_decide; [subst|done].
    rw elem_of_app list_elem_of_singleton. tauto.
  - constructor; rw ?Et1 ?Et2; try done.
    + intros Hin. exfalso. apply Hnq. by left.
    + intros _ HR. congruence.
    + intros h Hin. simpl in Hin. case_decide as Hh; [subst; auto|].
      exfalso. apply Hnq. right. by exists h.
    + intros _. simpl. rw decide_True //. set_solver.
Qed.

Lemma add_step_currents : currents_ok c (-1) → currents_ok (added_core c q t r) (-1).
Proof.
  intros Hcu. apply (currents_change c); [done| |].
  - unfold added_core, bucket_append. by destruct (last _).
  - intros u. by destruct (cthr_added u) as [-> _].
Qed.

Lemma waiters_added r' :
  r' ≠ 0 →
  waiters (added_core c q t r) (added_queues q t r) r' =
    waiters c q r' ++ (if decide (r' = r) then [t] else []).
Proof.
  intros Hr'. destruct add_step_base as (_ & Hnq & _). unfold waiters. simpl.
  assert (∀ l : list Z, t ∉ l → filter (λ u, so (added_core c q t r) u = r') l = filter (λ u, so c u = r') l)
    as Hf.
  { intros l Hl. apply filter_ext_in. intros u Hu. destruct (cthr_added u) as [_ ->].
    rw decide_False //. by intros ->. }
  assert (∀ h, t ∉ q_sleep q h) as Hn by (intros h Hin; apply Hnq; right; by exists h).
  case_decide as Hh.
  - rw filter_app Hf // Hh. f_equal. rw filter_cons filter_nil.
    destruct (cthr_added t) as [_ ->]. rw (decide_True (P := t = t)) //.
    repeat case_decide; congruence.
  - rw Hf //. rw decide_False; [by intros ->|]. by rw app_nil_r.
Qed.
End add_step.

Lemma sleepq_add_run s q res :
  kinv (core_of s) q → cpu_ok s → sleepq_slock s = 0 → interrupts_off (k_status s) = true →
  qtid (current s) → so (core_of s) (current s) = 0 → st (core_of s) (current s) = THREAD_RUNNING →
  sleepq_add res s = Done tt (put_core (added_core (core_of s) q (current s) (u32 res)) s).
Proof.
  intros Hinv Hcpu Hlk Hoff Ht Hso Hst. set (t := current s) in *.
  pose proof (ki_pre _ _ Hinv) as Hk. pose proof (kp_queues _ _ Hk) as Hq.
  pose proof (qo_sizes _ _ Hq) as Hs. pose proof (qtid_ok t Ht) as Ht'.
  unfold sleepq_add. erewrite bind_Done; [|reflexivity]. cbn [lget]. rw Hoff.
  erewrite bind_Done; [|reflexivity].
  erewrite bind_Done; [|by apply thread_get_current_thread_run]. fold t.
  erewrite bind_Done; [|by apply upd_thread_run].
  erewrite bind_Done; [|apply upd_thread_run; [rw core_of_put; by apply c_sizes_setthr|done]].
  rw core_of_put cthr_setthr // decide_True // setthr_setthr.
  rw bind_assert; [unfold IDLE_THREAD_TID, qtid in *; lia|]. rw bind_acquire //.
  destruct (add_step_base (core_of s) q t (u32 res) Hk Ht Hso Hst) as (Hq1 & Hnq & Hnx).
  set (c1 := setthr t _ (core_of s)) in *.
  set (s1 := lset _ 1 _). assert (core_of s1 = c1) as Hc1 by (by destruct c1).
  erewrite bind_Done; [|apply (load_bucket_queues s1 q); [by rw Hc1|apply hash_ok]].
  unfold added_core. rw hash_u32. fold c1. unfold bucket_append.
  pose proof (qo_sleep_tid _ _ Hq (SLEEPQ_HASH res)) as Htid.
  destruct (qo_bucket _ _ Hq1 (SLEEPQ_HASH res) (hash_ok res)) as (hd & _ & Hseg).
  pose proof (seg_head _ _ _ _ Hseg) as ->.
  pose proof (bucket_short q c1 (SLEEPQ_HASH res) Hq1) as Hshort.
  destruct (q_sleep q (SLEEPQ_HASH res)) as [|x l] eqn:Hl.
  - cbn [default head last]. destruct (decide (-1 ≤ 0)); [|lia].
    erewrite bind_Done; [|apply store_bucket_run; [rw Hc1; apply Hq1|apply hash_ok]].
    rw Hc1. unfold spinlock_release, modify. f_equal. destruct s. simpl in Hlk. subst. reflexivity.
  - cbn [default head id]. assert (qtid x) as Hx by by inversion Htid.
    destruct (decide (x ≤ 0)); [unfold qtid in Hx; lia|].
    destruct (exists_last (l := x :: l)) as (l' & y & Hly); [done|]. rw Hly in Hseg Htid Hshort |- *.
    rw last_snoc bind_bind. assert (qtid y) as Hy by (apply Forall_app in Htid as [_ H]; by inversion H).
    erewrite bind_Done; [|apply (chain_end_run s1 l' y); rewrite ?Hc1; [apply Hq1| |done|lia]].
    2: { by destruct l'; injection Hly as -> ->. }
    erewrite bind_Done; [|apply upd_thread_run; [rw Hc1; apply Hq1|by apply qtid_ok]].
    rw Hc1. unfold spinlock_release, modify. f_equal. destruct s. simpl in Hlk. subst. reflexivity.
Qed.

(** ** Properties *)

Lemma sleepq_add_spec s q res :
  kinv (core_of s) q → cpu_ok s → sleepq_slock s = 0 → interrupts_off (k_status s) = true →
  qtid (current s) → so (core_of s) (current s) = 0 → st (core_of s) (current s) = THREAD_RUNNING →
  u32 res ≠ 0 →
  ∃ c' q', sleepq_add res s = Done tt (put_core c' s) ∧ kinv c' q' ∧ c_sems c' = c_sems (core_of s) ∧
    (∀ r, r ≠ 0 → waiters c' q' r =
      waiters (core_of s) q r ++ (if decide (r = u32 res) then [current s] else [])) ∧
    q_ready q' = q_ready q ∧
    (∀ u, st c' u = st (core_of s) u) ∧
    (∀ u, so c' u = if decide (u = current s) then u32 res else so (core_of s) u).
Proof.
  intros Hinv Hcpu Hlk Hoff Ht Hso Hst Hr. pose proof (ki_pre _ _ Hinv) as Hk.
  exists (added_core (core_of s) q (current s) (u32 res)), (added_queues q (current s) (u32 res)).
  split; [by apply sleepq_add_run|]. split.
  { constructor; [apply add_step_ok; try done; apply u32_range|].
    by apply add_step_currents; [..|apply Hinv]. }
  split; [unfold added_core, bucket_append; by destruct (last _)|].
  split_and!; [|done| |].
  - intros r Hr'. by apply waiters_added.
  - intros u. by apply cthr_added.
  - intros u. by apply cthr_added.
Qed.

Lemma sleepq_wake_spec s q res :
  kinv (core_of s) q → cpu_ok s → sleepq_slock s = 0 → thread_table_slock s = 0 → u32 res ≠ 0 →
  let c := core_of s in
  match waiters c q (u32 res) with
  | [] => sleepq_wake res s = Done tt s
  | t :: rest =>
    ∃ c' q', sleepq_wake res s = Done tt (put_core c' s) ∧ kinv c' q' ∧ c_sems c' = c_sems c ∧
      (∀ r, r ≠ 0 → waiters c' q' r = if decide (r = u32 res) then rest else waiters c q r) ∧
      q_ready q' = q_ready q ++ (if decide (st c t = THREAD_SLEEPING) then [t] else []) ∧
      (∀ u, st c' u = if decide (u = t ∧ st c t = THREAD_SLEEPING) then THREAD_READY else st c u) ∧
      (∀ u, so c' u = if decide (u = t) then 0 else so c u)
  end.
Proof.
  intros Hinv Hcpu Hlk Hlk' Hr c. pose proof (ki_pre _ _ Hinv) as Hk.
  pose proof (sleepq_wake_run s q res Hinv Hcpu Hlk Hlk') as Hrun. cbn zeta in Hrun. fold c in Hrun.
  pose proof (waiters_NoDup c q (u32 res) Hk) as Hnd.
  destruct (waiters c q (u32 res)) as [|t rest] eqn:Hw; [done|].
  destruct Hrun as (l1 & l2 & Hl & Ht & Hrun). eexists _, (woken_queues c q _ t l1 l2).
  split; [exact Hrun|]. apply NoDup_cons in Hnd as [Htr _]. split_and!.
  - constructor; [by apply wake_step_ok; [..|apply hash_ok|]|].
    apply (wake_step_currents _ q _ _ _ l2); [done|apply hash_ok|done|apply Hinv].
  - apply sems_woken.
  - intros r Hr0. rw (waiters_woken c q _ t l1 l2); [done|apply hash_ok|done|done|].
    case_decide as Hd.
    + subst r. rw Hw filter_cons_False; [tauto|]. apply filter_all, Forall_forall.
      intros u Hu ->. done.
    + apply filter_all, Forall_forall. intros u Hu ->.
      apply (elem_of_waiters c q r t Hk Hr0) in Hu. congruence.
  - unfold woken_queues. simpl. case_decide; [done|]. by rw app_nil_r.
  - intros u. apply (st_woken c q _ t l1 l2 Hk (hash_ok res) Hl).
  - intros u. apply (so_woken c q _ t l1 l2 Hk (hash_ok res) Hl).
Qed.

(** Sleepq_add puts the calling thread at the end of the list
    of waiters of the resource; the waiters of other resources, in the same
    bucket or not, stay as they are, the thread keeps running until it gives up
    the CPU, and the kernel state is consistent. *)
Theorem sleepq_add_last_waiter s q res :
  kinv (core_of s) q → cpu_ok s → sleepq_slock s = 0 → interrupts_off (k_status s) = true →
  qtid (current s) → so (core_of s) (current s) = 0 → st (core_of s) (current s) = THREAD_RUNNING →
  u32 res ≠ 0 →
  ∃ c' q', sleepq_add res s = Done tt (put_core c' s) ∧ kinv c' q' ∧
    (∀ r, r ≠ 0 → waiters c' q' r =
      waiters (core_of s) q r ++ (if decide (r = u32 res) then [current s] else [])) ∧
    q_ready q' = q_ready q ∧
    (∀ u, st c' u = st (core_of s) u) ∧
    (∀ u, so c' u = if decide (u = current s) then u32 res else so (core_of s) u).
Proof.
  intros Hinv Hcpu Hlk Hoff Ht Hso Hst Hr.
  destruct (sleepq_add_spec s q res Hinv Hcpu Hlk Hoff Ht Hso Hst Hr)
    as (c' & q' & H1 & H2 & _ & H3). by exists c', q'.
Qed.

(** Sleepq_wake wakes the thread that has waited longest for
    the resource, whatever else shares its bucket: it leaves the list of
    waiters, and, if it already gave up the CPU, joins the end of the ready
    queue (a thread that is still running just stays runnable, so its wakeup is
    not lost). Without a waiter nothing changes. Other waiters and threads are
    not affected. *)
Theorem sleepq_wake_first_waiter s q res :
  kinv (core_of s) q → cpu_ok s → sleepq_slock s = 0 → thread_table_slock s = 0 → u32 res ≠ 0 →
  let c := core_of s in
  match waiters c q (u32 res) with
  | [] => sleepq_wake res s = Done tt s
  | t :: rest =>
    ∃ c' q', sleepq_wake res s = Done tt (put_core c' s) ∧ kinv c' q' ∧
      (∀ r, r ≠ 0 → waiters c' q' r = if decide (r = u32 res) then rest else waiters c q r) ∧
      q_ready q' = q_ready q ++ (if decide (st c t = THREAD_SLEEPING) then [t] else []) ∧
      (∀ u, st c' u = if decide (u = t ∧ st c t = THREAD_SLEEPING) then THREAD_READY else st c u) ∧
      (∀ u, so c' u = if decide (u = t) then 0 else so c u)
  end.
Proof.
  intros Hinv Hcpu Hlk Hlk' Hr c. pose proof (sleepq_wake_spec s q res Hinv Hcpu Hlk Hlk' Hr) as H.
  cbn zeta in H. fold c in H. destruct (waiters c q (u32 res)) as [|t rest]; [done|].
  destruct H as (c' & q' & H1 & H2 & _ & H3). by exists c', q'.
Qed.

Lemma sleepq_wake_all_spec s q res :
  kinv (core_of s) q → cpu_ok s → sleepq_slock s = 0 → thread_table_slock s = 0 → u32 res ≠ 0 →
  let c := core_of s in
  ∃ c' q', sleepq_wake_all res s = Done tt (put_core c' s) ∧ kinv c' q' ∧ c_sems c' = c_sems c ∧
    (∀ r, r ≠ 0 → waiters c' q' r = if decide (r = u32 res) then [] else waiters c q r) ∧
    q_ready q' = q_ready q ++ filter (λ t, st c t = THREAD_SLEEPING) (waiters c q (u32 res)) ∧
    (∀ u, st c' u = if decide (so c u = u32 res ∧ st c u = THREAD_SLEEPING)
                    then THREAD_READY else st c u) ∧
    (∀ u, so c' u = if decide (so c u = u32 res) then 0 else so c u).
Proof.
  intros Hinv Hcpu Hlk Hlk' Hr c. pose proof (ki_pre _ _ Hinv) as Hk.
  destruct (wake_all_loop_run res walk_fuel (locked s) q [] (q_sleep q (SLEEPQ_HASH res)))
    as (c' & q' & Hrun & [W1 W2 W3 W4 W5 W6]); [done|done|done|by rw hash_u32|constructor|
      by apply (bucket_short q c), Hk|].
  change (core_of (locked s)) with c in *. rw hash_u32 in W2.
  exists c', q'. split; [|split; [done|split; [done|]]].
  { unfold sleepq_wake_all. rw (wake_begin s q) //. cbn [last default] in Hrun.
    rw (bind_Done _ _ _ _ _ Hrun). by apply wake_end. }
  split_and!; [|..|done|done].
  - intros r Hr0. unfold waiters. rw W2. destruct (decide (SLEEPQ_HASH r = SLEEPQ_HASH res)) as [Hh|Hh].
    + rw app_nil_l list_filter_filter Hh. case_decide as Hd.
      * subst r. apply filter_none, Forall_forall. intros u _. rw W4.
        destruct (decide (so c u = u32 res)); intuition congruence.
      * apply filter_ext_in. intros u _. rw W4.
        destruct (decide (so c u = u32 res)); intuition congruence.
    + rw decide_False; [intros ->; by rw hash_u32 in Hh|]. apply filter_ext_in.
      intros u Hu. rw W4. case_decide as Hu'; [|done]. exfalso. apply Hh.
      destruct (kp_thread _ _ Hk u) as [_ _ tk3 _ _ _]. destruct (tk3 _ Hu) as (_ & Heq & _).
      rw -Heq Hu'. apply hash_u32.
  - rw W3. f_equal. unfold waiters. rw list_filter_filter hash_u32. apply filter_ext_in. tauto.
Qed.

(** Sleepq_wake_all wakes every thread that waits for the
    resource and no other, and always terminates; those that already gave up
    the CPU join the ready queue in the order in which they came. *)
Theorem sleepq_wake_all_waiters s q res :
  kinv (core_of s) q → cpu_ok s → sleepq_slock s = 0 → thread_table_slock s = 0 → u32 res ≠ 0 →
  let c := core_of s in
  ∃ c' q', sleepq_wake_all res s = Done tt (put_core c' s) ∧ kinv c' q' ∧
    (∀ r, r ≠ 0 → waiters c' q' r = if decide (r = u32 res) then [] else waiters c q r) ∧
    q_ready q' = q_ready q ++ filter (λ t, st c t = THREAD_SLEEPING) (waiters c q (u32 res)) ∧
    (∀ u, st c' u = if decide (so c u = u32 res ∧ st c u = THREAD_SLEEPING)
                    then THREAD_READY else st c u) ∧
    (∀ u, so c' u = if decide (so c u = u32 res) then 0 else so c u).
Proof.
  intros Hinv Hcpu Hlk Hlk' Hr c.
  destruct (sleepq_wake_all_spec s q res Hinv Hcpu Hlk Hlk' Hr) as (c' & q' & H1 & H2 & _ & H3).
  by exists c', q'.
Qed.

(** Thread 1 runs on CPU 0, with interrupts off; then it waits for 0x2000. *)
Definition example_running : kstate :=
  put_core (take_cpu 0 1 (put_back 0 (set_state THREAD_READY 1 (enqueue 1 (core_of example_state)))))
    (example_state <| k_status := 0 |>).
Definition example_waiting : kstate :=
  put_core (added_core (core_of example_running) (Queues [] (λ _, [])) 1 0x2000) example_running.

Lemma example_running_inv : kinv (core_of example_running) (Queues [] (λ _, [])).
Proof.
  assert (qtid 1) as H1 by (unfold qtid, CONFIG_MAX_THREADS; lia).
  pose proof (kinv_ready_new _ _ 1 example_state_inv H1 eq_refl eq_refl) as Hinv.
  assert (0 ≤ 0 < CONFIG_MAX_CPUS) as H0 by (unfold CONFIG_MAX_CPUS; lia).
  destruct (put_back_ok _ _ 0 Hinv H0) as [Hk Hcu].
  exact (take_cpu_ok _ _ 0 Hk Hcu H0).
Qed.

Lemma example_running_cpu : cpu_ok example_running.
Proof. constructor; [change (0 ≤ 0 < 4)|change (0 ≤ 0 < 2 ^ 32)]; lia. Qed.

Lemma example_waiting_inv :
  kinv (core_of example_waiting) (added_queues (Queues [] (λ _, [])) 1 0x2000).
Proof.
  pose proof example_running_inv as Hinv. pose proof (ki_pre _ _ Hinv) as Hk.
  assert (qtid 1) as H1 by (unfold qtid, CONFIG_MAX_THREADS; lia).
  unfold example_waiting. rw core_of_put. constructor.
  - apply add_step_ok; [done|done|reflexivity|reflexivity|lia|lia].
  - apply add_step_currents; [done|done|reflexivity|reflexivity|apply Hinv].
Qed.

Lemma sleepq_add_last_waiter_witness :
  sleepq_add 0x2000 example_running = Done tt example_waiting ∧
  ∃ c' q', sleepq_add 0x2000 example_running = Done tt (put_core c' example_running) ∧
    waiters c' q' 0x2000 = [1].
Proof.
  split; [reflexivity|].
  destruct (sleepq_add_last_waiter example_running _ 0x2000 example_running_inv
    example_running_cpu eq_refl eq_refl) as (c' & q' & H1 & _ & H2 & _).
  - change (1 ≤ 1 < 32). lia.
  - reflexivity.
  - reflexivity.
  - discriminate.
  - exists c', q'. split; [exact H1|]. rewrite H2; [discriminate|]. reflexivity.
Defined.

Lemma example_waiting_cpu : cpu_ok example_waiting.
Proof. constructor; [change (0 ≤ 0 < 4)|change (0 ≤ 0 < 2 ^ 32)]; lia. Qed.

Lemma example_waiters :
  waiters (core_of example_waiting) (added_queues (Queues [] (λ _, [])) 1 0x2000) (u32 0x2000) = [1].
Proof. vm_compute. reflexivity. Qed.

Lemma sleepq_wake_first_waiter_witness :
  ∃ c' q', sleepq_wake 0x2000 example_waiting = Done tt (put_core c' example_waiting) ∧
    waiters c' q' (u32 0x2000) = [].
Proof.
  pose proof (sleepq_wake_first_waiter example_waiting _ 0x2000 example_waiting_inv
    example_waiting_cpu eq_refl eq_refl ltac:(discriminate)) as H.
  cbn zeta in H. rewrite example_waiters in H.
  destruct H as (c' & q' & H1 & _ & H2 & _).
  exists c', q'. split; [exact H1|]. rewrite H2; [discriminate|]. case_decide; [reflexivity|congruence].
Defined.

Lemma sleepq_wake_all_waiters_witness :
  ∃ c' q', sleepq_wake_all 0x2000 example_waiting = Done tt (put_core c' example_waiting) ∧
    waiters c' q' (u32 0x2000) = [].
Proof.
  destruct (sleepq_wake_all_waiters example_waiting _ 0x2000 example_waiting_inv example_waiting_cpu
    eq_refl eq_refl) as (c' & q' & H1 & _ & H2 & _); [discriminate|].
  exists c', q'. split; [exact H1|]. rewrite H2; [discriminate|]. case_decide; [reflexivity|congruence].
Defined.
End Sleepq.
