(* ===== verification/Semaphore.v ===== *)
(** * Semaphores (kernel/semaphore.c)

    A semaphore is referred to by its index in the table; its address, the key
    under which threads sleep on it, is [sem_addr].  The abstract semaphore
    ([abs_sem]) is a number of permits and a first-come first-served queue. *)
From S2P Require Import Prelude Cpu Kstate Queues Kinv Scheduler Sleepq.
Import Scheduler Sleepq.

Module Semaphore.

Definition SIZEOF_SEMAPHORE : Z := 12.

Section semaphore.
(** The address of semaphore_table. *)
Variable semaphore_table_addr : Z.

Definition sem_addr (i : Z) : Z := semaphore_table_addr + SIZEOF_SEMAPHORE * i.

Definition semaphore_init : K unit :=
  spinlock_reset #semaphore_table_slock;;
  for_loop (Z.to_nat CONFIG_MAX_SEMAPHORES) 0 (λ i, upd_sem i (λ e, e <| sem_creator := -1 |>)).

(** The search loop of semaphore_create; [semaphore_next] is its static
    variable [next]. *)
Fixpoint create_loop (n : nat) : K (option Z) :=
  match n with
  | O => mret None
  | S n' =>
    sem_id ← gets semaphore_next;
    modify (λ s, s <| semaphore_next := Z.rem (sem_id + 1) CONFIG_MAX_SEMAPHORES |>);;
    e ← get_sem sem_id;
    if decide (sem_creator e = -1) then
      t ← thread_get_current_thread;
      upd_sem sem_id (λ e, e <| sem_creator := t |>);;
      mret (Some sem_id)
    else create_loop n'
  end.

(** [None] is NULL. *)
Definition semaphore_create (value : Z) : K (option Z) :=
  kernel_assert (bool_decide (0 ≤ value));;
  intr_status ← _interrupt_disable #k_status;
  spinlock_acquire #semaphore_table_slock;;
  found ← create_loop (Z.to_nat CONFIG_MAX_SEMAPHORES);
  spinlock_release #semaphore_table_slock;;
  _interrupt_set_state #k_status intr_status;;
  match found with
  | None => mret None
  | Some sem_id =>
    upd_sem sem_id (λ e, e <| sem_value := value |>);;
    upd_sem sem_id (λ e, e <| sem_slock := 0 |>);;
    mret (Some sem_id)
  end.

Definition semaphore_destroy (sem : Z) : K unit :=
  upd_sem sem (λ e, e <| sem_creator := -1 |>).

Definition semaphore_P (sem : Z) : K unit :=
  intr_status ← _interrupt_disable #k_status;
  sem_spinlock_acquire sem;;
  upd_sem sem (λ e, e <| sem_value := i32 (sem_value e - 1) |>);;
  e ← get_sem sem;
  (if decide (sem_value e < 0) then
     sleepq_add (sem_addr sem);;
     sem_spinlock_release sem;;
     thread_switch
   else sem_spinlock_release sem);;
  _interrupt_set_state #k_status intr_status;;
  mret tt.

Definition semaphore_V (sem : Z) : K unit :=
  intr_status ← _interrupt_disable #k_status;
  sem_spinlock_acquire sem;;
  upd_sem sem (λ e, e <| sem_value := i32 (sem_value e + 1) |>);;
  e ← get_sem sem;
  (if decide (sem_value e ≤ 0) then sleepq_wake (sem_addr sem) else mret tt);;
  sem_spinlock_release sem;;
  _interrupt_set_state #k_status intr_status;;
  mret tt.

(** ** The abstract semaphore *)

Definition sem_ok (i : Z) : Prop := 0 ≤ i < CONFIG_MAX_SEMAPHORES.

Definition csem (c : core) (i : Z) : semaphore_t :=
  default (Semaphore 0 0 (-1)) (arr_get (c_sems c) i).
Definition setsem (i : Z) (e : semaphore_t) (c : core) : core :=
  c <| c_sems := <[Z.to_nat i := e]> (c_sems c) |>.

(** Permits that are left, and the threads waiting for one. *)
Record abs_sem := AbsSem { permits : Z; queue : list Z }.

Definition abs_of (c : core) (q : queues) (i : Z) : abs_sem :=
  AbsSem (Z.max 0 (sem_value (csem c i))) (waiters c q (sem_addr i)).

(** The value counts permits or, below zero, the waiting threads. *)
Definition one_sem_ok (c : core) (q : queues) (i : Z) : Prop :=
  let e := csem c i in
  sem_slock e = 0 ∧ - 2 ^ 31 < sem_value e < 2 ^ 31 ∧
  length (waiters c q (sem_addr i)) =
    (if decide (sem_creator e = -1) then 0%nat else Z.to_nat (- sem_value e)).

Definition sems_ok (c : core) (q : queues) : Prop := ∀ i, sem_ok i → one_sem_ok c q i.

Context (Haddr : 0 < semaphore_table_addr ∧
  semaphore_table_addr + SIZEOF_SEMAPHORE * CONFIG_MAX_SEMAPHORES ≤ 2 ^ 32).

Lemma sem_addr_res i : sem_ok i → u32 (sem_addr i) = sem_addr i ∧ sem_addr i ≠ 0.
Proof.
  unfold sem_ok, sem_addr, SIZEOF_SEMAPHORE, CONFIG_MAX_SEMAPHORES in *. intros Hi.
  split; [apply u32_small|]; lia.
Qed.

Lemma sem_addr_inj i j : sem_addr i = sem_addr j → i = j.
Proof. unfold sem_addr, SIZEOF_SEMAPHORE. lia. Qed.

Lemma get_sem_run s i :
  c_sizes (core_of s) → sem_ok i → get_sem i s = Done (csem (core_of s) i) s.
Proof.
  intros Hs Hi. unfold get_sem, csem.
  destruct (arr_get_is_Some (semaphore_table s) i) as [e He].
  - rw (cs_sems _ Hs : Z.of_nat (length (semaphore_table s)) = _). exact Hi.
  - by rw (He : arr_get (c_sems (core_of s)) i = _).
Qed.

Lemma upd_sem_run s i f :
  c_sizes (core_of s) → sem_ok i →
  upd_sem i f s = Done tt (put_core (setsem i (f (csem (core_of s) i)) (core_of s)) s).
Proof.
  intros Hs Hi. unfold upd_sem, csem.
  destruct (arr_get_is_Some (semaphore_table s) i) as [e He].
  - rw (cs_sems _ Hs : Z.of_nat (length (semaphore_table s)) = _). exact Hi.
  - rw (He : arr_get (c_sems (core_of s)) i = _). by destruct s.
Qed.

Lemma csem_setsem c i e j :
  c_sizes c → sem_ok i → csem (setsem i e c) j = if decide (j = i) then e else csem c j.
Proof.
  intros Hs Hi. unfold csem, setsem. rsimpl. rw arr_get_insert.
  - rw (cs_sems c Hs). done.
  - by case_decide.
Qed.

Lemma setsem_setsem i e e' c : setsem i e (setsem i e' c) = setsem i e c.
Proof. unfold setsem. destruct c. unfold update. cbn. f_equal. apply list_insert_insert_eq. Qed.

Lemma c_sizes_setsem c i e : c_sizes c → c_sizes (setsem i e c).
Proof. intros []. constructor; unfold setsem; rsimpl; try done. by rw length_insert. Qed.

(** The invariant of threads and queues does not look at semaphores. *)
Lemma kinv_setsem c q i e : kinv c q → kinv (setsem i e c) q.
Proof.
  intros [[Hq Ht] Hcu]. constructor; [constructor|].
  - destruct Hq. constructor; try done. by apply c_sizes_setsem.
  - intros t. destruct (Ht t). by constructor.
  - by destruct Hcu.
Qed.

Lemma waiters_setsem c q i e r : waiters (setsem i e c) q r = waiters c q r.
Proof. done. Qed.

(** ** The whole kernel state between two operations *)

Record kernel_ok (s : kstate) (q : queues) : Prop := {
  ko_inv : kinv (core_of s) q;
  ko_cpu : cpu_ok s;
  ko_sems : sems_ok (core_of s) q;
  ko_tlock : thread_table_slock s = 0;
  ko_qlock : sleepq_slock s = 0;
  ko_slock : semaphore_table_slock s = 0;
  ko_next : 0 ≤ semaphore_next s < CONFIG_MAX_SEMAPHORES;
  ko_tid : 0 ≤ next_tid s < CONFIG_MAX_THREADS }.

(** The thread on this CPU executes kernel code. *)
Record running (s : kstate) : Prop := {
  ru_tid : qtid (current s);
  ru_so : so (core_of s) (current s) = 0;
  ru_st : st (core_of s) (current s) = THREAD_RUNNING }.

Lemma kernel_ok_core s q c' q' :
  kernel_ok s q → kinv c' q' → sems_ok c' q' → kernel_ok (put_core c' s) q'.
Proof.
  intros [] Hinv Hsem. constructor; rw ?core_of_put; try done. by apply cpu_ok_put.
Qed.

(** A semaphore that is in use. *)
Definition live (c : core) (i : Z) : Prop := sem_ok i ∧ sem_creator (csem c i) ≠ -1.

Lemma live_waiters c q i :
  sems_ok c q → live c i →
  sem_slock (csem c i) = 0 ∧ - 2 ^ 31 < sem_value (csem c i) < 2 ^ 31 ∧
  length (waiters c q (sem_addr i)) = Z.to_nat (- sem_value (csem c i)).
Proof. intros Hs [Hi Hc]. destruct (Hs i Hi) as (? & ? & H). by rw decide_False in H. Qed.

(** The invariant of the semaphores after an operation on semaphore [i]. *)
Lemma sems_ok_change c q c' q' i e :
  sems_ok c q → live c i → c_sizes c' → (∀ j, j ≠ i → csem c' j = csem c j) →
  sem_slock e = 0 → - 2 ^ 31 < sem_value e < 2 ^ 31 → sem_creator e = sem_creator (csem c i) →
  length (waiters c' q' (sem_addr i)) = Z.to_nat (- sem_value e) →
  (∀ j, sem_ok j → j ≠ i → waiters c' q' (sem_addr j) = waiters c q (sem_addr j)) →
  sems_ok (setsem i e c') q'.
Proof.
  intros Hs [Hi Hcr] Hsz Hc Hl Hv Hce Hw Hj j Hjo. unfold one_sem_ok. rw csem_setsem // waiters_setsem.
  case_decide as Hd; [subst j; rw decide_False; [congruence|]; auto|].
  rw Hc // Hj //. apply (Hs j Hjo).
Qed.

(** ** semaphore_P *)

Definition spec_P (t : Z) (a : abs_sem) : abs_sem :=
  if decide (0 < permits a) then AbsSem (permits a - 1) (queue a)
  else AbsSem (permits a) (queue a ++ [t]).

Lemma sem_acquire_run s i :
  c_sizes (core_of s) → sem_ok i → sem_slock (csem (core_of s) i) = 0 →
  sem_spinlock_acquire i s =
    Done tt (put_core (setsem i ((csem (core_of s) i) <| sem_slock := 1 |>) (core_of s)) s).
Proof.
  intros Hs Hi Hl. unfold sem_spinlock_acquire. erewrite bind_Done; [|by apply get_sem_run].
  rw decide_True //. by apply upd_sem_run.
Qed.

(** The common first half of P and V: lock, then change the value. *)
Lemma sem_enter_run {A} s i n (f : Z → semaphore_t → K A) :
  c_sizes (core_of s) → sem_ok i → sem_slock (csem (core_of s) i) = 0 →
  let e := Semaphore 1 (i32 (sem_value (csem (core_of s) i) + n)) (sem_creator (csem (core_of s) i)) in
  (intr_status ← _interrupt_disable #k_status;
   sem_spinlock_acquire i;;
   upd_sem i (λ e, e <| sem_value := i32 (sem_value e + n) |>);;
   e ← get_sem i;
   f intr_status e) s =
  f (k_status s) e
    (put_core (setsem i e (core_of s)) (s <| k_status := disabled (k_status s) |>)).
Proof.
  intros Hs Hi Hl e. erewrite bind_Done; [|reflexivity]. fold (disabled (lget #k_status s)).
  set (s1 := lset _ _ s). assert (core_of s1 = core_of s) as Hc1 by done.
  erewrite bind_Done; [|by apply (sem_acquire_run s1)]. rw Hc1.
  erewrite bind_Done; [|apply upd_sem_run; [rw core_of_put; by apply c_sizes_setsem|done]].
  rw core_of_put setsem_setsem csem_setsem // decide_True //.
  change (update sem_value _ _) with e.
  erewrite bind_Done; [|apply get_sem_run; [rw core_of_put; by apply c_sizes_setsem|done]].
  rw core_of_put csem_setsem // decide_True //.
Qed.

Lemma sem_release_run s i :
  c_sizes (core_of s) → sem_ok i →
  sem_spinlock_release i s =
    Done tt (put_core (setsem i ((csem (core_of s) i) <| sem_slock := 0 |>) (core_of s)) s).
Proof. intros. unfold sem_spinlock_release. by apply upd_sem_run. Qed.

Lemma restore_run s c :
  cpu_ok s →
  (_interrupt_set_state #k_status (k_status s);; mret tt)
    (put_core c (s <| k_status := disabled (k_status s) |>)) = Done tt (put_core c s).
Proof.
  intros [_ Hr]. erewrite bind_Done; [|reflexivity]. cbn. rw restore_disabled //.
Qed.

(** thread_switch leaves the CPU, and afterwards only restores interrupts. *)
Lemma restore_mask w x :
  Z.land (Z.lor (Z.land 0x0000ff01 w) (Z.land x (u32 (Z.lnot 0x0000ff01)))) 0xff01 = Z.land w 0xff01.
Proof.
  rw Z.land_lor_distr_l -!Z.land_assoc. change (Z.land (u32 (Z.lnot 0xff01)) 0xff01) with 0.
  rw Z.land_0_r Z.lor_0_r (Z.land_comm w) Z.land_assoc.
  change (Z.land 0xff01 0xff01) with 0xff01. done.
Qed.

Lemma set_state_range a x :
  0 ≤ x < 2 ^ 32 → 0 ≤ Z.lor (Z.land 0x0000ff01 a) (Z.land x (u32 (Z.lnot 0x0000ff01))) < 2 ^ 32.
Proof. intros. apply lor_range; [|by apply land_range]. apply land_range. lia. Qed.

Definition switched (s : kstate) : kstate :=
  s <| k_status := Z.lor 0x0000ff01 (k_status s) |> <| k_cause := Z.lor (k_cause s) 0x00000100 |>.

Lemma kernel_ok_switched c s q :
  kernel_ok (put_core c s) q →
  kernel_ok (switched (put_core c (s <| k_status := disabled (k_status s) |>))) q.
Proof.
  intros [Hinv [Hc Hr] Hsem H1 H2 H3 H4 H5]. constructor; try done.
  constructor; [done|]. apply lor_range; [lia|by apply disabled_range].
Qed.

Lemma thread_switch_run {A} s (f : unit → K A) :
  ∃ k, (thread_switch ≫= f) s = Blocked (switched s) k ∧
    ∀ t, ∃ x, k t = f tt (t <| k_status := x |>) ∧ (0 ≤ k_status t < 2 ^ 32 → 0 ≤ x < 2 ^ 32).
Proof.
  eexists. split; [reflexivity|]. intros t. eexists. cbn. split; [reflexivity|].
  intros Ht. by apply set_state_range.
Qed.

(** semaphore_P with a permit left. *)
Lemma semaphore_P_permit s q i :
  kernel_ok s q → live (core_of s) i → 0 < sem_value (csem (core_of s) i) →
  let e := csem (core_of s) i in
  let c' := setsem i (Semaphore 0 (sem_value e - 1) (sem_creator e)) (core_of s) in
  semaphore_P i s = Done tt (put_core c' s) ∧ kernel_ok (put_core c' s) q.
Proof.
  intros Hok Hlive Hv e c'. pose proof (ko_inv _ _ Hok) as Hinv.
  pose proof (qo_sizes _ _ (kp_queues _ _ (ki_pre _ _ Hinv))) as Hs.
  destruct (live_waiters _ _ _ (ko_sems _ _ Hok) Hlive) as (Hl & Hr & Hw). destruct Hlive as [Hi Hcr].
  fold e in Hl, Hr, Hw, Hcr, Hv. split.
  - unfold semaphore_P. rw (sem_enter_run s i (-1)) //. fold e. cbn beta iota zeta.
    change (sem_value e + -1) with (sem_value e - 1). rw i32_small; [lia|]. cbn [sem_value].
    destruct (decide (sem_value e - 1 < 0)); [lia|].
    erewrite bind_Done; [|apply sem_release_run; [rw core_of_put; by apply c_sizes_setsem|done]].
    rw core_of_put csem_setsem // setsem_setsem. rw (decide_True (P := i = i)) //.
    apply restore_run, Hok.
  - apply (kernel_ok_core s q); [done|by apply kinv_setsem|].
    apply (sems_ok_change (core_of s) q); try done; [apply Hok|cbn; lia|].
    rw Hw. cbn. lia.
Qed.

(** semaphore_P without one: the thread is queued and leaves the CPU. *)
Lemma semaphore_P_block s q i :
  kernel_ok s q → running s → live (core_of s) i → sem_value (csem (core_of s) i) ≤ 0 →
  let e := csem (core_of s) i in
  let t := current s in
  ∃ c' q' k, semaphore_P i s = Blocked (switched (put_core c' (s <| k_status := disabled (k_status s) |>))) k ∧
    kernel_ok (put_core c' s) q' ∧
    csem c' i = Semaphore 0 (sem_value e - 1) (sem_creator e) ∧
    (∀ j, j ≠ i → csem c' j = csem (core_of s) j) ∧
    (∀ r, r ≠ 0 → waiters c' q' r = waiters (core_of s) q r ++ (if decide (r = sem_addr i) then [t] else [])) ∧
    q_ready q' = q_ready q ∧
    (∀ u, st c' u = st (core_of s) u) ∧
    (∀ u, so c' u = if decide (u = t) then sem_addr i else so (core_of s) u) ∧
    ∀ s', ∃ w, k s' = Done tt (s' <| k_status := w |>) ∧ Z.land w 0xff01 = Z.land (k_status s) 0xff01 ∧
      (0 ≤ k_status s' < 2 ^ 32 → 0 ≤ w < 2 ^ 32).
Proof.
  intros Hok [Hrt Hrs Hrr] Hlive Hv e t. pose proof (ko_inv _ _ Hok) as Hinv.
  pose proof (qo_sizes _ _ (kp_queues _ _ (ki_pre _ _ Hinv))) as Hs.
  pose proof (live_waiters _ _ _ (ko_sems _ _ Hok) Hlive) as (Hl & Hr & Hw).
  pose proof Hlive as [Hi Hcr]. fold e in Hl, Hr, Hw, Hcr, Hv.
  destruct (sem_addr_res i Hi) as [Hau Ha0].
  set (s1 := s <| k_status := disabled (k_status s) |>).
  assert (cpu_ok s1) as Hcpu1 by (destruct (ko_cpu _ _ Hok); constructor; [done|by apply disabled_range]).
  set (c1 := setsem i (Semaphore 1 (sem_value e - 1) (sem_creator e)) (core_of s)).
  assert (kinv (core_of (put_core c1 s1)) q) as Hinv1 by (rw core_of_put; by apply kinv_setsem).
  pose proof (waiters_qtid (core_of s) q (sem_addr i)) as Hwq.
  pose proof (waiters_NoDup (core_of s) q (sem_addr i) (ki_pre _ _ Hinv)) as Hnd.
  assert (- 32 < sem_value e) as Hv32.
  { assert (Forall qtid (waiters (core_of s) q (sem_addr i))) as Hf
      by (apply Forall_forall; intros u; apply Hwq, Hinv).
    pose proof (queue_length _ Hnd Hf) as Hql. unfold CONFIG_MAX_THREADS in Hql. lia. }
  destruct (sleepq_add_spec (put_core c1 s1) q (sem_addr i)) as
    (c2 & q2 & Hadd & Hinv2 & Hsems2 & Hw2 & Hr2 & Hst2 & Hso2);
    [done|by apply cpu_ok_put|apply (ko_qlock _ _ Hok)|apply disabled_off|done|done|done|by rw Hau|].
  rw core_of_put Hau in Hw2 Hst2 Hso2 Hsems2. change (current (put_core c1 s1)) with t in *.
  pose proof (qo_sizes _ _ (kp_queues _ _ (ki_pre _ _ Hinv2))) as Hs2.
  assert (∀ j, csem c2 j = csem c1 j) as Hcs by (intros j; unfold csem; by rw Hsems2).
  assert (csem c1 i = Semaphore 1 (sem_value e - 1) (sem_creator e)) as He1
    by (unfold c1; rw csem_setsem // decide_True //).
  set (e3 := Semaphore 0 (sem_value e - 1) (sem_creator e)).
  assert (∀ j, csem (setsem i e3 c2) j = if decide (j = i) then e3 else csem (core_of s) j) as Hcs3.
  { intros j. rw csem_setsem // Hcs. case_decide; [done|]. unfold c1. rw csem_setsem //.
    by rw decide_False. }
  exists (setsem i e3 c2), q2. eexists. split; [|split].
  - unfold semaphore_P. rw (sem_enter_run s i (-1)) //. fold e s1. cbn beta iota zeta.
    change (sem_value e + -1) with (sem_value e - 1). rw i32_small; [lia|]. fold c1.
    cbn [sem_value]. destruct (decide (sem_value e - 1 < 0)); [|lia].
    rw bind_bind (bind_Done _ _ _ _ _ Hadd) bind_bind.
    erewrite bind_Done; [|apply sem_release_run; [by rw core_of_put|done]].
    rw core_of_put Hcs He1. reflexivity.
  - apply (kernel_ok_core s q); [done|by apply kinv_setsem|].
    apply (sems_ok_change (core_of s) q); try done; [apply Hok| |cbn; lia| |].
    + intros j Hj. rw Hcs. unfold c1. rw csem_setsem // decide_False //.
    + rw Hw2 // decide_True // length_app Hw. cbn. lia.
    + intros j Hjo Hj. rw Hw2; [by destruct (sem_addr_res j Hjo)|].
      rw decide_False; [intros Heq; by apply Hj, sem_addr_inj|]. by rw app_nil_r.
  - split_and!.
    + rw Hcs3. by rw decide_True.
    + intros j Hj. rw Hcs3. by rw decide_False.
    + exact Hw2.
    + exact Hr2.
    + exact Hst2.
    + exact Hso2.
    + intros s'. eexists. split; [cbn; reflexivity|]. split; [apply restore_mask|].
      intros Hst. by do 2 apply set_state_range.
Qed.

(** ** semaphore_V *)

Definition spec_V (a : abs_sem) : abs_sem :=
  match queue a with
  | [] => AbsSem (permits a + 1) []
  | _ :: rest => AbsSem (permits a) rest
  end.

(** What semaphore_V does to the kernel when [t] is the first of the waiters. *)
Record released (s : kstate) (q : queues) (i t : Z) (rest : list Z) (c' : core) (q' : queues) : Prop := {
  rl_ok : kernel_ok (put_core c' s) q';
  rl_sem : csem c' i = Semaphore 0 (sem_value (csem (core_of s) i) + 1) (sem_creator (csem (core_of s) i));
  rl_sems j : j ≠ i → csem c' j = csem (core_of s) j;
  rl_waiters r : r ≠ 0 → waiters c' q' r = if decide (r = sem_addr i) then rest else waiters (core_of s) q r;
  rl_ready : q_ready q' = q_ready q ++ (if decide (st (core_of s) t = THREAD_SLEEPING) then [t] else []);
  rl_st u : st c' u =
    if decide (u = t ∧ st (core_of s) t = THREAD_SLEEPING) then THREAD_READY else st (core_of s) u;
  rl_so u : so c' u = if decide (u = t) then 0 else so (core_of s) u }.

Lemma semaphore_V_run s q i :
  kernel_ok s q → live (core_of s) i → sem_value (csem (core_of s) i) < 2 ^ 31 - 1 →
  let e := csem (core_of s) i in
  match waiters (core_of s) q (sem_addr i) with
  | [] =>
    let c' := setsem i (Semaphore 0 (sem_value e + 1) (sem_creator e)) (core_of s) in
    0 ≤ sem_value e ∧ semaphore_V i s = Done tt (put_core c' s) ∧ kernel_ok (put_core c' s) q
  | t :: rest =>
    ∃ c' q', sem_value e < 0 ∧ semaphore_V i s = Done tt (put_core c' s) ∧ released s q i t rest c' q'
  end.
Proof.
  intros Hok Hlive Hmax e. pose proof (ko_inv _ _ Hok) as Hinv.
  pose proof (qo_sizes _ _ (kp_queues _ _ (ki_pre _ _ Hinv))) as Hs.
  pose proof (live_waiters _ _ _ (ko_sems _ _ Hok) Hlive) as (Hl & Hr & Hw).
  pose proof Hlive as [Hi Hcr]. fold e in Hl, Hr, Hw, Hcr, Hmax.
  destruct (sem_addr_res i Hi) as [Hau Ha0].
  set (s1 := s <| k_status := disabled (k_status s) |>).
  assert (cpu_ok s1) as Hcpu1 by (destruct (ko_cpu _ _ Hok); constructor; [done|by apply disabled_range]).
  set (c1 := setsem i (Semaphore 1 (sem_value e + 1) (sem_creator e)) (core_of s)).
  assert (kinv (core_of (put_core c1 s1)) q) as Hinv1 by (rw core_of_put; by apply kinv_setsem).
  set (e3 := Semaphore 0 (sem_value e + 1) (sem_creator e)).
  assert (csem c1 i = Semaphore 1 (sem_value e + 1) (sem_creator e)) as He1
    by (unfold c1; rw csem_setsem // decide_True //).
  pose proof (sleepq_wake_spec (put_core c1 s1) q (sem_addr i) Hinv1 (cpu_ok_put _ _ Hcpu1)
    (ko_qlock _ _ Hok) (ko_tlock _ _ Hok)) as Hwake.
  cbn zeta in Hwake. rw core_of_put Hau in Hwake. specialize (Hwake Ha0).
  change (waiters c1 q ?r) with (waiters (core_of s) q r) in Hwake.
  assert (semaphore_V i s = ((if decide (sem_value e + 1 ≤ 0) then sleepq_wake (sem_addr i) else mret tt);;
    sem_spinlock_release i;; _interrupt_set_state #k_status (k_status s);; mret tt) (put_core c1 s1))
    as Hrun.
  { unfold semaphore_V. rw (sem_enter_run s i 1) //. fold e s1. rw i32_small; [lia|]. done. }
  destruct (waiters (core_of s) q (sem_addr i)) as [|t rest] eqn:Hwt.
  - split; [simpl in Hw; lia|]. rw Hrun. case_decide; [simpl in Hw; lia|]. rw bind_ret.
    erewrite bind_Done; [|apply sem_release_run; [rw core_of_put; by apply c_sizes_setsem|done]].
    rw core_of_put He1. unfold c1. rw setsem_setsem. split; [apply restore_run, Hok|].
    apply (kernel_ok_core s q); [done|by apply kinv_setsem|].
    apply (sems_ok_change (core_of s) q); try done; [apply Hok|cbn; lia|].
    rw Hwt. cbn. simpl in Hw. lia.
  - destruct Hwake as (c2 & q2 & Hwk & Hinv2 & Hsems2 & Hw2 & Hr2 & Hst2 & Hso2).
    pose proof (qo_sizes _ _ (kp_queues _ _ (ki_pre _ _ Hinv2))) as Hs2.
    assert (∀ j, csem c2 j = csem c1 j) as Hcs by (intros j; unfold csem; by rw Hsems2).
    assert (∀ j, csem (setsem i e3 c2) j = if decide (j = i) then e3 else csem (core_of s) j) as Hcs3.
    { intros j. rw csem_setsem // Hcs. destruct (decide (j = i)); [done|]. unfold c1. rw csem_setsem //.
      by rw decide_False. }
    exists (setsem i e3 c2), q2. split; [simpl in Hw; lia|]. split.
    + rw Hrun. case_decide; [|simpl in Hw; lia]. rw (bind_Done _ _ _ _ _ Hwk).
      erewrite bind_Done; [|apply sem_release_run; [by rw core_of_put|done]].
      rw core_of_put Hcs He1. apply restore_run, Hok.
    + constructor.
      * apply (kernel_ok_core s q); [done|by apply kinv_setsem|].
        apply (sems_ok_change (core_of s) q); try done; [apply Hok| |cbn; lia| |].
        -- intros j Hj. rw Hcs. unfold c1. rw csem_setsem // decide_False //.
        -- rw Hw2 // decide_True //. simpl in Hw. cbn. lia.
        -- intros j Hjo Hj. rw Hw2; [by destruct (sem_addr_res j Hjo)|].
           rw decide_False //. intros Heq. by apply Hj, sem_addr_inj.
      * rw Hcs3. by rw decide_True.
      * intros j Hj. rw Hcs3. by rw decide_False.
      * exact Hw2.
      * exact Hr2.
      * exact Hst2.
      * exact Hso2.
Qed.

(** ** semaphore_create and semaphore_destroy *)

Lemma create_loop_run n s :
  c_sizes (core_of s) → cpu_ok s → 0 ≤ semaphore_next s < CONFIG_MAX_SEMAPHORES →
  ∃ r nx, 0 ≤ nx < CONFIG_MAX_SEMAPHORES ∧
  match r with
  | Some i => sem_ok i ∧ sem_creator (csem (core_of s) i) = -1 ∧
      create_loop n s = Done r
        (put_core (setsem i ((csem (core_of s) i) <| sem_creator := current s |>) (core_of s))
           (s <| semaphore_next := nx |>))
  | None => create_loop n s = Done r (s <| semaphore_next := nx |>) ∧
      ∀ j, 0 ≤ j < Z.of_nat n →
        sem_creator (csem (core_of s) ((semaphore_next s + j) `mod` CONFIG_MAX_SEMAPHORES)) ≠ -1
  end.
Proof.
  unfold CONFIG_MAX_SEMAPHORES. revert s. induction n as [|n IH]; intros s Hs Hcpu Hnx.
  { exists None, (semaphore_next s). split; [done|]. split; [by destruct s|]. lia. }
  cbn [create_loop]. rw bind_gets bind_modify. unfold CONFIG_MAX_SEMAPHORES.
  rw Z.rem_mod_nonneg; [lia..|].
  set (s1 := s <| semaphore_next := (semaphore_next s + 1) `mod` 128 |>).
  assert (core_of s1 = core_of s) as Hc1 by done.
  erewrite bind_Done; [|apply get_sem_run; [done|exact Hnx]]. rw Hc1.
  case_decide as Hcr.
  - exists (Some (semaphore_next s)), ((semaphore_next s + 1) `mod` 128).
    split; [by apply Z.mod_pos_bound|]. split_and!; [exact Hnx|done|].
    assert (cpu_ok s1) as Hcpu1 by by destruct Hcpu.
    erewrite bind_Done; [|by apply thread_get_current_thread_run].
    by erewrite bind_Done; [|apply upd_sem_run].
  - destruct (IH s1) as (r & nx & Hn & Hr); [done|by destruct Hcpu|by apply Z.mod_pos_bound|].
    exists r, nx. split; [done|]. destruct r as [i|].
    + destruct Hr as (Hi & Hfree & Hrun). split_and!; [done..|]. by rw Hrun.
    + destruct Hr as (Hrun & Hall). split; [by rw Hrun|]. intros j Hj.
      destruct (decide (j = 0)) as [->|Hj0].
      * rw Z.add_0_r Z.mod_small //.
      * specialize (Hall (j - 1) ltac:(lia)). change (semaphore_next s1)
          with ((semaphore_next s + 1) `mod` 128) in Hall.
        rw Zplus_mod_idemp_l in Hall. by replace (semaphore_next s + 1 + (j - 1))
          with (semaphore_next s + j) in Hall by lia.
Qed.

Lemma sems_ok_new c q i v cr :
  sems_ok c q → c_sizes c → sem_ok i → sem_creator (csem c i) = -1 → cr ≠ -1 → 0 ≤ v < 2 ^ 31 →
  sems_ok (setsem i (Semaphore 0 v cr) c) q.
Proof.
  intros Hs Hsz Hi Hcr Hcr' Hv j Hj. unfold one_sem_ok. rw csem_setsem // waiters_setsem.
  case_decide as Hd; [|apply (Hs j Hj)]. subst j. cbn. rw decide_False //.
  destruct (Hs i Hi) as (_ & _ & Hw). rw Hw decide_True //. split_and!; [done|lia..].
Qed.

Lemma semaphore_create_run s q v :
  kernel_ok s q → 0 ≤ v < 2 ^ 31 →
  ∃ r nx, 0 ≤ nx < CONFIG_MAX_SEMAPHORES ∧
  match r with
  | Some i => sem_ok i ∧ sem_creator (csem (core_of s) i) = -1 ∧
      semaphore_create v s = Done r
        (put_core (setsem i (Semaphore 0 v (current s)) (core_of s)) (s <| semaphore_next := nx |>))
  | None => semaphore_create v s = Done r (s <| semaphore_next := nx |>) ∧
      ∀ i, sem_ok i → sem_creator (csem (core_of s) i) ≠ -1
  end.
Proof.
  intros Hok Hv. pose proof (qo_sizes _ _ (kp_queues _ _ (ki_pre _ _ (ko_inv _ _ Hok)))) as Hs.
  pose proof (ko_cpu _ _ Hok) as [Hcpu Hst].
  set (s1 := (s <| k_status := disabled (k_status s) |>) <| semaphore_table_slock := 1 |>).
  assert (core_of s1 = core_of s) as Hc1 by done.
  destruct (create_loop_run 128 s1) as (r & nx & Hnx & Hr); [done| |apply (ko_next _ _ Hok)|].
  { constructor; [done|by apply disabled_range]. }
  exists r, nx. split; [done|]. unfold semaphore_create. rw bind_assert; [lia|].
  erewrite bind_Done; [|reflexivity]. rw bind_acquire; [apply (ko_slock _ _ Hok)|].
  change (lset #semaphore_table_slock 1 _) with s1.
  pose proof (ko_slock _ _ Hok) as Hlk. destruct r as [i|].
  - destruct Hr as (Hi & Hfree & Hrun). split_and!; [done..|].
    rw (bind_Done _ _ _ _ _ Hrun) bind_release Hc1. change (current s1) with (current s).
    set (c2 := setsem i _ (core_of s)). set (s2 := s <| semaphore_next := nx |>).
    erewrite (bind_Done _ _ _ _ (put_core c2 s2)).
    2: { unfold _interrupt_set_state. cbn. rw restore_disabled //. f_equal.
         destruct s. simpl in Hlk. subst. reflexivity. }
    assert (c_sizes c2) as Hs2 by by apply c_sizes_setsem.
    erewrite bind_Done; [|apply upd_sem_run; [by rw core_of_put|done]]. rw core_of_put.
    erewrite bind_Done; [|apply upd_sem_run; [rw core_of_put; by apply c_sizes_setsem|done]].
    rw core_of_put csem_setsem // (decide_True (P := i = i)) // setsem_setsem. unfold c2.
    by rw csem_setsem // decide_True // setsem_setsem.
  - destruct Hr as (Hrun & Hall). split.
    + rw (bind_Done _ _ _ _ _ Hrun) bind_release.
      erewrite (bind_Done _ _ _ _ (s <| semaphore_next := nx |>)); [done|].
      unfold _interrupt_set_state. cbn. rw restore_disabled //. f_equal.
      destruct s. simpl in Hlk. subst. reflexivity.
    + intros i Hi. unfold sem_ok in Hi. pose proof (ko_next _ _ Hok) as Hn.
      specialize (Hall ((i - semaphore_next s) `mod` 128)). rw Hc1 in Hall.
      change (semaphore_next s1) with (semaphore_next s) in Hall.
      unfold CONFIG_MAX_SEMAPHORES in *. rw Zplus_mod_idemp_r in Hall.
      replace (semaphore_next s + (i - semaphore_next s)) with i in Hall by lia.
      rw (Z.mod_small i) // in Hall. apply Hall.
      pose proof (Z.mod_pos_bound (i - semaphore_next s) 128). lia.
Qed.

(** ** Properties *)

Lemma semaphore_P_spec s q i :
  kernel_ok s q → running s → live (core_of s) i →
  let a := abs_of (core_of s) q i in
  ∃ s' q', kernel_ok s' q' ∧ live (core_of s') i ∧
    abs_of (core_of s') q' i = spec_P (current s) a ∧
    (∀ j, sem_ok j → j ≠ i → abs_of (core_of s') q' j = abs_of (core_of s) q j) ∧
    q_ready q' = q_ready q ∧ (∀ u, st (core_of s') u = st (core_of s) u) ∧
    if decide (0 < permits a) then
      semaphore_P i s = Done tt s' ∧ k_status s' = k_status s ∧
      ∀ u, so (core_of s') u = so (core_of s) u
    else
      so (core_of s') (current s) = sem_addr i ∧
      ∃ k, semaphore_P i s = Blocked s' k ∧
        ∀ s2, ∃ w, k s2 = Done tt (s2 <| k_status := w |>) ∧
          Z.land w 0xff01 = Z.land (k_status s) 0xff01.
Proof.
  intros Hok Hru Hlive a. unfold spec_P, a, abs_of at 2 4. cbn [permits].
  pose proof (qo_sizes _ _ (kp_queues _ _ (ki_pre _ _ (ko_inv _ _ Hok)))) as Hs.
  pose proof Hlive as [Hi Hcr].
  destruct (decide (0 < sem_value (csem (core_of s) i))) as [Hv|Hv].
  - destruct (semaphore_P_permit s q i Hok Hlive Hv) as [Hrun Hok']. eexists _, q.
    split; [exact Hok'|]. rw core_of_put. unfold live, abs_of.
    rw csem_setsem // decide_True //. cbn [sem_value sem_creator permits queue].
    rw !(decide_True (P := 0 < Z.max _ _)); [lia..|].
    split_and!; try done.
    + f_equal. lia.
    + intros j Hj Hne. rw csem_setsem // decide_False //.
  - destruct (semaphore_P_block s q i Hok Hru Hlive ltac:(lia))
      as (c' & q' & k & Hrun & Hok' & He & Hej & Hw & Hr & Hst & Hso & Hk).
    pose proof (sem_addr_res i Hi) as [_ Ha0].
    eexists (switched (put_core c' _)), q'. rw !(decide_False (P := 0 < Z.max _ _)); [lia..|].
    split; [|split; [|split; [|split; [|split; [exact Hr|split; [|split]]]]]]; last first.
    + exists k. split; [exact Hrun|]. intros s2. destruct (Hk s2) as (w & ? & ? & _). by exists w.
    + change (so c' (current s) = sem_addr i). by rw Hso decide_True.
    + exact Hst.
    + intros j Hj Hne. unfold abs_of. f_equal.
      * change (csem (core_of _) j) with (csem c' j) at 1. by rw Hej.
      * change (waiters c' q' (sem_addr j) = waiters (core_of s) q (sem_addr j)).
        rw Hw; [by destruct (sem_addr_res j Hj)|].
        rw decide_False; [intros Heq; by apply Hne, sem_addr_inj|]. by rw app_nil_r.
    + change (AbsSem (Z.max 0 (sem_value (csem c' i))) (waiters c' q' (sem_addr i)) =
        AbsSem (Z.max 0 (sem_value (csem (core_of s) i))) (waiters (core_of s) q (sem_addr i) ++ [current s])).
      rw He Hw // decide_True //. f_equal. cbn. lia.
    + split; [done|]. change (sem_creator (csem c' i) ≠ -1). by rw He.
    + apply kernel_ok_switched. done.
Qed.

(** C7 (refinement): semaphore_P implements taking a permit. When the semaphore
    has one, the number of permits decreases and the thread goes on. Otherwise
    the thread joins the end of the semaphore's queue and leaves the CPU with
    the lock released; it resumes only to restore its interrupt state. In both
    cases no other semaphore changes and the kernel state, in which the value
    of every semaphore counts its waiting threads, is consistent. *)
Theorem semaphore_P_refines s q i :
  kernel_ok s q → running s → live (core_of s) i →
  let a := abs_of (core_of s) q i in
  ∃ s' q', kernel_ok s' q' ∧ live (core_of s') i ∧
    abs_of (core_of s') q' i = spec_P (current s) a ∧
    (∀ j, sem_ok j → j ≠ i → abs_of (core_of s') q' j = abs_of (core_of s) q j) ∧
    q_ready q' = q_ready q ∧ (∀ u, st (core_of s') u = st (core_of s) u) ∧
    if decide (0 < permits a) then
      semaphore_P i s = Done tt s' ∧ k_status s' = k_status s ∧
      ∀ u, so (core_of s') u = so (core_of s) u
    else
      so (core_of s') (current s) = sem_addr i ∧
      ∃ k, semaphore_P i s = Blocked s' k ∧
        ∀ s2, ∃ w, k s2 = Done tt (s2 <| k_status := w |>) ∧
          Z.land w 0xff01 = Z.land (k_status s) 0xff01.
Proof. apply semaphore_P_spec. Qed.

Lemma semaphore_V_spec s q i :
  kernel_ok s q → live (core_of s) i →
  let a := abs_of (core_of s) q i in
  permits a < 2 ^ 31 - 1 →
  ∃ s' q', semaphore_V i s = Done tt s' ∧ kernel_ok s' q' ∧ live (core_of s') i ∧
    abs_of (core_of s') q' i = spec_V a ∧
    (∀ j, sem_ok j → j ≠ i → abs_of (core_of s') q' j = abs_of (core_of s) q j) ∧
    match queue a with
    | [] => q_ready q' = q_ready q ∧ (∀ u, cthr (core_of s') u = cthr (core_of s) u)
    | t :: _ =>
      q_ready q' = q_ready q ++ (if decide (st (core_of s) t = THREAD_SLEEPING) then [t] else []) ∧
      (∀ u, so (core_of s') u = if decide (u = t) then 0 else so (core_of s) u) ∧
      (∀ u, st (core_of s') u =
        if decide (u = t ∧ st (core_of s) t = THREAD_SLEEPING) then THREAD_READY else st (core_of s) u)
    end.
Proof.
  intros Hok Hlive a Hmax. pose proof Hlive as [Hi Hcr].
  pose proof (qo_sizes _ _ (kp_queues _ _ (ki_pre _ _ (ko_inv _ _ Hok)))) as Hs.
  cbn in Hmax. pose proof (semaphore_V_run s q i Hok Hlive ltac:(lia)) as Hrun. cbn zeta in Hrun.
  unfold spec_V. cbn [queue a abs_of permits].
  destruct (waiters (core_of s) q (sem_addr i)) as [|t rest] eqn:Hwt.
  - destruct Hrun as (Hv & Hrun & Hok'). eexists _, q. split; [exact Hrun|]. split; [exact Hok'|].
    rw core_of_put. unfold live, abs_of. rw csem_setsem // decide_True //.
    cbn [sem_value sem_creator]. rw waiters_setsem Hwt. split_and!; try done.
    + f_equal. lia.
    + intros j Hj Hne. rw csem_setsem // decide_False //.
  - destruct Hrun as (c' & q' & Hv & Hrun & [R1 R2 R3 R4 R5 R6 R7]).
    destruct (sem_addr_res i Hi) as [_ Ha0].
    exists (put_core c' s), q'. rw core_of_put. unfold live, abs_of. rw R2.
    cbn [sem_value sem_creator]. rw R4 // decide_True //. split_and!; try done.
    + f_equal. lia.
    + intros j Hj Hne. rw R3 // R4; [by destruct (sem_addr_res j Hj)|].
      rw decide_False //. intros Heq. by apply Hne, sem_addr_inj.
Qed.

(** C8 (refinement): semaphore_V implements giving a permit. When threads wait,
    the one that has waited longest gets it: it leaves the queue and, if it
    already gave up the CPU, becomes ready; otherwise the number of permits
    increases. No other semaphore and no other thread changes, so no wakeup is
    lost, and the kernel state is consistent. *)
Theorem semaphore_V_refines s q i :
  kernel_ok s q → live (core_of s) i →
  let a := abs_of (core_of s) q i in
  permits a < 2 ^ 31 - 1 →
  ∃ s' q', semaphore_V i s = Done tt s' ∧ kernel_ok s' q' ∧ live (core_of s') i ∧
    abs_of (core_of s') q' i = spec_V a ∧
    (∀ j, sem_ok j → j ≠ i → abs_of (core_of s') q' j = abs_of (core_of s) q j) ∧
    match queue a with
    | [] => q_ready q' = q_ready q ∧ (∀ u, cthr (core_of s') u = cthr (core_of s) u)
    | t :: _ =>
      q_ready q' = q_ready q ++ (if decide (st (core_of s) t = THREAD_SLEEPING) then [t] else []) ∧
      (∀ u, so (core_of s') u = if decide (u = t) then 0 else so (core_of s) u) ∧
      (∀ u, st (core_of s') u =
        if decide (u = t ∧ st (core_of s) t = THREAD_SLEEPING) then THREAD_READY else st (core_of s) u)
    end.
Proof. apply semaphore_V_spec. Qed.

Lemma semaphore_create_spec s q v :
  kernel_ok s q → 0 ≤ v < 2 ^ 31 → current s ≠ -1 →
  ∃ r s', semaphore_create v s = Done r s' ∧ kernel_ok s' q ∧
    c_threads (core_of s') = c_threads (core_of s) ∧
    match r with
    | Some i => sem_creator (csem (core_of s) i) = -1 ∧ live (core_of s') i ∧
        abs_of (core_of s') q i = AbsSem v [] ∧
        ∀ j, j ≠ i → csem (core_of s') j = csem (core_of s) j
    | None => (∀ i, sem_ok i → sem_creator (csem (core_of s) i) ≠ -1) ∧ core_of s' = core_of s
    end.
Proof.
  intros Hok Hv Hcur. pose proof (qo_sizes _ _ (kp_queues _ _ (ki_pre _ _ (ko_inv _ _ Hok)))) as Hs.
  destruct (semaphore_create_run s q v Hok Hv) as (r & nx & Hnx & Hr).
  pose proof Hok as [Hinv [Hc1 Hc2] Hsem K1 K2 K3 K4].
  exists r. destruct r as [i|].
  - destruct Hr as (Hi & Hfree & Hrun). eexists. split; [exact Hrun|].
    assert (sems_ok (setsem i (Semaphore 0 v (current s)) (core_of s)) q) as Hs' by by apply sems_ok_new.
    split; [constructor; rw ?core_of_put; try done; by apply kinv_setsem|].
    rw core_of_put. split; [done|]. split; [done|]. unfold live, abs_of.
    rw csem_setsem // decide_True //. split; [done|]. split.
    + destruct (Hs' i Hi) as (_ & _ & Hl). rw csem_setsem // (decide_True (P := i = i)) // in Hl.
      cbn [sem_creator sem_value] in Hl |- *. destruct (decide (current s = -1)); [done|].
      f_equal; [lia|]. apply nil_length_inv. rw -(waiters_setsem _ _ i (Semaphore 0 v (current s))) Hl. lia.
    + intros j Hj. rw csem_setsem // decide_False //.
  - destruct Hr as (Hrun & Hall). eexists. split; [exact Hrun|]. by split; [constructor|].
Qed.

(** Semaphore_create takes a table entry that is not in use and
    returns a semaphore with the given number of permits, no waiting threads
    and a free lock; it returns NULL only when every entry of the table is in
    use. The semaphores that exist, the threads and the queues do not change. *)
Theorem semaphore_create_fresh s q v :
  kernel_ok s q → 0 ≤ v < 2 ^ 31 → current s ≠ -1 →
  ∃ r s', semaphore_create v s = Done r s' ∧ kernel_ok s' q ∧
    c_threads (core_of s') = c_threads (core_of s) ∧
    match r with
    | Some i => sem_creator (csem (core_of s) i) = -1 ∧ live (core_of s') i ∧
        abs_of (core_of s') q i = AbsSem v [] ∧
        ∀ j, j ≠ i → csem (core_of s') j = csem (core_of s) j
    | None => (∀ i, sem_ok i → sem_creator (csem (core_of s) i) ≠ -1) ∧ core_of s' = core_of s
    end.
Proof. apply semaphore_create_spec. Qed.

(** Destroying a semaphore nobody waits for frees its table entry. *)
Lemma semaphore_destroy_run s q i :
  kernel_ok s q → live (core_of s) i → 0 ≤ sem_value (csem (core_of s) i) →
  let c' := setsem i ((csem (core_of s) i) <| sem_creator := -1 |>) (core_of s) in
  semaphore_destroy i s = Done tt (put_core c' s) ∧ kernel_ok (put_core c' s) q.
Proof.
  intros Hok Hlive Hv c'. pose proof (qo_sizes _ _ (kp_queues _ _ (ki_pre _ _ (ko_inv _ _ Hok)))) as Hs.
  destruct (live_waiters _ _ _ (ko_sems _ _ Hok) Hlive) as (Hl & Hr & Hw). destruct Hlive as [Hi Hcr].
  split; [by apply upd_sem_run|]. apply (kernel_ok_core s q); [done|by apply kinv_setsem, Hok|].
  intros j Hj. unfold one_sem_ok, c'. rw csem_setsem // waiters_setsem.
  case_decide as Hd; [|by apply (ko_sems _ _ Hok)]. subst j.
  change (update sem_creator _ ?e) with (Semaphore (sem_slock e) (sem_value e) (-1)).
  cbn [sem_slock sem_value sem_creator]. rw Hw. split_and!; [done|lia|lia|]. case_decide; lia || done.
Qed.
End semaphore.

(** ** A concrete kernel with one semaphore *)

(** Thread 1 runs; semaphore 5 has one permit. *)
Definition example_sem (v : Z) : kstate :=
  put_core (setsem 5 (Semaphore 0 v 1) (core_of example_running)) example_running.

Lemma example_sem_ok v : 0 ≤ v < 2 ^ 31 → kernel_ok 0x80020000 (example_sem v) (Queues [] (λ _, [])).
Proof.
  intros Hv. pose proof example_running_inv as Hinv.
  assert (sem_ok 5) as H5 by (unfold sem_ok, CONFIG_MAX_SEMAPHORES; lia).
  pose proof (qo_sizes _ _ (kp_queues _ _ (ki_pre _ _ Hinv))) as Hs.
  constructor; try reflexivity.
  - unfold example_sem. rw core_of_put. by apply kinv_setsem.
  - apply cpu_ok_put, example_running_cpu.
  - unfold example_sem. rw core_of_put. apply sems_ok_new; try done.
    intros j Hj. unfold one_sem_ok.
    assert (csem (core_of example_running) j = Semaphore 0 0 (-1)) as ->; [|done].
    unfold csem. change (c_sems (core_of example_running)) with (replicate 128 (Semaphore 0 0 (-1))).
    rw (arr_get_replicate 128 (Semaphore 0 0 (-1)) j); [exact Hj|]. done.
  - change (0 ≤ 0 < 128). lia.
  - change (0 ≤ 0 < 32). lia.
Qed.

Lemma example_sem_live v : live (core_of (example_sem v)) 5.
Proof. split; [unfold sem_ok, CONFIG_MAX_SEMAPHORES; lia|]. change (1 ≠ -1). lia. Qed.

Lemma example_sem_running v : running (example_sem v).
Proof. constructor; [change (1 ≤ 1 < 32); lia|reflexivity|reflexivity]. Qed.

Lemma example_addr :
  0 < 0x80020000 ∧ 0x80020000 + SIZEOF_SEMAPHORE * CONFIG_MAX_SEMAPHORES ≤ 2 ^ 32.
Proof. unfold SIZEOF_SEMAPHORE, CONFIG_MAX_SEMAPHORES. lia. Qed.

Lemma semaphore_P_refines_witness :
  (∃ s', semaphore_P 0x80020000 5 (example_sem 1) = Done tt s') ∧
  (∃ s' k, semaphore_P 0x80020000 5 (example_sem 0) = Blocked s' k).
Proof.
  split.
  - destruct (semaphore_P_refines _ example_addr (example_sem 1) _ 5 (example_sem_ok 1 ltac:(lia))
      (example_sem_running 1) (example_sem_live 1)) as (s' & q' & _ & _ & _ & _ & _ & _ & H).
    destruct (decide _) as [Hd|Hd]; [|exfalso; apply Hd; reflexivity].
    exists s'. apply H.
  - destruct (semaphore_P_refines _ example_addr (example_sem 0) _ 5 (example_sem_ok 0 ltac:(lia))
      (example_sem_running 0) (example_sem_live 0)) as (s' & q' & _ & _ & _ & _ & _ & _ & H).
    destruct (decide _) as [Hd|Hd]; [discriminate Hd|].
    destruct H as (_ & k & H & _). exists s', k. exact H.
Defined.

Lemma semaphore_V_refines_witness :
  ∃ s' q', semaphore_V 0x80020000 5 (example_sem 3) = Done tt s' ∧
    abs_of 0x80020000 (core_of s') q' 5 = AbsSem 4 [].
Proof.
  destruct (semaphore_V_refines _ example_addr (example_sem 3) _ 5 (example_sem_ok 3 ltac:(lia))
    (example_sem_live 3) ltac:(reflexivity)) as (s' & q' & H1 & _ & _ & H2 & _).
  exists s', q'. split; [exact H1|]. rewrite H2. reflexivity.
Defined.

Lemma semaphore_create_fresh_witness :
  ∃ r s', semaphore_create 2 (example_sem 1) = Done r s'.
Proof.
  destruct (semaphore_create_fresh 0x80020000 (example_sem 1) _ 2 (example_sem_ok 1 ltac:(lia)) ltac:(lia)
    ltac:(discriminate)) as (r & s' & H & _).
  exists r, s'. exact H.
Defined.
End Semaphore.
