(* ===== verification/Kservice.v ===== *)
(** * What kernel services need of the kernel core

    [kern_ok]: the invariant of the core together with its CPU and free locks,
    as drivers and processes find it; and the wait every one of them uses:
    sleep on a resource, give up the CPU, continue after a wakeup. *)
From S2P Require Import Prelude Cpu Kstate Queues Kinv Scheduler Sleepq Semaphore.
Import Scheduler Sleepq Semaphore.

(** What a service needs of the kernel core between two of its own services. *)
Record kern_ok (s : kstate) (q : queues) : Prop := {
  kk_inv : kinv (core_of s) q;
  kk_cpu : cpu_ok s;
  kk_tlock : thread_table_slock s = 0;
  kk_qlock : sleepq_slock s = 0;
  kk_tid : 0 ≤ next_tid s < CONFIG_MAX_THREADS }.

(** The kernel core with interrupts disabled. *)
Definition kd (s : kstate) : kstate := s <| k_status := disabled (k_status s) |>.

Lemma kern_ok_status s q x : kern_ok s q → 0 ≤ x < 2 ^ 32 → kern_ok (s <| k_status := x |>) q.
Proof. intros [H1 [H2 H3] H4 H5 H6] Hx. constructor; try done. Qed.
Lemma kern_ok_kd s q : kern_ok s q → kern_ok (kd s) q.
Proof. intros H. apply kern_ok_status; [done|]. apply disabled_range, (co_status _ (kk_cpu _ _ H)). Qed.
Lemma kern_ok_core s q c q' : kern_ok s q → kinv c q' → kern_ok (put_core c s) q'.
Proof. intros [H1 H2 H4 H5 H6] Hc. constructor; try done; [by rw core_of_put|by apply cpu_ok_put]. Qed.
Lemma kern_ok_switched s q : kern_ok s q → kern_ok (switched s) q.
Proof.
  intros [J1 [J2 J3] J4 J5 J6]. constructor; try done. constructor; [done|]. apply lor_range; [lia|done].
Qed.
Lemma running_kd s : running s → running (kd s).
Proof. by intros []. Qed.

Lemma kernel_ok_kern a s q : kernel_ok a s q → kern_ok s q.
Proof. by intros []. Qed.

(** Only the mask and the master bit decide whether interrupts are off. *)
Lemma interrupts_off_mask w x :
  Z.land w 0xff01 = Z.land x 0xff01 → interrupts_off w = interrupts_off x.
Proof.
  intros H. unfold interrupts_off.
  assert (∀ m, Z.land 0xff01 m = m → Z.land w m = Z.land x m) as Hm.
  { intros m <-. by rewrite !Z.land_assoc H. }
  by rw (Hm INTERRUPT_MASK_ALL) // (Hm INTERRUPT_MASK_MASTER).
Qed.

Lemma restored_kd s : 0 ≤ k_status s < 2 ^ 32 →
  _interrupt_set_state #k_status (k_status s) (kd s) = Done (disabled (k_status s)) s.
Proof.
  intros Hw. unfold _interrupt_set_state. cbn. f_equal.
  change (k_status (kd s)) with (disabled (k_status s)). rw restore_disabled //. by destruct s.
Qed.

Lemma thread_switch_blocks s :
  ∃ k, thread_switch s = Blocked (switched s) k ∧
    ∀ t, ∃ x, k t = Done tt (t <| k_status := x |>) ∧ (0 ≤ k_status t < 2 ^ 32 → 0 ≤ x < 2 ^ 32) ∧
      Z.land x 0xff01 = Z.land (k_status s) 0xff01.
Proof.
  eexists. split; [reflexivity|]. intros t. eexists. cbn. split; [reflexivity|].
  split; [intros Ht; by apply set_state_range|apply restore_mask].
Qed.

(** sleepq_add and then thread_switch: the thread waits for [res]; when it runs
    again it continues with interrupts as before. *)
Record slept (kn : kstate) (q : queues) (res : Z) (kn1 : kstate) (q' : queues) (k : kstate → outcome kstate unit) : Prop := {
  sl_add : sleepq_add res kn = Done tt kn1;
  sl_switch : thread_switch kn1 = Blocked (switched kn1) k;
  sl_ok : kern_ok (switched kn1) q';
  sl_waits : waiters (core_of (switched kn1)) q' (u32 res) = waiters (core_of kn) q (u32 res) ++ [current kn];
  sl_others r : r ≠ 0 → r ≠ u32 res → waiters (core_of (switched kn1)) q' r = waiters (core_of kn) q r;
  sl_resume t : 0 ≤ k_status t < 2 ^ 32 →
    ∃ x, k t = Done tt (t <| k_status := x |>) ∧ 0 ≤ x < 2 ^ 32 ∧ interrupts_off x = true }.

Lemma sleep_and_switch kn q res :
  kern_ok kn q → running kn → interrupts_off (k_status kn) = true → u32 res ≠ 0 →
  ∃ kn1 q' k, slept kn q res kn1 q' k.
Proof.
  intros Hk [Hrt Hrs Hrr] Hoff Hres.
  destruct (sleepq_add_spec kn q res (kk_inv _ _ Hk) (kk_cpu _ _ Hk) (kk_qlock _ _ Hk) Hoff Hrt Hrs Hrr Hres)
    as (c' & q' & Hadd & Hinv & _ & Hw & _ & _ & _).
  destruct (thread_switch_blocks (put_core c' kn)) as (k & Hsw & Hres').
  exists (put_core c' kn), q', k. constructor; [done|done| | | |].
  - by apply kern_ok_switched, (kern_ok_core kn q).
  - transitivity (waiters c' q' (u32 res)); [by destruct c'|]. rw Hw //. by rw decide_True.
  - intros r Hr Hne. transitivity (waiters c' q' r); [by destruct c'|]. rw Hw // decide_False //. by rw app_nil_r.
  - intros t Ht. destruct (Hres' t) as (x & Hx & Hr & Hm). exists x. split; [done|]. split.
    + by apply Hr.
    + by rw (interrupts_off_mask x (k_status kn)).
Qed.

(** Fields of a thread that no part of the core refers to. *)
Lemma kinv_pagetable c q t e :
  kinv c q → tid_ok t → t_state e = st c t → t_sleeps_on e = so c t → t_next e = t_next (cthr c t) → kinv (setthr t e c) q.
Proof.
  intros [Hk Hcu] Ht E1 E2 E3. pose proof (kp_queues _ _ Hk) as Hq. pose proof (qo_sizes _ _ Hq) as Hs.
  assert (∀ u, st (setthr t e c) u = st c u ∧ so (setthr t e c) u = so c u) as Hsame.
  { intros u. rw cthr_setthr //. destruct (decide (u = t)) as [->|]; [by subst|done]. }
  assert (queues_ok (setthr t e c) q) as Hq' by (apply queues_ok_setthr; [done|done|by left]).
  constructor.
  - apply (kpre_change c q _ q t); try done.
    destruct (kp_thread c q Hk t), (Hsame t) as [F1 F2]. constructor; rw ?F1 ?F2; done.
  - apply (currents_change c); [done|done|]. intros u. by destruct (Hsame u) as [-> _].
Qed.

(** ** An example

    Thread 1 runs process [p] with the page table at [a]. *)
Definition example_kernel (p a : Z) : kstate :=
  put_core (setthr 1 ((cthr (core_of example_running) 1) <| t_process_id := p |> <| t_pagetable := a |>) (core_of example_running))
    example_running.

Lemma example_kernel_ok p a : kern_ok (example_kernel p a) (Queues [] (λ _, [])).
Proof.
  constructor; try reflexivity.
  - unfold example_kernel. rw core_of_put. apply kinv_pagetable; [exact example_running_inv| |reflexivity..].
    unfold tid_ok, CONFIG_MAX_THREADS. lia.
  - apply cpu_ok_put, example_running_cpu.
  - change (0 ≤ 0 < 32). lia.
Qed.

Lemma example_kernel_running p a : running (example_kernel p a).
Proof. constructor; [change (1 ≤ 1 < 32); lia|reflexivity|reflexivity]. Qed.
