(* ===== verification/Usersem.v ===== *)
(** * Semaphores of user programs (proc/semaphore.c)

    A table of named semaphores, each on top of a kernel semaphore.  Handles are
    pointers into the table: an index, [None] for NULL. *)
From S2P Require Import Prelude Bytes Libc Cpu Kstate Queues Kinv Kservice Semaphore.
Import Libc Semaphore.

Module Usersem.

Definition MAX_USER_SEMAPHORES : Z := 64.
Definition SEMAPHORE_NAME_LENGTH : Z := 20.

Inductive sem_state := USED | FREE.
#[export] Instance sem_state_eq_dec : EqDecision sem_state.
Proof. solve_decision. Defined.

(** user_sem_t; [ksem] is a semaphore of the kernel or NULL. *)
Record user_sem_t := UserSem { ksem : option Z; sid : Z; state : sem_state; name : list Z }.
#[export] Instance eta_user_sem : Eta user_sem_t := fun e => UserSem (ksem e) (sid e) (state e) (name e).

Record usem_t := Usem { kernel : kstate; sem_table : list user_sem_t; sem_table_slock : Z }.
#[export] Instance eta_usem : Eta usem_t := fun s => Usem (kernel s) (sem_table s) (sem_table_slock s).

Abbreviation U A := (M usem_t A).

Definition get_entry (i : Z) : U user_sem_t := fun s => oread (arr_get (sem_table s) i) s.
Definition upd_entry (i : Z) (f : user_sem_t → user_sem_t) : U unit := fun s =>
  match arr_get (sem_table s) i with
  | Some e => Done tt (s <| sem_table := <[Z.to_nat i := f e]> (sem_table s) |>)
  | None => Fault
  end.

Section usersem.
(** The address of the kernel's semaphore table. *)
Variable semaphore_table_addr : Z.

Definition user_semaphore_init : U unit :=
  for_loop (Z.to_nat MAX_USER_SEMAPHORES) 0 (λ i, upd_entry i (λ e, e <| state := FREE |>));;
  spinlock_reset #sem_table_slock.

Definition named_at (i : Z) (name' : list Z) : U bool :=
  e ← get_entry i;
  c ← oread (stringcmp (name e) name');
  mret (bool_decide (c = 0)).

Definition sem_name_exist (name' : list Z) : U Z :=
  found ← find_loop (Z.to_nat MAX_USER_SEMAPHORES) 0 (λ i, named_at i name');
  mret (match found with Some _ => 1 | None => 0 end).

Definition get_sem (name' : list Z) (value : Z) : U Z :=
  intr_status ← zoom #kernel (_interrupt_disable #k_status);
  spinlock_acquire #sem_table_slock;;
  found ← find_loop (Z.to_nat MAX_USER_SEMAPHORES) 0 (λ i,
    e ← get_entry i; mret (bool_decide (state e = FREE)));
  match found with
  | None =>
    spinlock_release #sem_table_slock;;
    zoom #kernel (_interrupt_set_state #k_status intr_status);;
    mret (-1)
  | Some i =>
    upd_entry i (λ e, e <| state := USED |>);;
    upd_entry i (λ e, e <| sid := i |>);;
    k ← zoom #kernel (semaphore_create value);
    upd_entry i (λ e, e <| ksem := k |>);;
    e ← get_entry i;
    n ← oread (stringcopy (name e) name' SEMAPHORE_NAME_LENGTH);
    upd_entry i (λ e, e <| name := n |>);;
    spinlock_release #sem_table_slock;;
    zoom #kernel (_interrupt_set_state #k_status intr_status);;
    mret i
  end.

Definition get_user_sem_sid (i : Z) : U (option Z) := mret (Some i).

Definition get_user_sem_name (name' : list Z) : U (option Z) :=
  found ← find_loop (Z.to_nat MAX_USER_SEMAPHORES) 0 (λ i, named_at i name');
  i ← (match found with Some i => e ← get_entry i; mret (sid e) | None => mret (-1) end);
  mret (if decide (i = -1) then None else Some i).

Definition user_sem_open (name' : list Z) (value : Z) : U (option Z) :=
  if decide (0 ≤ value) then
    exist ← sem_name_exist name';
    if decide (exist ≠ 0) then mret None else
    i ← get_sem name' value;
    if decide (i = -1) then mret None else get_user_sem_sid i
  else get_user_sem_name name'.

(** A NULL [ksem] is dereferenced. *)
Definition kernel_sem (i : Z) : U Z := e ← get_entry i; oread (ksem e).

Definition user_sem_p (handle : option Z) : U Z :=
  match handle with
  | None => mret (-1)
  | Some i => k ← kernel_sem i; zoom #kernel (semaphore_P semaphore_table_addr k);; mret 0
  end.
Definition user_sem_v (handle : option Z) : U Z :=
  match handle with
  | None => mret (-1)
  | Some i => k ← kernel_sem i; zoom #kernel (semaphore_V semaphore_table_addr k);; mret 0
  end.
Definition user_sem_destroy (handle : option Z) : U Z :=
  match handle with
  | None => mret (-1)
  | Some i => k ← kernel_sem i; zoom #kernel (semaphore_destroy k);; mret 0
  end.
End usersem.

(** ** Lookup and creation *)

Definition named (l : list Z) (e : user_sem_t) : Prop := cstr (name e) = Some l.
#[export] Instance named_dec l e : Decision (named l e).
Proof. unfold named. apply _. Defined.

(** The table has its size, and every name is a string in its buffer. *)
Record table_ok (s : usem_t) : Prop := {
  tb_length : length (sem_table s) = 64%nat;
  tb_names : Forall (λ e, length (name e) = 20%nat ∧ is_Some (cstr (name e))) (sem_table s) }.

Lemma find_name s n l :
  table_ok s → cstr n = Some l →
  find_loop (Z.to_nat MAX_USER_SEMAPHORES) 0 (λ i, named_at i n) s =
    Done ((λ r, Z.of_nat r.1) <$> list_find (named l) (sem_table s)) s.
Proof.
  intros [Hl Hn] Hc. change (Z.to_nat MAX_USER_SEMAPHORES) with 64%nat. rw -Hl. apply (find_loop_list (named l)).
  intros i x Hx. unfold named_at. unfold get_entry at 1, mbind at 1, M_bind at 1, arr_get.
  rw decide_True; [lia|]. rw Z.add_0_l Nat2Z.id Hx. cbn [oread].
  rewrite Forall_lookup in Hn. destruct (Hn _ _ Hx) as [_ [lx Hlx]].
  destruct (stringcmp_defined _ _ _ _ Hlx Hc) as [c Hcmp]. cbn [obind mret M_ret]. rw Hcmp bind_oread.
  unfold mret, M_ret. f_equal. pose proof (stringcmp_zero _ _ _ _ Hlx Hc) as Hz. rw Hcmp in Hz.
  apply bool_decide_ext. unfold named. rw Hlx. split; [intros ->|intros [= ->]].
  - f_equal. by apply Hz.
  - destruct Hz as [_ Hz]. by injection (Hz eq_refl).
Qed.

Lemma usersem_find_free s :
  table_ok s →
  find_loop (Z.to_nat MAX_USER_SEMAPHORES) 0 (λ i, e ← get_entry i; mret (bool_decide (state e = FREE))) s =
    Done ((λ r, Z.of_nat r.1) <$> list_find (λ e, state e = FREE) (sem_table s)) s.
Proof.
  intros [Hl _]. change (Z.to_nat MAX_USER_SEMAPHORES) with 64%nat. rw -Hl. apply (find_loop_list (λ e, state e = FREE)).
  intros i x Hx. unfold get_entry, mbind, M_bind, arr_get. rw decide_True; [lia|]. by rw Z.add_0_l Nat2Z.id Hx.
Qed.

Lemma kernel_ok_kd a k q : kernel_ok a k q → kernel_ok a (kd k) q.
Proof. intros [H1 [H2 H3] H4 H5 H6 H7 H8 H9]. constructor; try done. split; [done|by apply disabled_range]. Qed.

Lemma bind_get_entry {A} i e (f : user_sem_t → U A) s :
  arr_get (sem_table s) i = Some e → (get_entry i ≫= f) s = f e s.
Proof. intros He. unfold get_entry, mbind, M_bind. by rw He. Qed.
Lemma bind_upd_entry {A} i g e (f : unit → U A) k t lk :
  arr_get t i = Some e → (upd_entry i g ≫= f) (Usem k t lk) = f tt (Usem k (<[Z.to_nat i := g e]> t) lk).
Proof. intros He. unfold upd_entry, mbind, M_bind. cbn [sem_table]. by rw He. Qed.

Lemma arr_get_upd {A} (t : list A) i x y : arr_get t i = Some y → arr_get (<[Z.to_nat i := x]> t) i = Some x.
Proof. intros Hy. pose proof (arr_get_lt _ _ _ Hy). rw arr_get_insert //. by rw decide_True. Qed.

(** The entry that user_sem_open makes: the name is cut to its buffer. *)
Definition new_entry (r : option Z) (i : Z) (n l : list Z) : user_sem_t :=
  UserSem r i USED (splice n 0 (take 19 l ++ [0])).

Lemma usersem_get_run a k t q n l v i e :
  kernel_ok a k q → 0 ≤ v < 2 ^ 31 → cstr n = Some l → table_ok (Usem k t 0) →
  list_find (λ e, state e = FREE) t = Some (i, e) →
  ∃ r k', get_sem n v (Usem k t 0) = Done (Z.of_nat i) (Usem k' (<[i := new_entry r (Z.of_nat i) (name e) l]> t) 0) ∧
    semaphore_create v (kd k) = Done r (kd k') ∧ k_status k' = k_status k.
Proof.
  intros Hk Hv Hc Ht Hf. pose proof (kernel_ok_kd _ _ _ Hk) as Hkd. pose proof (co_status _ (ko_cpu _ _ _ Hk)) as Hst.
  destruct (semaphore_create_run a (kd k) q v Hkd Hv) as (r & nx & _ & Hr).
  assert (∃ k', semaphore_create v (kd k) = Done r (kd k') ∧ k_status k' = k_status k) as (k' & Hcr & Hks).
  { destruct r as [j|].
    - destruct Hr as (_ & _ & Hr). exists (put_core (setsem j (Semaphore 0 v (current k)) (core_of k)) (k <| semaphore_next := nx |>)). by split.
    - destruct Hr as [Hr _]. exists (k <| semaphore_next := nx |>). by split. }
  exists r, k'. split; [|done].
  pose proof Hf as (He & _)%list_find_Some. assert (arr_get t (Z.of_nat i) = Some e) as Hg by (apply arr_get_Some; rw Nat2Z.id; split; [lia|done]).
  destruct Ht as [Hl Hn]. rewrite Forall_lookup in Hn. destruct (Hn _ _ He) as [Hlen _].
  unfold get_sem. erewrite bind_zoom; [|reflexivity].
  change (lset #kernel _ _) with (Usem (kd k) t 0). rewrite bind_acquire //. change (lset #sem_table_slock 1 _) with (Usem (kd k) t 1).
  rewrite (bind_Done _ _ _ _ _ (usersem_find_free (Usem (kd k) t 1) ltac:(constructor; [done|by rewrite Forall_lookup]))).
  cbn [sem_table]. rewrite Hf. cbn [fmap option_fmap option_map fst].
  rewrite (bind_upd_entry _ _ _ _ _ _ _ Hg). erewrite bind_upd_entry; [|exact (arr_get_upd _ _ _ _ Hg)]. rewrite list_insert_insert_eq.
  erewrite bind_zoom; [|exact Hcr]. change (lset #kernel (kd k') _) with (Usem (kd k') (<[Z.to_nat (Z.of_nat i) := (e <| state := USED |>) <| sid := Z.of_nat i |>]> t) 1).
  erewrite bind_upd_entry; [|exact (arr_get_upd _ _ _ _ Hg)]. rewrite list_insert_insert_eq.
  erewrite bind_get_entry; [|exact (arr_get_upd _ _ _ _ Hg)]. cbn [name].
  rewrite (stringcopy_spec _ _ _ l) //; [cbn; rewrite Hlen; unfold SEMAPHORE_NAME_LENGTH; lia|]. rewrite bind_oread.
  erewrite bind_upd_entry; [|exact (arr_get_upd _ _ _ _ Hg)]. rewrite list_insert_insert_eq bind_release.
  erewrite bind_zoom; [|cbn [lget]; rewrite -Hks; apply restored_kd; by rewrite Hks]. rewrite Nat2Z.id. done.
Qed.

Lemma open_taken n l v s r :
  table_ok s → cstr n = Some l → 0 ≤ v → list_find (named l) (sem_table s) = Some r → user_sem_open n v s = Done None s.
Proof.
  intros Ht Hc Hv Hf. unfold user_sem_open, sem_name_exist. rewrite decide_True // bind_bind.
  rewrite (bind_Done _ _ _ _ _ (find_name _ _ _ Ht Hc)) Hf. done.
Qed.

Lemma open_named n l v s i e :
  table_ok s → cstr n = Some l → v < 0 → list_find (named l) (sem_table s) = Some (i, e) → sid e ≠ -1 →
  user_sem_open n v s = Done (Some (sid e)) s.
Proof.
  intros Ht Hc Hv Hf Hs. unfold user_sem_open, get_user_sem_name. rewrite decide_False; [lia|].
  rewrite (bind_Done _ _ _ _ _ (find_name _ _ _ Ht Hc)) Hf. cbn [fmap option_fmap option_map fst].
  pose proof Hf as (He & _)%list_find_Some. rewrite bind_bind (bind_get_entry _ e).
  { apply arr_get_Some. rw Nat2Z.id. split; [lia|done]. }
  rewrite bind_ret decide_False //.
Qed.

Lemma list_find_new {A} (P : A → Prop) `{∀ x, Decision (P x)} (t : list A) i x :
  list_find P t = None → (i < length t)%nat → P x → list_find P (<[i := x]> t) = Some (i, x).
Proof.
  intros Hn Hi Hx. apply list_find_Some. split; [by apply list_lookup_insert_eq|]. split; [done|].
  intros j y Hj Hlt. rewrite list_lookup_insert_ne in Hj; [lia|].
  apply list_find_None in Hn. rewrite Forall_lookup in Hn. by apply (Hn j).
Qed.

Lemma new_entry_named r i n l : length n = 20%nat → (length l ≤ 19)%nat → 0 ∉ l → named l (new_entry r i n l).
Proof.
  intros Hn Hl H0. unfold named, new_entry. cbn [name]. rewrite take_ge //. unfold splice. cbn. rewrite -app_assoc. by apply cstr_app.
Qed.

(** A user semaphore opened with an initial value under a new name of at
    most 19 characters takes the first free entry and a semaphore of the kernel;
    opening the same name with a negative value then gives that entry again, and
    creating it a second time gives NULL. *)
Theorem user_sem_open_finds a k t q n l v i e :
  kernel_ok a k q → 0 ≤ v < 2 ^ 31 → cstr n = Some l → (length l ≤ 19)%nat → table_ok (Usem k t 0) →
  list_find (named l) t = None → list_find (λ e, state e = FREE) t = Some (i, e) →
  ∃ r k', let s' := Usem k' (<[i := new_entry r (Z.of_nat i) (name e) l]> t) 0 in
    user_sem_open n v (Usem k t 0) = Done (Some (Z.of_nat i)) s' ∧ semaphore_create v (kd k) = Done r (kd k') ∧
    table_ok s' ∧ (∀ w, w < 0 → user_sem_open n w s' = Done (Some (Z.of_nat i)) s') ∧
    ∀ w, 0 ≤ w → user_sem_open n w s' = Done None s'.
Proof.
  intros Hk Hv Hc Hl Ht Hnew Hfree. destruct (usersem_get_run a k t q n l v i e Hk Hv Hc Ht Hfree) as (r & k' & Hrun & Hcr & _).
  exists r, k'. cbn zeta. set (s' := Usem k' _ 0). pose proof Hfree as (He & _)%list_find_Some.
  pose proof Ht as [Hlen Hn]. pose proof Hn as Hn'. rewrite Forall_lookup in Hn'. destruct (Hn' _ _ He) as [Hne _].
  pose proof (new_entry_named r (Z.of_nat i) (name e) l Hne Hl (proj1 (cstr_inv _ _ Hc))) as Hnamed.
  assert (table_ok s') as Ht'.
  { constructor; [cbn; by rewrite length_insert|]. apply Forall_insert; [done|]. split; [|by exists l].
    cbn [name new_entry]. rewrite length_splice //. rewrite length_app length_take Hne. change (length [0]) with 1%nat. lia. }
  assert (list_find (named l) (sem_table s') = Some (i, new_entry r (Z.of_nat i) (name e) l)) as Hfind
    by (apply list_find_new; [done|by apply lookup_lt_Some in He|done]).
  split; [|split; [done|split; [done|split]]]; cycle 1.
  { intros w Hw. apply (open_named _ _ _ _ _ _ Ht' Hc Hw Hfind). cbn. lia. }
  { intros w Hw. by apply (open_taken _ _ _ _ _ Ht' Hc Hw Hfind). }
  unfold user_sem_open, sem_name_exist. rewrite decide_True; [lia|]. rewrite bind_bind (bind_Done _ _ _ _ _ (find_name _ _ _ Ht Hc)).
  cbn [sem_table]. rewrite Hnew bind_ret. destruct (decide (0 ≠ 0)) as [Hx|_]; [done|].
  rewrite (bind_Done _ _ _ _ _ Hrun) decide_False; [lia|]. done.
Qed.

(** Destroying a semaphore keeps its entry: the name stays taken, and it still names
    the semaphore of the kernel that was destroyed. *)
Lemma user_sem_destroy_keeps_entry k t lk i s :
  user_sem_destroy (Some i) (Usem k t lk) = Done 0 s → sem_table s = t.
Proof.
  unfold user_sem_destroy, kernel_sem. rewrite bind_bind. unfold get_entry, mbind at 1, M_bind at 1. cbn [sem_table].
  destruct (arr_get t i) as [e|]; [|done]. cbn [oread obind mret M_ret]. destruct (ksem e) as [j|]; [|done].
  rewrite bind_oread. unfold mbind, M_bind, zoom, semaphore_destroy, upd_sem. cbn [lget kernel].
  destruct (arr_get (semaphore_table k) j); [|done]. by intros [= <-].
Qed.

(** A name of twenty characters is cut: a second semaphore can be made with it. *)
Lemma long_name_not_found k t lk r i n l :
  table_ok (Usem k t lk) → (20 ≤ length l)%nat → length n = 20%nat → list_find (named l) t = None →
  list_find (named l) (<[i := new_entry r (Z.of_nat i) n l]> t) = None.
Proof.
  intros _ Hl Hn Hf. apply list_find_None. apply list_find_None in Hf. apply Forall_insert; [done|].
  unfold named, new_entry. cbn [name]. intros Hc. pose proof (cstr_inv _ _ Hc) as [H0 _].
  unfold splice in Hc. cbn [Z.to_nat take app] in Hc. rewrite -app_assoc /= cstr_app in Hc.
  - intros Hin. apply H0. apply elem_of_take in Hin as (j & Hj & _). apply list_elem_of_lookup. by exists j.
  - injection Hc as Hc. apply (f_equal length) in Hc. rewrite length_take in Hc. lia.
Qed.

(** Before any semaphore is created the empty name is taken, and names entry 0. *)
Lemma empty_name_taken k :
  let s := Usem k (replicate 64 (UserSem None 0 FREE (replicate 20 0))) 0 in
  user_sem_open [0] 1 s = Done None s ∧ user_sem_open [0] (-1) s = Done (Some 0) s.
Proof. done. Qed.

Lemma user_sem_open_finds_witness :
  ∃ s s', user_sem_open (cstring "a") 2 (Usem (example_sem 1) (replicate 64 (UserSem None 0 FREE (replicate 20 0))) 0) = Done (Some 0) s ∧
    user_sem_open (cstring "a") (-1) s = Done (Some 0) s'.
Proof.
  destruct (user_sem_open_finds 0x80020000 (example_sem 1) (replicate 64 (UserSem None 0 FREE (replicate 20 0))) (Queues [] (λ _, []))
    (cstring "a") (text "a") 2 0 (UserSem None 0 FREE (replicate 20 0))) as (r & k' & H1 & _ & _ & H2 & _).
  - apply example_sem_ok. lia.
  - lia.
  - reflexivity.
  - cbn. lia.
  - constructor; [reflexivity|]. apply Forall_replicate. split; [reflexivity|]. by eexists.
  - reflexivity.
  - reflexivity.
  - eexists _, _. split; [exact H1|apply H2; lia].
Defined.
End Usersem.
