(* ===== verification/Thread.v ===== *)
(** * Threads (kernel/thread.c)

    Creation, start and end of kernel threads.  The addresses of the stack
    area, of the idle loop and of thread_finish are link-time facts and
    parameters, as is the assembly routine that enters userland. *)
From Stdlib Require Import FunctionalExtensionality.
From S2P Require Import Prelude Cpu Kstate Queues Kinv Scheduler Sleepq.
Import Scheduler.

Module Thread.

Definition USERLAND_ENABLE_BIT : Z := 0x00000010.
(** Seven words and the padding of nine words. *)
Definition SIZEOF_THREAD_TABLE : Z := 4 * 7 + 4 * 9.

Section thread.
Variables thread_stack_areas idle_loop thread_finish_addr : Z.

Definition stack_context (i : Z) : Z :=
  thread_stack_areas + CONFIG_THREAD_STACKSIZE * i + CONFIG_THREAD_STACKSIZE - SIZEOF_CONTEXT.

Definition set_reg (r v : Z) (c : context_t) : context_t :=
  c <| cpu_regs := <[Z.to_nat r := v]> (cpu_regs c) |>.

Definition thread_table_init : K unit :=
  kernel_assert (bool_decide (SIZEOF_THREAD_TABLE = 64));;
  spinlock_reset #thread_table_slock;;
  for_loop (Z.to_nat CONFIG_MAX_THREADS) 0 (λ i,
    upd_thread i (λ e, e <| t_context := stack_context i |>);;
    upd_thread i (λ e, e <| t_user_context := 0 |>);;
    upd_thread i (λ e, e <| t_state := THREAD_FREE |>);;
    upd_thread i (λ e, e <| t_sleeps_on := 0 |>);;
    upd_thread i (λ e, e <| t_pagetable := 0 |>);;
    upd_thread i (λ e, e <| t_process_id := -1 |>);;
    upd_thread i (λ e, e <| t_next := -1 |>));;
  idle ← get_thread IDLE_THREAD_TID;
  upd_context (t_context idle) (set_reg MIPS_REGISTER_SP
    (u32 (thread_stack_areas + CONFIG_THREAD_STACKSIZE - 4 - SIZEOF_CONTEXT)));;
  upd_context (t_context idle) (λ c, c <| pc := idle_loop |>);;
  upd_context (t_context idle) (λ c, c <| status := Z.lor INTERRUPT_MASK_ALL INTERRUPT_MASK_MASTER |>);;
  upd_thread IDLE_THREAD_TID (λ e, e <| t_state := THREAD_READY |>);;
  upd_context (t_context idle) (λ c, c <| prev_context := t_context idle |>).

(** The initialisation of a new thread's entry and stack, once its slot [tid]
    is reserved. *)
Definition thread_setup (tid func arg : Z) : K unit :=
  upd_thread tid (λ e, e <| t_context := stack_context tid |>);;
  e ← get_thread tid;
  upd_context (t_context e) (λ _, Context (replicate 29 0) 0 0 0 0 0);;
  upd_thread tid (λ e, e <| t_user_context := 0 |>);;
  upd_thread tid (λ e, e <| t_pagetable := 0 |>);;
  upd_thread tid (λ e, e <| t_sleeps_on := 0 |>);;
  upd_thread tid (λ e, e <| t_process_id := -1 |>);;
  upd_thread tid (λ e, e <| t_next := -1 |>);;
  e ← get_thread tid;
  let ctx := t_context e in
  upd_context ctx (λ c, c <| prev_context := ctx |>);;
  upd_context ctx (set_reg MIPS_REGISTER_SP
    (u32 (thread_stack_areas + CONFIG_THREAD_STACKSIZE * tid + CONFIG_THREAD_STACKSIZE - 4 - SIZEOF_CONTEXT)));;
  upd_context ctx (λ c, c <| pc := func |>);;
  upd_context ctx (set_reg MIPS_REGISTER_RA thread_finish_addr);;
  upd_context ctx (set_reg MIPS_REGISTER_A0 arg);;
  upd_context ctx (λ c, set_reg MIPS_REGISTER_SP
    (u32 (default 0 (cpu_regs c !! Z.to_nat MIPS_REGISTER_SP) - 4)) c);;
  upd_context ctx (λ c, c <| status := Z.lor INTERRUPT_MASK_ALL INTERRUPT_MASK_MASTER |>).

Definition thread_create (func arg : Z) : K Z :=
  intr_status ← _interrupt_disable #k_status;
  spinlock_acquire #thread_table_slock;;
  next ← gets next_tid;
  found ← find_loop (Z.to_nat CONFIG_MAX_THREADS) 0 (λ i,
    let t := Z.rem (i + next) CONFIG_MAX_THREADS in
    if decide (t = IDLE_THREAD_TID) then mret false
    else e ← get_thread t; mret (bool_decide (t_state e = THREAD_FREE)));
  match found with
  | None =>
    spinlock_release #thread_table_slock;;
    _interrupt_set_state #k_status intr_status;;
    mret (-1)
  | Some i =>
    let tid := Z.rem (i + next) CONFIG_MAX_THREADS in
    modify (λ s, s <| next_tid := Z.rem (tid + 1) CONFIG_MAX_THREADS |>);;
    upd_thread tid (λ e, e <| t_state := THREAD_NONREADY |>);;
    spinlock_release #thread_table_slock;;
    _interrupt_set_state #k_status intr_status;;
    thread_setup tid func arg;;
    mret tid
  end.

Definition thread_run (t : Z) : K unit := scheduler_add_ready t.

(** The entry is returned by reference: its index. *)
Definition thread_get_current_thread_entry : K Z :=
  intr_status ← _interrupt_disable #k_status;
  cpu ← _interrupt_getcpu;
  t ← get_current cpu;
  _interrupt_set_state #k_status intr_status;;
  mret t.

Section userland.
Variable _cswitch_to_userland : Z → K unit.
Definition thread_goto_userland (usercontext : Z) : K unit :=
  upd_context usercontext (λ c, c <| status := Z.lor (status c) USERLAND_ENABLE_BIT |>);;
  upd_context usercontext (λ c, c <| status := Z.lor (status c) INTERRUPT_MASK_ALL |>);;
  upd_context usercontext (λ c, c <| status := Z.lor (status c) INTERRUPT_MASK_MASTER |>);;
  _cswitch_to_userland usercontext;;
  panic "Userland entering returned for unknown reason.".
End userland.

(** The requested interrupt is taken at once, as in thread_switch. *)
Definition thread_finish : K unit :=
  my_tid ← thread_get_current_thread;
  _interrupt_disable #k_status;;
  e ← get_thread my_tid;
  kernel_assert (bool_decide (t_pagetable e = 0));;
  spinlock_acquire #thread_table_slock;;
  upd_thread my_tid (λ e, e <| t_state := THREAD_DYING |>);;
  spinlock_release #thread_table_slock;;
  _interrupt_enable #k_status;;
  _interrupt_generate_sw0;;
  yield;;
  panic "thread_finish(): thread was not destroyed".

(** ** Running updates of one thread and one context *)

Definition set_ctx (a : Z) (x : context_t) (s : kstate) : kstate :=
  s <| k_contexts := λ b, if decide (b = a) then x else k_contexts s b |>.

Lemma upd_thread_step {A} t f e (k : unit → K A) s c :
  c_sizes c → tid_ok t →
  (upd_thread t f ≫= k) (put_core (setthr t e c) s) = k tt (put_core (setthr t (f e) c) s).
Proof.
  intros Hs Ht. erewrite bind_Done; [|apply upd_thread_run; [rw core_of_put; by apply c_sizes_setthr|done]].
  by rw core_of_put cthr_setthr // decide_True // setthr_setthr.
Qed.

Lemma get_thread_step {A} t e (k : thread_t → K A) s c :
  c_sizes c → tid_ok t →
  (get_thread t ≫= k) (put_core (setthr t e c) s) = k e (put_core (setthr t e c) s).
Proof.
  intros Hs Ht. erewrite bind_Done; [|apply get_thread_run; [rw core_of_put; by apply c_sizes_setthr|done]].
  by rw core_of_put cthr_setthr // decide_True.
Qed.

Lemma upd_context_last a f x s c :
  upd_context a f (put_core c (set_ctx a x s)) = Done tt (put_core c (set_ctx a (f x) s)).
Proof.
  unfold upd_context, modify. f_equal. destruct s. unfold put_core, set_ctx, update. cbn.
  f_equal. apply functional_extensionality. intros b. rw (decide_True (P := a = a)) //.
  by repeat case_decide.
Qed.

Lemma upd_context_step {A} a f x (k : unit → K A) s c :
  (upd_context a f ≫= k) (put_core c (set_ctx a x s)) = k tt (put_core c (set_ctx a (f x) s)).
Proof.
  by erewrite bind_Done; [|apply upd_context_last].
Qed.

(** ** thread_create *)

Definition new_thread (tid : Z) (e : thread_t) : thread_t :=
  Thread (stack_context tid) 0 (t_state e) 0 0 (-1) (-1).

(** The context a new thread starts from. *)
Definition new_context (tid func arg : Z) : context_t :=
  let sp := u32 (thread_stack_areas + CONFIG_THREAD_STACKSIZE * tid + CONFIG_THREAD_STACKSIZE - 4
                 - SIZEOF_CONTEXT) in
  let regs := <[Z.to_nat MIPS_REGISTER_SP := sp]> (replicate 29 0) in
  let regs := <[Z.to_nat MIPS_REGISTER_RA := thread_finish_addr]> regs in
  let regs := <[Z.to_nat MIPS_REGISTER_A0 := arg]> regs in
  Context (<[Z.to_nat MIPS_REGISTER_SP := u32 (sp - 4)]> regs) 0 0 func 0xff01 (stack_context tid).

Lemma thread_setup_run tid func arg c s :
  c_sizes c → tid_ok tid →
  thread_setup tid func arg (put_core c s) =
    Done tt (put_core (setthr tid (new_thread tid (cthr c tid)) c)
      (set_ctx (stack_context tid) (new_context tid func arg) s)).
Proof.
  intros Hs Ht. unfold thread_setup.
  erewrite bind_Done; [|apply upd_thread_run; [by rw core_of_put|done]]. rw core_of_put put_put.
  rw get_thread_step //. cbn [t_context update].
  change (t_context (update t_context _ _)) with (stack_context tid).
  unfold upd_context at 1. rw bind_modify.
  match goal with |- context [_ (update k_contexts ?g (put_core ?c0 s))] =>
    change (update k_contexts g (put_core c0 s))
      with (put_core c0 (set_ctx (stack_context tid) (Context (replicate 29 0) 0 0 0 0 0) s)) end.
  rw !upd_thread_step // get_thread_step //.
  match goal with |- context [put_core (setthr tid ?e c) _] =>
    change e with (new_thread tid (cthr c tid)) end.
  change (t_context (new_thread tid (cthr c tid))) with (stack_context tid). cbn zeta.
  rw !upd_context_step.
  etransitivity; [apply upd_context_last|]. reflexivity.
Qed.

(** The search for a free slot, from [next_tid] on and round the table. *)
Lemma find_slot_run s n :
  c_sizes (core_of s) → 0 ≤ n < CONFIG_MAX_THREADS →
  ∃ r, find_loop (Z.to_nat CONFIG_MAX_THREADS) 0 (λ i,
      let t := Z.rem (i + n) CONFIG_MAX_THREADS in
      if decide (t = IDLE_THREAD_TID) then mret false
      else e ← get_thread t; mret (bool_decide (t_state e = THREAD_FREE))) s = Done r s ∧
    match r with
    | Some i => qtid (Z.rem (i + n) CONFIG_MAX_THREADS) ∧
        st (core_of s) (Z.rem (i + n) CONFIG_MAX_THREADS) = THREAD_FREE
    | None => ∀ t, qtid t → st (core_of s) t ≠ THREAD_FREE
    end.
Proof.
  intros Hs Hn. set (tid := λ i, Z.rem (i + n) CONFIG_MAX_THREADS).
  assert (∀ i, 0 ≤ i → tid_ok (tid i)) as Htid.
  { intros i Hi. unfold tid, tid_ok. rw Z.rem_mod_nonneg; [lia|done|]. by apply Z.mod_pos_bound. }
  destruct (find_loop_pure (Z.to_nat CONFIG_MAX_THREADS) 0 (λ i,
      let t := Z.rem (i + n) CONFIG_MAX_THREADS in
      if decide (t = IDLE_THREAD_TID) then mret false
      else e ← get_thread t; mret (bool_decide (t_state e = THREAD_FREE)))
    (λ i, bool_decide (tid i ≠ IDLE_THREAD_TID ∧ st (core_of s) (tid i) = THREAD_FREE)) s)
    as (r & Hrun & Hr).
  { intros i Hi _. cbn zeta. fold (tid i). case_decide as Hd.
    - rw bool_decide_false //. tauto.
    - erewrite bind_Done; [|apply get_thread_run; [done|apply Htid; lia]].
      unfold mret, M_ret. f_equal. apply bool_decide_ext. tauto. }
  exists r. split; [exact Hrun|]. destruct r as [i|].
  - destruct Hr as (Hi & [Hne Hst]%bool_decide_eq_true & _). fold (tid i).
    pose proof (Htid i ltac:(lia)) as H. split; [unfold qtid, tid_ok, IDLE_THREAD_TID in *; lia|done].
  - intros t Ht Hst. unfold qtid, CONFIG_MAX_THREADS in *.
    specialize (Hr ((t - n) `mod` 32) ltac:(pose proof (Z.mod_pos_bound (t - n) 32); lia)).
    apply bool_decide_eq_false in Hr. apply Hr. unfold tid, CONFIG_MAX_THREADS.
    pose proof (Z.mod_pos_bound (t - n) 32 ltac:(lia)).
    rw Z.rem_mod_nonneg; [lia..|]. rw Zplus_mod_idemp_l. replace (t - n + n) with t by lia.
    rw (Z.mod_small t); [lia|]. unfold IDLE_THREAD_TID. split; [lia|done].
Qed.

(** The two outcomes of thread_create. *)
Definition created_core (tid : Z) (c : core) : core :=
  setthr tid (Thread (stack_context tid) 0 THREAD_NONREADY 0 0 (-1) (-1)) c.

Lemma thread_create_run s func arg :
  c_sizes (core_of s) → cpu_ok s → thread_table_slock s = 0 → 0 ≤ next_tid s < CONFIG_MAX_THREADS →
  let c := core_of s in
  (thread_create func arg s = Done (-1) s ∧ ∀ t, qtid t → st c t ≠ THREAD_FREE) ∨
  (∃ tid nx, qtid tid ∧ st c tid = THREAD_FREE ∧ 0 ≤ nx < CONFIG_MAX_THREADS ∧
     thread_create func arg s =
       Done tid (put_core (created_core tid c)
         (set_ctx (stack_context tid) (new_context tid func arg) (s <| next_tid := nx |>)))).
Proof.
  intros Hs [Hcpu Hst] Hlk Hn c.
  unfold thread_create. erewrite bind_Done; [|reflexivity]. rw bind_acquire //. rw bind_gets.
  set (s1 := lset #thread_table_slock 1 _). assert (core_of s1 = c) as Hc1 by done.
  change (next_tid s1) with (next_tid s).
  destruct (find_slot_run s1 (next_tid s) Hs Hn) as (r & Hrun & Hr).
  erewrite bind_Done; [|exact Hrun]. clear Hrun. destruct r as [i|].
  - right. destruct Hr as [Ht Hfree]. rw Hc1 in Hfree.
    set (tid := Z.rem (i + next_tid s) CONFIG_MAX_THREADS) in *. pose proof (qtid_ok _ Ht) as Ht'.
    rw bind_modify. set (nx := Z.rem (tid + 1) CONFIG_MAX_THREADS). exists tid, nx.
    split; [done|]. split; [done|]. split.
    { unfold nx, tid_ok in *. rw Z.rem_mod_nonneg; [lia|done|]. by apply Z.mod_pos_bound. }
    erewrite bind_Done; [|by apply upd_thread_run]. rw bind_release.
    change (core_of (s1 <| next_tid := nx |>)) with c.
    set (c1 := setthr tid _ c). assert (c_sizes c1) as Hs1 by by apply c_sizes_setthr.
    erewrite (bind_Done _ _ _ _ (put_core c1 (s <| next_tid := nx |>))).
    2: { unfold _interrupt_set_state. cbn. fold (disabled (k_status s)). rw restore_disabled //.
         f_equal. destruct s. simpl in Hlk. subst. reflexivity. }
    erewrite bind_Done; [|by apply thread_setup_run]. unfold mret, M_ret.
    assert (cthr c1 tid = (cthr c tid) <| t_state := THREAD_NONREADY |>) as ->
      by (unfold c1; rw cthr_setthr // decide_True //).
    unfold c1. by rw setthr_setthr.
  - left. rw bind_release.
    erewrite (bind_Done _ _ _ _ s).
    2: { unfold _interrupt_set_state. cbn. fold (disabled (k_status s)). rw restore_disabled //.
         f_equal. destruct s. simpl in Hlk. subst. reflexivity. }
    done.
Qed.

Lemma created_core_ok c q tid :
  kinv c q → qtid tid → st c tid = THREAD_FREE → kinv (created_core tid c) q.
Proof.
  intros Hinv Ht Hst. apply kinv_set_dormant; [done|by apply qtid_ok|by left|by right|done].
Qed.

(** Thread_create gives the new thread a free entry of the
    thread table, never the idle thread's, and fails with -1 exactly when no
    entry is free. The new thread is not schedulable yet, is in no queue, has
    no page table and no process, and its saved context starts the given
    function with the given argument on its own stack, with interrupts enabled
    and thread_finish as return address. Every other thread is unchanged and the
    kernel state stays consistent. *)
Theorem thread_create_free_slot s q func arg :
  kinv (core_of s) q → cpu_ok s → thread_table_slock s = 0 → 0 ≤ next_tid s < CONFIG_MAX_THREADS →
  let c := core_of s in
  ∃ tid s', thread_create func arg s = Done tid s' ∧ kinv (core_of s') q ∧ cpu_ok s' ∧
    thread_table_slock s' = 0 ∧ 0 ≤ next_tid s' < CONFIG_MAX_THREADS ∧
    ((tid = -1 ∧ s' = s ∧ ∀ t, qtid t → st c t ≠ THREAD_FREE) ∨
     (qtid tid ∧ st c tid = THREAD_FREE ∧
      cthr (core_of s') tid = Thread (stack_context tid) 0 THREAD_NONREADY 0 0 (-1) (-1) ∧
      k_contexts s' (stack_context tid) = new_context tid func arg ∧
      ∀ u, u ≠ tid → cthr (core_of s') u = cthr c u)).
Proof.
  intros Hinv Hcpu Hlk Hn c. pose proof (qo_sizes _ _ (kp_queues _ _ (ki_pre _ _ Hinv))) as Hs.
  destruct (thread_create_run s func arg Hs Hcpu Hlk Hn) as [[Hrun Hall]|(tid & nx & Ht & Hfree & Hnx & Hrun)].
  - exists (-1), s. split; [exact Hrun|]. split_and!; try done; try (by destruct Hn). left. by split_and!.
  - exists tid. eexists. split; [exact Hrun|]. rw core_of_put.
    split; [by apply created_core_ok|]. split; [by destruct Hcpu|]. split; [done|]. split; [done|].
    right. pose proof (qtid_ok _ Ht). split_and!; [exact Ht|exact Hfree| | |].
    + unfold created_core. by rw cthr_setthr // decide_True.
    + transitivity (if decide (stack_context tid = stack_context tid)
        then new_context tid func arg else k_contexts s (stack_context tid)); [done|by case_decide].
    + intros u Hu. unfold created_core. by rw cthr_setthr // decide_False.
Qed.

Lemma thread_finish_run s q :
  kinv (core_of s) q → cpu_ok s → thread_table_slock s = 0 → tid_ok (current s) →
  if decide (t_pagetable (cthr (core_of s) (current s)) = 0) then
    ∃ w k, 0 ≤ w < 2 ^ 32 ∧ (∀ s2, k s2 = Panic "thread_finish(): thread was not destroyed") ∧
      thread_finish s =
        Blocked (put_core (set_state THREAD_DYING (current s) (core_of s)) s
                 <| k_status := w |> <| k_cause := Z.lor (k_cause s) 0x100 |>) k
  else thread_finish s = Panic "Assertion failed".
Proof.
  intros Hinv Hcpu Hlk Ht. pose proof (qo_sizes _ _ (kp_queues _ _ (ki_pre _ _ Hinv))) as Hs.
  unfold thread_finish. erewrite bind_Done; [|by apply thread_get_current_thread_run].
  erewrite bind_Done; [|reflexivity]. set (s1 := lset #k_status _ s).
  assert (core_of s1 = core_of s) as Hc1 by done.
  erewrite bind_Done; [|by apply get_thread_run]. rw Hc1. case_decide as Hd.
  - exists (Z.lor 0xff01 (disabled (k_status s))). eexists. split; [|split; [|]].
    + apply lor_range; [lia|]. apply disabled_range, Hcpu.
    + intros s2. reflexivity.
    + rw bind_assert // bind_acquire //.
      erewrite bind_Done; [|by apply upd_thread_run]. rw bind_release.
      erewrite bind_Done; [|reflexivity]. rw bind_modify. cbn. unfold mbind, M_bind, yield. cbn.
      f_equal. destruct s. simpl in Hlk. subst. reflexivity.
  - by rw bind_assert_fails.
Qed.

(** Thread_finish ends the calling thread: with its page table
    destroyed the thread becomes dying and leaves the CPU for good (resuming it
    would stop the kernel), and the kernel state stays consistent; with a page
    table left the kernel stops. *)
Theorem thread_finish_dies s q :
  kinv (core_of s) q → cpu_ok s → thread_table_slock s = 0 → qtid (current s) →
  so (core_of s) (current s) = 0 → st (core_of s) (current s) = THREAD_RUNNING →
  if decide (t_pagetable (cthr (core_of s) (current s)) = 0) then
    ∃ s' k, thread_finish s = Blocked s' k ∧ kinv (core_of s') q ∧ cpu_ok s' ∧
      st (core_of s') (current s) = THREAD_DYING ∧
      (∀ u, u ≠ current s → cthr (core_of s') u = cthr (core_of s) u) ∧
      ∀ s2, k s2 = Panic "thread_finish(): thread was not destroyed"
  else thread_finish s = Panic "Assertion failed".
Proof.
  intros Hinv Hcpu Hlk Ht Hso Hst. pose proof (qtid_ok _ Ht) as Ht'.
  pose proof (qo_sizes _ _ (kp_queues _ _ (ki_pre _ _ Hinv))) as Hs.
  pose proof (thread_finish_run s q Hinv Hcpu Hlk Ht') as Hrun. case_decide; [|exact Hrun].
  destruct Hrun as (w & k & Hw & Hk & Hrun). eexists _, k. split; [exact Hrun|].
  rw core_of_put. split_and!.
  - by apply kinv_dying.
  - destruct Hcpu. by constructor.
  - rw st_set_state // decide_True //.
  - intros u Hu. unfold set_state. by rw cthr_setthr // decide_False.
  - exact Hk.
Qed.
End thread.

(** ** Witnesses *)

Lemma thread_create_free_slot_witness :
  ∃ tid s', thread_create 0x80000000 0x80001000 0x80002000 7 example_state = Done tid s' ∧
    kinv (core_of s') (Queues [] (λ _, [])).
Proof.
  destruct (thread_create_free_slot 0x80000000 0x80001000 example_state (Queues [] (λ _, []))
    0x80002000 7) as (tid & s' & Hrun & Hinv & _).
  - exact example_state_inv.
  - exact example_state_cpu.
  - reflexivity.
  - change (0 ≤ 0 < 32). lia.
  - exists tid, s'. split; [exact Hrun|exact Hinv].
Defined.

Lemma thread_finish_dies_witness :
  ∃ s' k, thread_finish Sleepq.example_running = Blocked s' k ∧ st (core_of s') 1 = THREAD_DYING.
Proof.
  pose proof (thread_finish_dies Sleepq.example_running (Queues [] (λ _, []))
    Sleepq.example_running_inv Sleepq.example_running_cpu eq_refl) as H.
  change (current Sleepq.example_running) with 1 in H.
  specialize (H ltac:(change (1 ≤ 1 < 32); lia) eq_refl eq_refl).
  destruct (decide (t_pagetable (cthr (core_of Sleepq.example_running) 1) = 0)) as [Hd|Hd].
  - destruct H as (s' & k & Hrun & _ & _ & Hst & _). exists s', k. split; [exact Hrun|exact Hst].
  - exfalso. apply Hd. reflexivity.
Defined.
End Thread.
