(* ===== verification/Boot.v ===== *)
(** * Start of the kernel core (init/main.c)

    The initialisation routines of threads, sleep queue, semaphores and
    scheduler, in the order in which init calls them, establish the invariant of
    the kernel core from the zeroed memory the kernel starts with. *)
From S2P Require Import Prelude Cpu Kstate Queues Kinv Scheduler Sleepq Semaphore Thread.
Import Scheduler Sleepq Semaphore Thread.

Module Boot.

(** ** Loops that fill a table *)

Section fill.
Context {A : Type} (F : nat → A → A).

(** The first [i] entries of the table are done. *)
Definition fill (i : nat) (l : list A) : list A :=
  imap (λ j e, if decide (j < i)%nat then F j e else e) l.

Lemma fill_0 l : fill 0 l = l.
Proof.
  unfold fill. apply list_eq. intros j. rw list_lookup_imap.
  by destruct (l !! j).
Qed.

Lemma fill_all l : fill (length l) l = imap F l.
Proof.
  unfold fill. apply imap_ext. intros j e Hj%lookup_lt_Some. by case_decide.
Qed.

Lemma fill_length i l : length (fill i l) = length l.
Proof. apply length_imap. Qed.

Lemma fill_lookup i l : fill i l !! i = l !! i.
Proof.
  unfold fill. rw list_lookup_imap. destruct (l !! i); [|done]. destruct (decide (i < i)%nat); [lia|done].
Qed.

Lemma fill_step i l e : l !! i = Some e → <[i := F i e]> (fill i l) = fill (S i) l.
Proof.
  intros He. apply list_eq. intros j. destruct (decide (j = i)) as [->|Hne].
  - rw list_lookup_insert_eq; [rw fill_length; exact (lookup_lt_Some _ _ _ He)|].
    unfold fill. rw list_lookup_imap He. destruct (decide (i < S i)%nat); [done|lia].
  - rw list_lookup_insert_ne; [congruence|]. unfold fill. rw !list_lookup_imap.
    destruct (l !! j); [|done].
    destruct (decide (j < i)%nat), (decide (j < S i)%nat); first [done|exfalso; lia].
Qed.
End fill.

(** A loop whose body leads from [g i] to [g (i + 1)]. *)
Lemma for_loop_run {S} (g : nat → S) (body : Z → M S unit) n :
  (∀ i, (i < n)%nat → body (Z.of_nat i) (g i) = Done tt (g (1 + i)%nat)) →
  for_loop n 0 body (g 0%nat) = Done tt (g n).
Proof.
  intros Hbody.
  assert (∀ m k, (m + k = n)%nat → for_loop m (Z.of_nat k) body (g k) = Done tt (g n)) as H.
  { induction m as [|m IH]; intros k Hk; simpl.
    - by replace k with n by lia.
    - erewrite bind_Done; [|apply Hbody; lia].
      replace (Z.of_nat k + 1) with (Z.of_nat (1 + k)) by lia. apply IH. lia. }
  apply (H n 0%nat). lia.
Qed.

(** ** The four initialisations *)

Section boot.
Variables thread_stack_areas idle_loop : Z.

Definition free_thread (i : nat) (_ : thread_t) : thread_t :=
  Thread (stack_context thread_stack_areas (Z.of_nat i)) 0 THREAD_FREE 0 0 (-1) (-1).

Definition with_threads (l : list thread_t) (c : core) : core := c <| c_threads := l |>.

Lemma c_sizes_threads l c :
  c_sizes c → length l = length (c_threads c) → c_sizes (with_threads l c).
Proof. intros [] Hl. constructor; unfold with_threads; rsimpl; try done. by rw Hl. Qed.

Lemma thread_entry_run s c i :
  c_sizes c → (i < 32)%nat →
  let g := λ i, put_core (with_threads (fill free_thread i (c_threads c)) c) s in
  (upd_thread (Z.of_nat i) (λ e, e <| t_context := stack_context thread_stack_areas (Z.of_nat i) |>);;
   upd_thread (Z.of_nat i) (λ e, e <| t_user_context := 0 |>);;
   upd_thread (Z.of_nat i) (λ e, e <| t_state := THREAD_FREE |>);;
   upd_thread (Z.of_nat i) (λ e, e <| t_sleeps_on := 0 |>);;
   upd_thread (Z.of_nat i) (λ e, e <| t_pagetable := 0 |>);;
   upd_thread (Z.of_nat i) (λ e, e <| t_process_id := -1 |>);;
   upd_thread (Z.of_nat i) (λ e, e <| t_next := -1 |>)) (g i) = Done tt (g (1 + i)%nat).
Proof.
  intros Hs Hi g. assert (tid_ok (Z.of_nat i)) as Ht by (unfold tid_ok, CONFIG_MAX_THREADS; lia).
  set (c1 := with_threads (fill free_thread i (c_threads c)) c).
  assert (c_sizes c1) as Hs1 by (apply c_sizes_threads; [done|apply fill_length]).
  unfold g at 1. fold c1.
  erewrite bind_Done; [|apply upd_thread_run; [by rw core_of_put|done]]. rw core_of_put put_put.
  rw !upd_thread_step //.
  rw upd_thread_run //; [by rw core_of_put; apply c_sizes_setthr|]. rw core_of_put put_put.
  rw cthr_setthr // decide_True // setthr_setthr. unfold g. do 2 f_equal.
  destruct (arr_get_is_Some (c_threads c) (Z.of_nat i)) as [e He].
  { rw (cs_threads c Hs). exact Ht. }
  apply arr_get_Some in He as [_ He]. rw Nat2Z.id in He.
  unfold setthr, c1, with_threads, update. cbn. f_equal. rw Nat2Z.id.
  exact (fill_step free_thread i _ e He).
Qed.

Lemma thread_loop_run s c :
  c_sizes c →
  for_loop (Z.to_nat CONFIG_MAX_THREADS) 0 (λ i,
    upd_thread i (λ e, e <| t_context := stack_context thread_stack_areas i |>);;
    upd_thread i (λ e, e <| t_user_context := 0 |>);;
    upd_thread i (λ e, e <| t_state := THREAD_FREE |>);;
    upd_thread i (λ e, e <| t_sleeps_on := 0 |>);;
    upd_thread i (λ e, e <| t_pagetable := 0 |>);;
    upd_thread i (λ e, e <| t_process_id := -1 |>);;
    upd_thread i (λ e, e <| t_next := -1 |>)) (put_core c s) =
  Done tt (put_core (with_threads (imap free_thread (c_threads c)) c) s).
Proof.
  intros Hs. assert (length (c_threads c) = 32%nat) as Hl
    by (pose proof (cs_threads c Hs) as H; unfold CONFIG_MAX_THREADS in H; lia).
  rw -(fill_all free_thread) Hl.
  replace (put_core c s) with (put_core (with_threads (fill free_thread 0 (c_threads c)) c) s)
    by (rw fill_0; by destruct c).
  change (Z.to_nat CONFIG_MAX_THREADS) with 32%nat.
  apply (for_loop_run (λ i, put_core (with_threads (fill free_thread i (c_threads c)) c) s)).
  intros i Hi. by apply (thread_entry_run s c i).
Qed.

(** The thread table after thread_table_init. *)
Definition boot_threads (l : list thread_t) : list thread_t :=
  <[0%nat := (free_thread 0 no_thread) <| t_state := THREAD_READY |>]> (imap free_thread l).

Lemma thread_table_init_run s :
  c_sizes (core_of s) →
  ∃ f, thread_table_init thread_stack_areas idle_loop s =
    Done tt (put_core (with_threads (boot_threads (thread_table s)) (core_of s)) s
             <| thread_table_slock := 0 |> <| k_contexts := f |>).
Proof.
  intros Hs. unfold thread_table_init. rw bind_assert //.
  erewrite bind_Done; [|reflexivity].
  set (s1 := lset #thread_table_slock 0 s).
  erewrite bind_Done; [|rw -(put_core_of s1); by apply thread_loop_run].
  set (c1 := with_threads _ _).
  assert (c_sizes c1) as Hs1 by (apply c_sizes_threads; [done|apply length_imap]).
  assert (tid_ok IDLE_THREAD_TID) as H0 by (unfold tid_ok, CONFIG_MAX_THREADS, IDLE_THREAD_TID; lia).
  assert (cthr c1 IDLE_THREAD_TID = free_thread 0 no_thread) as E1.
  { unfold c1, cthr, with_threads, arr_get. rsimpl. destruct (thread_table s) as [|e l] eqn:El; [|done].
    pose proof (cs_threads _ Hs) as H. by rw (El : c_threads (core_of s) = []) in H. }
  erewrite bind_Done; [|apply get_thread_run; [by rw core_of_put|done]]. rw core_of_put.
  unfold upd_context. rw !bind_modify.
  erewrite bind_Done; [|apply upd_thread_run; [exact Hs1|done]].
  eexists. unfold modify. f_equal.
  set (c2 := with_threads (boot_threads (thread_table s)) (core_of s)).
  match goal with |- context [core_of ?x] => change (core_of x) with c1 end.
  rw E1. assert (setthr IDLE_THREAD_TID ((free_thread 0 no_thread) <| t_state := THREAD_READY |>) c1 = c2) as ->.
  { done. }
  reflexivity.
Qed.
End boot.

Lemma imap_const {A} (x : A) l n : length l = n → imap (λ (_ : nat) (_ : A), x) l = replicate n x.
Proof. intros <-. induction l as [|y l IH]; [done|]. simpl. f_equal. exact IH. Qed.

Lemma fill_const {A} (x : A) l n : length l = n → fill (λ _ _, x) n l = replicate n x.
Proof. intros <-. rw fill_all. by apply imap_const. Qed.

Definition with_buckets (l : list Z) (c : core) : core := c <| c_buckets := l |>.
Definition with_current (l : list Z) (c : core) : core := c <| c_current := l |>.
Definition with_sems (l : list semaphore_t) (c : core) : core := c <| c_sems := l |>.

Lemma sleepq_init_run s :
  c_sizes (core_of s) →
  sleepq_init s = Done tt (put_core (with_buckets (replicate 127 (-1)) (core_of s)) s <| sleepq_slock := 0 |>).
Proof.
  intros Hs. assert (length (sleepq_hashtable s) = 127%nat) as Hl
    by (pose proof (cs_buckets _ Hs) as H; change (c_buckets (core_of s)) with (sleepq_hashtable s) in H;
        unfold SLEEPQ_HASHTABLE_SIZE in H; lia).
  set (g := λ i, put_core (with_buckets (fill (λ _ _, -1) i (sleepq_hashtable s)) (core_of s)) s).
  unfold sleepq_init. erewrite (bind_Done _ _ s tt (g 127%nat)).
  - unfold spinlock_reset, modify. f_equal. unfold g.
    rw (fill_const _ _ _ Hl). reflexivity.
  - assert (s = g 0%nat) as E by (unfold g; rw fill_0; by destruct s).
    rw {1}E. change (Z.to_nat SLEEPQ_HASHTABLE_SIZE) with 127%nat. apply for_loop_run. intros i Hi.
    unfold store_bucket, g. cbn [sleepq_hashtable put_core].
    change (c_buckets (with_buckets ?l _)) with l.
    rw arr_set_Some; [rw fill_length Hl; lia|]. rw Nat2Z.id.
    destruct (lookup_lt_is_Some_2 (sleepq_hashtable s) i) as [e He]; [lia|].
    rw (fill_step (λ _ _, -1) i _ e He). reflexivity.
Qed.

Lemma scheduler_init_run s :
  c_sizes (core_of s) →
  scheduler_init s = Done tt (put_core (with_current (replicate 4 0) (core_of s)) s).
Proof.
  intros Hs. assert (length (scheduler_current_thread s) = 4%nat) as Hl
    by (pose proof (cs_cpus _ Hs) as H; change (c_current (core_of s)) with (scheduler_current_thread s) in H;
        unfold CONFIG_MAX_CPUS in H; lia).
  set (g := λ i, put_core (with_current (fill (λ _ _, 0) i (scheduler_current_thread s)) (core_of s)) s).
  replace (put_core (with_current (replicate 4 0) (core_of s)) s) with (g 4%nat)
    by (unfold g; by rw (fill_const _ _ _ Hl)).
  assert (s = g 0%nat) as E by (unfold g; rw fill_0; by destruct s).
  rw {1}E. unfold scheduler_init. change (Z.to_nat CONFIG_MAX_CPUS) with 4%nat.
  apply for_loop_run. intros i Hi. unfold g. cbn [scheduler_current_thread put_core].
  change (c_current (with_current ?l _)) with l.
  rw arr_set_Some; [rw fill_length Hl; lia|]. rw Nat2Z.id.
  destruct (lookup_lt_is_Some_2 (scheduler_current_thread s) i) as [e He]; [lia|].
  rw (fill_step (λ _ _, 0) i _ e He). reflexivity.
Qed.

Definition free_sem (_ : nat) (e : semaphore_t) : semaphore_t := e <| sem_creator := -1 |>.

Lemma semaphore_init_run s :
  c_sizes (core_of s) →
  semaphore_init s =
    Done tt (put_core (with_sems (imap free_sem (semaphore_table s)) (core_of s)) s
             <| semaphore_table_slock := 0 |>).
Proof.
  intros Hs. assert (length (semaphore_table s) = 128%nat) as Hl
    by (pose proof (cs_sems _ Hs) as H; change (c_sems (core_of s)) with (semaphore_table s) in H;
        unfold CONFIG_MAX_SEMAPHORES in H; lia).
  set (s1 := s <| semaphore_table_slock := 0 |>).
  set (g := λ i, put_core (with_sems (fill free_sem i (semaphore_table s)) (core_of s)) s1).
  unfold semaphore_init. erewrite bind_Done; [|reflexivity].
  rw -(fill_all free_sem) Hl.
  match goal with |- _ = Done tt ?x => change x with (g 128%nat) end.
  assert (lset #semaphore_table_slock 0 s = g 0%nat) as -> by (unfold g; rw fill_0; by destruct s).
  change (Z.to_nat CONFIG_MAX_SEMAPHORES) with 128%nat. apply for_loop_run. intros i Hi.
  unfold upd_sem, g. cbn [semaphore_table put_core]. change (c_sems (with_sems ?l _)) with l.
  destruct (lookup_lt_is_Some_2 (semaphore_table s) i) as [e He]; [lia|].
  assert (arr_get (fill free_sem i (semaphore_table s)) (Z.of_nat i) = Some e) as ->.
  { apply arr_get_Some. split; [lia|]. by rw Nat2Z.id fill_lookup. }
  rw Nat2Z.id. change (e <| sem_creator := -1 |>) with (free_sem i e). rw (fill_step free_sem i _ e He).
  reflexivity.
Qed.

(** ** init *)

(** The part of init that sets up the kernel core. *)
Definition init_core (thread_stack_areas idle_loop : Z) : K unit :=
  thread_table_init thread_stack_areas idle_loop;;
  sleepq_init;;
  semaphore_init;;
  scheduler_init.

(** The static data the kernel image starts with. *)
Record powered_up (s : kstate) : Prop := {
  pu_sizes : c_sizes (core_of s);
  pu_cpu : cpu_ok s;
  pu_ready : ready_head s = -1 ∧ ready_tail s = -1;
  pu_sems : semaphore_table s = replicate 128 (Semaphore 0 0 0);
  pu_next : next_tid s = 0 ∧ semaphore_next s = 0 }.

Definition boot_core (thread_stack_areas : Z) (c : core) : core :=
  Core (boot_threads thread_stack_areas (c_threads c)) (replicate 4 0) (c_head c) (c_tail c)
    (replicate 127 (-1)) (imap free_sem (c_sems c)).

Lemma cthr_boot a c t :
  c_sizes c → tid_ok t →
  cthr (boot_core a c) t =
    Thread (stack_context a t) 0 (if decide (t = 0) then THREAD_READY else THREAD_FREE) 0 0 (-1) (-1).
Proof.
  intros Hs Ht. unfold cthr, boot_core, boot_threads. cbn [c_threads].
  pose proof (cs_threads c Hs) as Hl. unfold tid_ok in Ht.
  destruct (lookup_lt_is_Some_2 (c_threads c) (Z.to_nat t)) as [e He]; [lia|].
  unfold arr_get. rw decide_True; [lia|]. destruct (decide (t = 0)) as [->|Hne].
  - change (Z.to_nat 0) with 0%nat. rw list_lookup_insert_eq; [rw length_imap; lia|]. done.
  - rw list_lookup_insert_ne; [lia|]. rw list_lookup_imap He. simpl. unfold free_thread.
    by rw Z2Nat.id; [lia|].
Qed.

Lemma init_core_run a idle s :
  c_sizes (core_of s) →
  ∃ f, init_core a idle s =
    Done tt (put_core (boot_core a (core_of s)) s <| thread_table_slock := 0 |> <| k_contexts := f |>
             <| sleepq_slock := 0 |> <| semaphore_table_slock := 0 |>).
Proof.
  intros Hs. destruct (thread_table_init_run a idle s Hs) as [f Hrun]. exists f.
  unfold init_core. rw (bind_Done _ _ _ _ _ Hrun). clear Hrun.
  set (s1 := put_core _ _).
  assert (c_sizes (core_of s1)) as Hs1.
  { apply (c_sizes_threads (boot_threads a (thread_table s)) (core_of s)); [exact Hs|]. unfold boot_threads. rw length_insert length_imap. done. }
  rw (bind_Done _ _ _ _ _ (sleepq_init_run s1 Hs1)). set (s2 := put_core _ _).
  assert (c_sizes (core_of s2)) as Hs2 by (destruct Hs1; by constructor).
  rw (bind_Done _ _ _ _ _ (semaphore_init_run s2 Hs2)). set (s3 := put_core _ _).
  assert (c_sizes (core_of s3)) as Hs3.
  { destruct Hs2. constructor; try done. cbn. by rw length_imap. }
  rw (scheduler_init_run s3 Hs3). reflexivity.
Qed.

Lemma boot_core_ok a s :
  powered_up s → kinv (boot_core a (core_of s)) (Queues [] (λ _, [])).
Proof.
  intros [Hs _ [Hh Ht] _ _].
  assert (∀ t, ¬ tid_ok t → cthr (boot_core a (core_of s)) t = no_thread) as Hout.
  { intros t Hn. unfold cthr, boot_core, boot_threads. cbn [c_threads].
    destruct (arr_get _ t) as [e|] eqn:E; [|done]. exfalso. apply Hn.
    apply arr_get_lt in E. rw length_insert length_imap (cs_threads _ Hs) in E. exact E. }
  apply kinv_boot; [|exact Hh|exact Ht|reflexivity|reflexivity| | |].
  - destruct Hs. constructor; try done; cbn; rw ?length_imap //.
    unfold boot_threads. by rw length_insert length_imap.
  - intros t. destruct (decide (tid_ok t)) as [Ho|Ho]; [by rw cthr_boot|by rw Hout].
  - by rw cthr_boot.
  - intros t Hq. left. rw cthr_boot //; [by apply qtid_ok|]. simpl. unfold qtid in Hq. case_decide; [lia|done].
Qed.

Lemma boot_sems_ok sa a s :
  powered_up s → sems_ok sa (boot_core a (core_of s)) (Queues [] (λ _, [])) ∧
  ∀ i, ¬ live (boot_core a (core_of s)) i.
Proof.
  intros [_ _ _ Hsem _].
  assert (∀ i, sem_ok i → csem (boot_core a (core_of s)) i = Semaphore 0 0 (-1)) as H.
  { intros i Hi. unfold csem, boot_core. cbn [c_sems]. change (c_sems (core_of s)) with (semaphore_table s).
    rw Hsem. unfold sem_ok, CONFIG_MAX_SEMAPHORES in Hi. unfold arr_get. rw decide_True; [lia|].
    rw list_lookup_imap lookup_replicate_2; [lia|]. done. }
  split.
  - intros i Hi. unfold one_sem_ok. rw (H i Hi). done.
  - intros i [Hi Hc]. by rw (H i Hi) in Hc.
Qed.

Lemma boot_kernel_ok sa a f s :
  powered_up s →
  kernel_ok sa (put_core (boot_core a (core_of s)) s <| thread_table_slock := 0 |> <| k_contexts := f |>
    <| sleepq_slock := 0 |> <| semaphore_table_slock := 0 |>) (Queues [] (λ _, [])).
Proof.
  intros Hpu. destruct (boot_sems_ok sa a s Hpu) as [Hsem _]. pose proof (boot_core_ok a s Hpu) as Hinv.
  destruct Hpu as [Hs [Hc Hst] _ _ [Hn1 Hn2]]. constructor; try done.
  - change (0 ≤ semaphore_next s < 128). rw Hn2. lia.
  - change (0 ≤ next_tid s < 32). rw Hn1. lia.
Qed.

(** The initialisations of threads, sleep queue, semaphores and
    scheduler, in the order of init, return and turn the memory the kernel image
    starts with into a consistent kernel state: no thread is queued or waiting,
    the idle thread runs on every CPU, every other thread is free and no
    semaphore is in use. *)
Theorem init_core_consistent sa a idle s :
  powered_up s →
  ∃ s', init_core a idle s = Done tt s' ∧ kernel_ok sa s' (Queues [] (λ _, [])) ∧
    (∀ cpu, ccur (core_of s') cpu = 0) ∧
    (∀ t, tid_ok t → cthr (core_of s') t =
      Thread (stack_context a t) 0 (if decide (t = 0) then THREAD_READY else THREAD_FREE) 0 0 (-1) (-1)) ∧
    ∀ i, ¬ live (core_of s') i.
Proof.
  intros Hpu. destruct (init_core_run a idle s (pu_sizes _ Hpu)) as [f Hrun].
  eexists. split; [exact Hrun|]. destruct (boot_sems_ok sa a s Hpu) as [Hsem Hlive].
  split; [|split; [|split]].
  - by apply boot_kernel_ok.
  - intros cpu. unfold ccur. change (c_current _) with (replicate 4 0).
    destruct (arr_get (replicate 4 0) cpu) as [x|] eqn:E; [|done].
    apply arr_get_Some in E as [_ E]. by apply lookup_replicate in E as [-> _].
  - intros t Ht. by apply cthr_boot; [apply Hpu|].
  - exact Hlive.
Qed.

Definition example_image : kstate :=
  Kstate 0 0 0 0 0 (replicate 32 (Thread 0 0 THREAD_FREE 0 0 0 0)) 0 0 (λ _, Context [] 0 0 0 0 0)
    (replicate 4 0) (-1) (-1) (replicate 127 0) 0 (replicate 128 (Semaphore 0 0 0)) 0 0.

Lemma example_image_up : powered_up example_image.
Proof.
  by constructor.
Qed.

Lemma init_core_consistent_witness :
  ∃ s', init_core 0x80000000 0x80001000 example_image = Done tt s' ∧
    kernel_ok 0x80020000 s' (Queues [] (λ _, [])).
Proof.
  destruct (init_core_consistent 0x80020000 0x80000000 0x80001000 example_image example_image_up)
    as (s' & Hrun & Hok & _).
  exists s'. split; [exact Hrun|exact Hok].
Defined.
End Boot.
