(* ===== verification/Kernel.v ===== *)
(** * The kernel core as a machine

    Threads call the services of the kernel in any order and on any CPU;
    interrupts run the scheduler.  A step is one service up to its end or to
    the point where it gives up the CPU, one run of the scheduler, or the rest of
    a service that gave up the CPU.  The theorems hold of every state that such
    steps reach from the start of the kernel ([Boot.init_core]). *)
From S2P Require Import Prelude Cpu Kstate Queues Kinv Scheduler Sleepq Semaphore Thread Boot.
Import Scheduler Sleepq Semaphore Thread Boot.

Module Kernel.

(** ** Services *)

Inductive service :=
| SemCreate (value : Z) | SemDestroy (i : Z) | SemP (i : Z) | SemV (i : Z)
| ThreadCreate (func arg : Z) | ThreadRun (t : Z) | ThreadFinish | ThreadSwitch
| Sleep (resource : Z) | Wake (resource : Z) | WakeAll (resource : Z).

Section kernel.
Variables semaphore_table_addr thread_stack_areas thread_finish_addr : Z.

(** How the kernel waits for a resource: see process_join and tty_read. *)
Definition sleep_on (resource : Z) : K unit :=
  intr_status ← _interrupt_disable #k_status;
  sleepq_add resource;;
  thread_switch;;
  _interrupt_set_state #k_status intr_status;;
  mret tt.

Definition exec (o : service) : K Z :=
  match o with
  | SemCreate value => r ← semaphore_create value; mret (default (-1) r)
  | SemDestroy i => semaphore_destroy i;; mret 0
  | SemP i => semaphore_P semaphore_table_addr i;; mret 0
  | SemV i => semaphore_V semaphore_table_addr i;; mret 0
  | ThreadCreate func arg => thread_create thread_stack_areas thread_finish_addr func arg
  | ThreadRun t => thread_run t;; mret 0
  | ThreadFinish => thread_finish;; mret 0
  | ThreadSwitch => thread_switch;; mret 0
  | Sleep resource => sleep_on resource;; mret 0
  | Wake resource => sleepq_wake resource;; mret 0
  | WakeAll resource => sleepq_wake_all resource;; mret 0
  end.

(** Services only a thread may call; the others are also called during boot and
    from interrupt handlers. *)
Definition needs_thread (o : service) : bool :=
  match o with SemP _ | ThreadFinish | ThreadSwitch | Sleep _ => true | _ => false end.

(** A sleep queue key that is not the address of a semaphore. *)
Definition other_resource (r : Z) : Prop :=
  u32 r ≠ 0 ∧ ∀ i, sem_ok i → u32 r ≠ sem_addr semaphore_table_addr i.

(** What the caller of a service guarantees. *)
Definition allowed (s : kstate) (o : service) : Prop :=
  match o with
  | SemCreate value => 0 ≤ value < 2 ^ 31
  | SemDestroy i => live (core_of s) i ∧ 0 ≤ sem_value (csem (core_of s) i)
  | SemP i => live (core_of s) i
  | SemV i => live (core_of s) i ∧ sem_value (csem (core_of s) i) < 2 ^ 31 - 1
  | ThreadRun t => qtid t ∧ st (core_of s) t = THREAD_NONREADY
  | ThreadFinish => t_pagetable (cthr (core_of s) (current s)) = 0
  | Sleep r | Wake r | WakeAll r => other_resource r
  | ThreadCreate _ _ | ThreadSwitch => True
  end.

(** ** The machine *)

(** The rest of a service that gave up the CPU; it continues once the scheduler
    has run on that CPU and has chosen the thread again. *)
Record pending := Pending { p_switched : bool; p_rest : kstate → outcome kstate Z }.

Record machine := Machine {
  m_kernel : kstate;
  m_pending : gmap Z pending;
  m_trace : list (service * Z) }.

Definition switch_out (t : Z) (p : gmap Z pending) : gmap Z pending :=
  alter (λ x, Pending true (p_rest x)) t p.

(** The thread of this CPU is between two services. *)
Definition caller (m : machine) : Prop :=
  let s := m_kernel m in
  qtid (current s) ∧ st (core_of s) (current s) = THREAD_RUNNING ∧ m_pending m !! current s = None.

Inductive step : machine → machine → Prop :=
| step_cpu m cpu status :
    0 ≤ cpu < CONFIG_MAX_CPUS → 0 ≤ status < 2 ^ 32 →
    step m (Machine ((m_kernel m) <| this_cpu := cpu |> <| k_status := status |>) (m_pending m) (m_trace m))
| step_schedule m s' :
    scheduler_schedule (m_kernel m) = Done tt s' →
    step m (Machine s' (switch_out (current (m_kernel m)) (m_pending m)) (m_trace m))
| step_call m o r s' :
    allowed (m_kernel m) o → (needs_thread o = true → caller m) →
    exec o (m_kernel m) = Done r s' →
    step m (Machine s' (m_pending m) ((o, r) :: m_trace m))
| step_block m o s' k :
    allowed (m_kernel m) o → (needs_thread o = true → caller m) → o ≠ ThreadFinish →
    exec o (m_kernel m) = Blocked s' k →
    step m (Machine s' (<[current (m_kernel m) := Pending false k]> (m_pending m)) ((o, 0) :: m_trace m))
| step_finish m s' k :
    allowed (m_kernel m) ThreadFinish → caller m →
    exec ThreadFinish (m_kernel m) = Blocked s' k →
    step m (Machine s' (m_pending m) ((ThreadFinish, 0) :: m_trace m))
| step_resume m k r s' :
    qtid (current (m_kernel m)) → st (core_of (m_kernel m)) (current (m_kernel m)) = THREAD_RUNNING →
    m_pending m !! current (m_kernel m) = Some (Pending true k) →
    k (m_kernel m) = Done r s' →
    step m (Machine s' (delete (current (m_kernel m)) (m_pending m)) (m_trace m)).

Inductive reachable : machine → Prop :=
| reach_boot idle_loop s0 s :
    powered_up s0 → init_core thread_stack_areas idle_loop s0 = Done tt s →
    reachable (Machine s ∅ [])
| reach_step m m' : reachable m → step m m' → reachable m'.

(** ** The ledger of a semaphore: initial value, number of P and of V *)

Definition ledger_step (e : service * Z) (l : Z → option (Z * Z * Z)) (i : Z) : option (Z * Z * Z) :=
  match e with
  | (SemCreate v, r) => if decide (r = i) then Some (v, 0, 0) else l i
  | (SemDestroy j, _) => if decide (j = i) then None else l i
  | (SemP j, _) => if decide (j = i) then '(v, p, n) ← l i; Some (v, p + 1, n) else l i
  | (SemV j, _) => if decide (j = i) then '(v, p, n) ← l i; Some (v, p, n + 1) else l i
  | _ => l i
  end.

Definition ledger (tr : list (service * Z)) : Z → option (Z * Z * Z) :=
  foldr ledger_step (λ _, None) tr.

Definition matches (e : semaphore_t) (l : option (Z * Z * Z)) : Prop :=
  match l with
  | None => sem_creator e = -1
  | Some (v, p, n) => sem_creator e ≠ -1 ∧ sem_value e = v - p + n
  end.

Context (Haddr : 0 < semaphore_table_addr ∧
  semaphore_table_addr + SIZEOF_SEMAPHORE * CONFIG_MAX_SEMAPHORES ≤ 2 ^ 32).
Abbreviation kok s q := (kernel_ok semaphore_table_addr s q).
Abbreviation saddr i := (sem_addr semaphore_table_addr i).

(** ** What one service does to the kernel *)

(** Threads outside [x] do not start to wait and sleepers stay asleep; the
    semaphores change as the ledger says. *)
Record effect (x : Z → Prop) (s s' : kstate) (q' : queues) (e : service * Z) : Prop := {
  ef_ok : kok s' q';
  ef_wait t : ¬ x t → so (core_of s') t ≠ 0 →
    so (core_of s) t ≠ 0 ∧ (st (core_of s) t = THREAD_SLEEPING → st (core_of s') t = THREAD_SLEEPING);
  ef_sems l : (∀ i, sem_ok i → matches (csem (core_of s) i) (l i)) →
    ∀ i, sem_ok i → matches (csem (core_of s') i) (ledger_step e l i) }.

(** The rest of a service only restores the interrupt state. *)
Definition resumes (k : kstate → outcome kstate Z) : Prop :=
  ∀ s, ∃ r w, k s = Done r (s <| k_status := w |>) ∧ (0 ≤ k_status s < 2 ^ 32 → 0 ≤ w < 2 ^ 32).

Definition serves (s : kstate) (o : service) : Prop :=
  match exec o s with
  | Done r s' => ∃ q', effect (λ _, False) s s' q' (o, r)
  | Blocked s' k =>
      needs_thread o = true ∧ (o ≠ ThreadFinish → resumes k) ∧
      ∃ q', effect (λ t, o ≠ ThreadFinish ∧ t = current s) s s' q' (o, 0)
  | _ => False
  end.

(** Services that leave the semaphores alone. *)
Lemma sems_same (s s' : kstate) e l :
  semaphore_table s' = semaphore_table s → (∀ i, ledger_step e l i = l i) →
  (∀ i, sem_ok i → matches (csem (core_of s) i) (l i)) →
  ∀ i, sem_ok i → matches (csem (core_of s') i) (ledger_step e l i).
Proof.
  intros Ht He H i Hi. rw He. specialize (H i Hi). unfold csem in *.
  change (c_sems (core_of s')) with (semaphore_table s'). by rw Ht.
Qed.

Lemma sems_frame c q c' q' :
  sems_ok semaphore_table_addr c q → c_sems c' = c_sems c →
  (∀ i, sem_ok i → waiters c' q' (saddr i) = waiters c q (saddr i)) →
  sems_ok semaphore_table_addr c' q'.
Proof.
  intros H Hs Hw i Hi. destruct (H i Hi) as (H1 & H2 & H3). unfold one_sem_ok.
  rw Hw //. by rw (_ : csem c' i = csem c i); [unfold csem; by rw Hs|].
Qed.

Lemma addr_of i : sem_ok i → u32 (saddr i) = saddr i ∧ saddr i ≠ 0.
Proof. intros Hi. by apply sem_addr_res. Qed.

Lemma sizes s q : kok s q → c_sizes (core_of s).
Proof. intros H. exact (qo_sizes _ _ (kp_queues _ _ (ki_pre _ _ (ko_inv _ _ _ H)))). Qed.

Lemma current_tid s q : kok s q → tid_ok (current s).
Proof. intros H. apply (cu_tid _ _ (ki_current _ _ (ko_inv _ _ _ H))), H. Qed.

(** One entry of the semaphore table changes as the ledger does. *)
Lemma sems_one (c c' : core) e l i v :
  (∀ j, j ≠ i → csem c' j = csem c j) → (∀ j, j ≠ i → ledger_step e l j = l j) →
  csem c' i = v → (matches (csem c i) (l i) → matches v (ledger_step e l i)) →
  (∀ j, sem_ok j → matches (csem c j) (l j)) →
  ∀ j, sem_ok j → matches (csem c' j) (ledger_step e l j).
Proof.
  intros H1 H2 Hv Hm H j Hj. destruct (decide (j = i)) as [->|Hne].
  - rw Hv. auto.
  - rw H1 // H2 //. auto.
Qed.

Lemma serves_create s q v : kok s q → allowed s (SemCreate v) → serves s (SemCreate v).
Proof.
  intros Hok Hv. unfold serves, exec.
  destruct (semaphore_create_run semaphore_table_addr s q v Hok Hv) as (r & nx & Hnx & Hr).
  pose proof (current_tid _ _ Hok) as Hcur. unfold tid_ok in Hcur.
  pose proof (sizes _ _ Hok) as Hs. pose proof Hok as [Hinv Hcpu Hsem K1 K2 K3 K4 K5].
  destruct r as [i|].
  - destruct Hr as (Hi & Hfree & Hrun). rw (bind_Done _ _ _ _ _ Hrun). exists q.
    set (e := Semaphore 0 v (current s)).
    constructor.
    + constructor; rw ?core_of_put; try done; [by apply kinv_setsem|by destruct Hcpu|].
      apply sems_ok_new; try done. lia.
    + intros t _ Hso. split; [exact Hso|auto].
    + intros l. rw core_of_put. apply (sems_one _ _ _ _ i e).
      * intros j Hj. rw csem_setsem // decide_False //.
      * intros j Hj. simpl. rw decide_False //. congruence.
      * rw csem_setsem // decide_True //.
      * intros _. simpl. rw decide_True //. split; [simpl; lia|simpl; lia].
  - destruct Hr as (Hrun & _). rw (bind_Done _ _ _ _ _ Hrun). exists q. constructor.
    + constructor; try done. by destruct Hcpu.
    + intros t _ Hso. split; [exact Hso|auto].
    + intros l H i Hi. simpl. rw decide_False; [unfold sem_ok in Hi; lia|]. by apply H.
Qed.

Lemma serves_destroy s q i : kok s q → allowed s (SemDestroy i) → serves s (SemDestroy i).
Proof.
  intros Hok [Hlive Hv]. unfold serves, exec. pose proof (sizes _ _ Hok) as Hs.
  destruct (semaphore_destroy_run semaphore_table_addr s q i Hok Hlive Hv) as [Hrun Hok'].
  rw (bind_Done _ _ _ _ _ Hrun). exists q. destruct Hlive as [Hi Hc]. constructor; [done| |].
  - intros t _ Hso. split; [exact Hso|auto].
  - intros l. rw core_of_put.
    eapply (sems_one _ _ _ _ i ((csem (core_of s) i) <| sem_creator := -1 |>)).
    + intros j Hj. rw csem_setsem // decide_False //.
    + intros j Hj. simpl. rw decide_False //. congruence.
    + rw csem_setsem // decide_True //.
    + intros _. simpl. rw decide_True //.
Qed.

Lemma ledger_same o r l i : (match o with SemP j | SemV j | SemDestroy j => j ≠ i | SemCreate _ => False | _ => True end) →
  ledger_step (o, r) l i = l i.
Proof. destruct o; simpl; intros; try done; rw decide_False //. Qed.

Lemma resumes_then k :
  (∀ s, ∃ w, k s = Done tt (s <| k_status := w |>) ∧ (0 ≤ k_status s < 2 ^ 32 → 0 ≤ w < 2 ^ 32)) →
  resumes (λ s, obind (λ _ : unit, mret 0) (k s)).
Proof. intros H s. destruct (H s) as (w & Hk & Hw). exists 0, w. by rw Hk. Qed.

Lemma core_switched c s : core_of (switched (put_core c s)) = c.
Proof. exact (core_of_put c s). Qed.

Lemma serves_P s q i : kok s q → running s → allowed s (SemP i) → serves s (SemP i).
Proof.
  intros Hok Hru Hlive. unfold serves, exec. pose proof (sizes _ _ Hok) as Hs. pose proof Hlive as [Hi Hc].
  set (e := csem (core_of s) i) in *.
  assert (∀ r l v, v = Semaphore 0 (sem_value e - 1) (sem_creator e) →
    matches e (l i) → matches v (ledger_step (SemP i, r) l i)) as Hm.
  { intros r l v -> Hm. simpl. rw decide_True //. destruct (l i) as [[[v p] n]|]; [|exact Hm].
    simpl in *. destruct Hm as [? ->]. split; [done|lia]. }
  destruct (decide (0 < sem_value e)) as [Hv|Hv].
  - destruct (semaphore_P_permit _ s q i Hok Hlive Hv) as [Hrun Hok'].
    rw (bind_Done _ _ _ _ _ Hrun). exists q. constructor; [done| |].
    + intros t _ Hso. split; [exact Hso|auto].
    + intros l. rw core_of_put. apply (sems_one _ _ _ _ i (Semaphore 0 (sem_value e - 1) (sem_creator e))).
      * intros j Hj. rw csem_setsem // decide_False //.
      * intros j Hj. apply ledger_same. congruence.
      * rw csem_setsem; [done..|]. by rw decide_True.
      * by apply Hm.
  - destruct (semaphore_P_block _ Haddr s q i Hok Hru Hlive ltac:(unfold e in Hv; lia))
      as (c' & q' & k & Hrun & Hok' & He & Hej & Hw & Hr & Hst & Hso & Hk).
    rw (bind_Blocked _ _ _ _ _ Hrun). split; [done|]. split.
    + intros _. apply resumes_then. intros s2. destruct (Hk s2) as (w & ? & _ & ?). by exists w.
    + exists q'. constructor.
      * by apply kernel_ok_switched.
      * intros t Ht. rw core_switched. rw Hso Hst.
        rw decide_False; [intros ->; by apply Ht|]. auto.
      * intros l. rw core_switched. eapply (sems_one _ _ _ _ i); [exact Hej| |exact He|].
        -- intros j Hj. apply ledger_same. congruence.
        -- by apply Hm.
Qed.

Lemma serves_V s q i : kok s q → allowed s (SemV i) → serves s (SemV i).
Proof.
  intros Hok [Hlive Hv]. unfold serves, exec. pose proof (sizes _ _ Hok) as Hs. pose proof Hlive as [Hi Hc].
  pose proof (semaphore_V_run _ Haddr s q i Hok Hlive Hv) as Hrun. cbn zeta in Hrun.
  set (e := csem (core_of s) i) in *.
  assert (∀ r l v, v = Semaphore 0 (sem_value e + 1) (sem_creator e) →
    matches e (l i) → matches v (ledger_step (SemV i, r) l i)) as Hm.
  { intros r l v -> Hm. simpl. rw decide_True //. destruct (l i) as [[[v p] n]|]; [|exact Hm].
    simpl in *. destruct Hm as [? ->]. split; [done|lia]. }
  destruct (waiters (core_of s) q (saddr i)) as [|t rest].
  - destruct Hrun as (_ & Hrun & Hok'). rw (bind_Done _ _ _ _ _ Hrun). exists q. constructor; [done| |].
    + intros t _ Hso. split; [exact Hso|auto].
    + intros l. rw core_of_put. apply (sems_one _ _ _ _ i (Semaphore 0 (sem_value e + 1) (sem_creator e))).
      * intros j Hj. rw csem_setsem // decide_False //.
      * intros j Hj. apply ledger_same. congruence.
      * rw csem_setsem; [done..|]. by rw decide_True.
      * by apply Hm.
  - destruct Hrun as (c' & q' & _ & Hrun & Hrl). rw (bind_Done _ _ _ _ _ Hrun). exists q'.
    destruct Hrl as [R1 R2 R3 R4 R5 R6 R7]. constructor; [done| |].
    + intros u _. rw core_of_put R7 R6. destruct (decide (u = t)) as [Hd|Hd]; [intros Hu; by destruct Hu|]. intros Hu. split; [done|].
      rw decide_False //. tauto.
    + intros l. rw core_of_put. eapply (sems_one _ _ _ _ i); [exact R3| |exact R2|].
      * intros j Hj. apply ledger_same. congruence.
      * by apply Hm.
Qed.

(** Threads come and go without touching the queues of sleepers. *)
Lemma kok_threads s q c' q' :
  kok s q → kinv c' q' → c_sems c' = c_sems (core_of s) →
  (∀ h, q_sleep q' h = q_sleep q h) → (∀ t, so (core_of s) t ≠ 0 → so c' t = so (core_of s) t) →
  kok (put_core c' s) q'.
Proof.
  intros Hok Hinv Hsem Hq Hso. apply (kernel_ok_core _ s q); [done..|].
  apply (sems_frame (core_of s) q); [apply Hok|done|]. intros i Hi.
  apply waiters_ext; [apply Hq|]. intros t Ht. apply Hso.
  by destruct (tk_sleep _ _ _ (kp_thread _ _ (ki_pre _ _ (ko_inv _ _ _ Hok)) t) _ Ht).
Qed.

Lemma serves_thread_create s q func arg : kok s q → serves s (ThreadCreate func arg).
Proof.
  intros Hok. unfold serves, exec. pose proof (sizes _ _ Hok) as Hs.
  destruct (thread_create_run thread_stack_areas thread_finish_addr s func arg Hs (ko_cpu _ _ _ Hok)
    (ko_tlock _ _ _ Hok) (ko_tid _ _ _ Hok)) as [[Hrun _]|(t & nx & Ht & Hfree & Hnx & Hrun)]; rw Hrun.
  - exists q. constructor; [done| |].
    + intros t _ Hso. split; [exact Hso|auto].
    + intros l. by apply sems_same.
  - pose proof (qtid_ok _ Ht) as Ht'. pose proof Hok as [Hinv Hcpu Hsem K1 K2 K3 K4 K5].
    destruct (dormant_not_queued _ _ _ (ki_pre _ _ Hinv) (or_introl Hfree)) as [_ Hso0].
    set (c' := created_core thread_stack_areas t (core_of s)).
    assert (∀ u, cthr c' u = if decide (u = t) then _ else cthr (core_of s) u) as Hcthr
      by (intros u; unfold c', created_core; by rw cthr_setthr).
    assert (kok (put_core c' s) q) as [M1 M2 M3 M4 M5 M6 M7 M8].
    { apply (kok_threads s q); try done; [by apply created_core_ok|].
      intros u Hu. rw Hcthr. case_decide; [subst; done|done]. }
    exists q. constructor.
    + constructor; try done. by destruct Hcpu.
    + intros u _. rw core_of_put Hcthr. case_decide; [intros Hu; by destruct Hu|auto].
    + intros l. by apply sems_same.
Qed.

Lemma serves_thread_run s q t : kok s q → allowed s (ThreadRun t) → serves s (ThreadRun t).
Proof.
  intros Hok [Ht Hst]. unfold serves, exec, thread_run. pose proof (sizes _ _ Hok) as Hs.
  pose proof Hok as [Hinv Hcpu Hsem K1 K2 K3 K4 K5]. pose proof (qtid_ok _ Ht) as Ht'.
  destruct (dormant_not_queued _ _ _ (ki_pre _ _ Hinv) (or_intror Hst)) as [_ Hso0].
  rw (bind_Done _ _ _ _ _ (scheduler_add_ready_run s q t Hinv Hcpu K1 Ht)).
  set (c' := set_state THREAD_READY t (enqueue t (core_of s))).
  assert (∀ u, cthr (enqueue t (core_of s)) u = cthr (enqueue t (core_of s)) u) as _ by done.
  assert (∀ u, so c' u = so (core_of s) u ∧ st c' u = if decide (u = t) then THREAD_READY else st (core_of s) u)
    as Hc'.
  { intros u. unfold c'. pose proof (c_sizes_enqueue _ t Hs). rw so_set_state // st_set_state //.
    by rw !(cthr_enqueue _ q); [apply Hinv|..]. }
  exists (set_ready (q_ready q ++ [t]) q). constructor.
  - apply (kok_threads s q); try done; [by apply kinv_ready_new| |].
    + unfold c', enqueue. by case_decide.
    + intros u _. apply Hc'.
  - intros u _. rw core_of_put. destruct (Hc' u) as [-> ->]. intros Hu. split; [done|].
    case_decide; [subst; done|done].
  - intros l. apply sems_same; [|done]. unfold c', enqueue, put_core; cbn. by case_decide.
Qed.

Lemma kok_status s q w k : kok s q → 0 ≤ w < 2 ^ 32 → kok (s <| k_status := w |> <| k_cause := k |>) q.
Proof. intros [K1 [K2 K3] K4 K5 K6 K7 K8 K9] Hw. by constructor. Qed.

Lemma serves_finish s q : kok s q → running s → allowed s ThreadFinish → serves s ThreadFinish.
Proof.
  intros Hok [Ht Hso Hst] Hpt. unfold serves, exec. pose proof (sizes _ _ Hok) as Hs.
  pose proof Hok as [Hinv Hcpu Hsem K1 K2 K3 K4 K5]. pose proof (qtid_ok _ Ht) as Ht'.
  pose proof (thread_finish_run s q Hinv Hcpu K1 Ht') as Hrun.
  rw decide_True // in Hrun. destruct Hrun as (w & k & Hw & _ & Hrun).
  rw (bind_Blocked _ _ _ _ _ Hrun). split; [done|]. split; [done|]. exists q.
  set (c' := set_state THREAD_DYING (current s) (core_of s)).
  assert (kok (put_core c' s) q) as Hok'.
  { apply (kok_threads s q); try done; [by apply kinv_dying|].
    intros u _. unfold c'. by rw so_set_state. }
  constructor.
  - apply (kok_status _ _ w (Z.lor (k_cause s) 0x100)) in Hok'; done.
  - intros u _. rw core_of_put. unfold c'. rw so_set_state // st_set_state //. intros Hu. split; [done|].
    case_decide; [by subst|done].
  - intros l. by apply sems_same.
Qed.

Lemma serves_switch s q : kok s q → serves s ThreadSwitch.
Proof.
  intros Hok. unfold serves, exec.
  destruct (thread_switch_run s (λ _, mret 0)) as (k & Hrun & Hk). rw Hrun. split; [done|]. split.
  - intros _ s2. destruct (Hk s2) as (w & -> & Hw). by exists 0, w.
  - exists q. constructor.
    + apply kok_status; [done|]. apply lor_range; [lia|]. apply Hok.
    + intros u _ Hu. split; [exact Hu|auto].
    + intros l. by apply sems_same.
Qed.

Lemma serves_sleep s q r : kok s q → running s → allowed s (Sleep r) → serves s (Sleep r).
Proof.
  intros Hok [Ht Hso Hst] [Hr Hra]. unfold serves, exec, sleep_on.
  pose proof Hok as [Hinv [Hc1 Hc2] Hsem K1 K2 K3 K4 K5].
  rw bind_bind. erewrite bind_Done; [|reflexivity]. fold (disabled (lget #k_status s)).
  set (s1 := lset _ _ s). rw bind_bind.
  destruct (sleepq_add_spec s1 q r) as (c' & q' & Hrun & Hinv' & Hsem' & Hw & Hrd & Hst' & Hso');
    [done|constructor; [done|by apply disabled_range]|done|apply disabled_off|done..|].
  rw (bind_Done _ _ _ _ _ Hrun) bind_bind.
  match goal with |- context [(thread_switch ≫= ?f) ?x] =>
    destruct (thread_switch_run x f) as (k & Hrun' & Hk) end.
  rw Hrun'. split; [done|]. split.
  - intros _ s2. destruct (Hk s2) as (w & -> & Hw'). eexists 0, _. split; [reflexivity|].
    intros Hs2. by apply set_state_range, Hw'.
  - change (core_of s1) with (core_of s) in *. change (current s1) with (current s) in *.
    exists q'. constructor.
    + apply kernel_ok_switched. apply (kernel_ok_core _ s q); [done..|].
      apply (sems_frame (core_of s) q); [done..|]. intros i Hi.
      rw Hw; [by apply addr_of|]. rw decide_False; [intros Heq; by apply (Hra i Hi)|]. by rw app_nil_r.
    + intros u Hu. rw core_switched Hso' Hst'. rw decide_False; [intros ->; by apply Hu|]. auto.
    + intros l. rw core_switched. intros H i Hi. rw ledger_same //. unfold csem. rw Hsem'. by apply H.
Qed.

Lemma serves_wake s q r : kok s q → allowed s (Wake r) → serves s (Wake r).
Proof.
  intros Hok [Hr Hra]. unfold serves, exec. pose proof Hok as [Hinv Hcpu Hsem K1 K2 K3 K4 K5].
  pose proof (sleepq_wake_spec s q r Hinv Hcpu K2 K1 Hr) as Hrun. cbn zeta in Hrun.
  destruct (waiters (core_of s) q (u32 r)) as [|t rest].
  - rw (bind_Done _ _ _ _ _ Hrun). exists q. constructor; [done| |].
    + intros u _ Hu. split; [exact Hu|auto].
    + intros l. by apply sems_same.
  - destruct Hrun as (c' & q' & Hrun & Hinv' & Hsem' & Hw & Hrd & Hst' & Hso').
    rw (bind_Done _ _ _ _ _ Hrun). exists q'. constructor.
    + apply (kernel_ok_core _ s q); [done..|]. apply (sems_frame (core_of s) q); [done..|].
      intros i Hi. rw Hw; [by apply addr_of|]. rw decide_False //. intros Heq. by apply (Hra i Hi).
    + intros u _. rw core_of_put Hso' Hst'. destruct (decide (u = t)); [intros Hu; by destruct Hu|].
      intros Hu. split; [done|]. rw decide_False //. tauto.
    + intros l. apply sems_same; [exact Hsem'|done].
Qed.

Lemma serves_wake_all s q r : kok s q → allowed s (WakeAll r) → serves s (WakeAll r).
Proof.
  intros Hok [Hr Hra]. unfold serves, exec. pose proof Hok as [Hinv Hcpu Hsem K1 K2 K3 K4 K5].
  destruct (sleepq_wake_all_spec s q r Hinv Hcpu K2 K1 Hr)
    as (c' & q' & Hrun & Hinv' & Hsem' & Hw & Hrd & Hst' & Hso').
  rw (bind_Done _ _ _ _ _ Hrun). exists q'. constructor.
  - apply (kernel_ok_core _ s q); [done..|]. apply (sems_frame (core_of s) q); [done..|].
    intros i Hi. rw Hw; [by apply addr_of|]. rw decide_False //. intros Heq. by apply (Hra i Hi).
  - intros u _. rw core_of_put Hso' Hst'.
    destruct (decide (so (core_of s) u = u32 r)); [intros Hu; by destruct Hu|].
    intros Hu. split; [done|]. rw decide_False //. tauto.
  - intros l. apply sems_same; [exact Hsem'|done].
Qed.

(** Every allowed service returns or gives up the CPU, and has its effect. *)
Lemma exec_serves s q o :
  kok s q → allowed s o → (needs_thread o = true → running s) → serves s o.
Proof.
  intros Hok Ha Hr. destruct o.
  - by apply (serves_create s q).
  - by apply (serves_destroy s q).
  - apply (serves_P s q); auto.
  - by apply (serves_V s q).
  - by apply (serves_thread_create s q).
  - by apply (serves_thread_run s q).
  - apply (serves_finish s q); auto.
  - by apply (serves_switch s q).
  - apply (serves_sleep s q); auto.
  - by apply (serves_wake s q).
  - by apply (serves_wake_all s q).
Qed.

(** ** The invariant of the machine *)

Record minv (m : machine) (q : queues) : Prop := {
  mi_ok : kok (m_kernel m) q;
  mi_wait t : so (core_of (m_kernel m)) t ≠ 0 →
    ∃ p, m_pending m !! t = Some p ∧
      (p_switched p = true → st (core_of (m_kernel m)) t = THREAD_SLEEPING);
  mi_rest t p : m_pending m !! t = Some p → resumes (p_rest p);
  mi_sems i : sem_ok i → matches (csem (core_of (m_kernel m)) i) (ledger (m_trace m) i) }.

(** A thread between two services waits for nothing. *)
Lemma caller_running m q : minv m q → caller m → running (m_kernel m).
Proof.
  intros Hm (Ht & Hst & Hp). constructor; [done| |done].
  destruct (decide (so (core_of (m_kernel m)) (current (m_kernel m)) = 0)) as [|Hne]; [done|].
  destruct (mi_wait _ _ Hm _ Hne) as (p & Hp' & _). by rw Hp in Hp'.
Qed.

Lemma machine_serves m q o :
  minv m q → allowed (m_kernel m) o → (needs_thread o = true → caller m) → serves (m_kernel m) o.
Proof.
  intros Hm Ha Hc. apply (exec_serves _ q); [apply Hm|done|]. intros Hn.
  by apply (caller_running m q); auto.
Qed.

Lemma minv_call m q s' q' o r :
  minv m q → effect (λ _, False) (m_kernel m) s' q' (o, r) →
  minv (Machine s' (m_pending m) ((o, r) :: m_trace m)) q'.
Proof.
  intros Hm [E1 E2 E3]. constructor; cbn.
  - exact E1.
  - intros t Hso. destruct (E2 t) as [Hso' Hst]; [tauto|done|].
    destruct (mi_wait _ _ Hm t Hso') as (p & Hp & Hsw). exists p. auto.
  - apply (mi_rest _ _ Hm).
  - apply E3, (mi_sems _ _ Hm).
Qed.

Lemma minv_block m q s' q' o k :
  minv m q → resumes k → effect (λ t, o ≠ ThreadFinish ∧ t = current (m_kernel m)) (m_kernel m) s' q' (o, 0) →
  minv (Machine s' (<[current (m_kernel m) := Pending false k]> (m_pending m)) ((o, 0) :: m_trace m)) q'.
Proof.
  intros Hm Hk [E1 E2 E3]. constructor; cbn.
  - exact E1.
  - intros t Hso. destruct (decide (t = current (m_kernel m))) as [->|Hne].
    + exists (Pending false k). by rw lookup_insert_eq.
    + rw lookup_insert_ne; [congruence|]. destruct (E2 t) as [Hso' Hst]; [tauto|done|].
      destruct (mi_wait _ _ Hm t Hso') as (p & Hp & Hsw). exists p. auto.
  - intros t p. destruct (decide (t = current (m_kernel m))) as [->|Hne].
    + rw lookup_insert_eq. by intros [= <-].
    + rw lookup_insert_ne; [congruence|]. apply (mi_rest _ _ Hm).
  - apply E3, (mi_sems _ _ Hm).
Qed.

(** What the scheduler does to the state and to the fields of the threads. *)
Lemma schedule_effect s q s' :
  kok s q → scheduler_schedule s = Done tt s' →
  ∃ q', kok s' q' ∧ c_sems (core_of s') = c_sems (core_of s) ∧
    (∀ u, so (core_of s') u = so (core_of s) u) ∧
    (∀ u, so (core_of s) u ≠ 0 → st (core_of s') u =
      if decide (u = current s) then
        if decide (st (core_of s) u = THREAD_DYING) then THREAD_FREE else THREAD_SLEEPING
      else st (core_of s) u).
Proof.
  intros Hok Hrun. pose proof Hok as [Hinv Hcpu Hsem K1 K2 K3 K4 K5]. pose proof (sizes _ _ Hok) as Hs.
  pose proof (current_tid _ _ Hok) as Hcur. pose proof (ki_pre _ _ Hinv) as Hk.
  destruct (scheduler_schedule_run s q Hinv Hcpu K1) as (seed & ticks & _ & Hrun').
  rw Hrun in Hrun'. injection Hrun' as ->.
  destruct (put_back_ok (core_of s) q (this_cpu s) Hinv (co_cpu _ Hcpu)) as [Hk1 Hcu1].
  change (ccur (core_of s) (this_cpu s)) with (current s) in *.
  set (c1 := put_back (current s) (core_of s)) in *.
  set (cand := candidates (core_of s) q (current s)) in *.
  pose proof (take_cpu_ok c1 (set_ready cand q) (this_cpu s) Hk1 Hcu1 (co_cpu _ Hcpu)) as Hinv2.
  cbn [q_ready set_ready] in Hinv2. set (t := default 0 (head cand)) in *.
  set (c2 := take_cpu (this_cpu s) t c1) in *.
  assert (tid_ok t ∧ so c1 t = 0) as [Ht Hso].
  { destruct cand as [|x l] eqn:E; unfold t; cbn.
    - split; [unfold tid_ok, CONFIG_MAX_THREADS; lia|by apply (idle_so c1 (set_ready [] q))].
    - assert (x ∈ q_ready (set_ready (x :: l) q)) as Hx by (cbn; by left).
      split; [by apply qtid_ok, (ready_qtid _ _ _ (kp_queues _ _ Hk1))|].
      apply (tk_ready _ _ _ (kp_thread _ _ Hk1 x) Hx). }
  pose proof (qo_sizes _ _ (kp_queues _ _ Hk1)) as Hs1.
  assert (∀ u, so c2 u = so (core_of s) u) as Hso2.
  { intros u. unfold c2. rw so_take_cpu //. by apply (so_put_back _ q). }
  exists (set_ready (tail cand) (set_ready cand q)).
  rw core_of_put. split; [|split; [|split; [exact Hso2|]]].
  - assert (kok (put_core c2 s) (set_ready (tail cand) (set_ready cand q))) as [].
    { apply (kok_threads s q); [done|exact Hinv2| |done|auto].
      unfold c2, take_cpu, c1, put_back, enqueue. by repeat case_decide. }
    constructor; try done. by destruct Hcpu.
  - unfold c2, take_cpu, c1, put_back, enqueue. by repeat case_decide.
  - intros u Hu. unfold c2. rw st_take_cpu // decide_False.
    { intros ->. apply Hu. rw -Hso. symmetry. by apply (so_put_back _ q). }
    unfold c1. rw (st_put_back _ q) //. case_decide; [subst|done]. case_decide; [done|].
    rw decide_True //.
Qed.

Lemma minv_schedule m q s' :
  minv m q → scheduler_schedule (m_kernel m) = Done tt s' →
  ∃ q', minv (Machine s' (switch_out (current (m_kernel m)) (m_pending m)) (m_trace m)) q'.
Proof.
  intros Hm Hrun. destruct (schedule_effect _ q s' (mi_ok _ _ Hm) Hrun) as (q' & Hok & Hsem & Hso & Hst).
  exists q'. constructor; cbn.
  - exact Hok.
  - intros t Ht. rw Hso in Ht. destruct (mi_wait _ _ Hm t Ht) as (p & Hp & Hsw).
    pose proof (kp_thread _ _ (ki_pre _ _ (ko_inv _ _ _ (mi_ok _ _ Hm))) t) as Htok.
    destruct (tk_sleep _ _ _ Htok _ (tk_slept _ _ _ Htok Ht)) as (_ & _ & Hrs). rw Hst //. unfold switch_out.
    destruct (decide (t = current (m_kernel m))) as [->|Hne].
    + rw lookup_alter_eq Hp. eexists. split; [reflexivity|]. intros _.
      rw decide_False //. destruct Hrs; congruence.
    + rw lookup_alter_ne; [congruence|]. exists p. auto.
  - intros t p. unfold switch_out. destruct (decide (t = current (m_kernel m))) as [->|Hne].
    + rw lookup_alter_eq. destruct (m_pending m !! current (m_kernel m)) as [p0|] eqn:E; [|done].
      intros [= <-]. exact (mi_rest _ _ Hm _ _ E).
    + rw lookup_alter_ne; [congruence|]. apply (mi_rest _ _ Hm).
  - intros i Hi. unfold csem. rw Hsem. by apply (mi_sems _ _ Hm).
Qed.

Lemma minv_resume m q k r s' :
  minv m q → st (core_of (m_kernel m)) (current (m_kernel m)) = THREAD_RUNNING →
  m_pending m !! current (m_kernel m) = Some (Pending true k) → k (m_kernel m) = Done r s' →
  minv (Machine s' (delete (current (m_kernel m)) (m_pending m)) (m_trace m)) q.
Proof.
  intros Hm Hst Hp Hk. destruct (mi_rest _ _ Hm _ _ Hp (m_kernel m)) as (r' & w & Hk' & Hw).
  cbn in Hk'. rw Hk in Hk'. injection Hk' as -> ->. pose proof (mi_ok _ _ Hm) as Hok. constructor; cbn.
  - specialize (Hw (co_status _ (ko_cpu _ _ _ Hok))). destruct Hok as [M1 [M2 M3] M4 M5 M6 M7 M8 M9].
    by constructor.
  - intros t Ht. destruct (mi_wait _ _ Hm t Ht) as (p & Hp' & Hsw).
    destruct (decide (t = current (m_kernel m))) as [->|Hne].
    + rw Hp in Hp'. injection Hp' as <-. specialize (Hsw eq_refl). congruence.
    + rw lookup_delete_ne; [congruence|]. exists p. auto.
  - intros t p [_ Hp']%lookup_delete_Some. exact (mi_rest _ _ Hm _ _ Hp').
  - apply (mi_sems _ _ Hm).
Qed.

Lemma minv_step m m' q : minv m q → step m m' → ∃ q', minv m' q'.
Proof.
  intros Hm Hs. destruct Hs as [m cpu w Hc Hw|m s' Hrun|m o r s' Ha Hc Hrun|m o s' k Ha Hc Hf Hrun|
    m s' k Ha Hc Hrun|m k r s' Ht Hst Hp Hk].
  - exists q. destruct Hm as [H1 H2 H3 H4]. constructor; cbn; try done.
    destruct H1 as [M1 [M2 M3] M4 M5 M6 M7 M8 M9]. by constructor.
  - by apply (minv_schedule m q).
  - pose proof (machine_serves m q o Hm Ha Hc) as H. unfold serves in H. rw Hrun in H.
    destruct H as [q' H]. exists q'. by apply (minv_call m q).
  - pose proof (machine_serves m q o Hm Ha Hc) as H. unfold serves in H. rw Hrun in H.
    destruct H as (_ & Hk & q' & H). exists q'. apply (minv_block m q); auto.
  - pose proof (machine_serves m q _ Hm Ha (λ _, Hc)) as H. unfold serves in H. rw Hrun in H.
    destruct H as (_ & _ & q' & [E1 E2 E3]). exists q'. apply (minv_call m q _ _ ThreadFinish 0); [done|].
    constructor; [done| |done]. intros t _. apply E2. tauto.
  - exists q. by apply (minv_resume m q k r).
Qed.

Lemma minv_boot idle_loop s0 s :
  powered_up s0 → init_core thread_stack_areas idle_loop s0 = Done tt s →
  minv (Machine s ∅ []) (Queues [] (λ _, [])).
Proof.
  intros Hpu Hrun.
  destruct (init_core_run thread_stack_areas idle_loop s0 (pu_sizes _ Hpu)) as [f Hrun'].
  rw Hrun in Hrun'. injection Hrun' as ->.
  destruct (boot_sems_ok semaphore_table_addr thread_stack_areas s0 Hpu) as [Hsem Hlive].
  pose proof (boot_core_ok thread_stack_areas s0 Hpu) as Hinv. constructor; cbn.
  - by apply boot_kernel_ok.
  - intros t Ht. exfalso. apply Ht.
    pose proof (tk_slept _ _ _ (kp_thread _ _ (ki_pre _ _ Hinv) t) Ht) as Hin. cbn in Hin. by inversion Hin.
  - done.
  - intros i Hi. destruct (decide (sem_creator (csem (boot_core thread_stack_areas (core_of s0)) i) = -1))
      as [Hc|Hc]; [exact Hc|]. exfalso. by apply (Hlive i).
Qed.

Lemma reachable_inv m : reachable m → ∃ q, minv m q.
Proof.
  induction 1 as [idle s0 s Hpu Hrun|m m' Hr [q IH] Hs].
  - eexists. by apply (minv_boot idle s0).
  - by apply (minv_step m m' q).
Qed.

(** C2 (invariant): from the start of the kernel on, whatever services threads,
    CPUs and interrupts call in whatever order, the kernel state stays
    consistent: ready queue and sleep queue are well formed and disjoint, agree
    with the states of the threads, every running thread has its own CPU, all
    spinlocks are free, and every semaphore counts its permits or its waiters. *)
Theorem kernel_stays_consistent m : reachable m → ∃ q, kok (m_kernel m) q.
Proof. intros [q Hm]%reachable_inv. exists q. apply Hm. Qed.

(** C15 (safety): a semaphore created with v permits, on which V was called n
    times since, has let at most v + n calls of P through: a call of P is let
    through unless its thread is in the queue of the semaphore. Threads only wait
    while all v + n permits are taken, so no wakeup is lost. *)
Theorem semaphore_permits_bounded m i v p n :
  reachable m → sem_ok i → ledger (m_trace m) i = Some (v, p, n) →
  ∃ q, kok (m_kernel m) q ∧
    let waiting := Z.of_nat (length (waiters (core_of (m_kernel m)) q (saddr i))) in
    p - waiting ≤ v + n ∧ (waiting ≠ 0 → p - waiting = v + n).
Proof.
  intros [q Hm]%reachable_inv Hi Hl. exists q. split; [apply Hm|].
  pose proof (mi_sems _ _ Hm i Hi) as Hmt. rw Hl in Hmt. destruct Hmt as [Hc Hv].
  destruct (live_waiters _ _ _ _ (ko_sems _ _ _ (mi_ok _ _ Hm)) (conj Hi Hc)) as (_ & _ & Hlen).
  cbn zeta. rw Hlen Hv. lia.
Qed.

(** C14 (safety): in a reachable state the kernel neither panics, nor accesses
    memory outside its tables, nor loops: a thread between two services can call
    every allowed service, which returns or gives up the CPU; the scheduler
    returns; and the rest of every service that gave up the CPU returns. *)
Theorem kernel_never_stuck m :
  reachable m →
  (∀ o, allowed (m_kernel m) o → (needs_thread o = true → caller m) →
    (∃ r s', exec o (m_kernel m) = Done r s') ∨ (∃ s' k, exec o (m_kernel m) = Blocked s' k)) ∧
  (∃ s', scheduler_schedule (m_kernel m) = Done tt s') ∧
  (∀ t p s, m_pending m !! t = Some p → ∃ r s', p_rest p s = Done r s').
Proof.
  intros [q Hm]%reachable_inv. pose proof (mi_ok _ _ Hm) as Hok. split; [|split].
  - intros o Ha Hc. pose proof (machine_serves m q o Hm Ha Hc) as H. unfold serves in H.
    destruct (exec o (m_kernel m)) as [r s'|s' k| | |]; [left; eauto|right; eauto|done..].
  - destruct (scheduler_schedule_run _ q (ko_inv _ _ _ Hok) (ko_cpu _ _ _ Hok) (ko_tlock _ _ _ Hok))
      as (seed & ticks & _ & Hrun). eexists. exact Hrun.
  - intros t p s Hp. destruct (mi_rest _ _ Hm t p Hp s) as (r & w & Hk & _). eauto.
Qed.
End kernel.

(** ** A concrete run: the kernel starts and creates a semaphore *)

Definition example_start : kstate :=
  match init_core 0x80000000 0x80001000 example_image with Done _ s => s | _ => example_image end.
Definition example_machine : machine := Machine example_start ∅ [].
Definition example_created : kstate :=
  match exec 0x80020000 0x80000000 0x80002000 (SemCreate 1) example_start with
  | Done _ s => s | _ => example_start end.
Definition example_machine' : machine := Machine example_created ∅ [(SemCreate 1, 0)].

Abbreviation example_reachable m := (reachable 0x80020000 0x80000000 0x80002000 m).

Lemma example_boot : example_reachable example_machine.
Proof.
  apply (reach_boot _ _ _ 0x80001000 example_image); [exact example_image_up|].
  destruct (init_core_run 0x80000000 0x80001000 example_image (pu_sizes _ example_image_up)) as [f Hrun].
  unfold example_start. by rw Hrun.
Qed.

Lemma example_create : example_reachable example_machine'.
Proof.
  apply (reach_step _ _ _ example_machine); [exact example_boot|].
  apply (step_call _ _ _ example_machine (SemCreate 1) 0).
  - change (0 ≤ 1 < 2 ^ 31). lia.
  - intros H. discriminate H.
  - vm_compute. reflexivity.
Qed.

Lemma kernel_stays_consistent_witness : ∃ q, kernel_ok 0x80020000 (m_kernel example_machine') q.
Proof. exact (kernel_stays_consistent _ _ _ example_addr _ example_create). Defined.

Lemma semaphore_permits_bounded_witness :
  ledger (m_trace example_machine') 0 = Some (1, 0, 0) ∧
  ∃ q, kernel_ok 0x80020000 (m_kernel example_machine') q.
Proof.
  split; [reflexivity|].
  destruct (semaphore_permits_bounded _ _ _ example_addr example_machine' 0 1 0 0 example_create) as (q & Hok & _).
  - unfold sem_ok, CONFIG_MAX_SEMAPHORES. lia.
  - reflexivity.
  - exists q. exact Hok.
Defined.

Lemma kernel_never_stuck_witness : ∃ s', scheduler_schedule (m_kernel example_machine') = Done tt s'.
Proof.
  destruct (kernel_never_stuck _ _ _ example_addr example_machine' example_create) as (_ & H & _).
  exact H.
Defined.
End Kernel.
