(* ===== verification/Interrupt.v ===== *)
(** * Interrupts and kernel exceptions (kernel/interrupt.c, kernel/exception.c)

    The table of handlers and what happens when an interrupt is taken: the
    handlers of its lines run, then the scheduler and the filling of the TLB.
    Handlers are called through function pointers: [run_handler] gives the effect
    of the function at an address, on the state of the kernel and of the devices. *)
From S2P Require Import Prelude Cpu Kstate Queues Kinv Scheduler Thread Kmalloc Pagepool Vm.
Import Scheduler Thread Kmalloc Vm.

Module Interrupt.

Definition CONFIG_MAX_DEVICES : Z := 128.
Definition INTERRUPT_VECTOR_LENGTH : Z := 8.

(** interrupt_entry_t; pointers, 0 is NULL. *)
Record interrupt_entry_t := IntEntry { device : Z; irq : Z; handler : Z }.
#[export] Instance eta_int_entry : Eta interrupt_entry_t := fun e => IntEntry (device e) (irq e) (handler e).

(** The tables of interrupt.c, the memory behind the three vector addresses, the
    parts of the kernel the interrupt path uses, and the devices. *)
Record int_t {R : Type} := IntState {
  kernel : kstate; kmem : kmalloc_t; memory : vm_t; tlb : tlb_t;
  interrupt_handlers : list interrupt_entry_t; interrupt_stacks : list Z;
  iv_area1 : list Z; iv_area2 : list Z; iv_area3 : list Z;
  devices : R }.
Arguments int_t R : clear implicits.
#[export] Instance eta_int {R} : Eta (int_t R) := fun s =>
  IntState R (kernel s) (kmem s) (memory s) (tlb s) (interrupt_handlers s) (interrupt_stacks s)
    (iv_area1 s) (iv_area2 s) (iv_area3 s) (devices s).

(** kernel/_interrupt.S: the software interrupt bit, and the exception level. *)
Definition _interrupt_clear_sw0 : K unit := modify (λ s, s <| k_cause := Z.land (k_cause s) 0xfffffeff |>).
Definition _interrupt_clear_EXL : K unit := modify (λ s, s <| k_status := Z.land (k_status s) 0xfffffffd |>).
Definition _interrupt_set_EXL : K unit := modify (λ s, s <| k_status := Z.lor (k_status s) 0x00000002 |>).
Definition _interrupt_clear_bootstrap : K unit := modify (λ s, s <| k_status := Z.land (k_status s) 0xffbffffb |>).

Section interrupts.
Context {R : Type}.
Abbreviation I A := (M (int_t R) A).
Variable run_handler : Z → Z → I unit.
(** The code the assembler file cswitch.S puts at the vector addresses. *)
Variable _cswitch_vector_code : list Z.

Definition get_handler (i : Z) : I interrupt_entry_t := fun s => oread (arr_get (interrupt_handlers s) i) s.
Definition upd_handler (i : Z) (f : interrupt_entry_t → interrupt_entry_t) : I unit := fun s =>
  match arr_get (interrupt_handlers s) i with
  | Some e => Done tt (s <| interrupt_handlers := <[Z.to_nat i := f e]> (interrupt_handlers s) |>)
  | None => Fault
  end.

(** ** Initialisation *)

Definition alloc_stack (i : Z) : I unit :=
  ret ← zoom #kmem (kmalloc PAGE_SIZE);
  if decide (ret = 0) then panic "Unable to allocate interrupt stacks" else
  stacks ← gets interrupt_stacks;
  stacks ← oread (arr_set stacks i (u32 (ret + PAGE_SIZE - 4)));
  modify (λ s, s <| interrupt_stacks := stacks |>).

Definition copy_vector (i : Z) : I unit :=
  w ← oread (arr_get _cswitch_vector_code i);
  a ← gets iv_area1; a ← oread (arr_set a i w); modify (λ s, s <| iv_area1 := a |>);;
  a ← gets iv_area2; a ← oread (arr_set a i w); modify (λ s, s <| iv_area2 := a |>);;
  a ← gets iv_area3; a ← oread (arr_set a i w); modify (λ s, s <| iv_area3 := a |>).

Definition clear_handler (i : Z) : I unit :=
  upd_handler i (λ e, e <| device := 0 |>);;
  upd_handler i (λ e, e <| irq := 0 |>);;
  upd_handler i (λ e, e <| handler := 0 |>).

Definition interrupt_init (num_cpus : Z) : I unit :=
  if decide (num_cpus < 1 ∨ CONFIG_MAX_CPUS < num_cpus) then panic "Too few or many CPUs found" else
  for_loop (Z.to_nat num_cpus) 0 alloc_stack;;
  for_loop (Z.to_nat INTERRUPT_VECTOR_LENGTH) 0 copy_vector;;
  for_loop (Z.to_nat CONFIG_MAX_DEVICES) 0 clear_handler.

(** The search reads an entry before it tests the index: with a full table it
    reads behind it. *)
Fixpoint first_empty (fuel : nat) (i : Z) : I Z :=
  e ← get_handler i;
  if decide (device e ≠ 0 ∧ i < CONFIG_MAX_DEVICES) then
    match fuel with O => spin | S n => first_empty n (i + 1) end
  else mret i.

Definition interrupt_register (irq handler device : Z) : I unit :=
  if decide (Z.land irq (u32 (Z.lnot INTERRUPT_MASK_ALL)) ≠ 0) then panic "interrupt_register" else
  i ← first_empty (Z.to_nat CONFIG_MAX_DEVICES) 0;
  if decide (CONFIG_MAX_DEVICES ≤ i) then panic "Interrupt handler table is full" else
  upd_handler i (λ e, e <| Interrupt.device := device |>);;
  upd_handler i (λ e, e <| Interrupt.irq := irq |>);;
  upd_handler i (λ e, e <| Interrupt.handler := handler |>).

(** ** Taking an interrupt *)

(** The loop over the handlers from index [i] on, [n] of which are left. *)
Fixpoint call_handlers (n : nat) (i cause : Z) : I unit :=
  match n with
  | O => mret tt
  | S n' =>
    e ← get_handler i;
    if decide (device e = 0) then mret tt else
    (if decide (Z.land cause (irq e) ≠ 0) then run_handler (handler e) (device e) else mret tt);;
    call_handlers n' (i + 1) cause
  end.

(** tlb_fill of the current thread's page table. *)
Definition fill_current : I unit :=
  t ← zoom #kernel thread_get_current_thread_entry;
  e ← zoom #kernel (get_thread t);
  tables ← gets (λ s, vm_tables (memory s));
  pt ← (if decide (t_pagetable e = 0) then mret None
        else pt ← oread (tables_get tables (t_pagetable e)); mret (Some pt));
  zoom #tlb (tlb_fill pt).

Definition interrupt_handle (cause : Z) : I unit :=
  (if decide (Z.land cause INTERRUPT_CAUSE_SOFTWARE_0 ≠ 0) then zoom #kernel _interrupt_clear_sw0 else mret tt);;
  this_cpu ← zoom #kernel _interrupt_getcpu;
  if decide (Z.land cause 0x0000007c ≠ 0) then panic "Exception in interrupt_handle" else
  call_handlers (Z.to_nat CONFIG_MAX_DEVICES) 0 cause;;
  (* the test of the cause comes first *)
  switch ← (if decide (Z.land cause (Z.lor INTERRUPT_CAUSE_SOFTWARE_0 INTERRUPT_CAUSE_HARDWARE_5) ≠ 0) then mret true
            else cur ← zoom #kernel (get_current this_cpu); mret (bool_decide (cur = IDLE_THREAD_TID)));
  if switch : bool then
    zoom #kernel scheduler_schedule;;
    fill_current
  else mret tt.
End interrupts.

(** ** Kernel exceptions *)

(** What the kernel says before it stops. *)
Definition exception_message (exception : Z) : string :=
  match exception with
  | 1 => "TLB Modification: not handled yet" | 2 => "TLB Load: not handled yet" | 3 => "TLB Store: not handled yet"
  | 4 => "Address Error Load: not handled yet" | 5 => "Address Error Store: not handled yet"
  | 6 => "Bus Error Instruction: not handled yet" | 7 => "Bus Error Data: not handled yet"
  | 8 => "Syscall: From _kernel_ mode?" | 9 => "Breakpoint: not handled yet"
  | 10 => "Reserved instruction: not handled yet" | 11 => "Coprocessor unusable: buggy assembler code?"
  | 12 => "Arithmetic overflow: buggy assembler code?" | 13 => "Trap: this just should not happen"
  | _ => "Unknown exception"
  end.

(** Every case stops the kernel; what follows the switch is not reached. *)
Definition kernel_exception_handle (exception : Z) : K unit :=
  intr_status ← _interrupt_disable #k_status;
  _interrupt_clear_EXL;;
  (panic (exception_message exception) : K unit);;
  _interrupt_set_EXL;;
  _interrupt_set_state #k_status intr_status;;
  mret tt.
End Interrupt.
