(* ===== verification/InterruptSpec.v ===== *)
(** * Properties of interrupts

    Registration, dispatch to the handlers, and the change of thread at the end
    of an interrupt. *)
From Stdlib Require Import FunctionalExtensionality.
From S2P Require Import Prelude Cpu Kstate Queues Kinv Scheduler Sleepq Semaphore Kservice Thread Kmalloc Pagepool Vm Interrupt.
Import Scheduler Sleepq Semaphore Thread Vm Interrupt.

Module InterruptSpec.

(** The calls an interrupt makes: handler and device, in the order of the table, up
    to the first empty entry. *)
Fixpoint calls (cause : Z) (t : list interrupt_entry_t) : list (Z * Z) :=
  match t with
  | [] => []
  | e :: t' =>
    if decide (device e = 0) then [] else
    (if decide (Z.land cause (irq e) ≠ 0) then [(handler e, device e)] else []) ++ calls cause t'
  end.

(** Entries in use come first. *)
Definition used (t : list interrupt_entry_t) : Prop := Forall (λ e, device e ≠ 0) t.
Definition table_ok (t : list interrupt_entry_t) (l : list interrupt_entry_t) : Prop :=
  Z.of_nat (length t) = CONFIG_MAX_DEVICES ∧ used l ∧ ∃ rest, t = l ++ rest ∧ Forall (λ e, device e = 0) rest.

Lemma calls_used cause l rest : used l → calls cause (l ++ rest) = calls cause l ++ calls cause rest.
Proof.
  induction 1 as [|e l He Hl IH]; [done|]. cbn [calls app]. rw IH. destruct (decide (device e = 0)); [done|]. by rw app_assoc.
Qed.
Lemma calls_empty cause t : Forall (λ e, device e = 0) t → calls cause t = [].
Proof. intros H. destruct H as [|e t He]; [done|]. cbn [calls]. by destruct (decide (device e = 0)). Qed.

Section spec.
Context {R : Type}.
Implicit Types s : int_t R.

(** ** Registration *)

Lemma first_empty_run n i s l rest e :
  interrupt_handlers s = l ++ e :: rest → Forall (λ e, device e ≠ 0) (drop (Z.to_nat i) l) → device e = 0 →
  Z.of_nat (length (l ++ e :: rest)) ≤ CONFIG_MAX_DEVICES →
  0 ≤ i ≤ Z.of_nat (length l) → Z.of_nat (length l) - i ≤ Z.of_nat n →
  first_empty n i s = Done (Z.of_nat (length l)) s.
Proof.
  intros Ht Hl He Hlen. rewrite length_app /= in Hlen. revert i Hl. induction n as [|n IH]; intros i Hl Hi Hn.
  - cbn [first_empty]. assert (i = Z.of_nat (length l)) as -> by lia.
    assert (get_handler (Z.of_nat (length l)) s = Done e s) as Hg.
    { unfold get_handler. rewrite Ht. rewrite arr_get_app; [lia|]. rewrite decide_False; [lia|]. by rewrite Z.sub_diag. }
    rw (bind_Done _ _ _ _ _ Hg). rw decide_False //. tauto.
  - cbn [first_empty]. destruct (decide (i = Z.of_nat (length l))) as [->|Hne].
    + assert (get_handler (Z.of_nat (length l)) s = Done e s) as Hg.
      { unfold get_handler. rewrite Ht. rewrite arr_get_app; [lia|]. rewrite decide_False; [lia|]. by rewrite Z.sub_diag. }
      rw (bind_Done _ _ _ _ _ Hg). rw decide_False //. tauto.
    + destruct (arr_get_is_Some l i) as [x Hx]; [lia|].
      assert (get_handler i s = Done x s) as Hg.
      { unfold get_handler. rewrite Ht. rewrite arr_get_app; [lia|]. rewrite decide_True; [lia|]. by rewrite Hx. }
      rw (bind_Done _ _ _ _ _ Hg). apply arr_get_Some in Hx as [_ Hx]. rewrite (drop_S _ _ _ Hx) in Hl. inversion Hl as [|? ? Hd Hl']; subst.
      rw decide_True; [lia|]. apply IH; [|lia..]. by replace (Z.to_nat (i + 1)) with (S (Z.to_nat i)) by lia.
Qed.

(** Interrupt_register adds the handler behind those already
    registered: from then on an interrupt calls, after the handlers it called before,
    the new one exactly when its mask has a line of the cause. Nothing else changes.
    A mask outside the interrupt lines stops the kernel. *)
Theorem interrupt_register_adds mask h d s l :
  table_ok (interrupt_handlers s) l → Z.of_nat (length l) < CONFIG_MAX_DEVICES → d ≠ 0 →
  if decide (Z.land mask (u32 (Z.lnot INTERRUPT_MASK_ALL)) = 0) then
    ∃ t, interrupt_register mask h d s = Done tt (s <| interrupt_handlers := t |>) ∧
      table_ok t (l ++ [IntEntry d mask h]) ∧
      ∀ cause, calls cause t = calls cause (interrupt_handlers s) ++ (if decide (Z.land cause mask ≠ 0) then [(h, d)] else [])
  else interrupt_register mask h d s = Panic "interrupt_register".
Proof.
  intros (Hlen & Hl & rest & Ht & Hrest) Hlt Hd. unfold interrupt_register.
  destruct (decide (Z.land mask _ = 0)) as [Hm|Hm]; [|by rw decide_True]. rw decide_False; [tauto|].
  destruct rest as [|e rest]; [rewrite Ht app_nil_r in Hlen; lia|]. apply Forall_cons in Hrest as [He Hrest].
  assert (first_empty (Z.to_nat CONFIG_MAX_DEVICES) 0 s = Done (Z.of_nat (length l)) s) as Hfirst.
  { apply (first_empty_run _ _ s l rest e); [done|done|done|rewrite -Ht; lia|lia|lia]. }
  rw (bind_Done _ _ _ _ _ Hfirst). rw decide_False; [lia|].
  assert (∀ x y f (k : unit → M (int_t R) unit), (upd_handler (Z.of_nat (length l)) f ≫= k) (s <| interrupt_handlers := l ++ x :: y |>) =
    k tt (s <| interrupt_handlers := l ++ f x :: y |>)) as Hupd.
  { intros x y f k. unfold mbind, M_bind, upd_handler. change (interrupt_handlers (s <| interrupt_handlers := l ++ x :: y |>)) with (l ++ x :: y).
    rewrite arr_get_app; [lia|]. rewrite decide_False; [lia|]. rewrite Z.sub_diag. change (arr_get (x :: y) 0) with (Some x). cbn beta iota.
    assert (<[Z.to_nat (Z.of_nat (length l)) := f x]> (l ++ x :: y) = l ++ f x :: y) as ->; [|reflexivity].
    rewrite insert_app_r_alt; [lia|]. by replace (Z.to_nat (Z.of_nat (length l)) - length l)%nat with 0%nat by lia. }
  assert (s = s <| interrupt_handlers := l ++ e :: rest |>) as Hs by (rewrite -Ht; by destruct s).
  rewrite {1}Hs. rw !Hupd. assert (∀ x y f, upd_handler (Z.of_nat (length l)) f (s <| interrupt_handlers := l ++ x :: y |>) =
    Done tt (s <| interrupt_handlers := l ++ f x :: y |>)) as Hlast.
  { intros x y f. pose proof (Hupd x y f mret) as H1. unfold mbind, M_bind in H1. by destruct (upd_handler _ _ _) as [[] ?| | | |]. }
  rw Hlast. assert (((e <| device := d |>) <| irq := mask |>) <| handler := h |> = IntEntry d mask h) as -> by by destruct e.
  eexists. split; [reflexivity|]. split.
  - split; [rewrite Ht in Hlen; rewrite !length_app /= in Hlen |- *; lia|]. split; [apply Forall_app; split; [done|by repeat constructor]|].
    exists rest. split; [by rewrite -app_assoc|done].
  - intros cause. rewrite Ht !calls_used // (calls_empty cause (e :: rest)); [by constructor|].
    cbn [calls device irq handler]. destruct (decide (d = 0)); [done|].
    by rewrite (calls_empty cause rest) // !app_nil_r.
Qed.

(** With a full table the search runs over the end of the table. *)
Lemma interrupt_register_full mask h d s :
  Z.land mask (u32 (Z.lnot INTERRUPT_MASK_ALL)) = 0 → table_ok (interrupt_handlers s) (interrupt_handlers s) →
  interrupt_register mask h d s = Fault.
Proof.
  intros Hm (Hlen & Hu & _). unfold interrupt_register. rw decide_False; [tauto|]. unfold mbind at 1, M_bind at 1.
  assert (∀ n i, 0 ≤ i → i + Z.of_nat n = CONFIG_MAX_DEVICES → first_empty n i s = Fault) as Hf.
  { induction n as [|n IH]; intros i Hi Hn; cbn [first_empty]; unfold mbind, M_bind, get_handler.
    - assert (arr_get (interrupt_handlers s) i = None) as ->; [|done]. apply arr_get_None. lia.
    - destruct (arr_get_is_Some (interrupt_handlers s) i) as [e He]; [lia|]. rewrite He. simpl.
      rw decide_True; [|apply IH; lia]. split; [|lia]. apply arr_get_Some in He as [_ He]. unfold used in Hu. rewrite Forall_lookup in Hu. exact (Hu _ _ He). }
  rw Hf; [lia|done|done].
Qed.

(** ** Dispatch *)

Variable run_handler : Z → Z → M (int_t R) unit.

Fixpoint run_all (l : list (Z * Z)) : M (int_t R) unit :=
  match l with
  | [] => mret tt
  | (h, d) :: l' => run_handler h d;; run_all l'
  end.

(** Handlers do not wait and do not register handlers. *)
Definition handlers_quiet : Prop := ∀ h d s,
  match run_handler h d s with
  | Done _ s' => interrupt_handlers s' = interrupt_handlers s
  | Blocked _ _ => False
  | _ => True
  end.

Lemma call_handlers_run n i cause s :
  handlers_quiet → 0 ≤ i → Z.of_nat n = Z.of_nat (length (interrupt_handlers s)) - i →
  call_handlers run_handler n i cause s = run_all (calls cause (drop (Z.to_nat i) (interrupt_handlers s))) s.
Proof.
  intros Hq. revert i s. induction n as [|n IH]; intros i s Hi Hn.
  { rewrite drop_ge; [|done]. lia. }
  cbn [call_handlers]. destruct (arr_get_is_Some (interrupt_handlers s) i) as [e He]; [lia|].
  assert (get_handler i s = Done e s) as Hg by (unfold get_handler; by rw He).
  rw (bind_Done _ _ _ _ _ Hg). apply arr_get_Some in He as [_ He]. rewrite (drop_S _ _ _ He). cbn [calls].
  destruct (decide (device e = 0)); [done|].
  assert (∀ t, interrupt_handlers t = interrupt_handlers s →
    call_handlers run_handler n (i + 1) cause t = run_all (calls cause (drop (S (Z.to_nat i)) (interrupt_handlers s))) t) as Hrest.
  { intros t Ht. rewrite (IH (i + 1) t); [lia|rewrite Ht; lia|]. rewrite Ht. do 3 f_equal. lia. }
  destruct (decide (Z.land cause (irq e) ≠ 0)); cbn [app run_all]; [|by apply Hrest].
  unfold mbind, M_bind. specialize (Hq (handler e) (device e) s). destruct (run_handler (handler e) (device e) s); simpl; try done.
  by destruct a; apply Hrest.
Qed.

Lemma interrupt_handle_run cause s l :
  handlers_quiet → table_ok (interrupt_handlers s) l → Z.land cause 0x0000007c = 0 →
  interrupt_handle run_handler cause s =
    ((if decide (Z.land cause INTERRUPT_CAUSE_SOFTWARE_0 ≠ 0) then zoom #kernel _interrupt_clear_sw0 else mret tt);;
     run_all (calls cause l);;
     if decide (Z.land cause (Z.lor INTERRUPT_CAUSE_SOFTWARE_0 INTERRUPT_CAUSE_HARDWARE_5) ≠ 0) then
       zoom #kernel scheduler_schedule;; fill_current
     else
       cur ← zoom #kernel (get_current (this_cpu (kernel s)));
       if decide (cur = IDLE_THREAD_TID) then zoom #kernel scheduler_schedule;; fill_current else mret tt) s.
Proof.
  intros Hq (Hlen & Hu & rest & Ht & Hrest) Hc. unfold interrupt_handle.
  assert (∃ s1, (if decide (Z.land cause INTERRUPT_CAUSE_SOFTWARE_0 ≠ 0) then zoom #kernel _interrupt_clear_sw0 else mret tt) s = Done tt s1 ∧
    interrupt_handlers s1 = interrupt_handlers s ∧ this_cpu (kernel s1) = this_cpu (kernel s)) as (s1 & Hs1 & Hh & Hcpu).
  { destruct (decide _); eexists; by split. }
  rw !(bind_Done _ _ _ _ _ Hs1).
  assert (zoom #kernel _interrupt_getcpu s1 = Done (this_cpu (kernel s)) s1) as Hg.
  { unfold zoom, _interrupt_getcpu, gets. cbn. f_equal; [done|]. by destruct s1. }
  rw (bind_Done _ _ _ _ _ Hg). rw decide_False; [tauto|].
  assert (call_handlers run_handler (Z.to_nat CONFIG_MAX_DEVICES) 0 cause s1 = run_all (calls cause l) s1) as Hrun.
  { rewrite call_handlers_run; [done|lia|rewrite Hh; lia|]. rewrite drop_0 Hh Ht calls_used // (calls_empty cause rest) //. by rewrite app_nil_r. }
  unfold mbind at 1, M_bind at 1. rw Hrun. unfold mbind at 4, M_bind at 4. f_equal.
  apply functional_extensionality. intros [].
  destruct (decide (Z.land cause (Z.lor _ _) ≠ 0)) as [Hx|Hx]; [reflexivity|].
  apply functional_extensionality. intros s2. rewrite bind_bind.
  assert ((λ cur : Z, mret (M := M (int_t R)) (bool_decide (cur = IDLE_THREAD_TID)) ≫= (λ switch : bool,
      if switch then zoom #kernel scheduler_schedule;; fill_current else mret tt)) =
    (λ cur : Z, if decide (cur = IDLE_THREAD_TID) then zoom #kernel scheduler_schedule;; fill_current else mret tt)) as ->; [|done].
  apply functional_extensionality. intros cur. apply functional_extensionality. intros s3.
  change ((if bool_decide (cur = IDLE_THREAD_TID) then zoom #kernel scheduler_schedule;; fill_current else mret tt) s3 =
    (if decide (cur = IDLE_THREAD_TID) then zoom #kernel scheduler_schedule;; fill_current else mret tt) s3).
  destruct (decide (cur = IDLE_THREAD_TID)); by [rw bool_decide_true|rw bool_decide_false].
Qed.

(** Interrupt_handle calls, in the order of registration and each
    once, exactly the handlers whose mask has a line of the cause, with their devices,
    and nothing else before the choice of the next thread. *)
Theorem interrupt_handle_dispatches cause s l :
  handlers_quiet → table_ok (interrupt_handlers s) l → Z.land cause 0x0000007c = 0 →
  interrupt_handle run_handler cause s =
    ((if decide (Z.land cause INTERRUPT_CAUSE_SOFTWARE_0 ≠ 0) then zoom #kernel _interrupt_clear_sw0 else mret tt);;
     run_all (calls cause l);;
     if decide (Z.land cause (Z.lor INTERRUPT_CAUSE_SOFTWARE_0 INTERRUPT_CAUSE_HARDWARE_5) ≠ 0) then
       zoom #kernel scheduler_schedule;; fill_current
     else
       cur ← zoom #kernel (get_current (this_cpu (kernel s)));
       if decide (cur = IDLE_THREAD_TID) then zoom #kernel scheduler_schedule;; fill_current else mret tt) s.
Proof. apply interrupt_handle_run. Qed.

(** ** The change of thread *)

(** The interrupt is acknowledged: the software interrupt bit is cleared. *)
Definition acknowledged (cause : Z) s : int_t R :=
  if decide (Z.land cause INTERRUPT_CAUSE_SOFTWARE_0 ≠ 0)
  then s <| kernel := (kernel s) <| k_cause := Z.land (k_cause (kernel s)) 0xfffffeff |> |> else s.

(** The page table of thread [t], if it has one, fits into the TLB and no other row
    carries its address space. *)
Definition fits (kn : kstate) s (t : Z) : Prop :=
  let p := t_pagetable (cthr (core_of kn) t) in
  p = 0 ∨ ∃ pt, tables_get (vm_tables (memory s)) p = Some pt ∧ pt_ok pt ∧
    valid_count pt ≤ Z.of_nat (length (tlb_rows (tlb s))) ∧
    Forall (λ e, ASID e ≠ u8 (pt_ASID pt)) (drop (Z.to_nat (valid_count pt)) (tlb_rows (tlb s))).

Lemma t_pagetable_steady : steady t_pagetable.
Proof. by split. Qed.

Lemma kern_ok_scheduled kn q :
  kern_ok kn q →
  let cand := candidates (core_of kn) q (current kn) in
  let t := default 0 (head cand) in
  ∃ kn', scheduler_schedule kn = Done tt kn' ∧ kern_ok kn' (set_ready (tail cand) q) ∧ current kn' = t ∧ tid_ok t ∧
    st (core_of kn') t = THREAD_RUNNING ∧
    t_pagetable (cthr (core_of kn') t) = t_pagetable (cthr (core_of kn) t).
Proof.
  intros Hk cand t. destruct (scheduler_schedule_spec kn q (kk_inv _ _ Hk) (kk_cpu _ _ Hk) (kk_tlock _ _ Hk))
    as (kn' & Hrun & Hinv & Hcpu & Hlk & _ & Hcur & _ & Hst & Hsteady).
  destruct (scheduler_schedule_run kn q (kk_inv _ _ Hk) (kk_cpu _ _ Hk) (kk_tlock _ _ Hk)) as (seed & ticks & _ & Hrun').
  assert (sleepq_slock kn' = sleepq_slock kn ∧ next_tid kn' = next_tid kn ∧ this_cpu kn' = this_cpu kn) as (Hq & Hn & Hc).
  { rewrite Hrun' in Hrun. by injection Hrun as <-. }
  assert (current kn' = t) as Ht by (unfold current; rw Hc; rewrite Hcur; by rw decide_True).
  exists kn'. split_and!; try done.
  - constructor; [done..| |]; [rw Hq; by destruct Hk|rw Hn; by destruct Hk].
  - rewrite -Ht. unfold current. apply (cu_tid _ _ (ki_current _ _ Hinv)). by destruct Hcpu.
  - rewrite Hst. by rw decide_True.
  - by apply Hsteady, t_pagetable_steady.
Qed.

Lemma fill_current_run s q :
  kern_ok (kernel s) q → tid_ok (current (kernel s)) → fits (kernel s) s (current (kernel s)) →
  ∃ x, fill_current s = Done tt (s <| tlb := x |>) ∧
    let p := t_pagetable (cthr (core_of (kernel s)) (current (kernel s))) in
    (p = 0 → x = tlb s) ∧
    ∀ pt, p ≠ 0 → tables_get (vm_tables (memory s)) p = Some pt → ∀ w, tlb_translate x w = pt_translate pt w.
Proof.
  intros Hk Htid Hfits. pose proof (sizes_of _ _ (kk_inv _ _ Hk)) as Hs. unfold fill_current. cbn zeta.
  assert (lset #kernel (kernel s) s = s) as Hsame by by destruct s.
  erewrite bind_zoom; [|exact (thread_get_current_thread_run (kernel s) Hs (kk_cpu _ _ Hk))]. rewrite Hsame.
  erewrite bind_zoom; [|exact (get_thread_run (kernel s) _ Hs Htid)]. rewrite Hsame.
  rw bind_gets. destruct Hfits as [Hp|(pt & Hget & Hok & Hn & Hstale)].
  - rw decide_True //. exists (tlb s). split; [|by split]. by destruct s.
  - destruct (decide (t_pagetable _ = 0)) as [Hp|Hp].
    + exists (tlb s). split; [|by split]. by destruct s.
    + destruct (tlb_fill_translate pt (tlb s) 0 Hok Hn Hstale) as (x & Hx & _). exists x. split; [|split; [done|]].
      * rewrite Hget. cbn -[tlb_fill]. change (zoom #tlb (tlb_fill (Some pt)) s = Done tt (lset #tlb x s)). unfold zoom. change (lget #tlb s) with (tlb s). by rw Hx.
      * intros pt' _ Hget' w. rewrite Hget in Hget'. injection Hget' as <-.
        destruct (tlb_fill_translate pt (tlb s) w Hok Hn Hstale) as (x' & Hx' & Hw). rw Hx in Hx'. by injection Hx' as ->.
Qed.

(** C32 (safety): a timer or software interrupt (not an exception) changes the
    thread. Once the handlers of its lines have left the kernel consistent, the
    first candidate of the ready queue is to run. If it has no page table, or one
    that fits the TLB while no row beyond those it fills has its address space,
    interrupt_handle completes: that thread runs, the kernel is consistent, memory
    is untouched, and the TLB translates every address as the page table of the
    thread does; a thread without a page table finds the TLB as it was. *)
Theorem interrupt_handle_switches cause s l s2 q :
  handlers_quiet → table_ok (interrupt_handlers s) l → Z.land cause 0x0000007c = 0 →
  Z.land cause (Z.lor INTERRUPT_CAUSE_SOFTWARE_0 INTERRUPT_CAUSE_HARDWARE_5) ≠ 0 →
  run_all (calls cause l) (acknowledged cause s) = Done tt s2 → kern_ok (kernel s2) q →
  let cand := candidates (core_of (kernel s2)) q (current (kernel s2)) in
  let t := default 0 (head cand) in
  let p := t_pagetable (cthr (core_of (kernel s2)) t) in
  fits (kernel s2) s2 t →
  ∃ s', interrupt_handle run_handler cause s = Done tt s' ∧
    kern_ok (kernel s') (set_ready (tail cand) q) ∧ current (kernel s') = t ∧ st (core_of (kernel s')) t = THREAD_RUNNING ∧
    memory s' = memory s2 ∧ (p = 0 → tlb s' = tlb s2) ∧
    ∀ pt, p ≠ 0 → tables_get (vm_tables (memory s2)) p = Some pt → ∀ w, tlb_translate (tlb s') w = pt_translate pt w.
Proof.
  intros Hq Ht Hc Hsw Hrun Hk cand t p Hfits. rw (interrupt_handle_run cause s l Hq Ht Hc).
  assert ((if decide (Z.land cause INTERRUPT_CAUSE_SOFTWARE_0 ≠ 0) then zoom #kernel _interrupt_clear_sw0 else mret tt) s =
    Done tt (acknowledged cause s)) as Hack by (unfold acknowledged; by destruct (decide _)).
  rw (bind_Done _ _ _ _ _ Hack). rw (bind_Done _ _ _ _ _ Hrun). destruct (decide (Z.land cause (Z.lor _ _) ≠ 0)); [|done].
  destruct (kern_ok_scheduled (kernel s2) q Hk) as (kn' & Hsch & Hk' & Hcur & Htid & Hst & Hpt).
  fold cand in Hk', Hcur, Htid, Hst, Hpt. fold t in Hcur, Htid, Hst, Hpt.
  erewrite bind_zoom; [|exact Hsch].
  destruct (fill_current_run (lset #kernel kn' s2) (set_ready (tail cand) q)) as (x & Hfill & Hx0 & Hx).
  - done.
  - change (tid_ok (current kn')). by rw Hcur.
  - change (fits kn' s2 (current kn')). rewrite Hcur. unfold fits. by rewrite Hpt.
  - change (kernel (lset #kernel kn' s2)) with kn' in Hx0, Hx. rewrite Hcur Hpt in Hx0, Hx.
    rw Hfill. eexists. split; [reflexivity|]. by split_and!.
Qed.
End spec.

(** ** A machine with two devices: a handler notes its device *)

Definition note (h d : Z) : M (int_t (list (Z * Z))) unit := modify (λ s, s <| devices := devices s ++ [(h, d)] |>).

Definition two_handlers : list interrupt_entry_t := [IntEntry 0x100 0x400 0x8001; IntEntry 0x200 0x800 0x8002].
Definition example_tlb : tlb_t := Tlb (replicate 16 (TlbEntry 0 0 0 0 0 0 0 0 0 0)) 0.
(** Virtual page 5 on frame 0x123, the first of a page table of address space 3. *)
Definition example_table : pagetable_t := Pagetable 3 1 (TlbEntry 2 3 0 0 0 0 0x123 1 1 0 :: replicate 339 (TlbEntry 0 0 0 0 0 0 0 0 0 0)).
Definition example_int (kn : kstate) : int_t (list (Z * Z)) :=
  IntState _ kn (Kmalloc.Kmalloc 0x80002000 0x80008000)
    (Vm (Pagepool.Pagepool [7] 8 5 2 0 0xff01 (Kmalloc.Kmalloc 0x80002000 0x80008000)) [(0x80005000, example_table)]) example_tlb
    (two_handlers ++ replicate 126 (IntEntry 0 0 0)) (replicate 4 0) (replicate 8 0) (replicate 8 0) (replicate 8 0) [].

Lemma note_quiet : handlers_quiet note.
Proof. done. Qed.
Lemma example_handlers kn : table_ok (interrupt_handlers (example_int kn)) two_handlers.
Proof.
  split; [done|]. split; [repeat constructor; cbn; lia|]. exists (replicate 126 (IntEntry 0 0 0)). split; [done|].
  by apply Forall_replicate.
Qed.

Lemma interrupt_register_adds_witness :
  ∃ t, interrupt_register 0x1000 0x8003 0x300 (example_int example_running) =
    Done tt ((example_int example_running) <| interrupt_handlers := t |>) ∧ calls 0x1400 t = [(0x8001, 0x100); (0x8003, 0x300)].
Proof.
  destruct (interrupt_register_adds 0x1000 0x8003 0x300 (example_int example_running) two_handlers (example_handlers _)
    ltac:(vm_compute; reflexivity) ltac:(lia)) as (t & Hrun & _ & Hc).
  exists t. split; [exact Hrun|]. rewrite Hc. vm_compute. reflexivity.
Defined.

Lemma interrupt_handle_dispatches_witness :
  devices <$> (match interrupt_handle note 0x800 (example_int example_running) with Done _ s => Some s | _ => None end) = Some [(0x8002, 0x200)].
Proof.
  rewrite (interrupt_handle_dispatches note 0x800 (example_int example_running) two_handlers note_quiet (example_handlers _) eq_refl).
  vm_compute. reflexivity.
Defined.

Lemma example_table_fits : fits (example_kernel 3 0x80005000) (example_int (example_kernel 3 0x80005000)) 1.
Proof.
  right. exists example_table. split; [done|]. split; [|split; [vm_compute; congruence|by repeat constructor; vm_compute; congruence]].
  constructor; [done|vm_compute; split; congruence|apply Forall_singleton; vm_compute; tauto|apply NoDup_singleton].
Qed.

Lemma interrupt_handle_switches_witness :
  ∃ s', interrupt_handle note 0x8400 (example_int (example_kernel 3 0x80005000)) = Done tt s' ∧ current (kernel s') = 1 ∧
    tlb_translate (tlb s') 0x5678 = Some (0x123, 1).
Proof.
  destruct (interrupt_handle_switches note 0x8400 (example_int (example_kernel 3 0x80005000)) two_handlers
    ((example_int (example_kernel 3 0x80005000)) <| devices := [(0x8001, 0x100)] |>) (Queues [] (λ _, []))
    note_quiet (example_handlers _) eq_refl ltac:(vm_compute; congruence) eq_refl (example_kernel_ok 3 0x80005000) example_table_fits)
    as (s' & Hrun & _ & Hcur & _ & _ & _ & Htlb).
  exists s'. split; [exact Hrun|]. split; [rewrite Hcur; vm_compute; reflexivity|].
  rewrite (Htlb example_table ltac:(vm_compute; congruence) eq_refl). vm_compute. reflexivity.
Defined.
End InterruptSpec.
