(* ===== verification/Tty.v ===== *)
(** * The terminal driver (drivers/tty.c)

    One terminal: its ring buffers, the ports of the device and the kernel core.
    The device itself is a parameter: [TtyPorts] gives the effect of each access
    to its io area. *)
From S2P Require Import Prelude Bytes Cpu Kstate Queues Kinv Scheduler Sleepq.
Import Sleepq.

Module Tty.

Definition TTY_BUF_SIZE : Z := 2048.
Definition TTY_STATUS_RAVAIL (status : Z) : Z := Z.land status 0x1.
Definition TTY_STATUS_WBUSY (status : Z) : Z := Z.shiftr (Z.land status 0x2) 1.
Definition TTY_STATUS_RIRQ (status : Z) : Z := Z.shiftr (Z.land status 0x4) 2.
Definition TTY_STATUS_WIRQ (status : Z) : Z := Z.shiftr (Z.land status 0x8) 3.
Definition TTY_STATUS_ERROR (status : Z) : Z := Z.shiftr (Z.land status 0x80000000) 31.
Definition TTY_COMMAND_RIRQ : Z := 0x01.
Definition TTY_COMMAND_WIRQ : Z := 0x02.
Definition TTY_COMMAND_WIRQE : Z := 0x03.
Definition TTY_COMMAND_WIRQD : Z := 0x04.

(** tty_real_device_t, apart from the pointer to its lock. *)
Record tty_real_device_t := TtyReal {
  read_buf : list Z; read_head : Z; read_count : Z;
  write_buf : list Z; write_head : Z; write_count : Z }.
#[export] Instance eta_tty_real : Eta tty_real_device_t := fun r =>
  TtyReal (read_buf r) (read_head r) (read_count r) (write_buf r) (write_head r) (write_count r).

(** The io area: reading a port and writing one. *)
Class TtyPorts (D : Type) := {
  port_status : D → Z * D;
  port_command : Z → D → D;
  port_read : D → Z * D;
  port_write : Z → D → D }.

Record tty_t {D : Type} := TtyState {
  kernel : kstate; tty_slock : Z; tty_rd : tty_real_device_t; io : D }.
Arguments tty_t D : clear implicits.
#[export] Instance eta_tty {D} : Eta (tty_t D) := fun s =>
  TtyState D (kernel s) (tty_slock s) (tty_rd s) (io s).

Section tty.
Context {D : Type} `{TtyPorts D}.
(** The addresses of the two buffers, on which threads sleep. *)
Variables write_buf_addr read_buf_addr : Z.
Abbreviation T A := (M (tty_t D) A).

Definition io_status : T Z := fun s =>
  let '(x, d) := port_status (io s) in Done x (s <| io := d |>).
Definition io_command (c : Z) : T unit := modify (λ s, s <| io := port_command c (io s) |>).
Definition io_read : T Z := fun s =>
  let '(x, d) := port_read (io s) in Done (u8 x) (s <| io := d |>).
Definition io_write (c : Z) : T unit := modify (λ s, s <| io := port_write c (io s) |>).

Definition get_rd : T tty_real_device_t := gets tty_rd.
Definition upd_rd (f : tty_real_device_t → tty_real_device_t) : T unit :=
  modify (λ s, s <| tty_rd := f (tty_rd s) |>).

Definition interrupt_disable : T Z := zoom #kernel (_interrupt_disable #k_status).
Definition interrupt_set_state (i : Z) : T unit := zoom #kernel (_interrupt_set_state #k_status i);; mret tt.

(** ** The interrupt handler *)

(** The first character of the write buffer goes to the device. *)
Definition send_head : T unit :=
  r ← get_rd;
  c ← oread (arr_get (write_buf r) (write_head r));
  io_write c;;
  upd_rd (λ r, r <| write_head := Z.rem (write_head r + 1) TTY_BUF_SIZE |>);;
  upd_rd (λ r, r <| write_count := write_count r - 1 |>).

Fixpoint send_loop (fuel : nat) : T unit :=
  match fuel with
  | O => spin
  | S n =>
    status ← io_status;
    r ← get_rd;
    if decide (TTY_STATUS_WBUSY status = 0 ∧ 0 < write_count r) then
      io_command TTY_COMMAND_WIRQ;;
      send_head;;
      send_loop n
    else mret tt
  end.

(** One turn per character of a buffer, and the last test. *)
Definition buf_fuel : nat := Z.to_nat (TTY_BUF_SIZE + 1).

(** [budget] bounds the characters taken in one interrupt. *)
Fixpoint receive_loop (budget : nat) : T unit :=
  status ← io_status;
  if decide (TTY_STATUS_RAVAIL status ≠ 0) then
    match budget with
    | O => spin
    | S n =>
      data ← io_read;
      r ← get_rd;
      (if decide (TTY_BUF_SIZE < read_count r) then mret tt else
       let index := Z.rem (read_head r + read_count r) TTY_BUF_SIZE in
       buf ← oread (arr_set (read_buf r) index data);
       upd_rd (λ r, r <| read_buf := buf |>);;
       upd_rd (λ r, r <| read_count := read_count r + 1 |>));;
      receive_loop n
    end
  else mret tt.

Definition tty_interrupt_handle (budget : nat) : T unit :=
  status ← io_status;
  (if decide (TTY_STATUS_WIRQ status ≠ 0) then
     spinlock_acquire #tty_slock;;
     io_command TTY_COMMAND_WIRQD;;
     io_command TTY_COMMAND_WIRQ;;
     send_loop buf_fuel;;
     io_command TTY_COMMAND_WIRQE;;
     r ← get_rd;
     (if decide (write_count r = 0) then zoom #kernel (sleepq_wake_all write_buf_addr) else mret tt);;
     spinlock_release #tty_slock
   else mret tt);;
  status ← io_status;
  if decide (TTY_STATUS_RIRQ status ≠ 0) then
    spinlock_acquire #tty_slock;;
    io_command TTY_COMMAND_RIRQ;;
    status ← io_status;
    if decide (TTY_STATUS_ERROR status ≠ 0) then panic "Could not issue RIRQ to TTY." else
    receive_loop budget;;
    spinlock_release #tty_slock;;
    zoom #kernel (sleepq_wake_all read_buf_addr)
  else mret tt.

(** ** Writing *)

(** Sleep until the write buffer is empty; [wakeups] bounds how often the
    thread is woken with data still in it. *)
Fixpoint wait_drained (wakeups : nat) : T unit :=
  r ← get_rd;
  if decide (0 < write_count r) then
    zoom #kernel (sleepq_add write_buf_addr);;
    spinlock_release #tty_slock;;
    zoom #kernel thread_switch;;
    spinlock_acquire #tty_slock;;
    match wakeups with O => spin | S n => wait_drained n end
  else mret tt.

(** Fill the internal buffer from [buf]; the new [i]. *)
Fixpoint fill_buffer (fuel : nat) (buf : list Z) (i len : Z) : T Z :=
  match fuel with
  | O => spin
  | S n =>
    r ← get_rd;
    if decide (write_count r < TTY_BUF_SIZE ∧ i < len) then
      let index := Z.rem (write_head r + write_count r) TTY_BUF_SIZE in
      c ← oread (arr_get buf i);
      wb ← oread (arr_set (write_buf r) index c);
      upd_rd (λ r, r <| write_buf := wb |>);;
      upd_rd (λ r, r <| write_count := write_count r + 1 |>);;
      fill_buffer n buf (i + 1) len
    else mret i
  end.

(** Every turn takes a character: [fuel] is [len]. *)
Fixpoint tty_write_loop (fuel wakeups : nat) (buf : list Z) (i len : Z) : T Z :=
  if decide (i < len) then
    match fuel with
    | O => spin
    | S n =>
      wait_drained wakeups;;
      i ← fill_buffer buf_fuel buf i len;
      status ← io_status;
      (if decide (TTY_STATUS_WBUSY status = 0) then send_head else mret tt);;
      tty_write_loop n wakeups buf i len
    end
  else mret i.

Definition tty_write (wakeups : nat) (buf : list Z) (len : Z) : T Z :=
  intr_status ← interrupt_disable;
  spinlock_acquire #tty_slock;;
  i ← tty_write_loop (Z.to_nat len) wakeups buf 0 len;
  spinlock_release #tty_slock;;
  interrupt_set_state intr_status;;
  mret i.

(** ** Reading *)

Fixpoint wait_input (wakeups : nat) : T unit :=
  r ← get_rd;
  if decide (read_count r = 0) then
    zoom #kernel (sleepq_add read_buf_addr);;
    spinlock_release #tty_slock;;
    zoom #kernel thread_switch;;
    spinlock_acquire #tty_slock;;
    match wakeups with O => spin | S n => wait_input n end
  else mret tt.

(** The number of characters and the caller's buffer. *)
Fixpoint take_loop (fuel : nat) (buf : list Z) (i len : Z) : T (Z * list Z) :=
  match fuel with
  | O => spin
  | S n =>
    r ← get_rd;
    if decide (0 < read_count r ∧ i < len) then
      c ← oread (arr_get (read_buf r) (read_head r));
      buf ← oread (arr_set buf i c);
      upd_rd (λ r, r <| read_head := Z.rem (read_head r + 1) TTY_BUF_SIZE |>);;
      upd_rd (λ r, r <| read_count := read_count r - 1 |>);;
      take_loop n buf (i + 1) len
    else mret (i, buf)
  end.

(** One more than the characters the buffer can count. *)
Definition take_fuel : nat := Z.to_nat (TTY_BUF_SIZE + 2).

Definition tty_read (wakeups : nat) (buf : list Z) (len : Z) : T (Z * list Z) :=
  intr_status ← interrupt_disable;
  spinlock_acquire #tty_slock;;
  wait_input wakeups;;
  x ← take_loop take_fuel buf 0 len;
  spinlock_release #tty_slock;;
  interrupt_set_state intr_status;;
  mret x.
End tty.

(** ** What the terminal device does (YAMS documentation)

    [sent] are the characters it has taken, [pending] the typed ones it still
    holds. Characters typed while a routine runs count as typed after it. *)
Class TtyLaws (D : Type) `{TtyPorts D} := {
  sent : D → list Z;
  pending : D → list Z;
  port_free : D → Prop;
  status_sent d : sent (port_status d).2 = sent d;
  status_pending d : pending (port_status d).2 = pending d;
  status_free d : TTY_STATUS_WBUSY (port_status d).1 = 0 → port_free (port_status d).2;
  status_avail d : TTY_STATUS_RAVAIL (port_status d).1 ≠ 0 ↔ pending d ≠ [];
  command_sent c d : sent (port_command c d) = sent d;
  command_pending c d : pending (port_command c d) = pending d;
  command_free c d : port_free d → port_free (port_command c d);
  read_sent d : sent (port_read d).2 = sent d;
  read_pending d c l : pending d = c :: l → u8 (port_read d).1 = c ∧ pending (port_read d).2 = l;
  write_sent c d : port_free d → sent (port_write c d) = sent d ++ [c];
  write_pending c d : pending (port_write c d) = pending d }.
End Tty.
