(* ===== verification/TtySpec.v ===== *)
(** * Properties of the terminal driver

    The ring buffers as queues, and the two character streams: what writers
    hand over reaches the device once and in order, and what is typed reaches
    the readers. *)
From S2P Require Import Prelude Bytes Cpu Kstate Queues Kinv Scheduler Sleepq Semaphore Kservice Tty.
Import Scheduler Sleepq Semaphore Tty.

Module TtySpec.

(** ** Ring buffers *)

Definition ring (buf : list Z) (head count : Z) : list Z :=
  map (λ i, default 0 (arr_get buf ((head + i) `mod` TTY_BUF_SIZE))) (seqZ 0 count).

Record ring_ok (buf : list Z) (head count : Z) : Prop := {
  rg_size : Z.of_nat (length buf) = TTY_BUF_SIZE;
  rg_head : 0 ≤ head < TTY_BUF_SIZE;
  rg_count : 0 ≤ count ≤ TTY_BUF_SIZE }.

Lemma ring_length buf head count : length (ring buf head count) = Z.to_nat count.
Proof. unfold ring. by rewrite length_map length_seqZ. Qed.

Lemma ring_empty buf head : ring buf head 0 = [].
Proof. done. Qed.

Lemma ring_pop buf head count :
  ring_ok buf head count → 0 < count →
  ∃ c, arr_get buf head = Some c ∧
    ring buf head count = c :: ring buf (Z.rem (head + 1) TTY_BUF_SIZE) (count - 1) ∧
    ring_ok buf (Z.rem (head + 1) TTY_BUF_SIZE) (count - 1).
Proof.
  unfold TTY_BUF_SIZE. intros [Hs Hh Hc] Hp. unfold TTY_BUF_SIZE in *.
  destruct (arr_get_is_Some buf head) as [c Hget]; [lia|]. exists c. split; [done|]. rw Z.rem_mod_nonneg; [lia..|]. split.
  - unfold ring. rewrite (seqZ_cons 0 count); [lia|]. cbn [map]. rewrite Z.add_0_r Z.mod_small; [done|]. rewrite Hget. f_equal.
    replace (Z.succ 0) with (0 + 1) by lia. rewrite -(fmap_add_seqZ 1 0 (Z.pred count)) map_map. replace (Z.pred count) with (count - 1) by lia.
    apply map_ext. intros i. unfold TTY_BUF_SIZE. rewrite Zplus_mod_idemp_l. do 3 f_equal. lia.
  - constructor; unfold TTY_BUF_SIZE; [done| |lia]. apply Z.mod_pos_bound. lia.
Qed.

Lemma ring_push buf head count c :
  ring_ok buf head count → count < TTY_BUF_SIZE →
  ∃ buf', arr_set buf (Z.rem (head + count) TTY_BUF_SIZE) c = Some buf' ∧
    ring buf' head (count + 1) = ring buf head count ++ [c] ∧ ring_ok buf' head (count + 1).
Proof.
  unfold TTY_BUF_SIZE. intros [Hs Hh Hc] Hp. unfold TTY_BUF_SIZE in *. rw Z.rem_mod_nonneg; [lia..|].
  pose proof (Z.mod_pos_bound (head + count) 2048) as Hb. eexists. split; [apply arr_set_Some; lia|]. split.
  - unfold ring. rewrite (seqZ_app 0 count 1); [lia..|]. rewrite map_app. f_equal.
    + apply map_ext_in. intros i Hi%list_elem_of_In%elem_of_seqZ. rewrite arr_get_insert; [lia|].
      rewrite decide_False //. unfold TTY_BUF_SIZE. intros E. clear -E Hi Hh Hc Hp. zdm.
    + rewrite (seqZ_cons (0 + count) 1); [lia|]. rewrite (seqZ_nil _ (Z.pred 1)); [lia|]. cbn [map]. rewrite arr_get_insert; [lia|].
      rewrite Z.add_0_l decide_True //.
  - constructor; unfold TTY_BUF_SIZE; [by rewrite length_insert|done|lia].
Qed.

(** ** The state of a terminal *)

Section spec.
Context {D : Type} `{TtyLaws D}.
Variables write_buf_addr read_buf_addr : Z.
Implicit Types (kn : kstate) (r : tty_real_device_t) (d : D).

(** The characters on their way to the device, and those read but not yet fetched. *)
Definition wq r : list Z := ring (write_buf r) (write_head r) (write_count r).
Definition rq r : list Z := ring (read_buf r) (read_head r) (read_count r).
Definition wring r : Prop := ring_ok (write_buf r) (write_head r) (write_count r).
Definition rring r : Prop := ring_ok (read_buf r) (read_head r) (read_count r).

(** The two streams: everything handed to the device so far with what waits in the
    buffer, and everything that can still be read. *)
Definition output r d : list Z := sent d ++ wq r.
Definition input r d : list Z := rq r ++ pending d.

(** The read half is as before. *)
Definition same_read r r' : Prop :=
  read_buf r' = read_buf r ∧ read_head r' = read_head r ∧ read_count r' = read_count r.
Definition same_write r r' : Prop :=
  write_buf r' = write_buf r ∧ write_head r' = write_head r ∧ write_count r' = write_count r.

Lemma same_read_rq r r' : same_read r r' → rq r' = rq r ∧ (rring r → rring r').
Proof. unfold rq, rring. intros (-> & -> & ->). done. Qed.
Lemma same_write_wq r r' : same_write r r' → wq r' = wq r ∧ (wring r → wring r').
Proof. unfold wq, wring. intros (-> & -> & ->). done. Qed.

(** ** One access at a time *)

Section accesses.
Context {A : Type} (kn : kstate) (lk : Z) (r : tty_real_device_t) (d : D).
Abbreviation stt := (TtyState D kn lk r d).
Lemma tty_bind_status (f : Z → M _ A) : (io_status ≫= f) stt = f (port_status d).1 (TtyState D kn lk r (port_status d).2).
Proof. unfold mbind, M_bind, io_status. cbn. by destruct (port_status d). Qed.
Lemma bind_read (f : Z → M _ A) : (io_read ≫= f) stt = f (u8 (port_read d).1) (TtyState D kn lk r (port_read d).2).
Proof. unfold mbind, M_bind, io_read. cbn. by destruct (port_read d). Qed.
Lemma bind_command c (f : unit → M _ A) : (io_command c ≫= f) stt = f tt (TtyState D kn lk r (port_command c d)).
Proof. reflexivity. Qed.
Lemma bind_write c (f : unit → M _ A) : (io_write c ≫= f) stt = f tt (TtyState D kn lk r (port_write c d)).
Proof. reflexivity. Qed.
Lemma bind_rd (f : tty_real_device_t → M _ A) : (get_rd ≫= f) stt = f r stt.
Proof. reflexivity. Qed.
Lemma tty_bind_upd g (f : unit → M _ A) : (upd_rd g ≫= f) stt = f tt (TtyState D kn lk (g r) d).
Proof. reflexivity. Qed.
Lemma tty_bind_unlock (f : unit → M _ A) : (spinlock_release #tty_slock ≫= f) stt = f tt (TtyState D kn 0 r d).
Proof. reflexivity. Qed.
Lemma tty_bind_kernel {B} (m : M kstate B) (f : B → M _ A) x kn' :
  m kn = Done x kn' → (zoom #kernel m ≫= f) stt = f x (TtyState D kn' lk r d).
Proof. intros H1. erewrite bind_zoom; [|exact H1]. reflexivity. Qed.
End accesses.
Lemma tty_bind_lock {A} kn r d (f : unit → M _ A) :
  (spinlock_acquire #tty_slock ≫= f) (TtyState D kn 0 r d) = f tt (TtyState D kn 1 r d).
Proof. reflexivity. Qed.

(** ** Sending *)

Lemma send_head_run kn lk r d :
  wring r → 0 < write_count r → port_free d →
  ∃ r' d', send_head (TtyState D kn lk r d) = Done tt (TtyState D kn lk r' d') ∧
    output r' d' = output r d ∧ wring r' ∧ write_count r' = write_count r - 1 ∧ same_read r r' ∧ pending d' = pending d.
Proof.
  intros Hw Hc Hf. destruct (ring_pop _ _ _ Hw Hc) as (c & Hget & Hq & Hok).
  eexists _, (port_write c d). split; [|split; [|split; [|split; [|split]]]].
  - unfold send_head. rw bind_rd Hget bind_oread bind_write tty_bind_upd. reflexivity.
  - unfold output, wq. cbn. rw write_sent // Hq -app_assoc. reflexivity.
  - exact Hok.
  - reflexivity.
  - done.
  - apply write_pending.
Qed.

Lemma send_loop_run n kn lk r d :
  wring r → write_count r < Z.of_nat n →
  ∃ r' d', send_loop n (TtyState D kn lk r d) = Done tt (TtyState D kn lk r' d') ∧
    output r' d' = output r d ∧ wring r' ∧ same_read r r' ∧ pending d' = pending d.
Proof.
  revert r d. induction n as [|n IH]; intros r d Hw Hn; [pose proof (rg_count _ _ _ Hw); lia|].
  cbn [send_loop]. rw tty_bind_status bind_rd.
  destruct (decide (_ ∧ _)) as [[Hb Hc]|Hstop].
  - rw bind_command.
    destruct (send_head_run kn lk r (port_command TTY_COMMAND_WIRQ (port_status d).2)) as (r2 & d2 & Hrun & Ho2 & Hw2 & Hc2 & Hs2 & Hp2);
      [done|done|by apply command_free, status_free|].
    rw (bind_Done _ _ _ _ _ Hrun). destruct (IH r2 d2 Hw2 ltac:(lia)) as (r3 & d3 & Hrun3 & Ho3 & Hw3 & Hs3 & Hp3).
    exists r3, d3. split; [done|]. split_and!; [|done| |].
    + rw Ho3 Ho2. unfold output. by rw command_sent status_sent.
    + unfold same_read in *. intuition congruence.
    + by rw Hp3 Hp2 command_pending status_pending.
  - eexists r, _. split; [reflexivity|]. unfold output. by rw status_sent status_pending.
Qed.

(** ** Receiving *)

Lemma receive_loop_run n kn lk r d :
  rring r → read_count r + Z.of_nat (length (pending d)) ≤ TTY_BUF_SIZE → (length (pending d) ≤ n)%nat →
  ∃ r' d', receive_loop n (TtyState D kn lk r d) = Done tt (TtyState D kn lk r' d') ∧
    pending d' = [] ∧ rq r' = input r d ∧ rring r' ∧ same_write r r' ∧ sent d' = sent d.
Proof.
  revert r d. induction n as [|n IH]; intros r d Hr Hroom Hn; cbn [receive_loop]; rw tty_bind_status;
    pose proof (status_avail d) as Ha; pose proof (status_pending d) as Hp; pose proof (status_sent d) as Hs.
  - assert (pending d = []) as Hd by (apply length_zero_iff_nil; lia). rw decide_False; [by rewrite Ha Hd; intros []|].
    eexists r, _. split; [reflexivity|]. unfold input. rewrite Hp Hs Hd app_nil_r. done.
  - destruct (pending d) as [|c l] eqn:Hd.
    + rw decide_False; [rewrite Ha; by intros []|]. eexists r, _. split; [reflexivity|]. unfold input. rewrite Hp Hs Hd app_nil_r. done.
    + rw decide_True; [by rewrite Ha|]. rw bind_read bind_rd. destruct (read_pending _ c l Hp) as [Hc Hl]. rw Hc.
      cbn [length] in Hroom, Hn. rw decide_False; [lia|].
      destruct (ring_push _ _ _ c Hr ltac:(lia)) as (buf & Hset & Hq & Hok). rw bind_bind Hset bind_oread bind_bind !tty_bind_upd.
      set (r2 := (r <| read_buf := buf |>) <| read_count := read_count r + 1 |>). set (d2 := (port_read (port_status d).2).2) in *.
      destruct (IH r2 d2) as (r' & d' & Hrun & Hp' & Hq' & Hr' & Hw' & Hs'); [done|rewrite Hl; change (read_count r2) with (read_count r + 1); lia|rewrite Hl; lia|].
      exists r', d'. split; [exact Hrun|]. split; [done|]. split; [|split; [done|split; [done|by rw Hs' /d2 read_sent Hs]]].
      rewrite Hq'. unfold input. change (rq r2) with (ring buf (read_head r) (read_count r + 1)). rewrite Hq Hl Hd -app_assoc. done.
Qed.

(** ** The interrupt handler *)

Lemma wake_all_kernel kn q res :
  kern_ok kn q → u32 res ≠ 0 →
  ∃ kn' q', sleepq_wake_all res kn = Done tt kn' ∧ kern_ok kn' q' ∧ waiters (core_of kn') q' (u32 res) = [] ∧
    (∀ x, x ≠ 0 → x ≠ u32 res → waiters (core_of kn') q' x = waiters (core_of kn) q x).
Proof.
  intros Hk Hres. destruct (sleepq_wake_all_spec kn q res (kk_inv _ _ Hk) (kk_cpu _ _ Hk) (kk_qlock _ _ Hk) (kk_tlock _ _ Hk) Hres)
    as (c' & q' & Hrun & Hinv & _ & Hw & _).
  exists (put_core c' kn), q'. split; [done|]. split; [by apply (kern_ok_core kn q)|]. rw core_of_put. split.
  - rw Hw //. by rw decide_True.
  - intros x Hx Hne. rw Hw // decide_False //.
Qed.

(** The part of the handler for a finished output. *)
Lemma handle_write kn q r d :
  kern_ok kn q → u32 write_buf_addr ≠ 0 → wring r →
  ∃ kn' q' r' d',
    (spinlock_acquire #tty_slock;; io_command TTY_COMMAND_WIRQD;; io_command TTY_COMMAND_WIRQ;; send_loop buf_fuel;;
     io_command TTY_COMMAND_WIRQE;; r ← get_rd;
     (if decide (write_count r = 0) then zoom #kernel (sleepq_wake_all write_buf_addr) else mret tt);;
     spinlock_release #tty_slock) (TtyState D kn 0 r d) = Done tt (TtyState D kn' 0 r' d') ∧
    kern_ok kn' q' ∧ output r' d' = output r d ∧ wring r' ∧ same_read r r' ∧ pending d' = pending d ∧
    (write_count r' = 0 → waiters (core_of kn') q' (u32 write_buf_addr) = []).
Proof.
  intros Hk Hwa Hw. rw tty_bind_lock !bind_command.
  destruct (send_loop_run buf_fuel kn 1 r (port_command TTY_COMMAND_WIRQ (port_command TTY_COMMAND_WIRQD d)))
    as (r' & d' & Hrun & Ho & Hw' & Hs & Hp); [done|pose proof (rg_count _ _ _ Hw); unfold buf_fuel, TTY_BUF_SIZE in *; lia|].
  rw (bind_Done _ _ _ _ _ Hrun) bind_command bind_rd. unfold output in Ho. rewrite !command_sent in Ho. rewrite !command_pending in Hp.
  destruct (decide (write_count r' = 0)) as [Hz|Hz].
  - destruct (wake_all_kernel kn q write_buf_addr Hk Hwa) as (kn' & q' & Hwk & Hk' & He & _).
    exists kn', q', r', (port_command TTY_COMMAND_WIRQE d'). rw (tty_bind_kernel _ _ _ _ _ _ _ _ Hwk).
    split; [reflexivity|]. unfold output. rw command_sent command_pending. done.
  - exists kn, q, r', (port_command TTY_COMMAND_WIRQE d'). rw bind_ret.
    split; [reflexivity|]. unfold output. rw command_sent command_pending. done.
Qed.

(** The part of the handler for typed characters. *)
Lemma handle_read kn q r d budget :
  kern_ok kn q → u32 read_buf_addr ≠ 0 → rring r → (∀ d, TTY_STATUS_ERROR (port_status d).1 = 0) →
  read_count r + Z.of_nat (length (pending d)) ≤ TTY_BUF_SIZE → (length (pending d) ≤ budget)%nat →
  ∃ kn' q' r' d',
    (spinlock_acquire #tty_slock;; io_command TTY_COMMAND_RIRQ;; status ← io_status;
     if decide (TTY_STATUS_ERROR status ≠ 0) then panic "Could not issue RIRQ to TTY." else
     receive_loop budget;; spinlock_release #tty_slock;; zoom #kernel (sleepq_wake_all read_buf_addr))
      (TtyState D kn 0 r d) = Done tt (TtyState D kn' 0 r' d') ∧
    kern_ok kn' q' ∧ rq r' = input r d ∧ pending d' = [] ∧ rring r' ∧ same_write r r' ∧ sent d' = sent d ∧
    waiters (core_of kn') q' (u32 read_buf_addr) = [] ∧
    (∀ x, x ≠ 0 → x ≠ u32 read_buf_addr → waiters (core_of kn') q' x = waiters (core_of kn) q x).
Proof.
  intros Hk Hra Hr Herr Hroom Hb. rw tty_bind_lock bind_command tty_bind_status decide_False; [by rewrite Herr; lia|].
  destruct (receive_loop_run budget kn 1 r (port_status (port_command TTY_COMMAND_RIRQ d)).2)
    as (r' & d' & Hrun & Hp & Hq & Hr' & Hw & Hs); [done|by rewrite status_pending command_pending..|].
  rw (bind_Done _ _ _ _ _ Hrun) tty_bind_unlock. destruct (wake_all_kernel kn q read_buf_addr Hk Hra) as (kn' & q' & Hwk & Hk' & He & Ho).
  exists kn', q', r', d'. split; [unfold zoom; change (lget #kernel (TtyState D kn 0 r' d')) with kn; by rw Hwk|].
  unfold input in *. rewrite status_pending command_pending in Hq. rewrite status_sent command_sent in Hs. done.
Qed.

(** C25 (refinement): the interrupt handler only moves characters along the two
    streams, on a device that reports no error: what writers handed over is still
    the output, sent or waiting, and what was typed is still the input, fetched or
    pending, in the same order, provided that it fits into the buffer. When the
    output buffer has been emptied all waiting writers are awake, and after new
    input all waiting readers. *)
Theorem tty_interrupt_moves kn q r d budget :
  kern_ok kn q → u32 write_buf_addr ≠ 0 → u32 read_buf_addr ≠ 0 → wring r → rring r →
  (∀ d, TTY_STATUS_ERROR (port_status d).1 = 0) →
  read_count r + Z.of_nat (length (pending d)) ≤ TTY_BUF_SIZE → (length (pending d) ≤ budget)%nat →
  ∃ kn' q' r' d',
    tty_interrupt_handle write_buf_addr read_buf_addr budget (TtyState D kn 0 r d) = Done tt (TtyState D kn' 0 r' d') ∧
    kern_ok kn' q' ∧ wring r' ∧ rring r' ∧ output r' d' = output r d ∧ input r' d' = input r d ∧
    (TTY_STATUS_WIRQ (port_status d).1 ≠ 0 → write_count r' = 0 → waiters (core_of kn') q' (u32 write_buf_addr) = []) ∧
    (same_read r r' ∧ pending d' = pending d ∨
     pending d' = [] ∧ waiters (core_of kn') q' (u32 read_buf_addr) = []).
Proof.
  intros Hk Hwa Hra Hw Hr Herr Hroom Hb. unfold tty_interrupt_handle. rw tty_bind_status.
  set (d1 := (port_status d).2).
  assert (∃ kn1 q1 r1 d2,
    (if decide (TTY_STATUS_WIRQ (port_status d).1 ≠ 0) then
       spinlock_acquire #tty_slock;; io_command TTY_COMMAND_WIRQD;; io_command TTY_COMMAND_WIRQ;; send_loop buf_fuel;;
       io_command TTY_COMMAND_WIRQE;; r ← get_rd;
       (if decide (write_count r = 0) then zoom #kernel (sleepq_wake_all write_buf_addr) else mret tt);;
       spinlock_release #tty_slock
     else mret tt) (TtyState D kn 0 r d1) = Done tt (TtyState D kn1 0 r1 d2) ∧
    kern_ok kn1 q1 ∧ output r1 d2 = output r d ∧ wring r1 ∧ same_read r r1 ∧ pending d2 = pending d ∧
    (TTY_STATUS_WIRQ (port_status d).1 ≠ 0 → write_count r1 = 0 → waiters (core_of kn1) q1 (u32 write_buf_addr) = []))
    as (kn1 & q1 & r1 & d2 & H1 & Hk1 & Ho1 & Hw1 & Hs1 & Hp1 & He1).
  { destruct (decide (TTY_STATUS_WIRQ (port_status d).1 ≠ 0)) as [Hi|Hi].
    - destruct (handle_write kn q r d1 Hk Hwa Hw) as (kn1 & q1 & r1 & d2 & H1 & Hk1 & Ho1 & Hw1 & Hs1 & Hp1 & He1).
      exists kn1, q1, r1, d2. rewrite Hp1. unfold output in *. rewrite Ho1. unfold d1. by rw status_sent status_pending.
    - exists kn, q, r, d1. unfold output, d1. by rw status_sent status_pending. }
  rw (bind_Done _ _ _ _ _ H1) tty_bind_status. destruct (same_read_rq _ _ Hs1) as [Hq1 Hr1]. specialize (Hr1 Hr).
  destruct Hs1 as (Hs1 & Hs2 & Hs3). destruct (decide (TTY_STATUS_RIRQ (port_status d2).1 ≠ 0)) as [Hi|Hi].
  - destruct (handle_read kn1 q1 r1 (port_status d2).2 budget Hk1 Hra Hr1 Herr) as (kn' & q' & r' & d' & H2 & Hk2 & Hq2 & Hp2 & Hr2 & Hw2 & Hs4 & Hwt & Hwo);
      [by rewrite status_pending Hp1 Hs3|by rewrite status_pending Hp1|].
    exists kn', q', r', d'. split; [done|]. split; [done|]. destruct (same_write_wq _ _ Hw2) as [Hq3 Hw3]. split; [auto|]. split; [done|].
    split; [unfold output in *; by rw Hs4 Hq3 status_sent|]. split; [unfold input in *; by rw Hp2 Hq2 app_nil_r status_pending Hp1 Hq1|].
    split; [|by right]. intros Hi' Hz. destruct (decide (u32 write_buf_addr = u32 read_buf_addr)) as [->|Hne]; [done|].
    rw Hwo //. apply He1; [done|]. destruct Hw2 as (_ & _ & Hw2). lia.
  - eexists kn1, q1, r1, _. split; [reflexivity|]. unfold output, input in *. rw status_sent status_pending Hp1 Hq1.
    split; [done|]. split; [done|]. split; [done|]. split; [done|]. split; [done|]. split; [done|]. left. done.
Qed.

(** ** Reading *)

Lemma take_loop_run n kn lk r d buf i len :
  rring r → read_count r < Z.of_nat n → 0 ≤ i ≤ len → len ≤ Z.of_nat (length buf) →
  let k := Z.min (read_count r) (len - i) in
  ∃ r', take_loop n buf i len (TtyState D kn lk r d) =
      Done (i + k, splice buf i (take (Z.to_nat k) (rq r))) (TtyState D kn lk r' d) ∧
    rq r' = drop (Z.to_nat k) (rq r) ∧ rring r' ∧ same_write r r'.
Proof.
  revert r buf i. induction n as [|n IH]; intros r buf i Hr Hn Hi Hl k; [pose proof (rg_count _ _ _ Hr); lia|].
  pose proof (rg_count _ _ _ Hr) as Hc. cbn [take_loop]. rw bind_rd. destruct (decide (_ ∧ _)) as [[H1 H2]|Hstop].
  - destruct (ring_pop _ _ _ Hr H1) as (c & Hget & Hq & Hok). rw Hget bind_oread. rewrite arr_set_Some; [lia|]. rw bind_oread !tty_bind_upd.
    set (r1 := (r <| read_head := _ |>) <| read_count := _ |>).
    destruct (IH r1 (<[Z.to_nat i := c]> buf) (i + 1) Hok) as (r' & Hrun & Hq' & Hr' & Hw');
      [change (read_count r1) with (read_count r - 1); lia|lia|by rewrite length_insert|].
    assert (rq r = c :: rq r1) as Hq2 by exact Hq. change (read_count r1) with (read_count r - 1) in Hrun, Hq'.
    assert (Z.to_nat k = S (Z.to_nat (Z.min (read_count r - 1) (len - (i + 1))))) as Hk by (unfold k; lia).
    exists r'. split; [|rewrite Hk Hq2; done]. rw Hrun Hk Hq2. cbn [take]. f_equal. f_equal; [unfold k; lia|].
    symmetry. transitivity (splice (splice buf i [c]) (i + Z.of_nat (length [c])) (take (Z.to_nat (Z.min (read_count r - 1) (len - (i + 1)))) (rq r1))).
    + rewrite splice_app; [lia| |done]. rewrite length_take. unfold rq. rewrite ring_length. cbn [length]. change (read_count r1) with (read_count r - 1). lia.
    + f_equal. unfold splice. rewrite insert_take_drop; [lia|]. do 3 f_equal. cbn. lia.
  - assert (k = 0) as -> by (unfold k; lia). exists r. split; [|done]. rw Z.add_0_r. unfold mret, M_ret. do 2 f_equal.
    unfold splice. cbn. by rw Nat.add_0_r take_drop.
Qed.

(** The answer of a read: as many characters as there are and fit. *)
Definition taken r buf len : Z * list Z :=
  let k := Z.min (read_count r) len in (k, splice buf 0 (take (Z.to_nat k) (rq r))).

Definition read_done kn d r buf len (o : outcome (tty_t D) (Z * list Z)) : Prop :=
  ∃ x r', o = Done (taken r buf len) (TtyState D (kn <| k_status := x |>) 0 r' d) ∧
    0 ≤ x < 2 ^ 32 ∧ rq r' = drop (Z.to_nat (Z.min (read_count r) len)) (rq r) ∧ rring r' ∧ same_write r r'.

Lemma read_rest n kn r d buf len w :
  rring r → 0 < read_count r → 0 ≤ len ≤ Z.of_nat (length buf) → 0 ≤ k_status kn < 2 ^ 32 →
  read_done kn d r buf len
    ((wait_input read_buf_addr n;; x ← take_loop take_fuel buf 0 len; spinlock_release #tty_slock;;
      interrupt_set_state w;; mret x) (TtyState D kn 1 r d)).
Proof.
  intros Hr Hc Hl Hst. assert (wait_input read_buf_addr n (TtyState D kn 1 r d) = Done tt (TtyState D kn 1 r d)) as Hwt.
  { destruct n; cbn [wait_input]; rw bind_rd decide_False; lia || done. }
  rw (bind_Done _ _ _ _ _ Hwt).
  destruct (take_loop_run take_fuel kn 1 r d buf 0 len) as (r' & Hrun & Hq & Hr' & Hw);
    [done|pose proof (rg_count _ _ _ Hr); unfold take_fuel, TTY_BUF_SIZE in *; lia|lia|lia|].
  rw (bind_Done _ _ _ _ _ Hrun) tty_bind_unlock. rewrite !Z.sub_0_r in Hq |- *.
  eexists _, r'. split; [reflexivity|]. split; [by apply set_state_range|]. done.
Qed.

(** Tty_read with input in the buffer returns at once: the oldest
    characters, as many as there are and as the caller's buffer takes, and they
    leave the input queue. Without input the reader sleeps on the buffer with the
    lock free, and answers in this way from whatever it finds when it runs again
    after input has come. *)
Theorem tty_read_takes kn q r d buf len wakeups :
  kern_ok kn q → running kn → u32 read_buf_addr ≠ 0 → rring r → 0 ≤ len ≤ Z.of_nat (length buf) →
  let o := tty_read read_buf_addr (S wakeups) buf len (TtyState D kn 0 r d) in
  if decide (0 < read_count r) then read_done kn d r buf len o
  else ∃ kn' q' k, o = Blocked (TtyState D kn' 0 r d) k ∧ kern_ok kn' q' ∧
    waiters (core_of kn') q' (u32 read_buf_addr) = waiters (core_of kn) q (u32 read_buf_addr) ++ [current kn] ∧
    ∀ kn2 q2 r2 d2, kern_ok kn2 q2 → rring r2 → 0 < read_count r2 →
      read_done kn2 d2 r2 buf len (k (TtyState D kn2 0 r2 d2)).
Proof.
  intros Hk Hrun Hra Hr Hl o. pose proof (kern_ok_kd _ _ Hk) as Hkd. pose proof (co_status _ (kk_cpu _ _ Hkd)) as Hst.
  assert (o = (wait_input read_buf_addr (S wakeups);; x ← take_loop take_fuel buf 0 len; spinlock_release #tty_slock;;
      interrupt_set_state (k_status kn);; mret x) (TtyState D (kd kn) 1 r d)) as -> by done.
  destruct (decide (0 < read_count r)) as [Hc|Hc].
  - destruct (read_rest (S wakeups) (kd kn) r d buf len (k_status kn) Hr Hc Hl Hst) as (x & r' & Hx & Hrest).
    exists x, r'. by split.
  - destruct (sleep_and_switch (kd kn) q read_buf_addr Hkd (running_kd _ Hrun) (disabled_off _) Hra)
      as (kn1 & q' & k0 & [Hadd Hsw Hk1 Hw _ Hres]).
    eexists (switched kn1), q', _. split; [|split; [exact Hk1|split; [exact Hw|]]].
    + cbn [wait_input]. rw bind_bind bind_rd decide_True; [pose proof (rg_count _ _ _ Hr); lia|].
      rw bind_bind (tty_bind_kernel _ _ _ _ _ _ _ _ Hadd) bind_bind tty_bind_unlock bind_bind. apply bind_Blocked.
      unfold zoom. change (lget #kernel (TtyState D kn1 0 r d)) with kn1. rw Hsw. reflexivity.
    + intros kn2 q2 r2 d2 Hk2 Hr2 Hc2. destruct (Hres kn2 (co_status _ (kk_cpu _ _ Hk2))) as (x0 & Hx0 & Hr0 & _).
      cbn beta. change (lget #kernel (TtyState D kn2 0 r2 d2)) with kn2. rw Hx0.
      assert (0 ≤ k_status (kn2 <| k_status := x0 |>) < 2 ^ 32) as Hr0' by exact Hr0.
      destruct (read_rest wakeups (kn2 <| k_status := x0 |>) r2 d2 buf len (k_status kn) Hr2 Hc2 Hl Hr0') as (x & r' & Hx & Hrest).
      exists x, r'. split; [exact Hx|done].
Qed.

(** ** Writing *)

Lemma fill_buffer_run n kn lk r d buf i len :
  wring r → TTY_BUF_SIZE - write_count r < Z.of_nat n → 0 ≤ i ≤ len → len ≤ Z.of_nat (length buf) →
  let k := Z.min (TTY_BUF_SIZE - write_count r) (len - i) in
  ∃ r', fill_buffer n buf i len (TtyState D kn lk r d) = Done (i + k) (TtyState D kn lk r' d) ∧
    wq r' = wq r ++ slice buf i k ∧ wring r' ∧ write_count r' = write_count r + k ∧ same_read r r'.
Proof.
  revert r i. induction n as [|n IH]; intros r i Hr Hn Hi Hl k; [pose proof (rg_count _ _ _ Hr); lia|].
  pose proof (rg_count _ _ _ Hr) as Hc. cbn [fill_buffer]. rw bind_rd. destruct (decide (_ ∧ _)) as [[H1 H2]|Hstop].
  - destruct (arr_get_is_Some buf i) as [c Hget]; [lia|]. rw Hget bind_oread.
    destruct (ring_push _ _ _ c Hr H1) as (wb & Hset & Hq & Hok). rw Hset bind_oread !tty_bind_upd.
    set (r1 := (r <| write_buf := wb |>) <| write_count := _ |>).
    destruct (IH r1 (i + 1) Hok) as (r' & Hrun & Hq' & Hr' & Hc' & Hs');
      [change (write_count r1) with (write_count r + 1); lia|lia|done|].
    change (write_count r1) with (write_count r + 1) in Hrun, Hq', Hc'.
    assert (k = Z.min (TTY_BUF_SIZE - (write_count r + 1)) (len - (i + 1)) + 1) as Hk by (unfold k; lia).
    exists r'. split; [rw Hrun; f_equal; lia|]. split; [|split; [done|split; [lia|done]]].
    rw Hq' (slice_cons buf i k c) //; [lia|]. change (wq r1) with (ring wb (write_head r) (write_count r + 1)). rw Hq -app_assoc Hk.
    cbn [app]. do 4 f_equal. lia.
  - assert (k = 0) as -> by (unfold k; lia). exists r. rw !Z.add_0_r slice_none app_nil_r. done.
Qed.

(** One turn of the loop with an empty buffer hands over some characters. *)
Lemma tty_write_turn {A} kn lk r d buf i len (f : Z → M (tty_t D) A) :
  wring r → write_count r = 0 → 0 ≤ i < len → len ≤ Z.of_nat (length buf) →
  ∃ r' d' i', i < i' ≤ len ∧
    (i ← fill_buffer buf_fuel buf i len; status ← io_status;
     (if decide (TTY_STATUS_WBUSY status = 0) then send_head else mret tt);; f i) (TtyState D kn lk r d) =
      f i' (TtyState D kn lk r' d') ∧
    wring r' ∧ output r' d' = output r d ++ slice buf i (i' - i).
Proof.
  intros Hr Hz Hi Hl.
  destruct (fill_buffer_run buf_fuel kn lk r d buf i len) as (r1 & Hrun & Hq & Hr1 & Hc1 & Hs1);
    [done|unfold buf_fuel, TTY_BUF_SIZE; lia|lia|lia|].
  set (k := Z.min (TTY_BUF_SIZE - write_count r) (len - i)) in *. assert (0 < k ≤ len - i) as Hk by (unfold k, TTY_BUF_SIZE; lia).
  rw (bind_Done _ _ _ _ _ Hrun) tty_bind_status.
  assert (output r1 (port_status d).2 = output r d ++ slice buf i (i + k - i)) as Ho.
  { unfold output. rw status_sent Hq -app_assoc. by replace (i + k - i) with k by lia. }
  destruct (decide (TTY_STATUS_WBUSY (port_status d).1 = 0)) as [Hb|Hb].
  - destruct (send_head_run kn lk r1 (port_status d).2) as (r2 & d2 & Hrun2 & Ho2 & Hw2 & _);
      [done|lia|by apply status_free|].
    exists r2, d2, (i + k). split; [lia|]. rw (bind_Done _ _ _ _ _ Hrun2) Ho2. done.
  - eexists r1, _, (i + k). split; [lia|]. rw bind_ret. done.
Qed.

(** The waiting writer [t] runs again, with whatever in the output buffer: it is
    empty when the writer is woken, but another one may have filled it since. *)
Record resumes (t : Z) (s : tty_t D) : Prop := {
  rs_kernel : ∃ q, kern_ok (Tty.kernel s) q;
  rs_running : running (Tty.kernel s);
  rs_current : current (Tty.kernel s) = t;
  rs_lock : tty_slock s = 0;
  rs_ring : wring (tty_rd s) }.

(** The routine gives up the CPU again and has handed over nothing. *)
Definition waits_again (s : tty_t D) (o : outcome (tty_t D) Z) : Prop :=
  ∃ s' k, o = Blocked s' k ∧ output (tty_rd s') (io s') = output (tty_rd s) (io s).

(** The routine hands over [rest] after the output [base] and answers [len]. Whenever
    it gives up the CPU the thread [t] is a waiter and a part of [rest] is handed over;
    from then on the output may grow by what others write. When it runs again and the
    buffer is empty, the routine hands over what is left; when there are characters of
    others in it, it waits again, [w] times, and afterwards [wakeups] times each. *)
Fixpoint delivering (wakeups w : nat) (t : Z) (base rest : list Z) (len : Z) (o : outcome (tty_t D) Z) {struct o} : Prop :=
  match o with
  | Done n s => n = len ∧ tty_slock s = 0 ∧ wring (tty_rd s) ∧ output (tty_rd s) (io s) = base ++ rest
  | Blocked s k =>
    ∃ l1 l2 q, rest = l1 ++ l2 ∧ tty_slock s = 0 ∧ wring (tty_rd s) ∧ output (tty_rd s) (io s) = base ++ l1 ∧
      kern_ok (Tty.kernel s) q ∧ t ∈ waiters (core_of (Tty.kernel s)) q (u32 write_buf_addr) ∧
      ∀ s', resumes t s' →
        if decide (write_count (tty_rd s') = 0) then
          delivering wakeups wakeups t (output (tty_rd s') (io s')) l2 len (k s')
        else match w with
             | O => True
             | S w' => waits_again s' (k s') ∧ delivering wakeups w' t (output (tty_rd s') (io s')) l2 len (k s')
             end
  | _ => False
  end.
Definition delivers (wakeups : nat) : Z → list Z → list Z → Z → outcome (tty_t D) Z → Prop := delivering wakeups wakeups.

Lemma delivering_app wk w t base l1 l2 len o : delivering wk w t (base ++ l1) l2 len o → delivering wk w t base (l1 ++ l2) len o.
Proof.
  destruct o as [n s|s k| | |]; simpl; try done.
  - intros (? & ? & ? & ->). by rw -app_assoc.
  - intros (l3 & l4 & q & -> & H1 & H2 & H3 & H4 & H5 & H6). exists (l1 ++ l3), l4, q.
    split; [by rw -app_assoc|]. split; [done|]. split; [done|]. split; [by rw H3 -app_assoc|]. done.
Qed.

Lemma delivering_end wk w t kn r d len w0 :
  wring r → delivering wk w t (output r d) [] len ((interrupt_set_state w0;; mret len) (TtyState D kn 0 r d)).
Proof.
  intros Hr. change (len = len ∧ 0 = 0 ∧ wring r ∧ output r d = output r d ++ []). by rw app_nil_r.
Qed.

(** A writer that finds characters in the buffer sleeps on it. *)
Lemma wait_drained_sleeps {A} n kn q r d (f : unit → M (tty_t D) A) :
  kern_ok kn q → running kn → interrupts_off (k_status kn) = true → u32 write_buf_addr ≠ 0 → wring r → write_count r ≠ 0 →
  ∃ kn' q' k, (wait_drained write_buf_addr (S n) ≫= f) (TtyState D kn 1 r d) = Blocked (TtyState D kn' 0 r d) k ∧
    kern_ok kn' q' ∧ current kn ∈ waiters (core_of kn') q' (u32 write_buf_addr) ∧
    ∀ kn2 q2 r2 d2, kern_ok kn2 q2 → ∃ x, k (TtyState D kn2 0 r2 d2) =
        (wait_drained write_buf_addr n ≫= f) (TtyState D (kn2 <| k_status := x |>) 1 r2 d2) ∧
      0 ≤ x < 2 ^ 32 ∧ interrupts_off x = true.
Proof.
  intros Hk Hrun Hoff Ha Hr Hz. destruct (sleep_and_switch kn q write_buf_addr Hk Hrun Hoff Ha) as (kn1 & q' & k0 & [Hadd Hsw Hk1 Hw _ Hres]).
  eexists (switched kn1), q', _. split; [|split; [exact Hk1|split]].
  - cbn [wait_drained]. rw bind_bind bind_rd decide_True; [pose proof (rg_count _ _ _ Hr); lia|].
    rw bind_bind (tty_bind_kernel _ _ _ _ _ _ _ _ Hadd) bind_bind tty_bind_unlock bind_bind. apply bind_Blocked.
    unfold zoom. change (lget #kernel (TtyState D kn1 0 r d)) with kn1. rw Hsw. reflexivity.
  - cbn. rw Hw. apply elem_of_app. right. by left.
  - intros kn2 q2 r2 d2 Hk2. destruct (Hres kn2 (co_status _ (kk_cpu _ _ Hk2))) as (x0 & Hx0 & Hr0 & Hoff0).
    exists x0. cbn beta. change (lget #kernel (TtyState D kn2 0 r2 d2)) with kn2. rw Hx0. split; [|done].
    cbn [ozoom obind lset]. by rw bind_bind.
Qed.

Lemma wait_drained_empty {A} n kn lk r d (f : unit → M (tty_t D) A) :
  write_count r = 0 → (wait_drained write_buf_addr n ≫= f) (TtyState D kn lk r d) = f tt (TtyState D kn lk r d).
Proof.
  intros Hz. apply bind_Done. destruct n; cbn [wait_drained]; rw bind_rd decide_False; lia || done.
Qed.

(** The rest of the routine after [wait_drained] hands over [rest] when the buffer is empty. *)
Lemma wait_delivers wk t rest len (f : unit → M (tty_t D) Z) :
  u32 write_buf_addr ≠ 0 →
  (∀ kn q r d, kern_ok kn q → running kn → current kn = t → interrupts_off (k_status kn) = true → wring r → write_count r = 0 →
    delivering wk wk t (output r d) rest len (f tt (TtyState D kn 1 r d))) →
  ∀ n kn q r d, kern_ok kn q → running kn → current kn = t → interrupts_off (k_status kn) = true → wring r → write_count r ≠ 0 →
    delivering wk n t (output r d) rest len ((wait_drained write_buf_addr (S n) ≫= f) (TtyState D kn 1 r d)).
Proof.
  intros Ha Hf n. induction n as [|n IH]; intros kn q r d Hk Hrun Hcur Hoff Hr Hz.
  all: match goal with |- context [wait_drained _ (S ?m) ≫= _] =>
    destruct (wait_drained_sleeps m kn q r d f Hk Hrun Hoff Ha Hr Hz) as (kn1 & q1 & k & E & Hk1 & Hw & Hres) end.
  all: rewrite E; rewrite Hcur in Hw; exists [], rest, q1; split_and!; try done; [by rw app_nil_r|].
  all: intros [kn2 lk2 r2 d2] [[q2 Hk2] Hrun2 Hcur2 Hlk Hr2]; cbn in Hk2, Hrun2, Hcur2, Hlk, Hr2; subst lk2.
  all: destruct (Hres kn2 q2 r2 d2 Hk2) as (x & -> & Hx & Hoff2); cbn [tty_rd io].
  all: pose proof (kern_ok_status _ _ _ Hk2 Hx) as Hk3; assert (running (kn2 <| k_status := x |>)) as Hrun3 by by destruct Hrun2.
  - destruct (decide (write_count r2 = 0)) as [Hz2|Hz2]; [|done]. rewrite wait_drained_empty //. by apply (Hf _ q2).
  - destruct (decide (write_count r2 = 0)) as [Hz2|Hz2]; [rewrite wait_drained_empty //; by apply (Hf _ q2)|].
    split; [|by apply (IH _ q2)].
    destruct (wait_drained_sleeps n _ q2 r2 d2 f Hk3 Hrun3 Hoff2 Ha Hr2 Hz2) as (kn4 & q4 & k4 & E4 & _).
    rewrite E4. by eexists _, _.
Qed.

Lemma write_loop_delivers n w kn q r d buf i len w0 :
  kern_ok kn q → running kn → interrupts_off (k_status kn) = true → u32 write_buf_addr ≠ 0 → wring r →
  0 ≤ i ≤ len → len ≤ Z.of_nat (length buf) → len - i ≤ Z.of_nat n →
  delivering w w (current kn) (output r d) (slice buf i (len - i)) len
    ((i ← tty_write_loop write_buf_addr n (S w) buf i len; spinlock_release #tty_slock;; interrupt_set_state w0;; mret i)
       (TtyState D kn 1 r d)).
Proof.
  intros Hk Hrun Hoff Ha Hr Hi Hl Hn. revert kn q r d i Hk Hrun Hoff Hr Hi Hn. induction n as [|n IH]; intros kn q r d i Hk Hrun Hoff Hr Hi Hn.
  { cbn [tty_write_loop]. rw decide_False; [lia|]. rw bind_ret tty_bind_unlock. assert (i = len) as -> by lia.
    rw Z.sub_diag slice_none. by apply delivering_end. }
  cbn [tty_write_loop]. destruct (decide (i < len)) as [Hlt|Hge]; cycle 1.
  { rw bind_ret tty_bind_unlock. assert (i = len) as -> by lia. rw Z.sub_diag slice_none. by apply delivering_end. }
  rw bind_bind. set (f := λ _ : unit, _). set (t := current kn).
  assert (∀ kn q r d, kern_ok kn q → running kn → current kn = t → interrupts_off (k_status kn) = true → wring r → write_count r = 0 →
    delivering w w t (output r d) (slice buf i (len - i)) len (f tt (TtyState D kn 1 r d))) as Hturn.
  { clearbody t. clear kn q r d Hk Hrun Hoff Hr. intros kn q r d Hk Hrun Hcur Hoff Hr Hz. unfold f.
    destruct (tty_write_turn kn 1 r d buf i len (λ j, tty_write_loop write_buf_addr n (S w) buf j len)) as (r2 & d2 & i2 & Hi2 & Ht & Hr2 & Ho2); [done|done|lia|done|].
    cbn beta in Ht. unfold mbind at 1, M_bind at 1. rw Ht. replace (len - i) with ((i2 - i) + (len - i2)) by lia. rw slice_app; [lia..|].
    replace (i + (i2 - i)) with i2 by lia. apply delivering_app. rw -Hcur. rw -Ho2. apply (IH kn q r2 d2 i2); [done..|lia|lia]. }
  destruct (decide (write_count r = 0)) as [Hz|Hz].
  - rewrite wait_drained_empty //. by apply (Hturn kn q).
  - by apply (wait_delivers w t _ len f Ha Hturn w kn q).
Qed.

(** The whole routine. *)
Lemma tty_write_run kn q r d buf len wakeups :
  kern_ok kn q → running kn → u32 write_buf_addr ≠ 0 → wring r → 0 ≤ len ≤ Z.of_nat (length buf) →
  delivers wakeups (current kn) (output r d) (slice buf 0 len) len
    (tty_write write_buf_addr (S wakeups) buf len (TtyState D kn 0 r d)).
Proof.
  intros Hk Hrun Ha Hr Hl. replace (slice buf 0 len) with (slice buf 0 (len - 0)) by (f_equal; lia).
  apply (write_loop_delivers (Z.to_nat len) wakeups (kd kn) q r d buf 0 len (k_status kn)); [by apply kern_ok_kd|by apply running_kd|
    apply disabled_off|done|done|lia|lia|lia].
Qed.

(** C24 (safety): tty_write hands over exactly the first [len] bytes of the buffer,
    each once and in order, and answers [len], however often it has to wait for the
    output buffer to drain and whatever is written by others in the meantime. While
    it waits it holds no lock and sleeps on the buffer; when it runs again and finds
    the buffer filled by another writer it hands over nothing and sleeps again, up to
    any number of times in a row that is chosen in advance. *)
Theorem tty_write_delivers kn q r d buf len wakeups :
  kern_ok kn q → running kn → u32 write_buf_addr ≠ 0 → wring r → 0 ≤ len ≤ Z.of_nat (length buf) →
  delivers wakeups (current kn) (output r d) (slice buf 0 len) len
    (tty_write write_buf_addr (S wakeups) buf len (TtyState D kn 0 r d)).
Proof. apply tty_write_run. Qed.

(** A character that comes when the buffer is full, [read_count == TTY_BUF_SIZE],
    is stored over the oldest one: the test before it only refuses the next. *)
Lemma tty_receive_overruns n kn lk r d c :
  rring r → read_count r = TTY_BUF_SIZE → pending d = [c] →
  ∃ r' d', receive_loop (S n) (TtyState D kn lk r d) = Done tt (TtyState D kn lk r' d') ∧
    read_count r' = TTY_BUF_SIZE + 1 ∧ read_head r' = read_head r ∧ arr_get (read_buf r') (read_head r) = Some c.
Proof.
  intros [Hs Hh _] Hc Hp. cbn [receive_loop]. rw tty_bind_status decide_True; [by rewrite status_avail Hp|].
  rw bind_read bind_rd decide_False; [lia|]. rewrite -(status_pending d) in Hp. destruct (read_pending _ c [] Hp) as [Hu Hl].
  rewrite Hc Z.rem_mod_nonneg; [unfold TTY_BUF_SIZE in *; lia..|].
  replace ((read_head r + TTY_BUF_SIZE) `mod` TTY_BUF_SIZE) with (read_head r) by (unfold TTY_BUF_SIZE in *; zdm).
  rewrite arr_set_Some; [lia|]. rw bind_bind bind_oread bind_bind !tty_bind_upd Hu.
  assert (∀ st, tty_slock st = lk → Tty.kernel st = kn → io st = (port_read (port_status d).2).2 →
    ∃ d', receive_loop n st = Done tt (TtyState D kn lk (tty_rd st) d')) as Hend.
  { intros [kn' lk' r' d'] E1 E2 E3. cbn in E1, E2, E3. subst. eexists.
    assert (TTY_STATUS_RAVAIL (port_status (port_read (port_status d).2).2).1 = 0) as Hav.
    { destruct (decide (TTY_STATUS_RAVAIL (port_status (port_read (port_status d).2).2).1 = 0)) as [|E]; [done|]. by apply status_avail in E. }
    destruct n; cbn [receive_loop tty_rd]; rw tty_bind_status decide_False; try reflexivity; by rewrite Hav; intros []. }
  destruct (Hend (TtyState D kn lk ((r <| read_buf := <[Z.to_nat (read_head r) := c]> (read_buf r) |>) <| read_count := read_count r + 1 |>)
    (port_read (port_status d).2).2)) as (d' & Hrun); [done..|].
  eexists _, d'. split; [exact Hrun|]. split; [cbn; by rw Hc|]. split; [done|]. cbn. rewrite arr_get_insert; [unfold TTY_BUF_SIZE in *; lia|].
  by rw decide_True.
Qed.
End spec.

(** ** A terminal that is never busy *)

Record terminal := Terminal { screen : list Z; keys : list Z }.

#[export] Instance terminal_ports : TtyPorts terminal := {
  port_status t := (if decide (keys t = []) then 8 else 13, t);
  port_command _ t := t;
  port_read t := (default 0 (head (keys t)), Terminal (screen t) (tail (keys t)));
  port_write c t := Terminal (screen t ++ [c]) (keys t) }.

#[export] Instance terminal_laws : TtyLaws terminal.
Proof.
  refine {| sent := screen; pending t := map u8 (keys t); port_free _ := True |}; try done.
  - intros [s k]. simpl. destruct k; simpl; split; intros H; try done; by vm_compute in H.
  - intros [s [|x k]] c l; simpl; [done|]. by intros [= -> ->].
Defined.

(** The buffers, empty or with one character. *)
Definition empty_tty : tty_real_device_t :=
  TtyReal (replicate 2048 0) 0 0 (replicate 2048 0) 2047 0.
Definition busy_tty : tty_real_device_t :=
  TtyReal (<[0%nat := 104]> (replicate 2048 0)) 0 1 (<[2047%nat := 104]> (replicate 2048 0)) 2047 1.

Lemma empty_tty_ok : wring empty_tty ∧ rring empty_tty.
Proof. by split; constructor. Qed.
Lemma busy_tty_ok : wring busy_tty ∧ rring busy_tty.
Proof. by split; constructor. Qed.

Lemma example_tty_kernel : kern_ok example_running (Queues [] (λ _, [])) ∧ running example_running.
Proof.
  split; [constructor; [apply example_running_inv|apply example_running_cpu|done|done|done]|].
  constructor; [|vm_compute; reflexivity..]. unfold qtid. vm_compute. split; congruence.
Qed.

Lemma tty_interrupt_moves_witness :
  ∃ kn' q' r' d', tty_interrupt_handle 0x3000 0x4000 5 (TtyState terminal example_running 0 busy_tty (Terminal [] [105])) =
      Done tt (TtyState terminal kn' 0 r' d') ∧ kern_ok kn' q' ∧ output r' d' = [104] ∧ input r' d' = [104; 105].
Proof.
  destruct example_tty_kernel as [Hk Hr]. destruct busy_tty_ok as [Hw Hrr].
  destruct (tty_interrupt_moves 0x3000 0x4000 example_running (Queues [] (λ _, [])) busy_tty (Terminal [] [105]) 5
    Hk ltac:(done) ltac:(done) Hw Hrr) as (kn' & q' & r' & d' & Hrun & Hk' & _ & _ & Ho & Hi & _).
  - intros [s k]. simpl. by destruct (decide (k = [])).
  - vm_compute. congruence.
  - simpl. lia.
  - exists kn', q', r', d'. split; [exact Hrun|]. split; [exact Hk'|]. rewrite Ho Hi. split; vm_compute; reflexivity.
Defined.

Lemma tty_read_takes_witness :
  read_done example_running (Terminal [] []) busy_tty [0; 0; 0] 3
    (tty_read 0x4000 1 [0; 0; 0] 3 (TtyState terminal example_running 0 busy_tty (Terminal [] []))) ∧
  taken busy_tty [0; 0; 0] 3 = (1, [104; 0; 0]).
Proof.
  destruct example_tty_kernel as [Hk Hr]. destruct busy_tty_ok as [Hw Hrr]. split; [|vm_compute; reflexivity].
  exact (tty_read_takes 0x4000 example_running (Queues [] (λ _, [])) busy_tty (Terminal [] []) [0; 0; 0] 3 0
    Hk Hr ltac:(done) Hrr ltac:(cbn; lia)).
Defined.

Lemma tty_write_delivers_witness :
  delivers 0x3000 1 1 [104] [105; 106] 2
    (tty_write 0x3000 2 [105; 106; 107] 2 (TtyState terminal example_running 0 busy_tty (Terminal [] []))).
Proof.
  destruct example_tty_kernel as [Hk Hr]. destruct busy_tty_ok as [Hw Hrr].
  exact (tty_write_delivers 0x3000 example_running (Queues [] (λ _, [])) busy_tty (Terminal [] []) [105; 106; 107] 2 1
    Hk Hr ltac:(done) Hw ltac:(cbn; lia)).
Defined.
End TtySpec.
