(* ===== verification/Polltty.v ===== *)
(** * The polling terminal driver (drivers/polltty.c)

    The driver behind kprintf: it waits at the ports of the first terminal
    until a character can be written or read.  The device is the one of
    Tty, given by the class [TtyPorts]. *)
From S2P Require Import Prelude Bytes Kmalloc Tty.
Import Kmalloc Tty.

Module Polltty.

(** polltty_iobase and the ports behind it. *)
Record polltty_t {D : Type} := Poll { polltty_iobase : Z; poll_io : D }.
Arguments polltty_t D : clear implicits.
#[export] Instance eta_polltty {D} : Eta (polltty_t D) := fun s =>
  Poll D (polltty_iobase s) (poll_io s).

(** A terminal stays busy for a bounded number of polls. *)
Class TtyPrompt (D : Type) `{TtyLaws D} := {
  busy_for : D → nat;
  busy_step d : TTY_STATUS_WBUSY (port_status d).1 ≠ 0 →
    (busy_for (port_status d).2 < busy_for d)%nat;
  busy_bound : nat;
  busy_le d : (busy_for d ≤ busy_bound)%nat }.

Section polltty.
Context {D : Type} `{TtyPorts D}.
Abbreviation P A := (M (polltty_t D) A).

(** The descriptors up to the first one without a type; [None] when there is
    no such descriptor. *)
Fixpoint find_tty (descriptors : list io_descriptor) : option Z :=
  match descriptors with
  | [] => None
  | io_desc :: rest =>
    if decide (io_type io_desc = 0) then Some 0
    else if decide (io_type io_desc = 0x201) then Some (io_area_base io_desc)
    else find_tty rest
  end.

Definition polltty_init (descriptors : list io_descriptor) : P unit :=
  base ← oread (find_tty descriptors);
  modify (λ s, s <| polltty_iobase := base |>).

Definition poll_status : P Z := fun s =>
  let '(x, d) := port_status (poll_io s) in Done x (s <| poll_io := d |>).

Definition poll_command (c : Z) : P unit := modify (λ s, s <| poll_io := port_command c (poll_io s) |>).
Definition poll_read : P Z := fun s =>
  let '(x, d) := port_read (poll_io s) in Done x (s <| poll_io := d |>).
Definition poll_write (c : Z) : P unit := modify (λ s, s <| poll_io := port_write c (poll_io s) |>).

(** The loops that wait for the device; [polls] bounds the turns. *)
Definition wait_available (polls : nat) : P unit :=
  while_loop polls (status ← poll_status; mret (bool_decide (TTY_STATUS_RAVAIL status = 0))) (mret tt).
Definition wait_free (polls : nat) : P unit :=
  while_loop polls (status ← poll_status; mret (bool_decide (TTY_STATUS_WBUSY status ≠ 0))) (mret tt).

Definition polltty_getchar (polls : nat) : P Z :=
  base ← gets polltty_iobase;
  if decide (base = 0) then mret 0 else
  wait_available polls;;
  poll_command TTY_COMMAND_RIRQ;;
  poll_read.

Definition polltty_putchar (polls : nat) (c : Z) : P unit :=
  base ← gets polltty_iobase;
  if decide (base ≠ 0) then
    wait_free polls;;
    poll_write c;;
    wait_free polls
  else mret tt.
End polltty.

(** ** What the driver does *)

Section spec.
Context {D : Type} `{TtyPrompt D}.

Lemma wait_free_frees polls (s : polltty_t D) :
  (busy_for (poll_io s) < polls)%nat →
  ∃ d, wait_free polls s = Done tt (s <| poll_io := d |>) ∧
    port_free d ∧ sent d = sent (poll_io s) ∧ pending d = pending (poll_io s).
Proof.
  revert s. induction polls as [|n IH]; intros s Hn; [lia|].
  pose proof (status_sent (poll_io s)) as Hs. pose proof (status_pending (poll_io s)) as Hp.
  pose proof (status_free (poll_io s)) as Hf. pose proof (busy_step (poll_io s)) as Hb.
  assert (poll_status s = Done (port_status (poll_io s)).1 (s <| poll_io := (port_status (poll_io s)).2 |>)) as Hr
    by (unfold poll_status; by destruct (port_status (poll_io s))).
  set (x := (port_status (poll_io s)).1) in *. set (d := (port_status (poll_io s)).2) in *.
  unfold wait_free. cbn [while_loop]. rw bind_bind (bind_Done _ _ _ _ _ Hr) bind_ret. case_bool_decide as Hx.
  - destruct (IH (s <| poll_io := d |>)) as (d' & Hd & Hfree & Hsent & Hpend).
    { rsimpl. specialize (Hb Hx). lia. }
    exists d'. rsimpl. rewrite -Hs -Hp. split; [|done]. exact Hd.
  - exists d. split; [done|]. split; [apply Hf; lia|done].
Qed.

(** A character goes to the device, once, after those sent before. *)
Lemma putchar_sends polls c (s : polltty_t D) :
  (busy_bound < polls)%nat → polltty_iobase s ≠ 0 →
  ∃ d, polltty_putchar polls c s = Done tt (s <| poll_io := d |>) ∧
    sent d = sent (poll_io s) ++ [c] ∧ pending d = pending (poll_io s).
Proof.
  intros Hp Hbase. unfold polltty_putchar. rw bind_gets decide_True //.
  pose proof (busy_le (poll_io s)). destruct (wait_free_frees polls s) as (d & E & Hfree & Hs & Hpd); [lia|].
  rw (bind_Done _ _ _ _ _ E). unfold poll_write. rw bind_modify.
  pose proof (busy_le (port_write c d)).
  destruct (wait_free_frees polls (s <| poll_io := port_write c d |>)) as (d' & E' & _ & Hs' & Hpd'); [rsimpl; lia|].
  exists d'. rsimpl. split; [exact E'|]. rewrite Hs' Hpd' write_sent // write_pending Hs Hpd //.
Qed.

Lemma putchar_without_tty polls c (s : polltty_t D) :
  polltty_iobase s = 0 → polltty_putchar polls c s = Done tt s.
Proof. intros Hb. unfold polltty_putchar. rw bind_gets decide_False; [congruence|done]. Qed.
End spec.
End Polltty.
