(* ===== verification/Xprintf.v ===== *)
(** * Formatted output (lib/xprintf.c)

    The routines run on the object [str] points into and the polling terminal.
    A [char *] into a constant string is the list of characters from there to
    the end of its object; reading past it is a fault.  An argument of a
    variadic call is its 32-bit word, with the object it points to if it is a
    pointer. *)
From S2P Require Import Prelude Bytes Cpu Tty Polltty.
Import Tty Polltty.

Module Xprintf.

Definition FLAG_TTY : Z := 0x8000.
Definition FLAG_SMALLS : Z := 0x01.
Definition FLAG_ALT : Z := 0x02.
Definition FLAG_ZEROPAD : Z := 0x04.
Definition FLAG_LEFT : Z := 0x08.
Definition FLAG_SPACE : Z := 0x10.
Definition FLAG_SIGN : Z := 0x20.

Record arg_t := Arg { arg_word : Z; arg_chars : list Z }.

Record print_t {D : Type} := Printing {
  p_status : Z; kprintf_slock : Z; out : list Z; poll : polltty_t D }.
Arguments print_t D : clear implicits.
#[export] Instance eta_print {D} : Eta (print_t D) := fun s =>
  Printing D (p_status s) (kprintf_slock s) (out s) (poll s).

Definition digits : list Z := text "0123456789ABCDEF0123456789abcdef".

(** [*s++] *)
Definition next {S} (s : list Z) : M S (Z * list Z) :=
  match s with c :: r => mret (c, r) | [] => fault end.

(** The number and [*next]. *)
Fixpoint scan_int (value : Z) (s : list Z) : option (Z * list Z) :=
  match s with
  | [] => None
  | c :: r =>
    if decide (chr "0" < c ∧ c < chr "9") then scan_int (i32 (10 * value + (c - chr "0"))) r
    else Some (value, s)
  end.

(** [va_arg] *)
Definition va_arg {S} (ap : list arg_t) : M S (arg_t * list arg_t) :=
  match ap with a :: r => mret (a, r) | [] => fault end.

Section xprintf.
Context {D : Type} `{TtyPorts D}.
(** How often the terminal is polled for one character. *)
Variable polls : nat.
Abbreviation X A := (M (print_t D) A).

Definition printc (buf c flags : Z) : X unit :=
  if decide (Z.land flags FLAG_TTY ≠ 0) then
    if decide (c ≠ 0) then zoom #poll (polltty_putchar polls c) else mret tt
  else
    o ← gets out;
    o' ← oread (arr_set o buf c);
    modify (λ s, s <| out := o' |>).

(** ** print_uint *)

(** An unsigned int has at most 32 digits in any base from 2. *)
Definition digit_fuel : nat := 32.

Fixpoint rev_digits (fuel : nat) (n base flags i : Z) (rev : list Z) : X (Z * list Z) :=
  match fuel with
  | O => spin
  | S f =>
    d ← oread (arr_get digits (if decide (Z.land flags FLAG_SMALLS ≠ 0) then 16 + n `mod` base else n `mod` base));
    rev ← oread (arr_set rev i d);
    let i := i + 1 in
    let n := n `div` base in
    if decide (n ≠ 0) then rev_digits f n base flags i rev else mret (i, rev)
  end.

(** [while (i < limit) rev[i++] = c;] in [Z.to_nat (limit - i)] turns. *)
Fixpoint pad (n : nat) (c i : Z) (rev : list Z) : X (Z * list Z) :=
  match n with
  | O => mret (i, rev)
  | S n' => rev ← oread (arr_set rev i c); pad n' c (i + 1) rev
  end.

(** [written] at the end; [n] turns are left until [i] is negative. *)
Fixpoint put_rev (n : nat) (buf i written size flags : Z) (rev : list Z) : X Z :=
  match n with
  | O => mret written
  | S n' =>
    if decide (written < size) then
      c ← oread (arr_get rev i);
      printc buf c flags;;
      put_rev n' (buf + 1) (i - 1) (written + 1) size flags rev
    else mret written
  end.

Definition print_uint (buf size n base flags prec width : Z) : X Z :=
  if decide (size ≤ 0) then mret 0 else
  '(i, rev) ← rev_digits digit_fuel n base flags 0 (replicate 11 0);
  let prec := Z.min prec 11 in
  let width := Z.min width 11 in
  '(i, rev) ← pad (Z.to_nat (prec - i)) (chr "0") i rev;
  '(i, rev) ← pad (Z.to_nat (width - i)) (chr " ") i rev;
  put_rev (Z.to_nat i) buf (i - 1) 0 size flags rev.

(** ** vxnprintf *)

(** The loop over flags and modifiers: the conversion character, the rest of
    the format, flags, precision and width.  Each turn but the last is meant to
    consume a character of the format, [fuel] is its length. *)
Fixpoint read_mods (fuel : nat) (ch : Z) (fmt : list Z) (flags prec width : Z)
    : X (Z * list Z * Z * Z * Z) :=
  match fuel with
  | O => spin
  | S f =>
    let more fmt flags prec width :=
      '(ch, fmt) ← next fmt;
      if decide (ch ≠ 0) then read_mods f ch fmt flags prec width
      else mret (ch, fmt, flags, prec, width) in
    if decide (ch = chr "#") then more fmt (Z.lor flags FLAG_ALT) prec width
    else if decide (ch = chr "0") then more fmt (Z.lor flags FLAG_ZEROPAD) prec width
    else if decide (ch = chr " ") then more fmt (Z.lor flags FLAG_SPACE) prec width
    else if decide (ch = chr "+") then more fmt (Z.lor flags FLAG_SIGN) prec width
    else if decide (ch = chr "-") then more fmt (Z.lor flags FLAG_LEFT) prec width
    else if decide (ch = chr ".") then
      '(prec, fmt) ← oread (scan_int 0 fmt);
      more fmt flags prec width
    else if decide (chr "1" ≤ ch ≤ chr "9") then
      '(width, fmt) ← oread (scan_int 0 (ch :: fmt));
      more fmt flags prec width
    else mret (ch, fmt, flags, prec, width)
  end.

(** [while (written < w && *s != 0) printc(buf++, *s++, flags), written++] *)
Fixpoint put_string (s : list Z) (buf written w flags : Z) : X (Z * Z) :=
  if decide (written < w) then
    match s with
    | [] => fault
    | c :: r =>
      if decide (c ≠ 0) then printc buf c flags;; put_string r (buf + 1) (written + 1) w flags
      else mret (buf, written)
    end
  else mret (buf, written).

(** The sign characters of a conversion [d] or [i], and the number to print. *)
Definition print_sign (arg buf written flags : Z) : X (Z * Z * Z) :=
  '(arg, buf, written) ←
    (if decide (arg < 0) then
       printc buf (chr "-") flags;; mret (i32 (- arg), buf + 1, written + 1)
     else mret (arg, buf, written));
  if decide (Z.land flags FLAG_SIGN ≠ 0) then
    printc buf (chr "+") flags;; mret (arg, buf + 1, written + 1)
  else if decide (Z.land flags FLAG_SPACE ≠ 0) then
    printc buf (chr " ") flags;; mret (arg, buf + 1, written + 1)
  else mret (arg, buf, written).

(** The prefix of the alternative form: [buf] and [written]. *)
Definition print_prefix (buf written size flags : Z) : X (Z * Z) :=
  printc buf (chr "0") flags;;
  let buf := buf + 1 in
  let written := written + 1 in
  if decide (written < size) then
    printc buf (chr "x") flags;; mret (buf + 1, written + 1)
  else mret (buf, written).

(** An unsigned conversion in a base: cases [o], [u] and the end of [x]. *)
Definition print_unsigned (base buf written size flags prec width : Z) (ap : list arg_t)
    : X (Z * Z * list arg_t) :=
  let prec := if decide (prec < width ∧ Z.land flags FLAG_ZEROPAD ≠ 0) then width else prec in
  '(uarg, ap) ← va_arg ap;
  w ← print_uint buf (size - written) (u32 (arg_word uarg)) base flags prec width;
  mret (buf + w, written + w, ap).

(** Case [X], where [x] and [p] fall through to. *)
Definition print_hex (buf written size flags prec width : Z) (ap : list arg_t)
    : X (Z * Z * list arg_t * Z) :=
  '(buf, written, width) ←
    (if decide (Z.land flags FLAG_ALT ≠ 0) then
       '(buf, written) ← print_prefix buf written size flags;
       mret (buf, written, width - 2)
     else mret (buf, written, width));
  '(buf, written, ap) ← print_unsigned 16 buf written size flags prec width ap;
  mret (buf, written, ap, flags).

(** The switch over the conversion character: [buf], [written], the arguments
    left and the flags. *)
Definition convert (ch buf written size flags prec width : Z) (ap : list arg_t)
    : X (Z * Z * list arg_t * Z) :=
  if decide (ch = chr "i" ∨ ch = chr "d") then
    '(arg, ap) ← va_arg ap;
    '(arg, buf, written) ← print_sign (i32 (arg_word arg)) buf written flags;
    w ← print_uint buf (size - written) (u32 arg) 10 flags 0 0;
    mret (buf + w, written + w, ap, flags)
  else if decide (ch = chr "o") then
    '(buf, written, ap) ← print_unsigned 8 buf written size flags prec width ap;
    mret (buf, written, ap, flags)
  else if decide (ch = chr "u") then
    '(buf, written, ap) ← print_unsigned 10 buf written size flags prec width ap;
    mret (buf, written, ap, flags)
  else if decide (ch = chr "p" ∨ ch = chr "x" ∨ ch = chr "X") then
    let flags := if decide (ch = chr "p") then Z.lor flags FLAG_ALT else flags in
    let flags := if decide (ch = chr "X") then flags else Z.lor flags FLAG_SMALLS in
    print_hex buf written size flags prec width ap
  else if decide (ch = chr "c") then
    '(arg, ap) ← va_arg ap;
    printc buf (u8 (arg_word arg)) flags;;
    mret (buf + 1, written + 1, ap, flags)
  else if decide (ch = chr "s") then
    '(s, ap) ← va_arg ap;
    let w := if decide (prec ≠ -1 ∧ written + prec < size) then written + prec else size in
    '(buf, written) ← put_string (arg_chars s) buf written w flags;
    mret (buf, written, ap, flags)
  else
    printc buf ch flags;;
    mret (buf + 1, written + 1, ap, flags).

(** The loop over the format: [buf], [written] and the flags at its end. *)
Fixpoint format_loop (fuel : nat) (buf written size flags : Z) (fmt : list Z) (ap : list arg_t)
    : X (Z * Z * Z) :=
  if decide (written < size) then
    match fuel with
    | O => spin
    | S f =>
      '(ch, fmt) ← next fmt;
      if decide (ch = 0) then mret (buf, written, flags)
      else if decide (ch ≠ chr "%") then
        printc buf ch flags;; format_loop f (buf + 1) (written + 1) size flags fmt ap
      else
        '(ch, fmt) ← next fmt;
        if decide (ch = 0) then mret (buf, written, flags) else
        '(ch, fmt, flags, prec, width) ←
          read_mods (S (length fmt)) ch fmt (Z.land flags FLAG_TTY) (-1) (-1);
        if decide (ch = 0) then mret (buf, written, flags) else
        '(buf, written, ap, flags) ← convert ch buf written size flags prec width ap;
        format_loop f buf written size flags fmt ap
    end
  else mret (buf, written, flags).

Definition vxnprintf (buf size : Z) (fmt : list Z) (ap : list arg_t) (flags : Z) : X Z :=
  if decide (size ≤ 0) then mret 0 else
  '(buf, written, flags) ← format_loop (length fmt) buf 0 size flags fmt ap;
  let '(buf, written) := if decide (written = size) then (buf - 1, -1) else (buf, written) in
  printc buf 0 flags;;
  mret written.

(** ** The entry points *)

Definition kvprintf (fmt : list Z) (ap : list arg_t) : X Z :=
  intr_state ← _interrupt_disable #p_status;
  spinlock_acquire #kprintf_slock;;
  written ← vxnprintf 0 0x7fffffff fmt ap FLAG_TTY;
  spinlock_release #kprintf_slock;;
  _interrupt_set_state #p_status intr_state;;
  mret written.

Definition kprintf (fmt : list Z) (ap : list arg_t) : X Z :=
  intr_state ← _interrupt_disable #p_status;
  spinlock_acquire #kprintf_slock;;
  written ← vxnprintf 0 0x7fffffff fmt ap FLAG_TTY;
  spinlock_release #kprintf_slock;;
  _interrupt_set_state #p_status intr_state;;
  mret written.

Definition vsnprintf (str size : Z) (fmt : list Z) (ap : list arg_t) : X Z :=
  vxnprintf str size fmt ap 0.

Definition snprintf (str size : Z) (fmt : list Z) (ap : list arg_t) : X Z :=
  vxnprintf str size fmt ap 0.
End xprintf.
End Xprintf.
