(* ===== verification/XprintfSpec.v ===== *)
(** * Properties of formatted output

    A format as a list of directives with its text, what each directive shows,
    and what the entry points write: into a buffer, never past it, and to the
    terminal.  Numbers read back by atoi. *)
From Stdlib Require Import FunctionalExtensionality.
From S2P Require Import Prelude Bytes Libc Cpu Tty TtySpec Polltty Xprintf.
Import Libc Tty TtySpec Polltty Xprintf.

Module XprintfSpec.

(** The codes of the character constants. *)
Ltac chars :=
  repeat match goal with
  | |- context [chr ?c] => let v := eval vm_compute in (chr c) in change (chr c) with v
  | H : context [chr ?c] |- _ => let v := eval vm_compute in (chr c) in change (chr c) with v in H
  end.

(** ** Programs as equations *)

Lemma bindA {S A B C} (m : M S A) (f : A → M S B) (g : B → M S C) :
  ((m ≫= f) ≫= g) = (m ≫= λ a, f a ≫= g).
Proof. apply functional_extensionality. intros s. apply bind_bind. Qed.
Lemma bind_retl {S A B} (a : A) (f : A → M S B) : (mret a ≫= f) = f a.
Proof. done. Qed.
Lemma bind_eq {S A B} (m : M S A) (f g : A → M S B) : (∀ a, f a = g a) → (m ≫= f) = (m ≫= g).
Proof. intros H. by apply functional_extensionality in H as ->. Qed.
Lemma oread_bind {S A B} (o : option A) (a : A) (f : A → M S B) : o = Some a → (oread o ≫= f) = f a.
Proof. by intros ->. Qed.

Lemma ret2 {S} (x x' y y' : Z) : x = x' → y = y' → mret (M := M S) (x, y) = mret (x', y').
Proof. by intros -> ->. Qed.
Lemma ret3 {S} (a x x' y y' : Z) : x = x' → y = y' → mret (M := M S) (a, x, y) = mret (a, x', y').
Proof. by intros -> ->. Qed.

(** ** Numbers *)

(** The digits of a number, least significant first. *)
Fixpoint digit_list (fuel : nat) (base n : Z) : list Z :=
  match fuel with
  | O => []
  | S f => n `mod` base :: (if decide (n `div` base ≠ 0) then digit_list f base (n `div` base) else [])
  end.

Definition digit_char (small : bool) (d : Z) : Z := default 0 (arr_get digits (if small then 16 + d else d)).
Definition number (small : bool) (base n : Z) : list Z :=
  reverse (digit_char small <$> digit_list digit_fuel base n).

(** A number with at least [prec] digits in a field of [width]; both count up to
    the 11 characters of the buffer. *)
Definition field (ds : list Z) (prec width : Z) : list Z :=
  let zs := replicate (Z.to_nat (Z.min prec 11) - length ds) (chr "0") ++ ds in
  replicate (Z.to_nat (Z.min width 11) - length zs) (chr " ") ++ zs.

Lemma digit_list_le fuel base n (k : nat) :
  2 ≤ base → 0 ≤ n < base ^ Z.of_nat k → (1 ≤ k)%nat → (length (digit_list fuel base n) ≤ k)%nat.
Proof.
  intros Hb. revert n k. induction fuel as [|f IH]; intros n k Hn Hk; cbn; [lia|]. case_decide as Hd; cbn; [|lia].
  destruct k as [|k]; [lia|]. destruct k as [|k].
  - exfalso. apply Hd. apply Z.div_small. rewrite Z.pow_1_r in Hn. lia.
  - specialize (IH (n `div` base) (S k)). apply le_n_S, IH; [|lia]. split; [apply Z.div_pos; lia|].
    apply Z.div_lt_upper_bound; [lia|]. rewrite -Z.pow_succ_r; [lia|]. replace (Z.succ (Z.of_nat (S k))) with (Z.of_nat (S (S k))) by lia. lia.
Qed.

Lemma digit_list_value fuel base n :
  2 ≤ base → 0 ≤ n < base ^ Z.of_nat fuel →
  foldr (λ d v, d + base * v) 0 (digit_list fuel base n) = n ∧ Forall (λ d, 0 ≤ d < base) (digit_list fuel base n).
Proof.
  intros Hb. revert n. induction fuel as [|f IH]; intros n Hn; cbn [digit_list]; [cbn in Hn; split; [cbn; lia|constructor]|].
  assert (0 ≤ n `div` base < base ^ Z.of_nat f) as Hd.
  { split; [apply Z.div_pos; lia|]. apply Z.div_lt_upper_bound; [lia|]. rewrite -Z.pow_succ_r; [lia|]. rewrite -Nat2Z.inj_succ; lia. }
  pose proof (Z.mod_pos_bound n base ltac:(lia)). pose proof (Z.div_mod n base ltac:(lia)).
  destruct (decide (n `div` base ≠ 0)) as [|Hz]; cbn.
  - destruct (IH _ Hd) as [-> HF]. split; [lia|]. by constructor.
  - split; [|apply Forall_singleton; lia]. destruct (Z.eq_dec (n `div` base) 0); lia.
Qed.

Lemma digit_list_nonempty fuel base n : (1 ≤ fuel)%nat → digit_list fuel base n ≠ [].
Proof. by destruct fuel; [lia|]. Qed.

(** ** Directives *)

Inductive sign_mode := NoSign | SpaceSign | PlusSign.
Inductive radix := Octal | Decimal | LowerHex | UpperHex | Pointer.

(** A literal character; a signed conversion; an unsigned one with its
    modifiers (the decimal digits of width and precision); a character; a string
    with its precision. *)
Inductive directive :=
| Lit (c : Z)
| Signed (m : sign_mode)
| Unsigned (r : radix) (alt zero : bool) (width : list Z) (prec : option (list Z))
| Character
| Chars (prec : option (list Z)).

(** The digits scan_int accepts. *)
Definition scannable (ds : list Z) : Prop := Forall (λ d, 1 ≤ d ≤ 8) ds ∧ (length ds ≤ 9)%nat.
Definition decimal (ds : list Z) : Z := fold_left (λ v d, 10 * v + d) ds 0.
Definition numeral (ds : list Z) : list Z := map (λ d, chr "0" + d) ds.

Definition sign_text (m : sign_mode) : list Z :=
  match m with NoSign => [] | SpaceSign => text " " | PlusSign => text "+" end.
Definition prec_text (prec : option (list Z)) : list Z :=
  match prec with Some ds => text "." ++ numeral ds | None => [] end.
Definition radix_char (r : radix) : Z :=
  match r with
  | Octal => chr "o" | Decimal => chr "u" | LowerHex => chr "x" | UpperHex => chr "X" | Pointer => chr "p"
  end.
Definition conv_char (d : directive) : Z :=
  match d with
  | Lit c => c
  | Signed _ => chr "d"
  | Unsigned r _ _ _ _ => radix_char r
  | Character => chr "c"
  | Chars _ => chr "s"
  end.
Definition mod_text (d : directive) : list Z :=
  match d with
  | Signed m => sign_text m
  | Unsigned _ alt zero width prec =>
    (if alt then text "#" else []) ++ (if zero then text "0" else []) ++ numeral width ++ prec_text prec
  | Chars prec => prec_text prec
  | _ => []
  end.
Definition format_text (d : directive) : list Z :=
  match d with Lit c => [c] | _ => chr "%" :: mod_text d ++ [conv_char d] end.

Definition directive_ok (d : directive) : Prop :=
  match d with
  | Lit c => c ≠ 0 ∧ c ≠ chr "%"
  | Unsigned _ _ _ width prec => scannable width ∧ (∀ ds, prec = Some ds → scannable ds)
  | Chars prec => ∀ ds, prec = Some ds → scannable ds
  | _ => True
  end.

(** ** What a directive shows of its argument *)

Definition radix_base (r : radix) : Z := match r with Octal => 8 | Decimal => 10 | _ => 16 end.
Definition radix_small (r : radix) : bool := match r with LowerHex | Pointer => true | _ => false end.
Definition prefixed (r : radix) (alt : bool) : bool :=
  match r with Pointer => true | LowerHex | UpperHex => alt | _ => false end.
Definition width_of (width : list Z) : Z := match width with [] => -1 | _ => decimal width end.
Definition prec_of (prec : option (list Z)) : Z := match prec with Some ds => decimal ds | None => -1 end.

Definition show_unsigned (r : radix) (alt zero : bool) (width : list Z) (prec : option (list Z)) (n : Z) : list Z :=
  let w := if prefixed r alt then width_of width - 2 else width_of width in
  let p := if zero then Z.max (prec_of prec) w else prec_of prec in
  (if prefixed r alt then text "0x" else []) ++ field (number (radix_small r) (radix_base r) n) p w.

Definition show_signed (m : sign_mode) (v : Z) : list Z :=
  (if decide (v < 0) then text "-" else []) ++ sign_text m ++ number false 10 (Z.abs v).

Definition show (d : directive) (a : arg_t) : list Z :=
  match d with
  | Lit c => [c]
  | Signed m => show_signed m (i32 (arg_word a))
  | Unsigned r alt zero width prec => show_unsigned r alt zero width prec (u32 (arg_word a))
  | Character => [u8 (arg_word a)]
  | Chars prec =>
    let s := default [] (cstr (arg_chars a)) in
    match prec with Some ds => take (Z.to_nat (decimal ds)) s | None => s end
  end.

(** A sign mode is not combined with a negative number, and %s has a string. *)
Definition shows (d : directive) (a : arg_t) : Prop :=
  match d with
  | Signed m => m = NoSign ∨ 0 ≤ i32 (arg_word a)
  | Chars _ => is_Some (cstr (arg_chars a))
  | _ => True
  end.

(** A format and its arguments: every directive but a literal takes one. *)
Inductive formatted : list directive → list arg_t → list Z → Prop :=
| formatted_nil ap : formatted [] ap []
| formatted_lit c ds ap l :
  directive_ok (Lit c) → formatted ds ap l → formatted (Lit c :: ds) ap (c :: l)
| formatted_conv d a ds ap l :
  (∀ c, d ≠ Lit c) → directive_ok d → shows d a → formatted ds ap l →
  formatted (d :: ds) (a :: ap) (show d a ++ l).

Section output.
Context {D : Type} `{TtyPorts D}.
Variable polls : nat.
Abbreviation X A := (M (print_t D) A).
Abbreviation printc := (printc polls).

(** Characters written one after the other. *)
Fixpoint emits (flags buf : Z) (l : list Z) : X unit :=
  match l with
  | [] => mret tt
  | c :: r => printc buf c flags;; emits flags (buf + 1) r
  end.

Definition same_sink (f f' : Z) : Prop := Z.land f FLAG_TTY = Z.land f' FLAG_TTY.

Lemma emits_app flags buf l l' :
  emits flags buf (l ++ l') = (emits flags buf l;; emits flags (buf + Z.of_nat (length l)) l').
Proof.
  revert buf. induction l as [|c l IH]; intros buf; cbn [emits app]; [rewrite bind_retl; f_equal; cbn; lia|].
  rewrite bindA. apply bind_eq. intros []. rewrite IH. apply bind_eq. intros []. f_equal. cbn [length]. lia.
Qed.

Lemma emits_sink f f' buf l : same_sink f f' → emits f buf l = emits f' buf l.
Proof.
  intros Hf. revert buf. induction l as [|c l IH]; intros buf; cbn [emits]; [done|]. rewrite IH. f_equal.
  unfold Xprintf.printc. by rewrite Hf.
Qed.

Lemma emits_snoc flags buf l c :
  emits flags buf (l ++ [c]) = (emits flags buf l;; printc (buf + Z.of_nat (length l)) c flags).
Proof.
  rewrite emits_app. apply bind_eq. intros []. cbn [emits]. apply functional_extensionality. intros s.
  unfold mbind, M_bind. destruct (printc _ _ _ _) as [[] ?|? k|?| |]; try done. cbn. f_equal.
  apply functional_extensionality. intros s'. induction (k s') as [[] ?|? k' IHk|?| |]; cbn; try done. f_equal.
  apply functional_extensionality. intros ?. apply IHk.
Qed.

(** ** print_uint *)

(** The buffer [rev] with [l] written to it. *)
Definition rbuf (l : list Z) : list Z := l ++ replicate (11 - length l) 0.

Lemma rbuf_set l c : (length l < 11)%nat → arr_set (rbuf l) (Z.of_nat (length l)) c = Some (rbuf (l ++ [c])).
Proof.
  intros Hl. unfold rbuf. rw arr_set_Some; [rw length_app length_replicate; lia|]. f_equal. rewrite Nat2Z.id.
  replace (11 - length l)%nat with (S (10 - length l)) by lia. cbn [replicate]. rewrite -{1}(Nat.add_0_r (length l)) insert_app_r.
  rewrite length_app -app_assoc. cbn [app insert list_insert length]. replace (11 - (length l + 1))%nat with (10 - length l)%nat by lia. done.
Qed.

Lemma rbuf_get l i : 0 ≤ i < Z.of_nat (length l) → arr_get (rbuf l) i = arr_get l i.
Proof. intros Hi. unfold rbuf. rewrite arr_get_app; [lia|]. rw decide_True; [lia|done]. Qed.

Lemma rev_digits_spec fuel n base flags l :
  2 ≤ base ≤ 16 → 0 ≤ n < base ^ Z.of_nat fuel → (1 ≤ fuel)%nat →
  (length l + length (digit_list fuel base n) ≤ 11)%nat →
  let ds := digit_char (bool_decide (Z.land flags FLAG_SMALLS ≠ 0)) <$> digit_list fuel base n in
  rev_digits (D := D) fuel n base flags (Z.of_nat (length l)) (rbuf l) = mret (Z.of_nat (length (l ++ ds)), rbuf (l ++ ds)).
Proof.
  intros Hb. revert n l. induction fuel as [|f IH]; intros n l Hn Hf Hl; [lia|]. cbn [digit_list] in *.
  pose proof (Z.mod_pos_bound n base ltac:(lia)).
  assert (0 ≤ n `div` base < base ^ Z.of_nat f) as Hd.
  { split; [apply Z.div_pos; lia|]. apply Z.div_lt_upper_bound; [lia|]. rewrite -Z.pow_succ_r; [lia|]. rewrite -Nat2Z.inj_succ; lia. }
  set (small := bool_decide (Z.land flags FLAG_SMALLS ≠ 0)) in *.
  assert (arr_get digits (if decide (Z.land flags FLAG_SMALLS ≠ 0) then 16 + n `mod` base else n `mod` base) =
    Some (digit_char small (n `mod` base))) as Hget.
  { unfold digit_char, small. destruct (decide (Z.land flags FLAG_SMALLS ≠ 0)).
    - rewrite bool_decide_true //. destruct (arr_get_is_Some digits (16 + n `mod` base)) as [x ->]; [cbn; lia|done].
    - rewrite bool_decide_false //. destruct (arr_get_is_Some digits (n `mod` base)) as [x ->]; [cbn; lia|done]. }
  cbn [rev_digits]. rewrite (oread_bind _ _ _ Hget). cbn [length] in Hl.
  rewrite (oread_bind _ _ _ (rbuf_set l _ ltac:(lia))).
  replace (Z.of_nat (length l) + 1) with (Z.of_nat (length (l ++ [digit_char small (n `mod` base)]))) by (rewrite length_app; cbn; lia).
  destruct (decide (n `div` base ≠ 0)) as [Hz|Hz]; cbn [fmap list_fmap].
  - destruct f as [|f]; [cbn in Hd; lia|].
    rewrite IH; [done|lia|rewrite length_app; cbn [length]; lia|]. by rewrite -app_assoc.
  - done.
Qed.

Lemma pad_spec n c l :
  (length l + n ≤ 11)%nat →
  pad (D := D) n c (Z.of_nat (length l)) (rbuf l) = mret (Z.of_nat (length (l ++ replicate n c)), rbuf (l ++ replicate n c)).
Proof.
  revert l. induction n as [|n IH]; intros l Hl; cbn [pad replicate]; [by rewrite app_nil_r|].
  rewrite (oread_bind _ _ _ (rbuf_set l _ ltac:(lia))).
  replace (Z.of_nat (length l) + 1) with (Z.of_nat (length (l ++ [c]))) by (rewrite length_app; cbn; lia).
  rewrite IH; [rewrite length_app; cbn; lia|]. by rewrite -app_assoc.
Qed.

Lemma put_rev_spec l junk buf written size flags :
  (length (l ++ junk) ≤ 11)%nat → 0 ≤ written →
  put_rev polls (length l) buf (Z.of_nat (length l) - 1) written size flags (rbuf (l ++ junk)) =
    (emits flags buf (take (Z.to_nat (size - written)) (reverse l));;
     mret (written + Z.of_nat (length (take (Z.to_nat (size - written)) (reverse l))))).
Proof.
  revert junk buf written. induction l as [|c l IH] using rev_ind; intros junk buf written Hl Hw.
  - cbn. rewrite take_nil bind_retl. f_equal. cbn. lia.
  - rewrite reverse_app length_app. cbn [length]. rewrite Nat.add_1_r. cbn [put_rev]. case_decide as Hs.
    + replace (Z.of_nat (S (length l)) - 1) with (Z.of_nat (length l)) by lia.
      rewrite rbuf_get; [rewrite !length_app; cbn; lia|]. rewrite -app_assoc arr_get_app; [lia|].
      rw decide_False; [lia|]. rewrite Z.sub_diag. cbn. rewrite bind_retl.
      replace (Z.to_nat (size - written)) with (S (Z.to_nat (size - (written + 1)))) by lia. cbn [take emits].
      rewrite bindA. apply bind_eq. intros []. cbn [app] in Hl. rewrite -app_assoc in Hl. rewrite (IH ([c] ++ junk)); [done|lia|].
      apply bind_eq. intros []. f_equal. cbn [length app take]. lia.
    + replace (Z.to_nat (size - written)) with O by lia. cbn. rewrite bind_retl. f_equal. lia.
Qed.

Lemma number_length small base n :
  8 ≤ base → 0 ≤ n < 2 ^ 32 → (length (number small base n) ≤ 11)%nat.
Proof.
  intros Hb Hn. unfold number. rewrite length_reverse length_fmap. apply digit_list_le; [lia| |lia].
  assert (8 ^ 11 ≤ base ^ Z.of_nat 11) as Hp by (apply Z.pow_le_mono_l; lia). change (8 ^ 11) with (2 ^ 33) in Hp. lia.
Qed.

Lemma digit_fuel_enough base n : 2 ≤ base → 0 ≤ n < 2 ^ 32 → 0 ≤ n < base ^ Z.of_nat digit_fuel.
Proof. intros Hb Hn. assert (2 ^ 32 ≤ base ^ Z.of_nat digit_fuel) by (apply Z.pow_le_mono_l; lia). lia. Qed.

Lemma print_uint_spec buf size n base flags prec width :
  8 ≤ base ≤ 16 → 0 ≤ n < 2 ^ 32 →
  let txt := take (Z.to_nat size) (field (number (bool_decide (Z.land flags FLAG_SMALLS ≠ 0)) base n) prec width) in
  print_uint polls buf size n base flags prec width = (emits flags buf txt;; mret (Z.of_nat (length txt))).
Proof.
  intros Hb Hn txt. unfold print_uint. case_decide as Hs.
  { unfold txt. replace (Z.to_nat size) with O by lia. done. }
  set (small := bool_decide (Z.land flags FLAG_SMALLS ≠ 0)) in *.
  pose proof (number_length small base n ltac:(lia) Hn) as Hl. unfold number in Hl. rewrite length_reverse length_fmap in Hl.
  change (rev_digits digit_fuel n base flags 0 (replicate 11 0)) with
    (rev_digits (D := D) digit_fuel n base flags (Z.of_nat (length (@nil Z))) (rbuf [])).
  rewrite rev_digits_spec; [lia|apply digit_fuel_enough; lia|unfold digit_fuel; lia|exact Hl|].
  fold small. set (ds := digit_char small <$> digit_list digit_fuel base n) in *.
  assert (length ds ≤ 11)%nat as Hd by (unfold ds; rewrite length_fmap; lia).
  rewrite bind_retl. cbn [app]. rewrite pad_spec; [lia|]. rewrite bind_retl.
  set (zs := ds ++ replicate (Z.to_nat (Z.min prec 11 - Z.of_nat (length ds))) (chr "0")).
  assert (length zs ≤ 11)%nat as Hz by (unfold zs; rewrite length_app length_replicate; lia).
  rewrite pad_spec; [lia|]. rewrite bind_retl.
  set (fs := zs ++ replicate (Z.to_nat (Z.min width 11 - Z.of_nat (length zs))) (chr " ")).
  assert (length fs ≤ 11)%nat by (unfold fs; rewrite length_app length_replicate; lia).
  pose proof (put_rev_spec fs [] buf 0 size flags) as E. rewrite app_nil_r Z.sub_0_r in E. rewrite Nat2Z.id E; [lia..|].
  assert (txt = take (Z.to_nat size) (reverse fs)) as ->; [|done].
  unfold txt. f_equal. unfold field, fs, zs, number. fold ds. rewrite !reverse_app !reverse_replicate !length_app !length_replicate !length_reverse.
  set (k := length ds).
  replace (Z.to_nat (Z.min prec 11) - k)%nat with (Z.to_nat (Z.min prec 11 - Z.of_nat k)) by lia.
  set (p := Z.to_nat (Z.min prec 11 - Z.of_nat k)).
  by replace (Z.to_nat (Z.min width 11) - (p + k))%nat with (Z.to_nat (Z.min width 11 - Z.of_nat (k + p))) by lia.
Qed.
(** ** Flags and modifiers *)

Definition tty_bit (t : Z) : Prop := t = 0 ∨ t = FLAG_TTY.

Lemma tty_bit_of flags : tty_bit (Z.land flags FLAG_TTY).
Proof.
  unfold tty_bit, FLAG_TTY. change 0x8000 with (Z.shiftl 1 15). destruct (Z.testbit flags 15) eqn:E; [right|left];
    apply Z.bits_inj'; intros k Hk; rewrite Z.land_spec pow2_testbit // ?Z.bits_0; case_bool_decide; subst; rewrite ?E ?andb_false_r //.
Qed.

(** The modifiers from the first character of [l] on. *)
Definition mods (fuel : nat) (l : list Z) (flags prec width : Z) : X (Z * list Z * Z * Z * Z) :=
  match l with c :: r => read_mods fuel c r flags prec width | [] => fault end.

(** What follows a modifier: at least one character, not the terminator. *)
Definition more (l : list Z) : Prop := ∃ c r, l = c :: r ∧ c ≠ 0.

Lemma scan_int_spec ds v l :
  Forall (λ d, 1 ≤ d ≤ 8) ds → 0 ≤ v → (v + 1) * 10 ^ Z.of_nat (length ds) ≤ 10 ^ 9 →
  (∀ c r, l = c :: r → ¬ (chr "0" < c ∧ c < chr "9")) → l ≠ [] →
  scan_int v (numeral ds ++ l) = Some (fold_left (λ v d, 10 * v + d) ds v, l).
Proof.
  intros Hds. revert v. induction Hds as [|d ds Hd Hds IH]; intros v Hv Hb Hl Hne; cbn [numeral map app scan_int fold_left].
  - destruct l as [|c r]; [done|]. cbn [scan_int]. rw decide_False; [by apply (Hl c r)|done].
  - change (chr "0") with 48. change (chr "9") with 57. rw decide_True; [lia|].
    replace (10 * v + (48 + d - 48)) with (10 * v + d) by lia.
    cbn [length] in Hb. rewrite Nat2Z.inj_succ Z.pow_succ_r in Hb; [lia|].
    pose proof (Z.pow_pos_nonneg 10 (Z.of_nat (length ds))). rw i32_small; [nia|]. apply IH; [lia|nia|done..].
Qed.

Lemma scan_decimal ds l :
  scannable ds → (∀ c r, l = c :: r → ¬ (chr "0" < c ∧ c < chr "9")) → l ≠ [] →
  scan_int 0 (numeral ds ++ l) = Some (decimal ds, l).
Proof.
  intros [Hds Hl] Hn Hne. apply scan_int_spec; [done|lia| |done..].
  rewrite Z.mul_1_l. apply Z.pow_le_mono_r; lia.
Qed.

Lemma mods_flag c f fuel l flags prec width :
  (c = chr "#" ∧ f = FLAG_ALT) ∨ (c = chr "0" ∧ f = FLAG_ZEROPAD) ∨ (c = chr " " ∧ f = FLAG_SPACE) ∨ (c = chr "+" ∧ f = FLAG_SIGN) →
  more l → mods (S fuel) (c :: l) flags prec width = mods fuel l (Z.lor flags f) prec width.
Proof.
  intros Hc (c' & r & -> & Hc'). cbn [mods read_mods next]. repeat (destruct Hc as [[-> ->]|Hc]); [..|destruct Hc as [-> ->]]; cbn; by rewrite decide_True.
Qed.

Lemma mods_width ds fuel l flags prec width :
  scannable ds → ds ≠ [] → more l → (∀ c r, l = c :: r → ¬ (chr "0" < c ∧ c < chr "9")) →
  mods (S fuel) (numeral ds ++ l) flags prec width = mods fuel l flags prec (decimal ds).
Proof.
  intros Hds Hne (c' & r & -> & Hc') Hn. pose proof (scan_decimal ds (c' :: r) Hds Hn ltac:(done)) as E.
  destruct Hds as [Hds _]. destruct ds as [|d ds]; [done|]. inversion Hds as [|?? Hd _]; subst.
  cbn [numeral map app] in E |- *. cbn [mods read_mods]. change (chr "0" + d) with (48 + d) in *.
  repeat (rw (decide_False (P := 48 + d = _)); [chars; lia|]). rw decide_True; [chars; lia|].
  rewrite (oread_bind _ _ _ E). cbn [next]. rewrite bind_retl. by rewrite decide_True.
Qed.

Lemma mods_prec prec' fuel l flags prec width :
  (∀ ds, prec' = Some ds → scannable ds) → more l → (∀ c r, l = c :: r → ¬ (chr "0" < c ∧ c < chr "9")) →
  mods (S fuel) (prec_text (Some (default [] prec')) ++ l) flags prec width =
    mods fuel l flags (decimal (default [] prec')) width.
Proof.
  intros Hds (c' & r & -> & Hc') Hn. cbn [prec_text]. change (text ".") with [chr "."]. cbn [app mods read_mods].
  set (tl := numeral _ ++ _). cbn. unfold tl. clear tl.
  assert (scannable (default [] prec')) as Hs by (destruct prec'; cbn; [by apply Hds|split; [constructor|cbn; lia]]).
  rewrite (oread_bind _ _ _ (scan_decimal _ (c' :: r) Hs Hn ltac:(done))). cbn [next]. rewrite bind_retl. by rewrite decide_True.
Qed.

Definition flags_of (d : directive) (t : Z) : Z :=
  match d with
  | Signed SpaceSign => Z.lor t FLAG_SPACE
  | Signed PlusSign => Z.lor t FLAG_SIGN
  | Unsigned _ alt zero _ _ =>
    let t := if alt then Z.lor t FLAG_ALT else t in
    if zero then Z.lor t FLAG_ZEROPAD else t
  | _ => t
  end.
Definition prec_val (d : directive) : Z :=
  match d with Unsigned _ _ _ _ prec | Chars prec => prec_of prec | _ => -1 end.
Definition width_val (d : directive) : Z :=
  match d with Unsigned _ _ _ width _ => width_of width | _ => -1 end.

Lemma decimal_nonneg ds : scannable ds → 0 ≤ decimal ds.
Proof.
  intros [Hds _]. unfold decimal. assert (∀ v, 0 ≤ v → 0 ≤ fold_left (λ v d, 10 * v + d) ds v) as H'; [|by apply H'].
  induction Hds as [|d ds Hd _ IH]; intros v Hv; cbn; [done|]. apply IH. lia.
Qed.

(** A conversion character ends the modifiers. *)
Definition conversion (c : Z) : Prop := c ∈ text "douxXpcs".

Lemma mods_end c r fuel flags prec width :
  conversion c → mods (S fuel) (c :: r) flags prec width = mret (c, r, flags, prec, width).
Proof.
  intros Hc. unfold conversion, text in Hc. cbn in Hc. repeat (apply elem_of_cons in Hc as [->|Hc]; [reflexivity|]).
  by apply not_elem_of_nil in Hc.
Qed.

Lemma conversion_not_digit c : conversion c → ¬ (chr "0" < c ∧ c < chr "9") ∧ c ≠ 0.
Proof.
  intros Hc. unfold conversion, text in Hc. cbn in Hc. chars. repeat (apply elem_of_cons in Hc as [->|Hc]; [lia|]).
  by apply not_elem_of_nil in Hc.
Qed.

Lemma conv_char_conversion d : (∀ c, d ≠ Lit c) → conversion (conv_char d).
Proof. intros Hd. destruct d as [c| |[]| |]; [by destruct (Hd c)|..]; unfold conversion; by apply (bool_decide_eq_true_1 _). Qed.

Lemma more_app a b : (∀ c, c ∈ a → c ≠ 0) → more b → more (a ++ b).
Proof.
  intros Ha Hb. destruct a as [|c a]; [done|]. exists c, (a ++ b). split; [done|]. apply Ha, elem_of_cons. by left.
Qed.

Lemma numeral_nonzero ds c : scannable ds → c ∈ numeral ds → c ≠ 0.
Proof.
  intros [Hds _] Hc. unfold numeral in Hc. apply list_elem_of_In, in_map_iff in Hc as (d & <- & Hd%list_elem_of_In).
  rewrite Forall_forall in Hds. specialize (Hds d Hd). chars. lia.
Qed.

Lemma prec_text_nonzero prec c : (∀ ds, prec = Some ds → scannable ds) → c ∈ prec_text prec → c ≠ 0.
Proof.
  intros Hs Hc. destruct prec as [ds|]; [|by apply not_elem_of_nil in Hc]. cbn in Hc.
  apply elem_of_cons in Hc as [->|Hc]; [done|]. apply (numeral_nonzero ds); [by apply Hs|done].
Qed.

Lemma mod_text_nonzero d c : directive_ok d → c ∈ mod_text d → c ≠ 0.
Proof.
  intros Hok Hc. destruct d as [|m|r alt zero width prec| |prec]; cbn [mod_text] in Hc;
    [by apply not_elem_of_nil in Hc| | |by apply not_elem_of_nil in Hc|by apply (prec_text_nonzero prec)].
  - destruct m; cbn in Hc; [by apply not_elem_of_nil in Hc|..]; by apply list_elem_of_singleton in Hc as ->.
  - destruct Hok as [Hw Hp]. rewrite !elem_of_app in Hc. destruct Hc as [Hc|[Hc|[Hc|Hc]]].
    + destruct alt; [by apply list_elem_of_singleton in Hc as ->|by apply not_elem_of_nil in Hc].
    + destruct zero; [by apply list_elem_of_singleton in Hc as ->|by apply not_elem_of_nil in Hc].
    + by apply (numeral_nonzero width).
    + by apply (prec_text_nonzero prec).
Qed.

(** From the precision on. *)
Lemma mods_tail prec c r fuel flags width :
  (∀ ds, prec = Some ds → scannable ds) → conversion c → (length (prec_text prec) < fuel)%nat →
  mods fuel (prec_text prec ++ c :: r) flags (-1) width = mret (c, r, flags, prec_of prec, width).
Proof.
  intros Hs Hc Hf. destruct fuel as [|fuel]; [lia|]. destruct (conversion_not_digit c Hc) as [Hn Hz].
  destruct prec as [ds|]; [|by apply mods_end]. cbn in Hf. destruct fuel as [|fuel]; [lia|].
  rewrite (mods_prec (Some ds)); [done|by exists c, r|by intros ?? [= <- _]|]. by apply mods_end.
Qed.

(** From the width on. *)
Lemma mods_field width prec c r fuel flags :
  scannable width → (∀ ds, prec = Some ds → scannable ds) → conversion c →
  (length (numeral width ++ prec_text prec) < fuel)%nat →
  mods fuel (numeral width ++ prec_text prec ++ c :: r) flags (-1) (-1) = mret (c, r, flags, prec_of prec, width_of width).
Proof.
  intros Hw Hs Hc Hf. destruct width as [|d ds]; [by apply mods_tail|].
  destruct (conversion_not_digit c Hc) as [Hn Hz]. destruct fuel as [|fuel]; [lia|].
  rewrite mods_width; [done|done| | |].
  - apply more_app; [intros ?; by apply prec_text_nonzero|by exists c, r].
  - destruct prec; [|by intros ?? [= <- _]]. intros ?? [= <- _]. chars. lia.
  - rewrite length_app /numeral length_map in Hf. cbn [length] in Hf. apply mods_tail; [done..|lia].
Qed.

Lemma mods_text d r fuel t :
  (∀ c, d ≠ Lit c) → directive_ok d → (length (mod_text d) < fuel)%nat →
  mods fuel (mod_text d ++ conv_char d :: r) t (-1) (-1) = mret (conv_char d, r, flags_of d t, prec_val d, width_val d).
Proof.
  intros Hl Hok Hf. pose proof (conv_char_conversion d Hl) as Hc. destruct (conversion_not_digit _ Hc) as [_ Hz].
  destruct d as [c|m|rx alt zero width prec| |prec]; cbn [mod_text] in *; [by destruct (Hl c)| | | |].
  - destruct m; cbn in Hf; (destruct fuel as [|fuel]; [lia|]); [by apply mods_end|..]; (destruct fuel as [|fuel]; [lia|]);
      cbn [sign_text app text fmap list_fmap String.list_ascii_of_string].
    + rewrite (mods_flag _ FLAG_SPACE); [tauto|by eexists _, _|]. by apply mods_end.
    + rewrite (mods_flag _ FLAG_SIGN); [tauto|by eexists _, _|]. by apply mods_end.
  - destruct Hok as [Hw Hp]. set (c := conv_char _) in *.
    assert (more (numeral width ++ prec_text prec ++ c :: r)) as Hm.
    { apply more_app; [intros ?; by apply numeral_nonzero|]. apply more_app; [intros ?; by apply prec_text_nonzero|by exists c, r]. }
    rewrite -!app_assoc. rewrite !length_app in Hf.
    destruct alt, zero; cbn [app text fmap list_fmap String.list_ascii_of_string] in *; cbn [length] in Hf;
      repeat match goal with
      | |- context [mods ?f (chr "#" :: _)] => is_var f; destruct f as [|f]; [lia|]; rewrite (mods_flag _ FLAG_ALT);
          [tauto|first [done|by eexists _, _]|]
      | |- context [mods ?f (chr "0" :: _)] => is_var f; destruct f as [|f]; [lia|]; rewrite (mods_flag _ FLAG_ZEROPAD);
          [tauto|done|]
      end; apply mods_field; first [done|rewrite length_app; lia].
  - destruct fuel as [|fuel]; [cbn in Hf; lia|]. by apply mods_end.
  - by apply mods_tail.
Qed.

(** ** Conversions *)

Lemma take_app_fits {A} (l l' : list A) (k : nat) :
  (length l ≤ k)%nat → take k (l ++ l') = l ++ take (k - length l) l'.
Proof. intros Hk. rewrite take_app. by rewrite (take_ge l). Qed.

Lemma print_sign_spec v buf written flags :
  let sg := (if decide (v < 0) then [chr "-"] else []) ++
    (if decide (Z.land flags FLAG_SIGN ≠ 0) then [chr "+"] else if decide (Z.land flags FLAG_SPACE ≠ 0) then [chr " "] else []) in
  - 2 ^ 31 ≤ v < 2 ^ 31 →
  print_sign polls v buf written flags =
    (emits flags buf sg;; mret (i32 (Z.abs v), buf + Z.of_nat (length sg), written + Z.of_nat (length sg))).
Proof.
  intros sg Hv. unfold print_sign, sg. destruct (decide (v < 0)).
  - rewrite bindA. cbn [app emits]. rewrite bindA. apply bind_eq. intros []. rewrite bind_retl.
    replace (Z.abs v) with (- v) by lia.
    repeat case_decide; cbn [app emits]; rewrite ?bindA; try (apply bind_eq; intros []); rewrite bind_retl;
      apply ret3; cbn [length]; lia.
  - rewrite bind_retl. replace (Z.abs v) with v by lia. rewrite i32_small //.
    repeat case_decide; cbn [app emits]; rewrite ?bindA; try (apply bind_eq; intros []); rewrite bind_retl;
      apply ret3; cbn [length]; lia.
Qed.

Lemma put_string_spec s l buf written w flags :
  cstr s = Some l → written ≤ w →
  put_string polls s buf written w flags =
    (emits flags buf (take (Z.to_nat (w - written)) l);;
     mret (buf + Z.of_nat (length (take (Z.to_nat (w - written)) l)), written + Z.of_nat (length (take (Z.to_nat (w - written)) l)))).
Proof.
  revert l buf written. induction s as [|c s IH]; intros l buf written Hl Hw; [done|]. cbn [put_string cstr] in *.
  destruct (decide (written < w)) as [Hlt|Hge].
  - destruct (decide (c = 0)) as [->|Hc].
    + injection Hl as <-. cbn. rewrite take_nil /=. rewrite bind_retl. apply ret2; lia.
    + rw decide_True //. destruct (cstr s) as [l'|]; [|done]. injection Hl as <-.
      replace (Z.to_nat (w - written)) with (S (Z.to_nat (w - (written + 1)))) by lia. cbn [take emits].
      rewrite bindA. apply bind_eq. intros []. rewrite (IH l'); [done|lia|]. apply bind_eq. intros []. apply ret2; cbn [length]; lia.
  - replace (Z.to_nat (w - written)) with O by lia. rewrite take_0 bind_retl. apply ret2; cbn; lia.
Qed.

Lemma print_unsigned_spec base buf written size flags prec width a ap :
  8 ≤ base ≤ 16 →
  let p := if decide (prec < width ∧ Z.land flags FLAG_ZEROPAD ≠ 0) then width else prec in
  let l := take (Z.to_nat (size - written))
    (field (number (bool_decide (Z.land flags FLAG_SMALLS ≠ 0)) base (u32 (arg_word a))) p width) in
  print_unsigned polls base buf written size flags prec width (a :: ap) =
    (emits flags buf l;; mret (buf + Z.of_nat (length l), written + Z.of_nat (length l), ap)).
Proof.
  intros Hb p l. unfold print_unsigned. cbn [va_arg]. rewrite bind_retl.
  rewrite print_uint_spec; [done|apply u32_range|]. rewrite bindA. apply bind_eq. intros []. by rewrite bind_retl.
Qed.

Lemma print_prefix_spec buf written size flags :
  written < size →
  let l := take (Z.to_nat (size - written)) (text "0x") in
  print_prefix polls buf written size flags =
    (emits flags buf l;; mret (buf + Z.of_nat (length l), written + Z.of_nat (length l))).
Proof.
  intros Hw. unfold print_prefix. destruct (decide (written + 1 < size)).
  - rewrite take_ge; [cbn; lia|]. change (text "0x") with [chr "0"; chr "x"]. cbn [emits]. rewrite !bindA. apply bind_eq. intros [].
    apply bind_eq. intros []. rewrite bind_retl. apply ret2; cbn; lia.
  - replace (Z.to_nat (size - written)) with 1%nat by lia. change (take 1 (text "0x")) with [chr "0"]. cbn [emits].
    rewrite bindA. apply bind_eq. intros []. by rewrite bind_retl.
Qed.

(** A prefix and a text after it, cut at the same place. *)
Lemma emits_cut {A} flags buf written size p l (f : Z → Z → X A) :
  written ≤ size →
  let p' := take (Z.to_nat (size - written)) p in
  let l' := take (Z.to_nat (size - written)) (p ++ l) in
  (emits flags buf p';;
   emits flags (buf + Z.of_nat (length p')) (take (Z.to_nat (size - (written + Z.of_nat (length p')))) l);;
   f (buf + Z.of_nat (length p') + Z.of_nat (length (take (Z.to_nat (size - (written + Z.of_nat (length p')))) l)))
     (written + Z.of_nat (length p') + Z.of_nat (length (take (Z.to_nat (size - (written + Z.of_nat (length p')))) l)))) =
  (emits flags buf l';; f (buf + Z.of_nat (length l')) (written + Z.of_nat (length l'))).
Proof.
  intros Hw p' l'.
  assert (l' = p' ++ take (Z.to_nat (size - (written + Z.of_nat (length p')))) l) as ->.
  { unfold l', p'. rewrite take_app length_take. f_equal. f_equal. lia. }
  rewrite emits_app bindA. apply bind_eq. intros []. apply bind_eq. intros []. rewrite length_app. f_equal; lia.
Qed.

(** The flags of an unsigned conversion when its number is printed. *)
Definition radix_flags (r : radix) (flags : Z) : Z :=
  match r with
  | LowerHex => Z.lor flags FLAG_SMALLS
  | Pointer => Z.lor (Z.lor flags FLAG_ALT) FLAG_SMALLS
  | _ => flags
  end.
Definition hexadecimal (r : radix) : bool := match r with Octal | Decimal => false | _ => true end.

Lemma convert_unsigned r buf written size flags prec width ap :
  convert polls (radix_char r) buf written size flags prec width ap =
    if hexadecimal r then print_hex polls buf written size (radix_flags r flags) prec width ap
    else '(buf, written, ap) ← print_unsigned polls (radix_base r) buf written size flags prec width ap;
         mret (buf, written, ap, flags).
Proof. by destruct r. Qed.

(** What the flags of an unsigned directive say. *)
Lemma radix_flags_bits r alt zero width prec t :
  tty_bit t →
  let f := radix_flags r (flags_of (Unsigned r alt zero width prec) t) in
  bool_decide (Z.land f FLAG_SMALLS ≠ 0) = radix_small r ∧
  (hexadecimal r = true → bool_decide (Z.land f FLAG_ALT ≠ 0) = prefixed r alt) ∧
  bool_decide (Z.land f FLAG_ZEROPAD ≠ 0) = zero ∧ same_sink f t.
Proof. intros [-> | ->]; destruct r, alt, zero; by split_and!. Qed.

Lemma decide_bool {P : Prop} `{Decision P} {A} (b : bool) (x y : A) :
  bool_decide P = b → (if decide P then x else y) = if b then x else y.
Proof. intros <-. by case_bool_decide; [rw decide_True|rw decide_False]. Qed.

Lemma precision_max (prec w : Z) (zero : bool) (Q : Prop) `{Decision Q} :
  bool_decide Q = zero → (if decide (prec < w ∧ Q) then w else prec) = if zero then Z.max prec w else prec.
Proof.
  intros <-. destruct (bool_decide_reflect Q), (decide (prec < w));
    [rw decide_True; [done|lia]|rw decide_False; [tauto|lia]|rw decide_False; [tauto|done]..].
Qed.

Lemma print_hex_spec r alt buf written size f prec width a ap :
  hexadecimal r = true → written < size →
  bool_decide (Z.land f FLAG_SMALLS ≠ 0) = radix_small r → bool_decide (Z.land f FLAG_ALT ≠ 0) = prefixed r alt →
  let w := if prefixed r alt then width - 2 else width in
  let p := if decide (prec < w ∧ Z.land f FLAG_ZEROPAD ≠ 0) then w else prec in
  let l := take (Z.to_nat (size - written))
    ((if prefixed r alt then text "0x" else []) ++ field (number (radix_small r) 16 (u32 (arg_word a))) p w) in
  print_hex polls buf written size f prec width (a :: ap) =
    (emits f buf l;; mret (buf + Z.of_nat (length l), written + Z.of_nat (length l), ap, f)).
Proof.
  intros Hr Hw Hs Ha w p l. unfold print_hex. rewrite (decide_bool _ _ _ Ha). destruct (prefixed r alt).
  - rewrite print_prefix_spec // !bindA.
    rewrite -(emits_cut f buf written size (text "0x") _ (λ b w, mret (b, w, ap, f))); [lia|].
    apply bind_eq. intros []. rewrite !bind_retl. rewrite print_unsigned_spec; [lia|]. rewrite Hs bindA.
    apply bind_eq. intros []. by rewrite bind_retl.
  - rewrite bind_retl print_unsigned_spec; [lia|]. rewrite Hs bindA. apply bind_eq. intros []. by rewrite bind_retl.
Qed.

Lemma convert_spec d a buf written size t ap :
  (∀ c, d ≠ Lit c) → directive_ok d → shows d a → tty_bit t → written < size →
  let l := take (Z.to_nat (size - written)) (show d a) in
  ∃ f, same_sink f t ∧
  convert polls (conv_char d) buf written size (flags_of d t) (prec_val d) (width_val d) (a :: ap) =
    (emits t buf l;; mret (buf + Z.of_nat (length l), written + Z.of_nat (length l), ap, f)).
Proof.
  intros Hd Hok Hsh Ht Hw l. destruct d as [c|m|r alt zero width prec| |prec]; [by destruct (Hd c)|..]; cbn [conv_char shows show] in *.
  - exists (flags_of (Signed m) t). assert (same_sink (flags_of (Signed m) t) t) as Hk by (destruct Ht as [-> | ->]; by destruct m).
    split; [done|]. set (v := i32 (arg_word a)) in *. pose proof (i32_range (arg_word a)) as Hv. fold v in Hv.
    transitivity ('(arg, buf, written) ← print_sign polls v buf written (flags_of (Signed m) t);
      w ← print_uint polls buf (size - written) (u32 arg) 10 (flags_of (Signed m) t) 0 0;
      mret (M := M (print_t D)) (buf + w, written + w, ap, flags_of (Signed m) t)); [done|].
    rewrite print_sign_spec // bindA (emits_sink _ _ _ _ Hk).
    set (sg := _ ++ _). assert (sg = (if decide (v < 0) then text "-" else []) ++ sign_text m) as Hsg.
    { unfold sg. f_equal. destruct Ht as [-> | ->]; by destruct m. }
    assert (sg = take (Z.to_nat (size - written)) sg) as Hcut.
    { rewrite take_ge //. rewrite Hsg. destruct Hsh as [-> |Hp]; [destruct (decide (v < 0)); cbn; lia|].
      rw decide_False; [lia|]. destruct m; cbn; lia. }
    unfold l, show_signed. rewrite app_assoc -Hsg.
    rewrite -(emits_cut t buf written size sg _ (λ b w, mret (b, w, ap, flags_of (Signed m) t))); [lia|].
    rewrite -Hcut. apply bind_eq. intros []. rewrite bind_retl print_uint_spec; [lia|apply u32_range|].
    rewrite bindA (emits_sink _ _ _ _ Hk) u32_i32 u32_small; [lia|].
    assert (bool_decide (Z.land (flags_of (Signed m) t) FLAG_SMALLS ≠ 0) = false) as -> by (destruct Ht as [-> | ->]; by destruct m).
    rewrite (_ : field (number false 10 (Z.abs v)) 0 0 = number false 10 (Z.abs v)) //.
  - destruct (radix_flags_bits r alt zero width prec t Ht) as (Hs & Ha & Hz & Hk).
    rewrite convert_unsigned. cbn [prec_val width_val]. destruct (hexadecimal r) eqn:Hr.
    + eexists. split; [exact Hk|]. rewrite (print_hex_spec r alt) //; [by apply Ha|]. rewrite (precision_max _ _ _ _ Hz).
      rewrite (emits_sink _ _ _ _ Hk). by destruct r.
    + eexists. split; [exact Hk|]. rewrite print_unsigned_spec; [destruct r; cbn; lia|].
      assert (radix_flags r = id) as Hid by by destruct r. rewrite Hid in Hs, Hz, Hk |- *. cbn [id] in *.
      rewrite Hs (precision_max _ _ _ _ Hz) bindA (emits_sink _ _ _ _ Hk).
      unfold l, show_unsigned. assert (prefixed r alt = false) as -> by by destruct r.
      apply bind_eq. intros []. by rewrite bind_retl.
  - exists t. split; [done|]. change (convert _ _ _ _ _ _ _ _ _) with
      (printc buf (u8 (arg_word a)) t;; mret (M := M (print_t D)) (buf + 1, written + 1, ap, t)).
    unfold l. replace (Z.to_nat (size - written)) with (S (Z.to_nat (size - written - 1))) by lia.
    cbn [take emits]. rewrite take_nil bindA. apply bind_eq. intros []. by rewrite bind_retl.
  - exists t. split; [done|]. destruct Hsh as [s Hs].
    transitivity ('(buf, written) ← put_string polls (arg_chars a) buf written
        (if decide (prec_of prec ≠ -1 ∧ written + prec_of prec < size) then written + prec_of prec else size) t;
      mret (M := M (print_t D)) (buf, written, ap, t)); [done|].
    assert (l = take (Z.to_nat ((if decide (prec_of prec ≠ -1 ∧ written + prec_of prec < size) then written + prec_of prec else size) - written)) s) as Hl.
    { unfold l. rewrite Hs. cbn [default]. destruct prec as [ds|]; cbn [prec_of].
      - specialize (Hok ds eq_refl). pose proof (decimal_nonneg ds Hok). destruct (decide _) as [[_ ?]|Hn].
        + rewrite take_take. f_equal. lia.
        + rewrite take_take. f_equal. lia.
      - destruct (decide _) as [[? _]|_]; [lia|done]. }
    rewrite (put_string_spec _ _ _ _ _ _ Hs).
    { destruct (decide _) as [[? ?]|]; [|lia]. destruct prec as [ds|]; [|done]. pose proof (decimal_nonneg ds (Hok ds eq_refl)). cbn. lia. } rewrite -Hl bindA. apply bind_eq. intros []. by rewrite bind_retl.
Qed.

(** ** The loop over the format *)

Definition formats (ds : list directive) : list Z := concat (format_text <$> ds).

Lemma format_loop_stops fuel buf written size flags fmt ap :
  size ≤ written → format_loop polls fuel buf written size flags fmt ap = mret (buf, written, flags).
Proof. intros Hw. destruct fuel; cbn [format_loop]; by rw decide_False; [lia|]. Qed.

Lemma format_loop_lit fuel buf written size flags c fmt ap :
  written < size → c ≠ 0 → c ≠ chr "%" →
  format_loop polls (S fuel) buf written size flags (c :: fmt) ap =
    (printc buf c flags;; format_loop polls fuel (buf + 1) (written + 1) size flags fmt ap).
Proof.
  intros Hw Hz Hc. cbn [format_loop next]. rw decide_True //. rewrite bind_retl. rw (decide_False (P := c = 0)) //.
  by rw decide_True.
Qed.

Lemma format_loop_conv fuel buf written size flags t d a fmt ap :
  written < size → (∀ c, d ≠ Lit c) → directive_ok d → shows d a → tty_bit t → same_sink flags t →
  let l := take (Z.to_nat (size - written)) (show d a) in
  ∃ f, same_sink f t ∧
  format_loop polls (S fuel) buf written size flags (format_text d ++ fmt) (a :: ap) =
    (emits t buf l;; format_loop polls fuel (buf + Z.of_nat (length l)) (written + Z.of_nat (length l)) size f fmt ap).
Proof.
  intros Hw Hd Hok Hsh Ht Hk l.
  assert (format_text d ++ fmt = chr "%" :: mod_text d ++ conv_char d :: fmt) as ->.
  { destruct d as [c| | | |]; [by destruct (Hd c)|..]; cbn [format_text app]; by rewrite -app_assoc. }
  destruct (convert_spec d a buf written size t ap Hd Hok Hsh Ht Hw) as (f & Hf & E). exists f. split; [done|].
  cbn [format_loop next]. rw decide_True //. rewrite bind_retl. destruct (decide (chr "%" = 0)) as [?|_]; [done|].
  destruct (decide (chr "%" ≠ chr "%")) as [?|_]; [done|].
  assert (Z.land flags FLAG_TTY = t) as ->.
  { rewrite Hk. destruct Ht as [-> | ->]; done. }
  destruct (conversion_not_digit _ (conv_char_conversion d Hd)) as [_ Hz].
  pose proof (mods_text d fmt (S (length (mod_text d ++ fmt))) t Hd Hok ltac:(rewrite length_app; lia)) as Em.
  assert (∃ c r, mod_text d ++ conv_char d :: fmt = c :: r ∧ c ≠ 0 ∧ length r = length (mod_text d ++ fmt)) as (c & r & E1 & Hc & Hlen).
  { destruct (more_app (mod_text d) (conv_char d :: fmt)) as (c & r & E1 & Hc); [intros ?; by apply mod_text_nonzero|by eexists _, _|].
    exists c, r. split_and!; [done..|]. apply (f_equal length) in E1. rewrite !length_app in E1 |- *. cbn in E1. lia. }
  rewrite E1. cbn [next]. rewrite E1 in Em. cbn [mods] in Em. rewrite bind_retl decide_False // Hlen Em bind_retl.
  rw decide_False //. rewrite E bindA. apply bind_eq. intros []. by rewrite bind_retl.
Qed.

Lemma format_loop_spec ds ap l :
  formatted ds ap l → ∀ fuel buf written size flags t rest {A} (k : Z * Z * Z → X A),
  (length (formats ds) < fuel)%nat → written ≤ size → tty_bit t → same_sink flags t →
  (∀ b w f, same_sink f t → k (b, w, f) = k (b, w, t)) →
  let l' := take (Z.to_nat (size - written)) l in
  (format_loop polls fuel buf written size flags (formats ds ++ 0 :: rest) ap ≫= k) =
    (emits t buf l';; k (buf + Z.of_nat (length l'), written + Z.of_nat (length l'), t)).
Proof.
  induction 1 as [ap|c ds ap l Hok _ IH|d a ds ap l Hd Hok Hsh _ IH];
    intros fuel buf written size flags t rest A k Hf Hw Ht Hk Hk' l'; (destruct fuel as [|fuel]; [lia|]).
  - unfold l'. rewrite take_nil. cbn. rewrite !Z.add_0_r. destruct (decide (written < size)); rewrite ?bind_retl; by apply Hk'.
  - destruct (decide (written < size)) as [Hlt|Hge].
    + destruct Hok as [Hz Hp]. unfold formats in *. cbn [concat fmap list_fmap format_text app length] in *.
      rewrite format_loop_lit // bindA. unfold l'. replace (Z.to_nat (size - written)) with (S (Z.to_nat (size - (written + 1)))) by lia.
      cbn [take emits]. rewrite bindA. replace (printc buf c flags) with (printc buf c t) by (unfold Xprintf.printc; by rewrite Hk).
      apply bind_eq. intros []. rewrite (IH fuel _ _ size flags t rest) //; [lia|lia|].
      apply bind_eq. intros []. cbn [length]. apply (f_equal2 (λ b w, k (b, w, t))); lia.
    + rewrite format_loop_stops; [lia|]. unfold l'. replace (Z.to_nat (size - written)) with O by lia.
      rewrite take_0 bind_retl. cbn. rewrite bind_retl !Z.add_0_r. by apply Hk'.
  - destruct (decide (written < size)) as [Hlt|Hge].
    + unfold formats in *. cbn [concat fmap list_fmap] in *. rewrite -app_assoc.
      destruct (format_loop_conv fuel buf written size flags t d a (concat (format_text <$> ds) ++ 0 :: rest) ap Hlt Hd Hok Hsh Ht Hk) as (f & Hf' & E).
      rewrite E bindA.
      rewrite -(emits_cut t buf written size (show d a) l (λ b w, k (b, w, t))); [lia|].
      apply bind_eq. intros []. apply (IH fuel _ _ size f t rest A k); [|rewrite length_take; lia|done..].
      rewrite length_app in Hf. assert (1 ≤ length (format_text d))%nat by (destruct d; cbn; lia). lia.
    + rewrite format_loop_stops; [lia|]. unfold l'. replace (Z.to_nat (size - written)) with O by lia.
      rewrite take_0 bind_retl. cbn. rewrite bind_retl !Z.add_0_r. by apply Hk'.
Qed.

Lemma vxnprintf_spec ds ap l rest buf size t :
  formatted ds ap l → 0 < size → tty_bit t →
  vxnprintf polls buf size (formats ds ++ 0 :: rest) ap t =
    if decide (Z.of_nat (length l) < size) then
      emits t buf l;; printc (buf + Z.of_nat (length l)) 0 t;; mret (Z.of_nat (length l))
    else emits t buf (take (Z.to_nat size) l);; printc (buf + (size - 1)) 0 t;; mret (-1).
Proof.
  intros Hfm Hs Ht. unfold vxnprintf. rw decide_False; [lia|].
  rewrite (format_loop_spec ds ap l Hfm _ buf 0 size t t) //; [rewrite length_app; cbn; lia|lia| |].
  - intros b w f Hf. destruct (if decide (w = size) then (b - 1, -1) else (b, w)) as [b' w'].
    unfold Xprintf.printc. by rewrite Hf.
  - rewrite Z.sub_0_r Z.add_0_l. destruct (decide (Z.of_nat (length l) < size)).
    + rewrite take_ge; [lia|]. apply bind_eq. intros []. by rw decide_False; [lia|].
    + apply bind_eq. intros []. rewrite length_take. rw decide_True; [lia|]. f_equal. f_equal. lia.
Qed.

(** ** Into a buffer *)

Lemma printc_buffer c buf (s : print_t D) :
  0 ≤ buf < Z.of_nat (length (out s)) →
  printc buf c 0 s = Done tt (s <| out := <[Z.to_nat buf := c]> (out s) |>).
Proof.
  intros Hb. unfold Xprintf.printc. destruct (decide (Z.land 0 FLAG_TTY ≠ 0)) as [E|_]; [by destruct E|].
  rw bind_gets arr_set_Some //.
Qed.

Lemma emits_buffer l buf (s : print_t D) :
  0 ≤ buf → buf + Z.of_nat (length l) ≤ Z.of_nat (length (out s)) →
  emits 0 buf l s = Done tt (s <| out := splice (out s) buf l |>).
Proof.
  revert buf s. induction l as [|c l IH]; intros buf s Hb Hl; cbn [emits length] in *.
  - unfold splice. cbn. rewrite Nat.add_0_r take_drop. by destruct s.
  - rewrite (bind_Done _ _ _ _ _ (printc_buffer c buf s ltac:(lia))).
    rewrite IH; [lia|rsimpl; rewrite length_insert; lia|]. rsimpl. f_equal. destruct s as [st sl o p]. cbn in *.
    unfold update. cbn. f_equal. apply splice_cons_insert; lia.
Qed.

Lemma vxnprintf_buffer ds ap l rest str size (s : print_t D) :
  formatted ds ap l → 0 < size → 0 ≤ str → str + size ≤ Z.of_nat (length (out s)) →
  vxnprintf polls str size (formats ds ++ 0 :: rest) ap 0 s =
    Done (if decide (Z.of_nat (length l) < size) then Z.of_nat (length l) else -1)
      (s <| out := splice (out s) str (take (Z.to_nat (size - 1)) l ++ [0]) |>).
Proof.
  intros Hfm Hs Hstr Hb. rewrite (vxnprintf_spec ds ap l) //; [by left|]. case_decide as Hl.
  - rewrite take_ge; [lia|].
    assert (∀ n : Z, (emits 0 str (l ++ [0]);; mret n) s = Done n (s <| out := splice (out s) str (l ++ [0]) |>)) as E.
    { intros n. by rewrite (bind_Done _ _ _ _ _ (emits_buffer (l ++ [0]) str s Hstr ltac:(rewrite length_app; cbn; lia))). }
    rewrite -E emits_snoc. by rewrite bindA.
  - set (l0 := take (Z.to_nat (size - 1)) l).
    assert (∃ c, take (Z.to_nat size) l = l0 ++ [c]) as [c Hc].
    { replace (Z.to_nat size) with (S (Z.to_nat (size - 1))) by lia.
      destruct (lookup_lt_is_Some_2 l (Z.to_nat (size - 1))) as [c Hc]; [lia|]. exists c. by apply take_S_r. }
    assert (length l0 = Z.to_nat (size - 1)) as Hl0 by (unfold l0; rewrite length_take; lia).
    rewrite Hc. rewrite (bind_Done _ _ _ _ _ (emits_buffer (l0 ++ [c]) str s Hstr ltac:(rewrite length_app; cbn; lia))).
    erewrite bind_Done; [|apply printc_buffer; rsimpl; rewrite length_splice ?length_app; cbn; lia].
    rsimpl. unfold mret, M_ret. f_equal. destruct s as [st sl o p]. cbn in *. unfold update. cbn. f_equal.
    apply arr_ext. intros i Hi. rewrite arr_get_insert; [rewrite length_splice ?length_app; cbn; lia|].
    rewrite !arr_get_splice ?length_app; cbn; [lia..|]. repeat case_decide; try lia; try done.
    + subst i. rewrite arr_get_app; [lia|]. rw decide_False; [lia|]. by replace (str + (size - 1) - str - Z.of_nat (length l0)) with 0 by lia.
    + rewrite !arr_get_app; [lia..|]. by rw !decide_True; [lia..|].
Qed.

(** The text of a signed decimal number reads back. *)
Lemma number_decimal n :
  0 ≤ n < 2 ^ 32 →
  Forall (λ d, is_digit d = true) (number false 10 n) ∧ number false 10 n ≠ [] ∧ dec_value (number false 10 n) = n.
Proof.
  intros Hn. pose proof (digit_fuel_enough 10 n ltac:(lia) Hn) as Hf.
  destruct (digit_list_value digit_fuel 10 n ltac:(lia) Hf) as [Hv Hd].
  assert (∀ d, 0 ≤ d < 10 → digit_char false d = 48 + d) as Hc.
  { intros d Hd'. assert (d ∈ seqZ 0 10) as Hin by (apply elem_of_seqZ; lia). clear Hd'. revert d Hin.
    apply Forall_forall. by apply (bool_decide_unpack _). }
  assert (digit_char false <$> digit_list digit_fuel 10 n = (λ d, 48 + d) <$> digit_list digit_fuel 10 n) as E.
  { apply list_fmap_ext. intros i d Hi. apply Hc. rewrite Forall_forall in Hd. apply Hd. by apply list_elem_of_lookup_2 in Hi. }
  unfold number. rewrite E. split_and!.
  - apply Forall_reverse, Forall_fmap. eapply Forall_impl; [exact Hd|]. intros d Hd'. unfold is_digit. cbn in *. apply bool_decide_eq_true. lia.
  - intros Hnil. apply (f_equal reverse) in Hnil. rewrite reverse_involutive in Hnil.
    apply fmap_nil_inv in Hnil. by apply (digit_list_nonempty digit_fuel 10 n) in Hnil; [|unfold digit_fuel; lia].
  - unfold dec_value. rewrite -{2}Hv. generalize (digit_list digit_fuel 10 n). clear. intros l.
    induction l as [|d l IH]; [done|]. rewrite fmap_cons reverse_cons fold_left_app IH. cbn. lia.
Qed.

Lemma show_signed_atoi v rest :
  - 2 ^ 31 ≤ v < 2 ^ 31 → atoi (show_signed NoSign v ++ 0 :: rest) = Some v.
Proof.
  intros Hv. destruct (number_decimal (Z.abs v) ltac:(lia)) as (Hd & Hne & Hval). unfold show_signed. cbn [sign_text app].
  destruct (decide (v < 0)).
  - rewrite -app_assoc. change (text "-") with [45].
    rewrite (atoi_decimal [] [45] (-1) _ 0 rest); [constructor|constructor|done|done|done|]. rewrite Hval i32_small; [lia|]. f_equal. lia.
  - rewrite -!app_assoc. cbn [app].
    rewrite (atoi_decimal [] [] 1 _ 0 rest); [constructor|constructor|done|done|done|]. rewrite Hval i32_small; [lia|]. f_equal. lia.
Qed.

Lemma show_signed_length v : - 2 ^ 31 ≤ v < 2 ^ 31 → (length (show_signed NoSign v) ≤ 11)%nat.
Proof.
  intros Hv. unfold show_signed, number. cbn [sign_text app].
  assert (length (digit_list digit_fuel 10 (Z.abs v)) ≤ 10)%nat as Hl by (apply digit_list_le; lia).
  rewrite !length_app length_reverse length_fmap. destruct (decide (v < 0)); cbn [text fmap list_fmap length String.list_ascii_of_string]; lia.
Qed.
End output.

(** ** To the terminal *)

Section terminal_output.
Context {D : Type} `{TtyPrompt D}.
Variable polls : nat.
Hypothesis Hpolls : (busy_bound < polls)%nat.

Lemma emits_tty l buf (s : print_t D) :
  polltty_iobase (poll s) ≠ 0 →
  ∃ d, emits polls FLAG_TTY buf l s = Done tt (s <| poll := (poll s) <| poll_io := d |> |>) ∧
    sent d = sent (poll_io (poll s)) ++ filter (λ c, c ≠ 0) l ∧ pending d = pending (poll_io (poll s)).
Proof.
  revert buf s. induction l as [|c l IH]; intros buf s Hb; cbn [emits].
  - exists (poll_io (poll s)). rewrite app_nil_r. split; [|done]. by destruct s as [? ? ? []].
  - assert (∃ d, printc polls buf c FLAG_TTY s = Done tt (s <| poll := (poll s) <| poll_io := d |> |>) ∧
      sent d = sent (poll_io (poll s)) ++ filter (λ c, c ≠ 0) [c] ∧ pending d = pending (poll_io (poll s))) as (d & E & Hs & Hp).
    { unfold printc. destruct (decide (Z.land FLAG_TTY FLAG_TTY ≠ 0)) as [_|[]]; [|done]. rewrite filter_cons filter_nil.
      destruct (decide (c ≠ 0)).
      - destruct (putchar_sends polls c (poll s) Hpolls Hb) as (d & E & Hs & Hp). exists d. split; [|done].
        unfold zoom. cbn [lget]. by rewrite E.
      - exists (poll_io (poll s)). rewrite app_nil_r. split; [|done]. by destruct s as [? ? ? []]. }
    rewrite (bind_Done _ _ _ _ _ E). destruct (IH (buf + 1) (s <| poll := (poll s) <| poll_io := d |> |>)) as (d' & E' & Hs' & Hp'); [done|].
    exists d'. rsimpl. split; [exact E'|]. rewrite Hs' Hs Hp' Hp -app_assoc. split; [|done]. f_equal.
    by case_decide.
Qed.
End terminal_output.

(** ** Properties *)
Section properties.
Context {D : Type} `{TtyPrompt D}.
Variable polls : nat.

(** C26 (bounds): snprintf of a format made of literals and conversions (d with no
    sign flag, or with one when the argument is not negative; o, u, x, X and p with
    the flags # and 0; c; s of a terminated string; width and precision of at most
    nine digits, each from 1 to 8) into a buffer of size at least 1 inside its
    object writes the text the directives show of the arguments, cut to size - 1
    characters, with a terminator after it and nothing else in the buffer's object
    or beyond; it returns the length of the text, or -1 when it was cut, where the
    comment of vxnprintf promises the number of characters written. *)
Theorem snprintf_renders ds ap l rest str size (s : print_t D) :
  formatted ds ap l → 0 < size → 0 ≤ str → str + size ≤ Z.of_nat (length (out s)) →
  ∃ s', snprintf polls str size (formats ds ++ 0 :: rest) ap s =
      Done (if decide (Z.of_nat (length l) < size) then Z.of_nat (length l) else -1) s' ∧
    poll s' = poll s ∧ length (out s') = length (out s) ∧
    slice (out s') str (Z.min (Z.of_nat (length l)) (size - 1) + 1) = take (Z.to_nat (size - 1)) l ++ [0] ∧
    ∀ i, i < str ∨ str + Z.min (Z.of_nat (length l)) (size - 1) < i → arr_get (out s') i = arr_get (out s) i.
Proof.
  intros Hf Hs Hstr Hb. eexists. split; [by apply vxnprintf_buffer|].
  set (l' := take (Z.to_nat (size - 1)) l ++ [0]).
  assert (Z.of_nat (length l') = Z.min (Z.of_nat (length l)) (size - 1) + 1) as Hl
    by (unfold l'; rewrite length_app length_take; cbn; lia).
  rsimpl. split_and!; [done|by apply length_splice; lia|rewrite -Hl; apply slice_splice_same; lia|].
  intros i Hi. destruct (decide (0 ≤ i)); [|unfold arr_get; by rw !decide_False].
  rewrite arr_get_splice; [lia..|]. by rw decide_False; [lia|].
Qed.

(** C27 (roundtrip): what snprintf writes for a signed decimal conversion, atoi
    reads back as the same int, for every int (also the least one, whose
    negation overflows). *)
Theorem snprintf_atoi_roundtrip v str size (s : print_t D) :
  - 2 ^ 31 ≤ v < 2 ^ 31 → 12 ≤ size → 0 ≤ str → str + size ≤ Z.of_nat (length (out s)) →
  ∃ n s', snprintf polls str size (cstring "%d") [Arg (u32 v) []] s = Done n s' ∧ 0 < n ∧
    atoi (drop (Z.to_nat str) (out s')) = Some v.
Proof.
  intros Hv Hs Hstr Hb. pose proof (show_signed_length v Hv) as Hlen.
  assert (formatted [Signed NoSign] [Arg (u32 v) []] (show_signed NoSign v)) as Hf.
  { rewrite -{2}(i32_small v) // -i32_u32 -(app_nil_r (show_signed _ _)).
    apply (formatted_conv (Signed NoSign) (Arg (u32 v) [])); [done..|by left|constructor]. }
  eexists _, _. split; [exact (vxnprintf_buffer polls _ _ _ [] str size s Hf ltac:(lia) Hstr Hb)|].
  rw decide_True; [lia|]. split.
  { assert (show_signed NoSign v ≠ []); [|destruct (show_signed NoSign v); [done|cbn; lia]].
    unfold show_signed. destruct (number_decimal (Z.abs v)) as (_ & Hne & _); [lia|].
    destruct (decide (v < 0)); [done|]. by cbn. }
  rsimpl. rewrite take_ge; [lia|]. unfold splice. rewrite drop_app_length'; [rewrite length_take; lia|].
  rewrite -app_assoc. by apply show_signed_atoi.
Qed.

(** Kprintf sends the text the directives show of the
    arguments to the terminal, each character once and in order and without
    NULs, returns its length, and leaves its lock free and the interrupt state
    as it was. *)
Theorem kprintf_sends ds ap l rest (s : print_t D) :
  formatted ds ap l → Z.of_nat (length l) < 0x7fffffff → (busy_bound < polls)%nat →
  polltty_iobase (poll s) ≠ 0 → kprintf_slock s = 0 → 0 ≤ p_status s < 2 ^ 32 →
  ∃ s', kprintf polls (formats ds ++ 0 :: rest) ap s = Done (Z.of_nat (length l)) s' ∧
    sent (poll_io (poll s')) = sent (poll_io (poll s)) ++ filter (λ c, c ≠ 0) l ∧
    pending (poll_io (poll s')) = pending (poll_io (poll s)) ∧
    kprintf_slock s' = 0 ∧ p_status s' = p_status s ∧ out s' = out s ∧
    polltty_iobase (poll s') = polltty_iobase (poll s).
Proof.
  intros Hf Hl Hp Hb Hk Hst.
  set (s1 := (s <| p_status := disabled (p_status s) |>) <| kprintf_slock := 1 |>).
  destruct (emits_tty polls Hp (l ++ [0]) 0 s1 Hb) as (d & E & Hs & Hpd).
  set (s2 := s1 <| poll := (poll s1) <| poll_io := d |> |>) in *.
  assert (vxnprintf polls 0 0x7fffffff (formats ds ++ 0 :: rest) ap FLAG_TTY s1 = Done (Z.of_nat (length l)) s2) as Hv.
  { rewrite (vxnprintf_spec polls ds ap l) //; [by right|]. rw decide_True //.
    transitivity ((emits polls FLAG_TTY 0 (l ++ [0]);; mret (Z.of_nat (length l))) s1); [by rewrite emits_snoc bindA|].
    by rewrite (bind_Done _ _ _ _ _ E). }
  eexists. split.
  - change (kprintf polls (formats ds ++ 0 :: rest) ap) with
      (critical #p_status #kprintf_slock (vxnprintf polls 0 0x7fffffff (formats ds ++ 0 :: rest) ap FLAG_TTY)).
    by rewrite (critical_run #p_status #kprintf_slock _ s _ _ Hk Hv).
  - unfold s2, s1. rsimpl. rewrite filter_app app_nil_r in Hs. unfold s1 in Hs, Hpd. rsimpl. by rewrite Hs Hpd.
Qed.
End properties.

(** ** Where the code does something else *)

(** A 9 as the first digit of a width is never consumed: the modifiers of %9u
    are read for ever. *)
Lemma width_nine_spins {D} `{TtyPorts D} fuel fmt flags prec width (s : print_t D) :
  read_mods fuel (chr "9") fmt flags prec width s = Spin.
Proof.
  revert flags prec width. induction fuel as [|f IH]; intros flags prec width; [done|].
  transitivity (read_mods f (chr "9") fmt flags prec 0 s); [done|apply IH].
Qed.

(** The zero of a width is not part of it: %10u pads to one column, with zeros. *)
Lemma width_zero_ignored {D} `{TtyPorts D} fuel c r flags prec (s : print_t D) :
  c ≠ 0 →
  mods (S (S fuel)) (text "10" ++ c :: r) flags prec (-1) s = mods fuel (c :: r) (Z.lor flags FLAG_ZEROPAD) prec 1 s.
Proof.
  intros Hc. transitivity (read_mods (S fuel) (chr "0") (c :: r) flags prec 1 s); [done|].
  cbn. by rewrite decide_True.
Qed.

(** ** Concrete runs *)

#[export] Instance terminal_prompt : TtyPrompt terminal.
Proof.
  refine {| busy_for := λ _, O; busy_bound := O |}; [|done].
  intros d Hd. exfalso. apply Hd. cbn. by case_decide.
Defined.

Definition example_print (n : nat) : print_t terminal :=
  Printing terminal 0xff01 0 (replicate n 63) (Poll terminal 0xb0008000 (Terminal [] [])).

(** A sign flag is printed after the minus sign, which the buffer's size does
    not allow for: with one byte for the text, two more are written. *)
Lemma sign_after_minus_overruns :
  snprintf 1 0 1 (cstring "%+d") [Arg (2 ^ 32 - 5) []] (example_print 4) =
    Done 2 ((example_print 4) <| out := text "-+" ++ [0; 63] |>).
Proof. by vm_compute. Qed.

Definition example_format : list directive :=
  [Lit (chr "a"); Signed NoSign; Unsigned LowerHex true true [6] None; Chars (Some [2])].
Definition example_args : list arg_t := [Arg (2 ^ 32 - 12) []; Arg 255 []; Arg 0 (cstring "hello")].

Lemma example_formatted : formatted example_format example_args (text "a-120x00ffhe").
Proof.
  change (text "a-120x00ffhe") with (chr "a" :: show (Signed NoSign) (Arg (2 ^ 32 - 12) []) ++
    show (Unsigned LowerHex true true [6] None) (Arg 255 []) ++ show (Chars (Some [2])) (Arg 0 (cstring "hello")) ++ []).
  assert (∀ d, 1 ≤ d ≤ 8 → scannable [d]) as Hs by (intros d Hd; split; [by apply Forall_singleton|cbn; lia]).
  apply formatted_lit; [done|]. apply formatted_conv; [done|done|by left|].
  apply formatted_conv; [done|split; [by apply Hs|done]|done|].
  apply formatted_conv; [done|intros ? [= <-]; by apply Hs|by eexists|]. apply formatted_nil.
Qed.

Lemma snprintf_renders_witness :
  formats example_format = text "a%d%#06x%.2s" ∧
  (∃ s', snprintf 1 3 20 (formats example_format ++ [0]) example_args (example_print 30) = Done 12 s' ∧
    slice (out s') 3 13 = cstring "a-120x00ffhe") ∧
  ∃ s', snprintf 1 0 6 (formats example_format ++ [0]) example_args (example_print 30) = Done (-1) s' ∧
    slice (out s') 0 6 = cstring "a-120".
Proof.
  split; [done|]. split.
  - destruct (snprintf_renders 1 example_format example_args _ [] 3 20 (example_print 30) example_formatted)
      as (s' & E & _ & _ & Hs & _); [lia|lia|cbn; lia|]. exists s'. split; [exact E|exact Hs].
  - destruct (snprintf_renders 1 example_format example_args _ [] 0 6 (example_print 30) example_formatted)
      as (s' & E & _ & _ & Hs & _); [lia|lia|cbn; lia|]. exists s'. split; [exact E|exact Hs].
Defined.

Lemma snprintf_atoi_roundtrip_witness :
  ∃ n s', snprintf 1 2 12 (cstring "%d") [Arg (u32 (- 2 ^ 31)) []] (example_print 14) = Done n s' ∧
    atoi (drop 2 (out s')) = Some (- 2 ^ 31).
Proof.
  destruct (snprintf_atoi_roundtrip 1 (- 2 ^ 31) 2 12 (example_print 14)) as (n & s' & E & _ & Ha);
    [lia|lia|lia|cbn; lia|]. exists n, s'. split; [exact E|exact Ha].
Defined.

Lemma kprintf_sends_witness :
  ∃ s', kprintf 1 (formats example_format ++ [0]) example_args (example_print 0) = Done 12 s' ∧
    screen (poll_io (poll s')) = text "a-120x00ffhe".
Proof.
  destruct (kprintf_sends 1 example_format example_args _ [] (example_print 0) example_formatted)
    as (s' & E & Hs & _); [cbn; lia|cbn; lia|cbn; lia|done|cbn; lia|]. exists s'. split; [exact E|exact Hs].
Defined.
End XprintfSpec.
