(* ===== verification/Tlbops.v ===== *)
(** * The other TLB routines (vm/_tlb.S, vm/tlb.c, kernel/exception.c)

    Reading and probing rows, writing a row the hardware chooses, the registers
    of a TLB exception and their message, and the handlers of the three TLB
    exceptions. *)
From S2P Require Import Prelude Bytes Vm Tty Polltty Xprintf.
Import Vm Tty Polltty Xprintf.

Module Tlbops.

(** ** Rows

    Rows pass through EntryHi, whose low bits are the current ASID. *)

(** The index of the matching row; the hardware sets the highest bit of Index
    when there is none.  No row of the kernel's page tables is global. *)
Definition _tlb_probe (entry : tlb_entry) : M tlb_t Z := fun t =>
  Done (match list_find (λ e, VPN2 e = VPN2 entry ∧ ASID e = ASID entry) (tlb_rows t) with
        | Some (i, _) => Z.of_nat i
        | None => - 2 ^ 31
        end) (t <| tlb_asid := ASID entry |>).

(** The rows that were read and the TLB afterwards. *)
Fixpoint _tlb_read (index : Z) (num : nat) (t : tlb_t) : list tlb_entry * tlb_t :=
  match num with
  | O => ([], t)
  | S num' =>
    match arr_get (tlb_rows t) index with
    | Some e => let r := _tlb_read (index + 1) num' (t <| tlb_asid := ASID e |>) in (e :: r.1, r.2)
    | None => ([], t)
    end
  end.

(** [random] is the register of that name, below the number of rows. *)
Definition _tlb_write_random (random : Z) (entry : tlb_entry) : M tlb_t unit := fun t =>
  match arr_set (tlb_rows t) random entry with
  | Some rows => Done tt (t <| tlb_rows := rows |> <| tlb_asid := ASID entry |>)
  | None => Fault
  end.

(** ** Exceptions *)

Record tlb_exception_state_t := TlbExceptionState { badvaddr : Z; badvpn2 : Z; asid : Z }.

(** From the registers BadVAddr and EntryHi. *)
Definition _tlb_get_exception_state (BadVAd EntrHi : Z) : tlb_exception_state_t :=
  TlbExceptionState BadVAd (Z.shiftr EntrHi 13) (Z.land EntrHi 0x00ff).

Definition tlb_modified_exception {S} : M S unit := panic "Unhandled TLB modified exception".
Definition tlb_load_exception {S} : M S unit := panic "Unhandled TLB load exception".
Definition tlb_store_exception {S} : M S unit := panic "Unhandled TLB store exception".

Section debug.
Context {D : Type} `{TtyPorts D}.
Variable polls : nat.

Definition newline : list Z := [10].
Definition print_tlb_debug (BadVAd EntrHi : Z) : M (print_t D) unit :=
  let tes := _tlb_get_exception_state BadVAd EntrHi in
  kprintf polls
    (text "TLB exception. Details:" ++ newline ++
     text "Failed Virtual Address: 0x%8.8x" ++ newline ++
     text "Virtual Page Number:    0x%8.8x" ++ newline ++
     text "ASID (Thread number):   %d" ++ newline ++ [0])
    [Arg (badvaddr tes) []; Arg (badvpn2 tes) []; Arg (asid tes) []];;
  mret tt.
End debug.

(** ** Reading what was written *)

Lemma tlb_read_rows index num t :
  0 ≤ index → index + Z.of_nat num ≤ Z.of_nat (length (tlb_rows t)) →
  (_tlb_read index num t).1 = take num (drop (Z.to_nat index) (tlb_rows t)) ∧
  tlb_rows (_tlb_read index num t).2 = tlb_rows t.
Proof.
  revert index t. induction num as [|num IH]; intros index t Hi Hn; [done|].
  destruct (arr_get_is_Some (tlb_rows t) index) as [e He]; [lia|]. cbn [_tlb_read]. rewrite He.
  destruct (IH (index + 1) (t <| tlb_asid := ASID e |>)) as [H1 H2]; [lia|unfold update; cbn; lia|]. cbn. rewrite H1 H2. split; [|done].
  apply arr_get_Some in He as [_ He]. rewrite (drop_S _ _ _ He). cbn. by replace (Z.to_nat (index + 1)) with (S (Z.to_nat index)) by lia.
Qed.

(** Rows are read back as they were written. *)
Lemma tlb_read_write es index t :
  0 ≤ index → index + Z.of_nat (length es) ≤ Z.of_nat (length (tlb_rows t)) →
  (_tlb_read index (length es) (_tlb_write es index (length es) t)).1 = es.
Proof.
  intros Hi Hn. pose proof (tlb_write_rows es index (length es) t Hi Hn ltac:(lia)) as Hw.
  assert (length (take (Z.to_nat index) (tlb_rows t)) = Z.to_nat index) as Hl by (rewrite length_take; lia).
  destruct (tlb_read_rows index (length es) (_tlb_write es index (length es) t) Hi) as [-> _].
  - rewrite Hw !length_app length_take length_drop length_take. lia.
  - rewrite Hw drop_app_length' // firstn_all take_app_length' //.
Qed.

(** Reading a row makes its ASID the current one: an address of the thread may be
    translated differently after it. *)
Lemma tlb_read_changes_asid :
  let e a f := TlbEntry 5 a f 1 1 0 0 0 0 0 in
  let t := Tlb [e 1 100; e 2 200] 1 in
  tlb_translate t (5 * 8192) = Some (100, 1) ∧ tlb_translate (_tlb_read 1 1 t).2 (5 * 8192) = Some (200, 1).
Proof. by vm_compute. Qed.
End Tlbops.
