(* ===== verification/Bootargs.v ===== *)
(** * Boot arguments (drivers/bootargs.c)

    The parser of the string "key1=value1 key2=value2" that the machine leaves
    for the kernel, and the lookup of a key. *)
From S2P Require Import Prelude Bytes Libc Kmalloc.
Import Kmalloc Libc.

Module Bootargs.

Definition CONFIG_BOOTARGS_MAX : Z := 32.

(** A [char *]: into the copy of the arguments, or to the literal "". *)
Inductive char_ptr := NULL | InArea (o : Z) | EmptyString.
#[export] Instance char_ptr_eq : EqDecision char_ptr.
Proof. solve_decision. Defined.

Record bootarg_t := Bootarg { key : char_ptr; value : char_ptr }.
#[export] Instance eta_bootarg : Eta bootarg_t := fun b => Bootarg (key b) (value b).

(** The permanent memory allocator, the copy of the arguments ([value_area], its
    address and contents) and the table. *)
Record boot_t := Boot {
  memory : kmalloc_t; area_base : Z; area : list Z; bootargs_values : list bootarg_t }.
#[export] Instance eta_boot : Eta boot_t := fun s =>
  Boot (memory s) (area_base s) (area s) (bootargs_values s).

Abbreviation B A := (M boot_t A).

Definition get_char (o : Z) : B Z := a ← gets area; oread (arr_get a o).
Definition set_char (o c : Z) : B unit :=
  a ← gets area;
  a' ← oread (arr_set a o c);
  modify (λ s, s <| area := a' |>).
Definition upd_arg (i : Z) (f : bootarg_t → bootarg_t) : B unit :=
  t ← gets bootargs_values;
  b ← oread (arr_get t i);
  t' ← oread (arr_set t i (f b));
  modify (λ s, s <| bootargs_values := t' |>).

(** [bmemcopy] from the arguments to the start of the area. *)
Definition bmemcopy (source : list Z) (len : Z) : B unit :=
  for_loop (Z.to_nat len) 0 (λ i, c ← oread (arr_get source i); set_char i c).

(** The value of argument [i], from [last] on: the new [o] and [last]; at most
    [n] characters are left. *)
Fixpoint value_loop (n : nat) (i o last l : Z) : B (Z * Z) :=
  match n with
  | O => mret (o, last)
  | S n' =>
    if decide (o ≤ l) then
      c ← get_char o;
      if decide (c = chr " " ∨ c = 0) then
        upd_arg i (λ b, b <| value := InArea last |>);;
        set_char o 0;;
        mret (o + 1, o + 1)
      else value_loop n' i (o + 1) last l
    else mret (o, last)
  end.

(** The loop over the characters; every turn increases [o]. *)
Fixpoint parse_loop (fuel : nat) (i o last l : Z) : B unit :=
  if decide (o ≤ l) then
    match fuel with
    | O => spin
    | S f =>
      c ← get_char o;
      if decide (c = chr " " ∨ c = 0 ∨ c = chr "=") then
        upd_arg i (λ b, b <| key := InArea last |>);;
        upd_arg i (λ b, b <| value := EmptyString |>);;
        let last := o + 1 in
        if decide (c = chr "=") then
          set_char o 0;;
          let o := o + 1 in
          '(o, last) ← value_loop (Z.to_nat (l + 1 - o)) i o last l;
          parse_loop f (i + 1) o last l
        else
          set_char o 0;;
          parse_loop f (i + 1) (o + 1) last l
      else parse_loop f i (o + 1) last l
    end
  else mret tt.

(** [boot] is what lies at BOOT_ARGUMENT_AREA. *)
Definition bootargs_init (boot : list Z) : B unit :=
  for_loop (Z.to_nat CONFIG_BOOTARGS_MAX) 0 (λ i, upd_arg i (λ b, b <| key := NULL |>));;
  l ← oread (strlen boot);
  value_area ← zoom #memory (kmalloc (l + 1));
  modify (λ s, s <| area_base := value_area |> <| area := replicate (Z.to_nat (l + 1)) 0 |>);;
  bmemcopy boot (l + 1);;
  parse_loop (Z.to_nat (l + 1)) 0 0 0 l.

(** The characters a pointer leads to. *)
Definition chars (a : list Z) (p : char_ptr) : list Z :=
  match p with
  | NULL => []
  | InArea o => if decide (0 ≤ o) then drop (Z.to_nat o) a else []
  | EmptyString => [0]
  end.

(** The comparison of a key; [None] when it leaves one of the strings. *)
Fixpoint key_is (s k : list Z) : option bool :=
  match s, k with
  | c :: s', d :: k' =>
    if decide (c = d) then if decide (d = 0) then Some true else key_is s' k' else Some false
  | _, _ => None
  end.

(** The search, over the table from some entry on. *)
Fixpoint get_loop (a : list Z) (k : list Z) (t : list bootarg_t) : B char_ptr :=
  match t with
  | [] => mret NULL
  | b :: t' =>
    if decide (key b = NULL) then mret NULL else
    found ← oread (key_is (chars a (key b)) k);
    if found : bool then mret (value b) else get_loop a k t'
  end.

Definition bootargs_get (k : list Z) : B char_ptr :=
  a ← gets area;
  t ← gets bootargs_values;
  get_loop a k t.
End Bootargs.
