(* ===== verification/BootargsSpec.v ===== *)
(** * Properties of the boot arguments

    The table after [bootargs_init] is that of a parser which splits the string
    into words at spaces and each word at its first equals sign. *)
From S2P Require Import Prelude Bytes Libc Kmalloc Bootargs.
Import Kmalloc Libc Bootargs.

Module BootargsSpec.

(** ** The reference parser *)

Fixpoint words (s : list Z) : list (list Z) :=
  match s with
  | [] => [[]]
  | c :: r => if decide (c = chr " ") then [] :: words r else
      match words r with w :: ws => (c :: w) :: ws | [] => [[c]] end
  end.

(** The key of a word, and its value when it has one. *)
Fixpoint split_word (w : list Z) : list Z * option (list Z) :=
  match w with
  | [] => ([], None)
  | c :: r => if decide (c = chr "=") then ([], Some r) else
      let '(k, v) := split_word r in (c :: k, v)
  end.

Definition arguments (s : list Z) : list (list Z * list Z) :=
  (λ w, let '(k, v) := split_word w in (k, default [] v)) <$> words s.

(** ** Words *)

Definition plain (k : list Z) : Prop := Forall (λ c, c ≠ chr " " ∧ c ≠ chr "=" ∧ c ≠ 0) k.
Definition spaceless (v : list Z) : Prop := Forall (λ c, c ≠ chr " " ∧ c ≠ 0) v.

(** The word as it stands in the string, and as the parser leaves it. *)
Definition join_word (kv : list Z * option (list Z)) : list Z :=
  kv.1 ++ match kv.2 with Some v => chr "=" :: v | None => [] end.
Definition left_word (kv : list Z * option (list Z)) : list Z :=
  kv.1 ++ 0 :: match kv.2 with Some v => v ++ [0] | None => [] end.
Definition word_ok (kv : list Z * option (list Z)) : Prop :=
  plain kv.1 ∧ ∀ v, kv.2 = Some v → spaceless v.

(** Words separated by spaces, from the second one on. *)
Definition tail_words (ws : list (list Z)) : list Z := concat ((λ w, chr " " :: w) <$> ws).

Lemma words_nonempty s : words s ≠ [].
Proof. destruct s as [|c s]; cbn; [done|]. case_decide; [done|]. by destruct (words s). Qed.

Lemma words_join s w ws : words s = w :: ws → s = w ++ tail_words ws.
Proof.
  revert w ws. induction s as [|c s IH]; intros w ws; cbn.
  - by intros [= <- <-].
  - case_decide as Hc.
    + intros [= <- <-]. subst c. destruct (words s) as [|w' ws'] eqn:E; [by apply words_nonempty in E|].
      cbn. f_equal. by apply IH.
    + destruct (words s) as [|w' ws'] eqn:E; [by apply words_nonempty in E|]. intros [= <- <-]. cbn. f_equal. by apply IH.
Qed.

Lemma words_spaceless s : 0 ∉ s → Forall spaceless (words s).
Proof.
  induction s as [|c s IH]; intros Hz; cbn; [by repeat constructor|].
  apply not_elem_of_cons in Hz as [Hc Hz]. specialize (IH Hz). case_decide as Hs; [by constructor; [constructor|]|].
  destruct (words s) as [|w ws]; inversion IH; subst; (apply Forall_cons_2; [apply Forall_cons_2; [by split; [|congruence]|done]|done]).
Qed.

Lemma split_word_join w : join_word (split_word w) = w.
Proof.
  induction w as [|c w IH]; [done|]. cbn. case_decide as Hc; [by subst|]. destruct (split_word w) as [k v]. cbn in *. f_equal. exact IH.
Qed.

Lemma split_word_ok w : spaceless w → word_ok (split_word w).
Proof.
  induction w as [|c w IH]; intros Hw; cbn; [by split; [constructor|]|]. inversion Hw as [|?? [Hc Hz] Hw']; subst.
  case_decide as He; [by split; [constructor|intros ? [= <-]]|]. destruct (IH Hw') as [Hk Hv]. destruct (split_word w) as [k v].
  split; cbn in *; [by constructor|done].
Qed.
(** ** The loops *)

Definition len (l : list Z) : Z := Z.of_nat (length l).

Lemma len_app l l' : len (l ++ l') = len l + len l'.
Proof. unfold len. rewrite length_app. lia. Qed.

Lemma get_char_at P c r s : area s = P ++ c :: r → get_char (len P) s = Done c s.
Proof.
  intros Ha. unfold get_char. rw bind_gets. rewrite Ha arr_get_app; [unfold len; lia|]. rw decide_False; [unfold len; lia|].
  unfold len. by rewrite Z.sub_diag.
Qed.

Lemma set_char_at P c d r s : area s = P ++ c :: r → set_char (len P) d s = Done tt (s <| area := P ++ d :: r |>).
Proof.
  intros Ha. unfold set_char, len. rw bind_gets. rewrite Ha arr_set_Some; [rewrite length_app; cbn; lia|]. rw bind_oread.
  unfold modify. do 2 f_equal. rewrite Nat2Z.id. rewrite -{1}(Nat.add_0_r (length P)) insert_app_r. done.
Qed.

Lemma upd_arg_at i f b s :
  bootargs_values s !! i = Some b →
  upd_arg (Z.of_nat i) f s = Done tt (s <| bootargs_values := <[i := f b]> (bootargs_values s) |>).
Proof.
  intros Hi. pose proof (lookup_lt_Some _ _ _ Hi). unfold upd_arg. rw bind_gets.
  assert (arr_get (bootargs_values s) (Z.of_nat i) = Some b) as -> by (apply arr_get_Some; rewrite Nat2Z.id; split; [lia|done]).
  rw bind_oread. rewrite arr_set_Some; [lia|]. rw bind_oread. unfold modify. by rewrite Nat2Z.id.
Qed.

(** The characters of a key are passed over. *)
Lemma parse_key f i last l P k r s :
  plain k → area s = P ++ k ++ r → r ≠ [] → len (area s) = l + 1 →
  parse_loop (length k + f) i (len P) last l s = parse_loop f i (len (P ++ k)) last l s.
Proof.
  intros Hk. revert P. induction Hk as [|c k (Hs & He & Hz) Hk IH]; intros P Ha Hr Hl; [by rewrite app_nil_r|].
  assert (len P ≤ l) as Hle.
  { rewrite Ha !len_app in Hl. destruct r; [done|]. unfold len in *. cbn in Hl. lia. }
  cbn [length Nat.add parse_loop]. rw decide_True //. rewrite (bind_Done _ _ _ _ _ (get_char_at P c (k ++ r) s Ha)).
  rw decide_False; [tauto|]. replace (len P + 1) with (len (P ++ [c])) by (rewrite len_app; done).
  rewrite IH; [by rewrite -app_assoc|done|done|]. by rewrite -app_assoc.
Qed.

Lemma value_loop_reads n i last l P v c r s b :
  spaceless v → c = chr " " ∨ c = 0 → area s = P ++ v ++ c :: r → len (area s) = l + 1 →
  bootargs_values s !! i = Some b → (length v < n)%nat →
  value_loop n (Z.of_nat i) (len P) last l s =
    Done (len (P ++ v) + 1, len (P ++ v) + 1)
      (s <| bootargs_values := <[i := b <| value := InArea last |>]> (bootargs_values s) |> <| area := P ++ v ++ 0 :: r |>).
Proof.
  intros Hv Hc. revert P n. induction Hv as [|d v (Hs & Hz) Hv IH]; intros P n Ha Hl Hb Hn; (destruct n as [|n]; [cbn in Hn; lia|]);
    cbn [value_loop]; (rw decide_True; [rewrite Ha !len_app in Hl; unfold len in *; cbn in Hl; lia|]).
  - rewrite (bind_Done _ _ _ _ _ (get_char_at P c r s Ha)). rw decide_True //.
    rewrite (bind_Done _ _ _ _ _ (upd_arg_at i _ b s Hb)).
    erewrite bind_Done; [|apply (set_char_at P c 0 r); exact Ha]. by rewrite app_nil_r.
  - rewrite (bind_Done _ _ _ _ _ (get_char_at P d (v ++ c :: r) s Ha)). rw decide_False; [tauto|].
    replace (len P + 1) with (len (P ++ [d])) by (rewrite len_app; done).
    rewrite (IH (P ++ [d]) n) //; [by rewrite -app_assoc|cbn in Hn; lia|]. by rewrite -!app_assoc.
Qed.

(** The entry of a word that starts at [o]. *)
Definition entry (o : Z) (kv : list Z * option (list Z)) : bootarg_t :=
  Bootarg (InArea o) (match kv.2 with Some _ => InArea (o + len kv.1 + 1) | None => EmptyString end).

Lemma parse_word f i l P kv c r s b :
  word_ok kv → c = chr " " ∨ c = 0 → area s = P ++ join_word kv ++ c :: r → len (area s) = l + 1 →
  bootargs_values s !! i = Some b →
  parse_loop (length kv.1 + S f) (Z.of_nat i) (len P) (len P) l s =
    parse_loop f (Z.of_nat (S i)) (len (P ++ left_word kv)) (len (P ++ left_word kv)) l
      (s <| bootargs_values := <[i := entry (len P) kv]> (bootargs_values s) |> <| area := P ++ left_word kv ++ r |>).
Proof.
  intros [Hk Hv] Hc Ha Hl Hb. destruct kv as [k v]. cbn [fst snd] in *. unfold join_word, left_word in *. cbn [fst snd] in *.
  set (c0 := match v with Some _ => chr "=" | None => c end). set (r0 := match v with Some v => v ++ c :: r | None => r end).
  assert (area s = (P ++ k) ++ c0 :: r0) as Ha0.
  { rewrite Ha. unfold c0, r0. destruct v; by rewrite -!app_assoc. }
  assert (c0 = chr " " ∨ c0 = 0 ∨ c0 = chr "=") as Hc0 by (unfold c0; destruct v; tauto).
  rewrite (parse_key (S f) _ _ l P k (c0 :: r0)) //; [by rewrite Ha0 -app_assoc|].
  cbn [parse_loop]. rw decide_True; [rewrite Ha0 !len_app in Hl |- *; unfold len in *; cbn in Hl; lia|].
  rewrite (bind_Done _ _ _ _ _ (get_char_at (P ++ k) c0 r0 s Ha0)). rw (decide_True (P := _ ∨ _)) //.
  rewrite (bind_Done _ _ _ _ _ (upd_arg_at i _ b s Hb)).
  erewrite bind_Done; [|apply upd_arg_at; rsimpl; apply list_lookup_insert_eq; exact (lookup_lt_Some _ _ _ Hb)].
  destruct s as [mem base ar vals]. rsimpl. rewrite list_insert_insert_eq.
  unfold c0, r0 in *. clear c0 r0 Hc0. destruct v as [v|].
  - destruct (decide (chr "=" = chr "=")) as [_|[]]; [|done]. specialize (Hv v eq_refl).
    erewrite bind_Done; [|apply (set_char_at (P ++ k) (chr "=") 0 (v ++ c :: r)); exact Ha0]. rsimpl.
    replace (len (P ++ k) + 1) with (len ((P ++ k) ++ [0])) by (rewrite len_app; done).
    set (P' := (P ++ k) ++ [0]). set (s1 := Boot _ _ _ _).
    assert (area s1 = P' ++ v ++ c :: r) as Ha1 by (unfold P'; cbn; by rewrite -!app_assoc).
    assert (len (area s1) = l + 1) as Hl1.
    { rewrite Ha1 -Hl Ha0. unfold P'. unfold len. repeat rewrite !length_app /=. lia. }
    assert (bootargs_values s1 !! i = Some (Bootarg (InArea (len P)) EmptyString)) as Hb1
      by (apply list_lookup_insert_eq; exact (lookup_lt_Some _ _ _ Hb)).
    erewrite bind_Done; [|apply (value_loop_reads _ i _ l P' v c r s1 _ Hv Hc Ha1 Hl1 Hb1)].
    2:{ rewrite -Hl1 Ha1 !len_app. unfold len. cbn. lia. }
    cbn beta iota. unfold s1. rsimpl. rewrite list_insert_insert_eq.
    replace (Z.of_nat (S i)) with (Z.of_nat i + 1) by lia.
    assert (len (P' ++ v) + 1 = len (P ++ k ++ 0 :: v ++ [0])) as -> by (unfold P', len; repeat rewrite !length_app /=; lia).
    do 2 f_equal; [unfold P'; by rewrite -!app_assoc /= -!app_assoc|]. unfold entry, P'. cbn [fst snd].
    do 3 f_equal. rewrite !len_app. unfold len. cbn. lia.
  - rw (decide_False (P := c = chr "=")); [destruct Hc as [-> | ->]; done|].
    erewrite bind_Done; [|apply (set_char_at (P ++ k) c 0 r); exact Ha0]. rsimpl.
    replace (Z.of_nat (S i)) with (Z.of_nat i + 1) by lia.
    assert (len (P ++ k) + 1 = len (P ++ k ++ [0])) as -> by (rewrite !len_app; unfold len; cbn; lia).
    do 2 f_equal. by rewrite -!app_assoc.
Qed.
(** The words in the area, as they came and as they are left, and their entries. *)
Fixpoint text_of (kvs : list (list Z * option (list Z))) : list Z :=
  match kvs with
  | [] => []
  | kv :: kvs' => join_word kv ++ (match kvs' with [] => 0 | _ => chr " " end) :: text_of kvs'
  end.
Definition left_of (kvs : list (list Z * option (list Z))) : list Z := concat (left_word <$> kvs).
Fixpoint entries (o : Z) (kvs : list (list Z * option (list Z))) : list bootarg_t :=
  match kvs with
  | [] => []
  | kv :: kvs' => entry o kv :: entries (o + len (left_word kv)) kvs'
  end.

Lemma join_left kv : (length (join_word kv) + 1 = length (left_word kv))%nat.
Proof. unfold join_word, left_word. destruct kv as [k [v|]]; cbn; rewrite ?length_app /= ?length_app /=; lia. Qed.

Lemma parse_words kvs fuel i l P done_ todo s :
  Forall word_ok kvs → area s = P ++ text_of kvs → len (area s) = l + 1 →
  bootargs_values s = done_ ++ todo → length done_ = i → (length kvs ≤ length todo)%nat →
  (length (text_of kvs) ≤ fuel)%nat →
  parse_loop fuel (Z.of_nat i) (len P) (len P) l s =
    Done tt (s <| area := P ++ left_of kvs |> <| bootargs_values := done_ ++ entries (len P) kvs ++ drop (length kvs) todo |>).
Proof.
  intros Hok. revert fuel i P done_ todo s. induction Hok as [|kv kvs Hkv Hok IH]; intros fuel i P dn todo s Ha Hl Hv Hi Ht Hf.
  - destruct s as [m b ar vals]. cbn in *. subst ar vals. rewrite app_nil_r in Hl.
    assert (¬ len P ≤ l) by lia. rewrite !app_nil_r drop_0. destruct fuel; cbn; by rw decide_False.
  - cbn [text_of] in *. set (c := match kvs with [] => 0 | _ => chr " " end) in *.
    assert (c = chr " " ∨ c = 0) as Hc by (unfold c; destruct kvs; auto).
    destruct todo as [|b todo]; [cbn in Ht; lia|].
    assert (bootargs_values s !! i = Some b) as Hb by (rewrite Hv -Hi list_lookup_middle //).
    assert (length kv.1 ≤ length (join_word kv))%nat as Hj by (unfold join_word; rewrite length_app; lia).
    rewrite length_app in Hf. cbn [length] in Hf.
    replace fuel with (length kv.1 + S (fuel - length kv.1 - 1))%nat by lia.
    rewrite (parse_word _ i l P kv c (text_of kvs) s b) //.
    rewrite (IH _ (S i) (P ++ left_word kv) (dn ++ [entry (len P) kv]) todo).
    + rsimpl. by rewrite -app_assoc.
    + rsimpl. rewrite -Hl Ha. unfold len. pose proof (join_left kv). rewrite !(length_app P) (length_app (join_word kv)) (length_app (left_word kv)). cbn [length]. lia.
    + rsimpl. rewrite Hv -Hi. rewrite -{1}(Nat.add_0_r (length dn)) insert_app_r /=. by rewrite -app_assoc.
    + rewrite length_app Hi /=. lia.
    + cbn in Ht. lia.
    + lia.
    + rsimpl. unfold left_of. cbn [fmap list_fmap concat entries length drop]. rewrite -!app_assoc len_app. done.
Qed.

(** ** bootargs_init *)

Lemma text_of_words s w ws :
  words s = w :: ws → text_of (split_word <$> words s) = s ++ [0].
Proof.
  intros E. rewrite {2}(words_join _ _ _ E) E. clear E. revert w. induction ws as [|w' ws IH]; intros w;
    cbn [fmap list_fmap text_of]; rewrite split_word_join.
  - by rewrite app_nil_r.
  - specialize (IH w'). cbn [fmap list_fmap text_of] in IH. rewrite split_word_join in IH. rewrite (split_word_join w') IH.
    unfold tail_words. cbn. by rewrite -!app_assoc /= -!app_assoc.
Qed.

Lemma bmemcopy_copies src n s :
  (n ≤ length src)%nat → length (area s) = n →
  bmemcopy src (Z.of_nat n) s = Done tt (s <| area := take n src |>).
Proof.
  intros Hn Ha. unfold bmemcopy.
  assert (wp (for_loop (Z.to_nat (Z.of_nat n)) 0 (λ i, c ← oread (arr_get src i); set_char i c))
    (λ _ s', s' = s <| area := take n src |>) s) as Hwp.
  { apply (wp_for_loop (λ i s', s' = s <| area := take (Z.to_nat i) src ++ drop (Z.to_nat i) (area s) |>)).
    - by destruct s.
    - intros i ? Hi ->. destruct (arr_get_is_Some src i) as [c Hc]; [lia|].
      rewrite Hc. unfold wp. rw bind_oread.
      assert (∃ d r, drop (Z.to_nat i) (area s) = d :: r ∧ r = drop (Z.to_nat (i + 1)) (area s)) as (d & r & Ed & Er).
      { destruct (lookup_lt_is_Some_2 (area s) (Z.to_nat i)) as [d Hd]; [lia|]. exists d, (drop (Z.to_nat (i + 1)) (area s)).
        split; [|done]. rewrite (drop_S _ _ _ Hd). do 2 f_equal. lia. }
      assert (i = len (take (Z.to_nat i) src)) as Hi' by (unfold len; rewrite length_take; lia).
      rewrite {1}Hi'. erewrite set_char_at; [|rsimpl; rewrite Ed; done]. rsimpl.
      apply arr_get_Some in Hc as [_ Hc]. f_equal. replace (Z.to_nat (i + 1)) with (S (Z.to_nat i)) by lia.
      rewrite (take_S_r _ _ _ Hc) -app_assoc /=. do 2 f_equal. rewrite Er. f_equal. lia.
    - intros ? ->. rewrite Z.add_0_l !Nat2Z.id. rewrite (drop_ge (area s)); [lia|]. by rewrite app_nil_r. }
  apply wp_Done in Hwp as ([] & ? & E & ->). exact E.
Qed.

Lemma reset_keys s :
  length (bootargs_values s) = Z.to_nat CONFIG_BOOTARGS_MAX →
  for_loop (Z.to_nat CONFIG_BOOTARGS_MAX) 0 (λ i, upd_arg i (λ b, b <| key := NULL |>)) s =
    Done tt (s <| bootargs_values := (λ b, b <| key := NULL |>) <$> bootargs_values s |>).
Proof.
  intros Hl. set (f := λ b : bootarg_t, b <| key := NULL |>).
  assert (wp (for_loop (Z.to_nat CONFIG_BOOTARGS_MAX) 0 (λ i, upd_arg i f))
    (λ _ s', s' = s <| bootargs_values := f <$> bootargs_values s |>) s) as Hwp.
  { apply (wp_for_loop (λ i s', s' = s <| bootargs_values :=
      (f <$> take (Z.to_nat i) (bootargs_values s)) ++ drop (Z.to_nat i) (bootargs_values s) |>)).
    - by destruct s.
    - intros i ? Hi ->. destruct (lookup_lt_is_Some_2 (bootargs_values s) (Z.to_nat i)) as [b Hb]; [lia|]. unfold wp.
      assert (length (f <$> take (Z.to_nat i) (bootargs_values s)) = Z.to_nat i) as Hlen by (rewrite length_fmap length_take; lia).
      set (t := (f <$> take (Z.to_nat i) (bootargs_values s)) ++ drop (Z.to_nat i) (bootargs_values s)).
      assert (t !! Z.to_nat i = Some b) as Ht.
      { unfold t. rewrite lookup_app_r; [lia|]. rewrite Hlen Nat.sub_diag lookup_drop Nat.add_0_r. exact Hb. }
      pose proof (upd_arg_at (Z.to_nat i) f b (s <| bootargs_values := t |>) Ht) as E. rewrite Z2Nat.id in E; [lia|]. rewrite E.
      rsimpl. f_equal. unfold t. replace (Z.to_nat (i + 1)) with (S (Z.to_nat i)) by lia.
      rewrite (take_S_r _ _ _ Hb) fmap_app -app_assoc (drop_S _ _ _ Hb).
      rewrite insert_app_r_alt; [lia|]. by rewrite Hlen Nat.sub_diag.
    - intros ? ->. rewrite Z.add_0_l !Nat2Z.id take_ge; [lia|]. rewrite drop_ge; [lia|]. by rewrite app_nil_r. }
  apply wp_Done in Hwp as ([] & ? & E & ->). exact E.
Qed.

(** ** The table and the area *)

(** The entry [b] holds the argument [kv]. *)
Definition holds (a : list Z) (b : bootarg_t) (kv : list Z * list Z) : Prop :=
  key b ≠ NULL ∧ value b ≠ NULL ∧ cstr (chars a (key b)) = Some kv.1 ∧ cstr (chars a (value b)) = Some kv.2.

Lemma plain_no_nul k : plain k → 0 ∉ k.
Proof. intros Hk Hin. unfold plain in Hk. rewrite Forall_forall in Hk. by destruct (Hk 0 Hin) as (_ & _ & []). Qed.
Lemma spaceless_no_nul v : spaceless v → 0 ∉ v.
Proof. intros Hv Hin. unfold spaceless in Hv. rewrite Forall_forall in Hv. by destruct (Hv 0 Hin) as (_ & []). Qed.

Lemma chars_at P r : chars (P ++ r) (InArea (len P)) = r.
Proof. unfold chars, len. rw decide_True; [lia|]. by rewrite Nat2Z.id drop_app_length. Qed.

Lemma entry_holds P kv r :
  word_ok kv → holds (P ++ left_word kv ++ r) (entry (len P) kv) (kv.1, default [] kv.2).
Proof.
  intros [Hk Hv]. destruct kv as [k v]. cbn [fst snd] in *. unfold holds, entry, left_word. cbn [fst snd key value].
  split_and!; [done|by destruct v| |].
  - rewrite chars_at -app_assoc. apply cstr_app. by apply plain_no_nul.
  - destruct v as [v|]; [|done]. cbn [default].
    assert (P ++ (k ++ 0 :: v ++ [0]) ++ r = (P ++ k ++ [0]) ++ v ++ 0 :: r) as -> by (by rewrite -!app_assoc /= -!app_assoc).
    assert (len P + len k + 1 = len (P ++ k ++ [0])) as -> by (rewrite !len_app; unfold len; cbn; lia).
    rewrite chars_at. apply cstr_app, spaceless_no_nul. by apply Hv.
Qed.

Lemma entries_hold P kvs :
  Forall word_ok kvs →
  Forall2 (holds (P ++ left_of kvs)) (entries (len P) kvs) ((λ kv, (kv.1, default [] kv.2)) <$> kvs).
Proof.
  intros Hok. revert P. induction Hok as [|kv kvs Hkv Hok IH]; intros P; [constructor|].
  unfold left_of. cbn [entries fmap list_fmap concat]. constructor; [by apply entry_holds|].
  rewrite -len_app app_assoc. apply IH.
Qed.

Lemma key_is_compares a k k' r :
  cstr a = Some k' → 0 ∉ k → key_is a (k ++ 0 :: r) = Some (bool_decide (k' = k)).
Proof.
  intros (Hz & q & ->)%cstr_inv. revert k. induction k' as [|c k' IH]; intros [|d k] Hk; cbn.
  - done.
  - apply not_elem_of_cons in Hk as [Hd _]. by rw decide_False.
  - apply not_elem_of_cons in Hz as [Hc _]. by rw decide_False; [congruence|].
  - apply not_elem_of_cons in Hz as [Hc Hz]. apply not_elem_of_cons in Hk as [Hd Hk].
    destruct (decide (c = d)) as [->|Hne].
    + rw decide_False; [congruence|]. rewrite IH //. do 2 f_equal. apply bool_decide_ext. naive_solver.
    + rw bool_decide_false; [congruence|done].
Qed.

Lemma get_loop_finds a es nulls kvs k r s :
  Forall2 (holds a) es kvs → Forall (λ b, key b = NULL) nulls → 0 ∉ k →
  ∃ p, get_loop a (k ++ 0 :: r) (es ++ nulls) s = Done p s ∧
    match list_find (λ kv, kv.1 = k) kvs with
    | Some (_, kv) => p ≠ NULL ∧ cstr (chars a p) = Some kv.2
    | None => p = NULL
    end.
Proof.
  intros He Hn Hk. induction He as [|b kv es kvs (Hkey & Hval & Hck & Hcv) He IH]; cbn [app get_loop list_find].
  - exists NULL. split; [|done]. destruct Hn as [|b nulls Hb _]; [done|]. cbn. by rw decide_True.
  - rw decide_False //. rewrite (key_is_compares _ k kv.1) // bind_oread.
    destruct (decide (kv.1 = k)) as [Heq|Hne].
    + rw bool_decide_true //. by exists (value b).
    + rw bool_decide_false //. destruct IH as (p & E & Hp). exists p. split; [exact E|].
      by destruct (list_find _ kvs) as [[]|].
Qed.

Lemma bootargs_init_spec s0 rest st base m :
  0 ∉ s0 → length (bootargs_values st) = Z.to_nat CONFIG_BOOTARGS_MAX →
  (length (words s0) ≤ Z.to_nat CONFIG_BOOTARGS_MAX)%nat →
  kmalloc (Z.of_nat (length s0) + 1) (memory st) = Done base m →
  ∃ nulls, Forall (λ b, key b = NULL) nulls ∧
  bootargs_init (s0 ++ 0 :: rest) st =
    Done tt (Boot m base (left_of (split_word <$> words s0)) (entries 0 (split_word <$> words s0) ++ nulls)).
Proof.
  intros Hz Hlen Hw Hm.
  exists (drop (length (split_word <$> words s0)) ((λ b, b <| key := NULL |>) <$> bootargs_values st)). split.
  { apply Forall_drop, Forall_fmap, Forall_true. done. }
  unfold bootargs_init. rewrite (bind_Done _ _ _ _ _ (reset_keys st Hlen)).
  rewrite (strlen_cstr _ s0); [by apply cstr_app|]. rw bind_oread.
  erewrite (bind_zoom #memory _ _ _ base m); [|exact Hm]. cbn [lset]. rw bind_modify. set (st1 := update area _ _).
  assert (length (area st1) = S (length s0)) as Ha by (unfold st1; rsimpl; rewrite length_replicate; lia).
  replace (Z.of_nat (length s0) + 1) with (Z.of_nat (S (length s0))) by lia.
  rewrite (bind_Done _ _ _ _ _ (bmemcopy_copies (s0 ++ 0 :: rest) (S (length s0)) st1 ltac:(rewrite length_app; cbn; lia) Ha)).
  destruct (words s0) as [|w ws] eqn:E; [by apply words_nonempty in E|].
  assert (take (S (length s0)) (s0 ++ 0 :: rest) = text_of (split_word <$> words s0)) as Ht.
  { rewrite (text_of_words _ _ _ E) take_app_ge; [lia|]. by replace (S (length s0) - length s0)%nat with 1%nat by lia. }
  rewrite -E Ht. set (kvs := split_word <$> words s0) in *.
  assert (Forall word_ok kvs) as Hok.
  { apply Forall_fmap. eapply Forall_impl; [exact (words_spaceless _ Hz)|]. intros w'. apply split_word_ok. }
  assert (length (text_of kvs) = S (length s0)) as Hl by (unfold kvs; rewrite (text_of_words _ _ _ E) length_app Nat.add_1_r //).
  set (nulls := (λ b, b <| key := NULL |>) <$> bootargs_values st) in *.
  assert (length kvs ≤ length nulls)%nat as Hn by (unfold nulls, kvs; rewrite !length_fmap Hlen E; exact Hw).
  pose proof (parse_words kvs (S (length s0)) 0%nat (Z.of_nat (length s0)) [] [] nulls (st1 <| area := text_of kvs |>)
    Hok eq_refl) as Hp. rewrite Nat2Z.id. apply Hp; [|done|done|done|lia]. rsimpl. unfold len. lia.
Qed.
(** C28 (equivalence): after bootargs_init on a string of at most 32 words,
    bootargs_get of any key returns the value of the first argument with that
    key in the reference parse (words split at spaces, each split at its first
    equals sign, the empty string where there is none), and NULL when there is
    none. *)
Theorem bootargs_get_parses s0 rest st base m :
  0 ∉ s0 → length (bootargs_values st) = Z.to_nat CONFIG_BOOTARGS_MAX →
  (length (words s0) ≤ Z.to_nat CONFIG_BOOTARGS_MAX)%nat →
  kmalloc (Z.of_nat (length s0) + 1) (memory st) = Done base m →
  ∃ st', bootargs_init (s0 ++ 0 :: rest) st = Done tt st' ∧ memory st' = m ∧
    ∀ k r, 0 ∉ k → ∃ p, bootargs_get (k ++ 0 :: r) st' = Done p st' ∧
      match list_find (λ kv, kv.1 = k) (arguments s0) with
      | Some (_, kv) => p ≠ NULL ∧ cstr (chars (area st') p) = Some kv.2
      | None => p = NULL
      end.
Proof.
  intros Hz Hlen Hw Hm. destruct (bootargs_init_spec s0 rest st base m Hz Hlen Hw Hm) as (nulls & Hn & E).
  eexists. split; [exact E|]. split; [done|]. intros k r Hk. unfold bootargs_get. rw !bind_gets. cbn [area bootargs_values].
  assert (Forall word_ok (split_word <$> words s0)) as Hok.
  { apply Forall_fmap. eapply Forall_impl; [exact (words_spaceless _ Hz)|]. intros w. apply split_word_ok. }
  pose proof (entries_hold [] _ Hok) as He. cbn [app] in He. change (len []) with 0 in He.
  assert ((λ kv, (kv.1, default [] kv.2)) <$> (split_word <$> words s0) = arguments s0) as Ha.
  { unfold arguments. rewrite -list_fmap_compose. apply list_fmap_ext. intros i w _. cbn. by destruct (split_word w). }
  rewrite Ha in He. apply get_loop_finds; done.
Qed.

(** One word too many and the parser writes past the table. *)
Definition example_boot : boot_t :=
  Boot (Kmalloc 0x80040000 0x80100000) 0 [] (replicate 32 (Bootarg NULL NULL)).

Lemma bootargs_init_overruns :
  bootargs_init (concat (replicate 32 (text "a ")) ++ cstring "a") example_boot = Fault.
Proof. by vm_compute. Qed.

Lemma bootargs_get_parses_witness :
  ∃ st', bootargs_init (cstring "initprog=[disk]a=b x initprog=y") example_boot = Done tt st' ∧
    (∃ p, bootargs_get (cstring "initprog") st' = Done p st' ∧ cstr (chars (area st') p) = Some (text "[disk]a=b")) ∧
    bootargs_get (cstring "init") st' = Done NULL st'.
Proof.
  destruct (bootargs_get_parses (text "initprog=[disk]a=b x initprog=y") [] example_boot 0x80040000
    (Kmalloc 0x80040020 0x80100000)) as (st' & E & _ & Hg).
  - by apply (bool_decide_unpack _).
  - done.
  - apply Nat.leb_le. reflexivity.
  - done.
  - exists st'. split; [exact E|]. split.
    + destruct (Hg (text "initprog") []) as (p & Ep & _ & Hp); [by apply (bool_decide_unpack _)|]. exists p. split; [exact Ep|exact Hp].
    + destruct (Hg (text "init") []) as (p & Ep & Hp); [by apply (bool_decide_unpack _)|]. 
      assert (list_find (λ kv, kv.1 = text "init") (arguments (text "initprog=[disk]a=b x initprog=y")) = None) as En by by vm_compute.
      rewrite En in Hp. rewrite -Hp. exact Ep.
Defined.

End BootargsSpec.
