(* ===== verification/Device.v ===== *)
(** * Device drivers (drivers/device.c, drivers.c, metadev.c, the
    initialisation of drivers/tty.c and disk.c, kernel/panic.c)

    The objects the drivers allocate with kmalloc live in a heap by address;
    static objects have link-time addresses, as have the handlers. *)
From stdpp Require Import gmap.
From S2P Require Import Prelude Bytes Cpu Kstate Kmalloc Interrupt Xprintf.
Import Kmalloc Interrupt.

Module Device.

Definition CONFIG_MAX_DEVICES : Z := 128.
Definition YAMS_MAX_DEVICES : Z := 128.
Definition YAMS_TYPECODE_TTY : Z := 0x201.
Definition YAMS_TYPECODE_RTC : Z := 0x102.
Definition YAMS_TYPECODE_DISK : Z := 0x301.
Definition YAMS_TYPECODE_MEMINFO : Z := 0x101.
Definition YAMS_TYPECODE_SHUTDOWN : Z := 0x103.
Definition YAMS_TYPECODE_CPUSTATUS : Z := 0xc00.
Definition YAMS_TYPECODE_CPUMASK : Z := 0xffffff00.
Definition DEFAULT_SHUTDOWN_MAGIC : Z := 0xdeadc0de.
Definition POWEROFF_SHUTDOWN_MAGIC : Z := 0x0badf00d.
Definition CPU_COMMAND_RAISE_IRQ : Z := 0x00.
Definition CPU_COMMAND_CLEAR_IRQ : Z := 0x01.
Definition CPU_STATUS_IRQ (status : Z) : Z := Z.land status 0x00000002.

(** device_t.  A field that was never assigned is [None]. *)
Record device_t := DeviceT {
  real_device : Z; generic_device : Z; descriptor : option io_descriptor; io_address : Z; dev_type : Z }.
(** gcd_t: the device and the addresses of the two functions. *)
Record gcd_t := Gcd { gcd_device : Z; gcd_write : Z; gcd_read : Z }.
(** gbd_t *)
Record gbd_t := GbdT {
  gbd_device : Z; gbd_read_block : Z; gbd_write_block : Z; gbd_block_size : Z; gbd_total_blocks : Z }.

(** The objects of the drivers: for tty_real_device_t its lock, and head and
    count of the two buffers; for disk_real_device_t the lock and the two
    queues; for cpu_real_device_t the lock. *)
Inductive object :=
| ODevice (d : device_t)
| OGcd (g : gcd_t)
| OGbd (g : gbd_t)
| OTty (slock read_head read_count write_head write_count : Z)
| ODisk (slock request_queue request_served : Z)
| OCpu (slock : Z)
| OSpinlock (slock : Z).

(** The memory of the drivers, the table of devices, the flags of the metadevices
    and what was written to ports. *)
Record dev_t := Dev {
  ints : int_t unit; heap : gmap Z object;
  device_table : list Z; number_of_devices : Z;
  tty_inits : Z; rtc_init_done : bool; meminfo_init_done : bool; shutdown_init_done : bool;
  port_writes : list (Z * Z) }.
#[export] Instance eta_dev : Eta dev_t := fun s =>
  Dev (ints s) (heap s) (device_table s) (number_of_devices s) (tty_inits s)
    (rtc_init_done s) (meminfo_init_done s) (shutdown_init_done s) (port_writes s).

Abbreviation V A := (M dev_t A).

(** Addresses fixed by the linker. *)
Record layout := Layout {
  system_rtc : Z; system_meminfo : Z; system_shutdown : Z; kprintf_slock_addr : Z;
  tty_write_addr : Z; tty_read_addr : Z; tty_interrupt_handle_addr : Z;
  disk_read_block_addr : Z; disk_write_block_addr : Z; disk_block_size_addr : Z;
  disk_total_blocks_addr : Z; disk_interrupt_handle_addr : Z; cpustatus_interrupt_handle_addr : Z }.

(** Sizes of the structures. *)
Definition SIZEOF_DEVICE : Z := 20.
Definition SIZEOF_GCD : Z := 12.
Definition SIZEOF_TTY : Z := 4116.
Definition SIZEOF_GBD : Z := 20.
Definition SIZEOF_DISK : Z := 12.
Definition SIZEOF_CPU : Z := 4.
Definition SIZEOF_SPINLOCK : Z := 4.

Section device.
Variable L : layout.
(** The word behind an io address. *)
Variable io_word : Z → Z.

Definition dev_kmalloc (bytes : Z) : V Z := zoom #ints (zoom #kmem (kmalloc bytes)).
Definition put (a : Z) (o : object) : V unit := modify (λ s, s <| heap := <[a := o]> (heap s) |>).
Definition get_device (a : Z) : V device_t :=
  h ← gets heap;
  match h !! a with Some (ODevice d) => mret d | _ => fault end.
Definition port_write (a v : Z) : V unit := modify (λ s, s <| port_writes := port_writes s ++ [(a, v)] |>).
Definition register (irq_mask handler dev : Z) : V unit := zoom #ints (interrupt_register irq_mask handler dev).

(** [1 << (desc->irq + 10)], undefined from 32 on. *)
Definition irq_mask (desc : io_descriptor) : V Z :=
  let n := u32 (io_irq desc + 10) in
  oread (if decide (n < 32) then Some (Z.shiftl 1 n) else None).

(** ** Terminals and disks *)

Definition tty_init (desc : io_descriptor) : V Z :=
  dev ← dev_kmalloc SIZEOF_DEVICE;
  if decide (dev = 0) then panic "Could not reserve memory for tty driver." else
  gcd ← dev_kmalloc SIZEOF_GCD;
  if decide (gcd = 0) then panic "Could not reserve memory for tty driver." else
  put gcd (OGcd (Gcd dev (tty_write_addr L) (tty_read_addr L)));;
  tty_rd ← dev_kmalloc SIZEOF_TTY;
  if decide (tty_rd = 0) then panic "Could not reserve memory for tty driver." else
  put dev (ODevice (DeviceT tty_rd gcd None (io_area_base desc) (io_type desc)));;
  inits ← gets tty_inits;
  slock ← (if decide (inits = 0) then mret (kprintf_slock_addr L) else
             slock ← dev_kmalloc SIZEOF_SPINLOCK;
             if decide (slock = 0) then panic "Could not reserve memory for tty driver spinlock." else
             put slock (OSpinlock 0);;
             mret slock);
  modify (λ s, s <| tty_inits := tty_inits s + 1 |>);;
  put tty_rd (OTty slock 0 0 0 0);;
  irq_mask ← irq_mask desc;
  register irq_mask (tty_interrupt_handle_addr L) dev;;
  mret dev.

Definition disk_init (desc : io_descriptor) : V Z :=
  dev ← dev_kmalloc SIZEOF_DEVICE;
  gbd ← dev_kmalloc SIZEOF_GBD;
  real_dev ← dev_kmalloc SIZEOF_DISK;
  if decide (dev = 0 ∨ gbd = 0 ∨ real_dev = 0) then panic "Could not allocate memory for disk driver." else
  put dev (ODevice (DeviceT real_dev gbd (Some desc) (io_area_base desc) (io_type desc)));;
  put gbd (OGbd (GbdT dev (disk_read_block_addr L) (disk_write_block_addr L)
    (disk_block_size_addr L) (disk_total_blocks_addr L)));;
  put real_dev (ODisk 0 0 0);;
  irq_mask ← irq_mask desc;
  register irq_mask (disk_interrupt_handle_addr L) dev;;
  mret dev.

(** ** Metadevices *)

(** [dev] is 0 when a structure has to be allocated. *)
Definition fill_device_t (desc : io_descriptor) (dev : Z) : V Z :=
  dev ← (if decide (dev = 0) then dev_kmalloc SIZEOF_DEVICE else mret dev);
  if decide (dev = 0) then panic "Run out ouf memory when allocating struct for a metadevice" else
  put dev (ODevice (DeviceT 0 0 (Some desc) (io_area_base desc) (io_type desc)));;
  mret dev.

Definition rtc_init (desc : io_descriptor) : V Z :=
  init_done ← gets rtc_init_done;
  if init_done : bool then panic "Hardware failure: multiple RTC devices" else
  modify (λ s, s <| rtc_init_done := true |>);;
  fill_device_t desc (system_rtc L);;
  mret (system_rtc L).

Definition rtc_get_msec : V Z := d ← get_device (system_rtc L); mret (io_word (io_address d)).
Definition rtc_get_clockspeed : V Z := d ← get_device (system_rtc L); mret (io_word (io_address d + 4)).

Definition meminfo_init (desc : io_descriptor) : V Z :=
  init_done ← gets meminfo_init_done;
  if init_done : bool then panic "Hardware failure: multiple MEMINFO devices" else
  modify (λ s, s <| meminfo_init_done := true |>);;
  fill_device_t desc (system_meminfo L);;
  mret (system_meminfo L).

Definition meminfo_get_pages : V Z := d ← get_device (system_meminfo L); mret (io_word (io_address d)).

Definition cpustatus_init (desc : io_descriptor) : V Z :=
  dev ← fill_device_t desc 0;
  cpu ← dev_kmalloc SIZEOF_CPU;
  if decide (cpu = 0) then panic "Could not reserve memory for CPU status device driver." else
  put cpu (OCpu 0);;
  d ← get_device dev;
  put dev (ODevice (DeviceT cpu (generic_device d) (descriptor d) (io_address d) (dev_type d)));;
  irq_mask ← irq_mask desc;
  register irq_mask (cpustatus_interrupt_handle_addr L) dev;;
  mret dev.

Definition cpustatus_count (descriptors : list io_descriptor) : V Z :=
  mret (Z.of_nat (length (filter (λ d, Z.land (io_type d) 0xFFFFFF00 = YAMS_TYPECODE_CPUSTATUS) (take 128 descriptors)))).

(** The lock of a CPU status device. *)
Definition get_cpu (a : Z) : V Z :=
  h ← gets heap;
  match h !! a with Some (OCpu l) => mret l | _ => fault end.
Definition cpu_acquire (a : Z) : V unit :=
  l ← get_cpu a;
  if decide (l = 0) then put a (OCpu 1) else spin.

Definition cpustatus_generate_irq (dev : Z) : V unit :=
  d ← get_device dev;
  let cpu := real_device d in
  kernel_assert (bool_decide (dev ≠ 0 ∧ cpu ≠ 0));;
  intr_status ← zoom #ints (zoom #kernel (_interrupt_disable #k_status));
  cpu_acquire cpu;;
  port_write (io_address d + 4) CPU_COMMAND_RAISE_IRQ;;
  put cpu (OCpu 0);;
  zoom #ints (zoom #kernel (_interrupt_set_state #k_status intr_status));;
  mret tt.

Definition cpustatus_interrupt_handle (dev : Z) : V unit :=
  d ← get_device dev;
  let cpu := real_device d in
  kernel_assert (bool_decide (dev ≠ 0 ∨ cpu ≠ 0));;
  this_cpu ← zoom #ints (zoom #kernel _interrupt_getcpu);
  if decide (this_cpu ≠ Z.land (dev_type d) 0xFF) then mret tt
  else if decide (CPU_STATUS_IRQ (io_word (io_address d)) = 0) then mret tt else
  cpu_acquire cpu;;
  port_write (io_address d + 4) CPU_COMMAND_CLEAR_IRQ;;
  put cpu (OCpu 0).

Definition shutdown_init (desc : io_descriptor) : V Z :=
  init_done ← gets shutdown_init_done;
  if init_done : bool then panic "Hardware failure: multiple SHUTDOWN devices" else
  modify (λ s, s <| shutdown_init_done := true |>);;
  fill_device_t desc (system_shutdown L);;
  mret (system_shutdown L).

(** Shutting down prints on the console, which is not a part of the devices'
    state: these routines run on any state with the devices in it, with the
    kprintf of that state. *)
Section console.
Context {S : Type} (dev_l : lens S dev_t) (kprintf : string → list Xprintf.arg_t → M S unit).

(** The store to the SHUTDN port stops the machine: nothing after it happens
    unless the machine goes on. *)
Definition shutdown_write (port magic : Z) : M S unit :=
  zoom dev_l (port_write port magic);;
  yield.

Definition shutdown (descriptors : list io_descriptor) (magic : Z) : M S unit :=
  init_done ← zoom dev_l (gets shutdown_init_done);
  (if init_done : bool then d ← zoom dev_l (get_device (system_shutdown L)); shutdown_write (io_address d) magic
   else mret tt);;
  for_loop (Z.to_nat YAMS_MAX_DEVICES) 0 (λ i,
    d ← oread (arr_get descriptors i);
    if decide (io_type d = YAMS_TYPECODE_SHUTDOWN) then shutdown_write (io_area_base d) magic else mret tt);;
  kprintf (line "Shutdown failed. Hardware failure!") [].

(** kernel/panic.c *)
Definition _kernel_panic (descriptors : list io_descriptor) (file : list Z) (line_number : Z) (description : list Z) : M S unit :=
  zoom dev_l (zoom #ints (zoom #kernel (_interrupt_disable #k_status)));;
  cpu ← zoom dev_l (zoom #ints (zoom #kernel _interrupt_getcpu));
  kprintf (line "Kernel panic (cpu: %d): %s:%d --- %s")
    [Xprintf.Arg (u32 cpu) []; Xprintf.Arg 0 file; Xprintf.Arg (u32 line_number) []; Xprintf.Arg 0 description];;
  shutdown descriptors DEFAULT_SHUTDOWN_MAGIC.
End console.

(** ** The table of devices *)

(** drivers_available, without its last entry. *)
Definition drivers_available : list (Z * (io_descriptor → V Z)) :=
  [(YAMS_TYPECODE_TTY, tty_init); (YAMS_TYPECODE_RTC, rtc_init); (YAMS_TYPECODE_MEMINFO, meminfo_init);
   (YAMS_TYPECODE_SHUTDOWN, shutdown_init); (YAMS_TYPECODE_CPUSTATUS, cpustatus_init); (YAMS_TYPECODE_DISK, disk_init)].

Definition find_driver (typecode : Z) : option (io_descriptor → V Z) :=
  let typecode :=
    if decide (Z.land typecode YAMS_TYPECODE_CPUMASK = YAMS_TYPECODE_CPUSTATUS) then YAMS_TYPECODE_CPUSTATUS else typecode in
  (λ r, r.2.2) <$> list_find (λ d, d.1 = typecode) drivers_available.

(** The loop over the descriptors, [n] of which are left. *)
Fixpoint device_loop (n : nat) (i : Z) (descriptors : list io_descriptor) : V unit :=
  match n with
  | O => mret tt
  | S n' =>
    desc ← oread (arr_get descriptors i);
    if decide (io_type desc ≠ 0) then
      match find_driver (io_type desc) with
      | None => device_loop n' (i + 1) descriptors
      | Some initfunc =>
        dev ← initfunc desc;
        number ← gets number_of_devices;
        table ← gets device_table;
        table ← oread (arr_set table number dev);
        modify (λ s, s <| device_table := table |>);;
        if decide (dev ≠ 0) then
          modify (λ s, s <| number_of_devices := number_of_devices s + 1 |>);;
          number ← gets number_of_devices;
          if decide (CONFIG_MAX_DEVICES ≤ number) then mret tt else device_loop n' (i + 1) descriptors
        else device_loop n' (i + 1) descriptors
      end
    else device_loop n' (i + 1) descriptors
  end.

Definition device_init (descriptors : list io_descriptor) : V unit :=
  device_loop (Z.to_nat YAMS_MAX_DEVICES) 0 descriptors.

(** [k] entries of the table are left, [n] devices of the type are to be
    skipped; 0 is NULL. *)
Fixpoint get_loop (k : nat) (i typecode n : Z) : V Z :=
  match k with
  | O => mret 0
  | S k' =>
    table ← gets device_table;
    a ← oread (arr_get table i);
    d ← get_device a;
    if decide (dev_type d = typecode) then
      if decide (n = 0) then mret a else get_loop k' (i + 1) typecode (u32 (n - 1))
    else get_loop k' (i + 1) typecode n
  end.

Definition device_get (typecode n : Z) : V Z :=
  number ← gets number_of_devices;
  get_loop (Z.to_nat number) 0 typecode n.
End device.
End Device.
