(* ===== verification/DeviceSpec.v ===== *)
(** * Properties of the device table

    device_init gives every device with a driver an entry, in the order of the
    descriptors, and registers its interrupt; device_get finds the n-th device of
    a type. *)
From stdpp Require Import gmap.
From S2P Require Import Prelude Bytes Cpu Kstate Kmalloc Sleepq Interrupt InterruptSpec Device.
Import Kmalloc Sleepq Interrupt InterruptSpec Device.

Module DeviceSpec.

Section spec.
Variable L : layout.

(** ** Descriptors *)

Definition is_cpu (t : Z) : Prop := Z.land t YAMS_TYPECODE_CPUMASK = YAMS_TYPECODE_CPUSTATUS.
Definition kind (t : Z) : Z := if decide (is_cpu t) then YAMS_TYPECODE_CPUSTATUS else t.
Definition driven (d : io_descriptor) : Prop :=
  kind (io_type d) ∈ [YAMS_TYPECODE_TTY; YAMS_TYPECODE_RTC; YAMS_TYPECODE_MEMINFO; YAMS_TYPECODE_SHUTDOWN;
    YAMS_TYPECODE_CPUSTATUS; YAMS_TYPECODE_DISK].
#[export] Instance driven_dec d : Decision (driven d).
Proof. unfold driven. apply _. Defined.

(** The handler of a type of device; metadevices have none. *)
Definition handler_of (t : Z) : option Z :=
  if decide (kind t = YAMS_TYPECODE_TTY) then Some (tty_interrupt_handle_addr L)
  else if decide (kind t = YAMS_TYPECODE_DISK) then Some (disk_interrupt_handle_addr L)
  else if decide (kind t = YAMS_TYPECODE_CPUSTATUS) then Some (cpustatus_interrupt_handle_addr L)
  else None.
Definition entry_of (a : Z) (d : io_descriptor) : list interrupt_entry_t :=
  match handler_of (io_type d) with
  | Some h => [IntEntry a (Z.shiftl 1 (io_irq d + 10)) h]
  | None => []
  end.
(** A device that interrupts does so on one of the six hardware lines. *)
Definition irq_ok (d : io_descriptor) : Prop := is_Some (handler_of (io_type d)) → 0 ≤ io_irq d ≤ 5.

(** ** The state *)

Definition free_from (s : dev_t) : Z := free_area_start (kmem (ints s)).
Definition mem_end (s : dev_t) : Z := memory_end (kmem (ints s)).

(** What every driver needs at most. *)
Definition DRIVER_BYTES : Z := 4200.

(** The static structures lie below the free memory and are distinct; each is
    unused until its flag is set. *)
Definition statics (s : dev_t) : list (bool * Z) :=
  [(rtc_init_done s, system_rtc L); (meminfo_init_done s, system_meminfo L); (shutdown_init_done s, system_shutdown L)].

Record mem_ok (s : dev_t) : Prop := {
  mo_kmalloc : kmalloc_ok (kmem (ints s));
  mo_fresh a : free_from s ≤ a → heap s !! a = None;
  mo_unused f a : (f, a) ∈ statics s → f = false → heap s !! a = None;
  mo_static f a : (f, a) ∈ statics s → 0 < a < free_from s;
  mo_distinct : NoDup (statics s).*2 }.

Definition device_at (h : gmap Z object) (a : Z) (d : io_descriptor) : Prop :=
  a ≠ 0 ∧ ∃ dv, h !! a = Some (ODevice dv) ∧ dev_type dv = io_type d ∧ io_address dv = io_area_base d.

(** A driver has been initialised: its device [a] is new, the objects there were
    stay. *)
Record installed (d : io_descriptor) (a : Z) (hs : list interrupt_entry_t) (s s' : dev_t) : Prop := {
  in_mem : mem_ok s';
  in_free : free_from s ≤ free_from s' ≤ free_from s + DRIVER_BYTES;
  in_end : mem_end s' = mem_end s;
  in_new : heap s !! a = None;
  in_device : device_at (heap s') a d;
  in_heap b o : heap s !! b = Some o → heap s' !! b = Some o;
  in_handlers : InterruptSpec.table_ok (interrupt_handlers (ints s')) (hs ++ entry_of a d);
  in_table : device_table s' = device_table s ∧ number_of_devices s' = number_of_devices s;
  in_flags : rtc_init_done s' = (rtc_init_done s || bool_decide (io_type d = YAMS_TYPECODE_RTC)) ∧
    meminfo_init_done s' = (meminfo_init_done s || bool_decide (io_type d = YAMS_TYPECODE_MEMINFO)) ∧
    shutdown_init_done s' = (shutdown_init_done s || bool_decide (io_type d = YAMS_TYPECODE_SHUTDOWN)) }.

(** ** Steps of the drivers *)

Lemma kmalloc_run n s :
  kmalloc_ok (kmem (ints s)) → 0 ≤ n → free_from s + n ≤ mem_end s →
  ∃ k, dev_kmalloc n s = Done (free_from s) (s <| ints := (ints s) <| kmem := k |> |>) ∧ kmalloc_ok k ∧
    free_from s + n ≤ free_area_start k < free_from s + n + 4 ∧ memory_end k = mem_end s.
Proof.
  intros Hk Hn Hf. destruct (kmalloc_Done n (kmem (ints s)) Hk Hn Hf) as (k & E & Hk' & Hr & He). exists k.
  split; [|done]. unfold dev_kmalloc, zoom. cbn [lget]. by rewrite E.
Qed.

Lemma mask_ok i : 0 ≤ i ≤ 5 → Z.land (Z.shiftl 1 (i + 10)) (u32 (Z.lnot INTERRUPT_MASK_ALL)) = 0.
Proof.
  intros Hi. assert (i ∈ seqZ 0 6) as Hin by (apply elem_of_seqZ; lia). clear Hi. revert i Hin.
  apply Forall_forall. by apply (bool_decide_unpack _).
Qed.

Lemma irq_mask_run d s : 0 ≤ io_irq d ≤ 5 → irq_mask d s = Done (Z.shiftl 1 (io_irq d + 10)) s.
Proof. intros Hi. unfold irq_mask. rewrite u32_small; [lia|]. by rw decide_True; [lia|]. Qed.

Lemma register_run mask h a hs s :
  InterruptSpec.table_ok (interrupt_handlers (ints s)) hs → Z.of_nat (length hs) < CONFIG_MAX_DEVICES → a ≠ 0 →
  Z.land mask (u32 (Z.lnot INTERRUPT_MASK_ALL)) = 0 →
  ∃ t, register mask h a s = Done tt (s <| ints := (ints s) <| interrupt_handlers := t |> |>) ∧
    InterruptSpec.table_ok t (hs ++ [IntEntry a mask h]).
Proof.
  intros Ht Hl Ha Hm. pose proof (interrupt_register_adds mask h a (ints s) hs Ht Hl Ha) as Hr.
  rewrite decide_True // in Hr. destruct Hr as (t & E & Ht' & _). exists t. split; [|done].
  unfold register, zoom. cbn [lget]. by rewrite E.
Qed.

(** The tests for a failed allocation never fire. *)
Lemma nonnull {S A} a (m m' : M S A) : 0x80000000 ≤ a → (if decide (a = 0) then m else m') = m'.
Proof. intros Ha. by rw decide_False; [lia|]. Qed.

Lemma kind_cpu d : kind (io_type d) = YAMS_TYPECODE_CPUSTATUS → io_type d ≠ YAMS_TYPECODE_RTC ∧
  io_type d ≠ YAMS_TYPECODE_MEMINFO ∧ io_type d ≠ YAMS_TYPECODE_SHUTDOWN.
Proof. intros Hk. split_and!; intros E; by rewrite E in Hk. Qed.

(** From [s0] a driver has allocated at most [u] bytes and written new objects only. *)
Record working (s0 : dev_t) (u : Z) (s : dev_t) : Prop := {
  wk_kmalloc : kmalloc_ok (kmem (ints s));
  wk_free : free_from s0 ≤ free_from s ≤ free_from s0 + u;
  wk_end : mem_end s = mem_end s0;
  wk_old b : b < free_from s0 → heap s !! b = heap s0 !! b;
  wk_fresh b : free_from s ≤ b → heap s !! b = None;
  wk_handlers : interrupt_handlers (ints s) = interrupt_handlers (ints s0);
  wk_table : device_table s = device_table s0 ∧ number_of_devices s = number_of_devices s0;
  wk_flags : rtc_init_done s = rtc_init_done s0 ∧ meminfo_init_done s = meminfo_init_done s0 ∧
    shutdown_init_done s = shutdown_init_done s0 }.

Lemma working_start s : mem_ok s → working s 0 s.
Proof. intros [Hk Hf _ _ _]. constructor; try done. lia. Qed.

Lemma wp_alloc s0 u n s Q :
  working s0 u s → 0 < n → free_from s0 + u + n + 4 ≤ mem_end s0 →
  (∀ a s', working s0 (u + n + 4) s' → free_from s0 ≤ a → free_from s ≤ a < free_from s' → 0x80000000 ≤ a →
    heap s' = heap s → tty_inits s' = tty_inits s → Q a s') →
  wp (dev_kmalloc n) Q s.
Proof.
  intros [Hk Hf He Ho Hfr Hh Ht Hfl] Hn Hfit HQ. destruct (kmalloc_run n s Hk) as (k & E & Hk' & Hr & He'); [lia|lia|].
  unfold wp. rewrite E. pose proof (proj1 (proj1 Hk)) as Hlow.
  apply HQ; unfold free_from, mem_end in *; rsimpl; [|lia|lia|done..]. constructor; unfold free_from, mem_end in *; rsimpl; try done; try lia.
  intros b Hb. apply Hfr. lia.
Qed.

Lemma wp_put s0 u a o s Q :
  working s0 u s → free_from s0 ≤ a < free_from s →
  (∀ s', working s0 u s' → free_from s' = free_from s → heap s' = <[a := o]> (heap s) → tty_inits s' = tty_inits s → Q tt s') →
  wp (put a o) Q s.
Proof.
  intros [Hk Hf He Ho Hfr Hh Ht Hfl] Ha HQ. unfold wp, put, modify. apply HQ; rsimpl; try done.
  constructor; unfold free_from, mem_end in *; rsimpl; try done.
  - intros b Hb. rewrite lookup_insert_ne; [lia|]. by apply Ho.
  - intros b Hb. rewrite lookup_insert_ne; [lia|]. by apply Hfr.
Qed.

Lemma wp_null {A} a (m m' : M dev_t A) Q s : 0x80000000 ≤ a → wp m' Q s → wp (if decide (a = 0) then m else m') Q s.
Proof. intros Ha H. by rw nonnull. Qed.

(** The end of a driver with an interrupt. *)
Lemma wp_register s0 u d h a hs s :
  mem_ok s0 → working s0 u s → 0 ≤ u ≤ DRIVER_BYTES → InterruptSpec.table_ok (interrupt_handlers (ints s0)) hs →
  Z.of_nat (length hs) < CONFIG_MAX_DEVICES → 0 ≤ io_irq d ≤ 5 → handler_of (io_type d) = Some h →
  free_from s0 ≤ a → 0x80000000 ≤ a → (∃ dv, heap s !! a = Some (ODevice dv) ∧ dev_type dv = io_type d ∧ io_address dv = io_area_base d) →
  io_type d ≠ YAMS_TYPECODE_RTC ∧ io_type d ≠ YAMS_TYPECODE_MEMINFO ∧ io_type d ≠ YAMS_TYPECODE_SHUTDOWN →
  wp (irq_mask ← irq_mask d; register irq_mask h a;; mret a) (λ r s', r = a ∧ installed d a hs s0 s') s.
Proof.
  intros Hm [Hk Hf He Ho Hfr Hh Ht Hfl] Hu Htab Hl Hi Hho Ha Hlow Hdv (Hn1 & Hn2 & Hn3).
  unfold wp. rewrite (bind_Done _ _ _ _ _ (irq_mask_run d s Hi)).
  destruct (register_run (Z.shiftl 1 (io_irq d + 10)) h a hs s) as (t & E & Ht'); [by rewrite Hh|done|lia|by apply mask_ok|].
  rewrite (bind_Done _ _ _ _ _ E). split; [done|]. destruct Hm as [Hm1 Hm2 Hm3 Hm4 Hm5].
  constructor; unfold free_from, mem_end in *; rsimpl; try done; try lia.
  - constructor; unfold free_from in *; rsimpl; try done.
    + intros f b Hin Hfalse. assert ((f, b) ∈ statics s0) as Hin' by (revert Hin; unfold statics; rsimpl; by destruct Hfl as (-> & -> & ->)).
      rewrite Ho; [by apply (Hm4 f b)|]. by apply (Hm3 f b).
    + intros f b Hin. assert ((f, b) ∈ statics s0) as Hin' by (revert Hin; unfold statics; rsimpl; by destruct Hfl as (-> & -> & ->)).
      specialize (Hm4 f b Hin'). lia.
  - by apply Hm2.
  - split; [lia|done].
  - intros b o Hb. rewrite Ho //. destruct (decide (free_from s0 ≤ b)) as [Hge|]; [|unfold free_from in *; lia].
    by rewrite Hm2 in Hb.
  - unfold entry_of. by rewrite Hho.
  - destruct Hfl as (-> & -> & ->). rewrite !bool_decide_false // !orb_false_r //.
Qed.

Lemma wp_gets {A B} (f : A → B) (Q : B → A → Prop) s : Q (f s) s → wp (gets f) Q s.
Proof. done. Qed.

Lemma working_weaken s0 u u' s : working s0 u s → u ≤ u' → working s0 u' s.
Proof. intros [] Hu. constructor; try done. lia. Qed.

Lemma wp_modify_inits s0 u s Q :
  working s0 u s → (∀ s', working s0 u s' → free_from s' = free_from s → heap s' = heap s → Q tt s') →
  wp (modify (λ s, s <| tty_inits := tty_inits s + 1 |>)) Q s.
Proof. intros [] HQ. by apply HQ. Qed.

(** Replace heaps by what is known of them. *)
Ltac heaps := repeat match goal with H : heap ?x = _ |- context [heap ?x] => rewrite H end.
(** Run the next step of a driver. *)
Ltac drive :=
  first
    [ apply wp_bind; eapply wp_alloc; [eassumption|done|unfold DRIVER_BYTES in *; lia|]; intros ? ? ? ? ? ? ? ?
    | apply wp_null; [lia|]
    | apply wp_bind; eapply wp_put; [eassumption|lia|]; intros ? ? ? ? ? ].

Lemma tty_init_installs d s hs :
  mem_ok s → irq_ok d → io_type d = YAMS_TYPECODE_TTY → free_from s + DRIVER_BYTES ≤ mem_end s →
  InterruptSpec.table_ok (interrupt_handlers (ints s)) hs → Z.of_nat (length hs) < CONFIG_MAX_DEVICES →
  ∃ a s', tty_init L d s = Done a s' ∧ installed d a hs s s'.
Proof.
  intros Hm Hirq Ht Hf Htab Hl. pose proof (working_start s Hm) as Hw.
  assert (handler_of (io_type d) = Some (tty_interrupt_handle_addr L)) as Hh by (by rewrite Ht).
  assert (0 ≤ io_irq d ≤ 5) as Hi by (apply Hirq; rewrite Hh; by eexists).
  assert (wp (tty_init L d) (λ a s', installed d a hs s s') s) as Hwp; [|by apply wp_Done in Hwp as (a & s' & ? & ?); eauto].
  unfold tty_init, SIZEOF_DEVICE, SIZEOF_GCD, SIZEOF_TTY, SIZEOF_SPINLOCK.
  repeat drive. apply wp_bind, wp_gets.
  match goal with |- wp _ _ ?s5 => set (s4 := s5) in * end.
  apply wp_bind. eapply (wp_mono _ (λ slock s', working s 4172 s' ∧ free_from s4 ≤ free_from s' ∧
    ∀ b, b < free_from s4 → heap s' !! b = heap s4 !! b)).
  { destruct (decide _); [apply wp_ret; split_and!; [by eapply working_weaken; [eassumption|lia]|lia|done]|].
    do 3 drive. apply wp_ret. split_and!; [by eapply working_weaken; [eassumption|lia]|lia|].
    intros b Hb. heaps. by rewrite lookup_insert_ne; [lia|]. }
  intros slock s5 (Hw5 & Hf5 & Hh5). apply wp_bind. apply (wp_modify_inits s 4172); [done|]. intros s6 Hw6 Hf6 Hh6. drive.
  eapply wp_mono; [eapply wp_register; try eassumption; try done; try (unfold DRIVER_BYTES; lia)|by intros r ? [-> Hr]].
  - heaps. rewrite lookup_insert_ne; [lia|]. heaps. rewrite Hh5; [lia|]. heaps. rewrite lookup_insert_eq. by eexists.
  - by rewrite Ht.
Qed.
Lemma disk_init_installs d s hs :
  mem_ok s → irq_ok d → io_type d = YAMS_TYPECODE_DISK → free_from s + DRIVER_BYTES ≤ mem_end s →
  InterruptSpec.table_ok (interrupt_handlers (ints s)) hs → Z.of_nat (length hs) < CONFIG_MAX_DEVICES →
  ∃ a s', disk_init L d s = Done a s' ∧ installed d a hs s s'.
Proof.
  intros Hm Hirq Ht Hf Htab Hl. pose proof (working_start s Hm) as Hw.
  assert (handler_of (io_type d) = Some (disk_interrupt_handle_addr L)) as Hh by (by rewrite Ht).
  assert (0 ≤ io_irq d ≤ 5) as Hi by (apply Hirq; rewrite Hh; by eexists).
  assert (wp (disk_init L d) (λ a s', installed d a hs s s') s) as Hwp; [|by apply wp_Done in Hwp as (a & s' & ? & ?); eauto].
  unfold disk_init, SIZEOF_DEVICE, SIZEOF_GBD, SIZEOF_DISK.
  do 3 drive. rw decide_False; [lia|]. do 3 drive.
  eapply wp_mono; [eapply wp_register; try eassumption; try done; try (unfold DRIVER_BYTES; lia)|by intros r ? [-> Hr]].
  - heaps. rewrite lookup_insert_ne; [lia|]. heaps. rewrite lookup_insert_ne; [lia|]. heaps. rewrite lookup_insert_eq. by eexists.
  - by rewrite Ht.
Qed.

Lemma cpustatus_init_installs d s hs :
  mem_ok s → irq_ok d → is_cpu (io_type d) → free_from s + DRIVER_BYTES ≤ mem_end s →
  InterruptSpec.table_ok (interrupt_handlers (ints s)) hs → Z.of_nat (length hs) < CONFIG_MAX_DEVICES →
  ∃ a s', cpustatus_init L d s = Done a s' ∧ installed d a hs s s'.
Proof.
  intros Hm Hirq Ht Hf Htab Hl. pose proof (working_start s Hm) as Hw.
  assert (kind (io_type d) = YAMS_TYPECODE_CPUSTATUS) as Hkind by (unfold kind; by rw decide_True).
  assert (handler_of (io_type d) = Some (cpustatus_interrupt_handle_addr L)) as Hh by (unfold handler_of; by rewrite Hkind).
  assert (0 ≤ io_irq d ≤ 5) as Hi by (apply Hirq; rewrite Hh; by eexists).
  assert (wp (cpustatus_init L d) (λ a s', installed d a hs s s') s) as Hwp; [|by apply wp_Done in Hwp as (a & s' & ? & ?); eauto].
  unfold cpustatus_init, fill_device_t, SIZEOF_DEVICE, SIZEOF_CPU. apply wp_bind. destruct (decide (0 = 0)) as [_|]; [|done].
  do 3 drive. apply wp_ret. do 3 drive. apply wp_bind.
  match goal with |- wp _ _ ?s5 => set (s4 := s5) in * end.
  assert (get_device a s4 = Done (DeviceT 0 0 (Some d) (io_area_base d) (io_type d)) s4) as Hg.
  { unfold get_device. rw bind_gets. heaps. rewrite lookup_insert_ne; [lia|]. heaps. by rewrite lookup_insert_eq. }
  unfold wp at 1. rewrite Hg. drive.
  eapply wp_mono; [eapply wp_register; try eassumption; try done; try (unfold DRIVER_BYTES; lia)|by intros r ? [-> Hr]].
  - heaps. rewrite lookup_insert_eq. by eexists.
  - by apply kind_cpu.
Qed.

(** A metadevice takes its static structure. *)
Lemma static_installs d a hs s s' :
  mem_ok s → InterruptSpec.table_ok (interrupt_handlers (ints s)) hs → handler_of (io_type d) = None →
  (false, a) ∈ statics s → ints s' = ints s →
  heap s' = <[a := ODevice (DeviceT 0 0 (Some d) (io_area_base d) (io_type d))]> (heap s) →
  device_table s' = device_table s ∧ number_of_devices s' = number_of_devices s →
  (∀ f b, (f, b) ∈ statics s' → f = true ∧ b = a ∨ (f, b) ∈ statics s ∧ b ≠ a) → (statics s').*2 = (statics s).*2 →
  rtc_init_done s' = (rtc_init_done s || bool_decide (io_type d = YAMS_TYPECODE_RTC)) ∧
    meminfo_init_done s' = (meminfo_init_done s || bool_decide (io_type d = YAMS_TYPECODE_MEMINFO)) ∧
    shutdown_init_done s' = (shutdown_init_done s || bool_decide (io_type d = YAMS_TYPECODE_SHUTDOWN)) →
  installed d a hs s s'.
Proof.
  intros [Hk Hf Hu Hst Hnd] Htab Hh Ha Hi Hheap Ht Hs Hs2 Hfl. pose proof (Hst _ _ Ha) as Ha'. pose proof (Hu _ _ Ha eq_refl) as Hnone.
  assert (free_from s' = free_from s) as Hfree by (unfold free_from; by rewrite Hi).
  constructor; rewrite ?Hfree //.
  - constructor; rewrite ?Hfree ?Hi ?Hs2 //.
    + intros b Hb. rewrite Hheap lookup_insert_ne; [lia|]. by apply Hf.
    + intros f b Hin ->. destruct (Hs _ _ Hin) as [[? _]|[Hin' Hne]]; [done|]. rewrite Hheap lookup_insert_ne; [congruence|]. by apply (Hu false b).
    + intros f b Hin. destruct (Hs _ _ Hin) as [[_ ->]|[Hin' _]]; [done|]. by apply (Hst f b).
  - unfold DRIVER_BYTES. lia.
  - unfold mem_end. by rewrite Hi.
  - split; [lia|]. eexists. by rewrite Hheap lookup_insert_eq.
  - intros b o Hb. rewrite Hheap lookup_insert_ne; [congruence|done].
  - unfold entry_of. by rewrite Hh Hi app_nil_r.
Qed.

Lemma meta_init_installs d s hs (init : io_descriptor → V Z) :
  mem_ok s → InterruptSpec.table_ok (interrupt_handlers (ints s)) hs →
  io_type d = YAMS_TYPECODE_RTC ∧ init = rtc_init L ∧ rtc_init_done s = false ∨
  io_type d = YAMS_TYPECODE_MEMINFO ∧ init = meminfo_init L ∧ meminfo_init_done s = false ∨
  io_type d = YAMS_TYPECODE_SHUTDOWN ∧ init = shutdown_init L ∧ shutdown_init_done s = false →
  ∃ a s', init d s = Done a s' ∧ installed d a hs s s'.
Proof.
  intros Hm Htab Hd.
  assert (∀ a, (false, a) ∈ statics s → a ≠ 0) as Hnz by (intros a Ha; pose proof (mo_static _ Hm _ _ Ha); lia).
  pose proof (mo_distinct _ Hm) as Hnd. unfold statics in Hnd. cbn in Hnd.
  apply NoDup_cons in Hnd as [Hn1 Hnd]. apply NoDup_cons in Hnd as [Hn2 _].
  rewrite !not_elem_of_cons in Hn1, Hn2. destruct Hn1 as (Hn12 & Hn13 & _), Hn2 as (Hn23 & _).
  assert (∀ dev st, dev ≠ 0 → fill_device_t d dev st =
    Done dev (st <| heap := <[dev := ODevice (DeviceT 0 0 (Some d) (io_area_base d) (io_type d))]> (heap st) |>)) as Hfill.
  { intros dev st Hdev. unfold fill_device_t. rewrite decide_False // bind_ret. by rewrite decide_False. }
  destruct Hd as [(Ht & -> & Hfl)|[(Ht & -> & Hfl)|(Ht & -> & Hfl)]];
    [set (a := system_rtc L)|set (a := system_meminfo L)|set (a := system_shutdown L)];
    (assert ((false, a) ∈ statics s) as Ha by (unfold statics; rewrite Hfl; set_solver)); eexists a, _;
    (split; [unfold rtc_init, meminfo_init, shutdown_init; rw bind_gets; rewrite Hfl; rw bind_modify;
      rewrite (bind_Done _ _ _ _ _ (Hfill _ _ (Hnz _ Ha))); reflexivity|]);
    eapply static_installs; try eassumption; try done; rsimpl; rewrite ?Ht //.
  all: first [ intros f b Hin; unfold statics in *; cbn in Hin |- *; subst a; rewrite !elem_of_cons in Hin |- *; rewrite ?Hfl;
      clear Hfill Hm Htab; destruct Hin as [[= -> ->]|[[= -> ->]|[[= -> ->]|Hin%not_elem_of_nil]]]; naive_solver
    | repeat match goal with |- context [bool_decide ?P] => let b := eval vm_compute in (bool_decide P) in change (bool_decide P) with b end;
      by rewrite ?Hfl ?orb_false_r ].
Qed.
(** ** device_init *)

(** RTC, MEMINFO and SHUTDOWN occur at most once. *)
Definition once (t : Z) (init_done : bool) (ds : list io_descriptor) : Prop :=
  (length (filter (λ d, io_type d = t) ds) + (if init_done then 1 else 0) ≤ 1)%nat.
Definition singles (s : dev_t) (ds : list io_descriptor) : Prop :=
  once YAMS_TYPECODE_RTC (rtc_init_done s) ds ∧ once YAMS_TYPECODE_MEMINFO (meminfo_init_done s) ds ∧
  once YAMS_TYPECODE_SHUTDOWN (shutdown_init_done s) ds.

Lemma once_step t fl d ds :
  once t fl (d :: ds) → (io_type d = t → fl = false) ∧ once t (fl || bool_decide (io_type d = t)) ds.
Proof.
  unfold once. rewrite filter_cons. destruct (decide (io_type d = t)) as [Ht|Hne]; [rewrite bool_decide_true //|rewrite bool_decide_false //];
    rewrite ?orb_true_r ?orb_false_r; destruct fl; cbn [length]; split; try done; try lia.
Qed.

Lemma driven_type d : driven d → io_type d ≠ 0.
Proof. intros Hd E. unfold driven in Hd. rewrite E in Hd. by apply (bool_decide_unpack _) in Hd || by vm_compute in Hd; set_solver. Qed.

Lemma find_driver_none d : ¬ driven d → find_driver L (io_type d) = None.
Proof.
  unfold driven, find_driver, kind, is_cpu. intros Hd. set (t := if decide _ then _ else _) in *.
  rewrite !not_elem_of_cons in Hd. destruct Hd as (H1 & H2 & H3 & H4 & H5 & H6 & _).
  unfold drivers_available. cbn. by rewrite !decide_False; try congruence.
Qed.

Lemma driver_installs d s hs ds :
  driven d → mem_ok s → irq_ok d → free_from s + DRIVER_BYTES ≤ mem_end s →
  InterruptSpec.table_ok (interrupt_handlers (ints s)) hs → Z.of_nat (length hs) < CONFIG_MAX_DEVICES →
  singles s (d :: ds) →
  ∃ init a s', find_driver L (io_type d) = Some init ∧ init d s = Done a s' ∧ installed d a hs s s' ∧ singles s' ds.
Proof.
  intros Hd Hm Hi Hf Ht Hl (Hs1 & Hs2 & Hs3).
  apply once_step in Hs1 as [Hf1 Hs1], Hs2 as [Hf2 Hs2], Hs3 as [Hf3 Hs3].
  assert (∃ init, find_driver L (io_type d) = Some init ∧ ∃ a s', init d s = Done a s' ∧ installed d a hs s s') as
    (init & Hfd & a & s' & E & Hin).
  { unfold driven, kind in Hd. unfold find_driver, drivers_available. fold (is_cpu (io_type d)) in *.
    destruct (decide (is_cpu (io_type d))) as [Hc|Hc].
    - exists (cpustatus_init L). split; [done|]. by apply cpustatus_init_installs.
    - assert (io_type d ≠ YAMS_TYPECODE_CPUSTATUS) as Hne by (intros E; apply Hc; by rewrite E).
      rewrite !elem_of_cons in Hd. destruct Hd as [E|[E|[E|[E|[E|[E|Hnil]]]]]]; [..|by apply not_elem_of_nil in Hnil];
        try done; rewrite ?E in Hf1, Hf2, Hf3 |- *; (eexists; split; [reflexivity|]).
      + by apply tty_init_installs.
      + apply meta_init_installs; [done..|]. left. auto.
      + apply meta_init_installs; [done..|]. right. left. auto.
      + apply meta_init_installs; [done..|]. right. right. auto.
      + by apply disk_init_installs. }
  exists init, a, s'. split_and!; [done..|]. destruct (in_flags _ _ _ _ _ Hin) as (E1 & E2 & E3).
  unfold singles. rewrite E1 E2 E3. done.
Qed.

Lemma nodup_add (addrs : list Z) a : NoDup addrs → a ∉ addrs → NoDup (addrs ++ [a]).
Proof. intros Hn Ha. apply NoDup_app. split_and!; [done|set_solver|apply NoDup_singleton]. Qed.

Lemma device_at_stays s s' addrs known :
  (∀ b o, heap s !! b = Some o → heap s' !! b = Some o) →
  Forall2 (device_at (heap s)) addrs known → Forall2 (device_at (heap s')) addrs known.
Proof.
  intros Hh H. eapply Forall2_impl; [exact H|]. intros a d (Hz & dv & Hdv & Hd). split; [done|]. exists dv. split; [by apply Hh|done].
Qed.

Lemma entry_of_length a d : (length (entry_of a d) ≤ 1)%nat.
Proof. unfold entry_of. destruct (handler_of _); cbn; lia. Qed.

(** The table holds the devices [addrs]. *)
Record table_of (s : dev_t) (addrs : list Z) : Prop := {
  to_length : Z.of_nat (length (device_table s)) = Device.CONFIG_MAX_DEVICES;
  to_number : number_of_devices s = Z.of_nat (length addrs);
  to_addrs : take (length addrs) (device_table s) = addrs }.

Lemma table_add s addrs a t :
  table_of s addrs → Z.of_nat (length addrs) < Device.CONFIG_MAX_DEVICES →
  arr_set (device_table s) (number_of_devices s) a = Some t →
  table_of (s <| device_table := t |> <| number_of_devices := number_of_devices s + 1 |>) (addrs ++ [a]).
Proof.
  intros [Hl Hn Ha] Hlt (Hr & ->)%arr_set_inv. rewrite Hn Nat2Z.id in Hr |- *. constructor; rsimpl.
  - by rewrite length_insert.
  - rewrite length_app. cbn. lia.
  - rewrite length_app Nat.add_1_r. erewrite take_S_r; [|apply list_lookup_insert_eq; lia].
    rewrite take_insert_ge; [lia|]. by rewrite Ha.
Qed.

Lemma device_loop_run n i ds s addrs known hs :
  Z.of_nat n + i = Z.of_nat (length ds) → 0 ≤ i → Z.of_nat (length ds) ≤ Device.CONFIG_MAX_DEVICES →
  Z.of_nat (length addrs) ≤ i → Z.of_nat (length hs) ≤ i →
  mem_ok s → Forall irq_ok (drop (Z.to_nat i) ds) → singles s (drop (Z.to_nat i) ds) →
  free_from s + DRIVER_BYTES * Z.of_nat n ≤ mem_end s →
  InterruptSpec.table_ok (interrupt_handlers (ints s)) hs → table_of s addrs →
  Forall2 (device_at (heap s)) addrs known → NoDup addrs →
  ∃ s' new, device_loop L n i ds s = Done tt s' ∧ table_of s' (addrs ++ new) ∧ NoDup (addrs ++ new) ∧
    Forall2 (device_at (heap s')) (addrs ++ new) (known ++ filter driven (drop (Z.to_nat i) ds)) ∧
    InterruptSpec.table_ok (interrupt_handlers (ints s'))
      (hs ++ concat (zip_with entry_of new (filter driven (drop (Z.to_nat i) ds)))).
Proof.
  revert i s addrs known hs. induction n as [|n IH]; intros i s addrs known hs Hn Hi Hmax Hla Hlh Hm Hirq Hs Hf Hh Ht Hk Hnd.
  - exists s, []. rewrite drop_ge; [lia|]. cbn. rewrite !app_nil_r. by split_and!.
  - destruct (arr_get_is_Some ds i) as [d Hd]; [lia|]. apply arr_get_Some in Hd as [_ Hd].
    assert (arr_get ds i = Some d) as Hget by (apply arr_get_Some; auto).
    assert (drop (Z.to_nat i) ds = d :: drop (Z.to_nat (i + 1)) ds) as Hdrop.
    { rewrite (drop_S _ _ _ Hd). do 2 f_equal. lia. }
    rewrite Hdrop in Hirq, Hs |- *. inversion Hirq as [|?? Hid Hirq']; subst. cbn [device_loop]. rewrite Hget bind_oread.
    rewrite filter_cons. assert (DRIVER_BYTES = 4200) as HB by done.
    destruct (decide (driven d)) as [Hdr|Hnd'].
    + rw decide_True; [by apply driven_type|].
      destruct (driver_installs d s hs (drop (Z.to_nat (i + 1)) ds)) as (init & a & s1 & -> & E & Hin & Hs1); [done..|lia|done| |done|].
      { unfold CONFIG_MAX_DEVICES, Device.CONFIG_MAX_DEVICES in *. lia. }
      rewrite (bind_Done _ _ _ _ _ E). destruct Hin as [Hm1 Hf1 He1 Hnew1 Hdev1 Hh1 Htab1 [Ht1 Hn1] _].
      assert (table_of s1 addrs) as Hto1 by (destruct Ht as [T1 T2 T3]; constructor; by rewrite ?Ht1 ?Hn1).
      rewrite !bind_gets. assert (∃ t, arr_set (device_table s1) (number_of_devices s1) a = Some t) as [t Et].
      { eexists. apply arr_set_Some. rewrite (to_number _ _ Hto1) (to_length _ _ Hto1). lia. }
      rewrite Et bind_oread bind_modify. rw decide_True; [apply Hdev1|]. rewrite bind_modify bind_gets.
      pose proof (table_add s1 addrs a t Hto1 ltac:(lia) Et) as Hto2.
      set (s2 := (s1 <| device_table := t |>) <| number_of_devices := number_of_devices s1 + 1 |>) in *.
      assert (¬ a ∈ addrs) as Hna.
      { intros Ha. apply list_elem_of_lookup in Ha as [j Hj]. destruct (Forall2_lookup_l _ _ _ _ _ Hk Hj) as (d' & _ & _ & dv & Hdv & _).
        by rewrite Hnew1 in Hdv. }
      assert (Forall2 (device_at (heap s2)) (addrs ++ [a]) (known ++ [d])) as Hk2.
      { apply Forall2_app; [by apply (device_at_stays s)|]. apply Forall2_cons_2; [exact Hdev1|constructor]. }
      match goal with |- context [if decide ?P then _ else _] => destruct (decide P) as [Hfull|Hroom] end.
      * change (Device.CONFIG_MAX_DEVICES ≤ number_of_devices s2) in Hfull. rewrite (to_number _ _ Hto2) length_app in Hfull. cbn in Hfull. assert (drop (Z.to_nat (i + 1)) ds = []) as -> by (apply drop_ge; lia).
        exists s2, [a]. rewrite filter_nil. cbn. rewrite app_nil_r. split_and!; [done|done|by apply nodup_add|done|done].
      * destruct (IH (i + 1) s2 (addrs ++ [a]) (known ++ [d]) (hs ++ entry_of a d)) as (s' & new & E' & Hto' & Hnd'' & Hat & Hho).
        -- lia.
        -- lia.
        -- lia.
        -- rewrite length_app. cbn. lia.
        -- rewrite length_app. pose proof (entry_of_length a d). lia.
        -- destruct Hm1. by constructor.
        -- done.
        -- exact Hs1.
        -- change (free_from s2) with (free_from s1). change (mem_end s2) with (mem_end s1). lia.
        -- done.
        -- done.
        -- done.
        -- by apply nodup_add.
        -- exists s', (a :: new). cbn [zip_with concat]. rewrite -!app_assoc in Hto', Hnd'', Hat, Hho. by split_and!.
    + rewrite find_driver_none //. set (X := device_loop L n (i + 1) ds).
      assert ((if decide (io_type d ≠ 0) then X else X) = X) as -> by by case_decide. unfold X. clear X.
      destruct Hs as (Hs1 & Hs2 & Hs3). apply once_step in Hs1 as [_ Hs1], Hs2 as [_ Hs2], Hs3 as [_ Hs3].
      apply IH; try done; try lia.
      unfold driven in Hnd'. unfold singles.
      assert (∀ t, t ∈ [YAMS_TYPECODE_RTC; YAMS_TYPECODE_MEMINFO; YAMS_TYPECODE_SHUTDOWN] → bool_decide (io_type d = t) = false) as Hb.
      { intros t Hin. apply bool_decide_false. intros Et. apply Hnd'. rewrite Et. rewrite !elem_of_cons in Hin.
        destruct Hin as [->|[->|[->|[]%not_elem_of_nil]]]; by apply (bool_decide_unpack _). }
      rewrite Hb in Hs1; [set_solver|]. rewrite Hb in Hs2; [set_solver|]. rewrite Hb in Hs3; [set_solver|].
      rewrite !orb_false_r in Hs1, Hs2, Hs3. done.
Qed.

(** ** device_get *)

(** The devices of a type, with their descriptors. *)
Definition of_type (t : Z) (l : list (Z * io_descriptor)) : list (Z * io_descriptor) := filter (λ p, io_type p.2 = t) l.

Lemma get_loop_run s addrs known k i t n :
  table_of s addrs → Forall2 (device_at (heap s)) addrs known → 0 ≤ i → Z.of_nat k + i = Z.of_nat (length addrs) → 0 ≤ n < 2 ^ 32 →
  get_loop k i t n s =
    Done (from_option fst 0 (of_type t (drop (Z.to_nat i) (zip addrs known)) !! Z.to_nat n)) s.
Proof.
  intros Ht Hk. revert i n. pose proof (Forall2_length _ _ _ Hk) as Hlen.
  induction k as [|k IH]; intros i n Hi Hki Hn; cbn [get_loop].
  - rewrite drop_ge; [rewrite length_zip_with; lia|]. done.
  - destruct (lookup_lt_is_Some_2 addrs (Z.to_nat i)) as [a Ha]; [lia|].
    destruct (Forall2_lookup_l _ _ _ _ _ Hk Ha) as (d & Hd & Hz & dv & Hdv & Hdt & _).
    assert (zip addrs known !! Z.to_nat i = Some (a, d)) as Hz2 by (apply lookup_zip_with_Some; eauto).
    rewrite bind_gets.
    assert (arr_get (device_table s) i = Some a) as ->.
    { apply arr_get_Some. split; [lia|]. rewrite -(to_addrs _ _ Ht) in Ha. apply lookup_take_Some in Ha. tauto. }
    rewrite bind_oread. assert (get_device a s = Done dv s) as Hg by (unfold get_device; rewrite bind_gets Hdv //).
    rewrite (bind_Done _ _ _ _ _ Hg) Hdt (drop_S _ _ _ Hz2). unfold of_type. rewrite filter_cons. cbn [snd].
    replace (S (Z.to_nat i)) with (Z.to_nat (i + 1)) by lia.
    destruct (decide (io_type d = t)) as [Et|Et].
    + destruct (decide (n = 0)) as [->|Hn0]; [done|]. rewrite u32_small; [lia|]. rewrite IH; [lia..|].
      by replace (Z.to_nat n) with (S (Z.to_nat (n - 1))) by lia.
    + by rewrite IH; [lia..|].
Qed.

(** C29 (functional): device_init, on any descriptors whose devices interrupt on the
    hardware lines and among which the metadevices occur at most once, gives
    every device with a driver a structure of its own, in the order of the
    descriptors, and registers its handler on its line; device_get then finds the
    n-th device of a type, and NULL when there is none. *)
Theorem device_get_finds ds s :
  Z.of_nat (length ds) = YAMS_MAX_DEVICES → Forall irq_ok ds → singles s ds → mem_ok s →
  free_from s + DRIVER_BYTES * YAMS_MAX_DEVICES ≤ mem_end s →
  InterruptSpec.table_ok (interrupt_handlers (ints s)) [] → table_of s [] →
  ∃ s' addrs, let devices := zip addrs (filter driven ds) in
    device_init L ds s = Done tt s' ∧ NoDup addrs ∧ Forall2 (device_at (heap s')) addrs (filter driven ds) ∧
    InterruptSpec.table_ok (interrupt_handlers (ints s')) (concat (zip_with entry_of addrs (filter driven ds))) ∧
    ∀ t n, 0 ≤ n < 2 ^ 32 → device_get t n s' = Done (from_option fst 0 (of_type t devices !! Z.to_nat n)) s'.
Proof.
  intros Hl Hirq Hs Hm Hf Hh Ht. unfold YAMS_MAX_DEVICES in *.
  destruct (device_loop_run (Z.to_nat 128) 0 ds s [] [] []) as (s' & addrs & E & Ht' & Hnd & Hk & Hh');
    try done; try (unfold Device.CONFIG_MAX_DEVICES; cbn; lia); try constructor.
  cbn [app] in *. change (drop (Z.to_nat 0) ds) with ds in Hk, Hh'. exists s', addrs. split_and!; [exact E|done..|].
  intros t n Hn. unfold device_get. rewrite bind_gets (to_number _ _ Ht') Nat2Z.id.
  rewrite (get_loop_run s' addrs _ _ 0 t n Ht' Hk) //. lia.
Qed.
End spec.

(** ** A machine with two terminals, a disk and a CPU *)

Definition example_layout : layout :=
  Layout 0x80010100 0x80010120 0x80010140 0x80010160 0x80012000 0x80012100 0x80012200 0x80012300 0x80012400
    0x80012500 0x80012600 0x80012700 0x80012800.

Definition no_device : io_descriptor := IoDescriptor 0 0 0.
Definition example_devices : list io_descriptor :=
  [IoDescriptor 0x101 0xb0008000 0xffffffff; IoDescriptor 0x102 0xb0008010 0xffffffff; IoDescriptor 0x201 0xb0008020 0;
   IoDescriptor 0x999 0xb0008030 0; IoDescriptor 0x301 0xb0008040 1; IoDescriptor 0x201 0xb0008050 2; IoDescriptor 0xc00 0xb0008060 5]
  ++ replicate 121 no_device.

Definition example_dev : dev_t :=
  Dev (IntState unit (kernel (example_int example_running)) (Kmalloc 0x80040000 0x80400000)
      (memory (example_int example_running)) (tlb (example_int example_running)) (replicate 128 (IntEntry 0 0 0)) [] [] [] [] tt)
    ∅ (replicate 128 0) 0 0 false false false [].

(** The device_get of what a computation leaves. *)
Definition nth_device (r : outcome dev_t unit) (n : Z) : Z :=
  match r with
  | Done _ s' => match device_get 0x201 n s' with Done a _ => a | _ => -1 end
  | _ => -1
  end.

Lemma device_get_finds_witness :
  ∃ s', device_init example_layout example_devices example_dev = Done tt s' ∧
    device_get 0x201 1 s' = Done 0x80041068 s' ∧ device_get 0x201 2 s' = Done 0 s'.
Proof.
  destruct (device_get_finds example_layout example_devices example_dev) as (s' & addrs & E & _ & _ & _ & Hg).
  - done.
  - unfold example_devices. apply Forall_app. split.
    + repeat (apply Forall_cons_2; [intros [h Hh]; first [by vm_compute in Hh|cbn; lia]|]). apply Forall_nil_2.
    + apply Forall_replicate. by intros [h Hh].
  - unfold singles, once. split_and!; intros; by apply (bool_decide_unpack _).
  - constructor.
    + unfold kmalloc_ok. cbn. split_and!; try lia; done.
    + done.
    + done.
    + intros f a Hin. unfold statics in Hin. cbn in Hin. rewrite !elem_of_cons in Hin.
      destruct Hin as [[= _ ->]|[[= _ ->]|[[= _ ->]|[]%not_elem_of_nil]]]; unfold free_from; cbn; lia.
    + by apply (bool_decide_unpack _).
  - vm_compute. congruence.
  - split; [done|]. split; [constructor|]. eexists. split; [reflexivity|]. by apply (bool_decide_unpack _).
  - by constructor.
  - exists s'. split; [exact E|].
    set (r := device_init example_layout example_devices example_dev) in E.
    assert (nth_device r 1 = 0x80041068) as H1 by (by vm_compute).
    assert (nth_device r 2 = 0) as H2 by (by vm_compute).
    rewrite E in H1, H2. cbn [nth_device] in H1, H2. rewrite Hg in H1; [lia|]. rewrite Hg in H2; [lia|].
    split; (rewrite Hg; [lia|]); congruence.
Defined.
End DeviceSpec.
