(* ===== verification/Disk.v ===== *)
(** * The disk driver and its request queue (drivers/disk.c, drivers/disksched.c)

    Requests are structures in their callers' memory, here a map from addresses;
    the queue links them by their [next] pointers (0 is NULL).  The device is a
    parameter: [DiskPorts] gives the effect of each access to its io area. *)
From S2P Require Import Prelude Bytes Cpu Kstate Queues Kinv Scheduler Sleepq Semaphore.
Import Semaphore.

Module Disk.

Definition DISK_COMMAND_READ : Z := 0x1.
Definition DISK_COMMAND_WRITE : Z := 0x2.
Definition DISK_COMMAND_RIRQ : Z := 0x3.
Definition DISK_COMMAND_WIRQ : Z := 0x4.
Definition DISK_COMMAND_BLOCKS : Z := 0x5.
Definition DISK_COMMAND_BLOCKSIZE : Z := 0x6.
Definition DISK_STATUS_RBUSY (status : Z) : Z := Z.land status 0x00000001.
Definition DISK_STATUS_WBUSY (status : Z) : Z := Z.land status 0x00000002.
Definition DISK_STATUS_RIRQ (status : Z) : Z := Z.land status 0x00000004.
Definition DISK_STATUS_WIRQ (status : Z) : Z := Z.land status 0x00000008.
Definition DISK_STATUS_ERRORS (status : Z) : Z := Z.land status 0xf8000000.

Inductive gbd_operation_t := GBD_OPERATION_READ | GBD_OPERATION_WRITE.
#[export] Instance gbd_operation_eq_dec : EqDecision gbd_operation_t.
Proof. solve_decision. Defined.

(** gbd_request_t; [sem] is a semaphore of the kernel's table, [None] for NULL. *)
Record gbd_request_t := GbdRequest {
  block : Z; buf : Z; sem : option Z; operation : gbd_operation_t;
  internal : Z; next : Z; return_value : Z }.
#[export] Instance eta_request : Eta gbd_request_t := fun r =>
  GbdRequest (block r) (buf r) (sem r) (operation r) (internal r) (next r) (return_value r).

Class DiskPorts (D : Type) := {
  port_status : D → Z * D;
  port_data : D → Z * D;
  port_command : Z → D → D;
  port_tsector : Z → D → D;
  port_dmaaddr : Z → D → D }.

(** disk_real_device_t with the kernel, the requests and the device. *)
Record disk_t {D : Type} := DiskState {
  kernel : kstate; disk_slock : Z; request_queue : Z; request_served : Z;
  requests : Z → gbd_request_t; io : D }.
Arguments disk_t D : clear implicits.
#[export] Instance eta_disk {D} : Eta (disk_t D) := fun s =>
  DiskState D (kernel s) (disk_slock s) (request_queue s) (request_served s) (requests s) (io s).

Section disk.
Context {D : Type} `{DiskPorts D}.
Variable semaphore_table_addr : Z.
Abbreviation DM A := (M (disk_t D) A).

Definition io_status : DM Z := fun s =>
  let '(x, d) := port_status (io s) in Done x (s <| io := d |>).
Definition io_data : DM Z := fun s =>
  let '(x, d) := port_data (io s) in Done x (s <| io := d |>).
Definition io_command (c : Z) : DM unit := modify (λ s, s <| io := port_command c (io s) |>).
Definition io_tsector (b : Z) : DM unit := modify (λ s, s <| io := port_tsector b (io s) |>).
Definition io_dmaaddr (a : Z) : DM unit := modify (λ s, s <| io := port_dmaaddr a (io s) |>).

Definition get_req (a : Z) : DM gbd_request_t := gets (λ s, requests s a).
Definition upd_req (a : Z) (f : gbd_request_t → gbd_request_t) : DM unit :=
  modify (λ s, s <| requests := λ b, if decide (b = a) then f (requests s a) else requests s b |>).

Definition interrupt_disable : DM Z := zoom #kernel (_interrupt_disable #k_status).
Definition interrupt_set_state (i : Z) : DM unit := zoom #kernel (_interrupt_set_state #k_status i);; mret tt.

(** ** The queue *)

(** The last request of the chain that starts at [q]. *)
Fixpoint queue_end (fuel : nat) (q : Z) : DM Z :=
  match fuel with
  | O => spin
  | S n =>
    r ← get_req q;
    if decide (next r ≠ 0) then queue_end n (next r) else mret q
  end.

(** [fuel] bounds the length of the queue. *)
Definition disksched_schedule (fuel : nat) (request : Z) : DM unit :=
  q ← gets request_queue;
  if decide (q ≠ 0) then
    e ← queue_end fuel q;
    upd_req e (λ r, r <| next := request |>)
  else modify (λ s, s <| request_queue := request |>).

(** ** The driver *)

(** The test reads the status once more when the first flag is not set. *)
Definition disk_busy : DM bool :=
  status ← io_status;
  if decide (DISK_STATUS_RBUSY status ≠ 0) then mret true else
  status ← io_status;
  mret (bool_decide (DISK_STATUS_WBUSY status ≠ 0)).

(** The first request of the queue, if there is one, goes to the device. *)
Definition start_request : DM unit :=
  served ← gets request_served;
  kernel_assert (bool_decide (served = 0));;
  req ← gets request_queue;
  if decide (req = 0) then mret tt else
  r ← get_req req;
  modify (λ s, s <| request_queue := next r |>);;
  upd_req req (λ r, r <| next := 0 |>);;
  modify (λ s, s <| request_served := req |>);;
  r ← get_req req;
  io_tsector (block r);;
  io_dmaaddr (buf r);;
  match operation r with
  | GBD_OPERATION_READ => io_command DISK_COMMAND_READ
  | GBD_OPERATION_WRITE => io_command DISK_COMMAND_WRITE
  end;;
  status ← io_status;
  if decide (DISK_STATUS_ERRORS status ≠ 0) then panic "disk error occured" else mret tt.

Definition disk_next_request : DM unit :=
  busy ← disk_busy;
  kernel_assert (negb busy);;
  start_request.

Definition disk_interrupt_handle : DM unit :=
  spinlock_acquire #disk_slock;;
  status ← io_status;
  ours ← (if decide (DISK_STATUS_RIRQ status ≠ 0) then mret true else
          status ← io_status; mret (bool_decide (DISK_STATUS_WIRQ status ≠ 0)));
  if negb ours then spinlock_release #disk_slock else
  io_command DISK_COMMAND_WIRQ;;
  io_command DISK_COMMAND_RIRQ;;
  served ← gets request_served;
  kernel_assert (bool_decide (served ≠ 0));;
  upd_req served (λ r, r <| return_value := 0 |>);;
  r ← get_req served;
  sem ← oread (sem r);
  zoom #kernel (semaphore_V semaphore_table_addr sem);;
  modify (λ s, s <| request_served := 0 |>);;
  disk_next_request;;
  spinlock_release #disk_slock.

Definition disk_submit_request (fuel : nat) (request : Z) : DM Z :=
  upd_req request (λ r, r <| internal := 0 |>);;
  upd_req request (λ r, r <| next := 0 |>);;
  upd_req request (λ r, r <| return_value := -1 |>);;
  r ← get_req request;
  let sem_null := bool_decide (sem r = None) in
  ok ← (if sem_null then
          new ← zoom #kernel (semaphore_create 0);
          upd_req request (λ r, r <| sem := new |>);;
          mret (bool_decide (new ≠ None))
        else mret true);
  if negb ok then mret 0 else
  intr_status ← interrupt_disable;
  spinlock_acquire #disk_slock;;
  disksched_schedule fuel request;;
  served ← gets request_served;
  (if decide (served = 0) then disk_next_request else mret tt);;
  spinlock_release #disk_slock;;
  interrupt_set_state intr_status;;
  if sem_null then
    r ← get_req request;
    sem ← oread (sem r);
    zoom #kernel (semaphore_P semaphore_table_addr sem);;
    zoom #kernel (semaphore_destroy sem);;
    upd_req request (λ r, r <| Disk.sem := None |>);;
    r ← get_req request;
    mret (if decide (return_value r = 0) then 1 else 0)
  else mret 1.

Definition disk_read_block (fuel : nat) (request : Z) : DM Z :=
  upd_req request (λ r, r <| operation := GBD_OPERATION_READ |>);;
  disk_submit_request fuel request.

Definition disk_write_block (fuel : nat) (request : Z) : DM Z :=
  upd_req request (λ r, r <| operation := GBD_OPERATION_WRITE |>);;
  disk_submit_request fuel request.

(** Ask the device for one of its parameters. *)
Definition disk_ask (command : Z) : DM Z :=
  intr_status ← interrupt_disable;
  spinlock_acquire #disk_slock;;
  io_command command;;
  ret ← io_data;
  spinlock_release #disk_slock;;
  interrupt_set_state intr_status;;
  mret ret.
Definition disk_block_size : DM Z := disk_ask DISK_COMMAND_BLOCKSIZE.
Definition disk_total_blocks : DM Z := disk_ask DISK_COMMAND_BLOCKS.
End disk.

(** ** What the device does (YAMS documentation)

    [transfer] is the operation it works on; when it has finished, the flag [rirq] or
    [wirq] is raised until the command for it resets it. A transfer of a block of the disk
    starts without an error when the device is idle, and finishes some time after that. *)
Definition job : Type := gbd_operation_t * Z * Z.
Definition command_of (o : gbd_operation_t) : Z :=
  match o with GBD_OPERATION_READ => DISK_COMMAND_READ | GBD_OPERATION_WRITE => DISK_COMMAND_WRITE end.

Class DiskLaws (D : Type) `{DiskPorts D} := {
  transfer : D → option job;
  rirq : D → bool;
  wirq : D → bool;
  dblocks : D → Z;
  status_same d : transfer (port_status d).2 = transfer d ∧ dblocks (port_status d).2 = dblocks d ∧
    rirq (port_status d).2 = rirq d ∧ wirq (port_status d).2 = wirq d;
  status_idle d : transfer d = None →
    DISK_STATUS_RBUSY (port_status d).1 = 0 ∧ DISK_STATUS_WBUSY (port_status d).1 = 0;
  status_rirq d : DISK_STATUS_RIRQ (port_status d).1 ≠ 0 ↔ rirq d = true;
  status_wirq d : DISK_STATUS_WIRQ (port_status d).1 ≠ 0 ↔ wirq d = true;
  reset_same d c : c = DISK_COMMAND_WIRQ ∨ c = DISK_COMMAND_RIRQ →
    transfer (port_command c d) = transfer d ∧ dblocks (port_command c d) = dblocks d;
  reset_wirq d : wirq (port_command DISK_COMMAND_WIRQ d) = false ∧ rirq (port_command DISK_COMMAND_WIRQ d) = rirq d;
  reset_rirq d : rirq (port_command DISK_COMMAND_RIRQ d) = false ∧ wirq (port_command DISK_COMMAND_RIRQ d) = wirq d;
  start_transfer d o b a : transfer d = None → 0 ≤ b < dblocks d →
    let d' := port_command (command_of o) (port_dmaaddr a (port_tsector b d)) in
    transfer d' = Some (o, b, a) ∧ dblocks d' = dblocks d ∧ DISK_STATUS_ERRORS (port_status d').1 = 0 ∧
    rirq d' = rirq d ∧ wirq d' = wirq d }.

(** The device has finished an operation and says so. *)
Definition finished {D} `{DiskLaws D} (d : D) : Prop := transfer d = None ∧ (rirq d = true ∨ wirq d = true).
End Disk.
