(* ===== verification/DiskSpec.v ===== *)
(** * Properties of the disk driver

    The driver refines a queue of requests: the first is being served by the
    device, a new one goes to the end, an interrupt completes the first. *)
From Stdlib Require Import FunctionalExtensionality.
From S2P Require Import Prelude Bytes Cpu Kstate Queues Kinv Scheduler Sleepq Semaphore Kservice Disk.
Import Scheduler Sleepq Semaphore Disk.

Module DiskSpec.

Section spec.
Context {D : Type} `{DiskLaws D}.
Variable semaphore_table_addr : Z.
Implicit Types (kn : kstate) (rq : Z → gbd_request_t) (d : D) (l : list Z).

(** The requests linked from [a] on. *)
Fixpoint chain rq (a : Z) l : Prop :=
  match l with
  | [] => a = 0
  | x :: l' => a = x ∧ x ≠ 0 ∧ chain rq (next (rq x)) l'
  end.

Definition job_of (r : gbd_request_t) : job := (operation r, block r, buf r).

(** The driver's state represents the queue [l], whose first request is served. *)
Record disk_ok (qh sv : Z) rq d l : Prop := {
  do_chain : chain rq qh (tail l);
  do_served : sv = default 0 (head l);
  do_nodup : NoDup l;
  do_null : 0 ∉ l;
  do_range a : a ∈ l → 0 ≤ block (rq a) < dblocks d;
  do_device : match l with
    | [] => transfer d = None
    | a :: _ => transfer d = Some (job_of (rq a)) ∨ finished d
    end }.

(** A request apart from its link. *)
Definition unlinked (r : gbd_request_t) := r <| next := 0 |>.

Lemma chain_ext rq rq' a l : (∀ b, b ∈ l → next (rq' b) = next (rq b)) → chain rq a l → chain rq' a l.
Proof.
  revert a. induction l as [|x l IH]; intros a He; [done|]. simpl. intros (-> & Hx & Hc). split; [done|]. split; [done|].
  rw He; [by left|]. apply IH; [intros b Hb; apply He; by right|done].
Qed.

(** ** One access at a time *)

Section accesses.
Context {A : Type} (kn : kstate) (lk qh sv : Z) (rq : Z → gbd_request_t) (d : D).
Abbreviation stt := (DiskState D kn lk qh sv rq d).
Lemma disk_bind_status (f : Z → M _ A) : (io_status ≫= f) stt = f (port_status d).1 (DiskState D kn lk qh sv rq (port_status d).2).
Proof. unfold mbind, M_bind, io_status. cbn. by destruct (port_status d). Qed.
Lemma bind_req a (f : gbd_request_t → M _ A) : (get_req a ≫= f) stt = f (rq a) stt.
Proof. reflexivity. Qed.
Lemma disk_bind_upd a g (f : unit → M _ A) :
  (upd_req a g ≫= f) stt = f tt (DiskState D kn lk qh sv (λ b, if decide (b = a) then g (rq a) else rq b) d).
Proof. reflexivity. Qed.
Lemma disk_bind_unlock (f : unit → M _ A) : (spinlock_release #disk_slock ≫= f) stt = f tt (DiskState D kn 0 qh sv rq d).
Proof. reflexivity. Qed.
Lemma disk_bind_kernel {B} (m : M kstate B) (f : B → M _ A) x kn' :
  m kn = Done x kn' → (zoom #kernel m ≫= f) stt = f x (DiskState D kn' lk qh sv rq d).
Proof. intros H1. erewrite bind_zoom; [|exact H1]. reflexivity. Qed.
Lemma disk_bind_disable (f : Z → M _ A) : (interrupt_disable ≫= f) stt = f (k_status kn) (DiskState D (kd kn) lk qh sv rq d).
Proof. reflexivity. Qed.
Lemma disk_bind_restore (f : unit → M _ A) :
  0 ≤ k_status kn < 2 ^ 32 →
  (interrupt_set_state (k_status kn) ≫= f) (DiskState D (kd kn) lk qh sv rq d) = f tt stt.
Proof. intros Hw. unfold interrupt_set_state. rw bind_bind. erewrite bind_zoom; [|by apply restored_kd]. done. Qed.
End accesses.
Lemma disk_bind_lock {A} kn qh sv rq d (f : unit → M _ A) :
  (spinlock_acquire #disk_slock ≫= f) (DiskState D kn 0 qh sv rq d) = f tt (DiskState D kn 1 qh sv rq d).
Proof. reflexivity. Qed.

(** ** Starting the next request *)

Lemma disk_busy_idle {A} kn lk qh sv rq d (f : bool → M _ A) :
  transfer d = None →
  ∃ d', (disk_busy ≫= f) (DiskState D kn lk qh sv rq d) = f false (DiskState D kn lk qh sv rq d') ∧
    transfer d' = None ∧ dblocks d' = dblocks d ∧ rirq d' = rirq d ∧ wirq d' = wirq d.
Proof.
  intros Hd. destruct (status_same d) as (H1 & H2 & F1 & F2). destruct (status_idle d Hd) as [Hr _].
  rw Hd in H1. destruct (status_idle _ H1) as [_ Hw]. destruct (status_same (port_status d).2) as (H4 & H5 & F3 & F4).
  exists (port_status (port_status d).2).2. split; [|split; [by rw H4|split; [by rw H5|split; [by rw F3|by rw F4]]]].
  unfold disk_busy. rw bind_bind disk_bind_status decide_False; [by rw Hr|]. rw bind_bind disk_bind_status bind_ret.
  by rw Hw.
Qed.

(** What the device works on when it serves the queue. *)
Definition serving rq l : option job := (λ a, job_of (rq a)) <$> head l.

(** The driver is idle and starts the first request of the queue, if there is one. *)
Lemma next_request_run kn lk qh rq d l :
  chain rq qh l → NoDup l → 0 ∉ l → (∀ a, a ∈ l → 0 ≤ block (rq a) < dblocks d) → transfer d = None →
  ∃ qh' rq' d', disk_next_request (DiskState D kn lk qh 0 rq d) = Done tt (DiskState D kn lk qh' (default 0 (head l)) rq' d') ∧
    disk_ok qh' (default 0 (head l)) rq' d' l ∧ dblocks d' = dblocks d ∧
    transfer d' = serving rq l ∧ rirq d' = rirq d ∧ wirq d' = wirq d ∧
    ∀ b, rq' b = if decide (Some b = head l) then unlinked (rq b) else rq b.
Proof.
  intros Hc Hnd Hnull Hr Hd. unfold disk_next_request.
  destruct (disk_busy_idle kn lk qh 0 rq d (λ busy, kernel_assert (negb busy);; start_request) Hd) as (d1 & Hbusy & Hd1 & Hb1 & F1 & F2).
  rw Hbusy. clear Hbusy. cbn [negb]. rw bind_ret. unfold start_request. rw bind_gets bind_assert; [done|]. rw bind_gets. cbn [request_queue].
  destruct l as [|a l]; simpl in Hc.
  - subst qh. exists 0, rq, d1. split; [done|].
    split; [constructor; simpl; first [done | intros a Ha; by apply elem_of_nil in Ha]|]. split; [done|]. split; [done|]. split; [done|]. split; [done|]. intros b. by destruct (decide (Some b = head [])) as [E|].
  - destruct Hc as (-> & Ha & Hc). apply NoDup_cons in Hnd as [Hna Hnd]. rw decide_False // bind_req bind_modify.
    change (update request_queue _ _) with (DiskState D kn lk (next (rq a)) 0 rq d1). rw disk_bind_upd bind_modify.
    set (rq1 := λ b, if decide (b = a) then (rq a) <| next := 0 |> else rq b).
    change (update request_served _ _) with (DiskState D kn lk (next (rq a)) a rq1 d1). rw bind_req.
    assert (rq1 a = unlinked (rq a)) as Hrq1 by (unfold rq1; by rw decide_True).
    assert (job_of (rq1 a) = job_of (rq a)) as Hjob by by rw Hrq1. injection Hjob as Ho Hbl Hbu. rw Ho Hbl Hbu.
    unfold io_tsector, io_dmaaddr. rw !bind_modify.
    destruct (start_transfer d1 (operation (rq a)) (block (rq a)) (buf (rq a)) Hd1) as (Ht2 & Hb2 & He2 & F3 & F4); [rw Hb1; apply Hr; by left|].
    set (d2 := port_command (command_of (operation (rq a))) (port_dmaaddr (buf (rq a)) (port_tsector (block (rq a)) d1))) in *.
    destruct (status_same d2) as (H4 & H6 & F5 & F6).
    exists (next (rq a)), rq1, (port_status d2).2.
    split; [|split; [|split; [by rw H6 Hb2|split; [by rw H4 Ht2|split; [by rw F5 F3|split; [by rw F6 F4|]]]]]].
    + assert (∀ f : unit → M (disk_t D) unit, (match operation (rq a) with
        | GBD_OPERATION_READ => io_command DISK_COMMAND_READ | GBD_OPERATION_WRITE => io_command DISK_COMMAND_WRITE end ≫= f)
        (DiskState D kn lk (next (rq a)) a rq1 (port_dmaaddr (buf (rq a)) (port_tsector (block (rq a)) d1))) =
        f tt (DiskState D kn lk (next (rq a)) a rq1 d2)) as Hcmd by (intros f; unfold d2; by destruct (operation (rq a))).
      etransitivity; [apply Hcmd|]. rw disk_bind_status decide_False; [by rw He2|]. done.
    + constructor; simpl.
      * apply (chain_ext rq); [|done]. intros b Hb. unfold rq1. by rw decide_False; [intros ->|].
      * done.
      * by apply NoDup_cons.
      * done.
      * intros b Hb. rw H6 Hb2 Hb1. unfold rq1. destruct (decide (b = a)) as [->|]; apply Hr; [by left|done].
      * left. rw H4 Ht2 Hrq1. done.
    + intros b. unfold rq1. simpl. destruct (decide (b = a)) as [->|Hne]; [by rw decide_True|]. by rw decide_False; [congruence|].
Qed.

(** ** The scheduler puts a request at the end *)

Lemma queue_end_run fuel kn lk qh sv rq d a l :
  chain rq a (a :: l) → (length l < fuel)%nat →
  queue_end fuel a (DiskState D kn lk qh sv rq d) = Done (default a (last l)) (DiskState D kn lk qh sv rq d).
Proof.
  revert a l. induction fuel as [|n IH]; intros a l Hc Hf; [lia|]. simpl in Hc. destruct Hc as (_ & Ha & Hc). cbn [queue_end]. rw bind_req.
  destruct l as [|x l]; simpl in Hc.
  - rw Hc. done.
  - destruct Hc as (Hx & Hx0 & Hc). rw decide_True; [by rw Hx|]. rw Hx (IH x l); [done|simpl in Hf; lia|]. rewrite last_cons. by destruct (last l).
Qed.

Lemma chain_snoc rq a l x y :
  chain rq a (l ++ [x]) → NoDup (l ++ [x]) → y ≠ 0 → y ∉ l ++ [x] → next (rq y) = 0 →
  chain (λ b, if decide (b = x) then (rq x) <| next := y |> else rq b) a (l ++ [x; y]).
Proof.
  intros Hc Hnd Hy Hyl Hny. revert a Hc Hnd Hyl. induction l as [|z l IH]; intros a Hc Hnd Hyl; simpl in *.
  - destruct Hc as (-> & Hx & _). split; [done|]. split; [done|]. rewrite decide_True //. split; [done|]. split; [done|].
    rewrite decide_False; [|done]. intros ->. apply Hyl. by left.
  - destruct Hc as (-> & Hz & Hc). apply NoDup_cons in Hnd as [Hzl Hnd]. split; [done|]. split; [done|].
    rewrite decide_False; [|apply IH; [done|done|]].
    + intros ->. apply Hzl, elem_of_app. right. by left.
    + intros Hin. apply Hyl. by right.
Qed.

Lemma schedule_run fuel kn lk qh sv rq d l y :
  chain rq qh l → NoDup l → (length l ≤ fuel)%nat → y ≠ 0 → y ∉ l → next (rq y) = 0 →
  ∃ qh' rq', disksched_schedule fuel y (DiskState D kn lk qh sv rq d) = Done tt (DiskState D kn lk qh' sv rq' d) ∧
    chain rq' qh' (l ++ [y]) ∧ ∀ b, ∃ n, rq' b = (rq b) <| next := n |> ∧ (b ∉ l → n = next (rq b)).
Proof.
  intros Hc Hnd Hf Hy Hyl Hny. unfold disksched_schedule. rw bind_gets. cbn [request_queue].
  destruct l as [|x l' _] using rev_ind.
  - simpl in Hc. subst qh. eexists y, rq. split; [reflexivity|]. split; [by split|]. intros b. exists (next (rq b)). split; [by destruct (rq b)|done].
  - assert (qh ≠ 0) as Hq by (destruct l'; simpl in Hc; destruct Hc as (-> & ? & _); done). rw decide_True //.
    assert (chain rq qh (qh :: tail (l' ++ [x])) ∧ default qh (last (tail (l' ++ [x]))) = x) as [Hc' Hlast].
    { destruct l' as [|z l']; simpl in *; destruct Hc as (-> & ? & Hc); [done|]. split; [done|]. by rewrite last_snoc. }
    rw (bind_Done _ _ _ _ _ (queue_end_run fuel kn lk qh sv rq d qh _ Hc' ltac:(rewrite length_app in Hf; destruct l'; simpl in *; rewrite ?length_app; simpl; lia))).
    rw Hlast. eexists qh, _. split; [reflexivity|]. rw -app_assoc. split; [by apply chain_snoc|].
    intros b. cbn. destruct (decide (b = x)) as [->|]; [exists y|exists (next (rq b)); by destruct (rq b)].
    split; [done|]. intros []. apply elem_of_app. right. by left.
Qed.

(** ** A request joins the queue *)

(** The requests keep everything but their links; others are not touched. *)
Definition relinked l rq rq' : Prop :=
  (∀ b, unlinked (rq' b) = unlinked (rq b)) ∧ (∀ b, b ∉ l → rq' b = rq b).

Lemma unlinked_job r r' : unlinked r' = unlinked r → job_of r' = job_of r ∧ sem r' = sem r ∧ return_value r' = return_value r.
Proof. destruct r, r'. unfold unlinked, update. cbn. by intros [= -> -> -> -> -> ->]. Qed.

Lemma enqueue_run fuel kn lk qh sv rq d l y :
  disk_ok qh sv rq d l → (length l ≤ fuel)%nat → y ≠ 0 → y ∉ l → next (rq y) = 0 → 0 ≤ block (rq y) < dblocks d →
  ∃ qh' sv' rq' d',
    (disksched_schedule fuel y;; served ← gets request_served; (if decide (served = 0) then disk_next_request else mret tt))
      (DiskState D kn lk qh sv rq d) = Done tt (DiskState D kn lk qh' sv' rq' d') ∧
    disk_ok qh' sv' rq' d' (l ++ [y]) ∧ relinked (l ++ [y]) rq rq'.
Proof.
  intros [Hc Hs Hnd H0' Hr Hd] Hf Hy Hyl Hny Hby.
  destruct (schedule_run fuel kn lk qh sv rq d (tail l) y Hc) as (qh1 & rq1 & Hrun & Hc1 & Hrq1);
    [by destruct l; [|apply NoDup_cons in Hnd as []]|destruct l; simpl in *; lia|done|by destruct l; [|set_solver]|done|].
  assert (relinked (l ++ [y]) rq rq1) as Hre1.
  { split; intros b; destruct (Hrq1 b) as (n & Hb & Hn); [by rw Hb|]. intros Hbl. rw Hb Hn; [|by destruct (rq b)].
    intros Hin. apply Hbl, elem_of_app. left. destruct l; [done|by right]. }
  assert (∀ a, a ∈ l ++ [y] → 0 ≤ block (rq1 a) < dblocks d) as Hr1.
  { intros a Ha. destruct (unlinked_job _ _ (proj1 Hre1 a)) as [[= _ -> _] _].
    apply elem_of_app in Ha as [Ha| ->%list_elem_of_singleton]; [by apply Hr|done]. }
  rw (bind_Done _ _ _ _ _ Hrun) bind_gets. cbn [request_served]. destruct l as [|a l]; simpl in Hs; subst sv.
  - destruct (next_request_run kn lk qh1 rq1 d [y] Hc1) as (qh2 & rq2 & d2 & Hrun2 & Hok & _ & _ & _ & _ & Hrq2);
      [apply NoDup_singleton|set_solver|exact Hr1|done|].
    eexists qh2, _, rq2, d2. split; [exact Hrun2|]. split; [exact Hok|]. split.
    + intros b. rw Hrq2. rw -(proj1 Hre1 b). by destruct (decide _).
    + intros b Hb. rw Hrq2. destruct (decide _) as [[= ->]|_]; [set_solver|]. by apply Hre1.
  - rw decide_False; [set_solver|]. exists qh1, a, rq1, d. split; [done|]. split; [|done]. constructor; try done.
    + apply NoDup_app. split; [done|]. split; [set_solver|apply NoDup_singleton].
    + set_solver.
    + simpl in Hd |- *. by destruct (unlinked_job _ _ (proj1 Hre1 a)) as [-> _].
Qed.

(** The fields disk_submit_request sets first. *)
Definition fresh (r : gbd_request_t) : gbd_request_t :=
  ((r <| internal := 0 |>) <| next := 0 |>) <| return_value := -1 |>.
Definition set_req rq (a : Z) (r : gbd_request_t) : Z → gbd_request_t := λ b, if decide (b = a) then r else rq b.

Lemma disk_ok_set qh sv rq d l y r : y ∉ l → disk_ok qh sv rq d l → disk_ok qh sv (set_req rq y r) d l.
Proof.
  intros Hy [H1 H2 H3 H4 H5 H6]. assert (∀ b, b ∈ l → set_req rq y r b = rq b) as He.
  { intros b Hb. unfold set_req. by rw decide_False; [intros ->|]. }
  constructor; try done.
  - apply (chain_ext rq); [|done]. intros b Hb. rw He //. destruct l; [done|by right].
  - intros a Ha. rw He //. by apply H5.
  - destruct l; [done|]. rw He; [by left|done].
Qed.

(** The part of disk_submit_request after the semaphore is there. *)
Lemma submit_locked {A} fuel kn qh sv rq d l y (f : Z → M (disk_t D) A) :
  disk_ok qh sv rq d l → (length l ≤ fuel)%nat → y ≠ 0 → y ∉ l → next (rq y) = 0 → 0 ≤ block (rq y) < dblocks d →
  0 ≤ k_status kn < 2 ^ 32 →
  ∃ qh' sv' rq' d',
    (intr_status ← interrupt_disable; spinlock_acquire #disk_slock;; disksched_schedule fuel y;;
     served ← gets request_served; (if decide (served = 0) then disk_next_request else mret tt);;
     spinlock_release #disk_slock;; interrupt_set_state intr_status;; f intr_status) (DiskState D kn 0 qh sv rq d) =
      f (k_status kn) (DiskState D kn 0 qh' sv' rq' d') ∧
    disk_ok qh' sv' rq' d' (l ++ [y]) ∧ relinked (l ++ [y]) rq rq'.
Proof.
  intros Hok Hf Hy Hyl Hn Hb Hst. destruct (enqueue_run fuel (kd kn) 1 qh sv rq d l y Hok Hf Hy Hyl Hn Hb)
    as (qh' & sv' & rq' & d' & Hrun & Hok' & Hre).
  exists qh', sv', rq', d'. split; [|done]. rw disk_bind_disable disk_bind_lock.
  assert (∀ g : M (disk_t D) A, (disksched_schedule fuel y;; served ← gets request_served;
    (if decide (served = 0) then disk_next_request else mret tt);; g) (DiskState D (kd kn) 1 qh sv rq d) =
    g (DiskState D (kd kn) 1 qh' sv' rq' d')) as Hg.
  { intros g. transitivity (((disksched_schedule fuel y;; served ← gets request_served;
      (if decide (served = 0) then disk_next_request else mret tt)) ≫= λ _ : unit, g) (DiskState D (kd kn) 1 qh sv rq d)).
    - rw bind_bind. done.
    - by rw (bind_Done _ _ _ _ _ Hrun). }
  rw Hg disk_bind_unlock disk_bind_restore //.
Qed.

(** ** The driver's operations *)

Lemma bind_set {A} kn lk qh sv rq d a g (f : unit → M (disk_t D) A) :
  (upd_req a g ≫= f) (DiskState D kn lk qh sv rq d) = f tt (DiskState D kn lk qh sv (set_req rq a (g (rq a))) d).
Proof. reflexivity. Qed.
Lemma set_req_same rq a r : set_req rq a r a = r.
Proof. unfold set_req. by rw decide_True. Qed.
Lemma set_req_other rq a b r : b ≠ a → set_req rq a r b = rq b.
Proof. intros. unfold set_req. by rw decide_False. Qed.
Lemma set_req_twice rq a r r' : set_req (set_req rq a r) a r' = set_req rq a r'.
Proof. apply functional_extensionality. intros b. unfold set_req. by case_decide. Qed.

(** disk_read_block and disk_write_block. *)
Definition disk_transfer (o : gbd_operation_t) : nat → Z → M (disk_t D) Z :=
  match o with GBD_OPERATION_READ => disk_read_block semaphore_table_addr | GBD_OPERATION_WRITE => disk_write_block semaphore_table_addr end.

(** What the request says when it is queued. *)
Definition started (o : gbd_operation_t) (r : gbd_request_t) : gbd_request_t := fresh (r <| operation := o |>).

Lemma transfer_start o fuel kn qh sv rq d y :
  disk_transfer o fuel y (DiskState D kn 0 qh sv rq d) =
  (let sem_null := bool_decide (sem (rq y) = None) in
   ok ← (if sem_null then
           new ← zoom #kernel (semaphore_create 0); upd_req y (λ r, r <| sem := new |>);; mret (bool_decide (new ≠ None))
         else mret true);
   if negb ok then mret 0 else
   intr_status ← interrupt_disable; spinlock_acquire #disk_slock;; disksched_schedule fuel y;;
   served ← gets request_served; (if decide (served = 0) then disk_next_request else mret tt);;
   spinlock_release #disk_slock;; interrupt_set_state intr_status;;
   if sem_null then
     r ← get_req y; sem ← oread (sem r); zoom #kernel (semaphore_P semaphore_table_addr sem);;
     zoom #kernel (semaphore_destroy sem);; upd_req y (λ r, r <| Disk.sem := None |>);;
     r ← get_req y; mret (if decide (return_value r = 0) then 1 else 0)
   else mret 1) (DiskState D kn 0 qh sv (set_req rq y (started o (rq y))) d).
Proof.
  destruct o; unfold disk_transfer, disk_read_block, disk_write_block, disk_submit_request; rw !bind_set bind_req !set_req_same !set_req_twice; done.
Qed.

(** An asynchronous request, with a semaphore of its own, joins the
    end of the queue and the routine answers 1 at once. An idle device starts on it;
    a busy one goes on with what it does. The request carries its operation and the
    result -1 until it is done; the others in the queue keep their contents and
    order. *)
Theorem disk_request_queues o fuel kn qh sv rq d l y i :
  disk_ok qh sv rq d l → (length l ≤ fuel)%nat → y ≠ 0 → y ∉ l → 0 ≤ block (rq y) < dblocks d →
  sem (rq y) = Some i → 0 ≤ k_status kn < 2 ^ 32 →
  ∃ qh' sv' rq' d', disk_transfer o fuel y (DiskState D kn 0 qh sv rq d) = Done 1 (DiskState D kn 0 qh' sv' rq' d') ∧
    disk_ok qh' sv' rq' d' (l ++ [y]) ∧
    unlinked (rq' y) = started o (rq y) ∧ (∀ a, a ∈ l → unlinked (rq' a) = unlinked (rq a)) ∧
    (∀ b, b ∉ l ++ [y] → rq' b = rq b).
Proof.
  intros Hok Hf Hy Hyl Hb Hsem Hst. rw transfer_start Hsem. cbn zeta. rewrite (bool_decide_false (Some i = None)); [done|].
  rw bind_ret. cbn [negb]. set (r := started o (rq y)).
  destruct (submit_locked fuel kn qh sv (set_req rq y r) d l y (λ _, mret 1)) as (qh' & sv' & rq' & d' & Hrun & Hok' & Hre);
    [by apply disk_ok_set|done|done|done|by rw set_req_same|by rw set_req_same|done|].
  exists qh', sv', rq', d'. split; [exact Hrun|]. split; [exact Hok'|]. destruct Hre as [Hre1 Hre2]. split_and!.
  - by rw Hre1 set_req_same.
  - intros a Ha. rw Hre1 set_req_other; [by intros ->|done].
  - intros b Hb'. rw Hre2 // set_req_other //. intros ->. apply Hb', elem_of_app. right. by left.
Qed.

(** C30 (refinement): when the device has finished, its interrupt completes the first
    request: its result becomes 0 and its semaphore gets one permit, or its first
    waiter runs; both flags of the device are reset. The device is then given the
    operation, block and buffer of the next request and works on it, or stays idle
    if there is none. The rest of the queue and all other semaphores are as before.
    The requests are for blocks of the disk, and the semaphore does not overflow. *)
Theorem disk_interrupt_completes kn q qh sv rq d a l i :
  0 < semaphore_table_addr ∧ semaphore_table_addr + SIZEOF_SEMAPHORE * CONFIG_MAX_SEMAPHORES ≤ 2 ^ 32 →
  kernel_ok semaphore_table_addr kn q → disk_ok qh sv rq d (a :: l) → finished d →
  sem (rq a) = Some i → live (core_of kn) i → permits (abs_of semaphore_table_addr (core_of kn) q i) < 2 ^ 31 - 1 →
  ∃ kn' q' qh' sv' rq' d',
    disk_interrupt_handle semaphore_table_addr (DiskState D kn 0 qh sv rq d) = Done tt (DiskState D kn' 0 qh' sv' rq' d') ∧
    disk_ok qh' sv' rq' d' l ∧ transfer d' = serving rq l ∧ rirq d' = false ∧ wirq d' = false ∧
    unlinked (rq' a) = unlinked (rq a) <| return_value := 0 |> ∧
    (∀ b, b ≠ a → unlinked (rq' b) = unlinked (rq b)) ∧ kernel_ok semaphore_table_addr kn' q' ∧ live (core_of kn') i ∧
    abs_of semaphore_table_addr (core_of kn') q' i = spec_V (abs_of semaphore_table_addr (core_of kn) q i) ∧
    (∀ j, sem_ok j → j ≠ i →
      abs_of semaphore_table_addr (core_of kn') q' j = abs_of semaphore_table_addr (core_of kn) q j).
Proof.
  intros Haddr Hk [Hc Hs Hnd Hn Hr _] [Hd Hi] Hsem Hlive Hmax. simpl in Hc, Hs. subst sv. unfold disk_interrupt_handle.
  rw disk_bind_lock disk_bind_status. destruct (status_same d) as (H1 & H2 & H3 & H4). set (d1 := (port_status d).2) in *.
  assert (∃ d2, transfer d2 = None ∧ dblocks d2 = dblocks d ∧ ∀ f : bool → M (disk_t D) unit,
    ((if decide (DISK_STATUS_RIRQ (port_status d).1 ≠ 0) then mret true else
      status ← io_status; mret (bool_decide (DISK_STATUS_WIRQ status ≠ 0))) ≫= f) (DiskState D kn 1 qh a rq d1) =
    f true (DiskState D kn 1 qh a rq d2)) as (d2 & Hd2 & Hb2 & Hours).
  { destruct (decide (DISK_STATUS_RIRQ (port_status d).1 ≠ 0)) as [Hf|Hf].
    - exists d1. split; [congruence|]. split; [done|]. intros f. by rw bind_ret.
    - rewrite status_rirq in Hf. destruct Hi as [|Hi]; [done|]. destruct (status_same d1) as (H5 & H6 & _ & _).
      exists (port_status d1).2. split; [congruence|]. split; [congruence|]. intros f. rw bind_bind disk_bind_status bind_ret.
      rewrite bool_decide_true //. apply status_wirq. congruence. }
  rw Hours. cbn [negb]. unfold io_command. rw !bind_modify bind_gets. cbn [request_served].
  set (d3 := port_command DISK_COMMAND_RIRQ (port_command DISK_COMMAND_WIRQ d2)).
  destruct (reset_same d2 DISK_COMMAND_WIRQ (or_introl eq_refl)) as [H5 H6].
  destruct (reset_same (port_command DISK_COMMAND_WIRQ d2) DISK_COMMAND_RIRQ (or_intror eq_refl)) as [H7 H8].
  rw bind_assert; [set_solver|]. change (update io _ _) with (DiskState D kn 1 qh a rq d3).
  rw bind_set bind_req set_req_same. set (rq1 := set_req rq a ((rq a) <| return_value := 0 |>)). change (sem ((rq a) <| return_value := 0 |>)) with (sem (rq a)).
  rw Hsem bind_oread.
  destruct (semaphore_V_spec semaphore_table_addr Haddr kn q i Hk Hlive Hmax) as (kn' & q' & HV & Hk' & Hlive' & Habs & Hoth & _).
  rw (disk_bind_kernel _ _ _ _ _ _ _ _ _ _ HV) bind_modify. change (update request_served _ _) with (DiskState D kn' 1 qh 0 rq1 d3).
  apply NoDup_cons in Hnd as [Hal Hnd].
  destruct (next_request_run kn' 1 qh rq1 d3 l) as (qh' & rq' & d' & Hrun & Hok & _ & Htr & Hfr & Hfw & Hrq).
  - apply (chain_ext rq); [|done]. intros b Hb. unfold rq1. rw set_req_other //. by intros ->.
  - done.
  - set_solver.
  - intros b Hb. unfold rq1. rw set_req_other; [by intros ->|]. unfold d3. rw H8 H6 Hb2. apply Hr. by right.
  - unfold d3. by rw H7 H5.
  - exists kn', q', qh', (default 0 (head l)), rq', d'. rw (bind_Done _ _ _ _ _ Hrun). split; [reflexivity|]. split; [exact Hok|].
    destruct (reset_wirq d2) as [W1 W2]. destruct (reset_rirq (port_command DISK_COMMAND_WIRQ d2)) as [W3 W4].
    split; [rw Htr; destruct l as [|b l]; [done|]; cbn; unfold rq1; rw set_req_other //; intros ->; apply Hal; by left|].
    split; [by rw Hfr|]. split; [by rw Hfw /d3 W4|].
    assert (∀ b, unlinked (rq' b) = unlinked (rq1 b)) as Hu by (intros b; rw Hrq; by destruct (decide (Some b = head l))).
    split; [rw Hu; unfold rq1; by rw set_req_same|]. split; [intros b Hb; rw Hu; unfold rq1; by rw set_req_other|]. done.
Qed.

(** The rest of a synchronous request, when its semaphore has been signalled. *)
Lemma sync_ends kn lk q qh sv rq d y i :
  kernel_ok semaphore_table_addr kn q → live (core_of kn) i → 0 ≤ sem_value (csem (core_of kn) i) →
  ∃ kn', kernel_ok semaphore_table_addr kn' q ∧ sem_creator (csem (core_of kn') i) = -1 ∧
    (zoom #kernel (semaphore_destroy i);; upd_req y (λ r, r <| Disk.sem := None |>);;
     r ← get_req y; mret (if decide (return_value r = 0) then 1 else 0)) (DiskState D kn lk qh sv rq d) =
    Done (if decide (return_value (rq y) = 0) then 1 else 0)
      (DiskState D kn' lk qh sv (set_req rq y ((rq y) <| Disk.sem := None |>)) d).
Proof.
  intros Hk Hl Hv. destruct (semaphore_destroy_run semaphore_table_addr kn q i Hk Hl Hv) as [Hrun Hk'].
  eexists. split; [exact Hk'|]. split.
  - rw core_of_put csem_setsem; [exact (sizes_of _ _ (ko_inv _ _ _ Hk))|apply Hl|]. by rw decide_True.
  - rw (disk_bind_kernel _ _ _ _ _ _ _ _ _ _ Hrun) bind_set bind_req set_req_same. done.
Qed.

(** A synchronous request, without a semaphore, joins the end of the
    queue with a new semaphore on which the caller waits, as its only waiter. When
    the request has been completed and the semaphore signalled, the caller destroys
    the semaphore and answers 1 exactly if the result is 0. Without a free semaphore
    the answer is 0 and the queue is as before. *)
Theorem disk_request_waits o fuel kn q qh sv rq d l y :
  0 < semaphore_table_addr ∧ semaphore_table_addr + SIZEOF_SEMAPHORE * CONFIG_MAX_SEMAPHORES ≤ 2 ^ 32 →
  kernel_ok semaphore_table_addr kn q → running kn →
  disk_ok qh sv rq d l → (length l ≤ fuel)%nat → y ≠ 0 → y ∉ l → 0 ≤ block (rq y) < dblocks d → sem (rq y) = None →
  let run := disk_transfer o fuel y (DiskState D kn 0 qh sv rq d) in
  (∃ kn' rq', run = Done 0 (DiskState D kn' 0 qh sv rq' d) ∧ disk_ok qh sv rq' d l ∧
     ∀ i, sem_ok i → sem_creator (csem (core_of kn) i) ≠ -1) ∨
  ∃ i kn' q' qh' sv' rq' d' k,
    run = Blocked (DiskState D kn' 0 qh' sv' rq' d') k ∧ disk_ok qh' sv' rq' d' (l ++ [y]) ∧
    unlinked (rq' y) = (started o (rq y)) <| Disk.sem := Some i |> ∧
    sem_creator (csem (core_of kn) i) = -1 ∧ kernel_ok semaphore_table_addr kn' q' ∧
    abs_of semaphore_table_addr (core_of kn') q' i = AbsSem 0 [current kn] ∧
    ∀ kn2 q2 qh2 sv2 rq2 d2,
      kernel_ok semaphore_table_addr kn2 q2 → live (core_of kn2) i → 0 ≤ sem_value (csem (core_of kn2) i) →
      sem (rq2 y) = Some i →
      ∃ kn3, kernel_ok semaphore_table_addr kn3 q2 ∧ sem_creator (csem (core_of kn3) i) = -1 ∧
        k (DiskState D kn2 0 qh2 sv2 rq2 d2) = Done (if decide (return_value (rq2 y) = 0) then 1 else 0)
          (DiskState D kn3 0 qh2 sv2 (set_req rq2 y ((rq2 y) <| Disk.sem := None |>)) d2).
Proof.
  intros Haddr Hk Hrun Hok Hf Hy Hyl Hb Hsem run. unfold run. rw transfer_start Hsem. cbn zeta. rewrite bool_decide_true; [done|].
  set (r := started o (rq y)). rw bind_bind.
  destruct (semaphore_create_spec semaphore_table_addr kn q 0 Hk ltac:(lia)) as (ri & kn1 & Hcr & Hk1 & Hth & Hri).
  { destruct Hrun as [[? _] _ _]. lia. }
  rw (disk_bind_kernel _ _ _ _ _ _ _ _ _ _ Hcr) bind_bind bind_set set_req_same set_req_twice bind_ret.
  destruct ri as [i|]; cycle 1.
  { left. destruct Hri as [Hall _]. eexists kn1, _. split; [reflexivity|]. split; [by apply disk_ok_set|done]. }
  right. destruct Hri as (Hfree & Hlive & Habs & Hoth). rewrite bool_decide_true; [done|]. cbn [negb].
  assert (running kn1 ∧ current kn1 = current kn) as [Hrun1 Hcur].
  { destruct (semaphore_create_run semaphore_table_addr kn q 0 Hk ltac:(lia)) as ([j|] & nx & _ & Hj); [destruct Hj as (_ & _ & Hj)|destruct Hj as [Hj _]];
      rw Hj in Hcr; [|done]. injection Hcr as <- <-. by destruct Hrun. }
  set (r1 := r <| Disk.sem := Some i |>).
  destruct (submit_locked fuel kn1 qh sv (set_req rq y r1) d l y (λ _,
    r ← get_req y; sem ← oread (sem r); zoom #kernel (semaphore_P semaphore_table_addr sem);;
    zoom #kernel (semaphore_destroy sem);; upd_req y (λ r, r <| Disk.sem := None |>);;
    r ← get_req y; mret (if decide (return_value r = 0) then 1 else 0))) as (qh' & sv' & rq' & d' & Hsub & Hok' & [Hre1 Hre2]);
    [by apply disk_ok_set|done|done|done|by rw set_req_same|by rw set_req_same|apply (co_status _ (ko_cpu _ _ _ Hk1))|].
  assert (unlinked (rq' y) = r1) as Hy' by by rw Hre1 set_req_same.
  assert (sem (rq' y) = Some i) as Hsem' by (change (sem (rq' y)) with (sem (unlinked (rq' y))); by rw Hy').
  injection Habs as Hval Hwt. destruct (live_waiters semaphore_table_addr _ _ _ (ko_sems _ _ _ Hk1) Hlive) as (_ & _ & Hlen).
  destruct (semaphore_P_block semaphore_table_addr Haddr kn1 q i Hk1 Hrun1 Hlive ltac:(lia))
    as (c' & q' & k & HP & Hk' & He & _ & Hw & _ & _ & _ & Hres).
  assert (sem_value (csem (core_of kn1) i) = 0) as Hv0 by (rw Hwt in Hlen; simpl in Hlen; lia).
  eexists i, _, q', qh', sv', rq', d', _. split; [|split; [exact Hok'|split; [exact Hy'|split; [done|split]]]].
  - etransitivity; [exact Hsub|]. rw bind_req Hsem' bind_oread. apply bind_Blocked. unfold zoom.
    change (lget #kernel _) with kn1. rw HP. reflexivity.
  - apply kernel_ok_switched. exact Hk'.
  - split.
    + unfold abs_of. f_equal.
      * change (Z.max 0 (sem_value (csem c' i)) = 0). rw He Hv0. done.
      * change (waiters c' q' (sem_addr semaphore_table_addr i) = [current kn]). rw Hw; [by apply (sem_addr_res semaphore_table_addr Haddr i), Hlive|].
        rw Hwt decide_True //. by rw Hcur.
    + intros kn2 q2 qh2 sv2 rq2 d2 Hk2 Hl2 Hv2 Hs2. destruct (Hres kn2) as (w & Hkw & _ & Hwr).
      assert (kernel_ok semaphore_table_addr (kn2 <| k_status := w |>) q2) as Hk2'.
      { destruct Hk2 as [J1 [J2 J3] J4 J5 J6 J7 J8 J9]. constructor; try done. constructor; [done|]. by apply Hwr. }
      destruct (sync_ends (kn2 <| k_status := w |>) 0 q2 qh2 sv2 rq2 d2 y i Hk2' Hl2 Hv2) as (kn3 & Hk3 & Hfr & Hend).
      exists kn3. split; [done|]. split; [done|]. cbn beta. change (lget #kernel (DiskState D kn2 0 qh2 sv2 rq2 d2)) with kn2. rw Hkw. exact Hend.
Qed.
End spec.

(** ** A disk whose operations take until it is told that they are done *)

Record example_disk := ExampleDisk { ed_job : option job; ed_r : bool; ed_w : bool; ed_sector : Z; ed_dma : Z }.

#[export] Instance example_disk_ports : DiskPorts example_disk := {
  port_status d :=
    (match ed_job d with Some (GBD_OPERATION_READ, _, _) => 1 | Some (GBD_OPERATION_WRITE, _, _) => 2 | None => 0 end +
     (if ed_r d then 4 else 0) + (if ed_w d then 8 else 0), d);
  port_data d := (0, d);
  port_command c d :=
    match c with
    | 1 => ExampleDisk (Some (GBD_OPERATION_READ, ed_sector d, ed_dma d)) (ed_r d) (ed_w d) (ed_sector d) (ed_dma d)
    | 2 => ExampleDisk (Some (GBD_OPERATION_WRITE, ed_sector d, ed_dma d)) (ed_r d) (ed_w d) (ed_sector d) (ed_dma d)
    | 3 => ExampleDisk (ed_job d) false (ed_w d) (ed_sector d) (ed_dma d)
    | 4 => ExampleDisk (ed_job d) (ed_r d) false (ed_sector d) (ed_dma d)
    | _ => d
    end;
  port_tsector b d := ExampleDisk (ed_job d) (ed_r d) (ed_w d) b (ed_dma d);
  port_dmaaddr a d := ExampleDisk (ed_job d) (ed_r d) (ed_w d) (ed_sector d) a }.

#[export] Instance example_disk_laws : DiskLaws example_disk.
Proof.
  refine {| transfer := ed_job; rirq := ed_r; wirq := ed_w; dblocks _ := 1024 |}; simpl.
  - done.
  - intros [j [] [] s a] H; simpl in *; subst j; by vm_compute.
  - intros [[[[[] b] x]|] [] [] s a]; vm_compute; by split.
  - intros [[[[[] b] x]|] [] [] s a]; vm_compute; by split.
  - intros [j r w s a] c [-> | ->]; done.
  - done.
  - done.
  - intros [j r w s a] [] b x Hj Hb; simpl in *; (split; [done|]); (split; [done|]); by destruct r, w.
Defined.

(** Request 0x100 is served, 0x200 waits, 0x300 is new; semaphore 5 belongs to the first. *)
Definition example_requests (a : Z) : gbd_request_t :=
  if decide (a = 0x100) then GbdRequest 7 0x9000 (Some 5) GBD_OPERATION_READ 0 0 (-1)
  else if decide (a = 0x200) then GbdRequest 8 0xa000 (Some 6) GBD_OPERATION_WRITE 0 0 (-1)
  else GbdRequest 9 0xb000 (if decide (a = 0x300) then Some 6 else None) GBD_OPERATION_READ 0 0 (-1).

Lemma example_queue_ok d :
  match ed_job d with Some j => j = (GBD_OPERATION_READ, 7, 0x9000) | None => ed_r d = true end →
  disk_ok 0x200 0x100 example_requests d [0x100; 0x200].
Proof.
  intros Hd. constructor.
  - by vm_compute.
  - done.
  - apply NoDup_cons. split; [|apply NoDup_singleton]. intros H%list_elem_of_singleton. lia.
  - intros [H|H%list_elem_of_singleton]%elem_of_cons; lia.
  - intros a [->| ->%list_elem_of_singleton]%elem_of_cons; vm_compute; split; congruence.
  - unfold finished. simpl. destruct (ed_job d) as [j|]; [left; by subst j|right]. split; [done|by left].
Qed.

Lemma example_new_request : 0x300 ∉ [0x100; 0x200].
Proof. intros [H|H%list_elem_of_singleton]%elem_of_cons; lia. Qed.

Definition working_disk : example_disk := ExampleDisk (Some (GBD_OPERATION_READ, 7, 0x9000)) false false 7 0x9000.
Definition ready_disk : example_disk := ExampleDisk None true false 7 0x9000.

Lemma disk_request_queues_witness :
  ∃ qh' sv' rq' d',
    disk_transfer 0x80020000 GBD_OPERATION_WRITE 10 0x300 (DiskState example_disk (example_sem 1) 0 0x200 0x100 example_requests working_disk) =
      Done 1 (DiskState example_disk (example_sem 1) 0 qh' sv' rq' d') ∧ disk_ok qh' sv' rq' d' [0x100; 0x200; 0x300].
Proof.
  destruct (disk_request_queues 0x80020000 GBD_OPERATION_WRITE 10 (example_sem 1) 0x200 0x100 example_requests working_disk
    [0x100; 0x200] 0x300 6 (example_queue_ok working_disk eq_refl) ltac:(cbn; lia) ltac:(lia) example_new_request
    ltac:(vm_compute; split; congruence) eq_refl) as (qh' & sv' & rq' & d' & Hrun & Hok & _); [vm_compute; split; congruence|].
  exists qh', sv', rq', d'. split; [exact Hrun|exact Hok].
Defined.

Lemma disk_interrupt_completes_witness :
  ∃ kn' q' qh' sv' rq' d',
    disk_interrupt_handle 0x80020000 (DiskState example_disk (example_sem 0) 0 0x200 0x100 example_requests ready_disk) =
      Done tt (DiskState example_disk kn' 0 qh' sv' rq' d') ∧ disk_ok qh' sv' rq' d' [0x200] ∧
    transfer d' = Some (GBD_OPERATION_WRITE, 8, 0xa000) ∧
    return_value (rq' 0x100) = 0 ∧ abs_of 0x80020000 (core_of kn') q' 5 = AbsSem 1 [].
Proof.
  destruct (disk_interrupt_completes 0x80020000 (example_sem 0) (Queues [] (λ _, [])) 0x200 0x100 example_requests ready_disk
    0x100 [0x200] 5 example_addr (example_sem_ok 0 ltac:(lia)) (example_queue_ok ready_disk eq_refl)) as
    (kn' & q' & qh' & sv' & rq' & d' & Hrun & Hok & Ht & _ & _ & Hu & _ & _ & _ & Ha & _).
  - split; [reflexivity|left; reflexivity].
  - reflexivity.
  - exact (example_sem_live 0).
  - vm_compute. reflexivity.
  - exists kn', q', qh', sv', rq', d'. split; [exact Hrun|]. split; [exact Hok|]. split; [exact Ht|]. split; [|rewrite Ha; reflexivity].
    change (return_value (unlinked (rq' 0x100)) = 0). by rewrite Hu.
Defined.

Lemma disk_request_waits_witness :
  ∃ s, disk_transfer 0x80020000 GBD_OPERATION_READ 10 0x400
    (DiskState example_disk (example_sem 1) 0 0x200 0x100 example_requests working_disk) = s ∧
    ((∃ kn' rq', s = Done 0 (DiskState example_disk kn' 0 0x200 0x100 rq' working_disk)) ∨ ∃ s' k, s = Blocked s' k).
Proof.
  assert (0x400 ∉ [0x100; 0x200]) as Hn by (intros [H|H%list_elem_of_singleton]%elem_of_cons; lia).
  eexists. split; [reflexivity|].
  destruct (disk_request_waits 0x80020000 GBD_OPERATION_READ 10 (example_sem 1) (Queues [] (λ _, [])) 0x200 0x100
    example_requests working_disk [0x100; 0x200] 0x400 example_addr (example_sem_ok 1 ltac:(lia)) (example_sem_running 1)
    (example_queue_ok working_disk eq_refl) ltac:(cbn; lia) ltac:(lia) Hn ltac:(vm_compute; split; congruence) eq_refl)
    as [(kn' & rq' & H & _)|(i & kn' & q' & qh' & sv' & rq' & d' & k & H & _)].
  - left. exists kn', rq'. exact H.
  - right. eexists _, k. exact H.
Defined.
End DiskSpec.
