(* ===== verification/Sync.v ===== *)
(** * What the upper layers use of the kernel core and of block devices

    Semaphores as their specification in [Semaphore] describes them: a number
    of permits; P takes one or waits until V hands one over.  Block devices as
    the interface drivers/gbd.h describes them. *)
From S2P Require Import Prelude Bytes.

(** ** Semaphores *)

(** [Semaphore.spec_P]: without a permit the thread waits; V hands its permit
    to the thread it wakes. *)
Definition sem_P {S} (l : lens S Z) : M S unit := fun s =>
  if decide (0 < lget l s) then Done tt (lset l (lget l s - 1) s)
  else Blocked s (λ s', Done tt s').

(** [Semaphore.spec_V] when no thread waits. *)
Definition sem_V {S} (l : lens S Z) : M S unit := modify (λ s, lset l (lget l s + 1) s).

Lemma bind_sem_P {S B} (l : lens S Z) (f : unit → M S B) s :
  0 < lget l s → (sem_P l ≫= f) s = f tt (lset l (lget l s - 1) s).
Proof. intros H. unfold mbind, M_bind, sem_P. by case_decide. Qed.
Lemma bind_sem_V {S B} (l : lens S Z) (f : unit → M S B) s :
  (sem_V l ≫= f) s = f tt (lset l (lget l s + 1) s).
Proof. done. Qed.

(** ** Routines that do not wait

    [runs P m Q] : from a state with [P], [m] does not wait, and if it returns
    then with [Q]; it may stop the kernel. *)
Definition runs {S A} (P : S → Prop) (m : M S A) (Q : S → Prop) : Prop := ∀ s,
  P s → match m s with Done _ s' => Q s' | Blocked _ _ => False | _ => True end.

Lemma runs_bind {S A B} (P R Q : S → Prop) (m : M S A) (f : A → M S B) :
  runs P m R → (∀ a, runs R (f a) Q) → runs P (m ≫= f) Q.
Proof.
  intros Hm Hf s Hs. specialize (Hm s Hs). unfold mbind, M_bind. destruct (m s) as [a s'| | | |]; simpl; try done.
  by apply Hf.
Qed.
Lemma runs_ret {S A} (P : S → Prop) (a : A) : runs P (mret a : M S A) P.
Proof. by intros s. Qed.
Lemma runs_gets {S A} (P : S → Prop) (g : S → A) : runs P (gets g) P.
Proof. by intros s. Qed.
Lemma runs_oread {S A} (P : S → Prop) (o : option A) : runs P (oread o) P.
Proof. intros s Hs. by destruct o. Qed.
Lemma runs_read {S A} (P : S → Prop) (g : S → option A) : runs P (λ s, oread (g s) s) P.
Proof. intros s Hs. by destruct (g s). Qed.
Lemma runs_assert {S} (P : S → Prop) b : runs P (kernel_assert b) P.
Proof. intros s Hs. by destruct b. Qed.
Lemma runs_modify {S} (P Q : S → Prop) (f : S → S) : (∀ s, P s → Q (f s)) → runs P (modify f) Q.
Proof. intros H s Hs. by apply H. Qed.
Lemma runs_P {S} (P Q : S → Prop) (l : lens S Z) :
  (∀ s, P s → 0 < lget l s ∧ Q (lset l (lget l s - 1) s)) → runs P (sem_P l) Q.
Proof. intros H s Hs. destruct (H s Hs) as [Hl HQ]. unfold sem_P. by rw decide_True. Qed.
Lemma runs_V {S} (P Q : S → Prop) (l : lens S Z) :
  (∀ s, P s → Q (lset l (lget l s + 1) s)) → runs P (sem_V l) Q.
Proof. intros H s Hs. by apply H. Qed.
Lemma runs_find {S} (P : S → Prop) n lo (t : Z → M S bool) :
  (∀ i, runs P (t i) P) → runs P (find_loop n lo t) P.
Proof.
  intros Ht. revert lo. induction n as [|n IH]; intros lo; [apply runs_ret|]. cbn [find_loop].
  eapply runs_bind; [apply Ht|]. intros [|]; [apply runs_ret|apply IH].
Qed.
Lemma runs_for {S} (P : S → Prop) n lo (t : Z → M S unit) :
  (∀ i, runs P (t i) P) → runs P (for_loop n lo t) P.
Proof.
  intros Ht. revert lo. induction n as [|n IH]; intros lo; [apply runs_ret|]. cbn [for_loop].
  eapply runs_bind; [apply Ht|]. done.
Qed.
Lemma runs_zoom {S T A} (P Q : S → Prop) (R R' : T → Prop) (l : lens S T) (m : M T A) :
  runs R m R' → (∀ s, P s → R (lget l s)) → (∀ s t, P s → R' t → Q (lset l t s)) → runs P (zoom l m) Q.
Proof.
  intros Hm H1 H2 s Hs. specialize (Hm _ (H1 s Hs)). unfold zoom. destruct (m (lget l s)); simpl; try done.
  by apply H2.
Qed.

(** ** Block devices (drivers/gbd.h)

    A request reads the block into a buffer, or writes it from one, and answers
    zero when it failed.  Requests are synchronous ([sem == NULL]). *)
Class Gbd (D : Type) := {
  gbd_block_size : D → Z;
  gbd_total_blocks : D → Z;
  gbd_read_block : Z → list Z → D → Z * list Z * D;
  gbd_write_block : Z → list Z → D → Z * D }.

(** What a file system relies on: a block reads back as it was last written,
    and a request touches no other block.  A failed write may leave anything in
    its own block. *)
Class GbdLaws (D : Type) `{Gbd D} := {
  gbd_block : D → Z → list Z;
  gbd_block_ok d b : length (gbd_block d b) = Z.to_nat (gbd_block_size d) ∧ bytes_ok (gbd_block d b);
  gbd_size_keeps_read b l d : gbd_block_size (gbd_read_block b l d).2 = gbd_block_size d;
  gbd_size_keeps_write b l d : gbd_block_size (gbd_write_block b l d).2 = gbd_block_size d;
  gbd_read_ok b l d r l' d' :
    gbd_read_block b l d = (r, l', d') →
    (∀ b', gbd_block d' b' = gbd_block d b') ∧
    (r ≠ 0 → l' = gbd_block d b) ∧
    (length l = Z.to_nat (gbd_block_size d) → length l' = length l) ∧ (bytes_ok l → bytes_ok l');
  gbd_write_ok b l d r d' :
    gbd_write_block b l d = (r, d') → length l = Z.to_nat (gbd_block_size d) → bytes_ok l →
    (∀ b', b' ≠ b → gbd_block d' b' = gbd_block d b') ∧ (r ≠ 0 → gbd_block d' b = l) }.

(** A device on which requests for its blocks succeed. *)
Class GbdReliable (D : Type) `{Gbd D} (works : D → Prop) := {
  works_read b l d : works d → 0 ≤ b < gbd_total_blocks d →
    (gbd_read_block b l d).1.1 ≠ 0 ∧ works (gbd_read_block b l d).2 ∧
    gbd_total_blocks (gbd_read_block b l d).2 = gbd_total_blocks d;
  works_write b l d : works d → 0 ≤ b < gbd_total_blocks d →
    (gbd_write_block b l d).1 ≠ 0 ∧ works (gbd_write_block b l d).2 ∧
    gbd_total_blocks (gbd_write_block b l d).2 = gbd_total_blocks d }.

(** ** A disk in memory, an instance of the interface *)

Record ramdisk := Ramdisk { rd_blocks : Z → list Z; rd_total : Z }.

(** The contents of a block, forced to the block size. *)
Definition fit (l : list Z) : list Z := take 512 (map (λ b, b `mod` 256) l ++ replicate 512 0).

Lemma fit_ok l : length (fit l) = 512%nat ∧ bytes_ok (fit l).
Proof.
  unfold fit. split; [rw length_take length_app length_replicate; lia|].
  apply Forall_take, Forall_app. split.
  - apply Forall_map, Forall_true. intros b. unfold is_byte. simpl. zdm.
  - apply Forall_replicate. unfold is_byte. lia.
Qed.

Lemma fit_id l : length l = 512%nat → bytes_ok l → fit l = l.
Proof.
  intros Hl Hb. unfold fit.
  assert (map (λ b, b `mod` 256) l = l) as ->.
  { clear Hl. induction Hb as [|b l Hb' Hb IH]; [done|]. simpl. rw IH. f_equal.
    unfold is_byte in Hb'. apply Z.mod_small. lia. }
  by rw -Hl take_app_length.
Qed.

#[export] Instance ramdisk_gbd : Gbd ramdisk := {
  gbd_block_size _ := 512;
  gbd_total_blocks := rd_total;
  gbd_read_block b l d :=
    if decide (0 ≤ b < rd_total d) then (1, fit (rd_blocks d b), d) else (0, l, d);
  gbd_write_block b l d :=
    if decide (0 ≤ b < rd_total d)
    then (1, Ramdisk (λ b', if decide (b' = b) then l else rd_blocks d b') (rd_total d)) else (0, d) }.

#[export] Instance ramdisk_laws : GbdLaws ramdisk.
Proof.
  refine {| gbd_block d b := fit (rd_blocks d b) |}.
  - intros d b. apply fit_ok.
  - done.
  - done.
  - intros b l d r l' d'. simpl. case_decide as Hd; intros [= <- <- <-].
    + split; [done|]. split; [done|]. destruct (fit_ok (rd_blocks d b)). split; [intros ->; done|done].
    + done.
  - intros b l d r d'. simpl. case_decide as Hd; intros [= <- <-] Hl Hb.
    + simpl. split; [intros b' Hne; by rw decide_False|]. intros _. rw decide_True // fit_id //.
    + done.
Defined.

#[export] Instance ramdisk_reliable : GbdReliable ramdisk (λ _, True).
Proof.
  split.
  - intros b l d _ Hb. simpl. by rw decide_True.
  - intros b l d _ Hb. simpl. by rw decide_True.
Qed.
