(* ===== verification/Tfs.v ===== *)
(** * The trivial file system (fs/tfs.c)

    Block 0 of a volume is the header, block 1 the allocation bitmap, block 2
    the directory; a file is an inode block (size and up to 127 block numbers)
    and its data blocks.  [tfs_t] holds the driver's record, the state of its
    disk, the permits of its lock and its three block buffers, as bytes.  The
    page that tfs_init allocates is the only memory the driver uses. *)
From S2P Require Import Prelude Bytes Libc Bitmap Sync.
Import Libc Bitmap.

Module Tfs.

Definition TFS_BLOCK_SIZE : Z := 512.
Definition TFS_MAGIC : Z := 3745.
Definition TFS_ALLOCATION_BLOCK : Z := 1.
Definition TFS_DIRECTORY_BLOCK : Z := 2.
Definition TFS_VOLUMENAME_MAX : Z := 16.
Definition TFS_FILENAME_MAX : Z := 16.
Definition TFS_BLOCKS_MAX : Z := 127.
Definition SIZEOF_DIRENTRY : Z := 20.
Definition TFS_MAX_FILES : Z := 25.
Definition VFS_NAME_LENGTH : Z := 16.

Definition VFS_OK : Z := 0.
Definition VFS_ERROR : Z := -2.
Definition VFS_NOT_FOUND : Z := -5.

Section tfs.
Context {D : Type} `{Gbd D}.

(** The driver's record; [lock_sem] is the semaphore, [lock] its permits. *)
Record tfs_t := TfsT {
  totalblocks : Z; disk : D; lock_sem : Z; lock : Z;
  buffer_inode : list Z; buffer_bat : list Z; buffer_md : list Z }.
#[global] Instance eta_tfs : Eta tfs_t := fun t =>
  TfsT (totalblocks t) (disk t) (lock_sem t) (lock t) (buffer_inode t) (buffer_bat t) (buffer_md t).

Abbreviation T A := (M tfs_t A).

(** ** The typed views of the buffers *)

(** A bitmap is an array of 32-bit words in a block. *)
Fixpoint to_words (n : nat) (l : list Z) : list Z :=
  match n with
  | O => []
  | S n' => default 0 (ld32 l 0) :: to_words n' (drop 4 l)
  end.
Definition of_words (ws : list Z) : list Z := concat (map be_split ws).
Definition bat_words : lens tfs_t (list Z) :=
  Lens (λ s, to_words 128 (buffer_bat s)) (λ ws s, s <| buffer_bat := of_words ws |>).

(** tfs_direntry_t: an inode number and a name. *)
Definition md_inode (i : Z) : T Z := fun s => oread (ld32 (buffer_md s) (SIZEOF_DIRENTRY * i)) s.
Definition md_set_inode (i v : Z) : T unit := fun s =>
  match st32 (buffer_md s) (SIZEOF_DIRENTRY * i) v with
  | Some md => Done tt (s <| buffer_md := md |>)
  | None => Fault
  end.
Definition entry_name (md : list Z) (i : Z) : list Z := drop (Z.to_nat (SIZEOF_DIRENTRY * i + 4)) md.
Definition md_stringcmp (i : Z) (filename : list Z) : T Z := fun s =>
  oread (stringcmp (entry_name (buffer_md s) i) filename) s.
(** [stringcopy] to the name of entry [i], [set_name0] for [name[0] = 0]. *)
Definition md_set_name (i : Z) (filename : list Z) : T unit := fun s =>
  match stringcopy (slice (buffer_md s) (SIZEOF_DIRENTRY * i + 4) TFS_FILENAME_MAX) filename TFS_FILENAME_MAX with
  | Some name => Done tt (s <| buffer_md := splice (buffer_md s) (SIZEOF_DIRENTRY * i + 4) name |>)
  | None => Fault
  end.
Definition md_clear_name (i : Z) : T unit := fun s =>
  match arr_set (buffer_md s) (SIZEOF_DIRENTRY * i + 4) 0 with
  | Some md => Done tt (s <| buffer_md := md |>)
  | None => Fault
  end.

(** tfs_inode_t: the size and the block numbers. *)
Definition inode_filesize : T Z := fun s => oread (ld32 (buffer_inode s) 0) s.
Definition inode_block (i : Z) : T Z := fun s => oread (ld32 (buffer_inode s) (4 * (i + 1))) s.
Definition inode_set (i v : Z) : T unit := fun s =>
  match st32 (buffer_inode s) (4 * i) v with
  | Some b => Done tt (s <| buffer_inode := b |>)
  | None => Fault
  end.

(** ** Disk requests *)

Definition read_block (buf : lens tfs_t (list Z)) (b : Z) : T Z := fun s =>
  let '(r, l, d) := gbd_read_block b (lget buf s) (disk s) in
  Done r ((lset buf l s) <| disk := d |>).
Definition write_block (buf : lens tfs_t (list Z)) (b : Z) : T Z := fun s =>
  let '(r, d) := gbd_write_block b (lget buf s) (disk s) in
  Done r (s <| disk := d |>).

(** The end of every operation: give the lock back and return. *)
Definition unlock {A} (r : A) : T A := sem_V #lock;; mret r.

(** memcopy between a buffer and the caller's memory: [n <= 0] copies nothing. *)
Definition obj_copy (n : Z) (dst : list Z) (d : Z) (src : list Z) (s : Z) : option (list Z) :=
  if decide (n ≤ 0) then Some dst
  else if decide (0 ≤ d ∧ d + n ≤ Z.of_nat (length dst) ∧ 0 ≤ s ∧ s + n ≤ Z.of_nat (length src))
  then Some (splice dst d (slice src s n)) else None.

(** ** Open, close *)

Definition tfs_open (filename : list Z) : T Z :=
  sem_P #lock;;
  r ← read_block #buffer_md TFS_DIRECTORY_BLOCK;
  if decide (r = 0) then unlock VFS_ERROR else
  found ← find_loop (Z.to_nat TFS_MAX_FILES) 0 (λ i,
    c ← md_stringcmp i filename; mret (bool_decide (c = 0)));
  match found with
  | Some i => sem_V #lock;; inode ← md_inode i; mret (i32 inode)
  | None => unlock VFS_NOT_FOUND
  end.

Definition tfs_close (fileid : Z) : T Z := mret VFS_OK.

(** ** Create *)

(** The directory loop: [None] when the name exists, otherwise the last free
    entry, -1 if there is none. *)
Fixpoint create_scan (n : nat) (i index : Z) (filename : list Z) : T (option Z) :=
  match n with
  | O => mret (Some index)
  | S n' =>
    c ← md_stringcmp i filename;
    if decide (c = 0) then mret None else
    inode ← md_inode i;
    create_scan n' (i + 1) (if decide (inode = 0) then i else index) filename
  end.

(** The blocks [i ..] of the file; false when the disk is full. *)
Fixpoint alloc_blocks (n : nat) (i : Z) : T bool :=
  match n with
  | O => mret true
  | S n' =>
    total ← gets totalblocks;
    r ← zoom bat_words (bitmap_findnset total);
    inode_set (i + 1) (u32 r);;
    b ← inode_block i;
    if decide (i32 b = -1) then mret false else alloc_blocks n' (i + 1)
  end.

(** Zeros for the data blocks [i ..]; false when a request fails. *)
Fixpoint zero_blocks (n : nat) (i : Z) : T bool :=
  match n with
  | O => mret true
  | S n' =>
    b ← inode_block i;
    r ← write_block #buffer_bat b;
    if decide (r = 0) then mret false else zero_blocks n' (i + 1)
  end.

Definition tfs_create (filename : list Z) (size : Z) : T Z :=
  let numblocks := u32 (Z.quot (i32 (size + TFS_BLOCK_SIZE - 1)) TFS_BLOCK_SIZE) in
  sem_P #lock;;
  if decide (TFS_BLOCK_SIZE / 4 - 1 < numblocks) then unlock VFS_ERROR else
  r ← read_block #buffer_md TFS_DIRECTORY_BLOCK;
  if decide (r = 0) then unlock VFS_ERROR else
  scan ← create_scan (Z.to_nat TFS_MAX_FILES) 0 (-1) filename;
  match scan with
  | None => unlock VFS_ERROR
  | Some index =>
    if decide (index = -1) then unlock VFS_ERROR else
    md_set_name index filename;;
    r ← read_block #buffer_bat TFS_ALLOCATION_BLOCK;
    if decide (r = 0) then unlock VFS_ERROR else
    total ← gets totalblocks;
    inode ← zoom bat_words (bitmap_findnset total);
    md_set_inode index (u32 inode);;
    inode ← md_inode index;
    if decide (i32 inode = -1) then unlock VFS_ERROR else
    inode_set 0 (u32 size);;
    ok ← alloc_blocks (Z.to_nat numblocks) 0;
    if negb ok then unlock VFS_ERROR else
    for_loop (Z.to_nat (TFS_BLOCKS_MAX - numblocks)) numblocks (λ i, inode_set (i + 1) 0);;
    r ← write_block #buffer_bat TFS_ALLOCATION_BLOCK;
    if decide (r = 0) then unlock VFS_ERROR else
    r ← write_block #buffer_md TFS_DIRECTORY_BLOCK;
    if decide (r = 0) then unlock VFS_ERROR else
    inode ← md_inode index;
    r ← write_block #buffer_inode inode;
    if decide (r = 0) then unlock VFS_ERROR else
    zoom #buffer_bat (memoryset 0 0 TFS_BLOCK_SIZE);;
    ok ← zero_blocks (Z.to_nat numblocks) 0;
    if negb ok then unlock VFS_ERROR else
    unlock VFS_OK
  end.

(** ** Remove *)

(** [while (block[i] != 0 && i < 127)]: the array is read before the test. *)
Fixpoint free_blocks (fuel : nat) (i : Z) : T unit :=
  match fuel with
  | O => spin
  | S fuel' =>
    b ← inode_block i;
    if decide (b ≠ 0 ∧ i < TFS_BLOCK_SIZE / 4 - 1) then
      zoom bat_words (bitmap_set (i32 b) 0);; free_blocks fuel' (i + 1)
    else mret tt
  end.

Definition tfs_remove (filename : list Z) : T Z :=
  sem_P #lock;;
  r ← read_block #buffer_md TFS_DIRECTORY_BLOCK;
  if decide (r = 0) then unlock VFS_ERROR else
  found ← find_loop (Z.to_nat TFS_MAX_FILES) 0 (λ i,
    c ← md_stringcmp i filename; mret (bool_decide (c = 0)));
  match found with
  | None => unlock VFS_NOT_FOUND
  | Some index =>
    r ← read_block #buffer_bat TFS_ALLOCATION_BLOCK;
    if decide (r = 0) then unlock VFS_ERROR else
    inode ← md_inode index;
    r ← read_block #buffer_inode inode;
    if decide (r = 0) then unlock VFS_ERROR else
    zoom bat_words (bitmap_set (i32 inode) 0);;
    free_blocks (Z.to_nat (TFS_BLOCKS_MAX + 1)) 0;;
    md_set_inode index 0;;
    md_clear_name index;;
    r ← write_block #buffer_bat TFS_ALLOCATION_BLOCK;
    if decide (r = 0) then unlock VFS_ERROR else
    r ← write_block #buffer_md TFS_DIRECTORY_BLOCK;
    if decide (r = 0) then unlock VFS_ERROR else
    unlock VFS_OK
  end.

(** ** Read and write

    The caller's buffer is an object of its own; [boff] is how far the pointer
    [buffer] has moved into it. *)

(** The loop over the blocks after the first: the answer ([None] for an error)
    and the caller's buffer. *)
Fixpoint read_loop (fuel : nat) (b1 b2 read bufsize boff : Z) (buffer : list Z) : T (option Z * list Z) :=
  match fuel with
  | O => spin
  | S fuel' =>
    if decide (b1 ≤ b2) then
      b ← inode_block b1;
      r ← read_block #buffer_bat b;
      if decide (r = 0) then mret (None, buffer) else
      bat ← gets buffer_bat;
      if decide (b1 = b2) then
        buffer ← oread (obj_copy (bufsize - read) buffer boff bat 0);
        read_loop fuel' (b1 + 1) b2 (read + (bufsize - read)) bufsize boff buffer
      else
        buffer ← oread (obj_copy TFS_BLOCK_SIZE buffer boff bat 0);
        read_loop fuel' (b1 + 1) b2 (read + TFS_BLOCK_SIZE) bufsize (boff + TFS_BLOCK_SIZE) buffer
    else mret (Some read, buffer)
  end.

Definition io_fuel : nat := 130.

Definition tfs_read (fileid : Z) (buffer : list Z) (bufsize offset : Z) : T (Z * list Z) :=
  sem_P #lock;;
  total ← gets totalblocks;
  if decide (fileid < 2 ∨ i32 total < fileid) then unlock (VFS_ERROR, buffer) else
  r ← read_block #buffer_inode fileid;
  if decide (r = 0) then unlock (VFS_ERROR, buffer) else
  filesize ← inode_filesize;
  if decide (offset < 0 ∨ i32 filesize < offset) then unlock (VFS_ERROR, buffer) else
  let bufsize := Z.min bufsize (i32 filesize - offset) in
  if decide (bufsize = 0) then unlock (0, buffer) else
  let b1 := Z.quot offset TFS_BLOCK_SIZE in
  let b2 := Z.quot (offset + bufsize - 1) TFS_BLOCK_SIZE in
  b ← inode_block b1;
  r ← read_block #buffer_bat b;
  if decide (r = 0) then unlock (VFS_ERROR, buffer) else
  let read := Z.min (TFS_BLOCK_SIZE - Z.rem offset TFS_BLOCK_SIZE) bufsize in
  bat ← gets buffer_bat;
  buffer ← oread (obj_copy read buffer 0 bat (Z.rem offset TFS_BLOCK_SIZE));
  x ← read_loop io_fuel (b1 + 1) b2 read bufsize read buffer;
  match x with
  | (None, buffer) => unlock (VFS_ERROR, buffer)
  | (Some read, buffer) => unlock (read, buffer)
  end.

(** One data block from the caller's buffer into [buffer_bat] and to the disk. *)
Fixpoint write_loop (fuel : nat) (b1 b2 written datasize boff : Z) (buffer : list Z) : T (option Z) :=
  match fuel with
  | O => spin
  | S fuel' =>
    if decide (b1 ≤ b2) then
      if decide (b1 = b2) then
        ok ← (if decide (datasize - written < TFS_BLOCK_SIZE) then
                b ← inode_block b1; r ← read_block #buffer_bat b; mret (negb (bool_decide (r = 0)))
              else mret true);
        if negb ok then mret None else
        bat ← gets buffer_bat;
        bat ← oread (obj_copy (datasize - written) bat 0 buffer boff);
        modify (λ s, s <| buffer_bat := bat |>);;
        b ← inode_block b1;
        r ← write_block #buffer_bat b;
        if decide (r = 0) then mret None else
        write_loop fuel' (b1 + 1) b2 datasize datasize boff buffer
      else
        bat ← gets buffer_bat;
        bat ← oread (obj_copy TFS_BLOCK_SIZE bat 0 buffer boff);
        modify (λ s, s <| buffer_bat := bat |>);;
        b ← inode_block b1;
        r ← write_block #buffer_bat b;
        if decide (r = 0) then mret None else
        write_loop fuel' (b1 + 1) b2 (written + TFS_BLOCK_SIZE) datasize (boff + TFS_BLOCK_SIZE) buffer
    else mret (Some written)
  end.

Definition tfs_write (fileid : Z) (buffer : list Z) (datasize offset : Z) : T Z :=
  sem_P #lock;;
  total ← gets totalblocks;
  if decide (fileid < 2 ∨ i32 total < fileid) then unlock VFS_ERROR else
  r ← read_block #buffer_inode fileid;
  if decide (r = 0) then unlock VFS_ERROR else
  filesize ← inode_filesize;
  if decide (offset < 0 ∨ i32 filesize < offset) then unlock VFS_ERROR else
  let datasize := Z.min datasize (i32 filesize - offset) in
  if decide (datasize = 0) then unlock 0 else
  let b1 := Z.quot offset TFS_BLOCK_SIZE in
  let b2 := Z.quot (offset + datasize - 1) TFS_BLOCK_SIZE in
  let written := Z.min (TFS_BLOCK_SIZE - Z.rem offset TFS_BLOCK_SIZE) datasize in
  ok ← (if decide (written < TFS_BLOCK_SIZE) then
          b ← inode_block b1; r ← read_block #buffer_bat b; mret (negb (bool_decide (r = 0)))
        else mret true);
  if negb ok then unlock VFS_ERROR else
  bat ← gets buffer_bat;
  bat ← oread (obj_copy written bat (Z.rem offset TFS_BLOCK_SIZE) buffer 0);
  modify (λ s, s <| buffer_bat := bat |>);;
  b ← inode_block b1;
  r ← write_block #buffer_bat b;
  if decide (r = 0) then unlock VFS_ERROR else
  x ← write_loop io_fuel (b1 + 1) b2 written datasize written buffer;
  match x with
  | None => unlock VFS_ERROR
  | Some written => unlock written
  end.

(** ** Free space and directory listing *)

Fixpoint count_allocated (n : nat) (i allocated : Z) : T Z :=
  match n with
  | O => mret allocated
  | S n' =>
    b ← zoom bat_words (bitmap_get i);
    count_allocated n' (i + 1) (allocated + b)
  end.

Definition tfs_getfree : T Z :=
  sem_P #lock;;
  r ← read_block #buffer_bat TFS_ALLOCATION_BLOCK;
  if decide (r = 0) then unlock VFS_ERROR else
  total ← gets totalblocks;
  allocated ← count_allocated (Z.to_nat total) 0 0;
  unlock (i32 ((total - allocated) * TFS_BLOCK_SIZE)).

Fixpoint count_files (n : nat) (i filecount : Z) : T Z :=
  match n with
  | O => mret filecount
  | S n' =>
    inode ← md_inode i;
    count_files n' (i + 1) (if decide (inode ≠ 0) then filecount + 1 else filecount)
  end.

Definition tfs_filecount : T Z :=
  sem_P #lock;;
  r ← read_block #buffer_md TFS_DIRECTORY_BLOCK;
  if decide (r = 0) then unlock VFS_ERROR else
  filecount ← count_files (Z.to_nat TFS_MAX_FILES) 0 0;
  unlock filecount.

(** The entry at which the loop of tfs_file ends. *)
Fixpoint skip_files (n : nat) (i i2 index : Z) : T Z :=
  match n with
  | O => mret i
  | S n' =>
    if decide (i2 < index) then
      inode ← md_inode i;
      skip_files n' (i + 1) (if decide (inode ≠ 0) then i2 + 1 else i2) index
    else mret i
  end.

Definition tfs_file (index : Z) (buffer : list Z) : T (Z * list Z) :=
  sem_P #lock;;
  r ← read_block #buffer_md TFS_DIRECTORY_BLOCK;
  if decide (r = 0) then unlock (VFS_ERROR, buffer) else
  i ← skip_files (Z.to_nat TFS_MAX_FILES) 0 0 index;
  if negb (bool_decide (i < TFS_MAX_FILES)) then unlock (-1, buffer) else
  md ← gets buffer_md;
  buffer ← oread (stringcopy buffer (entry_name md i) VFS_NAME_LENGTH);
  unlock (0, buffer).

(** ** Mount and unmount

    What tfs_init takes from the kernel: free semaphores and free pages, as
    [Semaphore] and [Pagepool] specify them, the page's old contents, and the
    disk. *)
Record mount_env := MountEnv {
  free_sems : list Z; free_pages : list Z; page_bytes : list Z; env_disk : D }.
#[global] Instance eta_env : Eta mount_env := fun e =>
  MountEnv (free_sems e) (free_pages e) (page_bytes e) (env_disk e).

(** A mounted volume: fs_t. *)
Record fs_t := FsT { volume_name : list Z; fs_page : Z; internal : tfs_t }.
#[global] Instance eta_fs : Eta fs_t := fun f => FsT (volume_name f) (fs_page f) (internal f).

Definition env_sem_create : M mount_env (option Z) := fun e =>
  match free_sems e with
  | [] => Done None e
  | s :: rest => Done (Some s) (e <| free_sems := rest |>)
  end.
Definition env_sem_destroy (s : Z) : M mount_env unit := modify (λ e, e <| free_sems := s :: free_sems e |>).
Definition env_get_page : M mount_env Z := fun e =>
  match free_pages e with
  | [] => Done 0 e
  | p :: rest => Done p (e <| free_pages := rest |>)
  end.
Definition env_free_page (p : Z) : M mount_env unit := modify (λ e, e <| free_pages := p :: free_pages e |>).

Definition SIZEOF_FS : Z := 60.
Definition SIZEOF_TFS : Z := 24.
Definition PAGE_SIZE : Z := 4096.

(** The header block is read to the start of the page. *)
Definition read_header : M mount_env Z := fun e =>
  let '(r, l, d) := gbd_read_block 0 (slice (page_bytes e) 0 TFS_BLOCK_SIZE) (env_disk e) in
  Done r (e <| page_bytes := splice (page_bytes e) 0 l |> <| env_disk := d |>).

Definition tfs_init : M mount_env (option fs_t) :=
  d ← gets env_disk;
  if decide (gbd_block_size d ≠ TFS_BLOCK_SIZE) then mret None else
  s ← env_sem_create;
  match s with
  | None => mret None
  | Some sem =>
    addr ← env_get_page;
    if decide (addr = 0) then env_sem_destroy sem;; mret None else
    kernel_assert (bool_decide (3 * TFS_BLOCK_SIZE + SIZEOF_TFS + SIZEOF_FS ≤ PAGE_SIZE));;
    r ← read_header;
    if decide (r = 0) then env_sem_destroy sem;; env_free_page addr;; mret None else
    page ← gets page_bytes;
    magic ← oread (ld32 page 0);
    if decide (magic ≠ TFS_MAGIC) then env_sem_destroy sem;; env_free_page addr;; mret None else
    name ← oread (stringcopy (replicate 16 0) (drop 4 page) TFS_VOLUMENAME_MAX);
    d ← gets env_disk;
    let buf k := slice page (SIZEOF_FS + SIZEOF_TFS + k * TFS_BLOCK_SIZE) TFS_BLOCK_SIZE in
    volume ← oread (stringcopy (slice page 4 16) name VFS_NAME_LENGTH);
    mret (Some (FsT volume addr
      (TfsT (Z.min (gbd_total_blocks d) (8 * TFS_BLOCK_SIZE)) d sem 1 (buf 0) (buf 1) (buf 2))))
  end.

(** The kernel gets the semaphore and the page back. *)
Definition release (fs : fs_t) (t : tfs_t) : M mount_env Z :=
  env_sem_destroy (lock_sem t);;
  env_free_page (fs_page fs);;
  modify (λ e, e <| env_disk := disk t |>);;
  mret VFS_OK.

Definition tfs_unmount (fs : fs_t) : M mount_env Z := fun e =>
  match sem_P #lock (internal fs) with
  | Done _ t => release fs t e
  | _ => Blocked e (release fs (internal fs))
  end.
End tfs.
End Tfs.
