(* ===== verification/TfsFile.v ===== *)
(** * Files of the trivial file system

    The contents of a file as a list of bytes, and the theorems that tfs_read
    reads a part of it and tfs_write changes a part of it, for a disk that
    keeps the promises of [Sync.GbdLaws]. *)
From S2P Require Import Prelude Bytes Libc Bitmap Sync Tfs.
Import Libc Bitmap Tfs.

Module TfsFile.

Section file.
Context {D : Type} `{Gbd D} `{!GbdLaws D} (works : D → Prop) `{!GbdReliable D works}.
Abbreviation tfs := (tfs_t (D := D)).

(** ** Blocks *)

Definition buf_ok (l : list Z) : Prop := length l = 512%nat ∧ bytes_ok l.

(** A volume whose disk works. *)
Record mounted (s : tfs) : Prop := {
  mt_inode : buf_ok (buffer_inode s);
  mt_bat : buf_ok (buffer_bat s);
  mt_md : buf_ok (buffer_md s);
  mt_size : gbd_block_size (disk s) = 512;
  mt_total : 0 ≤ totalblocks s ≤ 4096 ∧ totalblocks s ≤ gbd_total_blocks (disk s);
  mt_works : works (disk s) }.

(** The contents of the disk. *)
Definition image (s : tfs) : Z → list Z := gbd_block (disk s).

Lemma image_ok s b : mounted s → buf_ok (image s b).
Proof.
  intros Hm. destruct (gbd_block_ok (disk s) b) as [Hl Hb]. split; [|done].
  unfold image. rw Hl (mt_size _ Hm). done.
Qed.

(** The three buffers. *)
Inductive is_buffer : lens tfs (list Z) → Prop :=
| is_inode : is_buffer #buffer_inode
| is_bat : is_buffer #buffer_bat
| is_md : is_buffer #buffer_md.

Lemma buffer_ok buf s : is_buffer buf → mounted s → buf_ok (lget buf s).
Proof. intros [] []; done. Qed.

(** [s'] differs from [s] in the state of the disk only, and the disk has the
    contents [img]. *)
Record disk_step (s s' : tfs) (img : Z → list Z) : Prop := {
  ds_same : ∃ d, s' = s <| disk := d |>;
  ds_image b : image s' b = img b;
  ds_mounted : mounted s' }.

Lemma mounted_set buf s l : is_buffer buf → buf_ok l → mounted s → mounted (lset buf l s).
Proof. intros [] Hl []; by constructor. Qed.

Lemma mounted_disk s d :
  mounted s → gbd_block_size d = 512 → gbd_total_blocks d = gbd_total_blocks (disk s) → works d →
  mounted (s <| disk := d |>).
Proof. intros [] H1 H2 H3. constructor; try done. cbn. by rw H2. Qed.

Lemma read_block_ok buf s b :
  is_buffer buf → mounted s → 0 ≤ b < totalblocks s →
  ∃ r s', r ≠ 0 ∧ read_block buf b s = Done r s' ∧
    disk_step (lset buf (image s b) s) s' (image s).
Proof.
  intros Hbuf Hm Hb. unfold read_block.
  destruct (gbd_read_block b (lget buf s) (disk s)) as [[r l] d] eqn:E.
  destruct (gbd_read_ok b (lget buf s) (disk s) r l d E) as (Himg & Hl & Hlen & Hby).
  pose proof (gbd_size_keeps_read b (lget buf s) (disk s)) as Hsz. rw E in Hsz.
  destruct (works_read b (lget buf s) (disk s)) as (Hr & Hw & Ht);
    [apply Hm|pose proof (mt_total _ Hm); lia|]. rw E in Hr Hw Ht. cbn in *.
  exists r. eexists. split; [done|]. split; [reflexivity|].
  specialize (Hl Hr). subst l. fold (image s b). constructor.
  - by exists d.
  - intros b'. unfold image at 1. destruct Hbuf; apply Himg.
  - apply mounted_disk; [|by rw Hsz; apply Hm| |done].
    + apply mounted_set; [done|by apply image_ok|done].
    + rw Ht. by destruct Hbuf.
Qed.

Lemma write_block_ok buf s b :
  is_buffer buf → mounted s → 0 ≤ b < totalblocks s →
  ∃ r s', r ≠ 0 ∧ write_block buf b s = Done r s' ∧
    disk_step s s' (λ b', if decide (b' = b) then lget buf s else image s b').
Proof.
  intros Hbuf Hm Hb. unfold write_block.
  destruct (gbd_write_block b (lget buf s) (disk s)) as [r d] eqn:E.
  destruct (buffer_ok buf s Hbuf Hm) as [Hlen Hby].
  destruct (gbd_write_ok b (lget buf s) (disk s) r d E) as (Hother & Himg); [by rw (mt_size _ Hm)|done|].
  pose proof (gbd_size_keeps_write b (lget buf s) (disk s)) as Hsz. rw E in Hsz.
  destruct (works_write b (lget buf s) (disk s)) as (Hr & Hw & Ht);
    [apply Hm|pose proof (mt_total _ Hm); lia|]. rw E in Hr Hw Ht. cbn in *.
  exists r. eexists. split; [done|]. split; [reflexivity|]. constructor.
  - by exists d.
  - intros b'. unfold image. cbn. case_decide as Hd; [subst; by apply Himg|by apply Hother].
  - apply mounted_disk; [done|by rw Hsz; apply Hm|done|done].
Qed.

(** ** Files *)

(** Word [k] of a block. *)
Definition word (l : list Z) (k : Z) : Z := default 0 (ld32 l (4 * k)).

Lemma ld32_word l k : buf_ok l → 0 ≤ k < 128 → ld32 l (4 * k) = Some (word l k).
Proof.
  intros [Hl Hb] Hk. unfold word. destruct (ld32_Some l (4 * k)) as (w & -> & _); [done|lia..|done].
Qed.

Lemma word_range l k : buf_ok l → 0 ≤ k < 128 → 0 ≤ word l k < 2 ^ 32.
Proof. intros Hl Hk. eapply ld32_range; [apply Hl|by apply ld32_word]. Qed.

Definition fsize (img : Z → list Z) (f : Z) : Z := word (img f) 0.
Definition fblock (img : Z → list Z) (f k : Z) : Z := word (img f) (k + 1).
Definition nblocks (size : Z) : Z := (size + 511) `div` 512.

(** The bytes of the file with inode block [f]. *)
Definition fbytes (img : Z → list Z) (f : Z) : list Z :=
  take (Z.to_nat (fsize img f)) (mjoin (map (λ k, img (fblock img f k)) (seqZ 0 (nblocks (fsize img f))))).

(** An inode behind the system blocks (0, 1 and the directory 2) whose size fits its
    table and whose blocks are on the disk. *)
Record file_ok (img : Z → list Z) (total f : Z) : Prop := {
  fo_id : 3 ≤ f < total;
  fo_size : 0 ≤ fsize img f ≤ 127 * 512;
  fo_block k : 0 ≤ k < nblocks (fsize img f) → 0 ≤ fblock img f k < total }.

(** Byte [i] of blocks of equal length laid end to end. *)
Lemma arr_get_blocks (g : Z → list Z) n lo i :
  (∀ k, length (g k) = 512%nat) → 0 ≤ i < 512 * Z.of_nat n →
  arr_get (mjoin (map g (seqZ lo (Z.of_nat n)))) i = arr_get (g (lo + i `div` 512)) (i `mod` 512).
Proof.
  intros Hg. revert lo i. induction n as [|n IH]; intros lo i Hi; [lia|].
  rw seqZ_cons; [lia|]. simpl. rw arr_get_app; [lia|]. rw Hg. case_decide as Hd.
  - rw Z.div_small; [lia|]. rw Z.mod_small; [lia|]. by rw Z.add_0_r.
  - replace (Z.pred (Z.of_nat (S n))) with (Z.of_nat n) by lia. rw IH; [lia|].
    replace i with (i - 512 + 1 * 512) at 3 4 by lia. rw Z.div_add // Z_mod_plus_full. do 2 f_equal. lia.
Qed.

Lemma length_blocks (g : Z → list Z) n lo :
  (∀ k, length (g k) = 512%nat) → length (mjoin (map g (seqZ lo (Z.of_nat n)))) = (512 * n)%nat.
Proof.
  intros Hg. revert lo. induction n as [|n IH]; intros lo; [done|].
  rw seqZ_cons; [lia|]. simpl. rw length_app Hg. replace (Z.pred (Z.of_nat (S n))) with (Z.of_nat n) by lia.
  rw IH. lia.
Qed.

Definition img_ok (img : Z → list Z) : Prop := ∀ b, buf_ok (img b).

Lemma nblocks_le size : 0 ≤ size → size ≤ 512 * nblocks size < size + 512.
Proof. unfold nblocks. intros. zdm. Qed.

Lemma nblocks_index size i : 0 ≤ i < size → 0 ≤ i `div` 512 < nblocks size.
Proof. unfold nblocks. intros. zdm. Qed.

Lemma length_fbytes img f : img_ok img → 0 ≤ fsize img f → length (fbytes img f) = Z.to_nat (fsize img f).
Proof.
  intros Hi Hs. unfold fbytes. rw length_take. pose proof (nblocks_le _ Hs).
  replace (nblocks (fsize img f)) with (Z.of_nat (Z.to_nat (nblocks (fsize img f)))) by lia.
  rw length_blocks; [intros k; apply Hi|]. lia.
Qed.

Lemma arr_get_fbytes img f i :
  img_ok img → 0 ≤ i < fsize img f →
  arr_get (fbytes img f) i = arr_get (img (fblock img f (i `div` 512))) (i `mod` 512).
Proof.
  intros Hi Hr. pose proof (nblocks_le (fsize img f) ltac:(lia)) as Hn. unfold fbytes.
  unfold arr_get at 1. rw decide_True; [lia|]. rw lookup_take_lt; [lia|].
  replace (nblocks (fsize img f)) with (Z.of_nat (Z.to_nat (nblocks (fsize img f)))) by lia.
  pose proof (arr_get_blocks (λ k, img (fblock img f k)) (Z.to_nat (nblocks (fsize img f))) 0 i) as Hb.
  unfold arr_get at 1 in Hb. rw decide_True in Hb; [lia|]. rw Hb; [intros k; apply Hi|lia|done].
Qed.

(** A part of a data block is a part of the file. *)
Lemma slice_block img f k j n :
  img_ok img → 0 ≤ k → 0 ≤ j → 0 ≤ n → j + n ≤ 512 → 512 * k + j + n ≤ fsize img f →
  slice (img (fblock img f k)) j n = slice (fbytes img f) (512 * k + j) n.
Proof.
  intros Hi Hk Hj Hn Hjn Hsz. apply arr_ext. intros i Hi0.
  assert (length (img (fblock img f k)) = 512%nat) as Hl by apply Hi.
  pose proof (length_fbytes img f Hi ltac:(lia)) as Hlf.
  destruct (decide (i < n)) as [Hin|Hin].
  - rw !arr_get_slice; [lia..|]. rw arr_get_fbytes; [done|lia|]. f_equal.
    + do 2 f_equal. zdm.
    + zdm.
  - transitivity (@None Z); [|symmetry]; apply arr_get_None; rw length_slice; lia.
Qed.

(** ** tfs_read *)

Lemma obj_copy_ok n dst d src s :
  0 ≤ n → 0 ≤ d → d + n ≤ Z.of_nat (length dst) → 0 ≤ s → s + n ≤ Z.of_nat (length src) →
  obj_copy n dst d src s = Some (splice dst d (slice src s n)).
Proof.
  intros. unfold obj_copy. case_decide as Hn.
  - assert (n = 0) as -> by lia. f_equal. unfold slice, splice. simpl. by rw Nat.add_0_r take_drop.
  - by rw decide_True.
Qed.

Lemma inode_block_run s k :
  mounted s → 0 ≤ k < 127 → inode_block k s = Done (word (buffer_inode s) (k + 1)) s.
Proof. intros Hm Hk. unfold inode_block. rw ld32_word; [apply Hm|lia|done]. Qed.

(** The buffer after [n] bytes of the file from [offset] on. *)
Definition filled (buffer : list Z) (bytes : list Z) (offset n : Z) : list Z :=
  splice buffer 0 (slice bytes offset n).

Lemma filled_more buffer bytes offset n k :
  0 ≤ offset → 0 ≤ n → 0 ≤ k → offset + n + k ≤ Z.of_nat (length bytes) →
  n + k ≤ Z.of_nat (length buffer) →
  splice (filled buffer bytes offset n) n (slice bytes (offset + n) k) = filled buffer bytes offset (n + k).
Proof.
  intros. unfold filled. rw slice_app; [lia..|].
  assert (length (slice bytes offset n) = Z.to_nat n) as L1 by (apply length_slice; lia).
  assert (length (slice bytes (offset + n) k) = Z.to_nat k) as L2 by (apply length_slice; lia).
  rw -splice_app; [lia|lia|]. f_equal. lia.
Qed.

Lemma length_filled buffer bytes offset n :
  0 ≤ offset → 0 ≤ n → offset + n ≤ Z.of_nat (length bytes) → n ≤ Z.of_nat (length buffer) →
  length (filled buffer bytes offset n) = length buffer.
Proof.
  intros. unfold filled. apply length_splice; [lia|]. rw length_slice; lia.
Qed.

(** The state while a file is read: only the disk and the data buffer change. *)
Record reading (s s' : tfs) (f : Z) : Prop := {
  rd_mounted : mounted s';
  rd_lock : lock s' = lock s;
  rd_total : totalblocks s' = totalblocks s;
  rd_image b : image s' b = image s b;
  rd_inode : buffer_inode s' = image s f }.

Lemma read_data s s1 f k :
  reading s s1 f → file_ok (image s) (totalblocks s) f → 0 ≤ k < nblocks (fsize (image s) f) →
  ∃ r s2, r ≠ 0 ∧ inode_block k s1 = Done (fblock (image s) f k) s1 ∧
    read_block #buffer_bat (fblock (image s) f k) s1 = Done r s2 ∧ reading s s2 f ∧
    buffer_bat s2 = image s (fblock (image s) f k).
Proof.
  intros [R1 R2 R3 R4 R5] [F1 F2 F3] Hk.
  assert (k < 127) as Hk' by (unfold nblocks in Hk; zdm).
  destruct (read_block_ok #buffer_bat s1 (fblock (image s) f k) is_bat R1) as (r & s2 & Hr & Hrun & [[d Hd] Hi Hm]);
    [rw R3; pose proof (F3 k Hk); lia|].
  exists r, s2. split; [done|]. split; [|split; [done|split]].
  - rw inode_block_run; [done|lia|]. by rw R5.
  - subst s2. constructor; try done. intros b. by rw Hi R4.
  - subst s2. cbn. by rw R4.
Qed.

Lemma read_loop_ok fuel s s1 f offset bufsize read buffer :
  img_ok (image s) → file_ok (image s) (totalblocks s) f → reading s s1 f →
  0 ≤ offset → 0 < read ≤ bufsize → offset + bufsize ≤ fsize (image s) f →
  bufsize ≤ Z.of_nat (length buffer) →
  (read = bufsize ∧ (offset + bufsize - 1) `div` 512 < (offset + read - 1) `div` 512 + 1 ∨
   (offset + read) `mod` 512 = 0) →
  (Z.to_nat ((offset + bufsize - 1) `div` 512 - (offset + read - 1) `div` 512) < fuel)%nat →
  ∃ s2, read_loop fuel ((offset + read - 1) `div` 512 + 1) ((offset + bufsize - 1) `div` 512) read bufsize read
      (filled buffer (fbytes (image s) f) offset read) s1 =
    Done (Some bufsize, filled buffer (fbytes (image s) f) offset bufsize) s2 ∧ reading s s2 f.
Proof.
  intros Himg Hf. pose proof Hf as [F1 F2 F3].
  pose proof (length_fbytes _ _ Himg (proj1 F2)) as Hlen.
  revert s1 read. induction fuel as [|fuel IH]; intros s1 read Hrd Ho Hr Hsz Hbuf Hal Hfuel; [lia|].
  cbn [read_loop]. destruct (decide ((offset + read - 1) `div` 512 + 1 ≤ (offset + bufsize - 1) `div` 512)) as [Hle|Hle].
  - assert ((offset + read) `mod` 512 = 0) as Hmod by (destruct Hal as [[-> ?]|]; [lia|done]).
    set (k := (offset + read - 1) `div` 512 + 1) in *.
    assert (512 * k = offset + read) as Hk by (unfold k; zdm).
    assert (0 ≤ k < nblocks (fsize (image s) f)) as Hkn by (unfold nblocks; zdm).
    destruct (read_data s s1 f k Hrd Hf Hkn) as (r & s2 & Hr0 & Hib & Hrb & Hrd2 & Hbat).
    rw (bind_Done _ _ _ _ _ Hib) (bind_Done _ _ _ _ _ Hrb). rw decide_False //. rw bind_gets Hbat.
    assert (length (image s (fblock (image s) f k)) = 512%nat) as Hl by apply Himg.
    pose proof (length_filled buffer (fbytes (image s) f) offset read Ho ltac:(lia) ltac:(lia) ltac:(lia)) as Hlf.
    destruct (decide (k = (offset + bufsize - 1) `div` 512)) as [Hlast|Hlast].
    + rw obj_copy_ok; [zdm|lia|lia|lia|rw Hl; zdm|]. rw bind_oread.
      rw (slice_block _ f k); [done|zdm|lia|zdm|zdm|lia|].
      replace (512 * k + 0) with (offset + read) by lia. rw filled_more; [lia|lia|zdm|lia|lia|].
      replace (read + (bufsize - read)) with bufsize by lia. exists s2. split; [|done].
      destruct fuel as [|fuel]; [lia|]. cbn [read_loop]. rw decide_False //. lia.
    + assert (512 ≤ bufsize - read) as Hfull by zdm.
      unfold TFS_BLOCK_SIZE. rw obj_copy_ok; [lia|lia|lia|lia|rw Hl; lia|]. rw bind_oread.
      rw (slice_block _ f k); [done|zdm|lia..|].
      replace (512 * k + 0) with (offset + read) by lia. rw filled_more; [lia..|].
      replace (k + 1) with ((offset + (read + 512) - 1) `div` 512 + 1) by zdm.
      apply IH; [done|lia|lia|lia|lia|right; zdm|]. unfold k in *. zdm.
  - exists s1. split; [|done]. assert (read = bufsize) as -> by (destruct Hal as [[]|]; [done|zdm]). done.
Qed.

Lemma reading_lock s s1 f x : reading s s1 f → reading (s <| lock := x |>) (s1 <| lock := x |>) f.
Proof. intros [[] R2 R3 R4 R5]. by constructor. Qed.

Lemma mounted_lock s x : mounted s → mounted (s <| lock := x |>).
Proof. intros []. by constructor. Qed.

(** Reading the inode block at the start of an operation. *)
Lemma read_inode_ok s f :
  mounted s → file_ok (image s) (totalblocks s) f →
  ∃ r s1, r ≠ 0 ∧ read_block #buffer_inode f s = Done r s1 ∧ reading s s1 f ∧
    inode_filesize s1 = Done (fsize (image s) f) s1.
Proof.
  intros Hm [F1 F2 F3].
  destruct (read_block_ok #buffer_inode s f is_inode Hm) as (r & s1 & Hr & Hrun & [[d Hd] Hi Hm1]); [lia|].
  exists r, s1. split; [done|]. split; [done|]. assert (reading s s1 f) as Hrd by (subst s1; by constructor).
  split; [done|]. unfold inode_filesize. rw (rd_inode _ _ _ Hrd).
  rw (ld32_word _ 0); [by apply image_ok|lia|done].
Qed.

Lemma i32_fsize img total f : file_ok img total f → i32 (fsize img f) = fsize img f.
Proof. intros [_ ? _]. apply i32_small. lia. Qed.

Lemma tfs_read_run s f buffer bufsize offset :
  mounted s → 0 < lock s → file_ok (image s) (totalblocks s) f →
  0 ≤ offset ≤ fsize (image s) f → 0 ≤ bufsize ≤ Z.of_nat (length buffer) →
  let n := Z.min bufsize (fsize (image s) f - offset) in
  ∃ s', tfs_read f buffer bufsize offset s =
      Done (n, filled buffer (fbytes (image s) f) offset n) s' ∧ reading s s' f.
Proof.
  intros Hm Hlk Hf Ho Hb n. pose proof Hf as [F1 F2 F3]. unfold tfs_read. rw bind_sem_P //.
  set (s0 := lset #lock _ s). assert (mounted s0) as Hm0 by by apply mounted_lock.
  rw bind_gets. change (totalblocks s0) with (totalblocks s).
  pose proof (mt_total _ Hm) as Ht. rw i32_small; [lia|]. rw decide_False; [lia|].
  destruct (read_inode_ok s0 f Hm0 Hf) as (r & s1 & Hr & Hrun & Hrd & Hfs).
  rw (bind_Done _ _ _ _ _ Hrun) decide_False //. rw (bind_Done _ _ _ _ _ Hfs).
  change (image s0) with (image s) in *. rw (i32_fsize _ _ _ Hf). rw decide_False; [lia|]. fold n.
  assert (∀ s1, reading s0 s1 f → reading s (s1 <| lock := lock s1 + 1 |>) f) as Hdone.
  { intros s2 [[] R2 R3 R4 R5]. constructor; [by constructor| |done..].
    change (lock s2 + 1 = lock s). rw R2. change (lock s - 1 + 1 = lock s). lia. }
  case_decide as Hn.
  - exists (s1 <| lock := lock s1 + 1 |>). split; [|by apply Hdone].
    unfold unlock. rw bind_sem_V Hn. done.
  - rw !Z.quot_div_nonneg; [unfold TFS_BLOCK_SIZE; lia..|]. rw !Z.rem_mod_nonneg; [unfold TFS_BLOCK_SIZE; lia..|].
    unfold TFS_BLOCK_SIZE. assert (0 ≤ offset `div` 512 < nblocks (fsize (image s0) f)) as Hb1
      by (apply nblocks_index; unfold n in Hn; change (image s0) with (image s); lia).
    destruct (read_data s0 s1 f _ Hrd Hf Hb1) as (r2 & s2 & Hr2 & Hib & Hrb & Hrd2 & Hbat).
    rw (bind_Done _ _ _ _ _ Hib) (bind_Done _ _ _ _ _ Hrb) decide_False // bind_gets Hbat.
    change (image s0) with (image s) in *.
    assert (length (image s (fblock (image s) f (offset `div` 512))) = 512%nat) as Hl by by apply image_ok.
    assert (img_ok (image s)) as Himg by (intros b; by apply image_ok).
    set (k := Z.min (512 - offset `mod` 512) n).
    assert (0 < k ≤ n) as Hk by (unfold k; zdm).
    rw obj_copy_ok; [lia|lia|lia|zdm|rw Hl; unfold k; zdm|]. rw bind_oread.
    rw (slice_block _ f (offset `div` 512)); [done|zdm|zdm|lia|unfold k; zdm|unfold k; zdm|].
    replace (512 * offset `div` 512 + offset `mod` 512) with offset by zdm.
    fold (filled buffer (fbytes (image s) f) offset k).
    replace (offset `div` 512 + 1) with ((offset + k - 1) `div` 512 + 1) by (unfold k; zdm).
    destruct (read_loop_ok io_fuel s0 s2 f offset n k buffer) as (s3 & Hloop & Hrd3);
      [done|done|done|lia|lia|change (image s0) with (image s); lia|lia| | |].
    + destruct (decide (k = n)) as [E|E]; [left; rw E; lia|right]. unfold k in *. zdm.
    + unfold io_fuel. change (image s0) with (image s) in *. zdm.
    + change (image s0) with (image s) in Hloop. rw (bind_Done _ _ _ _ _ Hloop).
      unfold unlock. rw bind_sem_V. eexists. split; [reflexivity|]. by apply Hdone.
Qed.

(** Tfs_read on an open file, with the lock free and a disk that
    works, reads the bytes of the file from the offset on, as many as asked for
    or as the file has left, into the start of the caller's buffer, leaves the
    rest of the buffer and the whole disk as they were, and gives the lock back. *)
Theorem tfs_read_reads_file s f buffer bufsize offset :
  mounted s → 0 < lock s → file_ok (image s) (totalblocks s) f →
  0 ≤ offset ≤ fsize (image s) f → 0 ≤ bufsize ≤ Z.of_nat (length buffer) →
  let n := Z.min bufsize (fsize (image s) f - offset) in
  ∃ s', tfs_read f buffer bufsize offset s =
      Done (n, splice buffer 0 (slice (fbytes (image s) f) offset n)) s' ∧
    mounted s' ∧ lock s' = lock s ∧ ∀ b, image s' b = image s b.
Proof.
  intros Hm Hlk Hf Ho Hb n.
  destruct (tfs_read_run s f buffer bufsize offset Hm Hlk Hf Ho Hb) as (s' & Hrun & [R1 R2 R3 R4 R5]).
  by exists s'.
Qed.

(** ** tfs_write *)

(** The blocks of the file are different from each other and from its inode. *)
Record file_sep (img : Z → list Z) (f : Z) : Prop := {
  fs_inj k k' : 0 ≤ k < nblocks (fsize img f) → 0 ≤ k' < nblocks (fsize img f) →
    fblock img f k = fblock img f k' → k = k';
  fs_inode k : 0 ≤ k < nblocks (fsize img f) → fblock img f k ≠ f }.

(** [b] holds no data of the file. *)
Definition outside (img : Z → list Z) (f b : Z) : Prop :=
  ∀ k, 0 ≤ k < nblocks (fsize img f) → b ≠ fblock img f k.

(** Writing a part of one block writes that part of the file. *)
Lemma fbytes_update img img' f k j l :
  img_ok img → img_ok img' → file_sep img f → 0 ≤ k → 0 ≤ j → j + Z.of_nat (length l) ≤ 512 → l ≠ [] →
  512 * k + j + Z.of_nat (length l) ≤ fsize img f →
  (∀ b, img' b = if decide (b = fblock img f k) then splice (img b) j l else img b) →
  fbytes img' f = splice (fbytes img f) (512 * k + j) l.
Proof.
  intros Hi Hi' [Hinj Hino] Hk Hj Hjl Hl Hsz Himg'.
  assert (0 < Z.of_nat (length l)) as Hl0 by (destruct l; [done|simpl; lia]).
  assert (0 ≤ k < nblocks (fsize img f)) as Hkn.
  { pose proof (nblocks_index (fsize img f) (512 * k + j) ltac:(lia)). zdm. }
  assert (img' f = img f) as Hf by (rw Himg' decide_False //; intros E; by apply (Hino k Hkn)).
  assert (fsize img' f = fsize img f) as Hs by (unfold fsize; by rw Hf).
  assert (∀ i, fblock img' f i = fblock img f i) as Hb by (intros i; unfold fblock; by rw Hf).
  assert (∀ b, length (img b) = 512%nat) as H512 by (intros b; apply Hi).
  pose proof (length_fbytes img f Hi ltac:(lia)) as L1.
  pose proof (length_fbytes img' f Hi' ltac:(lia)) as L2.
  apply arr_ext. intros i Hi0. destruct (decide (i < fsize img f)) as [Hin|Hin].
  - rw arr_get_fbytes; [done|lia|]. rw Hb Himg' arr_get_splice; [lia|lia|].
    pose proof (nblocks_index (fsize img f) i ltac:(lia)) as Hin'.
    destruct (decide (fblock img f (i `div` 512) = fblock img f k)) as [E|E].
    + apply Hinj in E; [|done..]. rw arr_get_splice; [lia|rw H512; lia|].
      destruct (decide (j ≤ i `mod` 512 < j + Z.of_nat (length l))).
      * rw decide_True; [zdm|]. f_equal. zdm.
      * rw decide_False; [zdm|]. by rw arr_get_fbytes; [|lia|].
    + rw decide_False; [intros Hr; apply E; f_equal; zdm|]. by rw arr_get_fbytes; [|lia|].
  - transitivity (@None Z); [|symmetry]; apply arr_get_None; rw ?length_splice; lia.
Qed.

(** The state while [data] has been written to the file from [offset] on. *)
Record writing (s s' : tfs) (f offset : Z) (data : list Z) : Prop := {
  wr_mounted : mounted s';
  wr_lock : lock s' = lock s;
  wr_total : totalblocks s' = totalblocks s;
  wr_inode : buffer_inode s' = image s f;
  wr_other b : outside (image s) f b → image s' b = image s b;
  wr_bytes : fbytes (image s') f = splice (fbytes (image s) f) offset data }.

Lemma writing_same s s1 f offset data :
  writing s s1 f offset data → file_sep (image s) f →
  image s1 f = image s f ∧ fsize (image s1) f = fsize (image s) f ∧
  (∀ k, fblock (image s1) f k = fblock (image s) f k) ∧ file_sep (image s1) f.
Proof.
  intros [W1 W2 W3 W4 W5 W6] [S1 S2].
  assert (image s1 f = image s f) as E by (apply W5; intros k Hk Hf; by apply (S2 k Hk)).
  assert (fsize (image s1) f = fsize (image s) f) as Es by (unfold fsize; by rw E).
  assert (∀ k, fblock (image s1) f k = fblock (image s) f k) as Eb by (intros k; unfold fblock; by rw E).
  split_and!; [done..|]. constructor.
  - intros k k'. rw Es !Eb. apply S1.
  - intros k. rw Es Eb. apply S2.
Qed.

(** One block is written: [buffer_bat] is what the block held, with [l] in place. *)
Lemma write_data s s1 f offset data k j l :
  file_ok (image s) (totalblocks s) f → file_sep (image s) f → img_ok (image s) →
  writing s s1 f offset data → 0 ≤ k → 0 ≤ j → l ≠ [] → bytes_ok l →
  0 ≤ offset → 512 * k + j = offset + Z.of_nat (length data) → j + Z.of_nat (length l) ≤ 512 →
  offset + Z.of_nat (length data + length l) ≤ fsize (image s) f →
  buffer_bat s1 = splice (image s1 (fblock (image s) f k)) j l →
  ∃ r s2, r ≠ 0 ∧ write_block #buffer_bat (fblock (image s) f k) s1 = Done r s2 ∧
    writing s s2 f offset (data ++ l).
Proof.
  intros [F1 F2 F3] Hsep Himg Hwr Hk Hj Hl Hlb Ho Hkj Hjl Hsz Hbat.
  destruct (writing_same _ _ _ _ _ Hwr Hsep) as (Ef & Es & Eb & Hsep1). destruct Hwr as [W1 W2 W3 W4 W5 W6].
  assert (0 < Z.of_nat (length l)) as Hl0 by (destruct l; [done|simpl; lia]).
  assert (0 ≤ k < nblocks (fsize (image s) f)) as Hkn.
  { pose proof (nblocks_index (fsize (image s) f) (512 * k + j) ltac:(lia)). zdm. }
  destruct (write_block_ok #buffer_bat s1 (fblock (image s) f k) is_bat W1) as (r & s2 & Hr & Hrun & [[d Hd] Hi Hm]);
    [rw W3; pose proof (F3 k Hkn); lia|].
  exists r, s2. split; [done|]. split; [done|].
  assert (∀ b, image s2 b = if decide (b = fblock (image s1) f k) then splice (image s1 b) j l else image s1 b)
    as Hi2.
  { intros b. rw Hi Eb. case_decide; [subst; exact Hbat|done]. }
  constructor; try (by subst s2).
  - intros b Hb. rw Hi2 Eb decide_False; [by apply Hb|]. by apply W5.
  - rw (fbytes_update (image s1) (image s2) f k j l); try done.
    + intros b. by apply image_ok.
    + intros b. by apply image_ok.
    + rw Es. lia.
    + rw W6 -splice_app; [lia|rw length_fbytes; [done|lia|lia]|]. f_equal. lia.
Qed.

Lemma writing_bat s s1 f offset data bat :
  buf_ok bat → writing s s1 f offset data → writing s (s1 <| buffer_bat := bat |>) f offset data.
Proof. intros Hb [[] W2 W3 W4 W5 W6]. constructor; [by constructor|done..]. Qed.

(** A block that is only partly written is read first. *)
Lemma fetch_block s s1 f offset data k n :
  file_ok (image s) (totalblocks s) f → file_sep (image s) f →
  writing s s1 f offset data → 0 ≤ k < nblocks (fsize (image s) f) →
  ∃ s2, (if decide (n < TFS_BLOCK_SIZE) then
           b ← inode_block k; r ← read_block #buffer_bat b; mret (negb (bool_decide (r = 0)))
         else mret true) s1 = Done true s2 ∧
    writing s s2 f offset data ∧ (n < 512 → buffer_bat s2 = image s2 (fblock (image s) f k)).
Proof.
  intros [F1 F2 F3] Hsep Hwr Hk. assert (k < 127) as Hk' by (unfold nblocks in Hk; zdm).
  unfold TFS_BLOCK_SIZE. case_decide as Hn; [|by exists s1].
  destruct Hwr as [W1 W2 W3 W4 W5 W6].
  rw (bind_Done _ _ _ _ _ (inode_block_run s1 k W1 ltac:(lia))). rw W4.
  destruct (read_block_ok #buffer_bat s1 (fblock (image s) f k) is_bat W1) as (r & s2 & Hr & Hrun & [[d Hd] Hi Hm]);
    [rw W3; pose proof (F3 k Hk); lia|].
  fold (fblock (image s) f k). rw (bind_Done _ _ _ _ _ Hrun). rw bool_decide_false //. exists s2. split; [done|].
  assert (∀ b, image s2 b = image s1 b) as Hi' by (intros b; by rw Hi).
  split.
  - constructor; try (by subst s2).
    + intros b Hb. rw Hi'. by apply W5.
    + rw -W6. unfold fbytes, fsize, fblock. rw !Hi'. f_equal. f_equal. apply map_ext. intros b. by rw Hi'.
  - intros _. rw Hi'. by subst s2.
Qed.

(** The data buffer with the caller's bytes in place. *)
Lemma bat_copy s s1 f offset data k j n buffer boff :
  writing s s1 f offset data → bytes_ok buffer → 0 < n → 0 ≤ j → j + n ≤ 512 →
  0 ≤ boff → boff + n ≤ Z.of_nat (length buffer) → img_ok (image s1) →
  (n < 512 → buffer_bat s1 = image s1 (fblock (image s) f k)) →
  obj_copy n (buffer_bat s1) j buffer boff =
    Some (splice (image s1 (fblock (image s) f k)) j (slice buffer boff n)) ∧
  buf_ok (splice (image s1 (fblock (image s) f k)) j (slice buffer boff n)).
Proof.
  intros Hwr Hby Hn Hj Hjn Hb Hbn Himg Hbat. destruct (mt_bat _ (wr_mounted _ _ _ _ _ Hwr)) as [L1 B1].
  destruct (Himg (fblock (image s) f k)) as [L2 B2].
  assert (length (slice buffer boff n) = Z.to_nat n) as L3 by (apply length_slice; lia).
  split.
  - rw obj_copy_ok; [lia..|]. f_equal. destruct (decide (n < 512)) as [Hlt|Hge]; [by rw Hbat|].
    assert (j = 0) as -> by lia. rw !splice_all //; lia.
  - split; [rw length_splice; lia|]. apply splice_bytes; [done|]. by apply slice_bytes.
Qed.

Lemma slice_nonempty buffer a n :
  0 ≤ a → 0 < n → a + n ≤ Z.of_nat (length buffer) → slice buffer a n ≠ [].
Proof. intros Ha Hn Hl E. assert (length (slice buffer a n) = Z.to_nat n) by (apply length_slice; lia). rw E /= in H0. lia. Qed.

(** One turn: the bytes of the caller go to block [k]. *)
Lemma write_turn s s1 f offset w k n buffer :
  file_ok (image s) (totalblocks s) f → file_sep (image s) f → img_ok (image s) → bytes_ok buffer →
  writing s s1 f offset (slice buffer 0 w) → 0 ≤ offset → 0 ≤ w → 0 < n →
  w + n ≤ Z.of_nat (length buffer) → offset + w + n ≤ fsize (image s) f →
  0 ≤ k → 0 ≤ offset + w - 512 * k → offset + w - 512 * k + n ≤ 512 →
  (n < 512 → buffer_bat s1 = image s1 (fblock (image s) f k)) →
  ∃ bat r s2, obj_copy n (buffer_bat s1) (offset + w - 512 * k) buffer w = Some bat ∧
    inode_block k (s1 <| buffer_bat := bat |>) = Done (fblock (image s) f k) (s1 <| buffer_bat := bat |>) ∧
    r ≠ 0 ∧ write_block #buffer_bat (fblock (image s) f k) (s1 <| buffer_bat := bat |>) = Done r s2 ∧
    writing s s2 f offset (slice buffer 0 (w + n)).
Proof.
  intros Hf Hsep Himg Hby Hwr Ho Hw Hn Hwn Hsz Hk Hj Hjn Hbat. pose proof Hf as [F1 F2 F3].
  assert (img_ok (image s1)) as Himg1 by (intros b; apply image_ok, Hwr).
  destruct (bat_copy s s1 f offset _ k (offset + w - 512 * k) n buffer w Hwr Hby Hn Hj Hjn Hw Hwn Himg1 Hbat)
    as [Hcopy Hbok].
  set (bat := splice _ _ _) in *. pose proof (writing_bat _ _ _ _ _ bat Hbok Hwr) as Hwr1.
  assert (length (slice buffer 0 w) = Z.to_nat w) as L1 by (apply length_slice; lia).
  assert (length (slice buffer w n) = Z.to_nat n) as L2 by (apply length_slice; lia).
  destruct (write_data s (s1 <| buffer_bat := bat |>) f offset (slice buffer 0 w) k (offset + w - 512 * k)
    (slice buffer w n)) as (r & s2 & Hr & Hrun & Hwr2); try done; try lia.
  - apply slice_nonempty; lia.
  - by apply slice_bytes.
  - exists bat, r, s2. split; [done|]. split; [|split; [done|split; [done|]]].
    + rw inode_block_run; [apply Hwr1| |by rw (wr_inode _ _ _ _ _ Hwr1)].
      pose proof (nblocks_le (fsize (image s) f) ltac:(lia)). lia.
    + rw slice_app; [lia..|]. exact Hwr2.
Qed.

Lemma write_loop_ok fuel s s1 f offset w size buffer :
  file_ok (image s) (totalblocks s) f → file_sep (image s) f → img_ok (image s) → bytes_ok buffer →
  writing s s1 f offset (slice buffer 0 w) → 0 ≤ offset → 0 < w ≤ size →
  size ≤ Z.of_nat (length buffer) → offset + size ≤ fsize (image s) f →
  (w = size ∨ (offset + w) `mod` 512 = 0) →
  (Z.to_nat ((offset + size - 1) `div` 512 - (offset + w - 1) `div` 512) < fuel)%nat →
  ∃ s2, write_loop fuel ((offset + w - 1) `div` 512 + 1) ((offset + size - 1) `div` 512) w size w buffer s1 =
      Done (Some size) s2 ∧ writing s s2 f offset (slice buffer 0 size).
Proof.
  intros Hf Hsep Himg Hby. revert s1 w. induction fuel as [|fuel IH]; intros s1 w Hwr Ho Hw Hbuf Hsz Hal Hfuel; [lia|].
  cbn [write_loop]. destruct (decide ((offset + w - 1) `div` 512 + 1 ≤ (offset + size - 1) `div` 512)) as [Hle|Hle].
  - assert ((offset + w) `mod` 512 = 0) as Hmod by (destruct Hal as [->|]; [lia|done]).
    set (k := (offset + w - 1) `div` 512 + 1) in *.
    assert (512 * k = offset + w) as Hk by (unfold k; zdm).
    assert (0 ≤ k < nblocks (fsize (image s) f)) as Hkn by (unfold nblocks; zdm).
    destruct (decide (k = (offset + size - 1) `div` 512)) as [Hlast|Hlast].
    + destruct (fetch_block s s1 f offset _ k (size - w) Hf Hsep Hwr Hkn) as (s2 & Hfetch & Hwr2 & Hbat).
      rw (bind_Done _ _ _ _ _ Hfetch). cbn [negb].
      destruct (write_turn s s2 f offset w k (size - w) buffer) as (bat & r & s3 & Hcopy & Hib & Hr & Hwb & Hwr3);
        try done; [lia|zdm|lia|lia|lia|lia|zdm|].
      replace (offset + w - 512 * k) with 0 in Hcopy by lia.
      rw bind_gets Hcopy bind_oread bind_modify (bind_Done _ _ _ _ _ Hib) (bind_Done _ _ _ _ _ Hwb) decide_False //.
      exists s3. destruct fuel as [|fuel]; [lia|]. cbn [write_loop]. rw decide_False; [lia|].
      split; [done|]. by replace (w + (size - w)) with size in Hwr3 by lia.
    + assert (512 ≤ size - w) as Hfull by zdm.
      destruct (write_turn s s1 f offset w k 512 buffer) as (bat & r & s3 & Hcopy & Hib & Hr & Hwb & Hwr3);
        try done; [lia..|].
      replace (offset + w - 512 * k) with 0 in Hcopy by lia. unfold TFS_BLOCK_SIZE.
      rw bind_gets Hcopy bind_oread bind_modify (bind_Done _ _ _ _ _ Hib) (bind_Done _ _ _ _ _ Hwb) decide_False //.
      replace (k + 1) with ((offset + (w + 512) - 1) `div` 512 + 1) by zdm.
      apply IH; [done|lia|lia|lia|lia|right; zdm|]. unfold k in *. zdm.
  - exists s1. assert (w = size) as -> by (destruct Hal as [|]; [done|zdm]). done.
Qed.

Lemma tfs_write_run s f buffer datasize offset :
  mounted s → 0 < lock s → file_ok (image s) (totalblocks s) f → file_sep (image s) f →
  0 ≤ offset ≤ fsize (image s) f → 0 ≤ datasize ≤ Z.of_nat (length buffer) → bytes_ok buffer →
  let n := Z.min datasize (fsize (image s) f - offset) in
  ∃ s', tfs_write f buffer datasize offset s = Done n s' ∧ writing s s' f offset (slice buffer 0 n).
Proof.
  intros Hm Hlk Hf Hsep Ho Hb Hby n. pose proof Hf as [F1 F2 F3]. unfold tfs_write. rw bind_sem_P //.
  set (s0 := lset #lock _ s). assert (mounted s0) as Hm0 by by apply mounted_lock.
  rw bind_gets. change (totalblocks s0) with (totalblocks s).
  pose proof (mt_total _ Hm) as Ht. rw i32_small; [lia|]. rw decide_False; [lia|].
  destruct (read_inode_ok s0 f Hm0 Hf) as (r & s1 & Hr & Hrun & Hrd & Hfs).
  rw (bind_Done _ _ _ _ _ Hrun) decide_False //. rw (bind_Done _ _ _ _ _ Hfs).
  change (image s0) with (image s) in *. rw (i32_fsize _ _ _ Hf). rw decide_False; [lia|]. fold n.
  assert (img_ok (image s)) as Himg by (intros b; by apply image_ok).
  assert (writing s0 s1 f offset (slice buffer 0 0)) as Hwr.
  { destruct Hrd as [R1 R2 R3 R4 R5]. constructor; try done. unfold fbytes, fsize, fblock. rw !R4.
    change (image s0) with (image s). transitivity (fbytes (image s) f).
    - unfold fbytes, fsize, fblock. f_equal. f_equal. apply map_ext. intros b. by rw R4.
    - unfold splice, slice. simpl. by rw Nat.add_0_r take_drop. }
  assert (∀ s1 data, writing s0 s1 f offset data → writing s (s1 <| lock := lock s1 + 1 |>) f offset data) as Hdone.
  { intros s2 data [[] W2 W3 W4 W5 W6]. constructor; [by constructor| |done..].
    change (lock s2 + 1 = lock s). rw W2. change (lock s - 1 + 1 = lock s). lia. }
  case_decide as Hn.
  - exists (s1 <| lock := lock s1 + 1 |>). rw Hn. split; [done|by apply Hdone].
  - rw !Z.quot_div_nonneg; [unfold TFS_BLOCK_SIZE; lia..|]. rw !Z.rem_mod_nonneg; [unfold TFS_BLOCK_SIZE; lia..|].
    assert (0 ≤ offset `div` 512 < nblocks (fsize (image s) f)) as Hb1
      by (apply nblocks_index; unfold n in Hn; lia).
    set (k := Z.min (TFS_BLOCK_SIZE - offset `mod` TFS_BLOCK_SIZE) n).
    assert (0 < k ≤ n) as Hk by (unfold k, TFS_BLOCK_SIZE; zdm).
    destruct (fetch_block s0 s1 f offset _ _ k Hf Hsep Hwr Hb1) as (s2 & Hfetch & Hwr2 & Hbat).
    change (offset `div` TFS_BLOCK_SIZE) with (offset `div` 512) in *.
    change (offset `mod` TFS_BLOCK_SIZE) with (offset `mod` 512) in *.
    rw (bind_Done _ _ _ _ _ Hfetch). cbn [negb].
    destruct (write_turn s0 s2 f offset 0 (offset `div` 512) k buffer) as (bat & r2 & s3 & Hcopy & Hib & Hr2 & Hwb & Hwr3);
      try done; [lia|lia|lia|unfold n in *; change (image s0) with (image s); lia|zdm|zdm|unfold k, TFS_BLOCK_SIZE; zdm|].
    replace (offset + 0 - 512 * (offset `div` 512)) with (offset `mod` 512) in Hcopy by zdm.
    rw bind_gets Hcopy bind_oread bind_modify (bind_Done _ _ _ _ _ Hib) (bind_Done _ _ _ _ _ Hwb) decide_False //.
    replace (offset `div` 512 + 1) with ((offset + k - 1) `div` 512 + 1) by (unfold k, TFS_BLOCK_SIZE; zdm).
    change ((offset + n - 1) `div` TFS_BLOCK_SIZE) with ((offset + n - 1) `div` 512).
    destruct (write_loop_ok io_fuel s0 s3 f offset k n buffer) as (s4 & Hloop & Hwr4);
      try done; [lia|lia|unfold n in *; change (image s0) with (image s); lia| | |].
    + destruct (decide (k = n)) as [E|E]; [by left|right]. unfold k, TFS_BLOCK_SIZE in *. zdm.
    + unfold io_fuel. zdm.
    + rw (bind_Done _ _ _ _ _ Hloop). exists (s4 <| lock := lock s4 + 1 |>). split; [done|by apply Hdone].
Qed.

(** C39 (functional): tfs_write to a file whose blocks are not shared, with the
    lock free and a disk that works, replaces the bytes of the file from the
    offset on by the caller's bytes, as many as given or as fit into the file,
    whose size never changes; no block outside the file's data changes, and the
    lock is given back. *)
Theorem tfs_write_updates_file s f buffer datasize offset :
  mounted s → 0 < lock s → file_ok (image s) (totalblocks s) f → file_sep (image s) f →
  0 ≤ offset ≤ fsize (image s) f → 0 ≤ datasize ≤ Z.of_nat (length buffer) → bytes_ok buffer →
  let n := Z.min datasize (fsize (image s) f - offset) in
  ∃ s', tfs_write f buffer datasize offset s = Done n s' ∧
    fbytes (image s') f = splice (fbytes (image s) f) offset (slice buffer 0 n) ∧
    (∀ b, outside (image s) f b → image s' b = image s b) ∧
    mounted s' ∧ lock s' = lock s ∧ totalblocks s' = totalblocks s.
Proof.
  intros Hm Hlk Hf Hsep Ho Hb Hby n.
  destruct (tfs_write_run s f buffer datasize offset Hm Hlk Hf Hsep Ho Hb Hby) as (s' & Hrun & [W1 W2 W3 W4 W5 W6]).
  by exists s'.
Qed.

(** What tfs_write wrote, tfs_read reads back from the same
    offset. *)
Theorem tfs_write_then_read s f data buffer offset :
  mounted s → 0 < lock s → file_ok (image s) (totalblocks s) f → file_sep (image s) f →
  0 ≤ offset → offset + Z.of_nat (length data) ≤ fsize (image s) f → bytes_ok data →
  length buffer = length data →
  let n := Z.of_nat (length data) in
  ∃ s1 s2, tfs_write f data n offset s = Done n s1 ∧ tfs_read f buffer n offset s1 = Done (n, data) s2.
Proof.
  intros Hm Hlk Hf Hsep Ho Hsz Hby Hlen n.
  destruct (tfs_write_run s f data n offset Hm Hlk Hf Hsep) as (s1 & Hrun & Hwr); [lia|lia|done|].
  destruct (writing_same _ _ _ _ _ Hwr Hsep) as (Ef & Es & Eb & Hsep1).
  pose proof Hf as [F1 F2 F3]. assert (img_ok (image s)) as Himg by (intros b; by apply image_ok).
  destruct (tfs_read_run s1 f buffer n offset) as (s2 & Hrun2 & _).
  - apply Hwr.
  - by rw (wr_lock _ _ _ _ _ Hwr).
  - rw (wr_total _ _ _ _ _ Hwr). constructor; [done|by rw Es|]. intros k. rw Es Eb. apply F3.
  - rw Es. lia.
  - rw Hlen. lia.
  - rw Es in Hrun2. replace (Z.min n (fsize (image s) f - offset)) with n in * by lia.
    exists s1, s2. split; [exact Hrun|]. rw Hrun2. do 2 f_equal. rw (wr_bytes _ _ _ _ _ Hwr).
    unfold filled. rw (slice_all data n); [done|].
    rw slice_splice_same; [done|rw length_fbytes; [done|lia|lia]|]. by apply splice_all.
Qed.
End file.

(** ** A volume with one file of 600 bytes: inode block 3, data blocks 4 and 5 *)

Definition example_inode : list Z :=
  be_split 600 ++ be_split 4 ++ be_split 5 ++ replicate 500 0.
Definition example_volume : tfs_t (D := ramdisk) :=
  TfsT 16 (Ramdisk (λ b, if decide (b = 3) then example_inode else replicate 512 7) 16) 0 1
    (replicate 512 0) (replicate 512 0) (replicate 512 0).
Abbreviation example_mounted := (mounted (D := ramdisk) (λ _, True)).

Lemma zeros_ok : buf_ok (replicate 512 0).
Proof. split; [reflexivity|]. apply Forall_replicate. unfold is_byte. lia. Qed.

Lemma example_volume_mounted : example_mounted example_volume.
Proof.
  constructor; cbn [buffer_inode buffer_bat buffer_md totalblocks disk example_volume];
    try exact zeros_ok; done.
Qed.

Lemma example_size : fsize (image example_volume) 3 = 600.
Proof. vm_compute. reflexivity. Qed.

Lemma example_blocks k : 0 ≤ k < nblocks (fsize (image example_volume) 3) →
  k = 0 ∧ fblock (image example_volume) 3 k = 4 ∨ k = 1 ∧ fblock (image example_volume) 3 k = 5.
Proof.
  rewrite example_size. change (nblocks 600) with 2. intros Hk.
  destruct (decide (k = 0)) as [->|]; [left; split; [done|vm_compute; reflexivity]|].
  assert (k = 1) as -> by lia. right. split; [done|vm_compute; reflexivity].
Qed.

Lemma example_file_ok : file_ok (image example_volume) 16 3.
Proof.
  constructor; [lia|rewrite example_size; lia|]. intros k Hk. destruct (example_blocks k Hk); lia.
Qed.

Lemma example_file_sep : file_sep (image example_volume) 3.
Proof.
  constructor.
  - intros k k' Hk Hk'. destruct (example_blocks k Hk), (example_blocks k' Hk'); lia.
  - intros k Hk. destruct (example_blocks k Hk); lia.
Qed.

Lemma example_bytes_ok n : bytes_ok (replicate n 65).
Proof. apply Forall_replicate. unfold is_byte. lia. Qed.

Lemma tfs_read_reads_file_witness :
  ∃ s', tfs_read 3 (replicate 20 0) 20 590 example_volume =
    Done (10, splice (replicate 20 0) 0 (slice (fbytes (image example_volume) 3) 590 10)) s'.
Proof.
  destruct (tfs_read_reads_file (λ _, True) example_volume 3 (replicate 20 0) 20 590
    example_volume_mounted ltac:(reflexivity) example_file_ok) as (s' & H & _).
  - rewrite example_size. lia.
  - cbn. lia.
  - rewrite example_size in H. exists s'. exact H.
Defined.

(** The test on the file identifier is [fileid < 2]: the directory, block 2, is
    taken for an inode. *)
Lemma tfs_write_accepts_directory :
  match tfs_write TFS_DIRECTORY_BLOCK [] 0 0 example_volume with Done r _ => r = 0 | _ => False end.
Proof. vm_compute. reflexivity. Qed.

Lemma tfs_write_updates_file_witness :
  ∃ s', tfs_write 3 (replicate 20 65) 20 590 example_volume = Done 10 s' ∧
    fbytes (image s') 3 = splice (fbytes (image example_volume) 3) 590 (slice (replicate 20 65) 0 10).
Proof.
  destruct (tfs_write_updates_file (λ _, True) example_volume 3 (replicate 20 65) 20 590
    example_volume_mounted ltac:(reflexivity) example_file_ok example_file_sep) as (s' & H & Hb & _).
  - rewrite example_size. lia.
  - cbn. lia.
  - apply example_bytes_ok.
  - rewrite example_size in H, Hb. exists s'. split; [exact H|exact Hb].
Defined.

Lemma tfs_write_then_read_witness :
  ∃ s1 s2, tfs_write 3 (replicate 20 65) 20 500 example_volume = Done 20 s1 ∧
    tfs_read 3 (replicate 20 0) 20 500 s1 = Done (20, replicate 20 65) s2.
Proof.
  destruct (tfs_write_then_read (λ _, True) example_volume 3 (replicate 20 65) (replicate 20 0) 500
    example_volume_mounted ltac:(reflexivity) example_file_ok example_file_sep) as (s1 & s2 & H1 & H2).
  - lia.
  - rewrite example_size. cbn. lia.
  - apply example_bytes_ok.
  - reflexivity.
  - exists s1, s2. split; [exact H1|exact H2].
Defined.
End TfsFile.
