(* ===== verification/TfsLock.v ===== *)
(** * The lock of the trivial file system

    Every operation of the driver takes the lock once and gives it back on every
    path, whatever the disk answers. *)
From S2P Require Import Prelude Bytes Libc Bitmap Sync Tfs.
Import Libc Bitmap Tfs.

Module TfsLock.

Create HintDb tfs_lock.

Section lock.
Context {D : Type} `{Gbd D}.
Abbreviation tfs := (tfs_t (D := D)).

(** The operations of the driver, as the virtual file system calls them. *)
Inductive request :=
| Open (filename : list Z) | Create (filename : list Z) (size : Z) | Remove (filename : list Z)
| Read (fileid : Z) (buffer : list Z) (bufsize offset : Z)
| Write (fileid : Z) (buffer : list Z) (datasize offset : Z)
| GetFree | FileCount | File (index : Z) (buffer : list Z).

Definition tfs_exec (q : request) : M tfs (Z * list Z) :=
  match q with
  | Open filename => r ← tfs_open filename; mret (r, [])
  | Create filename size => r ← tfs_create filename size; mret (r, [])
  | Remove filename => r ← tfs_remove filename; mret (r, [])
  | Read fileid buffer bufsize offset => tfs_read fileid buffer bufsize offset
  | Write fileid buffer datasize offset => r ← tfs_write fileid buffer datasize offset; mret (r, [])
  | GetFree => r ← tfs_getfree; mret (r, [])
  | FileCount => r ← tfs_filecount; mret (r, [])
  | File index buffer => tfs_file index buffer
  end.

(** [m] does not wait, and when it returns the lock has [n] permits more. *)
Definition gives {A} (n : Z) (m : M tfs A) : Prop := ∀ s,
  match m s with Done _ s' => lock s' = lock s + n | Blocked _ _ => False | _ => True end.

Lemma gives_bind {A B} n (m : M tfs A) (f : A → M tfs B) :
  gives 0 m → (∀ a, gives n (f a)) → gives n (m ≫= f).
Proof.
  intros Hm Hf s. specialize (Hm s). unfold mbind, M_bind. destruct (m s) as [a s'| | | |]; simpl; try done.
  specialize (Hf a s'). destruct (f a s'); try done. lia.
Qed.

Lemma gives_ret {A} (a : A) : gives 0 (mret a : M tfs A).
Proof. intros s. simpl. lia. Qed.
Lemma gives_oread {A} (o : option A) : gives 0 (oread o : M tfs A).
Proof. intros s. destruct o; simpl; [lia|done]. Qed.
Lemma gives_oread' {A} (g : tfs → option A) : gives 0 (λ s, oread (g s) s).
Proof. intros s. destruct (g s); simpl; [lia|done]. Qed.
Lemma gives_gets {A} (g : tfs → A) : gives 0 (gets g).
Proof. intros s. simpl. lia. Qed.
Lemma gives_read buf b : (∀ l s, lock (lset buf l s) = lock s) → gives 0 (read_block buf b).
Proof.
  intros Hl s. unfold read_block. destruct (gbd_read_block _ _ _) as [[r l] d].
  change (lock (lset buf l s) = lock s + 0). rw Hl. lia.
Qed.
Lemma gives_write buf b : gives 0 (write_block buf b).
Proof. intros s. unfold write_block. destruct (gbd_write_block _ _ _) as [r d]. simpl. lia. Qed.
Lemma gives_set (g : tfs → option (list Z)) (f : list Z → tfs → tfs) :
  (∀ l s, lock (f l s) = lock s) →
  gives 0 (λ s, match g s with Some l => Done tt (f l s) | None => Fault end).
Proof. intros Hf s. destruct (g s); [|done]. rw Hf. lia. Qed.
Lemma gives_modify (f : tfs → tfs) : (∀ s, lock (f s) = lock s) → gives 0 (modify f).
Proof. intros Hf s. simpl. rw Hf. lia. Qed.

(** A routine of the library on a part of the state: it does not wait either. *)
Definition quiet {S A} (m : M S A) : Prop := ∀ s s' k, m s ≠ Blocked s' k.

Lemma gives_zoom {A} (l : lens tfs (list Z)) (m : M (list Z) A) :
  quiet m → (∀ v s, lock (lset l v s) = lock s) → gives 0 (zoom l m).
Proof.
  intros Hq Hl s. unfold zoom. destruct (m (lget l s)) eqn:E; simpl; try done.
  - rw Hl. lia.
  - by apply (Hq _ _ _ E).
Qed.

Lemma quiet_bind {S A B} (m : M S A) (f : A → M S B) : quiet m → (∀ a, quiet (f a)) → quiet (m ≫= f).
Proof.
  intros Hm Hf s s' k. unfold mbind, M_bind. destruct (m s) eqn:E; simpl; try done.
  - apply Hf.
  - by destruct (Hm _ _ _ E).
Qed.
Lemma quiet_assert {S} b : quiet (kernel_assert b : M S unit).
Proof. by destruct b. Qed.
Lemma quiet_find {S} n lo (t : Z → M S bool) : (∀ i, quiet (t i)) → quiet (find_loop n lo t).
Proof.
  intros Ht. revert lo. induction n as [|n IH]; intros lo; [done|]. simpl.
  apply quiet_bind; [done|]. by intros [].
Qed.
Lemma quiet_for {S} n lo (t : Z → M S unit) : (∀ i, quiet (t i)) → quiet (for_loop n lo t).
Proof.
  intros Ht. revert lo. induction n as [|n IH]; intros lo; [done|]. simpl. by apply quiet_bind.
Qed.
Lemma quiet_load i : quiet (bitmap_load i).
Proof. intros s s' k. unfold bitmap_load. by destruct (arr_get s i). Qed.
Lemma quiet_store i v : quiet (bitmap_store i v).
Proof. intros s s' k. unfold bitmap_store. by destruct (arr_set s i v). Qed.
Lemma quiet_get p : quiet (bitmap_get p).
Proof. repeat first [apply quiet_bind; [|intros ?]|apply quiet_assert|apply quiet_load|done]. Qed.
Lemma quiet_set p v : quiet (bitmap_set p v).
Proof.
  apply quiet_bind; [apply quiet_assert|intros _]. repeat case_decide; try done;
  (apply quiet_bind; [apply quiet_load|intros ?; apply quiet_store]).
Qed.
Lemma quiet_word b l : quiet (bitmap_findnset_word b l).
Proof.
  apply quiet_bind.
  - apply quiet_find. intros i. apply quiet_bind; [apply quiet_get|done].
  - intros [j|]; [|done]. case_decide; [done|]. apply quiet_bind; [apply quiet_set|done].
Qed.
Lemma quiet_from n i l : quiet (bitmap_findnset_from n i l).
Proof.
  revert i. induction n as [|n IH]; intros i; [done|]. simpl. apply quiet_bind; [apply quiet_load|].
  intros w. case_decide; [|done]. apply quiet_bind; [apply quiet_word|]. by intros [].
Qed.
Lemma quiet_findnset l : quiet (bitmap_findnset l).
Proof. apply quiet_bind; [apply quiet_assert|intros _; apply quiet_from]. Qed.
Lemma quiet_memoryset t v n : quiet (memoryset t v n).
Proof. apply quiet_for. intros i s s' k. unfold store8. by destruct (arr_set s (t + i) v). Qed.
End lock.

#[export] Hint Resolve gives_ret gives_oread gives_oread' gives_gets gives_write quiet_findnset quiet_set quiet_get
  quiet_memoryset : tfs_lock.

Ltac gives_step :=
  match goal with
  | |- gives _ (let _ := _ in _) => cbv zeta
  | |- gives _ (_ ≫= _) => apply gives_bind; [|intros ?]
  | |- gives _ (if decide ?P then _ else _) => destruct (decide P)
  | |- gives _ (if negb ?b then _ else _) => destruct b; cbn [negb]
  | |- gives _ (match ?x with _ => _ end) => destruct x
  | |- gives _ (read_block _ _) => apply gives_read; done
  | |- gives _ (zoom _ _) => apply gives_zoom; [auto with tfs_lock|done]
  | |- gives _ (modify _) => apply gives_modify; done
  | |- _ => solve [auto with tfs_lock]
  end.

Section lock2.
Context {D : Type} `{Gbd D}.
Abbreviation tfs := (tfs_t (D := D)).

Lemma gives_unlock {A} (a : A) : gives 1 (unlock (D := D) a).
Proof. intros s. reflexivity. Qed.
Lemma gives_inode i : gives 0 (md_inode (D := D) i).
Proof. unfold md_inode. auto with tfs_lock. Qed.
Lemma gives_stringcmp i f : gives 0 (md_stringcmp (D := D) i f).
Proof. unfold md_stringcmp. auto with tfs_lock. Qed.
Lemma gives_filesize : gives 0 (inode_filesize (D := D)).
Proof. unfold inode_filesize. auto with tfs_lock. Qed.
Lemma gives_block i : gives 0 (inode_block (D := D) i).
Proof. unfold inode_block. auto with tfs_lock. Qed.
Lemma gives_set_inode i v : gives 0 (md_set_inode (D := D) i v).
Proof. by apply gives_set. Qed.
Lemma gives_set_name i f : gives 0 (md_set_name (D := D) i f).
Proof. intros s. unfold md_set_name. destruct (stringcopy _ _ _); simpl; [lia|done]. Qed.
Lemma gives_clear_name i : gives 0 (md_clear_name (D := D) i).
Proof. by apply gives_set. Qed.
Lemma gives_inode_set i v : gives 0 (inode_set (D := D) i v).
Proof. by apply gives_set. Qed.
End lock2.

#[export] Hint Resolve gives_unlock gives_inode gives_stringcmp gives_filesize gives_block gives_set_inode
  gives_set_name gives_clear_name gives_inode_set : tfs_lock.

Section lock3.
Context {D : Type} `{Gbd D}.
Abbreviation tfs := (tfs_t (D := D)).

Lemma gives_find n lo (t : Z → M tfs bool) : (∀ i, gives 0 (t i)) → gives 0 (find_loop n lo t).
Proof.
  intros Ht. revert lo. induction n as [|n IH]; intros lo; [apply gives_ret|]. cbn [find_loop].
  apply gives_bind; [done|]. intros [|]; [apply gives_ret|apply IH].
Qed.
Lemma gives_for n lo (t : Z → M tfs unit) : (∀ i, gives 0 (t i)) → gives 0 (for_loop n lo t).
Proof.
  intros Ht. revert lo. induction n as [|n IH]; intros lo; [apply gives_ret|]. cbn [for_loop].
  by apply gives_bind.
Qed.
Lemma gives_scan n i x f : gives 0 (create_scan (D := D) n i x f).
Proof. revert i x. induction n as [|n IH]; intros i x; cbn [create_scan]; repeat gives_step. Qed.
Lemma gives_alloc n i : gives 0 (alloc_blocks (D := D) n i).
Proof. revert i. induction n as [|n IH]; intros i; cbn [alloc_blocks]; repeat gives_step. Qed.
Lemma gives_zero n i : gives 0 (zero_blocks (D := D) n i).
Proof. revert i. induction n as [|n IH]; intros i; cbn [zero_blocks]; repeat gives_step. Qed.
Lemma gives_free n i : gives 0 (free_blocks (D := D) n i).
Proof. revert i. induction n as [|n IH]; intros i; cbn [free_blocks]; [done|]; repeat gives_step. Qed.
Lemma gives_count n i x : gives 0 (count_allocated (D := D) n i x).
Proof. revert i x. induction n as [|n IH]; intros i x; cbn [count_allocated]; repeat gives_step. Qed.
Lemma gives_files n i x : gives 0 (count_files (D := D) n i x).
Proof. revert i x. induction n as [|n IH]; intros i x; cbn [count_files]; repeat gives_step. Qed.
Lemma gives_skip n i x y : gives 0 (skip_files (D := D) n i x y).
Proof. revert i x. induction n as [|n IH]; intros i x; cbn [skip_files]; repeat gives_step. Qed.
Lemma gives_rloop n a b c d e f : gives 0 (read_loop (D := D) n a b c d e f).
Proof. revert a c e f. induction n as [|n IH]; intros a c e f; cbn [read_loop]; [done|]; repeat gives_step. Qed.
Lemma gives_wloop n a b c d e f : gives 0 (write_loop (D := D) n a b c d e f).
Proof. revert a c e. induction n as [|n IH]; intros a c e; cbn [write_loop]; [done|]; repeat gives_step. Qed.
End lock3.

#[export] Hint Resolve gives_scan gives_alloc gives_zero gives_free gives_count gives_files gives_skip
  gives_rloop gives_wloop : tfs_lock.

Section returns.
Context {D : Type} `{Gbd D}.
Abbreviation tfs := (tfs_t (D := D)).

(** [m] takes the lock, waiting for it if need be, and gives it back. *)
Definition returns_lock {A} (m : M tfs A) : Prop := ∀ s,
  match m s with
  | Done _ s' => 0 < lock s ∧ lock s' = lock s
  | Blocked s1 k =>
      s1 = s ∧ lock s ≤ 0 ∧
      ∀ s2, match k s2 with Done _ s3 => lock s3 = lock s2 + 1 | Blocked _ _ => False | _ => True end
  | _ => True
  end.

Lemma locked_body {A} (body : M tfs A) : gives 1 body → returns_lock (sem_P #lock;; body).
Proof.
  intros Hb s. unfold sem_P, mbind, M_bind. case_decide as Hl; simpl.
  - pose proof (Hb (s <| lock := lock s - 1 |>)) as H1. change (lset #lock (lget #lock s - 1) s) with (s <| lock := lock s - 1 |>).
    destruct (body (s <| lock := lock s - 1 |>)) as [a s'| | | |]; try done. split; [done|].
    rw H1. change (lock s - 1 + 1 = lock s). lia.
  - split; [done|]. split; [simpl in Hl; lia|]. intros s2. specialize (Hb s2).
    by destruct (body s2).
Qed.

Lemma returns_then {A B} (m : M tfs A) (g : A → B) : returns_lock m → returns_lock (a ← m; mret (g a)).
Proof.
  intros Hm s. specialize (Hm s). unfold mbind, M_bind. destruct (m s) as [a s'|s1 k| | |]; simpl; try done.
  destruct Hm as (-> & Hl & Hk). split; [done|]. split; [done|]. intros s2. specialize (Hk s2).
  by destruct (k s2).
Qed.

Lemma create_returns name size : returns_lock (tfs_create (D := D) name size).
Proof.
  apply locked_body. repeat first [gives_step|apply gives_for; intros ?].
Qed.

Lemma remove_returns name : returns_lock (tfs_remove (D := D) name).
Proof. apply locked_body. repeat first [gives_step|apply gives_find; intros ?]. Qed.

Lemma read_returns f b n o : returns_lock (tfs_read (D := D) f b n o).
Proof. apply locked_body. repeat gives_step. Qed.

Lemma write_returns f b n o : returns_lock (tfs_write (D := D) f b n o).
Proof. apply locked_body. repeat gives_step. Qed.

(** tfs_open gives the lock back before it looks at the entry it found. *)
Lemma open_returns name : returns_lock (tfs_open (D := D) name).
Proof.
  apply locked_body. apply gives_bind; [by apply gives_read|intros r]. case_decide; [apply gives_unlock|].
  apply gives_bind; [apply gives_find; intros i; repeat gives_step|]. intros [i|]; [|apply gives_unlock].
  intros s. unfold sem_V. rw bind_modify. unfold md_inode, mbind, M_bind. simpl.
  by destruct (ld32 _ _).
Qed.

(** Every operation of the file system driver takes its lock and has
    given it back when it returns, on every path, the error paths of the disk
    included; when the lock is taken it waits without changing anything, and once
    the lock is handed over it runs to its end without waiting again and gives the
    lock back. *)
Theorem tfs_returns_lock q : returns_lock (tfs_exec (D := D) q).
Proof.
  destruct q; simpl; try apply returns_then.
  - apply open_returns.
  - apply create_returns.
  - apply remove_returns.
  - apply read_returns.
  - apply write_returns.
  - apply locked_body. repeat gives_step.
  - apply locked_body. repeat gives_step.
  - apply locked_body. repeat gives_step.
Qed.
End returns.
End TfsLock.
