(* ===== verification/Vfs.v ===== *)
(** * The virtual file system (fs/vfs.c, fs/filesystems.c)

    Mounted file systems and open files, on top of any driver with the
    interface of fs_t ([FileSystem]).  Pointers to drivers are addresses into
    [drivers], NULL is 0.  Of the messages on the console only those of
    vfs_deinit are modelled. *)
From S2P Require Import Prelude Bytes Libc Sync Xprintf.
Import Libc.

(** ** fs_t: the functions of a file system driver on its own state *)
Class FileSystem (F : Type) := {
  fs_volume : F → list Z;
  fs_unmount : M F Z;
  fs_open : list Z → M F Z;
  fs_close : Z → M F Z;
  fs_read : Z → list Z → Z → Z → M F (Z * list Z);
  fs_write : Z → list Z → Z → Z → M F Z;
  fs_create : list Z → Z → M F Z;
  fs_remove : list Z → M F Z;
  fs_getfree : M F Z;
  fs_filecount : M F Z;
  fs_file : Z → list Z → M F (Z * list Z) }.

(** What the virtual file system relies on: an operation on a driver in a state
    [I] does not wait and, except for unmount, leaves it in such a state. *)
Class FsWaitFree (F : Type) `{FileSystem F} (I : F → Prop) := {
  wf_unmount : runs I fs_unmount (λ _, True);
  wf_open name : runs I (fs_open name) I;
  wf_close id : runs I (fs_close id) I;
  wf_read id buffer n offset : runs I (fs_read id buffer n offset) I;
  wf_write id buffer n offset : runs I (fs_write id buffer n offset) I;
  wf_create name size : runs I (fs_create name size) I;
  wf_remove name : runs I (fs_remove name) I;
  wf_getfree : runs I fs_getfree I;
  wf_filecount : runs I fs_filecount I;
  wf_file index buffer : runs I (fs_file index buffer) I }.

Module Vfs.

Definition CONFIG_MAX_FILESYSTEMS : Z := 8.
Definition CONFIG_MAX_OPEN_FILES : Z := 512.
Definition VFS_NAME_LENGTH : Z := 16.
Definition VFS_OK : Z := 0.
Definition VFS_ERROR : Z := -2.
Definition VFS_INVALID_PARAMS : Z := -3.
Definition VFS_NOT_FOUND : Z := -5.
Definition VFS_NO_SUCH_FS : Z := -6.
Definition VFS_LIMIT : Z := -7.
Definition VFS_IN_USE : Z := -8.
Definition VFS_UNUSABLE : Z := -9.

(** vfs_entry_t and openfile_entry_t. *)
Record vfs_entry_t := VfsEntry { ve_filesystem : Z; mountpoint : list Z }.
#[global] Instance eta_entry : Eta vfs_entry_t := fun e => VfsEntry (ve_filesystem e) (mountpoint e).
Record openfile_entry_t := OpenFile { of_filesystem : Z; fileid : Z; seek_position : Z }.
#[global] Instance eta_openfile : Eta openfile_entry_t := fun e =>
  OpenFile (of_filesystem e) (fileid e) (seek_position e).

(** ** Path names *)

(** The loop over the volume name: [None] outside the strings, [Some None] for
    VFS_ERROR, otherwise the rest of the path, the buffer and its length. *)
Fixpoint parse_volume (n : nat) (pathname volumebuf : list Z) (v : Z) : option (option (list Z * list Z * Z)) :=
  match n with
  | O => Some None
  | S n' =>
    match pathname with
    | [] => None
    | c :: rest =>
      if decide (c = 0) then Some None
      else if decide (c = 93) then Some (Some (rest, volumebuf, v))
      else volumebuf' ← arr_set volumebuf v c; parse_volume n' rest volumebuf' (v + 1)
    end
  end.

(** The loop over the file name, [i] characters in. *)
Fixpoint parse_filename (n : nat) (pathname filenamebuf : list Z) (i : Z) : option (option (list Z)) :=
  match n with
  | O => Some None
  | S n' =>
    match pathname with
    | [] => None
    | c :: rest =>
      filenamebuf' ← arr_set filenamebuf i c;
      if decide (c = 0) then
        if decide (i = 0) then Some None else Some (Some filenamebuf')
      else parse_filename n' rest filenamebuf' (i + 1)
    end
  end.

(** [Some (Some (volume, filename))] for VFS_OK, [Some None] for VFS_ERROR. *)
Definition vfs_parse_pathname (pathname volumebuf filenamebuf : list Z) : option (option (list Z * list Z)) :=
  match pathname with
  | [] => None
  | c :: rest =>
    x ← (if decide (c = 91) then parse_volume (Z.to_nat (VFS_NAME_LENGTH - 1)) rest volumebuf 0
         else Some (Some (pathname, volumebuf, 0)));
    match x with
    | None => Some None
    | Some (pathname, volumebuf, v) =>
      volumebuf ← arr_set volumebuf v 0;
      y ← parse_filename (Z.to_nat VFS_NAME_LENGTH) pathname filenamebuf 0;
      match y with
      | None => Some None
      | Some filenamebuf => Some (Some (volumebuf, filenamebuf))
      end
    end
  end.

Section vfs.
Context {F : Type} `{FileSystem F}.

Record vfs_t := VfsT {
  vfs_sem : Z; vfs_filesystems : list vfs_entry_t;
  openfile_sem : Z; files : list openfile_entry_t;
  vfs_op_sem : Z; vfs_unmount_sem : Z; vfs_ops : Z; vfs_usable : Z;
  drivers : Z → F }.
#[global] Instance eta_vfs : Eta vfs_t := fun v =>
  VfsT (vfs_sem v) (vfs_filesystems v) (openfile_sem v) (files v) (vfs_op_sem v) (vfs_unmount_sem v)
    (vfs_ops v) (vfs_usable v) (drivers v).

Abbreviation V A := (M vfs_t A).

(** The driver instance at an address. *)
Definition driver (p : Z) : lens vfs_t F :=
  Lens (λ s, drivers s p) (λ v s, s <| drivers := λ q, if decide (q = p) then v else drivers s q |>).

Definition get_fs (row : Z) : V vfs_entry_t := fun s => oread (arr_get (vfs_filesystems s) row) s.
Definition set_fs (row : Z) (f : vfs_entry_t → vfs_entry_t) : V unit := fun s =>
  match arr_get (vfs_filesystems s) row with
  | Some e => Done tt (s <| vfs_filesystems := <[Z.to_nat row := f e]> (vfs_filesystems s) |>)
  | None => Fault
  end.
Definition get_file (file : Z) : V openfile_entry_t := fun s => oread (arr_get (files s) file) s.
Definition set_file (file : Z) (f : openfile_entry_t → openfile_entry_t) : V unit := fun s =>
  match arr_get (files s) file with
  | Some e => Done tt (s <| files := <[Z.to_nat file := f e]> (files s) |>)
  | None => Fault
  end.

(** ** Initialisation

    [created v] is semaphore_create: false when there is no semaphore left. *)
Definition vfs_init (created : bool) : V unit :=
  modify (λ s, s <| vfs_sem := 1 |>);;
  modify (λ s, s <| openfile_sem := 1 |>);;
  kernel_assert created;;
  for_loop (Z.to_nat CONFIG_MAX_FILESYSTEMS) 0 (λ i, set_fs i (λ e, e <| ve_filesystem := 0 |>));;
  for_loop (Z.to_nat CONFIG_MAX_OPEN_FILES) 0 (λ i, set_file i (λ e, e <| of_filesystem := 0 |>));;
  modify (λ s, s <| vfs_op_sem := 1 |>);;
  modify (λ s, s <| vfs_unmount_sem := 0 |>);;
  modify (λ s, s <| vfs_ops := 0 |>);;
  modify (λ s, s <| vfs_usable := 1 |>).

(** ** Operations in progress *)

Definition vfs_start_op : V Z :=
  sem_P #vfs_op_sem;;
  usable ← gets vfs_usable;
  ret ← (if decide (usable ≠ 0) then modify (λ s, s <| vfs_ops := vfs_ops s + 1 |>);; mret VFS_OK
         else mret VFS_UNUSABLE);
  sem_V #vfs_op_sem;;
  mret ret.

Definition vfs_end_op : V unit :=
  sem_P #vfs_op_sem;;
  modify (λ s, s <| vfs_ops := vfs_ops s - 1 |>);;
  ops ← gets vfs_ops;
  kernel_assert (bool_decide (0 ≤ ops));;
  usable ← gets vfs_usable;
  (if decide (usable = 0 ∧ ops = 0) then sem_V #vfs_unmount_sem else mret tt);;
  sem_V #vfs_op_sem.

(** End the operation and return. *)
Definition end_op {A} (r : A) : V A := vfs_end_op;; mret r.

(** The forced unmount of every volume when the system halts.  It prints on the
    console, so it runs on a state with the volumes in it, with its kprintf. *)
Section console.
Context {S : Type} (vfs_l : lens S vfs_t) (kprintf : string → list Xprintf.arg_t → M S unit).

Definition vfs_deinit : M S unit :=
  zoom vfs_l (sem_P #vfs_op_sem);;
  zoom vfs_l (modify (λ s, s <| vfs_usable := 0 |>));;
  kprintf (line "VFS: Entering forceful unmount of all filesystems.") [];;
  ops ← zoom vfs_l (gets vfs_ops);
  (if decide (0 < ops) then
     kprintf (line "VFS: Delaying force unmount until the pending %d operations are done.") [Xprintf.Arg (u32 ops) []];;
     zoom vfs_l (sem_V #vfs_op_sem);;
     zoom vfs_l (sem_P #vfs_unmount_sem);;
     zoom vfs_l (sem_P #vfs_op_sem);;
     ops ← zoom vfs_l (gets vfs_ops);
     kernel_assert (bool_decide (ops = 0));;
     kprintf (line "VFS: Continuing forceful unmount.") []
   else mret tt);;
  zoom vfs_l (sem_P #vfs_sem);;
  zoom vfs_l (sem_P #openfile_sem);;
  for_loop (Z.to_nat CONFIG_MAX_FILESYSTEMS) 0 (λ row,
    e ← zoom vfs_l (get_fs row);
    let fs := ve_filesystem e in
    if decide (fs ≠ 0) then
      kprintf (line "VFS: Forcefully unmounting volume [%s]") [Xprintf.Arg 0 (mountpoint e)];;
      zoom vfs_l (zoom (driver fs) fs_unmount);;
      zoom vfs_l (set_fs row (λ e, e <| ve_filesystem := 0 |>))
    else mret tt);;
  zoom vfs_l (sem_V #openfile_sem);;
  zoom vfs_l (sem_V #vfs_sem);;
  zoom vfs_l (sem_V #vfs_op_sem).
End console.

(** ** Mounting *)

Definition name_is (row : Z) (name : list Z) : V bool :=
  e ← get_fs row;
  c ← oread (stringcmp (mountpoint e) name);
  mret (bool_decide (c = 0)).

Definition vfs_get_filesystem (mountpoint : list Z) : V Z :=
  found ← find_loop (Z.to_nat CONFIG_MAX_FILESYSTEMS) 0 (λ row, name_is row mountpoint);
  match found with
  | Some row => e ← get_fs row; mret (ve_filesystem e)
  | None => mret 0
  end.

(** [name == NULL] is left to the caller. *)
Definition vfs_mount (fs : Z) (name : list Z) : V Z :=
  c ← oread (arr_get name 0);
  kernel_assert (bool_decide (c ≠ 0));;
  ok ← vfs_start_op;
  if decide (ok ≠ VFS_OK) then mret VFS_UNUSABLE else
  sem_P #vfs_sem;;
  free ← find_loop (Z.to_nat CONFIG_MAX_FILESYSTEMS) 0 (λ i,
    e ← get_fs i; mret (bool_decide (ve_filesystem e = 0)));
  match free with
  | None => sem_V #vfs_sem;; end_op VFS_LIMIT
  | Some row =>
    same ← find_loop (Z.to_nat CONFIG_MAX_FILESYSTEMS) 0 (λ i, name_is i name);
    match same with
    | Some _ => sem_V #vfs_sem;; end_op VFS_ERROR
    | None =>
      e ← get_fs row;
      mp ← oread (stringcopy (mountpoint e) name VFS_NAME_LENGTH);
      set_fs row (λ e, e <| mountpoint := mp |>);;
      set_fs row (λ e, e <| ve_filesystem := fs |>);;
      sem_V #vfs_sem;;
      end_op VFS_OK
    end
  end.

Definition vfs_unmount (name : list Z) : V Z :=
  ok ← vfs_start_op;
  if decide (ok ≠ VFS_OK) then mret VFS_UNUSABLE else
  sem_P #vfs_sem;;
  found ← find_loop (Z.to_nat CONFIG_MAX_FILESYSTEMS) 0 (λ row, name_is row name);
  x ← (match found with
       | Some row => e ← get_fs row; mret (ve_filesystem e, row)
       | None => mret (0, CONFIG_MAX_FILESYSTEMS)
       end);
  let '(fs, row) := x in
  if decide (fs = 0) then sem_V #vfs_sem;; end_op VFS_NOT_FOUND else
  sem_P #openfile_sem;;
  used ← find_loop (Z.to_nat CONFIG_MAX_OPEN_FILES) 0 (λ i,
    e ← get_file i; mret (bool_decide (of_filesystem e = fs)));
  match used with
  | Some _ => sem_V #openfile_sem;; sem_V #vfs_sem;; end_op VFS_IN_USE
  | None =>
    zoom (driver fs) fs_unmount;;
    set_fs row (λ e, e <| ve_filesystem := 0 |>);;
    sem_V #openfile_sem;;
    sem_V #vfs_sem;;
    end_op VFS_OK
  end.

(** ** filesystems.c: the drivers in order, the first that accepts the disk *)

Fixpoint filesystems_try_all (table : list (Z → V Z)) (disk : Z) : V Z :=
  match table with
  | [] => mret 0
  | init :: rest =>
    fs ← init disk;
    if decide (fs ≠ 0) then mret fs else filesystems_try_all rest disk
  end.

Definition vfs_mount_fs (table : list (Z → V Z)) (disk : Z) (volumename : option (list Z)) : V Z :=
  fs ← filesystems_try_all table disk;
  if decide (fs = 0) then mret VFS_NO_SUCH_FS else
  d ← gets (λ s, drivers s fs);
  let name := default (fs_volume d) volumename in
  c ← oread (arr_get name 0);
  if decide (c = 0) then zoom (driver fs) fs_unmount;; mret VFS_INVALID_PARAMS else
  ret ← vfs_mount fs name;
  (if decide (ret = VFS_OK) then mret tt else zoom (driver fs) fs_unmount;; mret tt);;
  mret ret.

(** [disk_get i] is the [generic_device] of device_get(YAMS_TYPECODE_DISK, i):
    [None] when there is no such disk, 0 for an invalid driver. *)
Fixpoint mount_all_loop (table : list (Z → V Z)) (disk_get : Z → option Z) (n : nat) (i : Z) : V unit :=
  match n with
  | O => mret tt
  | S n' =>
    match disk_get i with
    | None => mret tt
    | Some gbd =>
      if decide (gbd = 0) then mount_all_loop table disk_get n' (i + 1)
      else vfs_mount_fs table gbd None;; mount_all_loop table disk_get n' (i + 1)
    end
  end.
Definition vfs_mount_all (table : list (Z → V Z)) (disk_get : Z → option Z) : V unit :=
  mount_all_loop table disk_get (Z.to_nat CONFIG_MAX_FILESYSTEMS) 0.

(** ** Files

    The two name buffers are local arrays that vfs_parse_pathname fills. *)
Definition name_buffer : list Z := replicate 16 0.

Definition parse (pathname : list Z) : V (option (list Z * list Z)) :=
  oread (vfs_parse_pathname pathname name_buffer name_buffer).

Definition vfs_open (pathname : list Z) : V Z :=
  ok ← vfs_start_op;
  if decide (ok ≠ VFS_OK) then mret VFS_UNUSABLE else
  names ← parse pathname;
  match names with
  | None => end_op VFS_ERROR
  | Some (volumename, filename) =>
    sem_P #vfs_sem;;
    sem_P #openfile_sem;;
    free ← find_loop (Z.to_nat CONFIG_MAX_OPEN_FILES) 0 (λ file,
      e ← get_file file; mret (bool_decide (of_filesystem e = 0)));
    match free with
    | None => sem_V #openfile_sem;; sem_V #vfs_sem;; end_op VFS_LIMIT
    | Some file =>
      fs ← vfs_get_filesystem volumename;
      if decide (fs = 0) then sem_V #openfile_sem;; sem_V #vfs_sem;; end_op VFS_NO_SUCH_FS else
      set_file file (λ e, e <| of_filesystem := fs |>);;
      sem_V #openfile_sem;;
      sem_V #vfs_sem;;
      id ← zoom (driver fs) (fs_open filename);
      if decide (id < 0) then
        sem_P #openfile_sem;;
        set_file file (λ e, e <| of_filesystem := 0 |>);;
        sem_V #openfile_sem;;
        end_op id
      else
        set_file file (λ e, e <| fileid := id |>);;
        set_file file (λ e, e <| seek_position := 0 |>);;
        end_op file
    end
  end.

Definition vfs_verify_open (file : Z) : V openfile_entry_t :=
  kernel_assert (bool_decide (0 ≤ file ∧ file < CONFIG_MAX_OPEN_FILES));;
  openfile ← get_file file;
  kernel_assert (bool_decide (of_filesystem openfile ≠ 0));;
  mret openfile.

Definition vfs_close (file : Z) : V Z :=
  ok ← vfs_start_op;
  if decide (ok ≠ VFS_OK) then mret VFS_UNUSABLE else
  sem_P #openfile_sem;;
  openfile ← vfs_verify_open file;
  ret ← zoom (driver (of_filesystem openfile)) (fs_close (fileid openfile));
  set_file file (λ e, e <| of_filesystem := 0 |>);;
  sem_V #openfile_sem;;
  end_op ret.

Definition vfs_seek (file seek : Z) : V Z :=
  ok ← vfs_start_op;
  if decide (ok ≠ VFS_OK) then mret VFS_UNUSABLE else
  kernel_assert (bool_decide (0 ≤ seek));;
  sem_P #openfile_sem;;
  vfs_verify_open file;;
  set_file file (λ e, e <| seek_position := seek |>);;
  sem_V #openfile_sem;;
  end_op VFS_OK.

(** The position moves by the number of bytes read or written. *)
Definition advance (file ret : Z) : V unit :=
  if decide (0 < ret) then
    sem_P #openfile_sem;;
    set_file file (λ e, e <| seek_position := i32 (seek_position e + ret) |>);;
    sem_V #openfile_sem
  else mret tt.

(** The buffer is the memory from the caller's pointer on, [None] for NULL. *)
Definition vfs_read (file : Z) (buffer : option (list Z)) (bufsize : Z) : V (Z * list Z) :=
  ok ← vfs_start_op;
  if decide (ok ≠ VFS_OK) then mret (VFS_UNUSABLE, default [] buffer) else
  openfile ← vfs_verify_open file;
  kernel_assert (bool_decide (0 ≤ bufsize ∧ buffer ≠ None));;
  x ← zoom (driver (of_filesystem openfile)) (fs_read (fileid openfile) (default [] buffer) bufsize (seek_position openfile));
  advance file x.1;;
  end_op x.

Definition vfs_write (file : Z) (buffer : option (list Z)) (datasize : Z) : V Z :=
  ok ← vfs_start_op;
  if decide (ok ≠ VFS_OK) then mret VFS_UNUSABLE else
  openfile ← vfs_verify_open file;
  kernel_assert (bool_decide (0 ≤ datasize ∧ buffer ≠ None));;
  ret ← zoom (driver (of_filesystem openfile)) (fs_write (fileid openfile) (default [] buffer) datasize (seek_position openfile));
  advance file ret;;
  end_op ret.

(** The common part of the operations on a name: the volume is looked up and
    the driver runs under the lock of the mount table. *)
Definition vfs_create (pathname : list Z) (size : Z) : V Z :=
  kernel_assert (bool_decide (0 ≤ size));;
  ok ← vfs_start_op;
  if decide (ok ≠ VFS_OK) then mret VFS_UNUSABLE else
  names ← parse pathname;
  match names with
  | None => end_op VFS_ERROR
  | Some (volumename, filename) =>
    sem_P #vfs_sem;;
    fs ← vfs_get_filesystem volumename;
    if decide (fs = 0) then sem_V #vfs_sem;; end_op VFS_NO_SUCH_FS else
    ret ← zoom (driver fs) (fs_create filename size);
    sem_V #vfs_sem;;
    end_op ret
  end.

Definition vfs_remove (pathname : list Z) : V Z :=
  ok ← vfs_start_op;
  if decide (ok ≠ VFS_OK) then mret VFS_UNUSABLE else
  names ← parse pathname;
  match names with
  | None => end_op VFS_ERROR
  | Some (volumename, filename) =>
    sem_P #vfs_sem;;
    fs ← vfs_get_filesystem volumename;
    if decide (fs = 0) then sem_V #vfs_sem;; end_op VFS_NO_SUCH_FS else
    ret ← zoom (driver fs) (fs_remove filename);
    sem_V #vfs_sem;;
    end_op ret
  end.

Definition vfs_getfree (filesystem : list Z) : V Z :=
  ok ← vfs_start_op;
  if decide (ok ≠ VFS_OK) then mret VFS_UNUSABLE else
  sem_P #vfs_sem;;
  fs ← vfs_get_filesystem filesystem;
  if decide (fs = 0) then sem_V #vfs_sem;; end_op VFS_NO_SUCH_FS else
  ret ← zoom (driver fs) fs_getfree;
  sem_V #vfs_sem;;
  end_op ret.

Fixpoint count_mounted (n : nat) (i filecount : Z) : V Z :=
  match n with
  | O => mret filecount
  | S n' =>
    e ← get_fs i;
    count_mounted n' (i + 1) (if decide (ve_filesystem e ≠ 0) then filecount + 1 else filecount)
  end.

(** [None] is NULL: the number of mounted file systems. *)
Definition vfs_filecount (name : option (list Z)) : V Z :=
  ok ← vfs_start_op;
  if decide (ok ≠ VFS_OK) then mret VFS_UNUSABLE else
  sem_P #vfs_sem;;
  sem_P #openfile_sem;;
  match name with
  | None =>
    filecount ← count_mounted (Z.to_nat CONFIG_MAX_FILESYSTEMS) 0 0;
    sem_V #openfile_sem;;
    sem_V #vfs_sem;;
    end_op filecount
  | Some name =>
    fs ← vfs_get_filesystem name;
    if decide (fs = 0) then sem_V #openfile_sem;; sem_V #vfs_sem;; end_op VFS_NO_SUCH_FS else
    sem_V #openfile_sem;;
    sem_V #vfs_sem;;
    filecount ← zoom (driver fs) fs_filecount;
    end_op filecount
  end.

Definition vfs_file (name : option (list Z)) (index : Z) (buffer : list Z) : V (Z * list Z) :=
  ok ← vfs_start_op;
  if decide (ok ≠ VFS_OK) then mret (VFS_UNUSABLE, buffer) else
  sem_P #vfs_sem;;
  sem_P #openfile_sem;;
  match name with
  | None =>
    e ← get_fs index;
    buffer ← oread (stringcopy buffer (mountpoint e) VFS_NAME_LENGTH);
    sem_V #openfile_sem;;
    sem_V #vfs_sem;;
    end_op (0, buffer)
  | Some name =>
    fs ← vfs_get_filesystem name;
    if decide (fs = 0) then sem_V #openfile_sem;; sem_V #vfs_sem;; end_op (VFS_NO_SUCH_FS, buffer) else
    sem_V #openfile_sem;;
    sem_V #vfs_sem;;
    x ← zoom (driver fs) (fs_file index buffer);
    end_op x
  end.
End vfs.
End Vfs.
