(* ===== verification/VfsSpec.v ===== *)
(** * Properties of the virtual file system

    The path parser against a reference, the bookkeeping of operations in
    progress, and what opening a file and moving its position does. *)
From S2P Require Import Prelude Bytes Libc Sync Vfs.
Import Libc Vfs.

Module VfsSpec.

(** ** Path names *)

(** The part before the first ']' and the part after it. *)
Fixpoint split_bracket (l : list Z) : option (list Z * list Z) :=
  match l with
  | [] => None
  | c :: r => if decide (c = 93) then Some ([], r) else '(vol, name) ← split_bracket r; Some (c :: vol, name)
  end.

(** "[volume]name" or "name". *)
Definition split_path (l : list Z) : option (list Z * list Z) :=
  x ← (match l with 91 :: r => split_bracket r | _ => Some ([], l) end);
  let '(vol, name) := x in
  if decide ((length vol ≤ 14)%nat ∧ (1 ≤ length name ≤ 15)%nat) then Some (vol, name) else None.

Lemma parse_volume_spec n path r buf v :
  cstr path = Some r → 0 ≤ v → v + Z.of_nat n ≤ Z.of_nat (length buf) →
  match split_bracket r with
  | Some (vol, name) =>
      if decide (length vol < n)%nat
      then ∃ path', parse_volume n path buf v = Some (Some (path', splice buf v vol, v + Z.of_nat (length vol))) ∧
             cstr path' = Some name
      else parse_volume n path buf v = Some None
  | None => parse_volume n path buf v = Some None
  end.
Proof.
  revert path r buf v. induction n as [|n IH]; intros path r buf v Hr Hv Hn; cbn [parse_volume].
  { destruct (split_bracket r) as [[vol name]|]; [|done]. case_decide; [lia|done]. }
  destruct path as [|c path]; [done|]. simpl in Hr. destruct (decide (c = 0)) as [->|Hc].
  - injection Hr as <-. done.
  - destruct (cstr path) as [r'|] eqn:E; [|done]. injection Hr as <-. simpl. destruct (decide (c = 93)) as [->|Hc'].
    + destruct (decide (length (@nil Z) < S n)%nat) as [_|Hx]; [|simpl in Hx; lia]. exists path. split; [|done]. simpl. rw Z.add_0_r. do 4 f_equal.
      unfold splice. simpl. by rw Nat.add_0_r take_drop.
    + rw arr_set_Some; [lia|]. simpl.
      specialize (IH path r' (<[Z.to_nat v := c]> buf) (v + 1) E ltac:(lia)). rw length_insert in IH.
      specialize (IH ltac:(lia)). destruct (split_bracket r') as [[vol name]|]; [|done]. simpl in *.
      destruct (decide (length vol < n)%nat) as [Hl|Hl].
      * destruct (decide (S (length vol) < S n)%nat) as [_|Hx]; [|lia]. destruct IH as (path' & Hp & Hcs). exists path'. split; [|done]. rw Hp.
        do 3 f_equal; [f_equal|lia]. apply splice_cons_insert; lia.
      * destruct (decide (S (length vol) < S n)%nat) as [Hx|_]; [lia|done].
Qed.

Lemma parse_filename_spec n path r buf i :
  cstr path = Some r → 0 ≤ i → i + Z.of_nat n ≤ Z.of_nat (length buf) →
  parse_filename n path buf i =
    if decide (length r < n)%nat then
      if decide (i = 0 ∧ r = []) then Some None else Some (Some (splice buf i (r ++ [0])))
    else Some None.
Proof.
  revert path r buf i. induction n as [|n IH]; intros path r buf i Hr Hi Hn; cbn [parse_filename].
  { case_decide; [lia|done]. }
  destruct path as [|c path]; [done|]. simpl in Hr. rw arr_set_Some; [lia|]. simpl.
  destruct (decide (c = 0)) as [->|Hc].
  - injection Hr as <-. destruct (decide (length (@nil Z) < S n)%nat) as [_|Hx]; [|simpl in Hx; lia].
    assert (splice buf i ([] ++ [0]) = <[Z.to_nat i := 0]> buf) as ->.
    { simpl. rw -splice_cons_insert; [simpl; lia..|]. unfold splice. simpl. by rw Nat.add_0_r take_drop. }
    destruct (decide (i = 0)), (decide (i = 0 ∧ @nil Z = [])); tauto || done.
  - destruct (cstr path) as [r'|] eqn:E; [|done]. injection Hr as <-. simpl.
    rw (IH path r' _ _ E); [lia|rw length_insert; lia|].
    rw (decide_False (P := i + 1 = 0 ∧ _)); [lia|].
    rw (decide_False (P := i = 0 ∧ _)); [intros [_ ?]; done|].
    destruct (decide (length r' < n)%nat).
    + rw decide_True; [lia|]. do 2 f_equal. apply splice_cons_insert; [lia|]. rw length_app /=. lia.
    + rw decide_False //. lia.
Qed.

Lemma cstr_splice buf l : 0 ∉ l → (length l < length buf)%nat → cstr (splice buf 0 (l ++ [0])) = Some l.
Proof. intros Hl Hn. unfold splice. simpl. rw -app_assoc /=. by apply cstr_app. Qed.

Lemma splice_terminated buf l :
  (length l < length buf)%nat →
  arr_set (splice buf 0 l) (Z.of_nat (length l)) 0 = Some (splice buf 0 (l ++ [0])).
Proof.
  intros Hl. assert (length (splice buf 0 l) = length buf) as L by (apply length_splice; lia).
  rw arr_set_Some; [lia|]. f_equal. apply arr_ext. intros i Hi.
  rw arr_get_insert; [lia|]. rw !arr_get_splice ?length_app /=; [lia..|]. rw !arr_get_app; [lia..|].
  rw Z.sub_0_r. repeat case_decide; try lia; try done. subst. by rw Z.sub_diag.
Qed.

Lemma split_bracket_clean l vol name :
  split_bracket l = Some (vol, name) → 0 ∉ l → 0 ∉ vol ∧ 0 ∉ name.
Proof.
  revert vol. induction l as [|c l IH]; intros vol; simpl; [done|]. case_decide.
  - intros [= <- <-] [_ Hn]%not_elem_of_cons. split; [apply not_elem_of_nil|done].
  - destruct (split_bracket l) as [[v n]|]; [|done]. intros [= <- <-] [Hc Hn]%not_elem_of_cons.
    destruct (IH v eq_refl Hn) as [? ?]. split; [by apply not_elem_of_cons|done].
Qed.

(** The second half of the parser. *)
Lemma parse_rest vol name path vb fb :
  cstr path = Some name → (length vol ≤ 14)%nat → 0 ∉ vol → 0 ∉ name → length vb = 16%nat → length fb = 16%nat →
  (volumebuf ← arr_set (splice vb 0 vol) (Z.of_nat (length vol)) 0;
   y ← parse_filename (Z.to_nat VFS_NAME_LENGTH) path fb 0;
   match y with None => Some None | Some filenamebuf => Some (Some (volumebuf, filenamebuf)) end) =
  if decide (1 ≤ length name ≤ 15)%nat
  then Some (Some (splice vb 0 (vol ++ [0]), splice fb 0 (name ++ [0]))) else Some None.
Proof.
  intros Hp Hv Hz Hz' Hvb Hfb. rw splice_terminated; [lia|]. cbn [mbind option_bind].
  change (Z.to_nat VFS_NAME_LENGTH) with 16%nat.
  rw (parse_filename_spec 16 path name fb 0 Hp); [lia|lia|].
  destruct (decide (length name < 16)%nat) as [Hl|Hl].
  - destruct (decide (0 = 0 ∧ name = [])) as [[_ ->]|Hne]; [by simpl|]. simpl. rw decide_True //.
    destruct name; [by destruct Hne|simpl in *; lia].
  - simpl. rw decide_False; [lia|done].
Qed.

Lemma parse_pathname_run path l vb fb :
  cstr path = Some l → length vb = 16%nat → length fb = 16%nat →
  match split_path l with
  | Some (vol, name) => ∃ vb' fb', vfs_parse_pathname path vb fb = Some (Some (vb', fb')) ∧
      cstr vb' = Some vol ∧ cstr fb' = Some name
  | None => vfs_parse_pathname path vb fb = Some None
  end.
Proof.
  intros Hl Hvb Hfb. pose proof (cstr_inv _ _ Hl) as [Hz _]. unfold split_path, vfs_parse_pathname.
  assert (∀ vol name path' x, cstr path' = Some name → 0 ∉ vol → 0 ∉ name → (length vol ≤ 14)%nat →
    x = (if decide (1 ≤ length name ≤ 15)%nat
         then Some (Some (splice vb 0 (vol ++ [0]), splice fb 0 (name ++ [0]))) else Some None) →
    match (if decide ((length vol ≤ 14)%nat ∧ (1 ≤ length name ≤ 15)%nat) then Some (vol, name) else None) with
    | Some (vol, name) => ∃ vb' fb', x = Some (Some (vb', fb')) ∧ cstr vb' = Some vol ∧ cstr fb' = Some name
    | None => x = Some None
    end) as Hend.
  { intros vol name path' x Hp Hv Hn Hlen ->. destruct (decide (1 ≤ length name ≤ 15)%nat).
    - rw decide_True //. eexists _, _. split; [done|]. split; apply cstr_splice; try done; lia.
    - rw decide_False //. tauto. }
  destruct path as [|c path]; [done|]. simpl in Hl. destruct (decide (c = 91)) as [->|Hc].
  - simpl in Hl. destruct (cstr path) as [r|] eqn:E; [|done]. injection Hl as <-.
    apply not_elem_of_cons in Hz as [_ Hz].
    pose proof (parse_volume_spec 15 path r vb 0 E ltac:(lia) ltac:(lia)) as Hp.
    change (Z.to_nat (VFS_NAME_LENGTH - 1)) with 15%nat. cbn [mbind option_bind].
    destruct (split_bracket r) as [[vol name]|] eqn:Eb; [|by rw Hp].
    destruct (split_bracket_clean _ _ _ Eb Hz) as [Hz1 Hz2]. destruct (decide (length vol < 15)%nat) as [Hv|Hv].
    + destruct Hp as (path' & -> & Hcs). cbn [mbind option_bind]. rw Z.add_0_l.
      apply (Hend vol name path'); try done; [lia|]. rw (parse_rest vol name path') //. lia.
    + rw Hp. cbn [mbind option_bind]. rw decide_False; [lia|done].
  - assert (cstr (c :: path) = Some l) as Hcs by exact Hl.
    assert (match l with 91 :: r => split_bracket r | _ => Some ([], l) end = Some ([], l)) as ->.
    { destruct l as [|x l]; [done|]. destruct (decide (x = 91)) as [->|Hx].
      - exfalso. case_decide; [done|]. destruct (cstr path); simpl in Hl; congruence.
      - by repeat (case_match; try congruence). }
    cbn [mbind option_bind].
    apply (Hend [] l (c :: path)); try done; [apply not_elem_of_nil|simpl; lia|].
    pose proof (parse_rest [] l (c :: path) vb fb Hcs) as Hr. cbn [length] in Hr. change (Z.of_nat 0) with 0 in Hr.
    assert (splice vb 0 [] = vb) as Hs0 by (unfold splice; simpl; by rw drop_0).
    rw Hs0 in Hr. apply Hr; try done; [lia|apply not_elem_of_nil].
Qed.

(** The path parser accepts exactly the paths "[volume]name" and
    "name" whose volume part has at most 14 and whose file name has between 1 and
    15 characters; the two buffers then hold the two parts. It never leaves its
    buffers. A volume name of 15 characters, which can be mounted, cannot be named
    in a path. *)
Theorem vfs_parse_pathname_splits path l vb fb :
  cstr path = Some l → length vb = 16%nat → length fb = 16%nat →
  match split_path l with
  | Some (vol, name) => ∃ vb' fb', vfs_parse_pathname path vb fb = Some (Some (vb', fb')) ∧
      cstr vb' = Some vol ∧ cstr fb' = Some name
  | None => vfs_parse_pathname path vb fb = Some None
  end.
Proof. apply parse_pathname_run. Qed.

Lemma vfs_parse_pathname_splits_witness :
  ∃ vb fb, vfs_parse_pathname [91; 97; 98; 93; 102; 0] (replicate 16 0) (replicate 16 0) = Some (Some (vb, fb)) ∧
    cstr vb = Some [97; 98] ∧ cstr fb = Some [102].
Proof.
  exact (vfs_parse_pathname_splits [91; 97; 98; 93; 102; 0] [91; 97; 98; 93; 102] (replicate 16 0) (replicate 16 0)
    eq_refl eq_refl eq_refl).
Defined.

(** ** Operations in progress *)

Section ops.
Context {F : Type} `{FileSystem F} (I : F → Prop) `{!FsWaitFree F I}.
Abbreviation vfs := (vfs_t (F := F)).

Inductive request :=
| Mount (fs : Z) (name : list Z) | Unmount (name : list Z)
| Open (pathname : list Z) | Close (file : Z) | Seek (file position : Z)
| Read (file : Z) (buffer : option (list Z)) (bufsize : Z) | Write (file : Z) (buffer : option (list Z)) (datasize : Z)
| Create (pathname : list Z) (size : Z) | Remove (pathname : list Z)
| GetFree (filesystem : list Z) | FileCount (name : option (list Z))
| File (name : option (list Z)) (index : Z) (buffer : list Z).

Definition vfs_exec (q : request) : M vfs (Z * list Z) :=
  match q with
  | Mount fs name => r ← vfs_mount fs name; mret (r, [])
  | Unmount name => r ← vfs_unmount name; mret (r, [])
  | Open pathname => r ← vfs_open pathname; mret (r, [])
  | Close file => r ← vfs_close file; mret (r, [])
  | Seek file position => r ← vfs_seek file position; mret (r, [])
  | Read file buffer bufsize => vfs_read file buffer bufsize
  | Write file buffer datasize => r ← vfs_write file buffer datasize; mret (r, [])
  | Create pathname size => r ← vfs_create pathname size; mret (r, [])
  | Remove pathname => r ← vfs_remove pathname; mret (r, [])
  | GetFree filesystem => r ← vfs_getfree filesystem; mret (r, [])
  | FileCount name => r ← vfs_filecount name; mret (r, [])
  | File name index buffer => vfs_file name index buffer
  end.

(** Vfs_usable, which is 0 once the system is being halted. *)
Variable u : Z.

(** The permits of the two table locks and of the lock of the operation count,
    the count, and whether every driver is in a state [I]. *)
Record marks (live : bool) (v o p n : Z) (s : vfs) : Prop := {
  mk_vfs : vfs_sem s = v; mk_open : openfile_sem s = o; mk_op : vfs_op_sem s = p;
  mk_ops : vfs_ops s = n; mk_usable : vfs_usable s = u;
  mk_live : live = true → ∀ q, I (drivers s q) }.

Lemma P_vfs live o p n : runs (marks live 1 o p n) (sem_P #vfs_sem) (marks live 0 o p n).
Proof. apply runs_P. intros s [M1 M2 M3 M4 M5 M6]. cbn. rw M1. split; [lia|]. constructor; try done; cbn; lia. Qed.
Lemma V_vfs live o p n : runs (marks live 0 o p n) (sem_V #vfs_sem) (marks live 1 o p n).
Proof. apply runs_V. intros s [M1 M2 M3 M4 M5 M6]. cbn. rw M1. constructor; try done; cbn; lia. Qed.
Lemma P_open live v p n : runs (marks live v 1 p n) (sem_P #openfile_sem) (marks live v 0 p n).
Proof. apply runs_P. intros s [M1 M2 M3 M4 M5 M6]. cbn. rw M2. split; [lia|]. constructor; try done; cbn; lia. Qed.
Lemma V_open live v p n : runs (marks live v 0 p n) (sem_V #openfile_sem) (marks live v 1 p n).
Proof. apply runs_V. intros s [M1 M2 M3 M4 M5 M6]. cbn. rw M2. constructor; try done; cbn; lia. Qed.
Lemma P_op live v o n : runs (marks live v o 1 n) (sem_P #vfs_op_sem) (marks live v o 0 n).
Proof. apply runs_P. intros s [M1 M2 M3 M4 M5 M6]. cbn. rw M3. split; [lia|]. constructor; try done; cbn; lia. Qed.
Lemma V_op live v o n : runs (marks live v o 0 n) (sem_V #vfs_op_sem) (marks live v o 1 n).
Proof. apply runs_V. intros s [M1 M2 M3 M4 M5 M6]. cbn. rw M3. constructor; try done; cbn; lia. Qed.

Lemma start_ok {A} live v o n Q (bad rest : M vfs A) :
  runs (marks live v o 1 n) bad Q → runs (marks live v o 1 (n + 1)) rest Q →
  runs (marks live v o 1 n) (ok ← vfs_start_op; if decide (ok ≠ VFS_OK) then bad else rest) Q.
Proof.
  intros Hb Hr s [M1 M2 M3 M4 M5 M6]. unfold vfs_start_op. rw !bind_bind bind_sem_P; [cbn; lia|].
  rw bind_bind bind_gets. change (vfs_usable (lset _ _ s)) with (vfs_usable s). destruct (decide (vfs_usable s ≠ 0)) as [_|Hx].
  - rw !bind_bind bind_modify bind_ret !bind_bind bind_sem_V bind_ret.
    destruct (decide (VFS_OK ≠ VFS_OK)) as [Hx|_]; [by destruct Hx|]. apply Hr. constructor; try done.
    + change (vfs_op_sem s - 1 + 1 = 1). lia.
    + change (vfs_ops s + 1 = n + 1). lia.
  - rw !bind_bind bind_ret !bind_bind bind_sem_V bind_ret.
    destruct (decide (VFS_UNUSABLE ≠ VFS_OK)) as [_|Hy]; [|by destruct Hy]. apply Hb. constructor; try done.
    change (vfs_op_sem s - 1 + 1 = 1). lia.
Qed.

Lemma end_ok {A} live v o n (r : A) : runs (marks live v o 1 (n + 1)) (end_op r) (marks live v o 1 n).
Proof.
  intros s [M1 M2 M3 M4 M5 M6]. unfold end_op, vfs_end_op. rw !bind_bind bind_sem_P; [cbn; lia|].
  rw bind_bind bind_modify bind_bind bind_gets bind_bind.
  match goal with |- context [kernel_assert ?b] => destruct b end; [|done].
  change (kernel_assert true) with (mret tt : M vfs unit). rw bind_ret bind_bind bind_gets bind_bind.
  match goal with |- context [decide ?P] => destruct (decide P) as [_|_] end.
  all: rw ?bind_ret ?bind_sem_V ?bind_sem_V; constructor; try done;
    [change (vfs_op_sem s - 1 + 1 = 1); lia|change (vfs_ops s - 1 = n); lia].
Qed.

(** Accesses to the tables keep the marks. *)
Lemma read_fs live v o p n row : runs (marks live v o p n) (get_fs row) (marks live v o p n).
Proof. apply runs_read. Qed.
Lemma read_file live v o p n i : runs (marks live v o p n) (get_file i) (marks live v o p n).
Proof. apply runs_read. Qed.
Lemma write_fs live v o p n row f : runs (marks live v o p n) (set_fs row f) (marks live v o p n).
Proof. intros s [M1 M2 M3 M4 M5 M6]. unfold set_fs. destruct (arr_get _ _); [|done]. by constructor. Qed.
Lemma write_file live v o p n i f : runs (marks live v o p n) (set_file i f) (marks live v o p n).
Proof. intros s [M1 M2 M3 M4 M5 M6]. unfold set_file. destruct (arr_get _ _); [|done]. by constructor. Qed.
Lemma in_driver {A} v o p n q (m : M F A) :
  runs I m I → runs (marks true v o p n) (zoom (driver q) m) (marks true v o p n).
Proof.
  intros Hm. apply (runs_zoom _ _ I I); [done|intros s Hs; by apply Hs|].
  intros s t [M1 M2 M3 M4 M5 M6] Ht. constructor; try done. intros _ q'.
  change (I (if decide (q' = q) then t else drivers s q')). case_decide; [done|by apply M6].
Qed.
Lemma in_unmount v o p n q : runs (marks true v o p n) (zoom (driver q) fs_unmount) (marks false v o p n).
Proof.
  apply (runs_zoom _ _ I (λ _, True)); [apply wf_unmount|intros s Hs; by apply Hs|].
  intros s t [M1 M2 M3 M4 M5 M6] _. by constructor.
Qed.
Lemma same_name live v o p n row name : runs (marks live v o p n) (name_is row name) (marks live v o p n).
Proof.
  eapply runs_bind; [apply read_fs|intros e]. eapply runs_bind; [apply runs_oread|intros c]. apply runs_ret.
Qed.
Lemma lookup_fs live v o p n name : runs (marks live v o p n) (vfs_get_filesystem name) (marks live v o p n).
Proof.
  eapply runs_bind; [apply runs_find; intros i; apply same_name|]. intros [row|]; [|apply runs_ret].
  eapply runs_bind; [apply read_fs|intros e; apply runs_ret].
Qed.
Lemma verify_open live v o p n file : runs (marks live v o p n) (vfs_verify_open file) (marks live v o p n).
Proof.
  eapply runs_bind; [apply runs_assert|intros _]. eapply runs_bind; [apply read_file|intros e].
  eapply runs_bind; [apply runs_assert|intros _]. apply runs_ret.
Qed.
Lemma count_fs live v o p n k i x : runs (marks live v o p n) (count_mounted k i x) (marks live v o p n).
Proof.
  revert i x. induction k as [|k IH]; intros i x; [apply runs_ret|]. cbn [count_mounted].
  eapply runs_bind; [apply read_fs|intros e; apply IH].
Qed.
End ops.

Create HintDb vfs_marks.
#[export] Hint Resolve runs_ret runs_gets runs_oread runs_assert P_vfs V_vfs P_open V_open end_ok read_fs read_file
  write_fs write_file same_name lookup_fs verify_open count_fs : vfs_marks.

Ltac vfs_step :=
  lazymatch goal with
  | |- runs _ (_ ← vfs_start_op; _) _ => apply start_ok
  | |- runs (marks _ _ true _ _ _ _) (mret _) (marks _ _ false _ _ _ _) => intros ? []; by constructor
  | |- runs _ (_ ≫= _) _ => eapply runs_bind; [|intros ?]
  | |- runs _ (if decide ?P then _ else _) _ => destruct (decide P)
  | |- runs _ (let '(_, _) := ?x in _) _ => destruct x
  | |- runs _ (match ?x with _ => _ end) _ => destruct x
  | |- runs _ (find_loop _ _ _) _ => apply runs_find; intros ?
  | |- runs _ (zoom (driver _) fs_unmount) _ => apply in_unmount; assumption
  | |- runs _ (zoom (driver _) _) _ =>
      eapply in_driver; first [eapply wf_open|eapply wf_close|eapply wf_read|eapply wf_write|eapply wf_create
        |eapply wf_remove|eapply wf_getfree|eapply wf_filecount|eapply wf_file]
  | |- _ => solve [eauto with vfs_marks]
  end.

Section brackets.
Context {F : Type} `{FileSystem F} (I : F → Prop) `{!FsWaitFree F I}.
Abbreviation idle u := (marks (F := F) I u true 1 1 1).

Definition is_unmount (q : request) : bool := match q with Unmount _ => true | _ => false end.

Lemma vfs_mount_runs u n fs name : runs (idle u n) (vfs_mount fs name) (idle u n).
Proof. unfold vfs_mount. repeat vfs_step. Qed.
Lemma vfs_unmount_runs u n name : runs (idle u n) (vfs_unmount name) (marks I u false 1 1 1 n).
Proof.
  unfold vfs_unmount. repeat vfs_step.
  all: intros s Hs; apply (end_ok I u false); destruct Hs; by constructor.
Qed.

Lemma vfs_exec_runs u n q : runs (idle u n) (vfs_exec q) (marks I u (negb (is_unmount q)) 1 1 1 n).
Proof.
  destruct q as [fs name|name|path|file|file pos|file buf len|file buf len|path size|path|name|[name|]|[name|] index buf];
    unfold vfs_exec, is_unmount, negb.
  - eapply runs_bind; [apply vfs_mount_runs|intros r; apply runs_ret].
  - eapply runs_bind; [apply vfs_unmount_runs|intros r; apply runs_ret].
  - unfold vfs_open, parse. repeat vfs_step.
  - unfold vfs_close. repeat vfs_step.
  - unfold vfs_seek. repeat vfs_step.
  - unfold vfs_read, advance. repeat vfs_step.
  - unfold vfs_write, advance. repeat vfs_step.
  - unfold vfs_create, parse. repeat vfs_step.
  - unfold vfs_remove, parse. repeat vfs_step.
  - unfold vfs_getfree. repeat vfs_step.
  - unfold vfs_filecount. repeat vfs_step.
  - unfold vfs_filecount. repeat vfs_step.
  - unfold vfs_file. repeat vfs_step.
  - unfold vfs_file. repeat vfs_step.
Qed.

(** A request that is not stopped by an assertion on its arguments. *)
Definition well_formed (q : request) : Prop :=
  match q with
  | Mount _ name => ∃ c, arr_get name 0 = Some c ∧ c ≠ 0
  | Create _ size => 0 ≤ size
  | _ => True
  end.

Definition buffer_of (q : request) : list Z :=
  match q with Read _ buffer _ => default [] buffer | File _ _ buffer => buffer | _ => [] end.

Lemma start_halted {A} (s : vfs_t) (bad rest : M (vfs_t (F := F)) A) :
  vfs_op_sem s = 1 → vfs_usable s = 0 →
  (ok ← vfs_start_op; if decide (ok ≠ VFS_OK) then bad else rest) s = bad s.
Proof.
  intros M3 M5. unfold vfs_start_op. rw !bind_bind bind_sem_P; [cbn; lia|].
  rw bind_bind bind_gets. change (vfs_usable (lset _ _ s)) with (vfs_usable s). rw M5.
  destruct (decide (0 ≠ 0)) as [Hx|_]; [lia|]. rw !bind_bind bind_ret !bind_bind bind_sem_V bind_ret.
  destruct (decide (VFS_UNUSABLE ≠ VFS_OK)) as [_|Hx]; [|by destruct Hx]. f_equal.
  cbn. rw M3. destruct s; cbn in M3; by subst.
Qed.

Ltac refused := first [apply start_halted|erewrite bind_Done; [|apply start_halted]].

(** Once the system is being halted every operation answers
    VFS_UNUSABLE and changes nothing. *)
Theorem vfs_halted_refuses q s :
  well_formed q → vfs_op_sem s = 1 → vfs_usable s = 0 →
  vfs_exec q s = Done (VFS_UNUSABLE, buffer_of q) s.
Proof.
  intros Hq M3 M5.
  destruct q as [fs name|name|path|file|file pos|file buf len|file buf len|path size|path|name|name|name index buf];
    unfold vfs_exec, buffer_of; simpl in Hq.
  1: { destruct Hq as (c & Hc & Hnz). unfold vfs_mount. rw Hc bind_bind. cbn [oread]. rw bind_ret bool_decide_true // bind_bind.
       cbn [kernel_assert]. rw bind_ret. by refused. }
  7: { unfold vfs_create. rw bool_decide_true // bind_bind. cbn [kernel_assert]. rw bind_ret. by refused. }
  all: unfold vfs_unmount, vfs_open, vfs_close, vfs_seek, vfs_read, vfs_write, vfs_remove, vfs_getfree,
    vfs_filecount, vfs_file; by refused.
Qed.

(** An operation that returns was well-formed. *)
Lemma returns_well_formed q s r s' : vfs_exec q s = Done r s' → well_formed q.
Proof.
  destruct q as [fs name|name|path|file|file pos|file buf len|file buf len|path size|path|name|name|name index buf]; try done; cbn.
  - unfold vfs_mount. destruct (arr_get name 0) as [c|]; [|done]. rw bind_bind. cbn [oread]. rw bind_ret.
    case_bool_decide as Hc; [|done]. intros _. by exists c.
  - unfold vfs_create. case_bool_decide as Hc; [done|]. done.
Qed.

(** C40 (safety): an operation of the virtual file system on drivers that do not
    wait, started with the three locks free, does not wait either, and whenever it
    returns, on success or with an error, it has given back every lock it took and
    the number of operations in progress is the number before; the drivers are
    again in states in which they do not wait, until one is unmounted. Once the
    system is being halted it returns VFS_UNUSABLE and has changed nothing. *)
Theorem vfs_returns_locks q u n s :
  idle u n s →
  match vfs_exec q s with
  | Done r s' => marks I u (negb (is_unmount q)) 1 1 1 n s' ∧ (u = 0 → r.1 = VFS_UNUSABLE ∧ s' = s)
  | Blocked _ _ => False
  | _ => True
  end.
Proof.
  intros Hs. pose proof (vfs_exec_runs u n q s Hs) as Hrun. destruct (vfs_exec q s) as [r s'| | | |] eqn:E; try done.
  split; [exact Hrun|]. intros ->. pose proof (returns_well_formed q s r s' E) as Hq.
  rewrite (vfs_halted_refuses q s Hq (mk_op _ _ _ _ _ _ _ _ Hs) (mk_usable _ _ _ _ _ _ _ _ Hs)) in E. by injection E as <- <-.
Qed.
End brackets.
End VfsSpec.
