(* ===== verification/VfsFile.v ===== *)
(** * Open files of the virtual file system

    What opening, reading and seeking do to the tables, for any driver. *)
From S2P Require Import Prelude Bytes Libc Sync Vfs VfsSpec.
Import Libc Vfs VfsSpec.

Module VfsFile.

Section files.
Context {F : Type} `{FileSystem F}.
Abbreviation vfs := (vfs_t (F := F)).

(** The virtual file system between two operations. *)
Definition vfs_at (fss : list vfs_entry_t) (fl : list openfile_entry_t) (u n : Z) (dr : Z → F) : vfs :=
  VfsT 1 fss 1 fl 1 u n 1 dr.

(** The tables have their sizes and every mount point has a name. *)
Record tables_ok (fss : list vfs_entry_t) (fl : list openfile_entry_t) : Prop := {
  to_fss : length fss = 8%nat; to_files : length fl = 512%nat;
  to_names : Forall (λ e, is_Some (cstr (mountpoint e))) fss }.

(** The driver mounted under a name, or 0. *)
Definition volume_of (fss : list vfs_entry_t) (vol : list Z) : Z :=
  match list_find (λ e, cstr (mountpoint e) = Some vol) fss with Some (_, e) => ve_filesystem e | None => 0 end.

(** The lowest entry without a file. *)
Definition free_file (fl : list openfile_entry_t) : option Z :=
  (λ r, Z.of_nat r.1) <$> list_find (λ e, of_filesystem e = 0) fl.

Definition with_driver (dr : Z → F) (fs : Z) (d : F) : Z → F := λ q, if decide (q = fs) then d else dr q.

Lemma find_free (s : vfs) :
  length (files s) = 512%nat →
  find_loop (Z.to_nat CONFIG_MAX_OPEN_FILES) 0 (λ file,
    e ← get_file file; mret (bool_decide (of_filesystem e = 0))) s = Done (free_file (files s)) s.
Proof.
  intros Hl. change (Z.to_nat CONFIG_MAX_OPEN_FILES) with 512%nat. rw -Hl.
  apply (find_loop_list (λ e, of_filesystem e = 0)). intros i x Hx. unfold get_file, mbind, M_bind, arr_get.
  rw decide_True; [lia|]. rw Z.add_0_l Nat2Z.id Hx. done.
Qed.

Lemma find_named name l (s : vfs) :
  length (vfs_filesystems s) = 8%nat → Forall (λ e, is_Some (cstr (mountpoint e))) (vfs_filesystems s) →
  cstr name = Some l →
  find_loop (Z.to_nat CONFIG_MAX_FILESYSTEMS) 0 (λ i, name_is i name) s =
    Done ((λ r, Z.of_nat r.1) <$> list_find (λ e, cstr (mountpoint e) = Some l) (vfs_filesystems s)) s.
Proof.
  intros Hl Hn Hv. change (Z.to_nat CONFIG_MAX_FILESYSTEMS) with 8%nat. rw -Hl.
  apply (find_loop_list (λ e, cstr (mountpoint e) = Some l)). intros i x Hx. unfold name_is, get_fs.
  unfold mbind at 1, M_bind at 1. unfold arr_get. rw decide_True; [lia|]. rw Z.add_0_l Nat2Z.id Hx.
  cbn [oread obind mret M_ret].
  destruct (proj1 (Forall_lookup _ _) Hn i x Hx) as [m Hm].
  destruct (stringcmp_defined _ _ _ _ Hm Hv) as [c Hc]. rw Hc bind_oread. unfold mret, M_ret. f_equal.
  apply bool_decide_ext. pose proof (stringcmp_zero _ _ _ _ Hm Hv) as Hz. rw Hc in Hz. rw Hm. split.
  - intros ->. f_equal. by apply Hz.
  - intros [= ->]. destruct Hz as [_ Hz]. by injection (Hz eq_refl).
Qed.

Lemma find_volume name vol (s : vfs) :
  length (vfs_filesystems s) = 8%nat → Forall (λ e, is_Some (cstr (mountpoint e))) (vfs_filesystems s) →
  cstr name = Some vol →
  vfs_get_filesystem name s = Done (volume_of (vfs_filesystems s) vol) s.
Proof.
  intros Hl Hn Hv. unfold vfs_get_filesystem, volume_of. rw (bind_Done _ _ _ _ _ (find_named name vol s Hl Hn Hv)).
  destruct (list_find _ _) as [[i e]|] eqn:E; [|done].
  apply list_find_Some in E as (E & _ & _). cbn. unfold get_fs, mbind, M_bind, arr_get.
  rw decide_True; [lia|]. rw Nat2Z.id E. done.
Qed.

Lemma bind_start {A} a fss b fl u n (dr : Z → F) (f : Z → M vfs A) :
  (vfs_start_op ≫= f) (VfsT a fss b fl 1 u n 1 dr) = f VFS_OK (VfsT a fss b fl 1 u (n + 1) 1 dr).
Proof. reflexivity. Qed.

Lemma end_run {A} a fss b fl u n (dr : Z → F) (r : A) :
  0 ≤ n → end_op r (VfsT a fss b fl 1 u (n + 1) 1 dr) = Done r (VfsT a fss b fl 1 u n 1 dr).
Proof.
  intros Hn. unfold end_op, vfs_end_op. rw !bind_bind bind_sem_P; [cbn; lia|].
  rw bind_bind bind_modify bind_bind bind_gets bind_bind bind_assert; [change (0 ≤ n + 1 - 1); lia|].
  rw bind_bind bind_gets bind_bind.
  rw bind_ret bind_sem_V. change (Done r (VfsT a fss b fl 1 u (n + 1 - 1) 1 dr) = Done r (VfsT a fss b fl 1 u n 1 dr)).
  by rw Z.add_simpl_r.
Qed.

Lemma set_file_run a fss b fl u n (dr : Z → F) file e f :
  arr_get fl file = Some e →
  set_file file f (VfsT a fss b fl 1 u n 1 dr) =
    Done tt (VfsT a fss b (<[Z.to_nat file := f e]> fl) 1 u n 1 dr).
Proof. intros He. unfold set_file. cbn [files]. by rw He. Qed.

Lemma free_file_entry fl file :
  free_file fl = Some file → ∃ e, arr_get fl file = Some e ∧ of_filesystem e = 0.
Proof.
  unfold free_file. destruct (list_find _ _) as [[i e]|] eqn:E; [|done]. intros [= <-].
  apply list_find_Some in E as (E & Hz & _). exists e. split; [|done]. apply arr_get_Some. cbn. split; [lia|].
  by rw Nat2Z.id.
Qed.

Lemma arr_get_same {A} (l : list A) i x y : arr_get l i = Some y → arr_get (<[Z.to_nat i := x]> l) i = Some x.
Proof. intros Hy. pose proof (arr_get_lt _ _ _ Hy). rw arr_get_insert //. by rw decide_True. Qed.

(** The driver's answers to fs_open, by driver and file name. *)
Section open.
Context (dr : Z → F) (opened : Z → list Z → Z * F).
Context (Hopened : ∀ q buf name, cstr buf = Some name →
  fs_open buf (dr q) = Done (opened q name).1 (opened q name).2).

(** What vfs_open answers and leaves for the path [l]. *)
Definition open_spec (l : list Z) fss fl u n : Z * vfs :=
  match split_path l with
  | None => (VFS_ERROR, vfs_at fss fl u n dr)
  | Some (vol, name) =>
    match free_file fl with
    | None => (VFS_LIMIT, vfs_at fss fl u n dr)
    | Some file =>
      let fs := volume_of fss vol in
      if decide (fs = 0) then (VFS_NO_SUCH_FS, vfs_at fss fl u n dr) else
      let '(id, d) := opened fs name in
      if decide (id < 0) then (id, vfs_at fss fl u n (with_driver dr fs d))
      else (file, vfs_at fss (<[Z.to_nat file := OpenFile fs id 0]> fl) u n (with_driver dr fs d))
    end
  end.

Lemma parse_run path l s :
  cstr path = Some l →
  match split_path l with
  | None => parse (F := F) path s = Done None s
  | Some (vol, name) => ∃ vb fb, parse path s = Done (Some (vb, fb)) s ∧ cstr vb = Some vol ∧ cstr fb = Some name
  end.
Proof.
  intros Hl. pose proof (parse_pathname_run path l name_buffer name_buffer Hl eq_refl eq_refl) as Hp.
  unfold parse. destruct (split_path l) as [[vol name]|]; [|by rw Hp].
  destruct Hp as (vb & fb & -> & Hv & Hf). by exists vb, fb.
Qed.

Lemma vfs_open_run path l fss fl u n :
  tables_ok fss fl → 0 ≤ n → cstr path = Some l →
  vfs_open path (vfs_at fss fl u n dr) = Done (open_spec l fss fl u n).1 (open_spec l fss fl u n).2.
Proof.
  intros [T1 T2 T3] Hn Hl. unfold vfs_open, vfs_at. rw bind_start. cbn [decide].
  destruct (decide (VFS_OK ≠ VFS_OK)) as [Hx|_]; [by destruct Hx|].
  unfold open_spec. set (s0 := VfsT 1 fss 1 fl 1 u (n + 1) 1 dr).
  pose proof (parse_run path l s0 Hl) as Hp. destruct (split_path l) as [[vol name]|].
  2: { rw (bind_Done _ _ _ _ _ Hp). by apply end_run. }
  destruct Hp as (vb & fb & Hp & Hv & Hf). rw (bind_Done _ _ _ _ _ Hp). unfold s0.
  do 2 (rw bind_sem_P; [exact eq_refl|]).
  change (lset #openfile_sem _ (lset #vfs_sem _ _)) with (VfsT 0 fss 0 fl 1 u (n + 1) 1 dr).
  rw (bind_Done _ _ _ _ _ (find_free (VfsT 0 fss 0 fl 1 u (n + 1) 1 dr) T2)). cbn [files].
  destruct (free_file fl) as [file|] eqn:Ef.
  2: { rw !bind_sem_V. by apply end_run. }
  destruct (free_file_entry fl file Ef) as (e & He & Hz).
  rw (bind_Done _ _ _ _ _ (find_volume vb vol (VfsT 0 fss 0 fl 1 u (n + 1) 1 dr) T1 T3 Hv)). cbn [vfs_filesystems].
  set (fs := volume_of fss vol). destruct (decide (fs = 0)) as [Hfs|Hfs].
  { rw !bind_sem_V. by apply end_run. }
  rw (bind_Done _ _ _ _ _ (set_file_run _ _ _ _ _ _ _ file e _ He)). rw !bind_sem_V.
  specialize (Hopened fs fb name Hf). destruct (opened fs name) as [id d]. cbn [fst snd] in Hopened.
  erewrite bind_zoom; [|exact Hopened]. destruct (decide (id < 0)) as [Hid|Hid].
  - rw bind_sem_P; [exact eq_refl|].
    rw (bind_Done _ _ _ _ _ (set_file_run _ _ _ _ _ _ _ file _ _ (arr_get_same _ _ _ _ He))).
    rw bind_sem_V. rw list_insert_insert_eq.
    assert (<[Z.to_nat file := (e <| of_filesystem := fs |>) <| of_filesystem := 0 |>]> fl = fl) as ->.
    { apply list_insert_id. apply arr_get_Some in He as [_ He]. rw He. f_equal. destruct e. cbn in Hz. by subst. }
    by apply end_run.
  - rw (bind_Done _ _ _ _ _ (set_file_run _ _ _ _ _ _ _ file _ _ (arr_get_same _ _ _ _ He))).
    erewrite bind_Done; [|eapply (set_file_run _ _ _ _ _ _ _ file), arr_get_same, arr_get_same; exact He].
    rw !list_insert_insert_eq. by apply end_run.
Qed.

(** Vfs_open on any path answers what its specification says:
    VFS_ERROR for a path that does not parse, VFS_LIMIT when every entry is in use,
    VFS_NO_SUCH_FS for a volume that is not mounted, the driver's error with the
    claimed entry given back, and otherwise the lowest free entry, which then names
    the driver and its file with position 0; no other entry changes. *)
Theorem vfs_open_opens path l fss fl u n :
  tables_ok fss fl → 0 ≤ n → cstr path = Some l →
  vfs_open path (vfs_at fss fl u n dr) = Done (open_spec l fss fl u n).1 (open_spec l fss fl u n).2.
Proof. apply vfs_open_run. Qed.
End open.

(** ** Reading, writing and the position *)

(** The open files after [r] bytes went through entry [file]. *)
Definition moved (fl : list openfile_entry_t) (file : Z) (e : openfile_entry_t) (r : Z) : list openfile_entry_t :=
  if decide (0 < r) then <[Z.to_nat file := e <| seek_position := i32 (seek_position e + r) |>]> fl else fl.

Lemma verify_run a fss b fl u n (dr : Z → F) file e :
  arr_get fl file = Some e → of_filesystem e ≠ 0 → 0 ≤ file < 512 →
  vfs_verify_open file (VfsT a fss b fl 1 u n 1 dr) = Done e (VfsT a fss b fl 1 u n 1 dr).
Proof.
  intros He Hne Hf. unfold vfs_verify_open, CONFIG_MAX_OPEN_FILES. rw bind_assert; [lia|].
  erewrite bind_Done; [|unfold get_file; cbn [files]; by rw He]. by rw bind_assert.
Qed.

Lemma advance_run fss fl u n (dr : Z → F) file e r :
  arr_get fl file = Some e →
  advance file r (vfs_at fss fl u n dr) = Done tt (vfs_at fss (moved fl file e r) u n dr).
Proof.
  intros He. unfold advance, moved, vfs_at. destruct (decide (0 < r)); [|done].
  rw bind_sem_P; [exact eq_refl|]. by rw (bind_Done _ _ _ _ _ (set_file_run _ _ _ _ _ _ _ file e _ He)).
Qed.

Lemma vfs_read_run fss fl u n dr file e buffer bufsize r buffer' d :
  0 ≤ n → arr_get fl file = Some e → of_filesystem e ≠ 0 → 0 ≤ file < 512 → 0 ≤ bufsize →
  fs_read (fileid e) buffer bufsize (seek_position e) (dr (of_filesystem e)) = Done (r, buffer') d →
  vfs_read file (Some buffer) bufsize (vfs_at fss fl u n dr) =
    Done (r, buffer') (vfs_at fss (moved fl file e r) u n (with_driver dr (of_filesystem e) d)).
Proof.
  intros Hn He Hne Hf Hb Hr. unfold vfs_read. unfold vfs_at at 1. rw bind_start.
  destruct (decide (VFS_OK ≠ VFS_OK)) as [Hx|_]; [by destruct Hx|].
  rw (bind_Done _ _ _ _ _ (verify_run _ _ _ _ _ _ _ file e He Hne Hf)). rw bind_assert //.
  erewrite bind_zoom; [|exact Hr]. erewrite bind_Done; [|exact (advance_run _ _ _ _ _ _ e _ He)]. by apply end_run.
Qed.

Lemma vfs_write_run fss fl u n dr file e buffer datasize r d :
  0 ≤ n → arr_get fl file = Some e → of_filesystem e ≠ 0 → 0 ≤ file < 512 → 0 ≤ datasize →
  fs_write (fileid e) buffer datasize (seek_position e) (dr (of_filesystem e)) = Done r d →
  vfs_write file (Some buffer) datasize (vfs_at fss fl u n dr) =
    Done r (vfs_at fss (moved fl file e r) u n (with_driver dr (of_filesystem e) d)).
Proof.
  intros Hn He Hne Hf Hb Hr. unfold vfs_write. unfold vfs_at at 1. rw bind_start.
  destruct (decide (VFS_OK ≠ VFS_OK)) as [Hx|_]; [by destruct Hx|].
  rw (bind_Done _ _ _ _ _ (verify_run _ _ _ _ _ _ _ file e He Hne Hf)). rw bind_assert //.
  erewrite bind_zoom; [|exact Hr]. erewrite bind_Done; [|exact (advance_run _ _ _ _ _ _ e _ He)]. by apply end_run.
Qed.

(** ** Mounting *)

Definition named (l : list Z) (e : vfs_entry_t) : Prop := cstr (mountpoint e) = Some l.
#[global] Instance named_dec l e : Decision (named l e).
Proof. unfold named. apply _. Defined.

(** What vfs_mount answers, and the mount table it leaves. *)
Definition mount_spec (fs : Z) (l : list Z) (fss : list vfs_entry_t) : Z * list vfs_entry_t :=
  match list_find (λ e, ve_filesystem e = 0) fss with
  | None => (VFS_LIMIT, fss)
  | Some (row, e) =>
    match list_find (named l) fss with
    | Some _ => (VFS_ERROR, fss)
    | None => (VFS_OK, <[row := VfsEntry fs (splice (mountpoint e) 0 (take 15 l ++ [0]))]> fss)
    end
  end.

Lemma find_row (P : vfs_entry_t → Prop) `{∀ e, Decision (P e)} (s : vfs) :
  length (vfs_filesystems s) = 8%nat →
  find_loop (Z.to_nat CONFIG_MAX_FILESYSTEMS) 0 (λ i, e ← get_fs i; mret (bool_decide (P e))) s =
    Done ((λ r, Z.of_nat r.1) <$> list_find P (vfs_filesystems s)) s.
Proof.
  intros Hl. change (Z.to_nat CONFIG_MAX_FILESYSTEMS) with 8%nat. rw -Hl.
  apply (find_loop_list P). intros i x Hx. unfold get_fs, mbind, M_bind, arr_get.
  rw decide_True; [lia|]. rw Z.add_0_l Nat2Z.id Hx. done.
Qed.

Lemma get_row (s : vfs) row e :
  vfs_filesystems s !! row = Some e → get_fs (Z.of_nat row) s = Done e s.
Proof. intros He. unfold get_fs, arr_get. rw decide_True; [lia|]. by rw Nat2Z.id He. Qed.

Lemma set_row a fss b fl u n (dr : Z → F) row e f :
  fss !! row = Some e →
  set_fs (Z.of_nat row) f (VfsT a fss b fl 1 u n 1 dr) = Done tt (VfsT a (<[row := f e]> fss) b fl 1 u n 1 dr).
Proof. intros He. unfold set_fs, arr_get. rw decide_True; [lia|]. cbn [vfs_filesystems]. by rw !Nat2Z.id He. Qed.

Lemma vfs_mount_run fs name l fss fl u n dr :
  tables_ok fss fl → Forall (λ e, length (mountpoint e) = 16%nat) fss → 0 ≤ n → cstr name = Some l → l ≠ [] →
  vfs_mount fs name (vfs_at fss fl u n dr) =
    Done (mount_spec fs l fss).1 (vfs_at (mount_spec fs l fss).2 fl u n dr).
Proof.
  intros [T1 T2 T3] T4 Hn Hl Hne. unfold vfs_mount, mount_spec, vfs_at.
  assert (∃ c, arr_get name 0 = Some c ∧ c ≠ 0) as (c & -> & Hc).
  { destruct name as [|c name]; [done|]. exists c. split; [done|]. intros ->. simpl in Hl. congruence. }
  rw bind_oread bind_assert // bind_start.
  destruct (decide (VFS_OK ≠ VFS_OK)) as [Hx|_]; [by destruct Hx|].
  rw bind_sem_P; [exact eq_refl|]. set (s1 := lset #vfs_sem _ _).
  rw (bind_Done _ _ _ _ _ (find_row (λ e, ve_filesystem e = 0) s1 T1)).
  change (vfs_filesystems s1) with fss. destruct (list_find (λ e, ve_filesystem e = 0) fss) as [[row e]|] eqn:E1; cbn [fmap option_fmap option_map fst].
  2: { rw bind_sem_V. by apply end_run. }
  rw (bind_Done _ _ _ _ _ (find_named name l s1 T1 T3 Hl)). change (vfs_filesystems s1) with fss.
  change (list_find (λ e, cstr (mountpoint e) = Some l) fss) with (list_find (named l) fss).
  destruct (list_find (named l) fss) as [[row' e']|]; cbn [fmap option_fmap option_map].
  { rw bind_sem_V. by apply end_run. }
  apply list_find_Some in E1 as (He & _ & _).
  rw (bind_Done _ _ _ _ _ (get_row s1 row e He)).
  pose proof (proj1 (Forall_lookup _ _) T4 row e He) as L16. cbn beta in L16.
  rw (stringcopy_spec (mountpoint e) name VFS_NAME_LENGTH l Hl); [unfold VFS_NAME_LENGTH; lia|]. rw bind_oread.
  change s1 with (VfsT 0 fss 1 fl 1 u (n + 1) 1 dr).
  rw (bind_Done _ _ _ _ _ (set_row _ _ _ _ _ _ _ row e _ He)).
  erewrite bind_Done; [|eapply (set_row _ _ _ _ _ _ _ row), list_lookup_insert_eq, lookup_lt_Some; exact He].
  rw list_insert_insert_eq bind_sem_V. by apply end_run.
Qed.

(** Vfs_mount puts a driver into the lowest free row of the mount
    table under its name, cut to 15 characters, and changes no other row; it answers
    VFS_LIMIT when no row is free and VFS_ERROR when some row, in use or not, has
    that name. *)
Theorem vfs_mount_registers fs name l fss fl u n dr :
  tables_ok fss fl → Forall (λ e, length (mountpoint e) = 16%nat) fss → 0 ≤ n → cstr name = Some l → l ≠ [] →
  vfs_mount fs name (vfs_at fss fl u n dr) =
    Done (mount_spec fs l fss).1 (vfs_at (mount_spec fs l fss).2 fl u n dr).
Proof. apply vfs_mount_run. Qed.

Lemma vfs_unmount_run name l fss fl u n (dr : Z → F) row e r d :
  tables_ok fss fl → 0 ≤ n → cstr name = Some l →
  list_find (named l) fss = Some (row, e) → ve_filesystem e ≠ 0 →
  Forall (λ f, of_filesystem f ≠ ve_filesystem e) fl →
  fs_unmount (dr (ve_filesystem e)) = Done r d →
  vfs_unmount name (vfs_at fss fl u n dr) =
    Done VFS_OK (vfs_at (<[row := e <| ve_filesystem := 0 |>]> fss) fl u n (with_driver dr (ve_filesystem e) d)).
Proof.
  intros [T1 T2 T3] Hn Hl E Hne Hu Hd. unfold vfs_unmount, vfs_at. rw bind_start.
  destruct (decide (VFS_OK ≠ VFS_OK)) as [Hx|_]; [by destruct Hx|].
  rw bind_sem_P; [exact eq_refl|]. set (s1 := lset #vfs_sem _ _).
  rw (bind_Done _ _ _ _ _ (find_named name l s1 T1 T3 Hl)). change (vfs_filesystems s1) with fss.
  change (list_find (λ e, cstr (mountpoint e) = Some l) fss) with (list_find (named l) fss). rw E.
  cbn [fmap option_fmap option_map fst]. apply list_find_Some in E as (He & _ & _).
  rw bind_bind (bind_Done _ _ _ _ _ (get_row s1 row e He)) bind_ret decide_False //.
  rw bind_sem_P; [exact eq_refl|]. change (lset #openfile_sem _ s1) with (VfsT 0 fss 0 fl 1 u (n + 1) 1 dr).
  assert (find_loop (Z.to_nat CONFIG_MAX_OPEN_FILES) 0 (λ i,
    e' ← get_file i; mret (bool_decide (of_filesystem e' = ve_filesystem e))) (VfsT 0 fss 0 fl 1 u (n + 1) 1 dr) =
    Done None (VfsT 0 fss 0 fl 1 u (n + 1) 1 dr)) as Hfind.
  { change (Z.to_nat CONFIG_MAX_OPEN_FILES) with 512%nat. rw -T2.
    rw (find_loop_list (λ e', of_filesystem e' = ve_filesystem e)).
    - intros i x Hx. unfold get_file, mbind, M_bind, arr_get. rw decide_True; [lia|].
      cbn [files]. rw Z.add_0_l Nat2Z.id Hx. done.
    - do 2 f_equal. replace (list_find _ fl) with (@None (nat * openfile_entry_t)); [done|]. symmetry.
      by apply list_find_None. }
  rw (bind_Done _ _ _ _ _ Hfind). erewrite bind_zoom; [|exact Hd].
  change (lset (driver (ve_filesystem e)) d (VfsT 0 fss 0 fl 1 u (n + 1) 1 dr))
    with (VfsT 0 fss 0 fl 1 u (n + 1) 1 (with_driver dr (ve_filesystem e) d)).
  rw (bind_Done _ _ _ _ _ (set_row _ _ _ _ _ _ _ row e _ He)). rw !bind_sem_V. by apply end_run.
Qed.

(** Unmounting a volume that no open file uses runs the driver's
    unmount and frees the row, but leaves the name in it: mounting a volume under
    the same name again answers VFS_ERROR until the row is used for another name. *)
Theorem vfs_unmount_keeps_name name l fss fl u n (dr : Z → F) row e r d fs :
  tables_ok fss fl → Forall (λ e, length (mountpoint e) = 16%nat) fss → 0 ≤ n → cstr name = Some l → l ≠ [] →
  list_find (named l) fss = Some (row, e) → ve_filesystem e ≠ 0 →
  Forall (λ f, of_filesystem f ≠ ve_filesystem e) fl →
  fs_unmount (dr (ve_filesystem e)) = Done r d →
  ∃ s, vfs_unmount name (vfs_at fss fl u n dr) = Done VFS_OK s ∧ drivers s (ve_filesystem e) = d ∧
    vfs_mount fs name s = Done VFS_ERROR s.
Proof.
  intros T T4 Hn Hl Hne E Hv Hu Hd. eexists.
  split; [exact (vfs_unmount_run name l fss fl u n dr row e r d T Hn Hl E Hv Hu Hd)|]. destruct T as [T1 T2 T3]. split.
  { cbn. unfold with_driver. by rw decide_True. }
  apply list_find_Some in E as (He & Hnm & _). pose proof (lookup_lt_Some _ _ _ He) as Hlt.
  assert (∀ P : vfs_entry_t → Prop, Forall P fss → P (e <| ve_filesystem := 0 |>) →
    Forall P (<[row := e <| ve_filesystem := 0 |>]> fss)) as Hins by (intros; by apply Forall_insert).
  set (fss' := <[row := _]> fss) in *.
  rw (vfs_mount_run fs name l fss' fl u n _) //.
  - constructor; [by unfold fss'; rw length_insert|done|]. apply Hins; [done|]. by rw Hnm.
  - apply Hins; [done|]. apply (proj1 (Forall_lookup _ _) T4 row e He).
  - assert (∀ (P : vfs_entry_t → Prop) `{∀ x, Decision (P x)}, P (e <| ve_filesystem := 0 |>) →
      ∃ y, list_find P fss' = Some y) as Hfind.
    { intros P HP H1. eapply list_find_elem_of; [|exact H1]. apply list_elem_of_lookup.
      exists row. apply list_lookup_insert_eq, Hlt. }
    unfold mount_spec. destruct (Hfind (λ e, ve_filesystem e = 0) _ eq_refl) as [[i x] ->].
    by destruct (Hfind (named l) _ Hnm) as [y ->].
Qed.
End files.
End VfsFile.
