(* ===== verification/VfsTfs.v ===== *)
(** * The file system driver under the virtual file system

    The trivial file system as an instance of the driver interface of [Vfs],
    and what opening and reading a file through both layers does. *)
From S2P Require Import Prelude Bytes Libc Bitmap Sync Tfs TfsFile TfsLock Vfs VfsSpec VfsFile.
From Stdlib Require Import FunctionalExtensionality.
Import Libc Tfs TfsFile TfsLock Vfs VfsSpec VfsFile.

Module VfsTfs.

(** ** The instance *)

Section instance.
Context {D : Type} `{Gbd D}.

(** A mounted volume with what unmounting it gives back. *)
Record volume := Volume { tv_fs : fs_t (D := D); tv_env : mount_env (D := D) }.
#[global] Instance eta_volume : Eta volume := fun v => Volume (tv_fs v) (tv_env v).

Definition tfs : lens volume (tfs_t (D := D)) :=
  Lens (λ v, internal (tv_fs v)) (λ t v, v <| tv_fs := (tv_fs v) <| internal := t |> |>).

#[global] Instance tfs_filesystem : FileSystem volume := {
  fs_volume v := volume_name (tv_fs v);
  fs_unmount := λ v, zoom #tv_env (tfs_unmount (tv_fs v)) v;
  fs_open name := zoom tfs (tfs_open name);
  fs_close id := zoom tfs (tfs_close id);
  fs_read id buffer n offset := zoom tfs (tfs_read id buffer n offset);
  fs_write id buffer n offset := zoom tfs (tfs_write id buffer n offset);
  fs_create name size := zoom tfs (tfs_create name size);
  fs_remove name := zoom tfs (tfs_remove name);
  fs_getfree := zoom tfs tfs_getfree;
  fs_filecount := zoom tfs tfs_filecount;
  fs_file index buffer := zoom tfs (tfs_file index buffer) }.

(** No operation is in progress on the volume. *)
Definition unlocked (v : volume) : Prop := lock (internal (tv_fs v)) = 1.

Lemma returns_runs {A} (m : M (tfs_t (D := D)) A) :
  returns_lock m → runs unlocked (zoom tfs m) unlocked.
Proof.
  intros Hm. apply (runs_zoom _ _ (λ t, lock t = 1) (λ t, lock t = 1)); [|done|done].
  intros t Ht. specialize (Hm t). destruct (m t) as [a t'|t' k| | |]; try done.
  - destruct Hm as [_ ->]. done.
  - destruct Hm as (_ & Hl & _). lia.
Qed.

#[global] Instance tfs_wait_free : FsWaitFree volume unlocked.
Proof.
  split; intros.
  - intros v Hv. cbn. unfold zoom, tfs_unmount, sem_P. rw decide_True; [|done].
    cbn. rw Hv. lia.
  - apply returns_runs, open_returns.
  - apply (runs_zoom _ _ (λ t, lock t = 1) (λ t, lock t = 1)); [by intros t|done|done].
  - apply returns_runs, read_returns.
  - apply returns_runs, write_returns.
  - apply returns_runs, create_returns.
  - apply returns_runs, remove_returns.
  - apply returns_runs, locked_body. repeat gives_step.
  - apply returns_runs, locked_body. repeat gives_step.
  - apply returns_runs, locked_body. repeat gives_step.
Qed.
End instance.

(** ** Reading a file through both layers *)

Section reading.
Context {D : Type} `{Gbd D} `{!GbdLaws D} (works : D → Prop) `{!GbdReliable D works}.

(** Entry [e] of the table of open files names a file of a mounted volume. *)
Record reads_file (dr : Z → volume (D := D)) (fl : list openfile_entry_t) (file : Z) (e : openfile_entry_t)
    (img : Z → list Z) : Prop := {
  rf_file : 0 ≤ file < 512;
  rf_entry : arr_get fl file = Some e;
  rf_used : of_filesystem e ≠ 0;
  rf_mounted : mounted works (internal (tv_fs (dr (of_filesystem e))));
  rf_lock : 0 < lock (internal (tv_fs (dr (of_filesystem e))));
  rf_image : image (internal (tv_fs (dr (of_filesystem e)))) = img;
  rf_ok : file_ok img (totalblocks (internal (tv_fs (dr (of_filesystem e))))) (fileid e) }.

Lemma vfs_read_file fss fl u k dr file e img buffer bufsize :
  reads_file dr fl file e img → 0 ≤ seek_position e ≤ fsize img (fileid e) →
  0 ≤ k → 0 ≤ bufsize ≤ Z.of_nat (length buffer) →
  let p := seek_position e in
  let n := Z.min bufsize (fsize img (fileid e) - p) in
  ∃ fl' dr', vfs_read file (Some buffer) bufsize (vfs_at fss fl u k dr) =
      Done (n, splice buffer 0 (slice (fbytes img (fileid e)) p n)) (vfs_at fss fl' u k dr') ∧
    reads_file dr' fl' file (e <| seek_position := p + n |>) img.
Proof.
  intros [R1 R2 R3 R4 R5 R6 R7] R8 Hk Hb p n. pose proof (fo_size _ _ _ R7) as Hsz.
  rewrite -R6 in R7 R8.
  destruct (tfs_read_run works _ (fileid e) buffer bufsize p R4 R5 R7 R8 Hb) as (t & Hrun & [T1 T2 T3 T4 T5]).
  set (q := of_filesystem e) in *. set (v := dr q) in *.
  assert (fs_read (fileid e) buffer bufsize p v =
    Done (n, splice buffer 0 (slice (fbytes img (fileid e)) p n)) (lset tfs t v)) as Hfs.
  { cbn [fs_read tfs_filesystem]. unfold zoom. change (lget tfs v) with (internal (tv_fs v)). rw Hrun. by rw R6. }
  rewrite R6 in R7 R8. eexists _, _. split; [eapply vfs_read_run; [..|exact Hfs]; done || lia|].
  assert (with_driver dr q (lset tfs t v) q = lset tfs t v) as Hq by (unfold with_driver; by rw decide_True).
  assert (image t = img) as Himg by (rw -R6; apply functional_extensionality; apply T4).
  assert (moved fl file e n = <[Z.to_nat file := e <| seek_position := p + n |>]> fl) as ->.
  { unfold moved. destruct (decide (0 < n)) as [Hp|Hp].
    - rw i32_small; [|done]. subst p n. lia.
    - assert (n = 0) as -> by (subst p n; lia). rw Z.add_0_r list_insert_id //.
      apply arr_get_Some in R2 as [_ R2]. rw R2. by destruct e. }
  constructor; cbn; fold q; try rw Hq; try done.
  - exact (arr_get_same _ _ _ _ R2).
  - change (internal (tv_fs (lset tfs t v))) with t. by rw T2.
  - change (internal (tv_fs (lset tfs t v))) with t. by rw T3.
Qed.

(** Moving the position, and reading beyond the end of the file. *)
Lemma vfs_seek_file fss fl u k dr file e img p :
  reads_file dr fl file e img → 0 ≤ k → 0 ≤ p →
  ∃ fl', vfs_seek file p (vfs_at fss fl u k dr) = Done VFS_OK (vfs_at fss fl' u k dr) ∧
    reads_file dr fl' file (e <| seek_position := p |>) img.
Proof.
  intros [R1 R2 R3 R4 R5 R6 R7] Hk Hp. exists (<[Z.to_nat file := e <| seek_position := p |>]> fl). split.
  - unfold vfs_seek. unfold vfs_at at 1. rw bind_start. destruct (decide (VFS_OK ≠ VFS_OK)) as [Hx|_]; [by destruct Hx|].
    rw bind_assert // bind_sem_P; [exact eq_refl|].
    change (lset #openfile_sem _ _) with (VfsT 1 fss 0 fl 1 u (k + 1) 1 dr).
    rw (bind_Done _ _ _ _ _ (verify_run _ _ _ _ _ _ _ file e R2 R3 R1)).
    rw (bind_Done _ _ _ _ _ (set_file_run _ _ _ _ _ _ _ file e _ R2)) bind_sem_V. by apply end_run.
  - constructor; try done. exact (arr_get_same _ _ _ _ R2).
Qed.

Lemma tfs_read_beyond s f buffer bufsize offset :
  mounted works s → 0 < lock s → file_ok (image s) (totalblocks s) f → fsize (image s) f < offset →
  ∃ s', tfs_read f buffer bufsize offset s = Done (Tfs.VFS_ERROR, buffer) s' ∧ reading works s s' f.
Proof.
  intros Hm Hlk Hf Ho. pose proof Hf as [F1 F2 F3]. unfold tfs_read. rw bind_sem_P //.
  set (s0 := lset #lock _ s). assert (mounted works s0) as Hm0 by by apply mounted_lock.
  rw bind_gets. change (totalblocks s0) with (totalblocks s).
  pose proof (mt_total _ _ Hm) as Ht. rw i32_small; [lia|]. rw decide_False; [lia|].
  destruct (read_inode_ok works s0 f Hm0 Hf) as (r & s1 & Hr & Hrun & Hrd & Hfs).
  rw (bind_Done _ _ _ _ _ Hrun) decide_False //. rw (bind_Done _ _ _ _ _ Hfs).
  change (image s0) with (image s) in *. rw (i32_fsize _ _ _ Hf). rw decide_True; [lia|].
  unfold unlock. rw bind_sem_V. eexists. split; [reflexivity|].
  destruct Hrd as [[] R2 R3 R4 R5]. constructor; [by constructor| |done..].
  change (lock s1 + 1 = lock s). rw R2. change (lock s - 1 + 1 = lock s). lia.
Qed.

Lemma vfs_read_beyond fss fl u k dr file e img buffer bufsize :
  reads_file dr fl file e img → 0 ≤ k → 0 ≤ bufsize → fsize img (fileid e) < seek_position e →
  ∃ s', vfs_read file (Some buffer) bufsize (vfs_at fss fl u k dr) = Done (VFS_ERROR, buffer) s'.
Proof.
  intros [R1 R2 R3 R4 R5 R6 R7] Hk Hb Hp. rewrite -R6 in R7 Hp.
  destruct (tfs_read_beyond _ (fileid e) buffer bufsize (seek_position e) R4 R5 R7 Hp) as (t & Hrun & _).
  set (q := of_filesystem e) in *. set (v := dr q) in *. eexists.
  eapply (vfs_read_run fss fl u k dr file e buffer bufsize _ _ (lset tfs t v)); try done.
  cbn [fs_read tfs_filesystem]. unfold zoom. change (lget tfs v) with (internal (tv_fs v)). by rw Hrun.
Qed.

(** Two reads of an open file through the virtual file system and
    the driver, one after the other, return the two consecutive pieces of the file
    from the entry's position on: the position moves by what was read. *)
Theorem vfs_reads_in_sequence fss fl u k dr file e img b1 n1 b2 n2 :
  reads_file dr fl file e img → 0 ≤ seek_position e → 0 ≤ k →
  0 ≤ n1 ≤ Z.of_nat (length b1) → 0 ≤ n2 ≤ Z.of_nat (length b2) →
  seek_position e + n1 + n2 ≤ fsize img (fileid e) →
  ∃ s1 s2,
    vfs_read file (Some b1) n1 (vfs_at fss fl u k dr) =
      Done (n1, splice b1 0 (slice (fbytes img (fileid e)) (seek_position e) n1)) s1 ∧
    vfs_read file (Some b2) n2 s1 =
      Done (n2, splice b2 0 (slice (fbytes img (fileid e)) (seek_position e + n1) n2)) s2 ∧
    slice (fbytes img (fileid e)) (seek_position e) (n1 + n2) =
      slice (fbytes img (fileid e)) (seek_position e) n1 ++ slice (fbytes img (fileid e)) (seek_position e + n1) n2.
Proof.
  intros R Hp0 Hk H1 H2 Hs. assert (0 ≤ seek_position e ≤ fsize img (fileid e)) as Hp by lia.
  destruct (vfs_read_file fss fl u k dr file e img b1 n1 R Hp Hk H1) as (fl1 & dr1 & Hr1 & R1).
  rw Z.min_l in Hr1 R1; [lia|].
  assert (0 ≤ seek_position (e <| seek_position := seek_position e + n1 |>) ≤ fsize img (fileid e)) as Hp1
    by (change (0 ≤ seek_position e + n1 ≤ fsize img (fileid e)); lia).
  destruct (vfs_read_file fss fl1 u k dr1 file _ img b2 n2 R1 Hp1 Hk H2) as (fl2 & dr2 & Hr2 & R2).
  change (seek_position (e <| seek_position := _ |>)) with (seek_position e + n1) in Hr2.
  change (fileid (e <| seek_position := _ |>)) with (fileid e) in Hr2.
  rw Z.min_l in Hr2; [lia|]. eexists _, _. split; [exact Hr1|]. split; [exact Hr2|].
  apply slice_app; lia.
Qed.
End reading.

(** ** Witnesses: one mounted volume, one open file *)

Definition example_driver : volume (D := ramdisk) :=
  Volume (FsT [118; 0] 4096 example_volume) (MountEnv [] [] [] (Ramdisk (λ _, []) 0)).
Definition example_mounts : list vfs_entry_t :=
  VfsEntry 64 (118 :: replicate 15 0) :: replicate 7 (VfsEntry 0 (replicate 16 0)).
Definition example_files : list openfile_entry_t := OpenFile 64 3 500 :: replicate 511 (OpenFile 0 0 0).
Definition example_vfs : vfs_t := vfs_at example_mounts example_files 0 0 (λ _, example_driver).

Lemma vfs_returns_locks_witness :
  match vfs_exec (Seek 0 20) example_vfs with Done r _ => r = (0, []) | _ => False end ∧
  match vfs_exec (Seek 0 20) example_vfs with
  | Done r s' => marks unlocked 1 true 1 1 1 0 s' ∧ (1 = 0 → r.1 = VFS_UNUSABLE ∧ s' = example_vfs)
  | Blocked _ _ => False | _ => True end.
Proof.
  split; [vm_compute; reflexivity|].
  apply (vfs_returns_locks unlocked (Seek 0 20) 1 0 example_vfs). constructor; try reflexivity.
Defined.

Lemma vfs_halted_refuses_witness :
  vfs_exec (Close 0) (VfsT 1 example_mounts 1 example_files 1 0 0 0 (λ _, example_driver)) =
    Done (VFS_UNUSABLE, []) (VfsT 1 example_mounts 1 example_files 1 0 0 0 (λ _, example_driver)).
Proof.
  apply (vfs_halted_refuses (Close 0)); [exact I|reflexivity|reflexivity].
Defined.

Lemma example_tables_ok : tables_ok example_mounts example_files.
Proof.
  constructor; [reflexivity|reflexivity|]. repeat constructor; by eexists.
Qed.

(** A driver with one file, for the example of vfs_open. *)
Definition one_file : FileSystem unit := {|
  fs_volume _ := []; fs_unmount := mret VFS_OK; fs_open _ := mret 7; fs_close _ := mret VFS_OK;
  fs_read _ buffer _ _ := mret (0, buffer); fs_write _ _ _ _ := mret 0; fs_create _ _ := mret VFS_ERROR;
  fs_remove _ := mret VFS_ERROR; fs_getfree := mret 0; fs_filecount := mret 1;
  fs_file _ buffer := mret (0, buffer) |}.

Lemma vfs_open_opens_witness :
  @vfs_open unit one_file [91; 118; 93; 102; 0] (vfs_at example_mounts example_files 0 0 (λ _, tt)) =
    Done 1 (vfs_at example_mounts (<[1%nat := OpenFile 64 7 0]> example_files) 0 0
      (with_driver (λ _, tt) 64 tt)).
Proof.
  exact (@vfs_open_opens unit one_file (λ _, tt) (λ _ _, (7, tt)) (λ _ _ _ _, eq_refl) [91; 118; 93; 102; 0]
    [91; 118; 93; 102] example_mounts example_files 0 0 example_tables_ok ltac:(lia) eq_refl).
Defined.

Lemma vfs_mount_registers_witness :
  vfs_mount 128 [119; 0] example_vfs =
    Done VFS_OK (vfs_at (<[1%nat := VfsEntry 128 (119 :: replicate 15 0)]> example_mounts) example_files 0 0
      (λ _, example_driver)).
Proof.
  refine (vfs_mount_registers 128 [119; 0] [119] example_mounts example_files 0 0 (λ _, example_driver)
    example_tables_ok _ _ eq_refl _).
  - repeat constructor.
  - lia.
  - discriminate.
Defined.

Lemma vfs_unmount_keeps_name_witness :
  ∃ s, vfs_unmount [118; 0] (vfs_at example_mounts (replicate 512 (OpenFile 0 0 0)) 0 0 (λ _, example_driver)) = Done VFS_OK s ∧
    vfs_mount 128 [118; 0] s = Done VFS_ERROR s.
Proof.
  destruct (vfs_unmount_keeps_name [118; 0] [118] example_mounts (replicate 512 (OpenFile 0 0 0)) 0 0 (λ _, example_driver)
    0 (VfsEntry 64 (118 :: replicate 15 0)) 0
    (Volume (FsT [118; 0] 4096 example_volume) (MountEnv [0] [4096] [] (disk example_volume))) 128) as (s & H1 & _ & H2).
  - constructor; [reflexivity|reflexivity|]. repeat constructor; by eexists.
  - repeat constructor.
  - lia.
  - reflexivity.
  - discriminate.
  - reflexivity.
  - discriminate.
  - apply Forall_replicate. discriminate.
  - reflexivity.
  - exists s. split; [exact H1|exact H2].
Defined.

Lemma vfs_reads_in_sequence_witness :
  ∃ s1 s2 l1 l2, vfs_read 0 (Some (replicate 40 0)) 40 example_vfs = Done (40, l1) s1 ∧
    vfs_read 0 (Some (replicate 60 0)) 60 s1 = Done (60, l2) s2.
Proof.
  destruct (vfs_reads_in_sequence (λ _, True) example_mounts example_files 0 0 (λ _, example_driver) 0 (OpenFile 64 3 500)
    (image example_volume) (replicate 40 0) 40 (replicate 60 0) 60) as (s1 & s2 & H1 & H2 & _).
  - constructor; [lia|reflexivity|discriminate|exact example_volume_mounted|reflexivity|reflexivity|exact example_file_ok].
  - cbn. lia.
  - lia.
  - rewrite length_replicate. lia.
  - rewrite length_replicate. lia.
  - cbn [fileid seek_position]. rewrite example_size. lia.
  - exists s1, s2. eexists _, _. split; [exact H1|exact H2].
Defined.
End VfsTfs.
