(* ===== verification/Process.v ===== *)
(** * User processes (proc/process.c)

    The process table on top of the kernel core.  The addresses of the table
    and of process_start are link-time facts and parameters. *)
From S2P Require Import Prelude Bytes Libc Cpu Kstate Queues Kinv Scheduler Sleepq Thread Pagepool Vm.
Import Libc Sleepq Thread Vm.

Module Process.

Definition PROCESS_MAX_PROCESSES : Z := 8.
Definition PROCESS_NAME_MAX : Z := 128.
(** The name, the state and six words. *)
Definition SIZEOF_PROCESS : Z := 156.

Inductive process_state_t := PROCESS_FREE | PROCESS_RUNNING | PROCESS_ZOMBIE.
#[export] Instance process_state_eq_dec : EqDecision process_state_t.
Proof. solve_decision. Defined.

(** process_table_t: one entry. *)
Record process_t := Process {
  executable : list Z; state : process_state_t; retval : Z; parent : Z;
  first_zombie : Z; prev_zombie : Z; next_zombie : Z; children : Z }.
#[export] Instance eta_process : Eta process_t := fun p =>
  Process (executable p) (state p) (retval p) (parent p) (first_zombie p) (prev_zombie p) (next_zombie p) (children p).

(** The table, its lock, and the parts of the kernel processes use. *)
Record pstate := Pstate {
  kernel : kstate; memory : vm_t; process_table : list process_t; process_table_slock : Z }.
#[export] Instance eta_pstate : Eta pstate := fun s =>
  Pstate (kernel s) (memory s) (process_table s) (process_table_slock s).

Abbreviation P A := (M pstate A).

Definition get_proc (i : Z) : P process_t := fun s => oread (arr_get (process_table s) i) s.
Definition upd_proc (i : Z) (f : process_t → process_t) : P unit := fun s =>
  match arr_get (process_table s) i with
  | Some e => Done tt (s <| process_table := <[Z.to_nat i := f e]> (process_table s) |>)
  | None => Fault
  end.

Definition interrupt_disable : P Z := zoom #kernel (_interrupt_disable #k_status).
Definition interrupt_set_state (i : Z) : P unit := zoom #kernel (_interrupt_set_state #k_status i);; mret tt.

Section process.
Variables thread_stack_areas thread_finish_addr process_table_addr process_start_addr : Z.

(** &process_table[pid], the resource a joining thread sleeps on. *)
Definition process_addr (pid : Z) : Z := process_table_addr + pid * SIZEOF_PROCESS.

Definition process_reset (pid : Z) : P unit :=
  upd_proc pid (λ e, e <| state := PROCESS_FREE |>);;
  upd_proc pid (λ e, e <| executable := <[0%nat := 0]> (executable e) |>);;
  upd_proc pid (λ e, e <| retval := 0 |>).

(** The loops of process_init and alloc_process_id run to [i <= PROCESS_MAX_PROCESSES]. *)
Definition process_init : P unit :=
  spinlock_reset #process_table_slock;;
  for_loop (Z.to_nat (PROCESS_MAX_PROCESSES + 1)) 0 process_reset.

Definition alloc_process_id (newstate : process_state_t) : P Z :=
  intr_status ← interrupt_disable;
  spinlock_acquire #process_table_slock;;
  found ← find_loop (Z.to_nat (PROCESS_MAX_PROCESSES + 1)) 0 (λ i,
    e ← get_proc i;
    if decide (state e = PROCESS_FREE) then
      process_reset i;;
      upd_proc i (λ e, e <| state := newstate |>);;
      mret true
    else mret false);
  spinlock_release #process_table_slock;;
  interrupt_set_state intr_status;;
  mret (match found with Some i => i | None => -1 end).

Definition process_get_current_process : P Z :=
  zoom #kernel (t ← thread_get_current_thread_entry; e ← get_thread t; mret (t_process_id e)).

Definition process_get_current_process_entry : P Z :=
  pid ← process_get_current_process; mret (process_addr pid).

Definition process_spawn (name : list Z) : P Z :=
  my_pid ← process_get_current_process;
  pid ← alloc_process_id PROCESS_RUNNING;
  if decide (pid < 0) then mret (-1) else
  e ← get_proc pid;
  name ← oread (stringcopy (executable e) name PROCESS_NAME_MAX);
  upd_proc pid (λ e, e <| executable := name |>);;
  upd_proc pid (λ e, e <| retval := 0 |>);;
  upd_proc pid (λ e, e <| first_zombie := -1 |>);;
  upd_proc pid (λ e, e <| prev_zombie := -1 |>);;
  upd_proc pid (λ e, e <| next_zombie := -1 |>);;
  upd_proc pid (λ e, e <| parent := my_pid |>);;
  upd_proc pid (λ e, e <| children := 0 |>);;
  intr_status ← interrupt_disable;
  spinlock_acquire #process_table_slock;;
  (if decide (0 ≤ my_pid) then upd_proc my_pid (λ e, e <| children := children e + 1 |>) else mret tt);;
  spinlock_release #process_table_slock;;
  interrupt_set_state intr_status;;
  thread ← zoom #kernel (thread_create thread_stack_areas thread_finish_addr process_start_addr (u32 pid));
  zoom #kernel (thread_run thread);;
  mret pid.

(** Wait until the process is a zombie; [wakeups] bounds how often the thread is
    woken in between. *)
Fixpoint join_wait (wakeups : nat) (pid : Z) : P unit :=
  e ← get_proc pid;
  if decide (state e = PROCESS_ZOMBIE) then mret tt else
  zoom #kernel (sleepq_add (process_addr pid));;
  spinlock_release #process_table_slock;;
  zoom #kernel thread_switch;;
  spinlock_acquire #process_table_slock;;
  match wakeups with O => spin | S n => join_wait n pid end.

(** Take [pid] out of the list of zombies of [my_pid]. *)
Definition unlink_zombie (my_pid pid : Z) : P unit :=
  me ← get_proc my_pid;
  e ← get_proc pid;
  if decide (first_zombie me = pid) then
    let next := next_zombie e in
    upd_proc my_pid (λ e, e <| first_zombie := next |>);;
    if decide (0 ≤ next) then upd_proc next (λ e, e <| prev_zombie := -1 |>) else mret tt
  else
    let prev := prev_zombie e in
    let next := next_zombie e in
    upd_proc prev (λ e, e <| next_zombie := next |>);;
    if decide (0 ≤ next) then upd_proc next (λ e, e <| prev_zombie := prev |>) else mret tt.

(** The rest of process_join, once [pid] is a zombie. *)
Definition reap (my_pid pid : Z) : P Z :=
  e ← get_proc pid;
  let ret := retval e in
  upd_proc pid (λ e, e <| retval := -1 |>);;
  upd_proc pid (λ e, e <| parent := -1 |>);;
  e ← get_proc pid;
  (if decide (children e = 0) then
     upd_proc my_pid (λ e, e <| children := children e - 1 |>);;
     unlink_zombie my_pid pid;;
     process_reset pid
   else mret tt);;
  mret ret.

Definition process_join (wakeups : nat) (pid : Z) : P Z :=
  my_pid ← process_get_current_process;
  if decide (pid < 0 ∨ PROCESS_MAX_PROCESSES ≤ pid) then mret (-1) else
  e ← get_proc pid;
  if decide (parent e ≠ my_pid) then mret (-1) else
  intr_status ← interrupt_disable;
  spinlock_acquire #process_table_slock;;
  join_wait wakeups pid;;
  ret ← reap my_pid pid;
  spinlock_release #process_table_slock;;
  interrupt_set_state intr_status;;
  mret ret.

(** The loop of finish_given_process over the zombie children of [pid]. *)
Fixpoint free_zombies (fuel : nat) (pid : Z) : P unit :=
  match fuel with
  | O => spin
  | S n =>
    e ← get_proc pid;
    let zombie := first_zombie e in
    if decide (0 ≤ zombie) then
      upd_proc zombie (λ e, e <| state := PROCESS_FREE |>);;
      upd_proc zombie (λ e, e <| retval := -1 |>);;
      upd_proc zombie (λ e, e <| parent := -1 |>);;
      z ← get_proc zombie;
      upd_proc pid (λ e, e <| first_zombie := next_zombie z |>);;
      upd_proc pid (λ e, e <| children := children e - 1 |>);;
      free_zombies n pid
    else mret tt
  end.

(** One more turn than there are processes. *)
Definition zombie_fuel : nat := Z.to_nat (PROCESS_MAX_PROCESSES + 1).

(** Add [pid] to the front of the zombies of its parent. *)
Definition link_zombie (pid parent : Z) : P unit :=
  upd_proc pid (λ e, e <| state := PROCESS_ZOMBIE |>);;
  p ← get_proc parent;
  let zombie := first_zombie p in
  upd_proc pid (λ e, e <| next_zombie := zombie |>);;
  (if decide (0 ≤ zombie) then upd_proc zombie (λ e, e <| prev_zombie := pid |>) else mret tt);;
  upd_proc parent (λ e, e <| first_zombie := pid |>).

(** [depth] bounds the recursion to the parent. *)
Fixpoint finish_given_process (depth : nat) (pid ret : Z) : P unit :=
  e ← get_proc pid;
  let parent := parent e in
  upd_proc pid (λ e, e <| retval := ret |>);;
  free_zombies zombie_fuel pid;;
  orphan ← (if decide (0 ≤ parent) then
              p ← get_proc parent; mret (bool_decide (state p = PROCESS_ZOMBIE))
            else mret false);
  (if orphan : bool then
     upd_proc parent (λ e, e <| children := children e - 1 |>);;
     p ← get_proc parent;
     (if decide (children p = 0 ∧ retval p < 0) then
        match depth with O => spin | S d => finish_given_process d parent 0 end
      else mret tt);;
     upd_proc pid (λ e, e <| state := PROCESS_FREE |>)
   else if decide (0 ≤ parent) then link_zombie pid parent
   else upd_proc pid (λ e, e <| state := PROCESS_ZOMBIE |>));;
  zoom #kernel (sleepq_wake (process_addr pid)).

Definition process_finish (depth : nat) (ret : Z) : P unit :=
  t ← zoom #kernel thread_get_current_thread_entry;
  thread ← zoom #kernel (get_thread t);
  let pid := t_process_id thread in
  let ret := if decide (ret < 0) then 0 else ret in
  intr_status ← interrupt_disable;
  spinlock_acquire #process_table_slock;;
  zoom #memory (vm_destroy_pagetable (t_pagetable thread));;
  finish_given_process depth pid ret;;
  zoom #kernel (upd_thread t (λ e, e <| t_pagetable := 0 |>));;
  spinlock_release #process_table_slock;;
  interrupt_set_state intr_status;;
  zoom #kernel thread_finish.
End process.
End Process.
