(* ===== verification/ProcTable.v ===== *)
(** * The invariant of the process table

    [table_ok t] : every process in use has no parent or a running one, counts
    its children, and its zombie children form a doubly linked list.  The lemmas
    run the routines of [Process] on such tables. *)
From S2P Require Import Prelude Bytes Libc Cpu Kstate Queues Kinv Scheduler Sleepq Thread Pagepool Vm Process.
Import Libc Sleepq Thread Vm Process.

Module ProcTable.

Definition pid_ok (i : Z) : Prop := 0 ≤ i < PROCESS_MAX_PROCESSES.
#[export] Instance pid_ok_dec i : Decision (pid_ok i) := decide (_ ∧ _).
Definition no_process : process_t := Process [] PROCESS_FREE 0 (-1) (-1) (-1) (-1) 0.
Definition ent (t : list process_t) (i : Z) : process_t := default no_process (arr_get t i).
Definition setp (i : Z) (f : process_t → process_t) (t : list process_t) : list process_t :=
  <[Z.to_nat i := f (ent t i)]> t.
Definition size_ok (t : list process_t) : Prop := Z.of_nat (length t) = PROCESS_MAX_PROCESSES.

Lemma arr_get_ent t i : size_ok t → pid_ok i → arr_get t i = Some (ent t i).
Proof.
  intros Hs Hi. unfold ent. destruct (arr_get_is_Some t i) as [e He]; [by rw Hs|]. by rw He.
Qed.
Lemma size_setp i f t : size_ok t → size_ok (setp i f t).
Proof. unfold size_ok, setp. by rw length_insert. Qed.
Lemma ent_setp t i f q : size_ok t → pid_ok i → ent (setp i f t) q = if decide (q = i) then f (ent t i) else ent t q.
Proof.
  intros Hs Hi. unfold ent at 1, setp. rw arr_get_insert; [by rw Hs|]. by case_decide.
Qed.
#[export] Hint Resolve size_setp : buenos.

Section runs.
Variables (kn : kstate) (m : vm_t) (lk : Z).
Lemma bind_get {A} t i (k : process_t → M pstate A) :
  size_ok t → pid_ok i → (get_proc i ≫= k) (Pstate kn m t lk) = k (ent t i) (Pstate kn m t lk).
Proof. intros Hs Hi. apply bind_Done. unfold get_proc. cbn [process_table]. by rw arr_get_ent. Qed.
Lemma upd_run t i f :
  size_ok t → pid_ok i → upd_proc i f (Pstate kn m t lk) = Done tt (Pstate kn m (setp i f t) lk).
Proof. intros Hs Hi. unfold upd_proc. cbn [process_table]. by rw arr_get_ent. Qed.
Lemma bind_upd {A} t i f (k : unit → M pstate A) :
  size_ok t → pid_ok i → (upd_proc i f ≫= k) (Pstate kn m t lk) = k tt (Pstate kn m (setp i f t) lk).
Proof. intros Hs Hi. by apply bind_Done, upd_run. Qed.
End runs.

(** ** The list of zombies *)

(** A stretch of a doubly linked list: [prev] is before it and it starts at [x];
    [last] is its last element (or [prev]) and [next] comes after it. *)
Fixpoint zseg (t : list process_t) (prev x : Z) (l : list Z) (last next : Z) : Prop :=
  match l with
  | [] => prev = last ∧ x = next
  | y :: l' => x = y ∧ pid_ok y ∧ prev_zombie (ent t y) = prev ∧ zseg t y (next_zombie (ent t y)) l' last next
  end.

Lemma zseg_app t prev x l1 l2 last next :
  zseg t prev x (l1 ++ l2) last next ↔ ∃ a b, zseg t prev x l1 a b ∧ zseg t a b l2 last next.
Proof.
  revert prev x. induction l1 as [|y l1 IH]; intros prev x; simpl.
  - split; [intros Hl; by exists prev, x|]. by intros (a & b & [-> ->] & ?).
  - rw IH. naive_solver.
Qed.

Lemma zseg_ext t t' prev x l last next :
  (∀ q, q ∈ l → prev_zombie (ent t' q) = prev_zombie (ent t q) ∧ next_zombie (ent t' q) = next_zombie (ent t q)) →
  zseg t prev x l last next → zseg t' prev x l last next.
Proof.
  revert prev x. induction l as [|y l IH]; intros prev x Hq; simpl; [done|].
  intros (-> & Hy & Hp & Hl). destruct (Hq y ltac:(by left)) as [E1 E2]. rw E1 E2. split_and!; try done.
  apply IH; [|done]. intros q Hin. apply Hq. by right.
Qed.

Lemma zseg_pid t prev x l last next q : zseg t prev x l last next → q ∈ l → pid_ok q.
Proof.
  revert prev x. induction l as [|y l IH]; intros prev x; simpl; [by intros _ ?%elem_of_nil|].
  intros (-> & Hy & _ & Hl) [->|Hin]%elem_of_cons; [done|exact (IH _ _ Hl Hin)].
Qed.

(** The first element of what comes after, read through the links. *)
Lemma zseg_head t prev x l last : zseg t prev x l last (-1) → (x = -1 ∧ l = []) ∨ ∃ l', l = x :: l' ∧ pid_ok x.
Proof. destruct l as [|y l]; simpl; [intros [_ ->]; by left|]. intros (-> & Hy & _). right. by exists l. Qed.

Lemma zseg_snoc t prev x l y last next :
  zseg t prev x (l ++ [y]) last next ↔
  ∃ a, zseg t prev x l a y ∧ pid_ok y ∧ prev_zombie (ent t y) = a ∧ last = y ∧ next_zombie (ent t y) = next.
Proof. rw zseg_app. simpl. naive_solver. Qed.

(** The list from [first] on, ended by -1. *)
Definition zlist (t : list process_t) (first : Z) (l : list Z) : Prop := ∃ last, zseg t (-1) first l last (-1).

(** Taking [pid] out of the middle of a list: [a] is before it, [n] after it. *)
Lemma zlist_remove t t' first l1 pid l2 :
  NoDup (l1 ++ pid :: l2) → zlist t first (l1 ++ pid :: l2) →
  (∀ q, q ∈ l1 ++ l2 →
    prev_zombie (ent t' q) = if decide (q = next_zombie (ent t pid)) then prev_zombie (ent t pid) else prev_zombie (ent t q)) →
  (∀ q, q ∈ l1 ++ l2 →
    next_zombie (ent t' q) = if decide (q = prev_zombie (ent t pid)) then next_zombie (ent t pid) else next_zombie (ent t q)) →
  zlist t' (if decide (first = pid) then next_zombie (ent t pid) else first) (l1 ++ l2).
Proof.
  intros Hnd [last Hl] Hp Hn. rw zseg_app in Hl. destruct Hl as (a & b & H1 & H2). simpl in H2.
  destruct H2 as (-> & Hpid & Ha & H2). rw Ha in Hp Hn. set (n := next_zombie (ent t pid)) in *.
  apply NoDup_app in Hnd as (Hnd1 & Hdis & Hnd2). apply NoDup_cons in Hnd2 as [Hpn Hnd2].
  assert (∀ q, q ∈ l1 → pid_ok q) as Hok1 by (intros q; exact (zseg_pid _ _ _ _ _ _ q H1)).
  assert (∀ q, q ∈ l2 → pid_ok q) as Hok2 by (intros q; exact (zseg_pid _ _ _ _ _ _ q H2)).
  assert (∀ q, q ∈ pid :: l2 → q ≠ a) as Hqa.
  { intros q Hq ->. destruct l1 as [|y l1 _] using rev_ind.
    - simpl in H1. destruct H1 as [<- _]. assert (pid_ok (-1)) as Hx; [|unfold pid_ok in Hx; lia].
      apply elem_of_cons in Hq as [Hq|Hq]; [by rw Hq|by apply Hok2].
    - apply zseg_snoc in H1 as (u & _ & _ & _ & E & _). subst a. apply (Hdis y); set_solver. }
  assert (∀ q, q ∈ l1 → q ≠ n) as Hqn.
  { intros q Hq ->. destruct (zseg_head _ _ _ _ _ H2) as [[E _]|(l & -> & _)].
    - apply Hok1 in Hq. rw E in Hq. unfold pid_ok in Hq. lia.
    - apply (Hdis n); set_solver. }
  (* the part behind *)
  assert (∃ last', zseg t' a n l2 last' (-1)) as [last' H2'].
  { destruct l2 as [|y l2]; [destruct H2 as [_ ->]; by exists a|]. simpl in H2. destruct H2 as (E & Hn' & Hpr & H2).
    apply NoDup_cons in Hnd2 as [Hnn Hnd2]. exists last. simpl.
    rw Hp; [set_solver|]. rw Hn; [set_solver|]. rw decide_True // decide_False; [by apply Hqa; set_solver|].
    split_and!; try done. apply (zseg_ext t); [|done]. intros q Hq. rw Hp; [set_solver|]. rw Hn; [set_solver|].
    split; rw decide_False //.
    - congruence.
    - apply Hqa. set_solver. }
  exists last'. apply zseg_app. destruct l1 as [|y l1 _] using rev_ind.
  - simpl in H1. destruct H1 as [<- ->]. rw decide_True //. by exists (-1), n.
  - apply zseg_snoc in H1 as (u & H1 & Hy & Hu & -> & Hny). exists y, n. split; [|done].
    rw decide_False.
    { intros ->. destruct l1 as [|z l1]; simpl in H1; [destruct H1 as [_ ->]; apply (Hdis y); set_solver|].
      destruct H1 as (-> & _). apply (Hdis z); set_solver. }
    apply zseg_snoc. exists u. split; [|split_and!; try done].
    + apply (zseg_ext t); [|done]. intros q Hq. rw Hp; [set_solver|]. rw Hn; [set_solver|]. split; rw decide_False //.
      * apply Hqn. set_solver.
      * intros ->. apply NoDup_app in Hnd1 as (_ & Hd & _). apply (Hd y); set_solver.
    + rw Hp; [set_solver|]. rw decide_False //. apply Hqn. set_solver.
    + rw Hn; [set_solver|]. by rw decide_True.
Qed.

(** ** The invariant *)

(** The processes in use whose parent is [p]. *)
Definition kids (t : list process_t) (p : Z) : list Z :=
  filter (λ q, state (ent t q) ≠ PROCESS_FREE ∧ parent (ent t q) = p) (seqZ 0 PROCESS_MAX_PROCESSES).
Definition zombies (t : list process_t) (p : Z) (l : list Z) : Prop :=
  NoDup l ∧ ∀ q, q ∈ l ↔ pid_ok q ∧ state (ent t q) = PROCESS_ZOMBIE ∧ parent (ent t q) = p.

Record table_ok (t : list process_t) : Prop := {
  tb_size : size_ok t;
  tb_parent q : pid_ok q → state (ent t q) ≠ PROCESS_FREE →
    parent (ent t q) = -1 ∨ (pid_ok (parent (ent t q)) ∧ state (ent t (parent (ent t q))) = PROCESS_RUNNING);
  tb_children p : pid_ok p → state (ent t p) = PROCESS_RUNNING → children (ent t p) = Z.of_nat (length (kids t p));
  tb_zombies p : pid_ok p → state (ent t p) = PROCESS_RUNNING →
    ∃ l, zlist t (first_zombie (ent t p)) l ∧ zombies t p l;
  tb_zombie q : pid_ok q → state (ent t q) = PROCESS_ZOMBIE → children (ent t q) = 0 ∧ 0 ≤ retval (ent t q);
  tb_running p : pid_ok p → state (ent t p) = PROCESS_RUNNING → prev_zombie (ent t p) = -1 ∧ parent (ent t p) ≠ p }.

Lemma elem_of_kids t p q :
  q ∈ kids t p ↔ pid_ok q ∧ state (ent t q) ≠ PROCESS_FREE ∧ parent (ent t q) = p.
Proof. unfold kids. rw list_elem_of_filter elem_of_seqZ. unfold pid_ok. tauto. Qed.
Lemma NoDup_kids t p : NoDup (kids t p).
Proof. apply NoDup_filter, NoDup_seqZ. Qed.

Lemma kids_same t t' p p' : (∀ q, q ∈ kids t' p' ↔ q ∈ kids t p) → length (kids t' p') = length (kids t p).
Proof. intros Hq. apply Permutation_length, NoDup_Permutation; [apply NoDup_kids..|done]. Qed.
Lemma kids_add t t' p x :
  x ∉ kids t p → (∀ q, q ∈ kids t' p ↔ q = x ∨ q ∈ kids t p) → length (kids t' p) = S (length (kids t p)).
Proof.
  intros Hx Hq. change (S (length (kids t p))) with (length (x :: kids t p)).
  apply Permutation_length, NoDup_Permutation; [apply NoDup_kids|by apply NoDup_cons; split; [|apply NoDup_kids]|].
  intros q. rw Hq elem_of_cons. done.
Qed.

Lemma zlist_ext t t' x l :
  (∀ q, q ∈ l → prev_zombie (ent t' q) = prev_zombie (ent t q) ∧ next_zombie (ent t' q) = next_zombie (ent t q)) →
  zlist t x l → zlist t' x l.
Proof. intros Hq [last Hl]. exists last. by apply (zseg_ext t). Qed.

Lemma zlist_pid t x l q : zlist t x l → q ∈ l → pid_ok q.
Proof. intros [last Hl]. exact (zseg_pid _ _ _ _ _ _ q Hl). Qed.

Lemma zlist_head t x l : zlist t x l → (x = -1 ∧ l = []) ∨ ∃ l', l = x :: l' ∧ pid_ok x.
Proof. intros [last Hl]. by apply (zseg_head t (-1) x l last). Qed.

(** Two entries are equal field by field. *)
Lemma process_ext (e e' : process_t) :
  executable e = executable e' → state e = state e' → retval e = retval e' → parent e = parent e' →
  first_zombie e = first_zombie e' → prev_zombie e = prev_zombie e' → next_zombie e = next_zombie e' →
  children e = children e' → e = e'.
Proof. destruct e, e'; cbn; by intros -> -> -> -> -> -> -> ->. Qed.

Ltac goal_case := match goal with |- context [decide ?P] => destruct (decide P) end.
Ltac entry_cases :=
  rsimpl; repeat (case_decide; try congruence; rsimpl); try done; try tauto; try congruence.

(** ** unlink_zombie and reap: what process_join does once the process is a zombie *)

Lemma unlink_zombie_run kn m t lk my pid :
  size_ok t → pid_ok my → pid_ok pid → my ≠ pid →
  let n := next_zombie (ent t pid) in let a := prev_zombie (ent t pid) in let first := first_zombie (ent t my) in
  (first = pid ∧ a = -1 ∨ first ≠ pid ∧ pid_ok a) → (n = -1 ∨ pid_ok n) → a ≠ my → n ≠ my → a ≠ pid → n ≠ pid →
  ∃ t', unlink_zombie my pid (Pstate kn m t lk) = Done tt (Pstate kn m t' lk) ∧ size_ok t' ∧
    ∀ q, pid_ok q → ent t' q = (ent t q)
      <| first_zombie := if decide (q = my ∧ first = pid) then n else first_zombie (ent t q) |>
      <| prev_zombie := if decide (q = n) then a else prev_zombie (ent t q) |>
      <| next_zombie := if decide (q = a) then n else next_zombie (ent t q) |>.
Proof.
  intros Hs Hm Hp Hne n a first Ha Hn Ham Hnm Hap Hnp. unfold unlink_zombie. rw !bind_get //. fold first n a.
  assert (∀ i, i = -1 → ¬ pid_ok i) as Hneg by (unfold pid_ok; lia).
  destruct Ha as [[Hf Ha]|[Hf Ha]]; [rw decide_True //|rw decide_False //]; rw bind_upd //;
    (destruct Hn as [Hn|Hn]; [rw decide_False; [lia|]|rw decide_True; [by destruct Hn|]]); rw ?upd_run; auto 20 with buenos;
    (eexists; split; [reflexivity|]; split; [by auto 20 with buenos|]); intros q Hq;
    rewrite ?ent_setp; auto 20 with buenos; apply process_ext; entry_cases.
    all: exfalso; first [apply (Hneg q); congruence|intuition congruence].
Qed.

(** What is linked to an element of a list is in the list. *)
Lemma zlist_near t first l1 pid l2 :
  zlist t first (l1 ++ pid :: l2) →
  (next_zombie (ent t pid) = -1 ∨ next_zombie (ent t pid) ∈ l2) ∧
  (prev_zombie (ent t pid) = -1 ∨ prev_zombie (ent t pid) ∈ l1).
Proof.
  intros [last Hl]. apply zseg_app in Hl as (a & b & H1 & H2). simpl in H2. destruct H2 as (-> & _ & -> & H2). split.
  - destruct (zseg_head _ _ _ _ _ H2) as [[]|(l & -> & _)]; [by left|right; by left].
  - destruct l1 as [|y l1 _] using rev_ind; [destruct H1 as [<- _]; by left|].
    apply zseg_snoc in H1 as (u & _ & _ & _ & -> & _). right. set_solver.
Qed.

(** The neighbours of an element of a zombie list. *)
Lemma zlist_around t my pid l1 l2 :
  pid_ok my → pid_ok pid → my ≠ pid → my ∉ l1 ++ l2 → NoDup (l1 ++ pid :: l2) →
  zlist t (first_zombie (ent t my)) (l1 ++ pid :: l2) →
  let n := next_zombie (ent t pid) in let a := prev_zombie (ent t pid) in let first := first_zombie (ent t my) in
  (first = pid ∧ a = -1 ∨ first ≠ pid ∧ pid_ok a) ∧ (n = -1 ∨ pid_ok n) ∧ a ≠ my ∧ n ≠ my ∧ a ≠ pid ∧ n ≠ pid.
Proof.
  intros Hm Hp Hne Hin Hnd [last Hl] n a first. apply zseg_app in Hl as (a' & b & H1 & H2). simpl in H2.
  destruct H2 as (-> & _ & Ha & H2). fold a in Ha. subst a'. fold n in H2. fold first in H1.
  assert (∀ i, pid_ok i → i ≠ -1) as Hneg by (unfold pid_ok; lia).
  apply NoDup_app in Hnd as (_ & Hd & Hn2). apply NoDup_cons in Hn2 as [Hn2 _].
  assert ((first = pid ∧ a = -1) ∨ (first ≠ pid ∧ pid_ok a ∧ a ∈ l1)) as Hcase.
  { destruct l1 as [|y l1]; [left; by destruct H1|]. right. pose proof H1 as (E & _).
    split; [rw E; intros ->; apply (Hd pid); set_solver|].
    destruct (exists_last (l := y :: l1)) as (l & z & El); [done|]. rw El in H1.
    apply zseg_snoc in H1 as (u & _ & Hz & _ & -> & _). split; [done|]. rw El. set_solver. }
  assert (n = -1 ∨ (pid_ok n ∧ n ∈ l2)) as Hnx.
  { destruct (zseg_head _ _ _ _ _ H2) as [[]|(l & -> & Hx)]; [by left|right]. split; [done|by left]. }
  assert (∀ x, pid_ok x → x ∉ l1 ++ l2 → a ≠ x ∧ n ≠ x) as Hout.
  { intros x Hx Hnot. split; intros ->.
    - destruct Hcase as [[_ E]|(_ & _ & Hx')]; [by apply (Hneg x)|set_solver].
    - destruct Hnx as [E|[_ Hx']]; [by apply (Hneg x)|set_solver]. }
  destruct (Hout my Hm Hin) as [? ?]. destruct (Hout pid Hp) as [? ?]; [set_solver|].
  split_and!; try done; [|by destruct Hnx as [|[]]; auto]. destruct Hcase as [[]|(? & ? & _)]; auto.
Qed.

(** The table after [my] took [pid], between [l1] and [l2], off its zombies. *)
Record reaped (my pid : Z) (t t' : list process_t) : Prop := {
  rp_size : size_ok t';
  rp_free : state (ent t' pid) = PROCESS_FREE;
  rp_others q : pid_ok q → q ≠ pid → ent t' q = (ent t q)
      <| children := (if decide (q = my) then children (ent t q) - 1 else children (ent t q)) |>
      <| first_zombie := if decide (q = my ∧ first_zombie (ent t my) = pid) then next_zombie (ent t pid) else first_zombie (ent t q) |>
      <| prev_zombie := if decide (q = next_zombie (ent t pid)) then prev_zombie (ent t pid) else prev_zombie (ent t q) |>
      <| next_zombie := if decide (q = prev_zombie (ent t pid)) then next_zombie (ent t pid) else next_zombie (ent t q) |> }.

Lemma reap_run kn m t lk my pid l1 l2 :
  size_ok t → pid_ok my → pid_ok pid → my ≠ pid → children (ent t pid) = 0 →
  my ∉ l1 ++ l2 → NoDup (l1 ++ pid :: l2) → zlist t (first_zombie (ent t my)) (l1 ++ pid :: l2) →
  ∃ t', reap my pid (Pstate kn m t lk) = Done (retval (ent t pid)) (Pstate kn m t' lk) ∧ reaped my pid t t'.
Proof.
  intros Hs Hm Hp Hne Hc Hin Hnd Hl.
  assert (∀ i, pid_ok i → i ≠ -1) as Hneg by (unfold pid_ok; lia).
  set (n := next_zombie (ent t pid)) in *. set (first := first_zombie (ent t my)) in *. set (a := prev_zombie (ent t pid)) in *.
  assert ((first = pid ∧ a = -1 ∨ first ≠ pid ∧ pid_ok a) ∧ (n = -1 ∨ pid_ok n) ∧ a ≠ my ∧ n ≠ my ∧ a ≠ pid ∧ n ≠ pid)
    as (Hca & Hcn & Ham & Hnm & Hap & Hnp) by by apply (zlist_around t my pid l1 l2).
  set (t1 := setp my (λ e, e <| children := children e - 1 |>) (setp pid (λ e, e <| parent := -1 |>) (setp pid (λ e, e <| retval := -1 |>) t))).
  assert (size_ok t1) as Hs1 by (unfold t1; auto 20 with buenos).
  assert (∀ q, ent t1 q = (ent t q)
    <| retval := if decide (q = pid) then -1 else retval (ent t q) |> <| parent := if decide (q = pid) then -1 else parent (ent t q) |>
    <| children := if decide (q = my) then children (ent t q) - 1 else children (ent t q) |>) as H1.
  { intros q. unfold t1. rewrite !ent_setp; auto 20 with buenos. apply process_ext; entry_cases. }
  destruct (unlink_zombie_run kn m t1 lk my pid Hs1 Hm Hp Hne) as (t2 & Hrun & Hs2 & H2); try (rw !H1; done).
  exists (setp pid (λ e, e <| retval := 0 |>) (setp pid (λ e, e <| executable := <[0%nat:=0]> (executable e) |>)
    (setp pid (λ e, e <| state := PROCESS_FREE |>) t2))). split.
  - unfold reap. rw bind_get // !bind_upd //; [auto 20 with buenos..|]. rw bind_get //; [auto 20 with buenos|].
    rewrite !ent_setp; auto 20 with buenos. rw !(decide_True (P := pid = pid)) //.
    destruct (decide (children _ = 0)) as [_|Hx]; [|by destruct Hx]. rw !bind_bind bind_upd; [auto 20 with buenos..|]. fold t1. rw bind_bind (bind_Done _ _ _ _ _ Hrun). unfold process_reset.
    rw !bind_bind. rw bind_upd; [auto 20 with buenos..|]. rw bind_bind bind_upd; [auto 20 with buenos..|].
    rw bind_upd; [auto 20 with buenos..|]. done.
  - constructor; [auto 20 with buenos|by rewrite !ent_setp; auto 20 with buenos; rw !decide_True|].
    intros q Hq Hqp. rewrite !ent_setp; auto 20 with buenos. rw !(decide_False (P := q = pid)) // (H2 q Hq) !H1. rsimpl. fold n a first. apply process_ext; entry_cases.
Qed.

Lemma split_zombies t my pid :
  table_ok t → pid_ok my → state (ent t my) = PROCESS_RUNNING →
  pid_ok pid → state (ent t pid) = PROCESS_ZOMBIE → parent (ent t pid) = my →
  ∃ l1 l2, zlist t (first_zombie (ent t my)) (l1 ++ pid :: l2) ∧ zombies t my (l1 ++ pid :: l2) ∧ my ∉ l1 ++ l2.
Proof.
  intros Ht Hm Hr Hp Hz Hpar. destruct (tb_zombies t Ht my Hm Hr) as (l & Hl & Hnd & Hq).
  destruct (list_elem_of_split l pid) as (l1 & l2 & ->); [by apply Hq|]. exists l1, l2. split; [done|]. split; [done|].
  intros Hin. assert (my ∈ l1 ++ pid :: l2) as Hx by set_solver. apply Hq in Hx as (_ & Hx & _). congruence.
Qed.

Lemma reaped_ok t t' my pid :
  table_ok t → pid_ok my → state (ent t my) = PROCESS_RUNNING →
  pid_ok pid → state (ent t pid) = PROCESS_ZOMBIE → parent (ent t pid) = my →
  reaped my pid t t' → table_ok t'.
Proof.
  intros Ht Hm Hr Hp Hz Hpar [R1 R2 R3].
  assert (my ≠ pid) as Hne by congruence.
  assert (∀ q, pid_ok q → state (ent t' q) = if decide (q = pid) then PROCESS_FREE else state (ent t q)) as Hst.
  { intros q Hq. destruct (decide (q = pid)) as [->|]; [done|]. by rw R3 //. }
  assert (∀ q, pid_ok q → q ≠ pid → parent (ent t' q) = parent (ent t q)) as Hpa by (intros q Hq Hqp; by rw R3 //).
  assert (∀ q p, q ∈ kids t' p ↔ q ≠ pid ∧ q ∈ kids t p) as Hkids.
  { intros q p. rw !elem_of_kids. destruct (decide (pid_ok q)) as [Hq|]; [|tauto]. rw Hst //.
    destruct (decide (q = pid)) as [Hqp|Hqp]; [tauto|]. rw Hpa //. tauto. }
  constructor; [done| | | | |].
  - intros q Hq. rw Hst //. destruct (decide (q = pid)) as [Hqp|Hqp]; [done|]. intros Hs. rw Hpa //.
    destruct (tb_parent t Ht q Hq Hs) as [|[Hpo Hrun]]; [by left|right]. split; [done|]. rw Hst // decide_False //. congruence.
  - intros p Hpk. rw Hst //. destruct (decide (p = pid)) as [Hpp|Hpp]; [done|]. intros Hs. pose proof (tb_children t Ht p Hpk Hs) as Hc.
    rw R3 //. change (children _) with (if decide (p = my) then children (ent t p) - 1 else children (ent t p)) at 1.
    destruct (decide (p = my)) as [Hpm|Hpm].
    + subst p. rw Hc (kids_add t' t my pid); [rw Hkids; tauto| |lia].
      intros q. rw Hkids. destruct (decide (q = pid)) as [->|]; [|tauto]. rw elem_of_kids. split; [auto|]. intros _. by rw Hz.
    + rw Hc. f_equal. apply kids_same. intros q. rw Hkids. split; [|tauto]. intros Hq. split; [|done].
      intros ->. apply elem_of_kids in Hq as (_ & _ & Hq). congruence.
  - intros p Hpk. rw Hst //. destruct (decide (p = pid)) as [Hpp|Hpp]; [done|]. intros Hs.
    destruct (decide (p = my)) as [->|Hpm].
    + destruct (split_zombies t my pid) as (l1 & l2 & Hl & [Hnd Hq] & Hin); [done..|].
      exists (l1 ++ l2). split.
      * rw R3 //. change (first_zombie _) with (if decide (my = my ∧ first_zombie (ent t my) = pid)
          then next_zombie (ent t pid) else first_zombie (ent t my)) at 1.
        assert (∀ q, q ∈ l1 ++ l2 → pid_ok q ∧ q ≠ pid) as Hqp.
        { intros q Hq'. split; [apply Hq; set_solver|]. intros ->. apply NoDup_app in Hnd as (_ & Hd & Hn2).
          apply NoDup_cons in Hn2 as [Hn2 _]. apply elem_of_app in Hq' as [Hq'|Hq']; [apply (Hd pid); set_solver|done]. }
        pose proof (zlist_remove t t' _ l1 pid l2 Hnd Hl) as Hrm.
        assert (zlist t' (if decide (first_zombie (ent t my) = pid) then next_zombie (ent t pid)
          else first_zombie (ent t my)) (l1 ++ l2)) as Hz'.
        { apply Hrm; intros q Hq'; destruct (Hqp q Hq'); by rw R3 //. }
        destruct (decide (my = my ∧ _)), (decide (first_zombie (ent t my) = pid)); tauto.
      * split; [apply NoDup_app in Hnd as (? & Hd & Hn2); apply NoDup_cons in Hn2 as []; apply NoDup_app; split_and!;
          [done|intros x Hx ?; apply (Hd x); set_solver|done]|].
        intros q. destruct (decide (q = pid)) as [->|Hqp].
        { rw Hst // decide_True //. split; [|intros (_ & ? & _); done]. intros Hin'. exfalso.
          apply NoDup_app in Hnd as (_ & Hd & Hn2). apply NoDup_cons in Hn2 as [Hn2 _].
          apply elem_of_app in Hin' as [Hx|Hx]; [apply (Hd pid); set_solver|done]. }
        transitivity (q ∈ l1 ++ pid :: l2); [set_solver|]. rw Hq. destruct (decide (pid_ok q)) as [Hqk|]; [|tauto].
        rw Hst // decide_False // Hpa //.
    + destruct (tb_zombies t Ht p Hpk Hs) as (l & Hl & Hnd & Hq). exists l.
      assert (∀ q, q ∈ l → q ≠ pid ∧ pid_ok q) as Hlp.
      { intros q Hql. pose proof (zlist_pid _ _ _ _ Hl Hql). split; [|done]. intros ->. apply Hq in Hql as (_ & _ & ?). congruence. }
      destruct (split_zombies t my pid) as (l1 & l2 & Hl' & [Hnd' Hq'] & Hin); [done..|].
      pose proof (zlist_around t my pid l1 l2 Hm Hp Hne Hin Hnd' Hl') as Har. cbn zeta in Har.
      assert (∀ q, q ∈ l → q ≠ next_zombie (ent t pid) ∧ q ≠ prev_zombie (ent t pid)) as Hlq.
      { intros q Hql. destruct (zlist_near t _ l1 pid l2 Hl') as [Hn Ha].
        assert (q ∉ l1 ++ pid :: l2) as Hno by (rw Hq'; apply Hq in Hql as (_ & _ & ?); intros (_ & _ & ?); congruence).
        destruct (Hlp q Hql) as [_ Hqk]. split; intros ->.
        - destruct Hn as [Hn|Hn]; [rw Hn in Hqk; unfold pid_ok in Hqk; lia|set_solver].
        - destruct Ha as [Ha|Ha]; [rw Ha in Hqk; unfold pid_ok in Hqk; lia|set_solver]. }
      split; [|split; [done|]].
      * rw R3 //. change (first_zombie _) with (if decide (p = my ∧ first_zombie (ent t my) = pid)
          then next_zombie (ent t pid) else first_zombie (ent t p)) at 1. rw decide_False; [tauto|].
        apply (zlist_ext t); [|done]. intros q Hql. destruct (Hlp q Hql), (Hlq q Hql). rw R3 //. rsimpl.
        rw !decide_False //.
      * intros q. rw Hq. destruct (decide (pid_ok q)) as [Hqk|]; [|tauto]. rw Hst //. destruct (decide (q = pid)) as [Hqp|Hqp].
        { subst q. split; [intros (_ & _ & ?); congruence|intros (_ & ? & _); done]. }
        by rw Hpa.
  - intros q Hq. rw Hst //. destruct (decide (q = pid)) as [Hqp|Hqp]; [done|]. intros Hs. destruct (tb_zombie t Ht q Hq Hs) as [Hc Hret].
    rw R3 //. split; [|done].
    change (children _) with (if decide (q = my) then children (ent t q) - 1 else children (ent t q)) at 1.
    rw decide_False //. congruence.
  - intros p Hpk. rw Hst //. destruct (decide (p = pid)) as [Hpp|Hpp]; [done|]. intros Hs. destruct (tb_running t Ht p Hpk Hs) as [Hpv Hpr].
    rw Hpa //. split; [|done]. rw R3 //.
    change (prev_zombie _) with (if decide (p = next_zombie (ent t pid)) then prev_zombie (ent t pid) else prev_zombie (ent t p)) at 1.
    destruct (split_zombies t my pid) as (l1 & l2 & Hl' & [Hnd' Hq'] & Hin); [done..|].
    destruct (zlist_near t _ l1 pid l2 Hl') as [Hn _]. rw decide_False //. intros ->.
    destruct Hn as [Hn|Hn]; [rw Hn in Hpk; unfold pid_ok in Hpk; lia|].
    assert (next_zombie (ent t pid) ∈ l1 ++ pid :: l2) as Hx by set_solver. apply Hq' in Hx as (_ & Hx & _). congruence.
Qed.

(** ** finish_given_process *)

Lemma free_zombies_run kn m lk pid fuel t prev x l last :
  size_ok t → pid_ok pid → first_zombie (ent t pid) = x → zseg t prev x l last (-1) →
  NoDup l → pid ∉ l → (length l < fuel)%nat →
  ∃ t', free_zombies fuel pid (Pstate kn m t lk) = Done tt (Pstate kn m t' lk) ∧ size_ok t' ∧
    ∀ q, ent t' q = if decide (q ∈ l) then (ent t q) <| state := PROCESS_FREE |> <| retval := -1 |> <| parent := -1 |>
      else if decide (q = pid) then (ent t q) <| first_zombie := -1 |> <| children := children (ent t q) - Z.of_nat (length l) |>
      else ent t q.
Proof.
  revert fuel t prev x. induction l as [|y l IH]; intros fuel t prev x Hs Hp Hx Hl Hnd Hin Hf; (destruct fuel as [|fuel]; [simpl in Hf; lia|]).
  - simpl in Hl. destruct Hl as [_ ->]. exists t. cbn [free_zombies]. rw bind_get // Hx. destruct (decide (0 ≤ -1)) as [Hx'|_]; [lia|].
    split; [done|]. split; [done|]. intros q. destruct (decide (q ∈ [])) as [Hq|_]; [by apply not_elem_of_nil in Hq|]. case_decide; [|done]. subst q.
    apply process_ext; rsimpl; try done; lia.
  - simpl in Hl. destruct Hl as (-> & Hy & _ & Hl). apply NoDup_cons in Hnd as [Hyl Hnd]. apply not_elem_of_cons in Hin as [Hpy Hin].
    cbn [free_zombies]. rw bind_get // Hx. rw decide_True; [by destruct Hy|].
    rw !bind_upd; [auto 20 with buenos..|]. rw bind_get; [auto 20 with buenos..|]. rw !bind_upd; [auto 20 with buenos..|].
    match goal with |- context [free_zombies _ _ (Pstate _ _ ?t0 _)] => set (t1 := t0) end.
    assert (size_ok t1) as Hs1 by (unfold t1; auto 20 with buenos).
    assert (∀ q, ent t1 q = if decide (q = y) then (ent t q) <| state := PROCESS_FREE |> <| retval := -1 |> <| parent := -1 |>
      else if decide (q = pid) then (ent t q) <| first_zombie := next_zombie (ent t y) |> <| children := children (ent t q) - 1 |>
      else ent t q) as H1.
    { intros q. unfold t1. rewrite !ent_setp; auto 20 with buenos.
      destruct (decide (q = y)) as [->|]; [apply process_ext; entry_cases|].
      destruct (decide (q = pid)) as [->|]; apply process_ext; entry_cases. }
    destruct (IH fuel t1 y (next_zombie (ent t y)) Hs1 Hp) as (t2 & Hrun & Hs2 & H2); try done.
    + by rw H1 decide_False // decide_True.
    + apply (zseg_ext t); [|done]. intros q Hq. rw (H1 q) (decide_False (P := q = y)); [congruence|]. rw (decide_False (P := q = pid)) //. congruence.
    + simpl in Hf. lia.
    + exists t2. split; [exact Hrun|]. split; [done|]. intros q. rw H2 !H1.
      destruct (decide (q = y)) as [->|Hqy].
      * rw (decide_False (P := y ∈ l)) // (decide_False (P := y = pid)); [congruence|].
        destruct (decide (y ∈ y :: l)) as [_|Hn]; [|destruct Hn; by left]. by destruct (decide (y = y)).
      * destruct (decide (q ∈ l)) as [Hql|Hql].
        { rw (decide_True (P := q ∈ y :: l)); [by right|]. rw (decide_False (P := q = pid)) //. by intros ->. }
        rw (decide_False (P := q ∈ y :: l)); [set_solver|]. destruct (decide (q = pid)) as [->|]; [|done].
        apply process_ext; rsimpl; try done. simpl. lia.
Qed.

(** The table after process [pid], with the zombie children [l], finished. *)
Record finished (pid r : Z) (l : list Z) (t t' : list process_t) : Prop := {
  fn_size : size_ok t';
  fn_zombie q : q ∈ l → state (ent t' q) = PROCESS_FREE;
  fn_pid : ent t' pid = (ent t pid) <| state := PROCESS_ZOMBIE |> <| retval := r |> <| first_zombie := -1 |>
    <| children := children (ent t pid) - Z.of_nat (length l) |>
    <| next_zombie := (if decide (0 ≤ parent (ent t pid)) then first_zombie (ent t (parent (ent t pid))) else next_zombie (ent t pid)) |>;
  fn_others q : q ∉ l → q ≠ pid → ent t' q = (ent t q)
    <| first_zombie := (if decide (q = parent (ent t pid) ∧ 0 ≤ q) then pid else first_zombie (ent t q)) |>
    <| prev_zombie := if decide (q = first_zombie (ent t (parent (ent t pid))) ∧ 0 ≤ q ∧ 0 ≤ parent (ent t pid)) then pid else prev_zombie (ent t q) |> }.

Lemma link_run kn m t lk pid p :
  size_ok t → pid_ok pid → pid_ok p → p ≠ pid → first_zombie (ent t p) = -1 ∨ pid_ok (first_zombie (ent t p)) →
  first_zombie (ent t p) ≠ p → first_zombie (ent t p) ≠ pid →
  ∃ t', link_zombie pid p (Pstate kn m t lk) = Done tt (Pstate kn m t' lk) ∧ size_ok t' ∧
    ∀ q, ent t' q =
      if decide (q = pid) then (ent t q) <| state := PROCESS_ZOMBIE |> <| next_zombie := first_zombie (ent t p) |>
      else if decide (q = p) then (ent t q) <| first_zombie := pid |>
      else if decide (q = first_zombie (ent t p) ∧ 0 ≤ q) then (ent t q) <| prev_zombie := pid |> else ent t q.
Proof.
  intros Hs Hp Hpp Hne Hf Hfp Hfpid. unfold link_zombie. rw bind_upd //. rw bind_get; [auto 20 with buenos..|].
  rewrite ent_setp; auto 20 with buenos. rw (decide_False (P := p = pid)) //. rw bind_upd; [auto 20 with buenos..|].
  set (f := first_zombie (ent t p)) in *. destruct Hf as [Hf|Hf].
  - rw decide_False; [lia|]. rw bind_ret upd_run; [auto 20 with buenos..|]. eexists. split; [reflexivity|]. split; [auto 20 with buenos|].
    intros q. rewrite !ent_setp; auto 20 with buenos. rw (decide_False (P := q = f ∧ _)); [lia|].
    destruct (decide (q = p)) as [->|]; [rw !(decide_False (P := p = pid)) //|].
    destruct (decide (q = pid)) as [->|]; [|done]. by rw decide_True.
  - rw decide_True; [by destruct Hf|]. rw bind_upd; [auto 20 with buenos..|]. rw upd_run; [auto 20 with buenos..|].
    eexists. split; [reflexivity|]. split; [auto 20 with buenos|].
    intros q. rewrite !ent_setp; auto 20 with buenos.
    repeat (goal_case; try congruence); try done; exfalso; unfold pid_ok in Hf; intuition lia.
Qed.

Definition no_running_child (t : list process_t) (pid : Z) : Prop :=
  ∀ q, pid_ok q → state (ent t q) = PROCESS_RUNNING → parent (ent t q) ≠ pid.

Lemma finish_run addr d kn m t lk pid r :
  table_ok t → pid_ok pid → state (ent t pid) = PROCESS_RUNNING →
  ∃ l t', zombies t pid l ∧ finished pid r l t t' ∧
    finish_given_process addr d pid r (Pstate kn m t lk) =
      zoom #kernel (sleepq_wake (process_addr addr pid)) (Pstate kn m t' lk).
Proof.
  intros Ht Hp Hr. pose proof (tb_size t Ht) as Hs. destruct (tb_zombies t Ht pid Hp Hr) as (l & [last Hl] & Hnd & Hq).
  exists l. set (t1 := setp pid (λ e, e <| retval := r |>) t). assert (size_ok t1) as Hs1 by (unfold t1; auto with buenos).
  assert (∀ q, ent t1 q = (ent t q) <| retval := if decide (q = pid) then r else retval (ent t q) |>) as H1.
  { intros q. unfold t1. rewrite ent_setp; auto with buenos. destruct (decide (q = pid)) as [->|]; apply process_ext; entry_cases. }
  assert (pid ∉ l) as Hpl by (rw Hq; intros (_ & ? & _); congruence).
  assert (length l < zombie_fuel)%nat as Hlen.
  { assert (length l ≤ length (seqZ 0 PROCESS_MAX_PROCESSES))%nat as Hle.
    { apply submseteq_length, NoDup_submseteq; [done|]. intros q Hql. apply Hq in Hql as [? _]. apply elem_of_seqZ. unfold pid_ok in *. lia. }
    rw length_seqZ in Hle. change zombie_fuel with 9%nat. unfold PROCESS_MAX_PROCESSES in Hle. lia. }
  destruct (free_zombies_run kn m lk pid zombie_fuel t1 (-1) (first_zombie (ent t pid)) l last) as (t2 & Hrun & Hs2 & H2); try done.
  { by rw H1. }
  { apply (zseg_ext t); [|done]. intros q _. by rw H1. }
  assert (∀ q, q ∈ l → state (ent t2 q) = PROCESS_FREE) as Hz2 by (intros q Hql; by rw H2 decide_True).
  pose proof (tb_running t Ht pid Hp Hr) as [Hprev Hself]. set (p := parent (ent t pid)) in *.
  assert (∀ q, q ∉ l → q ≠ pid → ent t2 q = ent t q) as Hrest.
  { intros q Hql Hqp. rw H2 !decide_False // H1. apply process_ext; entry_cases. }
  assert (ent t2 pid = (ent t pid) <| retval := r |> <| first_zombie := -1 |>
    <| children := children (ent t pid) - Z.of_nat (length l) |>) as Hpid2.
  { rw H2 decide_False // decide_True // H1. apply process_ext; entry_cases. }
  assert (finish_given_process addr d pid r (Pstate kn m t lk) =
    ((if decide (0 ≤ p) then link_zombie pid p else upd_proc pid (λ e, e <| state := PROCESS_ZOMBIE |>));;
     zoom #kernel (sleepq_wake (process_addr addr pid))) (Pstate kn m t2 lk)) as ->.
  { destruct d; cbn [finish_given_process]; rw bind_get // bind_upd //; fold t1; rw (bind_Done _ _ _ _ _ Hrun);
      fold p; (destruct (decide (0 ≤ p)) as [H0|H0]; [|done]);
      (destruct (tb_parent t Ht pid Hp ltac:(congruence)) as [E|[Hpk Hpr]]; [fold p in E; lia|]; fold p in Hpk, Hpr);
      rw bind_bind bind_get // bind_ret (Hrest p) //; try (rw bool_decide_false //; congruence);
      rw Hq; intros (_ & ? & _); congruence. }
  destruct (decide (0 ≤ p)) as [H0|H0].
  - destruct (tb_parent t Ht pid Hp ltac:(congruence)) as [E|[Hpk Hpr]]; [fold p in E; lia|]. fold p in Hpk, Hpr.
    assert (p ∉ l) as Hpnl by (rw Hq; intros (_ & ? & _); congruence).
    destruct (tb_zombies t Ht p Hpk Hpr) as (l' & Hl' & _ & Hq').
    assert (first_zombie (ent t2 p) = first_zombie (ent t p)) as Hfe by by rw Hrest.
    assert (first_zombie (ent t p) = -1 ∨ pid_ok (first_zombie (ent t p)) ∧ first_zombie (ent t p) ∈ l') as Hf.
    { destruct (zlist_head _ _ _ Hl') as [[? _]|(l0 & -> & ?)]; [by left|right; split; [done|by left]]. }
    assert (first_zombie (ent t p) ≠ p ∧ first_zombie (ent t p) ≠ pid ∧ first_zombie (ent t p) ∉ l) as (Hf1 & Hf2 & Hf3).
    { destruct Hf as [Hf|[Hfk Hf]].
      - rw Hf. unfold pid_ok in Hpk, Hp. split_and!; [lia..|]. rw Hq. unfold pid_ok. lia.
      - apply Hq' in Hf as (_ & Hfs & Hfp). split_and!; [congruence..|]. rw Hq. intros (_ & _ & ?). congruence. }
    destruct (link_run kn m t2 lk pid p) as (t3 & Hlink & Hs3 & H3); try done; try (rw Hfe; tauto).
    exists t3. split; [done|]. split; [|by rw (bind_Done _ _ _ _ _ Hlink)].
    constructor; [done| | |].
    + intros q Hql. rw H3. rewrite Hfe. repeat (goal_case; try congruence); by apply Hz2.
    + rw H3 decide_True // Hfe Hpid2. fold p. rw decide_True //.
    + intros q Hql Hqp. rw H3 decide_False // Hfe. rw Hrest //. fold p.
      apply process_ext; repeat (goal_case; try congruence; rsimpl); try done; try tauto.
      all: exfalso; unfold pid_ok in Hpk; intuition (congruence || lia).
  - exists (setp pid (λ e, e <| state := PROCESS_ZOMBIE |>) t2). split; [done|]. split; [|by rw bind_upd].
    constructor; [auto with buenos| | |].
    + intros q Hql. rewrite ent_setp //. rw decide_False; [by intros ->|]. by apply Hz2.
    + rewrite ent_setp //. rw decide_True // Hpid2. fold p. by rw (decide_False (P := 0 ≤ p)).
    + intros q Hql Hqp. rewrite ent_setp //. rw decide_False // Hrest //. fold p.
      apply process_ext; repeat (goal_case; try congruence; rsimpl); try done; exfalso; intuition lia.
Qed.

Section finished_facts.
Variables (t t' : list process_t) (pid r : Z) (l : list Z).
Hypotheses (Ht : table_ok t) (Hp : pid_ok pid) (Hr : state (ent t pid) = PROCESS_RUNNING)
  (Hl : zombies t pid l) (Hfin : finished pid r l t t').

Lemma finished_state q : state (ent t' q) =
  if decide (q ∈ l) then PROCESS_FREE else if decide (q = pid) then PROCESS_ZOMBIE else state (ent t q).
Proof.
  destruct Hfin as [F1 F2 F3 F4]. goal_case; [by apply F2|]. goal_case; [by subst; rw F3|]. by rw F4 //.
Qed.
Lemma finished_parent q : q ∉ l → parent (ent t' q) = parent (ent t q).
Proof.
  destruct Hfin as [F1 F2 F3 F4]. intros Hq. destruct (decide (q = pid)) as [->|]; [by rw F3|by rw F4 //].
Qed.
Lemma zombie_not_self : pid ∉ l.
Proof. destruct Hl as [_ Hq]. rw Hq. intros (_ & ? & _). congruence. Qed.
Lemma finished_kids p : p ≠ pid → ∀ q, q ∈ kids t' p ↔ q ∈ kids t p.
Proof.
  intros Hpp q. destruct Hl as [_ Hq]. rw !elem_of_kids finished_state. pose proof zombie_not_self as Hps.
  destruct (decide (q ∈ l)) as [Hql|Hql].
  { split; [by intros (_ & ? & _)|]. intros (_ & _ & ?). apply Hq in Hql as (_ & _ & ?). congruence. }
  rw finished_parent //. destruct (decide (q = pid)) as [->|]; [|done]. rw Hr. naive_solver.
Qed.
End finished_facts.

Lemma finished_ok t t' pid r l :
  table_ok t → pid_ok pid → state (ent t pid) = PROCESS_RUNNING → no_running_child t pid → 0 ≤ r →
  zombies t pid l → finished pid r l t t' → table_ok t'.
Proof.
  intros Ht Hp Hr Hn Hr0 Hl Hfin.
  pose proof (finished_state t t' pid r l Hfin) as Hst. pose proof (finished_parent t t' pid r l Hfin) as Hpa.
  pose proof (zombie_not_self t pid l Hr Hl) as Hps. pose proof (finished_kids t t' pid r l Hr Hl Hfin) as Hkids.
  destruct Hfin as [F1 F2 F3 F4]. pose proof Hl as [Hnd Hq]. pose proof (tb_running t Ht pid Hp Hr) as [Hprev Hself].
  assert (∀ q, pid_ok q → state (ent t q) ≠ PROCESS_FREE → parent (ent t q) = pid → q ∈ l) as Hchild.
  { intros q Hqk Hs Hqp. apply Hq. split; [done|]. split; [|done]. destruct (state (ent t q)) eqn:E; try done.
    by destruct (Hn q Hqk E). }
  assert (∀ q, pid_ok q → q ∉ l → q ≠ pid → state (ent t q) = PROCESS_RUNNING → state (ent t' q) = PROCESS_RUNNING) as Hrun.
  { intros q _ Hql Hqp E. by rw Hst !decide_False. }
  set (pp := parent (ent t pid)) in *.
  assert (∀ q, pid_ok q → state (ent t' q) = PROCESS_RUNNING → q ∉ l ∧ q ≠ pid ∧ state (ent t q) = PROCESS_RUNNING) as Hback.
  { intros q _. rw Hst. repeat goal_case; done. }
  assert (0 ≤ pp → pid_ok pp ∧ state (ent t pp) = PROCESS_RUNNING ∧ pp ∉ l ∧
    ∃ l', zlist t (first_zombie (ent t pp)) l' ∧ zombies t pp l') as Hpp.
  { intros H0. destruct (tb_parent t Ht pid Hp ltac:(congruence)) as [E|[Hpk Hpr]]; [fold pp in E; lia|]. fold pp in Hpk, Hpr.
    split; [done|]. split; [done|]. split; [rw Hq; intros (_ & ? & _); congruence|]. by apply tb_zombies. }
  assert (∀ q, 0 ≤ pp → q = first_zombie (ent t pp) → 0 ≤ q → state (ent t q) = PROCESS_ZOMBIE ∧ parent (ent t q) = pp) as Hfz.
  { intros q H0 -> Hq0. destruct (Hpp H0) as (_ & _ & _ & l' & Hl' & _ & Hq').
    destruct (zlist_head _ _ _ Hl') as [[? _]|(l0 & -> & ?)]; [lia|]. by apply (Hq' (first_zombie (ent t pp))); left. }
  constructor; [done| | | | |].
  - intros q Hqk. rw Hst. destruct (decide (q ∈ l)); [done|]. intros Hs. rw Hpa //.
    assert (state (ent t q) ≠ PROCESS_FREE) as Hs' by (destruct (decide (q = pid)); congruence).
    destruct (tb_parent t Ht q Hqk Hs') as [|[Hk E]]; [by left|right]. split; [done|]. apply Hrun; try done.
    + rw Hq. intros (_ & ? & _). congruence.
    + intros E'. by apply Hchild in E'.
  - intros p Hpk Hs. destruct (Hback p Hpk Hs) as (Hpl & Hpp' & Hs'). rw F4 //.
    change (children _) with (children (ent t p)) at 1. rw (tb_children t Ht p) //. f_equal. symmetry. by apply kids_same, Hkids.
  - intros p Hpk Hs. destruct (Hback p Hpk Hs) as (Hpl & Hpp' & Hs').
    destruct (tb_zombies t Ht p Hpk Hs') as (lp & Hlp & Hzp).
    assert (∀ q, q ∈ lp → q ∉ l ∧ q ≠ pid) as Hlpq.
    { intros q Hin. apply Hzp in Hin as (_ & E1 & E2). split; [rw Hq; intros (_ & _ & ?); congruence|congruence]. }
    destruct (decide (p = pp ∧ 0 ≤ p)) as [[-> H0]|Hne].
    + exists (pid :: lp). rw F4 //. change (first_zombie _) with (if decide (pp = pp ∧ 0 ≤ pp) then pid else first_zombie (ent t pp)) at 1.
      rw decide_True //. split.
      * destruct Hlp as [last Hlp]. assert (∃ last', zseg t' pid (first_zombie (ent t pp)) lp last' (-1)) as [last' Hz].
        { destruct lp as [|y lp]; [destruct Hlp as [_ E]; by exists pid|]. simpl in Hlp. destruct Hlp as (E & Hy & Hpy & Hlp).
          exists last. simpl. destruct (Hlpq y) as [Hyl Hyp]; [by left|]. split; [done|]. split; [done|]. rw F4 //. rsimpl. split.
          - rw decide_True //. split; [done|]. split; [by destruct Hy|done].
          - apply (zseg_ext t); [|done]. intros q Hin. destruct (Hlpq q) as [? ?]; [by right|]. rw F4 //. rsimpl. split; [|done].
            rw decide_False //. intros (E' & _). destruct Hzp as [Hndp _]. apply NoDup_cons in Hndp as [Hyn _]. congruence. }
        exists last'. simpl. split; [done|]. split; [done|]. rw F3. split; [done|]. rsimpl. by rw decide_True.
      * destruct Hzp as [Hndp Hqp]. split.
        { apply NoDup_cons. split; [|done]. rw Hqp. intros (_ & ? & _). congruence. }
        intros q. rw elem_of_cons Hqp Hst. destruct (decide (q ∈ l)) as [Hql|Hql].
        { split; [|by intros (_ & ? & _)]. apply Hq in Hql as (_ & ? & ?). intros [->|(_ & _ & ?)]; congruence. }
        rw Hpa //. destruct (decide (q = pid)) as [->|]; [|tauto]. tauto.
    + exists lp. split; [|split; [apply Hzp|]].
      * rw F4 //. change (first_zombie _) with (if decide (p = pp ∧ 0 ≤ p) then pid else first_zombie (ent t p)) at 1.
        rw decide_False //. apply (zlist_ext t); [|done]. intros q Hin. destruct (Hlpq q Hin). rw F4 //. rsimpl. split; [|done].
        rw decide_False //. intros (E & Hq0 & Hpp0). destruct (Hfz q Hpp0 E Hq0) as [_ E']. apply Hzp in Hin as (_ & _ & E'').
        apply Hne. split; [congruence|]. unfold pid_ok in Hpk. lia.
      * intros q. destruct Hzp as [_ Hqp]. rw Hqp Hst. destruct (decide (q ∈ l)) as [Hql|Hql].
        { split; [|by intros (_ & ? & _)]. apply Hq in Hql as (_ & ? & ?). intros (_ & _ & ?). congruence. }
        rw Hpa //. destruct (decide (q = pid)) as [->|]; [|tauto]. rw Hr. split; [by intros (_ & ? & _)|].
        intros (_ & _ & E). destruct Hne. split; [done|]. unfold pid_ok in Hpk. lia.
  - intros q Hqk. rw Hst. destruct (decide (q ∈ l)) as [|Hql]; [done|]. destruct (decide (q = pid)) as [->|Hqp].
    + intros _. rw F3. split; [|done]. change (children (ent t pid) - Z.of_nat (length l) = 0).
      rw (tb_children t Ht pid) //. assert (length (kids t pid) = length l) as ->; [|lia].
      apply Permutation_length, NoDup_Permutation; [apply NoDup_kids|done|]. intros q. rw elem_of_kids. split.
      * intros (Hk & Hs & Hpq). by apply Hchild.
      * intros Hin. apply Hq in Hin as (? & E & ?). split_and!; try done. by rw E.
    + intros Hs. rw F4 //. by apply (tb_zombie t Ht q).
  - intros p Hpk Hs. destruct (Hback p Hpk Hs) as (Hpl & Hpp' & Hs'). destruct (tb_running t Ht p Hpk Hs') as [E1 E2].
    rw Hpa //. split; [|done]. rw F4 //. rsimpl. rw decide_False //. intros (E & Hq0 & H0).
    destruct (Hfz p H0 E Hq0). congruence.
Qed.
End ProcTable.
