(* ===== verification/ProcSpec.v ===== *)
(** * Properties of user processes

    Spawning, exiting and joining, each with its effect on the process table and
    on the kernel core. *)
From S2P Require Import Prelude Bytes Libc Cpu Kstate Queues Kinv Scheduler Sleepq Semaphore Kservice Thread Kmalloc Pagepool Vm Process ProcTable.
Import Libc Scheduler Sleepq Semaphore Thread Vm Process ProcTable.

Module ProcSpec.

Definition names_ok (t : list process_t) : Prop := ∀ q, pid_ok q → length (executable (ent t q)) = 128%nat.

Lemma bind_disable {A} kn m t lk (k : Z → M pstate A) :
  (interrupt_disable ≫= k) (Pstate kn m t lk) = k (k_status kn) (Pstate (kd kn) m t lk).
Proof. reflexivity. Qed.
Lemma bind_lock {A} kn m t (k : unit → M pstate A) :
  (spinlock_acquire #process_table_slock ≫= k) (Pstate kn m t 0) = k tt (Pstate kn m t 1).
Proof. reflexivity. Qed.
Lemma bind_unlock {A} kn m t lk (k : unit → M pstate A) :
  (spinlock_release #process_table_slock ≫= k) (Pstate kn m t lk) = k tt (Pstate kn m t 0).
Proof. reflexivity. Qed.
Lemma bind_restore {A} w c s m t lk (k : unit → M pstate A) :
  0 ≤ k_status s < 2 ^ 32 → w = k_status s →
  (interrupt_set_state w ≫= k) (Pstate (put_core c (kd s)) m t lk) = k tt (Pstate (put_core c s) m t lk).
Proof.
  intros Hw ->. unfold interrupt_set_state. rw bind_bind.
  erewrite bind_zoom; [|reflexivity]. rw bind_ret. cbn. f_equal. f_equal.
  change (k_status (put_core c (kd s))) with (disabled (k_status s)). rw restore_disabled //.
Qed.
Lemma bind_restore_same {A} w s m t lk (k : unit → M pstate A) :
  0 ≤ k_status s < 2 ^ 32 → w = k_status s →
  (interrupt_set_state w ≫= k) (Pstate (kd s) m t lk) = k tt (Pstate s m t lk).
Proof. intros Hw E. rewrite -{1}(put_core_of (kd s)). rw bind_restore //. f_equal. by rewrite (put_core_of s). Qed.

Lemma current_process_run kn q m t lk {A} (k : Z → M pstate A) :
  kern_ok kn q → tid_ok (current kn) →
  (process_get_current_process ≫= k) (Pstate kn m t lk) =
    k (t_process_id (cthr (core_of kn) (current kn))) (Pstate kn m t lk).
Proof.
  intros Hk Ht. pose proof (sizes_of _ _ (kk_inv _ _ Hk)) as Hs. unfold process_get_current_process.
  assert ((t ← thread_get_current_thread_entry; e ← get_thread t; mret (t_process_id e)) kn =
    Done (t_process_id (cthr (core_of kn) (current kn))) kn) as Hrun.
  { rw (bind_Done _ _ _ _ _ (thread_get_current_thread_run kn Hs (kk_cpu _ _ Hk))). by rw (bind_Done _ _ _ _ _ (get_thread_run kn _ Hs Ht)). }
  erewrite bind_zoom; [|exact Hrun]. reflexivity.
Qed.

(** ** Slots *)

Definition free_slot (t : list process_t) : option Z :=
  snd <$> list_find (λ q, state (ent t q) = PROCESS_FREE) (seqZ 0 PROCESS_MAX_PROCESSES).

Lemma free_slot_Some t pid :
  free_slot t = Some pid ↔ pid_ok pid ∧ state (ent t pid) = PROCESS_FREE ∧ ∀ q, 0 ≤ q < pid → state (ent t q) ≠ PROCESS_FREE.
Proof.
  unfold free_slot. split.
  - destruct (list_find _ _) as [[i q]|] eqn:E; [|done]. intros [= <-]. simpl.
    apply list_find_Some in E as (Hi & Hq & Hf). apply lookup_seqZ in Hi as [-> Hi]. split; [unfold pid_ok; lia|].
    split; [done|]. intros q Hq'. apply (Hf (Z.to_nat q) q); [|lia]. apply lookup_seqZ. lia.
  - intros (Hp & Hs & Hf). unfold pid_ok in Hp. destruct (list_find _ _) as [[i q]|] eqn:E.
    + apply list_find_Some in E as (Hi & Hq & Hl). apply lookup_seqZ in Hi as [-> Hi]. simpl. f_equal.
      destruct (Z.lt_trichotomy (0 + Z.of_nat i) pid) as [Hlt|[->|Hlt]]; [|done|].
      * by destruct (Hf (0 + Z.of_nat i)%Z); [lia|].
      * exfalso. apply (Hl (Z.to_nat pid) pid); [|lia|done]. apply lookup_seqZ. lia.
    + exfalso. pose proof (proj1 (list_find_None _ _) E) as Hn. rewrite Forall_forall in Hn.
      apply (Hn pid); [|done]. apply elem_of_seqZ. lia.
Qed.

Definition alloc_test (newstate : process_state_t) (i : Z) : M pstate bool :=
  e ← get_proc i;
  if decide (state e = PROCESS_FREE) then
    process_reset i;; upd_proc i (λ e, e <| state := newstate |>);; mret true
  else mret false.

Lemma alloc_loop_run newstate kn m t lk pid n lo :
  size_ok t → pid_ok pid → state (ent t pid) = PROCESS_FREE → (∀ q, 0 ≤ q < pid → state (ent t q) ≠ PROCESS_FREE) →
  0 ≤ lo ≤ pid → pid < lo + Z.of_nat n →
  ∃ t', find_loop n lo (alloc_test newstate) (Pstate kn m t lk) = Done (Some pid) (Pstate kn m t' lk) ∧ size_ok t' ∧
    ∀ q, ent t' q = if decide (q = pid) then (ent t pid) <| state := newstate |> <| retval := 0 |>
      <| executable := <[0%nat := 0]> (executable (ent t pid)) |> else ent t q.
Proof.
  intros Hs Hp Hf Hlow. revert lo. induction n as [|n IH]; intros lo Hlo Hn; [lia|]. cbn [find_loop].
  assert (pid_ok lo) as Hlok by (unfold pid_ok in *; lia).
  destruct (decide (lo = pid)) as [->|Hne].
  - eexists. split; [|split].
    + unfold alloc_test at 1. rw bind_bind bind_get // decide_True // !bind_bind. unfold process_reset.
      repeat (rw ?bind_bind; rw bind_upd; [auto 20 with buenos..|]). reflexivity.
    + auto 20 with buenos.
    + intros q. rewrite !ent_setp; auto 20 with buenos. destruct (decide (q = pid)) as [->|]; [|done].
      apply process_ext; entry_cases.
  - unfold alloc_test at 1. rw bind_bind bind_get // decide_False; [apply Hlow; lia|]. rw bind_ret. apply IH; lia.
Qed.

Lemma alloc_loop_full newstate kn m t lk n lo :
  size_ok t → (∀ q, pid_ok q → state (ent t q) ≠ PROCESS_FREE) → 0 ≤ lo → lo + Z.of_nat n = PROCESS_MAX_PROCESSES + 1 →
  (0 < n)%nat → find_loop n lo (alloc_test newstate) (Pstate kn m t lk) = Fault.
Proof.
  intros Hs Hf. revert lo. induction n as [|n IH]; intros lo Hlo Hn Hpos; [lia|]. cbn [find_loop].
  destruct (decide (pid_ok lo)) as [Hlk|Hlk].
  - unfold alloc_test at 1. rw bind_bind bind_get // decide_False; [by apply Hf|]. rw bind_ret. unfold pid_ok in Hlk. apply IH; lia.
  - assert (alloc_test newstate lo (Pstate kn m t lk) = Fault) as Ht; [|unfold mbind, M_bind; by rw Ht].
    unfold alloc_test, mbind, M_bind, get_proc. cbn [process_table].
    assert (arr_get t lo = None) as ->; [|done]. apply arr_get_None. rw Hs. done.
Qed.

Lemma alloc_run newstate kn q m t pid :
  kern_ok kn q → size_ok t → free_slot t = Some pid →
  ∃ t', alloc_process_id newstate (Pstate kn m t 0) = Done pid (Pstate kn m t' 0) ∧ size_ok t' ∧
    ∀ q, ent t' q = if decide (q = pid) then (ent t pid) <| state := newstate |> <| retval := 0 |>
      <| executable := <[0%nat := 0]> (executable (ent t pid)) |> else ent t q.
Proof.
  intros Hk Hs [Hp [Hf Hl]]%free_slot_Some. unfold pid_ok in Hp.
  destruct (alloc_loop_run newstate (kd kn) m t 1 pid 9 0) as (t' & Hrun & Ht'); try done; [unfold PROCESS_MAX_PROCESSES in Hp; lia..|].
  exists t'. split; [|done]. unfold alloc_process_id. rw bind_disable bind_lock.
  change (find_loop (Z.to_nat (PROCESS_MAX_PROCESSES + 1)) 0 _) with (find_loop 9 0 (alloc_test newstate)).
  rw (bind_Done _ _ _ _ _ Hrun) bind_unlock. rw bind_restore_same; [apply (co_status _ (kk_cpu _ _ Hk))|done|done].
Qed.

(** When no entry is free the loop reads the entry behind the table. *)
Lemma alloc_process_id_full newstate kn m t :
  size_ok t → free_slot t = None → alloc_process_id newstate (Pstate kn m t 0) = Fault.
Proof.
  intros Hs Hn. unfold alloc_process_id. rw bind_disable bind_lock.
  change (find_loop (Z.to_nat (PROCESS_MAX_PROCESSES + 1)) 0 _) with (find_loop 9 0 (alloc_test newstate)).
  unfold mbind, M_bind. rw alloc_loop_full //; [|lia]. intros q Hq Hst. unfold free_slot in Hn.
  destruct (list_find _ _) as [|] eqn:E in Hn; [done|]. pose proof (proj1 (list_find_None _ _) E) as Hall. rewrite Forall_forall in Hall.
  apply (Hall q); [|done]. apply elem_of_seqZ. unfold pid_ok in Hq. lia.
Qed.

(** process_init runs one entry too far as well. *)
Lemma process_init_overruns kn m t lk : size_ok t → process_init (Pstate kn m t lk) = Fault.
Proof.
  intros Hs. unfold process_init, size_ok, PROCESS_MAX_PROCESSES in *.
  do 8 (destruct t as [|? t]; [simpl in Hs; lia|]). destruct t; [reflexivity|simpl in Hs; lia].
Qed.

(** ** Spawn *)

Definition new_process (name : list Z) (my : Z) : process_t := Process name PROCESS_RUNNING 0 my (-1) (-1) (-1) 0.

(** The table after [my] started process [pid]. *)
Record spawned (my pid : Z) (name : list Z) (t t' : list process_t) : Prop := {
  sp_size : size_ok t';
  sp_entry q : ent t' q = if decide (q = pid) then new_process name my
    else if decide (q = my ∧ 0 ≤ my) then (ent t q) <| children := children (ent t q) + 1 |> else ent t q }.

Definition may_spawn (t : list process_t) (my : Z) : Prop :=
  my = -1 ∨ (pid_ok my ∧ state (ent t my) = PROCESS_RUNNING).

Lemma spawned_ok t t' my pid name :
  table_ok t → pid_ok pid → state (ent t pid) = PROCESS_FREE → may_spawn t my → spawned my pid name t t' → table_ok t'.
Proof.
  intros Ht Hp Hf Hmy [S1 S2].
  assert (my ≠ pid) as Hne by (unfold pid_ok in Hp; destruct Hmy as [->|[_ ?]]; [lia|congruence]).
  assert (∀ q, state (ent t' q) = if decide (q = pid) then PROCESS_RUNNING else state (ent t q)) as Hst.
  { intros q. rw S2. goal_case; [done|]. by goal_case. }
  assert (∀ q, q ≠ pid → parent (ent t' q) = parent (ent t q)) as Hpa.
  { intros q Hq. rw S2 decide_False //. by goal_case. }
  assert (parent (ent t' pid) = my) as Hpp by by rw S2 decide_True.
  assert (∀ q, q ≠ pid → (first_zombie (ent t' q) = first_zombie (ent t q) ∧ retval (ent t' q) = retval (ent t q)) ∧
    prev_zombie (ent t' q) = prev_zombie (ent t q) ∧ next_zombie (ent t' q) = next_zombie (ent t q)) as Hlinks.
  { intros q Hq. rw S2 decide_False //. by goal_case. }
  assert (∀ q p, q ∈ kids t' p ↔ (q = pid ∧ p = my) ∨ q ∈ kids t p) as Hkids.
  { intros q p. rw !elem_of_kids Hst. destruct (decide (q = pid)) as [->|Hq]; [|rw Hpa //; tauto].
    rw Hpp Hf. naive_solver. }
  assert (∀ q, pid_ok q → state (ent t q) ≠ PROCESS_FREE → parent (ent t q) ≠ pid) as Hnokid.
  { intros q Hq Hs E. destruct (tb_parent t Ht q Hq Hs) as [E'|[_ E']]; [unfold pid_ok in Hp; lia|congruence]. }
  constructor; [done| | | | |].
  - intros q Hq. rw Hst. destruct (decide (q = pid)) as [->|Hqp]; intros Hs.
    + rw Hpp. destruct Hmy as [->|[Hk Hr]]; [by left|right]. split; [done|]. by rw Hst decide_False.
    + rw Hpa //. destruct (tb_parent t Ht q Hq Hs) as [|[Hk Hr]]; [by left|right]. split; [done|].
      rw Hst decide_False //. by apply Hnokid.
  - intros p Hpk. rw Hst. destruct (decide (p = pid)) as [->|Hpp']; intros Hs.
    + rw S2 decide_True //. change (0 = Z.of_nat (length (kids t' pid))).
      assert (kids t' pid = []) as ->; [|done]. apply elem_of_nil_inv. intros q. rw Hkids elem_of_kids.
      intros [[_ E]|(Hk & Hs' & E)]; [congruence|by apply (Hnokid q)].
    + pose proof (tb_children t Ht p Hpk Hs) as Hc. rw S2 decide_False //. destruct (decide (p = my)) as [->|Hpm].
      * rw decide_True; [unfold pid_ok in Hpk; split; [done|lia]|].
        change (children (ent t my) + 1 = Z.of_nat (length (kids t' my))). rw Hc (kids_add t t' my pid); [|intros q; rw Hkids; tauto|lia].
        rw elem_of_kids. intros (_ & ? & _). done.
      * rw decide_False; [tauto|]. rw Hc. f_equal. apply kids_same. intros q. rw Hkids. naive_solver.
  - intros p Hpk. rw Hst. destruct (decide (p = pid)) as [->|Hpp']; intros Hs.
    + exists []. rw S2 decide_True //. split; [by exists (-1)|]. split; [apply NoDup_nil_2|].
      intros q. rw Hst. split; [by intros ?%elem_of_nil|]. destruct (decide (q = pid)) as [->|Hq]; [by intros (_ & ? & _)|].
      rw Hpa //. intros (Hk & Hz & E). destruct (Hnokid q Hk); [by rw Hz|done].
    + destruct (tb_zombies t Ht p Hpk Hs) as (l & Hl & Hnd & Hq). exists l. destruct (Hlinks p Hpp') as [[-> _] _].
      assert (∀ q, q ∈ l → q ≠ pid) as Hlp by (intros q Hin ->; apply Hq in Hin as (_ & ? & _); congruence).
      split; [apply (zlist_ext t); [|done]; intros q Hin; by apply Hlinks, Hlp|]. split; [done|].
      intros q. rw Hq Hst. destruct (decide (q = pid)) as [->|Hqp]; [|by rw Hpa]. rw Hf. naive_solver.
  - intros q Hq. rw Hst. destruct (decide (q = pid)) as [->|Hqp]; intros Hs; [done|].
    destruct (Hlinks q Hqp) as [[_ ->] _]. destruct (tb_zombie t Ht q Hq Hs) as [Hc Hr]. split; [|done].
    rw S2 decide_False //. rw decide_False //. intros [-> H0]. destruct Hmy as [->|[_ ?]]; [lia|congruence].
  - intros p Hpk. rw Hst. destruct (decide (p = pid)) as [->|Hpp']; intros Hs.
    + rw Hpp. rw S2 decide_True //.
    + rw Hpa //. destruct (Hlinks p Hpp') as [_ [-> _]]. by apply tb_running.
Qed.

Section services.
Variables thread_stack_areas thread_finish_addr process_table_addr process_start_addr : Z.
Abbreviation spawn := (process_spawn thread_stack_areas thread_finish_addr process_start_addr).
Abbreviation starts := (new_context thread_stack_areas thread_finish_addr).

(** A ready thread [tid] will run process_start on [pid]. *)
Definition thread_starts (kn : kstate) (tid pid : Z) : Prop :=
  qtid tid ∧ st (core_of kn) tid = THREAD_READY ∧
  k_contexts kn (stack_context thread_stack_areas tid) = starts tid process_start_addr pid.

Lemma start_thread kn q m t lk pid :
  kern_ok kn q → (∃ u, qtid u ∧ st (core_of kn) u = THREAD_FREE) → pid_ok pid →
  ∃ tid kn', kern_ok kn' (set_ready (q_ready q ++ [tid]) q) ∧ thread_starts kn' tid pid ∧
    (thread ← zoom #kernel (thread_create thread_stack_areas thread_finish_addr process_start_addr (u32 pid));
     zoom #kernel (thread_run thread);; mret pid) (Pstate kn m t lk) = Done pid (Pstate kn' m t lk).
Proof.
  intros [Hinv Hcpu Hlk Hqlk Hn] [u [Hu Hfree]] Hp. pose proof (sizes_of _ _ Hinv) as Hs.
  destruct (thread_create_run thread_stack_areas thread_finish_addr kn process_start_addr (u32 pid) Hs Hcpu Hlk Hn)
    as [[_ Hall]|(tid & nx & Ht & Hst & Hnx & Hrun)]; [by destruct (Hall u Hu)|].
  set (kn1 := put_core _ _) in Hrun.
  assert (kinv (core_of kn1) q) as Hinv1 by by apply (created_core_ok thread_stack_areas).
  assert (cpu_ok kn1) as Hcpu1 by by destruct Hcpu.
  pose proof (scheduler_add_ready_run kn1 q tid Hinv1 Hcpu1 Hlk Ht) as Hadd.
  eexists tid, (put_core _ kn1). split; [|split].
  3: { erewrite bind_zoom; [|exact Hrun]. erewrite bind_zoom; [|exact Hadd]. reflexivity. }
  - assert (kern_ok kn1 q) as Hk1 by by constructor. apply (kern_ok_core _ _ _ _ Hk1). pose proof (qtid_ok _ Ht).
    apply kinv_ready_new; [done|done|..]; change (core_of kn1) with (created_core thread_stack_areas tid (core_of kn));
      unfold created_core; rw cthr_setthr //; by destruct (decide (tid = tid)).
  - split; [done|]. rw core_of_put. pose proof (qtid_ok _ Ht). split.
    + rw st_set_state //; [by apply c_sizes_enqueue, (sizes_of _ _ Hinv1)|by destruct (decide (tid = tid))].
    + unfold pid_ok, PROCESS_MAX_PROCESSES in Hp.
      transitivity (new_context thread_stack_areas thread_finish_addr tid process_start_addr (u32 pid)); [|by rw u32_small; [lia|]].
      transitivity (if decide (stack_context thread_stack_areas tid = stack_context thread_stack_areas tid)
        then starts tid process_start_addr (u32 pid) else k_contexts kn (stack_context thread_stack_areas tid));
        [done|by case_decide].
Qed.

Lemma process_spawn_run kn q m t pid name l :
  kern_ok kn q → tid_ok (current kn) → table_ok t → names_ok t →
  let my := t_process_id (cthr (core_of kn) (current kn)) in
  may_spawn t my → free_slot t = Some pid → cstr name = Some l → (∃ u, qtid u ∧ st (core_of kn) u = THREAD_FREE) →
  ∃ tid kn' t' name', spawn name (Pstate kn m t 0) = Done pid (Pstate kn' m t' 0) ∧
    spawned my pid name' t t' ∧ cstr name' = Some (take 127 l) ∧ names_ok t' ∧
    kern_ok kn' (set_ready (q_ready q ++ [tid]) q) ∧ thread_starts kn' tid pid.
Proof.
  intros Hk Ht Htab Hnames my Hmy Hslot Hl Hu. pose proof (tb_size t Htab) as Hs.
  destruct (proj1 (free_slot_Some t pid) Hslot) as (Hp & Hfree & _).
  destruct (alloc_run PROCESS_RUNNING kn q m t pid Hk Hs Hslot) as (t1 & Halloc & Hs1 & H1).
  assert (length (executable (ent t1 pid)) = 128%nat) as Hlen by (rw H1 decide_True //=; rw length_insert; by apply Hnames).
  assert (1 ≤ PROCESS_NAME_MAX ≤ Z.of_nat (length (executable (ent t1 pid)))) as Hb by (rw Hlen; done).
  pose proof (stringcopy_spec (executable (ent t1 pid)) name PROCESS_NAME_MAX l Hl Hb) as Hcopy.
  destruct (stringcopy_cstr _ _ _ _ _ Hl Hb Hcopy) as [Hlen' Hcstr].
  set (name' := splice (executable (ent t1 pid)) 0 _) in *.
  unfold process_spawn. rw (current_process_run kn q) // (bind_Done _ _ _ _ _ Halloc). fold my.
  rw decide_False; [unfold pid_ok in Hp; lia|]. rw bind_get // Hcopy bind_oread.
  repeat (rw bind_upd; [auto 20 with buenos..|]). rw bind_disable bind_lock.
  match goal with |- context [Pstate (kd kn) m ?tt _] => set (t2 := tt) end.
  assert (size_ok t2) as Hs2 by (unfold t2; auto 20 with buenos).
  assert (∀ x, ent t2 x = if decide (x = pid) then new_process name' my else ent t x) as H2.
  { intros x. unfold t2. rewrite !ent_setp; auto 20 with buenos. rw !H1.
    destruct (decide (x = pid)) as [->|]; [|done]. rw !decide_True //. }
  assert (my ≠ pid) as Hne by (unfold pid_ok in Hp; destruct Hmy as [->|[_ ?]]; [lia|congruence]).
  destruct (start_thread kn q m (if decide (0 ≤ my) then setp my (λ e, e <| children := children e + 1 |>) t2 else t2) 0 pid Hk Hu Hp)
    as (tid & kn' & Hk' & Hstarts & Hrun).
  exists tid, kn', (if decide (0 ≤ my) then setp my (λ e, e <| children := children e + 1 |>) t2 else t2), name'.
  assert (∀ x, ent (if decide (0 ≤ my) then setp my (λ e, e <| children := children e + 1 |>) t2 else t2) x =
    if decide (x = pid) then new_process name' my
    else if decide (x = my ∧ 0 ≤ my) then (ent t x) <| children := children (ent t x) + 1 |> else ent t x) as H3.
  { intros x. destruct (decide (0 ≤ my)) as [H0|H0].
    - destruct Hmy as [|[Hk0 _]]; [lia|]. rewrite ent_setp //. rw !H2. destruct (decide (x = my)) as [->|].
      + rw !(decide_False (P := my = pid)) // decide_True //.
      + destruct (decide (x = pid)); [done|]. rw decide_False //. tauto.
    - rw H2. destruct (decide (x = pid)); [done|]. rw decide_False //. tauto. }
  split; [|split; [|split; [done|split; [|done]]]].
  - destruct (decide (0 ≤ my)) as [H0|H0].
    + destruct Hmy as [|[Hk0 _]]; [lia|]. rw bind_upd // bind_unlock. rw bind_restore_same; [apply (co_status _ (kk_cpu _ _ Hk))|done|]. exact Hrun.
    + rw bind_ret bind_unlock. rw bind_restore_same; [apply (co_status _ (kk_cpu _ _ Hk))|done|]. exact Hrun.
  - constructor; [destruct (decide (0 ≤ my)); auto with buenos|done].
  - intros x Hx. rw H3. goal_case; [cbn; by rw Hlen'|]. goal_case; by apply Hnames.
Qed.

(** ** Join *)

Abbreviation join := (process_join process_table_addr).

(** [pid] is a child of [my] that has ended. *)
Record joinable (t : list process_t) (my pid : Z) : Prop := {
  jn_table : table_ok t;
  jn_my : pid_ok my; jn_my_runs : state (ent t my) = PROCESS_RUNNING;
  jn_pid : pid_ok pid; jn_ended : state (ent t pid) = PROCESS_ZOMBIE; jn_parent : parent (ent t pid) = my }.

Lemma reap_joinable kn m t lk my pid :
  joinable t my pid →
  ∃ t', reap my pid (Pstate kn m t lk) = Done (retval (ent t pid)) (Pstate kn m t' lk) ∧
    reaped my pid t t' ∧ table_ok t'.
Proof.
  intros [Ht Hm Hr Hp Hz Hpar]. destruct (split_zombies t my pid) as (l1 & l2 & Hl & [Hnd _] & Hin); [done..|].
  destruct (reap_run kn m t lk my pid l1 l2) as (t' & Hrun & Hre); try done; [apply Ht|congruence|by apply (tb_zombie t Ht)|].
  exists t'. split; [done|]. split; [done|]. exact (reaped_ok t t' my pid Ht Hm Hr Hp Hz Hpar Hre).
Qed.

Lemma join_wait_zombie n kn m t lk pid :
  size_ok t → pid_ok pid → state (ent t pid) = PROCESS_ZOMBIE →
  join_wait process_table_addr n pid (Pstate kn m t lk) = Done tt (Pstate kn m t lk).
Proof. intros Hs Hp Hz. destruct n; cbn [join_wait]; rw bind_get //; by rw decide_True. Qed.

(** The end of process_join, from the wait on. *)
Lemma join_finishes n kn m t my pid w q :
  joinable t my pid → kern_ok kn q → 0 ≤ w < 2 ^ 32 →
  ∃ t' x, 0 ≤ x < 2 ^ 32 ∧ reaped my pid t t' ∧ table_ok t' ∧
    (join_wait process_table_addr n pid;; ret ← reap my pid; spinlock_release #process_table_slock;;
     interrupt_set_state w;; mret ret) (Pstate kn m t 1) =
    Done (retval (ent t pid)) (Pstate (kn <| k_status := x |>) m t' 0).
Proof.
  intros Hj Hk Hw. destruct (reap_joinable kn m t 1 my pid Hj) as (t' & Hrun & Hre & Ht').
  exists t'. eexists. split; [|split; [exact Hre|split; [exact Ht'|]]].
  2: { rw (bind_Done _ _ _ _ _ (join_wait_zombie n kn m t 1 pid (tb_size _ (jn_table _ _ _ Hj)) (jn_pid _ _ _ Hj) (jn_ended _ _ _ Hj))).
       rw (bind_Done _ _ _ _ _ Hrun) bind_unlock. reflexivity. }
  apply set_state_range, (co_status _ (kk_cpu _ _ Hk)).
Qed.

Lemma join_enter n kn q m t pid :
  kern_ok kn q → tid_ok (current kn) → size_ok t → pid_ok pid →
  let my := t_process_id (cthr (core_of kn) (current kn)) in
  join n pid (Pstate kn m t 0) =
    if decide (parent (ent t pid) ≠ my) then Done (-1) (Pstate kn m t 0)
    else (join_wait process_table_addr n pid;; ret ← reap my pid; spinlock_release #process_table_slock;;
      interrupt_set_state (k_status kn);; mret ret) (Pstate (kd kn) m t 1).
Proof.
  intros Hk Ht Hs Hp my. unfold process_join. rw (current_process_run kn q) //. fold my. rw decide_False; [unfold pid_ok in Hp; lia|].
  rw bind_get //. destruct (decide (parent (ent t pid) ≠ my)); [done|]. by rw bind_disable bind_lock.
Qed.

Lemma process_join_ended n kn q m t pid :
  kern_ok kn q → tid_ok (current kn) →
  let my := t_process_id (cthr (core_of kn) (current kn)) in
  joinable t my pid →
  ∃ t' x, join n pid (Pstate kn m t 0) = Done (retval (ent t pid)) (Pstate (kn <| k_status := x |>) m t' 0) ∧
    0 ≤ x < 2 ^ 32 ∧ reaped my pid t t' ∧ table_ok t'.
Proof.
  intros Hk Ht my Hj. pose proof (co_status _ (kk_cpu _ _ Hk)) as Hst.
  destruct (join_finishes n (kd kn) m t my pid (k_status kn) q Hj (kern_ok_kd _ _ Hk) Hst) as (t' & x & Hx & Hre & Ht' & Hrun).
  exists t', x. split; [|done].
  rw (join_enter n kn q) //; [apply (jn_table _ _ _ Hj)|apply Hj|]. fold my. rw decide_False; [intros E; apply E, Hj|]. exact Hrun.
Qed.

(** The address a thread waiting for [pid] sleeps on is a 32-bit pointer. *)
Definition table_placed : Prop :=
  0 < process_table_addr ∧ process_table_addr + PROCESS_MAX_PROCESSES * SIZEOF_PROCESS < 2 ^ 32.

Lemma process_addr_u32 pid : table_placed → pid_ok pid →
  u32 (process_addr process_table_addr pid) = process_addr process_table_addr pid ∧ process_addr process_table_addr pid ≠ 0.
Proof.
  unfold table_placed, pid_ok, process_addr, SIZEOF_PROCESS, PROCESS_MAX_PROCESSES. intros [] []. split; [apply u32_small|]; lia.
Qed.

Lemma process_join_waits n kn q m t pid :
  table_placed → kern_ok kn q → running kn → size_ok t → pid_ok pid →
  let my := t_process_id (cthr (core_of kn) (current kn)) in
  parent (ent t pid) = my → state (ent t pid) ≠ PROCESS_ZOMBIE →
  ∃ kn' q' k, join (S n) pid (Pstate kn m t 0) = Blocked (Pstate kn' m t 0) k ∧ kern_ok kn' q' ∧
    waiters (core_of kn') q' (process_addr process_table_addr pid) =
      waiters (core_of kn) q (process_addr process_table_addr pid) ++ [current kn] ∧
    ∀ kn2 q2 m2 t2, kern_ok kn2 q2 → joinable t2 my pid →
      ∃ t' x, 0 ≤ x < 2 ^ 32 ∧ reaped my pid t2 t' ∧ table_ok t' ∧
        k (Pstate kn2 m2 t2 0) = Done (retval (ent t2 pid)) (Pstate (kn2 <| k_status := x |>) m2 t' 0).
Proof.
  intros Hpl Hk Hrun Hs Hp my Hpar Hz. destruct (process_addr_u32 pid Hpl Hp) as [Hau Ha0].
  pose proof (kern_ok_kd _ _ Hk) as Hkd. set (w := k_status kn).
  destruct (sleep_and_switch (kd kn) q (process_addr process_table_addr pid) Hkd (running_kd _ Hrun) (disabled_off w))
    as (kn1 & q' & k0 & [Hadd Hsw Hk1 Hw _ Hres]); [by rw Hau|].
  eexists (switched kn1), q', _. split; [|split; [exact Hk1|split]].
  - rw (join_enter (S n) kn q) //; [by apply qtid_ok, Hrun|]. fold my. rw decide_False; [tauto|]. cbn [join_wait].
    rw bind_bind bind_get // decide_False // bind_bind. erewrite bind_zoom; [|exact Hadd].
    rw bind_bind bind_unlock bind_bind. apply bind_Blocked. unfold zoom.
    change (lget #kernel (lset #kernel kn1 _)) with kn1. change (lget #kernel (Pstate kn1 m t 0)) with kn1. rw Hsw. reflexivity.
  - by rw Hau in Hw.
  - intros kn2 q2 m2 t2 Hk2 Hj. destruct (Hres kn2 (co_status _ (kk_cpu _ _ Hk2))) as (x0 & Hx0 & Hr0 & _).
    destruct (join_finishes n (kn2 <| k_status := x0 |>) m2 t2 my pid w q2 Hj (kern_ok_status _ _ _ Hk2 Hr0) (co_status _ (kk_cpu _ _ Hk)))
      as (t' & x & Hx & Hre & Ht' & Hrun').
    exists t', x. split; [done|]. split; [done|]. split; [done|]. cbn beta. change (lget #kernel (Pstate kn2 m2 t2 0)) with kn2.
    rw Hx0. exact Hrun'.
Qed.

(** ** Finish *)

Lemma wake_current s q res s' :
  kern_ok s q → sleepq_wake res s = Done tt s' → c_current (core_of s') = c_current (core_of s).
Proof.
  intros [Hinv Hcpu Hlk Hqlk _] Hrun. pose proof (sleepq_wake_run s q res Hinv Hcpu Hqlk Hlk) as Hw. cbn zeta in Hw.
  destruct (waiters _ _ _) as [|t rest]; [congruence|]. destruct Hw as (l1 & l2 & _ & _ & Hw). rw Hw in Hrun.
  injection Hrun as <-. rw core_of_put. unfold woken_core, wake_core, bucket_remove, enqueue.
  by destruct (list.last l1); repeat goal_case.
Qed.

Lemma finish_wakes kn q m t pid d r :
  table_placed → kern_ok kn q → table_ok t → pid_ok pid → state (ent t pid) = PROCESS_RUNNING →
  no_running_child t pid → 0 ≤ r →
  ∃ l t' c' q', zombies t pid l ∧ finished pid r l t t' ∧ table_ok t' ∧
    finish_given_process process_table_addr d pid r (Pstate kn m t 1) = Done tt (Pstate (put_core c' kn) m t' 1) ∧
    kinv c' q' ∧ c_current c' = c_current (core_of kn) ∧
    (∀ u, so (core_of kn) u = 0 → st c' u = st (core_of kn) u ∧ so c' u = 0) ∧
    (∀ a, a ≠ 0 → waiters c' q' a =
      if decide (a = process_addr process_table_addr pid) then tail (waiters (core_of kn) q a) else waiters (core_of kn) q a).
Proof.
  intros Hpl Hk Ht Hp Hr Hn Hr0. destruct (process_addr_u32 pid Hpl Hp) as [Hau Ha0].
  destruct (finish_run process_table_addr d kn m t 1 pid r Ht Hp Hr) as (l & t' & Hl & Hfin & Hrun).
  pose proof (finished_ok t t' pid r l Ht Hp Hr Hn Hr0 Hl Hfin) as Ht'.
  pose proof (sleepq_wake_spec kn q (process_addr process_table_addr pid) (kk_inv _ _ Hk) (kk_cpu _ _ Hk) (kk_qlock _ _ Hk)
    (kk_tlock _ _ Hk) ltac:(by rw Hau)) as Hw. cbn zeta in Hw. rw Hau in Hw.
  assert (∃ c' q', sleepq_wake (process_addr process_table_addr pid) kn = Done tt (put_core c' kn) ∧ kinv c' q' ∧
    (∀ u, so (core_of kn) u = 0 → st c' u = st (core_of kn) u ∧ so c' u = 0) ∧
    (∀ a, a ≠ 0 → waiters c' q' a =
      if decide (a = process_addr process_table_addr pid) then tail (waiters (core_of kn) q a) else waiters (core_of kn) q a))
    as (c' & q' & Hwake & Hinv & Hkeep & Hws).
  { destruct (waiters (core_of kn) q (process_addr process_table_addr pid)) as [|u rest] eqn:E.
    - exists (core_of kn), q. rw put_core_of. split; [done|]. split; [apply Hk|]. split; [done|]. intros a _. goal_case; [subst; by rw E|done].
    - destruct Hw as (c' & q' & H1 & H2 & _ & H3 & _ & H4 & H5). exists c', q'. split; [done|]. split; [done|]. split.
      { intros v Hv. assert (v ≠ u) as Hne.
        { intros ->. assert (u ∈ waiters (core_of kn) q (process_addr process_table_addr pid)) as Hin by (rw E; by left).
          apply elem_of_waiters in Hin; [congruence|apply (ki_pre _ _ (kk_inv _ _ Hk))|done]. }
        rw H4 H5. rw (decide_False (P := v = u)) //. rw decide_False //. by intros []. }
      intros a Ha.
      rw H3 //. goal_case; [subst; by rw E|done]. }
  exists l, t', c', q'. split; [done|]. split; [done|]. split; [done|]. split; [|split; [done|split; [|split; [exact Hkeep|done]]]].
  - rw Hrun. unfold zoom. change (lget #kernel (Pstate kn m t' 1)) with kn. rw Hwake. reflexivity.
  - pose proof (wake_current kn q _ _ Hk Hwake) as Hc. by rw core_of_put in Hc.
Qed.

Lemma process_finish_run kn q m m' t d ret :
  table_placed → kern_ok kn q → running kn → table_ok t →
  let th := cthr (core_of kn) (current kn) in
  let pid := t_process_id th in
  let r := Z.max 0 ret in
  pid_ok pid → state (ent t pid) = PROCESS_RUNNING → no_running_child t pid →
  vm_destroy_pagetable (t_pagetable th) m = Done tt m' →
  ∃ l t' kn' q' k, zombies t pid l ∧ finished pid r l t t' ∧ table_ok t' ∧
    process_finish process_table_addr d ret (Pstate kn m t 0) = Blocked (Pstate kn' m' t' 0) k ∧
    kern_ok kn' q' ∧ st (core_of kn') (current kn) = THREAD_DYING ∧ t_pagetable (cthr (core_of kn') (current kn)) = 0 ∧
    waiters (core_of kn') q' (process_addr process_table_addr pid) =
      tail (waiters (core_of kn) q (process_addr process_table_addr pid)).
Proof.
  intros Hpl Hk [Hq Hso Hst] Htab th pid r Hp Hr Hn Hvm. pose proof (qtid_ok _ Hq) as Ht. pose proof (sizes_of _ _ (kk_inv _ _ Hk)) as Hs.
  destruct (process_addr_u32 pid Hpl Hp) as [_ Ha0].
  destruct (finish_wakes (kd kn) q m' t pid d r Hpl (kern_ok_kd _ _ Hk) Htab Hp Hr Hn ltac:(unfold r; lia))
    as (l & t' & c1 & q1 & Hl & Hfin & Ht' & Hrun & Hinv1 & Hcur1 & Hkeep & Hw1).
  change (core_of (kd kn)) with (core_of kn) in Hcur1, Hw1, Hkeep.
  pose proof (sizes_of _ _ Hinv1) as Hs1. set (u := current kn) in *.
  set (c2 := setthr u ((cthr c1 u) <| t_pagetable := 0 |>) c1).
  assert (kinv c2 q1) as Hinv2 by by apply kinv_pagetable.
  assert (current (put_core c2 kn) = u) as Hcur2.
  { unfold current, ccur. rw core_of_put. change (c_current c2) with (c_current c1). by rw Hcur1. }
  assert (kern_ok (put_core c2 kn) q1) as Hk2 by by apply (kern_ok_core _ q).
  pose proof (thread_finish_run (put_core c2 kn) q1 ltac:(by rw core_of_put) (kk_cpu _ _ Hk2) (kk_tlock _ _ Hk2)) as Hfinish.
  rw Hcur2 in Hfinish. specialize (Hfinish Ht). rw core_of_put in Hfinish.
  assert (t_pagetable (cthr c2 u) = 0) as Hpt by (unfold c2; rw cthr_setthr //; by destruct (decide (u = u))).
  pose proof (sizes_of _ _ Hinv2) as Hs2.
  assert (st c2 u = THREAD_RUNNING ∧ so c2 u = 0) as Hu2.
  { destruct (Hkeep u Hso) as [E1 E2]. unfold c2. rw !cthr_setthr //. destruct (decide (u = u)) as [_|]; [|done]. by rw -Hst -E1. }
  rw decide_True // in Hfinish. destruct Hfinish as (w & k & Hw & _ & Hfinish).
  set (kn' := (put_core (set_state THREAD_DYING u c2) (put_core c2 kn)) <| k_status := w |> <| k_cause := Z.lor (k_cause (put_core c2 kn)) 0x100 |>) in Hfinish.
  exists l, t', kn', q1, (λ s', ozoom #kernel s' (k (lget #kernel s'))).
  split; [done|]. split; [done|]. split; [done|]. split; [|split; [|split; [|split]]].
  - unfold process_finish. erewrite bind_zoom; [|exact (thread_get_current_thread_run kn Hs (kk_cpu _ _ Hk))].
    erewrite bind_zoom; [|exact (get_thread_run kn u Hs Ht)]. fold th pid.
    change (lset #kernel kn (lset #kernel kn (Pstate kn m t 0))) with (Pstate kn m t 0).
    assert ((if decide (ret < 0) then 0 else ret) = r) as -> by (unfold r; case_decide; lia).
    rw bind_disable bind_lock. erewrite bind_zoom; [|exact Hvm].
    change (lset #memory m' (Pstate (kd kn) m t 1)) with (Pstate (kd kn) m' t 1).
    rw (bind_Done _ _ _ _ _ Hrun).
    erewrite bind_zoom; [|change (lget #kernel (Pstate (put_core c1 (kd kn)) m' t' 1)) with (put_core c1 (kd kn));
      apply upd_thread_run; [by rw core_of_put|done]].
    rw core_of_put put_put. fold c2.
    change (lset #kernel (put_core c2 (kd kn)) (Pstate (put_core c1 (kd kn)) m' t' 1)) with (Pstate (put_core c2 (kd kn)) m' t' 1).
    rw bind_unlock. rw bind_restore; [apply (co_status _ (kk_cpu _ _ Hk))|done|].
    unfold zoom. change (lget #kernel (Pstate (put_core c2 kn) m' t' 0)) with (put_core c2 kn). rw Hfinish. reflexivity.
  - constructor; [| |exact (kk_tlock _ _ Hk2)|exact (kk_qlock _ _ Hk2)|exact (kk_tid _ _ Hk2)].
    + change (kinv (core_of (put_core (set_state THREAD_DYING u c2) (put_core c2 kn))) q1). rw core_of_put.
      by apply kinv_dying; [| |apply Hu2|apply Hu2].
    + destruct (kk_cpu _ _ Hk2). constructor; [done|exact Hw].
  - change (st (core_of (put_core (set_state THREAD_DYING u c2) (put_core c2 kn))) u = THREAD_DYING). rw core_of_put.
    rw st_set_state //. by destruct (decide (u = u)).
  - change (t_pagetable (cthr (core_of (put_core (set_state THREAD_DYING u c2) (put_core c2 kn))) u) = 0). rw core_of_put.
    unfold set_state. rw cthr_setthr //. by destruct (decide (u = u)).
  - change (waiters (core_of (put_core (set_state THREAD_DYING u c2) (put_core c2 kn))) q1 (process_addr process_table_addr pid) =
      tail (waiters (core_of kn) q (process_addr process_table_addr pid))). rw core_of_put.
    pose proof (Hw1 _ Ha0) as Hwa. rw decide_True // in Hwa. rewrite -Hwa. apply waiters_ext; [done|].
    intros v _. rw so_set_state //. unfold c2. rw cthr_setthr //. by goal_case; [subst|].
Qed.

Lemma process_join_run n kn q m t pid :
  table_placed → kern_ok kn q → running kn → table_ok t → pid_ok pid →
  let my := t_process_id (cthr (core_of kn) (current kn)) in
  pid_ok my → state (ent t my) = PROCESS_RUNNING → parent (ent t pid) = my →
  match state (ent t pid) with
  | PROCESS_ZOMBIE =>
    ∃ t' x, join (S n) pid (Pstate kn m t 0) = Done (retval (ent t pid)) (Pstate (kn <| k_status := x |>) m t' 0) ∧
      reaped my pid t t' ∧ table_ok t'
  | _ =>
    ∃ kn' q' k, join (S n) pid (Pstate kn m t 0) = Blocked (Pstate kn' m t 0) k ∧ kern_ok kn' q' ∧
      waiters (core_of kn') q' (process_addr process_table_addr pid) =
        waiters (core_of kn) q (process_addr process_table_addr pid) ++ [current kn] ∧
      ∀ kn2 q2 m2 t2, kern_ok kn2 q2 → joinable t2 my pid →
        ∃ t' x, 0 ≤ x < 2 ^ 32 ∧ reaped my pid t2 t' ∧ table_ok t' ∧
          k (Pstate kn2 m2 t2 0) = Done (retval (ent t2 pid)) (Pstate (kn2 <| k_status := x |>) m2 t' 0)
  end.
Proof.
  intros Hpl Hk Hrun Ht Hp my Hmy Hr Hpar. pose proof (qtid_ok _ (ru_tid _ Hrun)) as Htid.
  pose proof (process_join_waits n kn q m t pid Hpl Hk Hrun (tb_size _ Ht) Hp Hpar) as Hw.
  destruct (state (ent t pid)) eqn:E; [by apply Hw|by apply Hw|].
  destruct (process_join_ended (S n) kn q m t pid Hk Htid) as (t' & x & H1 & _ & H2 & H3); [by constructor|].
  by exists t', x.
Qed.

Lemma finished_joinable t t' pid r l :
  table_ok t → pid_ok pid → state (ent t pid) = PROCESS_RUNNING → no_running_child t pid → 0 ≤ r → pid_ok (parent (ent t pid)) →
  zombies t pid l → finished pid r l t t' →
  joinable t' (parent (ent t pid)) pid ∧ retval (ent t' pid) = r.
Proof.
  intros Ht Hp Hr Hn Hr0 Hpp Hl Hfin. pose proof (finished_ok t t' pid r l Ht Hp Hr Hn Hr0 Hl Hfin) as Ht'.
  pose proof (finished_state t t' pid r l Hfin) as Hst. pose proof (zombie_not_self t pid l Hr Hl) as Hps.
  destruct (tb_parent t Ht pid Hp ltac:(congruence)) as [E|[Hpk Hrun]]; [unfold pid_ok in Hpp; lia|].
  destruct (tb_running t Ht pid Hp Hr) as [_ Hself]. split.
  - constructor; try done.
    + rw Hst. rw !decide_False //. destruct Hl as [_ Hq]. rw Hq. intros (_ & ? & _). congruence.
    + rw Hst decide_False //. by destruct (decide (pid = pid)).
    + by rw (finished_parent t t' pid r l Hfin).
  - by rw (fn_pid _ _ _ _ _ Hfin).
Qed.

(** C19 (functional): process_spawn starts a program as a new process: it takes the
    lowest free entry of the process table, names it after the program (cut to 127
    characters), makes the caller its parent and counts it there, and leaves every
    other entry alone; a new thread is at the end of the ready list that will run
    process_start on the new process. The invariants of the table and of the kernel
    core are kept. *)
Theorem process_spawn_starts kn q m t pid name l :
  kern_ok kn q → tid_ok (current kn) → table_ok t → names_ok t →
  let my := t_process_id (cthr (core_of kn) (current kn)) in
  may_spawn t my → free_slot t = Some pid → cstr name = Some l → (∃ u, qtid u ∧ st (core_of kn) u = THREAD_FREE) →
  ∃ tid kn' t' name', spawn name (Pstate kn m t 0) = Done pid (Pstate kn' m t' 0) ∧
    spawned my pid name' t t' ∧ cstr name' = Some (take 127 l) ∧ names_ok t' ∧ table_ok t' ∧
    kern_ok kn' (set_ready (q_ready q ++ [tid]) q) ∧ thread_starts kn' tid pid.
Proof.
  intros Hk Ht Htab Hnames my Hmy Hslot Hl Hu.
  destruct (process_spawn_run kn q m t pid name l) as (tid & kn' & t' & name' & H1 & H2 & H3 & H4 & H5 & H6); try done.
  exists tid, kn', t', name'. destruct (proj1 (free_slot_Some t pid) Hslot) as (Hp & Hfree & _).
  pose proof (spawned_ok t t' my pid name' Htab Hp Hfree Hmy H2). by split_and!.
Qed.

(** C9 (functional): process_finish ends a process none of whose children still runs:
    its page table goes back to the page pool, its finished children are freed, it
    becomes a zombie with its exit status (0 for a negative one) at the head of its
    parent's list, the first thread that waits for it is woken, and the thread leaves
    the CPU for good. The invariants of the table and of the kernel core are kept. *)
Theorem process_finish_ends kn q m m' t d ret :
  table_placed → kern_ok kn q → running kn → table_ok t →
  let th := cthr (core_of kn) (current kn) in
  let pid := t_process_id th in
  let r := Z.max 0 ret in
  pid_ok pid → state (ent t pid) = PROCESS_RUNNING → no_running_child t pid →
  vm_destroy_pagetable (t_pagetable th) m = Done tt m' →
  ∃ l t' kn' q' k, zombies t pid l ∧ finished pid r l t t' ∧ table_ok t' ∧
    process_finish process_table_addr d ret (Pstate kn m t 0) = Blocked (Pstate kn' m' t' 0) k ∧
    kern_ok kn' q' ∧ st (core_of kn') (current kn) = THREAD_DYING ∧ t_pagetable (cthr (core_of kn') (current kn)) = 0 ∧
    waiters (core_of kn') q' (process_addr process_table_addr pid) =
      tail (waiters (core_of kn) q (process_addr process_table_addr pid)).
Proof. apply process_finish_run. Qed.

(** C10 (functional): process_join on a child returns its exit status, at once when
    the child has ended; otherwise the calling thread sleeps, last in line, on the
    child's entry, and returns the status when it runs again after the end of the
    child. The child is taken off the list of finished children, its entry is free
    again, and the table stays consistent. *)
Theorem process_join_collects n kn q m t pid :
  table_placed → kern_ok kn q → running kn → table_ok t → pid_ok pid →
  let my := t_process_id (cthr (core_of kn) (current kn)) in
  pid_ok my → state (ent t my) = PROCESS_RUNNING → parent (ent t pid) = my →
  match state (ent t pid) with
  | PROCESS_ZOMBIE =>
    ∃ t' x, join (S n) pid (Pstate kn m t 0) = Done (retval (ent t pid)) (Pstate (kn <| k_status := x |>) m t' 0) ∧
      reaped my pid t t' ∧ table_ok t'
  | _ =>
    ∃ kn' q' k, join (S n) pid (Pstate kn m t 0) = Blocked (Pstate kn' m t 0) k ∧ kern_ok kn' q' ∧
      waiters (core_of kn') q' (process_addr process_table_addr pid) =
        waiters (core_of kn) q (process_addr process_table_addr pid) ++ [current kn] ∧
      ∀ kn2 q2 m2 t2, kern_ok kn2 q2 → joinable t2 my pid →
        ∃ t' x, 0 ≤ x < 2 ^ 32 ∧ reaped my pid t2 t' ∧ table_ok t' ∧
          k (Pstate kn2 m2 t2 0) = Done (retval (ent t2 pid)) (Pstate (kn2 <| k_status := x |>) m2 t' 0)
  end.
Proof. apply process_join_run. Qed.

(** C11 (functional): the exit status a process gives to process_finish (0 for a
    negative one) is what its parent gets from process_join, and the entry of the
    process is free afterwards. *)
Theorem exit_status_collected kn q m m' t d ret kn2 q2 n :
  table_placed → kern_ok kn q → running kn → table_ok t →
  let th := cthr (core_of kn) (current kn) in
  let pid := t_process_id th in
  pid_ok pid → state (ent t pid) = PROCESS_RUNNING → no_running_child t pid → pid_ok (parent (ent t pid)) →
  vm_destroy_pagetable (t_pagetable th) m = Done tt m' →
  kern_ok kn2 q2 → tid_ok (current kn2) → t_process_id (cthr (core_of kn2) (current kn2)) = parent (ent t pid) →
  ∃ kn' t' k t'' x,
    process_finish process_table_addr d ret (Pstate kn m t 0) = Blocked (Pstate kn' m' t' 0) k ∧
    join n pid (Pstate kn2 m' t' 0) = Done (Z.max 0 ret) (Pstate (kn2 <| k_status := x |>) m' t'' 0) ∧
    state (ent t'' pid) = PROCESS_FREE ∧ table_ok t''.
Proof.
  intros Hpl Hk Hrun Ht th pid Hp Hr Hn Hpp Hvm Hk2 Ht2 Hpar2.
  destruct (process_finish_run kn q m m' t d ret Hpl Hk Hrun Ht Hp Hr Hn Hvm) as
    (l & t' & kn' & q' & k & Hl & Hfin & Ht' & Hfinish & _).
  destruct (finished_joinable t t' pid (Z.max 0 ret) l Ht Hp Hr Hn ltac:(lia) Hpp Hl Hfin) as [Hj Hret].
  destruct (process_join_ended n kn2 q2 m' t' pid Hk2 Ht2) as (t'' & x & H1 & _ & H2 & H3); [by rw Hpar2|].
  rw Hret in H1. exists kn', t', k, t'', x. split; [done|]. split; [done|]. split; [apply H2|done].
Qed.
(** ** All histories of the process table *)

(** What the kernel can make of the table as process_init means to leave it: a run
    of process_spawn, process_finish or process_join, from any state of the kernel
    core and of memory between two services.  A process_join that had to wait goes
    on ([k]) when its child has ended, on the table of then.  [names_ok] is the type
    of the names, arrays of 128 characters. *)
Inductive reachable_table : list process_t → Prop :=
| rt_init t : size_ok t → (∀ q, pid_ok q → state (ent t q) = PROCESS_FREE) → reachable_table t
| rt_spawn kn q m t name r s' : reachable_table t → kern_ok kn q → tid_ok (current kn) → names_ok t →
    may_spawn t (t_process_id (cthr (core_of kn) (current kn))) → is_Some (cstr name) →
    (∃ u, qtid u ∧ st (core_of kn) u = THREAD_FREE) →
    spawn name (Pstate kn m t 0) = Done r s' → reachable_table (process_table s')
| rt_finish kn q m m' t d ret s' k : reachable_table t → kern_ok kn q → running kn →
    let th := cthr (core_of kn) (current kn) in
    let pid := t_process_id th in
    pid_ok pid → state (ent t pid) = PROCESS_RUNNING → no_running_child t pid →
    vm_destroy_pagetable (t_pagetable th) m = Done tt m' →
    process_finish process_table_addr d ret (Pstate kn m t 0) = Blocked s' k → reachable_table (process_table s')
| rt_join kn q m t pid n r s' : reachable_table t → kern_ok kn q → running kn →
    let my := t_process_id (cthr (core_of kn) (current kn)) in
    pid_ok pid → pid_ok my → state (ent t my) = PROCESS_RUNNING →
    join (S n) pid (Pstate kn m t 0) = Done r s' → reachable_table (process_table s')
| rt_joined kn q m t pid n s k kn2 q2 m2 t2 r s' : reachable_table t → kern_ok kn q → running kn →
    let my := t_process_id (cthr (core_of kn) (current kn)) in
    pid_ok pid → pid_ok my → state (ent t my) = PROCESS_RUNNING →
    join (S n) pid (Pstate kn m t 0) = Blocked s k →
    reachable_table t2 → kern_ok kn2 q2 → state (ent t2 my) = PROCESS_RUNNING →
    state (ent t2 pid) = PROCESS_ZOMBIE → parent (ent t2 pid) = my →
    k (Pstate kn2 m2 t2 0) = Done r s' → reachable_table (process_table s').

Lemma process_spawn_keeps kn q m t name r s' :
  table_ok t → kern_ok kn q → tid_ok (current kn) → names_ok t →
  may_spawn t (t_process_id (cthr (core_of kn) (current kn))) → is_Some (cstr name) →
  (∃ u, qtid u ∧ st (core_of kn) u = THREAD_FREE) →
  spawn name (Pstate kn m t 0) = Done r s' → table_ok (process_table s').
Proof.
  intros Htab Hk Ht Hnm Hmy [l Hl] Hu Hrun. destruct (free_slot t) as [pid|] eqn:Hslot.
  - destruct (process_spawn_run kn q m t pid name l) as (tid & kn' & t' & name' & H1 & H2 & _); try done.
    rewrite H1 in Hrun. injection Hrun as _ <-. destruct (proj1 (free_slot_Some t pid) Hslot) as (Hp & Hfree & _).
    exact (spawned_ok t t' _ pid name' Htab Hp Hfree Hmy H2).
  - unfold process_spawn in Hrun. rw (current_process_run kn q) // in Hrun.
    unfold mbind, M_bind in Hrun. by rw (alloc_process_id_full _ _ _ _ (tb_size t Htab) Hslot) in Hrun.
Qed.

Lemma process_join_keeps kn q m t pid n r s' :
  table_placed → table_ok t → kern_ok kn q → running kn →
  let my := t_process_id (cthr (core_of kn) (current kn)) in
  pid_ok pid → pid_ok my → state (ent t my) = PROCESS_RUNNING →
  join (S n) pid (Pstate kn m t 0) = Done r s' → table_ok (process_table s').
Proof.
  intros Hpl Htab Hk Hru my Hp Hmy Hr Hrun. destruct (decide (parent (ent t pid) = my)) as [Hpar|Hpar].
  - pose proof (process_join_run n kn q m t pid Hpl Hk Hru Htab Hp Hmy Hr Hpar) as Hj.
    destruct (state (ent t pid)).
    1,2: destruct Hj as (kn' & q' & k & E & _); by rewrite E in Hrun.
    destruct Hj as (t' & x & E & _ & Ht'). rewrite E in Hrun. by injection Hrun as _ <-.
  - rw (join_enter (S n) kn q) // in Hrun; [by apply qtid_ok, Hru|by apply tb_size|].
    fold my in Hrun. rw decide_True // in Hrun. by injection Hrun as _ <-.
Qed.

Lemma process_joined_keeps kn q m t pid n s k kn2 q2 m2 t2 r s' :
  table_placed → table_ok t → kern_ok kn q → running kn →
  let my := t_process_id (cthr (core_of kn) (current kn)) in
  pid_ok pid → pid_ok my → state (ent t my) = PROCESS_RUNNING →
  join (S n) pid (Pstate kn m t 0) = Blocked s k →
  table_ok t2 → kern_ok kn2 q2 → state (ent t2 my) = PROCESS_RUNNING →
  state (ent t2 pid) = PROCESS_ZOMBIE → parent (ent t2 pid) = my →
  k (Pstate kn2 m2 t2 0) = Done r s' → table_ok (process_table s').
Proof.
  intros Hpl Htab Hk Hru my Hp Hmy Hr Hrun Htab2 Hk2 Hr2 Hz Hpar2 Hk'.
  destruct (decide (parent (ent t pid) = my)) as [Hpar|Hpar].
  - pose proof (process_join_run n kn q m t pid Hpl Hk Hru Htab Hp Hmy Hr Hpar) as Hj.
    destruct (state (ent t pid)).
    3: destruct Hj as (t' & x & E & _); by rewrite E in Hrun.
    all: destruct Hj as (kn' & q' & k' & E & _ & _ & Hres); rewrite E in Hrun; injection Hrun as _ <-;
      destruct (Hres kn2 q2 m2 t2 Hk2) as (t' & x & _ & _ & Ht' & E2); [by constructor|];
      rewrite E2 in Hk'; by injection Hk' as _ <-.
  - rw (join_enter (S n) kn q) // in Hrun; [by apply qtid_ok, Hru|by apply tb_size|].
    fold my in Hrun. by rw decide_True // in Hrun.
Qed.

(** C3 (invariant): whatever runs of process_spawn, process_finish (of a process
    whose children have ended) and process_join there are, in any order and also
    while a process_join waits, the process table stays consistent: every process in
    use has no parent or a running one, a running process counts exactly its
    children, and its finished children form a doubly linked list without
    repetition. *)
Theorem process_table_stays_ok t : table_placed → reachable_table t → table_ok t.
Proof.
  intros Hpl. induction 1 as [t Hs Hf|kn q m t name r s' _ Ht Hk Hc Hnm Hmy Hn Hu Hrun|
    kn q m m' t d ret s' k _ Ht Hk Hru th pid Hp Hr Hn Hvm Hrun|kn q m t pid n r s' _ Ht Hk Hru my Hp Hmy Hr Hrun|
    kn q m t pid n s k kn2 q2 m2 t2 r s' _ Ht Hk Hru my Hp Hmy Hr Hrun _ Ht2 Hk2 Hr2 Hz Hpar Hrun'].
  - constructor; try done; intros q Hq E; rw Hf // in E; done.
  - exact (process_spawn_keeps kn q m t name r s' Ht Hk Hc Hnm Hmy Hn Hu Hrun).
  - destruct (process_finish_run kn q m m' t d ret Hpl Hk Hru Ht Hp Hr Hn Hvm) as (l & t' & kn' & q' & k' & _ & _ & Ht' & E & _).
    rewrite E in Hrun. by injection Hrun as <- _.
  - exact (process_join_keeps kn q m t pid n r s' Hpl Ht Hk Hru Hp Hmy Hr Hrun).
  - exact (process_joined_keeps kn q m t pid n s k kn2 q2 m2 t2 r s' Hpl Ht Hk Hru Hp Hmy Hr Hrun Ht2 Hk2 Hr2 Hz Hpar Hrun').
Qed.
End services.

(** ** Witnesses: process 0 with its child 1 *)

Definition spawn_table (my pid : Z) (name : list Z) (t : list process_t) : list process_t :=
  let t := setp pid (λ _, new_process name my) t in
  if decide (0 ≤ my) then setp my (λ e, e <| children := children e + 1 |>) t else t.

Lemma spawned_table t my pid name :
  size_ok t → pid_ok pid → my = -1 ∨ pid_ok my → my ≠ pid → spawned my pid name t (spawn_table my pid name t).
Proof.
  intros Hs Hp Hmy Hne. unfold spawn_table. constructor; [case_decide; auto with buenos|]. intros q.
  destruct (decide (0 ≤ my)) as [H0|H0].
  - destruct Hmy as [|Hmy]; [lia|]. rewrite !ent_setp; auto with buenos. destruct (decide (q = my)) as [->|Hq].
    + destruct (decide (my = pid)) as [|_]; [done|]. rw decide_True //.
    + destruct (decide (q = pid)); [done|]. rw decide_False //. tauto.
  - rewrite ent_setp //. destruct (decide (q = pid)); [done|]. rw decide_False //. tauto.
Qed.

Definition example_name : list Z := 105 :: replicate 127 0.
Definition empty_table : list process_t := replicate 8 (Process (replicate 128 0) PROCESS_FREE 0 (-1) (-1) (-1) (-1) 0).
Definition one_process : list process_t := spawn_table (-1) 0 example_name empty_table.
Definition parent_child : list process_t := spawn_table 0 1 example_name one_process.

Lemma empty_free q : pid_ok q → ent empty_table q = Process (replicate 128 0) PROCESS_FREE 0 (-1) (-1) (-1) (-1) 0.
Proof. intros Hq. unfold ent, empty_table. unfold pid_ok, PROCESS_MAX_PROCESSES in Hq. by rw arr_get_replicate. Qed.

Lemma parent_child_ok : table_ok parent_child.
Proof.
  apply (spawned_ok one_process _ 0 1 example_name); [|unfold pid_ok, PROCESS_MAX_PROCESSES; lia|reflexivity| |].
  - apply (spawned_ok empty_table _ (-1) 0 example_name); [|unfold pid_ok, PROCESS_MAX_PROCESSES; lia|reflexivity|by left|].
    + constructor; try done; intros q Hq E; rw empty_free // in E; done.
    + apply spawned_table; [reflexivity|unfold pid_ok, PROCESS_MAX_PROCESSES; lia|by left|lia].
  - right. split; [unfold pid_ok, PROCESS_MAX_PROCESSES; lia|reflexivity].
  - apply spawned_table; [reflexivity|unfold pid_ok, PROCESS_MAX_PROCESSES; lia|right; unfold pid_ok, PROCESS_MAX_PROCESSES; lia|lia].
Qed.

Lemma parent_child_names : names_ok parent_child.
Proof.
  intros q Hq. unfold pid_ok, PROCESS_MAX_PROCESSES in Hq.
  assert (q = 0 ∨ q = 1 ∨ q = 2 ∨ q = 3 ∨ q = 4 ∨ q = 5 ∨ q = 6 ∨ q = 7) as Hc by lia.
  by repeat destruct Hc as [-> |Hc]; [reflexivity..|subst].
Qed.

(** Page 2 of the pool holds the page table. *)
Definition example_memory : vm_t := Vm (Pagepool.Pagepool [7] 8 5 2 0 0xff01 (Kmalloc.Kmalloc 0x80002000 0x80008000)) [].
Definition example_pt : Z := Pagepool.ADDR_PHYS_TO_KERNEL 8192.
Definition example_memory' : vm_t := Vm (Pagepool.Pagepool [3] 8 6 2 0 0xff01 (Kmalloc.Kmalloc 0x80002000 0x80008000)) [].

Lemma process_spawn_starts_witness :
  ∃ tid kn' t', process_spawn 0x80010000 0x80001000 0x80002000 [97; 0] (Pstate (example_kernel 0 0) example_memory parent_child 0) =
    Done 2 (Pstate kn' example_memory t' 0) ∧ qtid tid ∧ state (ent t' 2) = PROCESS_RUNNING.
Proof.
  destruct (process_spawn_starts 0x80010000 0x80001000 0x80002000 (example_kernel 0 0) (Queues [] (λ _, [])) example_memory
    parent_child 2 [97; 0] [97]) as (tid & kn' & t' & name' & H1 & H2 & _ & _ & _ & _ & H3 & _).
  - apply example_kernel_ok.
  - change (0 ≤ 1 < 32). lia.
  - exact parent_child_ok.
  - exact parent_child_names.
  - right. split; [change (0 ≤ 0 < 8); lia|reflexivity].
  - reflexivity.
  - reflexivity.
  - exists 2. split; [change (1 ≤ 2 < 32); lia|reflexivity].
  - exists tid, kn', t'. split; [exact H1|]. split; [exact H3|]. rewrite (sp_entry _ _ _ _ _ H2). reflexivity.
Defined.

Lemma example_childless : no_running_child parent_child 1.
Proof.
  intros q Hq. unfold pid_ok, PROCESS_MAX_PROCESSES in Hq.
  assert (q = 0 ∨ q = 1 ∨ q = 2 ∨ q = 3 ∨ q = 4 ∨ q = 5 ∨ q = 6 ∨ q = 7) as Hc by lia.
  by repeat destruct Hc as [-> |Hc]; [discriminate..|subst].
Qed.

Lemma example_placed : table_placed 0x80020000.
Proof. unfold table_placed, PROCESS_MAX_PROCESSES, SIZEOF_PROCESS. lia. Qed.

Lemma process_finish_ends_witness :
  ∃ kn' t' k, process_finish 0x80020000 9 (-5) (Pstate (example_kernel 1 example_pt) example_memory parent_child 0) =
    Blocked (Pstate kn' example_memory' t' 0) k ∧ table_ok t' ∧ st (core_of kn') 1 = THREAD_DYING.
Proof.
  destruct (process_finish_ends 0x80020000 (example_kernel 1 example_pt) (Queues [] (λ _, [])) example_memory example_memory'
    parent_child 9 (-5)) as (l & t' & kn' & q' & k & _ & _ & H1 & H2 & _ & H3 & _).
  - exact example_placed.
  - apply example_kernel_ok.
  - apply example_kernel_running.
  - exact parent_child_ok.
  - change (0 ≤ 1 < 8). lia.
  - reflexivity.
  - exact example_childless.
  - vm_compute. reflexivity.
  - exists kn', t', k. split; [exact H2|]. split; [exact H1|exact H3].
Defined.

Lemma process_join_collects_witness :
  ∃ s' k, process_join 0x80020000 1 1 (Pstate (example_kernel 0 0) example_memory parent_child 0) = Blocked s' k.
Proof.
  pose proof (process_join_collects 0x80020000 0 (example_kernel 0 0) (Queues [] (λ _, [])) example_memory parent_child 1
    example_placed (example_kernel_ok 0 0) (example_kernel_running 0 0) parent_child_ok) as H.
  destruct H as (kn' & q' & k & H & _).
  - change (0 ≤ 1 < 8). lia.
  - change (0 ≤ 0 < 8). lia.
  - reflexivity.
  - reflexivity.
  - eexists _, k. exact H.
Defined.

(** From the empty table: a thread without a process spawns process 0. *)
Lemma empty_reachable fin table start : reachable_table 0x80010000 fin table start empty_table.
Proof. apply rt_init; [reflexivity|]. intros q Hq. by rw empty_free. Qed.

Lemma empty_names : names_ok empty_table.
Proof. intros q Hq. by rw empty_free. Qed.

Lemma process_table_stays_ok_witness :
  ∃ s', process_spawn 0x80010000 0x80001000 0x80002000 [97; 0] (Pstate (example_kernel (-1) 0) example_memory empty_table 0) =
    Done 0 s' ∧ table_ok (process_table s').
Proof.
  destruct (process_spawn_run 0x80010000 0x80001000 0x80002000 (example_kernel (-1) 0) (Queues [] (λ _, [])) example_memory
    empty_table 0 [97; 0] [97]) as (tid & kn' & t' & name' & H1 & _).
  - apply example_kernel_ok.
  - change (0 ≤ 1 < 32). lia.
  - constructor; try done; intros q Hq E; rw empty_free // in E; done.
  - exact empty_names.
  - by left.
  - reflexivity.
  - reflexivity.
  - exists 2. split; [change (1 ≤ 2 < 32); lia|reflexivity].
  - eexists. split; [exact H1|].
    apply (process_table_stays_ok 0x80010000 0x80001000 0x80020000 0x80002000 _ example_placed).
    apply (rt_spawn _ _ _ _ (example_kernel (-1) 0) (Queues [] (λ _, [])) example_memory empty_table [97; 0] 0 _).
    + apply empty_reachable.
    + apply example_kernel_ok.
    + change (0 ≤ 1 < 32). lia.
    + exact empty_names.
    + by left.
    + by exists [97].
    + exists 2. split; [change (1 ≤ 2 < 32); lia|reflexivity].
    + exact H1.
Defined.

Lemma exit_status_collected_witness :
  ∃ s' k t' s'', process_finish 0x80020000 9 42 (Pstate (example_kernel 1 example_pt) example_memory parent_child 0) = Blocked s' k ∧
    process_join 0x80020000 1 1 (Pstate (example_kernel 0 0) example_memory' t' 0) = Done 42 s''.
Proof.
  destruct (exit_status_collected 0x80020000 (example_kernel 1 example_pt) (Queues [] (λ _, [])) example_memory example_memory'
    parent_child 9 42 (example_kernel 0 0) (Queues [] (λ _, [])) 1) as (kn' & t' & k & t'' & x & H1 & H2 & _).
  - exact example_placed.
  - apply example_kernel_ok.
  - apply example_kernel_running.
  - exact parent_child_ok.
  - change (0 ≤ 1 < 8). lia.
  - reflexivity.
  - exact example_childless.
  - change (0 ≤ 0 < 8). lia.
  - vm_compute. reflexivity.
  - apply example_kernel_ok.
  - change (0 ≤ 1 < 32). lia.
  - reflexivity.
  - eexists _, k, t', _. split; [exact H1|exact H2].
Defined.

(** ** What goes wrong outside these rules *)

(** The startup thread, which belongs to no process, joins the initial program: the
    entry before the table is written. *)
Lemma join_without_process_faults addr kn q m t pid n :
  kern_ok kn q → tid_ok (current kn) → size_ok t → pid_ok pid →
  t_process_id (cthr (core_of kn) (current kn)) = -1 →
  parent (ent t pid) = -1 → state (ent t pid) = PROCESS_ZOMBIE → children (ent t pid) = 0 →
  process_join addr n pid (Pstate kn m t 0) = Fault.
Proof.
  intros Hk Ht Hs Hp Hme Hpar Hz Hc. rw (join_enter addr n kn q) // Hme. destruct (decide (parent (ent t pid) ≠ -1)); [done|].
  rw (bind_Done _ _ _ _ _ (join_wait_zombie addr n (kd kn) m t 1 pid Hs Hp Hz)). unfold reap. rw bind_bind bind_get //.
  rw !bind_bind bind_upd //. rw !bind_bind bind_upd; [auto with buenos..|]. rw bind_bind bind_get; [auto with buenos..|].
  rewrite !ent_setp; auto with buenos. rw !(decide_True (P := pid = pid)) //.
  destruct (decide (children _ = 0)) as [_|Hx]; [|by destruct Hx]. reflexivity.
Qed.

(** Process 0 has the finished child 1, whose own child 2 still runs. *)
Definition orphaning : list process_t :=
  [Process example_name PROCESS_RUNNING 0 (-1) 1 (-1) (-1) 1; Process example_name PROCESS_ZOMBIE 0 0 (-1) (-1) (-1) 1;
   Process example_name PROCESS_RUNNING 0 1 (-1) (-1) (-1) 0] ++ drop 3 empty_table.

(** When process 0 ends, the entry of process 1 is freed with its child still
    running: the child's parent is then a free entry. *)
Lemma finish_frees_living_parent :
  match finish_given_process 0x80020000 9 0 0 (Pstate (example_kernel 0 0) example_memory orphaning 1) with
  | Done _ s' => state (ent (process_table s') 1) = PROCESS_FREE ∧ state (ent (process_table s') 2) = PROCESS_RUNNING ∧
      parent (ent (process_table s') 2) = 1
  | _ => False
  end.
Proof. vm_compute. done. Qed.

(** Process 0 runs; it has joined its child 1, whose last child 2 ends. *)
Definition joined_early : list process_t :=
  [Process example_name PROCESS_RUNNING 0 (-1) 1 (-1) (-1) 1; Process example_name PROCESS_ZOMBIE (-1) (-1) (-1) (-1) (-1) 1;
   Process example_name PROCESS_RUNNING 0 1 (-1) (-1) (-1) 0] ++ drop 3 empty_table.

(** The parent is meant to be freed; it stays a zombie. *)
Lemma finish_keeps_joined_parent :
  match finish_given_process 0x80020000 9 2 0 (Pstate (example_kernel 0 0) example_memory joined_early 1) with
  | Done _ s' => state (ent (process_table s') 1) = PROCESS_ZOMBIE
  | _ => False
  end.
Proof. vm_compute. done. Qed.
End ProcSpec.
