(* ===== verification/Elf.v ===== *)
(** * The ELF loader's header parser (proc/elf.c)

    The parser reads through the virtual file system. *)
From S2P Require Import Prelude Bytes Sync Vfs.
Import Vfs.

Module Elf.

Definition PAGE_SIZE : Z := 4096.
Definition ELF_MAGIC : Z := 0x7f454c46.
Definition ELFCLASS32 : Z := 1.
Definition ELFDATA2MSB : Z := 2.
Definition EM_MIPS : Z := 8.
Definition EV_CURRENT : Z := 1.
Definition ET_EXEC : Z := 2.
Definition PT_NULL : Z := 0.
Definition PT_LOAD : Z := 1.
Definition PT_NOTE : Z := 4.
Definition PT_PHDR : Z := 6.
Definition PF_W : Z := 2.
Definition SEG_RO : Z := 1.
Definition SEG_RW : Z := 2.
Definition SIZEOF_EHDR : Z := 52.
Definition SIZEOF_PHDR : Z := 32.

Record elf_info_t := ElfInfo {
  entry_point : Z;
  ro_location : Z; ro_size : Z; ro_pages : Z; ro_vaddr : Z;
  rw_location : Z; rw_size : Z; rw_pages : Z; rw_vaddr : Z }.
#[global] Instance eta_elf : Eta elf_info_t := fun e =>
  ElfInfo (entry_point e) (ro_location e) (ro_size e) (ro_pages e) (ro_vaddr e)
    (rw_location e) (rw_size e) (rw_pages e) (rw_vaddr e).

(** ** The headers in memory: fields at their offsets, big-endian *)

Definition ld16 (l : list Z) (i : Z) : option Z :=
  a ← arr_get l i; b ← arr_get l (i + 1); Some (a * 256 + b).

(** Elf32_Ehdr, without the section header fields. *)
Record Elf32_Ehdr := Ehdr {
  e_ident_i : Z; e_ident_class : Z; e_ident_data : Z; e_ident_version : Z;
  e_type : Z; e_machine : Z; e_version : Z; e_entry : Z; e_phoff : Z; e_phnum : Z }.
Definition read_ehdr (l : list Z) : option Elf32_Ehdr :=
  i ← ld32 l 0; c4 ← arr_get l 4; c5 ← arr_get l 5; c6 ← arr_get l 6;
  ty ← ld16 l 16; machine ← ld16 l 18; version ← ld32 l 20; entry ← ld32 l 24; phoff ← ld32 l 28; phnum ← ld16 l 44;
  Some (Ehdr i c4 c5 c6 ty machine version entry phoff phnum).

(** Elf32_Phdr, without p_paddr and p_align. *)
Record Elf32_Phdr := Phdr {
  p_type : Z; p_offset : Z; p_vaddr : Z; p_filesz : Z; p_memsz : Z; p_flags : Z }.
Definition read_phdr (l : list Z) : option Elf32_Phdr :=
  ty ← ld32 l 0; offset ← ld32 l 4; vaddr ← ld32 l 8; filesz ← ld32 l 16; memsz ← ld32 l 20; flags ← ld32 l 24;
  Some (Phdr ty offset vaddr filesz memsz flags).

(** ** The checks *)

(** The tests of the file header, in the order of the code. *)
Definition ehdr_ok (h : Elf32_Ehdr) : bool :=
  if decide (e_ident_i h ≠ ELF_MAGIC) then false
  else if decide (e_ident_class h ≠ ELFCLASS32 ∨ e_ident_data h ≠ ELFDATA2MSB ∨ e_machine h ≠ EM_MIPS) then false
  else if decide (e_version h ≠ EV_CURRENT ∨ e_ident_version h ≠ EV_CURRENT) then false
  else if decide (e_type h ≠ ET_EXEC) then false
  else if decide (e_phnum h = 0) then false else true.

Definition pages (memsz : Z) : Z := u32 (memsz + PAGE_SIZE - 1) / PAGE_SIZE.

(** One program header: [None] to reject the file, otherwise the new [elf] and [segs]. *)
Definition load_segment (h : Elf32_Phdr) (elf : elf_info_t) (segs : Z) : option (elf_info_t * Z) :=
  if decide (p_type h = PT_NULL ∨ p_type h = PT_NOTE ∨ p_type h = PT_PHDR) then Some (elf, segs)
  else if decide (p_type h = PT_LOAD) then
    if decide (Z.land (p_flags h) PF_W ≠ 0) then
      if decide (Z.land segs SEG_RW ≠ 0) then None
      else Some (elf <| rw_location := p_offset h |> <| rw_size := p_filesz h |> <| rw_vaddr := p_vaddr h |>
                     <| rw_pages := pages (p_memsz h) |>, Z.lor segs SEG_RW)
    else
      if decide (Z.land segs SEG_RO ≠ 0) then None
      else Some (elf <| ro_location := p_offset h |> <| ro_size := p_filesz h |> <| ro_vaddr := p_vaddr h |>
                     <| ro_pages := pages (p_memsz h) |>, Z.lor segs SEG_RO)
  else None.

(** ** The parser *)

Section parser.
Context {F : Type} `{FileSystem F}.
Abbreviation V A := (M (vfs_t (F := F)) A).

(** The loop over the program headers, [n] of which are left: the answer (zero
    for an error) and the structure. *)
Fixpoint program_headers (n : nat) (file position : Z) (elf : elf_info_t) (segs : Z) : V (Z * elf_info_t) :=
  match n with
  | O => mret (if decide (0 < segs) then 1 else 0, elf)
  | S n' =>
    x ← vfs_read file (Some (replicate (Z.to_nat SIZEOF_PHDR) 0)) SIZEOF_PHDR;
    if decide (x.1 ≠ SIZEOF_PHDR) then mret (0, elf) else
    h ← oread (read_phdr x.2);
    match load_segment h elf segs with
    | None => mret (0, elf)
    | Some (elf, segs) =>
      let position := i32 (position + SIZEOF_PHDR) in
      vfs_seek file position;;
      program_headers n' file position elf segs
    end
  end.

Definition elf_parse_header (elf : elf_info_t) (file : Z) : V (Z * elf_info_t) :=
  x ← vfs_read file (Some (replicate (Z.to_nat SIZEOF_EHDR) 0)) SIZEOF_EHDR;
  if decide (x.1 ≠ SIZEOF_EHDR) then mret (0, elf) else
  h ← oread (read_ehdr x.2);
  if negb (ehdr_ok h) then mret (0, elf) else
  let elf := ElfInfo (e_entry h) 0 0 0 0 0 0 0 0 in
  let position := i32 (e_phoff h) in
  vfs_seek file position;;
  program_headers (Z.to_nat (e_phnum h)) file position elf 0.
End parser.
End Elf.
