(* ===== verification/ElfSpec.v ===== *)
(** * The ELF parser against the format

    [executable] says in terms of the bytes of a file when it is a program the
    kernel can start, and [described] what it says of itself.  Reading a file of a
    mounted volume through the virtual file system, elf_parse_header decides the
    one and finds the other. *)
From S2P Require Import Prelude Bytes Sync Tfs TfsFile Vfs VfsFile VfsTfs Elf.
Import Tfs TfsFile Vfs VfsFile VfsTfs Elf.

Module ElfSpec.

(** ** The format

    An unsigned number of [n] bytes at offset [a], the most significant first. *)
Definition field (l : list Z) (a n : Z) : Z := foldl (λ v b, 256 * v + b) 0 (slice l a n).

(** A program header. *)
Record segment := Segment {
  seg_type : Z; seg_offset : Z; seg_vaddr : Z; seg_filesz : Z; seg_memsz : Z; seg_writable : bool }.
Definition segment_at (l : list Z) (a : Z) : segment :=
  Segment (field l a 4) (field l (a + 4) 4) (field l (a + 8) 4) (field l (a + 16) 4) (field l (a + 20) 4)
    (Z.testbit (field l (a + 24) 4) 1).

(** The table of [field l 44 2] program headers of 32 bytes at [field l 28 4]. *)
Definition segments (l : list Z) : list segment :=
  (λ i, segment_at l (field l 28 4 + 32 * i)) <$> seqZ 0 (field l 44 2).
(** The segments to load (type 1), the writable or the other ones. *)
Definition loads (w : bool) (ss : list segment) : list segment := filter (λ s, seg_type s = 1 ∧ seg_writable s = w) ss.

(** Magic number, 32 bits, big-endian, version 1; an executable for MIPS,
    version 1; a table of program headers inside the file, each of a kind that is
    known (none, load, note or header table), at most one writable segment and at
    most one other, and one at least. *)
Definition executable (l : list Z) : Prop :=
  52 ≤ Z.of_nat (length l) ∧
  slice l 0 7 = [0x7f; chr "E"; chr "L"; chr "F"; 1; 2; 1] ∧ field l 16 2 = 2 ∧ field l 18 2 = 8 ∧ field l 20 4 = 1 ∧
  0 < field l 44 2 ∧ field l 28 4 + 32 * field l 44 2 ≤ Z.of_nat (length l) ∧
  Forall (λ s, seg_type s ∈ [0; 1; 4; 6]) (segments l) ∧
  (length (loads true (segments l)) ≤ 1)%nat ∧ (length (loads false (segments l)) ≤ 1)%nat ∧
  (0 < length (loads true (segments l)) + length (loads false (segments l)))%nat.

(** The pages a segment takes in memory, as the 20 bits of a page number. *)
Definition page_count (memsz : Z) : Z :=
  (if decide (memsz `mod` 4096 = 0) then memsz `div` 4096 else memsz `div` 4096 + 1) `mod` 2 ^ 20.

Definition described (l : list Z) (ss : list segment) : elf_info_t :=
  let ro := default (Segment 0 0 0 0 0 false) (head (loads false ss)) in
  let rw := default (Segment 0 0 0 0 0 true) (head (loads true ss)) in
  ElfInfo (field l 24 4)
    (seg_offset ro) (seg_filesz ro) (page_count (seg_memsz ro)) (seg_vaddr ro)
    (seg_offset rw) (seg_filesz rw) (page_count (seg_memsz rw)) (seg_vaddr rw).

(** ** The steps of the parser on the bytes of a file *)

Fixpoint headers_of_bytes (n : nat) (l : list Z) (position : Z) (elf : elf_info_t) (segs : Z) : option elf_info_t :=
  match n with
  | O => if decide (0 < segs) then Some elf else None
  | S n' =>
    if decide (position + SIZEOF_PHDR ≤ Z.of_nat (length l)) then
      h ← read_phdr (slice l position SIZEOF_PHDR);
      '(elf, segs) ← load_segment h elf segs;
      headers_of_bytes n' l (position + SIZEOF_PHDR) elf segs
    else None
  end.

Definition elf_of_bytes (l : list Z) : option elf_info_t :=
  if decide (SIZEOF_EHDR ≤ Z.of_nat (length l)) then
    h ← read_ehdr (slice l 0 SIZEOF_EHDR);
    if ehdr_ok h then headers_of_bytes (Z.to_nat (e_phnum h)) l (e_phoff h) (ElfInfo (e_entry h) 0 0 0 0 0 0 0 0) 0
    else None
  else None.
(** ** The steps and the format *)

Lemma slice4 l a : 0 ≤ a → a + 4 ≤ Z.of_nat (length l) → ∃ b0 b1 b2 b3,
  arr_get l a = Some b0 ∧ arr_get l (a + 1) = Some b1 ∧ arr_get l (a + 2) = Some b2 ∧ arr_get l (a + 3) = Some b3 ∧
  slice l a 4 = [b0; b1; b2; b3].
Proof.
  intros Ha Hl. destruct (arr_get_is_Some l a) as [b0 E0]; [lia|]. destruct (arr_get_is_Some l (a + 1)) as [b1 E1]; [lia|].
  destruct (arr_get_is_Some l (a + 2)) as [b2 E2]; [lia|]. destruct (arr_get_is_Some l (a + 3)) as [b3 E3]; [lia|].
  exists b0, b1, b2, b3. split_and!; [done..|]. apply arr_ext. intros i Hi.
  assert (i = 0 ∨ i = 1 ∨ i = 2 ∨ i = 3 ∨ 4 ≤ i) as [-> | [-> | [-> | [-> | H4]]]] by lia;
    [rw arr_get_slice; [lia..|]; by rw ?Z.add_0_r..|].
  transitivity (@None Z); [|symmetry]; apply arr_get_None; [rw length_slice; lia|cbn; lia].
Qed.

Lemma slice2 l a : 0 ≤ a → a + 2 ≤ Z.of_nat (length l) → ∃ b0 b1,
  arr_get l a = Some b0 ∧ arr_get l (a + 1) = Some b1 ∧ slice l a 2 = [b0; b1].
Proof.
  intros Ha Hl. destruct (arr_get_is_Some l a) as [b0 E0]; [lia|]. destruct (arr_get_is_Some l (a + 1)) as [b1 E1]; [lia|].
  exists b0, b1. split_and!; [done..|]. apply arr_ext. intros i Hi.
  assert (i = 0 ∨ i = 1 ∨ 2 ≤ i) as [-> | [-> | H2]] by lia; [rw arr_get_slice; [lia..|]; by rw ?Z.add_0_r..|].
  transitivity (@None Z); [|symmetry]; apply arr_get_None; [rw length_slice; lia|cbn; lia].
Qed.

(** The fields of a header that was read to a buffer of its own. *)
Lemma ld32_field l p n o : 0 ≤ p → 0 ≤ o → o + 4 ≤ n → p + n ≤ Z.of_nat (length l) →
  ld32 (slice l p n) o = Some (field l (p + o) 4).
Proof.
  intros Hp Ho Hn Hl. destruct (slice4 l (p + o)) as (b0 & b1 & b2 & b3 & E0 & E1 & E2 & E3 & Hs); [lia..|].
  unfold ld32, field. rw Hs !arr_get_slice; [lia..|]. rewrite !Z.add_assoc E0 E1 E2 E3. cbn. f_equal. unfold be_join. lia.
Qed.
Lemma ld16_field l p n o : 0 ≤ p → 0 ≤ o → o + 2 ≤ n → p + n ≤ Z.of_nat (length l) →
  ld16 (slice l p n) o = Some (field l (p + o) 2).
Proof.
  intros Hp Ho Hn Hl. destruct (slice2 l (p + o)) as (b0 & b1 & E0 & E1 & Hs); [lia..|].
  unfold ld16, field. rw Hs !arr_get_slice; [lia..|]. rewrite !Z.add_assoc E0 E1. cbn. f_equal. lia.
Qed.

Lemma field_range l a : bytes_ok l → 0 ≤ a → a + 4 ≤ Z.of_nat (length l) → 0 ≤ field l a 4 < 2 ^ 32.
Proof.
  intros Hb Ha Hl. destruct (slice4 l a) as (b0 & b1 & b2 & b3 & E0 & E1 & E2 & E3 & Hs); [lia..|]. unfold field. rw Hs. cbn.
  pose proof (arr_get_byte _ _ _ Hb E0). pose proof (arr_get_byte _ _ _ Hb E1). pose proof (arr_get_byte _ _ _ Hb E2).
  pose proof (arr_get_byte _ _ _ Hb E3). unfold is_byte in *. lia.
Qed.

Lemma read_phdr_field l p : 0 ≤ p → p + 32 ≤ Z.of_nat (length l) →
  read_phdr (slice l p SIZEOF_PHDR) = Some (Phdr (field l p 4) (field l (p + 4) 4) (field l (p + 8) 4)
    (field l (p + 16) 4) (field l (p + 20) 4) (field l (p + 24) 4)).
Proof. intros Hp Hl. unfold read_phdr, SIZEOF_PHDR. rw !ld32_field; [lia..|]. by rw Z.add_0_r. Qed.

(** A load segment: the tests of [PF_W] and of the pages. *)
Lemma writable_bit x : Z.land x PF_W ≠ 0 ↔ Z.testbit x 1 = true.
Proof.
  unfold PF_W. change 2 with (Z.shiftl 1 1). split.
  - intros Hx. destruct (Z.testbit x 1) eqn:E; [done|]. destruct Hx. apply Z.bits_inj'. intros n Hn.
    rewrite Z.land_spec pow2_testbit // Z.bits_0. case_bool_decide as H1; [subst; by rewrite E|apply andb_false_r].
  - intros Ht Hx. assert (Z.testbit (Z.land x (Z.shiftl 1 1)) 1 = false) as E by by rewrite Hx.
    by rewrite Z.land_spec Ht in E.
Qed.

Lemma pages_count m : 0 ≤ m < 2 ^ 32 → pages m = page_count m.
Proof. intros Hm. unfold pages, page_count, u32, PAGE_SIZE. case_decide; zdm. Qed.

Lemma loads_app w s1 s2 : loads w (s1 ++ s2) = loads w s1 ++ loads w s2.
Proof. apply filter_app. Qed.

(** The bits of [segs] after the headers [ss]. *)
Definition segs_of (ss : list segment) : Z :=
  (match loads false ss with [] => 0 | _ => 1 end) + (match loads true ss with [] => 0 | _ => 2 end).
Definition single (ss : list segment) : Prop := (length (loads true ss) ≤ 1)%nat ∧ (length (loads false ss) ≤ 1)%nat.
Definition known (s : segment) : Prop := seg_type s ∈ [0; 1; 4; 6].

(** One header of the table. *)
Lemma load_segment_spec l p ss : bytes_ok l → 0 ≤ p → p + 32 ≤ Z.of_nat (length l) → single ss →
  let s := segment_at l p in
  match load_segment (Phdr (field l p 4) (field l (p + 4) 4) (field l (p + 8) 4)
      (field l (p + 16) 4) (field l (p + 20) 4) (field l (p + 24) 4)) (described l ss) (segs_of ss) with
  | Some (elf, segs) => known s ∧ single (ss ++ [s]) ∧ elf = described l (ss ++ [s]) ∧ segs = segs_of (ss ++ [s])
  | None => ¬ (known s ∧ single (ss ++ [s]))
  end.
Proof.
  intros Hb Hp Hl [H1 H2] s. pose proof (field_range l (p + 20) Hb ltac:(lia) ltac:(lia)) as Hm.
  unfold load_segment. cbn [p_type p_flags p_offset p_filesz p_vaddr p_memsz]. unfold PT_NULL, PT_NOTE, PT_PHDR, PT_LOAD.
  assert (seg_type s = field l p 4) as Hty by done. set (ty := field l p 4) in *.
  assert (∀ w, loads w [s] = if decide (ty = 1 ∧ seg_writable s = w) then [s] else []) as Hs.
  { intros w. unfold loads. rewrite filter_cons filter_nil Hty. done. }
  unfold single, segs_of, described. rewrite !loads_app !Hs.
  destruct (decide (ty = 0 ∨ ty = 4 ∨ ty = 6)) as [H0|H0].
  { rewrite !(decide_False (P := ty = 1 ∧ _)); [lia..|]. rewrite !app_nil_r. split_and!; [|done..].
    unfold known. rewrite Hty !elem_of_cons. tauto. }
  destruct (decide (ty = 1)) as [E1|E1].
  2: { intros [Hk _]. unfold known in Hk. rewrite Hty !elem_of_cons elem_of_nil in Hk. lia. }
  assert (known s) as Hk by (unfold known; rewrite Hty E1 !elem_of_cons; tauto).
  assert (seg_writable s = Z.testbit (field l (p + 24) 4) 1) as Hw by done.
  pose proof (writable_bit (field l (p + 24) 4)) as Hbit. rewrite -Hw in Hbit.
  destruct (seg_writable s) eqn:Es.
  - rewrite decide_True; [by apply Hbit|]. rewrite !(decide_True (P := ty = 1 ∧ true = true)) //.
    rewrite !(decide_False (P := ty = 1 ∧ true = false)); [by intros []..|]. rewrite !app_nil_r.
    destruct (loads true ss) as [|x ls]; cbn [app length].
    + destruct (loads false ss) as [|y ls'].
      * destruct (decide _) as [Hx|_]; [by destruct Hx|]. by rewrite pages_count.
      * destruct (decide _) as [Hx|_]; [by destruct Hx|]. by rewrite pages_count.
    + rewrite decide_True; [by destruct (loads false ss)|]. intros (_ & Hlen & _). rewrite length_app in Hlen. cbn in Hlen. lia.
  - rewrite decide_False; [intros Hx; by apply Hbit in Hx|]. rewrite !(decide_False (P := ty = 1 ∧ false = true)); [by intros []..|].
    rewrite !(decide_True (P := ty = 1 ∧ false = false)) // !app_nil_r.
    destruct (loads false ss) as [|x ls]; cbn [app length].
    + destruct (loads true ss) as [|y ls'].
      * destruct (decide _) as [Hx|_]; [by destruct Hx|]. by rewrite pages_count.
      * destruct (decide _) as [Hx|_]; [by destruct Hx|]. by rewrite pages_count.
    + rewrite decide_True; [by destruct (loads true ss)|]. intros (_ & _ & Hlen). rewrite length_app in Hlen. cbn in Hlen. lia.
Qed.

(** The table from [p] on. *)
Fixpoint table (l : list Z) (p : Z) (n : nat) : list segment :=
  match n with O => [] | S n' => segment_at l p :: table l (p + 32) n' end.

Lemma segments_table l : 0 ≤ field l 44 2 → segments l = table l (field l 28 4) (Z.to_nat (field l 44 2)).
Proof.
  intros Hn. unfold segments. set (p := field l 28 4). rewrite -{1}(Z2Nat.id (field l 44 2)) //.
  generalize (Z.to_nat (field l 44 2)) as n. clear Hn. intros n.
  assert (∀ n k p, (λ i, segment_at l (p + 32 * i)) <$> seqZ k (Z.of_nat n) = table l (p + 32 * k) n) as Hg; [|by rewrite Hg Z.mul_0_r Z.add_0_r].
  clear. induction n as [|n IH]; intros k p; [done|]. rewrite seqZ_cons; [lia|]. cbn [fmap list_fmap table]. f_equal.
  replace (Z.pred (Z.of_nat (S n))) with (Z.of_nat n) by lia. rewrite IH. f_equal. lia.
Qed.

Lemma headers_spec n : ∀ l p ss, bytes_ok l → 0 ≤ p → single ss → (n = O → p ≤ Z.of_nat (length l)) →
  let all := ss ++ table l p n in
  let ok := p + 32 * Z.of_nat n ≤ Z.of_nat (length l) ∧ Forall known (table l p n) ∧ single all ∧
    (0 < length (loads true all) + length (loads false all))%nat in
  match headers_of_bytes n l p (described l ss) (segs_of ss) with
  | Some info => ok ∧ info = described l all
  | None => ¬ ok
  end.
Proof.
  induction n as [|n IH]; intros l p ss Hb Hp Hss H0 all ok; cbn [headers_of_bytes].
  - unfold ok, all. cbn [table]. rewrite app_nil_r. specialize (H0 eq_refl). unfold segs_of.
    destruct (loads false ss) as [|x f] eqn:Ef; destruct (loads true ss) as [|y tt'] eqn:Et; cbn [length];
      (destruct (decide _); [|try (by intros (_&_&_&?); lia)]); try lia; split_and!; (done || lia || by constructor).
  - unfold ok, all. cbn [table]. unfold SIZEOF_PHDR. destruct (decide (p + 32 ≤ Z.of_nat (length l))) as [Hl|Hl].
    2: { intros [? _]. lia. }
    rewrite (read_phdr_field l p Hp Hl). cbn [mbind option_bind].
    pose proof (load_segment_spec l p ss Hb Hp Hl Hss) as Hs. cbn zeta in Hs.
    destruct (load_segment _ _ _) as [[elf segs]|].
    + destruct Hs as (Hk & Hsi & -> & ->). specialize (IH l (p + 32) (ss ++ [segment_at l p]) Hb ltac:(lia) Hsi ltac:(lia)).
      cbn zeta in IH. rewrite -app_assoc in IH. cbn [app] in IH. cbn [mbind option_bind].
      destruct (headers_of_bytes _ _ _ _ _) as [info|].
      * destruct IH as [(?&?&?&?) ->]. split; [|done]. split_and!; [lia|by constructor|done|done].
      * intros (?&HF&?&?). apply IH. apply Forall_cons in HF as [_ HF]. split_and!; [lia|done..].
    + intros (_ & HF & Hsi & _). apply Forall_cons in HF as [Hk _]. apply Hs. split; [done|]. clear -Hsi.
      unfold single in *. change (segment_at l p :: table l (p + 32) n) with ([segment_at l p] ++ table l (p + 32) n) in Hsi.
      rewrite app_assoc !(loads_app _ (ss ++ _)) !length_app in Hsi. lia.
Qed.

(** The header of the file. *)
Lemma ident_word l : bytes_ok l → 7 ≤ Z.of_nat (length l) →
  slice l 0 7 = [0x7f; chr "E"; chr "L"; chr "F"; 1; 2; 1] ↔
  field l 0 4 = ELF_MAGIC ∧ arr_get l 4 = Some 1 ∧ arr_get l 5 = Some 2 ∧ arr_get l 6 = Some 1.
Proof.
  intros Hb Hl. destruct (slice4 l 0) as (b0 & b1 & b2 & b3 & E0 & E1 & E2 & E3 & Hs); [lia..|].
  destruct (arr_get_is_Some l 4) as [b4 E4]; [lia|]. destruct (arr_get_is_Some l 5) as [b5 E5]; [lia|].
  destruct (arr_get_is_Some l 6) as [b6 E6]; [lia|].
  assert (slice l 0 7 = [b0; b1; b2; b3; b4; b5; b6]) as ->.
  { apply arr_ext. intros i Hi. assert (i = 0 ∨ i = 1 ∨ i = 2 ∨ i = 3 ∨ i = 4 ∨ i = 5 ∨ i = 6 ∨ 7 ≤ i) as Hc by lia.
    repeat (destruct Hc as [->|Hc]; [by rw arr_get_slice; [lia..|]|]).
    transitivity (@None Z); [|symmetry]; apply arr_get_None; [rw length_slice; lia|cbn; lia]. }
  rewrite E4 E5 E6. unfold field. rewrite Hs. cbn [foldl]. change (chr "E") with 0x45. change (chr "L") with 0x4c. change (chr "F") with 0x46. unfold ELF_MAGIC.
  pose proof (arr_get_byte _ _ _ Hb E0). pose proof (arr_get_byte _ _ _ Hb E1). pose proof (arr_get_byte _ _ _ Hb E2).
  pose proof (arr_get_byte _ _ _ Hb E3). unfold is_byte in *. split; [intros [= -> -> -> -> -> -> ->]; split_and!; [lia|done..]|].
  intros (Hm & [= ->] & [= ->] & [= ->]). assert (b3 = 0x46) as -> by lia. assert (b2 = 0x4c) as -> by lia.
  assert (b1 = 0x45) as -> by lia. by assert (b0 = 0x7f) as -> by lia.
Qed.

Lemma elf_of_bytes_spec l : bytes_ok l →
  match elf_of_bytes l with
  | Some info => executable l ∧ info = described l (segments l)
  | None => ¬ executable l
  end.
Proof.
  intros Hb. unfold elf_of_bytes, executable, SIZEOF_EHDR. destruct (decide (52 ≤ Z.of_nat (length l))) as [Hl|Hl]; [|tauto].
  pose proof (ident_word l Hb ltac:(lia)) as Hid.
  destruct (arr_get_is_Some l 4) as [c4 E4]; [lia|]. destruct (arr_get_is_Some l 5) as [c5 E5]; [lia|].
  destruct (arr_get_is_Some l 6) as [c6 E6]; [lia|].
  assert (0 ≤ field l 44 2) as Hn.
  { destruct (slice2 l 44) as (b0 & b1 & F0 & F1 & Hs); [lia..|]. unfold field. rewrite Hs. cbn.
    pose proof (arr_get_byte _ _ _ Hb F0). pose proof (arr_get_byte _ _ _ Hb F1). unfold is_byte in *. lia. }
  pose proof (field_range l 28 Hb ltac:(lia) ltac:(lia)) as Hoff.
  unfold read_ehdr. rw !ld32_field; [lia..|]. rw !ld16_field; [lia..|]. rw !arr_get_slice; [lia..|]. rewrite !Z.add_0_l E4 E5 E6.
  rewrite E4 E5 E6 in Hid. cbn [mbind option_bind]. unfold ehdr_ok. cbn [e_ident_i e_ident_class e_ident_data e_ident_version e_type e_machine e_version e_entry e_phoff e_phnum].
  unfold ELFCLASS32, ELFDATA2MSB, EM_MIPS, EV_CURRENT, ET_EXEC.
  destruct (decide (field l 0 4 ≠ ELF_MAGIC)); [tauto|].
  destruct (decide (c4 ≠ 1 ∨ c5 ≠ 2 ∨ field l 18 2 ≠ 8)); [intros (_ & Hi & _ & ? & _); apply Hid in Hi as (_ & [= ->] & [= ->] & _); lia|].
  destruct (decide (field l 20 4 ≠ 1 ∨ c6 ≠ 1)); [intros (_ & Hi & _ & _ & ? & _); apply Hid in Hi as (_ & _ & _ & [= ->]); lia|].
  destruct (decide (field l 16 2 ≠ 2)); [tauto|]. destruct (decide (field l 44 2 = 0)); [lia|].
  assert (slice l 0 7 = [0x7f; chr "E"; chr "L"; chr "F"; 1; 2; 1]) as Hs.
  { apply Hid. split_and!; [lia|f_equal; lia..]. }
  rewrite (segments_table l Hn).
  pose proof (headers_spec (Z.to_nat (field l 44 2)) l (field l 28 4) [] Hb ltac:(lia)) as Hh. cbn zeta in Hh. cbn [app] in Hh.
  change (described l []) with (ElfInfo (field l 24 4) 0 0 0 0 0 0 0 0) in Hh. change (segs_of []) with 0 in Hh.
  specialize (Hh ltac:(by split; cbn; lia) ltac:(lia)). rewrite Z2Nat.id // in Hh. unfold single in Hh.
  destruct (headers_of_bytes _ _ _ _ _) as [info|].
  - destruct Hh as [(?&?&[? ?]&?) ->]. split; [|done]. split_and!; try done; lia.
  - intros (_&_&_&_&_&_&?&?&?&?&?). by apply Hh.
Qed.

Lemma fbytes_ok img f : img_ok img → bytes_ok (fbytes img f).
Proof.
  intros Hi. unfold fbytes, bytes_ok. apply Forall_take, Forall_join, Forall_fmap, Forall_forall. intros k _. apply Hi.
Qed.

Lemma ld32_defined l i : 0 ≤ i → i + 4 ≤ Z.of_nat (length l) → is_Some (ld32 l i).
Proof.
  intros Hi Hl. unfold ld32. assert (∀ j, i ≤ j < i + 4 → is_Some (arr_get l j)) as Hg.
  { intros j Hj. destruct (arr_get_is_Some l j) as [x Hx]; [lia|]. by exists x. }
  destruct (Hg i) as [a ->]; [lia|]. destruct (Hg (i + 1)) as [b ->]; [lia|].
  destruct (Hg (i + 2)) as [c ->]; [lia|]. destruct (Hg (i + 3)) as [d ->]; [lia|]. by eexists.
Qed.

Lemma ld16_defined l i : 0 ≤ i → i + 2 ≤ Z.of_nat (length l) → is_Some (ld16 l i).
Proof.
  intros Hi Hl. unfold ld16. destruct (arr_get_is_Some l i) as [a ->]; [lia|].
  destruct (arr_get_is_Some l (i + 1)) as [b ->]; [lia|]. by eexists.
Qed.

Lemma read_phdr_defined l : length l = 32%nat → is_Some (read_phdr l).
Proof.
  intros Hl. unfold read_phdr.
  destruct (ld32_defined l 0) as [? ->]; [lia..|]. destruct (ld32_defined l 4) as [? ->]; [lia..|].
  destruct (ld32_defined l 8) as [? ->]; [lia..|]. destruct (ld32_defined l 16) as [? ->]; [lia..|].
  destruct (ld32_defined l 20) as [? ->]; [lia..|]. destruct (ld32_defined l 24) as [? ->]; [lia..|]. by eexists.
Qed.

Lemma read_ehdr_defined l : length l = 52%nat → is_Some (read_ehdr l).
Proof.
  intros Hl. unfold read_ehdr.
  destruct (ld32_defined l 0) as [? ->]; [lia..|]. destruct (arr_get_is_Some l 4) as [? ->]; [lia|].
  destruct (arr_get_is_Some l 5) as [? ->]; [lia|]. destruct (arr_get_is_Some l 6) as [? ->]; [lia|].
  destruct (ld16_defined l 16) as [? ->]; [lia..|]. destruct (ld16_defined l 18) as [? ->]; [lia..|].
  destruct (ld32_defined l 20) as [? ->]; [lia..|]. destruct (ld32_defined l 24) as [? ->]; [lia..|].
  destruct (ld32_defined l 28) as [? ->]; [lia..|]. destruct (ld16_defined l 44) as [? ->]; [lia..|]. by eexists.
Qed.

Lemma splice_whole (m l : list Z) : length l = length m → splice m 0 l = l.
Proof. intros Hl. unfold splice. simpl. rw Hl drop_all app_nil_r //. Qed.

Section parse.
Context {D : Type} `{Gbd D} `{!GbdLaws D} (works : D → Prop) `{!GbdReliable D works}.
Context (fss : list vfs_entry_t) (u k : Z) (file : Z) (img : Z → list Z) (Hk : 0 ≤ k) (Himg : img_ok img).
Abbreviation opened := (reads_file works).

(** Reading [n] bytes at the position: all of them, or some other answer. *)
Lemma read_piece fl dr e n :
  opened dr fl file e img → 0 ≤ seek_position e → 0 < n →
  let bytes := fbytes img (fileid e) in
  if decide (seek_position e + n ≤ Z.of_nat (length bytes)) then
    ∃ fl' dr', vfs_read file (Some (replicate (Z.to_nat n) 0)) n (vfs_at fss fl u k dr) =
        Done (n, slice bytes (seek_position e) n) (vfs_at fss fl' u k dr') ∧
      opened dr' fl' file (e <| seek_position := seek_position e + n |>) img
  else ∃ x s', vfs_read file (Some (replicate (Z.to_nat n) 0)) n (vfs_at fss fl u k dr) = Done x s' ∧ x.1 ≠ n.
Proof.
  intros Ho Hp Hn bytes. pose proof (fo_size _ _ _ (rf_ok _ _ _ _ _ _ Ho)) as Hsz.
  assert (Z.of_nat (length bytes) = fsize img (fileid e)) as Hlen by (unfold bytes; rw length_fbytes //; lia).
  destruct (decide (seek_position e ≤ fsize img (fileid e))) as [Hle|Hle].
  - destruct (vfs_read_file works fss fl u k dr file e img (replicate (Z.to_nat n) 0) n Ho (conj Hp Hle) Hk) as (fl' & dr' & Hrun & Ho');
      [rw length_replicate; lia|].
    case_decide as Hd.
    + rw Z.min_l in Hrun Ho'; [lia|]. exists fl', dr'. split; [|done]. rw Hrun splice_whole //.
      fold bytes. rw length_slice; [lia..|]. by rw length_replicate.
    + eexists _, _. split; [exact Hrun|]. cbn [fst]. lia.
  - case_decide; [lia|].
    destruct (vfs_read_beyond works fss fl u k dr file e img (replicate (Z.to_nat n) 0) n Ho Hk) as [s' Hrun]; [lia..|].
    eexists _, s'. split; [exact Hrun|]. cbn [fst]. unfold Vfs.VFS_ERROR. lia.
Qed.

Lemma program_headers_run n fl dr e elf segs :
  opened dr fl file e img → 0 ≤ seek_position e →
  ∃ r s', program_headers n file (seek_position e) elf segs (vfs_at fss fl u k dr) = Done r s' ∧
    match headers_of_bytes n (fbytes img (fileid e)) (seek_position e) elf segs with
    | Some info => r = (1, info)
    | None => r.1 = 0
    end.
Proof.
  revert fl dr e elf segs. induction n as [|n IH]; intros fl dr e elf segs Ho Hp; cbn [program_headers headers_of_bytes].
  { eexists _, _. split; [reflexivity|]. by case_decide. }
  pose proof (read_piece fl dr e SIZEOF_PHDR Ho Hp ltac:(unfold SIZEOF_PHDR; lia)) as Hr. cbn zeta in Hr.
  pose proof (fo_size _ _ _ (rf_ok _ _ _ _ _ _ Ho)) as Hsz.
  assert (Z.of_nat (length (fbytes img (fileid e))) = fsize img (fileid e)) as Hlen by (rw length_fbytes //; lia).
  destruct (decide (seek_position e + SIZEOF_PHDR ≤ Z.of_nat (length (fbytes img (fileid e))))) as [Hd|Hd].
  - destruct Hr as (fl1 & dr1 & Hrun & Ho1). rw (bind_Done _ _ _ _ _ Hrun). cbn [fst snd].
    destruct (decide (SIZEOF_PHDR ≠ SIZEOF_PHDR)) as [Hx|_]; [by destruct Hx|].
    destruct (read_phdr_defined (slice (fbytes img (fileid e)) (seek_position e) SIZEOF_PHDR)) as [h Hh].
    { unfold SIZEOF_PHDR in *. rw length_slice; lia. }
    rw Hh bind_oread. cbn [mbind option_bind]. destruct (load_segment h elf segs) as [[elf' segs']|].
    2: { eexists _, _. by split. }
    unfold SIZEOF_PHDR in *. rw i32_small; [lia|].
    destruct (vfs_seek_file works fss fl1 u k dr1 file _ img (seek_position e + 32) Ho1 Hk ltac:(lia)) as (fl2 & Hseek & Ho2).
    rw (bind_Done _ _ _ _ _ Hseek). apply (IH fl2 dr1 _ elf' segs' Ho2). change (0 ≤ seek_position e + 32). lia.
  - destruct Hr as (x & s' & Hrun & Hne). rw (bind_Done _ _ _ _ _ Hrun) decide_True //. eexists _, _. by split.
Qed.

Lemma elf_parse_run fl dr e elf :
  opened dr fl file e img → seek_position e = 0 →
  (∀ h, SIZEOF_EHDR ≤ Z.of_nat (length (fbytes img (fileid e))) → read_ehdr (slice (fbytes img (fileid e)) 0 SIZEOF_EHDR) = Some h → 0 ≤ e_phoff h < 2 ^ 31) →
  ∃ r s', elf_parse_header elf file (vfs_at fss fl u k dr) = Done r s' ∧
    match elf_of_bytes (fbytes img (fileid e)) with
    | Some info => r = (1, info)
    | None => r.1 = 0
    end.
Proof.
  intros Ho Hp Hoff. unfold elf_parse_header, elf_of_bytes.
  pose proof (read_piece fl dr e SIZEOF_EHDR Ho ltac:(lia) ltac:(unfold SIZEOF_EHDR; lia)) as Hr. cbn zeta in Hr. rw Hp Z.add_0_l in Hr.
  destruct (decide (SIZEOF_EHDR ≤ Z.of_nat (length (fbytes img (fileid e))))) as [Hd|Hd].
  - destruct Hr as (fl1 & dr1 & Hrun & Ho1). rw (bind_Done _ _ _ _ _ Hrun). cbn [fst snd].
    destruct (decide (SIZEOF_EHDR ≠ SIZEOF_EHDR)) as [Hx|_]; [by destruct Hx|].
    destruct (read_ehdr_defined (slice (fbytes img (fileid e)) 0 SIZEOF_EHDR)) as [h Hh].
    { unfold SIZEOF_EHDR in *. rw length_slice; lia. }
    rw Hh bind_oread. cbn [mbind option_bind]. destruct (ehdr_ok h); cbn [negb].
    2: { eexists _, _. by split. }
    pose proof (Hoff h Hd Hh) as Hh0. rw i32_small; [lia|].
    destruct (vfs_seek_file works fss fl1 u k dr1 file _ img (e_phoff h) Ho1 Hk ltac:(lia)) as (fl2 & Hseek & Ho2).
    rw (bind_Done _ _ _ _ _ Hseek).
    apply (program_headers_run (Z.to_nat (e_phnum h)) fl2 dr1 _ _ 0 Ho2). change (0 ≤ e_phoff h). lia.
  - destruct Hr as (x & s' & Hrun & Hne). rw (bind_Done _ _ _ _ _ Hrun) decide_True //. eexists _, _. by split.
Qed.

(** C13 (equivalence): elf_parse_header decides the format. On an open file of a
    mounted volume, read from the start through the virtual file system and the
    driver, it answers 1 exactly when the bytes of the file are an executable
    (magic number, class, byte order and versions, type and machine, a table of
    program headers inside the file, all of known kinds, with at most one writable
    and one read-only segment and at least one), and then gives its entry point
    and, for both segments, the offset, sizes, pages and address the headers name,
    the pages being those of the memory size rounded up modulo 2^20; otherwise it
    answers 0. The program header offset must be below 2^31. *)
Theorem elf_parse_header_parses fl dr e elf :
  let bytes := fbytes img (fileid e) in
  opened dr fl file e img → seek_position e = 0 →
  (52 ≤ Z.of_nat (length bytes) → field bytes 28 4 < 2 ^ 31) →
  ∃ r s', elf_parse_header elf file (vfs_at fss fl u k dr) = Done r s' ∧
    (executable bytes → r = (1, described bytes (segments bytes))) ∧ (¬ executable bytes → r.1 = 0).
Proof.
  intros bytes Ho Hp Hoff. destruct (elf_parse_run fl dr e elf Ho Hp) as (r & s' & Hrun & Hr).
  { intros h Hl Hh. unfold SIZEOF_EHDR in Hl. fold bytes in Hh, Hl. pose proof (field_range bytes 28 (fbytes_ok img _ Himg) ltac:(lia) ltac:(lia)). specialize (Hoff Hl).
      assert (e_phoff h = field bytes 28 4) as ->; [|lia]. unfold read_ehdr, SIZEOF_EHDR in Hh.
      destruct (arr_get_is_Some (slice bytes 0 52) 4) as [? E4]; [rw length_slice; lia|].
      destruct (arr_get_is_Some (slice bytes 0 52) 5) as [? E5]; [rw length_slice; lia|].
      destruct (arr_get_is_Some (slice bytes 0 52) 6) as [? E6]; [rw length_slice; lia|].
      rw !ld32_field in Hh; [lia..|]. rw !ld16_field in Hh; [lia..|]. rewrite E4 E5 E6 in Hh. cbn in Hh. by injection Hh as <-. }
  exists r, s'. split; [exact Hrun|]. pose proof (elf_of_bytes_spec bytes (fbytes_ok img _ Himg)) as Hs. fold bytes in Hr.
  destruct (elf_of_bytes bytes) as [info|]; [|tauto]. destruct Hs as [He ->]. split; [done|tauto].
Qed.

(** A header whose program header offset is 2^31 or more stops the kernel: the
    offset is negative as an int, and vfs_seek asserts that it is not. *)
Lemma elf_negative_offset_panics fl dr e elf h :
  opened dr fl file e img → seek_position e = 0 → SIZEOF_EHDR ≤ Z.of_nat (length (fbytes img (fileid e))) →
  read_ehdr (slice (fbytes img (fileid e)) 0 SIZEOF_EHDR) = Some h → ehdr_ok h = true → 2 ^ 31 ≤ e_phoff h < 2 ^ 32 →
  elf_parse_header elf file (vfs_at fss fl u k dr) = Panic "Assertion failed".
Proof.
  intros Ho Hp Hd Hh Hok Hoff. unfold elf_parse_header.
  pose proof (read_piece fl dr e SIZEOF_EHDR Ho ltac:(lia) ltac:(unfold SIZEOF_EHDR; lia)) as Hr. cbn zeta in Hr. rw Hp Z.add_0_l in Hr.
  rw decide_True // in Hr. destruct Hr as (fl1 & dr1 & Hrun & Ho1). rw (bind_Done _ _ _ _ _ Hrun). cbn [fst snd].
  destruct (decide (SIZEOF_EHDR ≠ SIZEOF_EHDR)) as [Hx|_]; [by destruct Hx|]. rw Hh bind_oread Hok. cbn [negb].
  assert (i32 (e_phoff h) < 0) as Hneg by (unfold i32; zdm).
  unfold vfs_seek, vfs_at. rw bind_bind bind_start. destruct (decide (Vfs.VFS_OK ≠ Vfs.VFS_OK)) as [Hx|_]; [by destruct Hx|].
  rw bind_bind bind_assert_fails //. lia.
Qed.
End parse.

(** ** Witness: an executable with one read-only segment *)

Definition example_elf : list Z :=
  [127; 69; 76; 70; 1; 2; 1] ++ replicate 9 0 ++ [0; 2; 0; 8] ++ be_split 1 ++ be_split 4096 ++ be_split 52
  ++ be_split 0 ++ be_split 0 ++ [0; 52; 0; 32; 0; 1; 0; 0; 0; 0; 0; 0]
  ++ be_split 1 ++ be_split 84 ++ be_split 4096 ++ be_split 0 ++ be_split 16 ++ be_split 5000 ++ be_split 5 ++ be_split 4096.
Definition example_elf_inode : list Z := be_split 84 ++ be_split 4 ++ replicate 504 0.
Definition example_elf_volume : tfs_t (D := ramdisk) :=
  TfsT 16 (Ramdisk (λ b, if decide (b = 3) then example_elf_inode
    else if decide (b = 4) then example_elf ++ replicate 428 0 else replicate 512 0) 16) 0 1
    (replicate 512 0) (replicate 512 0) (replicate 512 0).
Definition example_elf_driver : volume (D := ramdisk) :=
  Volume (FsT [118; 0] 4096 example_elf_volume) (MountEnv [] [] [] (Ramdisk (λ _, []) 0)).
Definition example_elf_files : list openfile_entry_t := OpenFile 64 3 0 :: replicate 511 (OpenFile 0 0 0).

Lemma example_elf_mounted : mounted (D := ramdisk) (λ _, True) example_elf_volume.
Proof.
  constructor; cbn [buffer_inode buffer_bat buffer_md totalblocks disk example_elf_volume]; try exact zeros_ok; done.
Qed.

Lemma example_elf_size : fsize (image example_elf_volume) 3 = 84.
Proof. vm_compute. reflexivity. Qed.

Lemma example_elf_bytes : fbytes (image example_elf_volume) 3 = example_elf.
Proof. vm_compute. reflexivity. Qed.

Lemma example_elf_file : file_ok (image example_elf_volume) 16 3.
Proof.
  constructor; [lia|rewrite example_elf_size; lia|]. intros b. rewrite example_elf_size. change (nblocks 84) with 1. intros Hb.
  assert (b = 0) as -> by lia. assert (fblock (image example_elf_volume) 3 0 = 4) as -> by (vm_compute; reflexivity). lia.
Qed.

Lemma example_elf_executable : executable example_elf.
Proof.
  unfold executable. split_and!; try (vm_compute; (done || lia)).
  vm_compute. constructor; [|constructor]. by right; left.
Qed.

Lemma elf_parse_header_parses_witness :
  ∃ s', elf_parse_header (ElfInfo 9 9 9 9 9 9 9 9 9) 0 (vfs_at example_mounts example_elf_files 0 0 (λ _, example_elf_driver)) =
    Done (1, ElfInfo 4096 84 16 2 4096 0 0 0 0) s'.
Proof.
  destruct (elf_parse_header_parses (λ _, True) example_mounts 0 0 0 (image example_elf_volume) ltac:(lia)
    (λ b, image_ok (λ _, True) example_elf_volume b example_elf_mounted) example_elf_files (λ _, example_elf_driver)
    (OpenFile 64 3 0) (ElfInfo 9 9 9 9 9 9 9 9 9)) as (r & s' & H & Hr).
  - constructor; [lia|reflexivity|discriminate|exact example_elf_mounted|reflexivity|reflexivity|exact example_elf_file].
  - reflexivity.
  - cbn [fileid]. rewrite example_elf_bytes. intros _. by vm_compute.
  - cbn [fileid] in Hr. rewrite example_elf_bytes in Hr. destruct Hr as [Hr _].
    exists s'. rewrite H Hr; [exact example_elf_executable|reflexivity].
Defined.
End ElfSpec.
