(* ===== verification/Usermem.v ===== *)
(** * User memory as the kernel reaches it

    In a system call the kernel uses pointers of the user program as they are:
    the TLB translates each access to physical memory.  [user_bytes] is what can
    be read from an address on, [user_store] puts back what a routine left in a
    buffer; an access the TLB refuses is an exception of the kernel itself
    (kernel/exception.c), which stops it. *)
From S2P Require Import Prelude Bytes Vm Interrupt.
Import Vm Interrupt.

Module Usermem.

Definition EXCEPTION_TLBM : Z := 1.
Definition EXCEPTION_TLBS : Z := 3.

(** Physical address and write enable of a virtual address. *)
Definition phys_addr (t : tlb_t) (a : Z) : option (Z * Z) :=
  x ← tlb_translate t a;
  Some (x.1 * 4096 + a `mod` 4096, x.2).

Definition user_byte (t : tlb_t) (ram : Z → Z) (a : Z) : option Z :=
  x ← phys_addr t a; Some (ram x.1).

(** The bytes from [p] up to the first address without translation. *)
Fixpoint user_bytes (n : nat) (t : tlb_t) (ram : Z → Z) (p : Z) : list Z :=
  match n with
  | O => []
  | S n' =>
    match user_byte t ram p with
    | Some c => c :: user_bytes n' t ram (p + 1)
    | None => []
    end
  end.

(** A row maps two pages: no run of mapped addresses is longer. *)
Definition user_span (t : tlb_t) : nat := (length (tlb_rows t) * 8192)%nat.

Definition poke (ram : Z → Z) (a c : Z) : Z → Z := λ b, if decide (b = a) then c else ram b.

(** The exception of a store at [p]. *)
Definition store_exception (t : tlb_t) (p : Z) : option Z :=
  match phys_addr t p with
  | None => Some EXCEPTION_TLBS
  | Some (_, d) => if decide (d = 1) then None else Some EXCEPTION_TLBM
  end.

(** Store [new] over [old] from [p] on; bytes that stay the same are not touched. *)
Fixpoint user_store (t : tlb_t) (p : Z) (old new : list Z) (ram : Z → Z) : Z + (Z → Z) :=
  match old, new with
  | c :: old', c' :: new' =>
    if decide (c = c') then user_store t (p + 1) old' new' ram else
    match store_exception t p with
    | Some e => inl e
    | None => user_store t (p + 1) old' new' (poke ram (from_option fst 0 (phys_addr t p)) c')
    end
  | _, _ => inr ram
  end.

(** memoryset: every byte is stored. *)
Fixpoint user_fill (n : nat) (t : tlb_t) (p c : Z) (ram : Z → Z) : Z + (Z → Z) :=
  match n with
  | O => inr ram
  | S n' =>
    match store_exception t p with
    | Some e => inl e
    | None => user_fill n' t (p + 1) c (poke ram (from_option fst 0 (phys_addr t p)) c)
    end
  end.

(** ** A mapped buffer

    [len] bytes from [p] on are mapped, writable, and lie at [at_ i] in physical
    memory, no two at the same place. *)
Record mapped (t : tlb_t) (p len : Z) (at_ : Z → Z) : Prop := {
  mp_at i : 0 ≤ i < len → phys_addr t (p + i) = Some (at_ i, 1);
  mp_inj i j : 0 ≤ i < len → 0 ≤ j < len → at_ i = at_ j → i = j;
  mp_span : len ≤ Z.of_nat (user_span t) }.

Lemma mapped_byte t ram p len at_ i :
  mapped t p len at_ → 0 ≤ i < len → user_byte t ram (p + i) = Some (ram (at_ i)).
Proof. intros Hm Hi. unfold user_byte. by rw (mp_at _ _ _ _ Hm i Hi). Qed.

Lemma user_bytes_get n t ram p i :
  arr_get (user_bytes n t ram p) i ≠ None →
  arr_get (user_bytes n t ram p) i = user_byte t ram (p + i).
Proof.
  revert p i. induction n as [|n IH]; intros p i Hi; cbn [user_bytes] in *.
  { destruct (arr_get [] i) eqn:E; [|done]. by apply arr_get_lt in E; cbn in E; lia. }
  destruct (user_byte t ram p) as [c|] eqn:E.
  2: { destruct (arr_get [] i) eqn:E'; [|done]. by apply arr_get_lt in E'; cbn in E'; lia. }
  destruct (decide (i = 0)) as [->|Hne].
  { rw Z.add_0_r E. done. }
  assert (arr_get (c :: user_bytes n t ram (p + 1)) i = arr_get (user_bytes n t ram (p + 1)) (i - 1)) as Hs.
  { unfold arr_get in *. destruct (decide (0 ≤ i)); [|done]. rw decide_True; [lia|].
    by replace (Z.to_nat i) with (S (Z.to_nat (i - 1))) by lia. }
  rw Hs in Hi. rw Hs (IH _ _ Hi). f_equal. lia.
Qed.

Lemma user_bytes_long n t ram p len at_ :
  (∀ i, 0 ≤ i < len → phys_addr t (p + i) = Some (at_ i, 1)) → len ≤ Z.of_nat n →
  len ≤ Z.of_nat (length (user_bytes n t ram p)).
Proof.
  revert p len at_. induction n as [|n IH]; intros p len at_ Hm Hn; [cbn; lia|].
  destruct (decide (len ≤ 0)); [lia|]. cbn [user_bytes].
  assert (user_byte t ram p = Some (ram (at_ 0))) as ->.
  { unfold user_byte. specialize (Hm 0). rw Z.add_0_r in Hm. rw Hm; [lia|]. done. }
  cbn [length].
  specialize (IH (p + 1) (len - 1) (λ i, at_ (i + 1))).
  enough (len - 1 ≤ Z.of_nat (length (user_bytes n t ram (p + 1)))) by lia. apply IH; [|lia].
  intros i Hi. rewrite -Hm; [lia|]. f_equal. lia.
Qed.

(** The kernel reads the buffer as it lies in memory. *)
Lemma mapped_bytes t ram p len at_ i :
  mapped t p len at_ → 0 ≤ i < len →
  arr_get (user_bytes (user_span t) t ram p) i = Some (ram (at_ i)).
Proof.
  intros Hm Hi. pose proof (user_bytes_long (user_span t) t ram p len at_ (mp_at _ _ _ _ Hm) (mp_span _ _ _ _ Hm)) as Hl.
  rewrite user_bytes_get.
  - intros Hx. apply arr_get_None in Hx. lia.
  - by apply (mapped_byte _ _ _ len).
Qed.

Lemma arr_get_cons {A} (c : A) l i : 0 < i → arr_get (c :: l) i = arr_get l (i - 1).
Proof.
  intros Hi. unfold arr_get. rewrite !decide_True; [lia..|]. by replace (Z.to_nat i) with (S (Z.to_nat (i - 1))) by lia.
Qed.

(** A routine that changed the first [len] bytes of its buffer. *)
Lemma user_store_run t old : ∀ p len at_ new ram,
  (∀ i, 0 ≤ i < len → phys_addr t (p + i) = Some (at_ i, 1)) →
  (∀ i j, 0 ≤ i < len → 0 ≤ j < len → at_ i = at_ j → i = j) →
  length new = length old → (∀ i, len ≤ i → arr_get new i = arr_get old i) →
  (∀ i c, 0 ≤ i < len → arr_get old i = Some c → ram (at_ i) = c) →
  ∃ ram', user_store t p old new ram = inr ram' ∧
    (∀ i c, 0 ≤ i < len → arr_get new i = Some c → ram' (at_ i) = c) ∧
    (∀ b, (∀ i, 0 ≤ i < len → arr_get new i ≠ arr_get old i → at_ i ≠ b) → ram' b = ram b).
Proof.
  induction old as [|c old IH]; intros p len at_ [|c' new] ram Hm Hinj Hl Hsame Hold; try done.
  { exists ram. split_and!; [done| |done]. intros i c _ Hc. apply arr_get_lt in Hc. cbn in Hc. lia. }
  assert (∀ ram2, (∀ i x, 0 ≤ i < len - 1 → arr_get old i = Some x → ram2 (at_ (i + 1)) = x) →
    ∃ ram', user_store t (p + 1) old new ram2 = inr ram' ∧
      (∀ i x, 0 ≤ i < len - 1 → arr_get new i = Some x → ram' (at_ (i + 1)) = x) ∧
      (∀ b, (∀ i, 0 ≤ i < len - 1 → arr_get new i ≠ arr_get old i → at_ (i + 1) ≠ b) → ram' b = ram2 b)) as Hrec.
  { intros ram2 H2. apply (IH (p + 1) (len - 1) (λ i, at_ (i + 1)) new ram2); [| |by injection Hl| |done].
    - intros i Hi. rewrite -Hm; [lia|]. f_equal. lia.
    - intros i j Hi Hj Hij. apply Hinj in Hij; lia.
    - intros i Hi. specialize (Hsame (i + 1)). destruct (decide (0 ≤ i)) as [H0|H0].
      + rewrite !arr_get_cons in Hsame; [lia..|]. rewrite !Z.add_simpl_r in Hsame. apply Hsame. lia.
      + unfold arr_get. by rewrite !decide_False. }
  assert (arr_get (c :: old) 0 = Some c ∧ arr_get (c' :: new) 0 = Some c') as [H0 H0'] by done.
  cbn [user_store]. destruct (decide (c = c')) as [<-|Hne].
  - destruct (Hrec ram) as (ram' & Hrun & Hnew & Hkeep).
    { intros i x Hi Hx. apply Hold; [lia|]. rewrite arr_get_cons; [lia|]. by rewrite Z.add_simpl_r. }
    exists ram'. split; [done|]. split.
    + intros i x Hi Hx. destruct (decide (i = 0)) as [->|Hn0].
      * rewrite Hkeep; [|by apply Hold; [|rewrite H0; rewrite H0' in Hx]].
        intros j Hj _ E. apply Hinj in E; lia.
      * rewrite arr_get_cons in Hx; [lia|]. specialize (Hnew (i - 1) x). rewrite Z.sub_add in Hnew. apply Hnew; [lia|done].
    + intros b Hb. apply Hkeep. intros i Hi Hd. apply Hb; [lia|]. rewrite !arr_get_cons; [lia..|]. by rewrite Z.add_simpl_r.
  - assert (0 < len) as Hlen.
    { destruct (decide (0 < len)); [done|]. specialize (Hsame 0 ltac:(lia)). rewrite H0 H0' in Hsame. congruence. }
    pose proof (Hm 0 ltac:(lia)) as Hp. rewrite Z.add_0_r in Hp. unfold store_exception. rewrite Hp /=.
    destruct (Hrec (poke ram (at_ 0) c')) as (ram' & Hrun & Hnew & Hkeep).
    { intros i x Hi Hx. unfold poke. rewrite decide_False; [intros E; apply Hinj in E; lia|].
      apply Hold; [lia|]. rewrite arr_get_cons; [lia|]. by rewrite Z.add_simpl_r. }
    exists ram'. split; [done|]. split.
    + intros i x Hi Hx. destruct (decide (i = 0)) as [->|Hn0].
      * rewrite H0' in Hx. injection Hx as <-. rewrite Hkeep; [intros j Hj _ E; apply Hinj in E; lia|].
        unfold poke. by rewrite decide_True.
      * rewrite arr_get_cons in Hx; [lia|]. specialize (Hnew (i - 1) x). rewrite Z.sub_add in Hnew. apply Hnew; [lia|done].
    + intros b Hb. rewrite Hkeep.
      * intros i Hi Hd. apply Hb; [lia|]. rewrite !arr_get_cons; [lia..|]. by rewrite Z.add_simpl_r.
      * unfold poke. rewrite decide_False; [|done]. intros ->. apply (Hb 0); [lia| |done]. rewrite H0 H0'. congruence.
Qed.
End Usermem.
