(* ===== verification/Syscall.v ===== *)
(** * System calls (proc/syscall.c, proc/exception.c, kernel/halt.c)

    The state of the whole system as a process sees it: devices, kernel core,
    address spaces, processes, the virtual file system, terminals and physical
    memory, with the lenses of its parts. *)
From stdpp Require Import gmap.
From S2P Require Import Prelude Bytes Cpu Kmalloc Kstate Vm Thread Interrupt Device Tty Polltty Xprintf Process Vfs Usermem.
Import Kmalloc Vm Thread Interrupt Device Tty Polltty Process Vfs Usermem.

Module Syscall.

Abbreviation SYSCALL_HALT := 0x001.
Abbreviation SYSCALL_EXEC := 0x101.
Abbreviation SYSCALL_EXIT := 0x102.
Abbreviation SYSCALL_JOIN := 0x103.
Abbreviation SYSCALL_OPEN := 0x201.
Abbreviation SYSCALL_CLOSE := 0x202.
Abbreviation SYSCALL_SEEK := 0x203.
Abbreviation SYSCALL_READ := 0x204.
Abbreviation SYSCALL_WRITE := 0x205.
Abbreviation SYSCALL_CREATE := 0x206.
Abbreviation SYSCALL_DELETE := 0x207.
Abbreviation SYSCALL_FILECOUNT := 0x208.
Abbreviation SYSCALL_FILE := 0x209.
Definition FILEHANDLE_STDIN : Z := 0.
Definition FILEHANDLE_STDOUT : Z := 1.
Definition FILEHANDLE_STDERR : Z := 2.
Abbreviation EXCEPTION_SYSCALL := 8.

(** A terminal: its driver's lock and buffers, and its ports. *)
Record terminal_t {D : Type} := TerminalT { term_slock : Z; term_rd : tty_real_device_t; term_io : D }.
Arguments terminal_t D : clear implicits.

(** Offsets of the two buffers in tty_real_device_t. *)
Definition READ_BUF : Z := 4.
Definition WRITE_BUF : Z := 4 + TTY_BUF_SIZE + 8.

Section syscall.
Context {F : Type} `{FileSystem F} {D : Type} `{TtyPorts D}.

(** Terminals by the address of their tty_real_device_t. *)
Record sys_t := Sys {
  devs : dev_t; processes : list process_t; processes_slock : Z;
  vfs : vfs_t (F := F); terminals : Z → terminal_t D; ram : Z → Z }.
#[global] Instance eta_sys : Eta sys_t := fun s =>
  Sys (devs s) (processes s) (processes_slock s) (vfs s) (terminals s) (ram s).

Abbreviation Y A := (M sys_t A).

Definition core_l : lens sys_t kstate :=
  Lens (λ s, Interrupt.kernel (ints (devs s)))
    (λ k s, s <| devs := (devs s) <| ints := (ints (devs s)) <| Interrupt.kernel := k |> |> |>).
Definition tlb_of (s : sys_t) : tlb_t := tlb (ints (devs s)).

Definition process_l : lens sys_t pstate :=
  Lens (λ s, Pstate (lget core_l s) (Interrupt.memory (ints (devs s))) (processes s) (processes_slock s))
    (λ p s, Sys ((devs s) <| ints := ((ints (devs s)) <| Interrupt.kernel := Process.kernel p |>)
                   <| Interrupt.memory := Process.memory p |> |>)
      (process_table p) (process_table_slock p) (vfs s) (terminals s) (ram s)).

Definition terminal_l (rd : Z) : lens sys_t (tty_t D) :=
  Lens (λ s, let t := terminals s rd in TtyState D (lget core_l s) (term_slock t) (term_rd t) (term_io t))
    (λ x s, lset core_l (Tty.kernel x)
       (s <| terminals := λ q, if decide (q = rd) then TerminalT D (tty_slock x) (tty_rd x) (io x) else terminals s q |>)).

Variables (L : layout) (descriptors : list io_descriptor).
(** The terminal of kprintf, its polltty_iobase, and how often it is polled. *)
Variables (console iobase : Z) (polls : nat).
Variables thread_stack_areas thread_finish_addr process_table_addr process_start_addr : Z.
(** How often a waiting thread is woken for nothing, and how deep processes nest. *)
Variables wakeups depth : nat.

(** ** User pointers *)

Definition user_memory (p : Z) : Y (list Z) :=
  gets (λ s, user_bytes (user_span (tlb_of s)) (tlb_of s) (ram s) p).
Definition user_pointer (p : Z) : Y (option (list Z)) :=
  if decide (p = 0) then mret None else b ← user_memory p; mret (Some b).

Definition user_result (p : Z) (old new : list Z) : Y unit :=
  t ← gets tlb_of;
  r ← gets ram;
  match user_store t p old new r with
  | inr r' => modify (λ s, s <| ram := r' |>)
  | inl e => zoom core_l (kernel_exception_handle e)
  end.

(** Run [m] on the user's buffer at [p] and store what it leaves there. *)
Definition with_buffer (p : Z) (m : option (list Z) → Y (Z * list Z)) : Y Z :=
  b ← user_pointer p;
  x ← m b;
  user_result p (default [] b) x.2;;
  mret x.1.

(** ** kernel/halt.c *)

(** kprintf uses the ports of the first terminal and the lock of its driver. *)
Definition console_l : lens sys_t (Xprintf.print_t D) :=
  Lens (λ s, Xprintf.Printing D (k_status (lget core_l s)) (term_slock (terminals s console)) []
           (Poll D iobase (term_io (terminals s console))))
    (λ p s, (lset core_l ((lget core_l s) <| k_status := Xprintf.p_status p |>) s) <| terminals := λ q,
       if decide (q = console) then
         TerminalT D (Xprintf.kprintf_slock p) (term_rd (terminals s console)) (poll_io (Xprintf.poll p))
       else terminals s q |>).
Definition kprintf (format : string) (ap : list Xprintf.arg_t) : Y unit :=
  zoom console_l (Xprintf.kprintf polls (cstring format) ap);; mret tt.

Definition halt_kernel : Y unit :=
  kprintf (line "Kernel: System shutdown started...") [];;
  vfs_deinit #vfs kprintf;;
  kprintf (line "Kernel: System shutdown complete, powering off") [];;
  shutdown L #devs kprintf descriptors POWEROFF_SHUTDOWN_MAGIC.

(** ** The console *)

(** The generic character device of the first terminal, and its terminal. *)
Definition console_gcd : Y gcd_t :=
  dev ← zoom #devs (device_get YAMS_TYPECODE_TTY 0);
  d ← zoom #devs (get_device dev);
  h ← gets (λ s, heap (devs s));
  match h !! generic_device d with Some (OGcd g) => mret g | _ => fault end.

Definition gcd_call_write (gcd : gcd_t) (buf : list Z) (len : Z) : Y Z :=
  if decide (gcd_write gcd = tty_write_addr L) then
    d ← zoom #devs (get_device (gcd_device gcd));
    let rd := real_device d in
    zoom (terminal_l rd) (tty_write (rd + WRITE_BUF) wakeups buf len)
  else fault.
Definition gcd_call_read (gcd : gcd_t) (buf : list Z) (len : Z) : Y (Z * list Z) :=
  if decide (gcd_read gcd = tty_read_addr L) then
    d ← zoom #devs (get_device (gcd_device gcd));
    let rd := real_device d in
    zoom (terminal_l rd) (tty_read (rd + READ_BUF) wakeups buf len)
  else fault.

(** ** proc/syscall.c *)

Definition syscall_write (fd p len : Z) : Y Z :=
  if decide (2 < fd) then
    b ← user_pointer p;
    zoom #vfs (vfs_write (i32 (fd - 3)) b len)
  else if decide (fd = FILEHANDLE_STDOUT ∨ fd = FILEHANDLE_STDERR) then
    gcd ← console_gcd;
    b ← user_memory p;
    gcd_call_write gcd b len
  else panic "Write syscall not finished yet.".

Definition syscall_read (fd p len : Z) : Y Z :=
  if decide (2 < fd) then
    with_buffer p (λ b, zoom #vfs (vfs_read (i32 (fd - 3)) b len))
  else if decide (fd = FILEHANDLE_STDIN) then
    gcd ← console_gcd;
    b ← user_memory p;
    x ← gcd_call_read gcd b len;
    user_result p b x.2;;
    mret x.1
  else panic "Read syscall not finished yet.".

Definition syscall_open (p : Z) : Y Z :=
  pathname ← user_memory p;
  ret ← zoom #vfs (vfs_open pathname);
  if decide (ret < 0) then mret ret else mret (i32 (ret + 3)).
Definition syscall_close (filehandle : Z) : Y Z := zoom #vfs (vfs_close (i32 (filehandle - 3))).
Definition syscall_create (p size : Z) : Y Z :=
  pathname ← user_memory p; zoom #vfs (vfs_create pathname size).
Definition syscall_delete (p : Z) : Y Z :=
  pathname ← user_memory p; zoom #vfs (vfs_remove pathname).
Definition syscall_seek (filehandle offset : Z) : Y Z := zoom #vfs (vfs_seek (i32 (filehandle - 3)) offset).
Definition syscall_filecount (p : Z) : Y Z :=
  name ← user_pointer p; zoom #vfs (vfs_filecount name).
Definition syscall_file (p index buffer : Z) : Y Z :=
  name ← user_pointer p;
  b ← user_memory buffer;
  x ← zoom #vfs (vfs_file name index b);
  user_result buffer b x.2;;
  mret x.1.

(** The value for register V0. *)
Definition answer (m : Y Z) : Y (option Z) := v ← m; mret (Some v).

(** The call that register A0 names: [None] leaves V0 alone. *)
Definition syscall_dispatch (A0 A1 A2 A3 : Z) : Y (option Z) :=
  match A0 with
  | SYSCALL_HALT => halt_kernel;; mret None
  | SYSCALL_EXEC =>
    name ← user_memory (u32 A1);
    answer (zoom process_l (process_spawn thread_stack_areas thread_finish_addr process_start_addr name))
  | SYSCALL_EXIT => zoom process_l (process_finish process_table_addr depth A1);; mret None
  | SYSCALL_JOIN => answer (zoom process_l (process_join process_table_addr wakeups A1))
  | SYSCALL_READ => answer (syscall_read (u32 A1) (u32 A2) A3)
  | SYSCALL_WRITE => answer (syscall_write (u32 A1) (u32 A2) A3)
  | SYSCALL_OPEN => answer (syscall_open (u32 A1))
  | SYSCALL_CLOSE => answer (syscall_close A1)
  | SYSCALL_SEEK => answer (syscall_seek A1 A2)
  | SYSCALL_CREATE => answer (syscall_create (u32 A1) A2)
  | SYSCALL_DELETE => answer (syscall_delete (u32 A1))
  | SYSCALL_FILECOUNT => answer (syscall_filecount (u32 A1))
  | SYSCALL_FILE => answer (syscall_file (u32 A1) A2 (u32 A3))
  | _ => panic "Unhandled system call\n"
  end.

Definition user_register (user_context r : Z) : Y Z :=
  c ← gets (λ s, k_contexts (lget core_l s) user_context);
  oread (arr_get (cpu_regs c) r).

Definition set_V0 (v : Z) (c : context_t) : context_t :=
  c <| cpu_regs := <[Z.to_nat MIPS_REGISTER_V0 := u32 v]> (cpu_regs c) |>.

Definition syscall_handle (user_context : Z) : Y unit :=
  A1 ← user_register user_context MIPS_REGISTER_A1;
  A2 ← user_register user_context MIPS_REGISTER_A2;
  A3 ← user_register user_context MIPS_REGISTER_A3;
  A0 ← user_register user_context MIPS_REGISTER_A0;
  ret ← syscall_dispatch A0 (i32 A1) (i32 A2) (i32 A3);
  (match ret with Some v => zoom core_l (upd_context user_context (set_V0 v)) | None => mret tt end);;
  zoom core_l (upd_context user_context (λ c, c <| pc := u32 (pc c + 4) |>)).

(** ** proc/exception.c *)

(** The messages are those of kernel_exception_handle, except for system calls. *)
Definition user_exception_handle (exception : Z) : Y unit :=
  zoom core_l (_interrupt_disable #k_status);;
  zoom core_l _interrupt_clear_EXL;;
  my_entry ← zoom core_l thread_get_current_thread_entry;
  e ← zoom core_l (get_thread my_entry);
  zoom core_l (upd_thread my_entry (λ t, t <| t_user_context := t_context e |>));;
  (match exception with
   | EXCEPTION_SYSCALL =>
     zoom core_l (_interrupt_enable #k_status);;
     e ← zoom core_l (get_thread my_entry);
     syscall_handle (t_user_context e);;
     zoom core_l (_interrupt_disable #k_status);;
     mret tt
   | _ => panic (exception_message exception)
   end);;
  zoom core_l _interrupt_set_EXL;;
  zoom core_l (_interrupt_enable #k_status);;
  mret tt.
End syscall.
End Syscall.
