(* ===== verification/SyscallSpec.v ===== *)
(** * Properties of system calls

    The way of a call from the exception to the driver and back: registers,
    user memory through the TLB, the handle numbers, and what stops the kernel. *)
From stdpp Require Import gmap.
From Stdlib Require Import FunctionalExtensionality.
From S2P Require Import Prelude Bytes Libc Cpu Kmalloc Pagepool Kstate Kinv Kservice Sleepq Semaphore Vm Thread Interrupt Device.
From S2P Require Import Tty TtySpec Process Sync Tfs TfsFile Vfs VfsFile VfsTfs Usermem Syscall.
Import Libc Kmalloc Sleepq Semaphore Vm Thread Interrupt Device Tty TtySpec Process Tfs TfsFile Vfs VfsFile VfsTfs Usermem Syscall.

Module SyscallSpec.

Section calls.
Context {F : Type} `{FileSystem F} {D : Type} `{TtyPorts D}.
Abbreviation sys := (sys_t (F := F) (D := D)).
Variables (L : layout) (descriptors : list io_descriptor).
Variables (printer iobase : Z) (polls : nat).
Variables thread_stack_areas thread_finish_addr process_table_addr process_start_addr : Z.
Variables wakeups depth : nat.
Abbreviation dispatch := (syscall_dispatch (F := F) (D := D) L descriptors printer iobase polls thread_stack_areas thread_finish_addr
  process_table_addr process_start_addr wakeups depth).
Abbreviation handle_exception := (user_exception_handle (F := F) (D := D) L descriptors printer iobase polls thread_stack_areas thread_finish_addr
  process_table_addr process_start_addr wakeups depth).

(** ** Entering and leaving the kernel *)

#[global] Instance core_l_laws : LensLaws (core_l (F := F) (D := D)).
Proof.
  split; [done| |done]. intros [[[]] ?????]. done.
Qed.

Lemma bind_core {A B} (m : M kstate A) (f : A → M sys B) s a k :
  m (lget core_l s) = Done a k → (zoom core_l m ≫= f) s = f a (lset core_l k s).
Proof. apply bind_zoom. Qed.

(** The thread that runs has its registers at [uc]. *)
Record caller (k : kstate) (uc A0 A1 A2 A3 : Z) : Prop := {
  ca_sizes : c_sizes (core_of k);
  ca_cpu : cpu_ok k;
  ca_entry : ∃ e, arr_get (thread_table k) (current k) = Some e ∧ t_context e = uc;
  ca_A0 : arr_get (cpu_regs (k_contexts k uc)) MIPS_REGISTER_A0 = Some A0;
  ca_A1 : arr_get (cpu_regs (k_contexts k uc)) MIPS_REGISTER_A1 = Some A1;
  ca_A2 : arr_get (cpu_regs (k_contexts k uc)) MIPS_REGISTER_A2 = Some A2;
  ca_A3 : arr_get (cpu_regs (k_contexts k uc)) MIPS_REGISTER_A3 = Some A3 }.

(** Interrupts are on again, and the registers are the thread's user context. *)
Definition entered (uc : Z) (k : kstate) : kstate :=
  k <| k_status := Z.lor 0x0000ff01 (Z.land (disabled (k_status k)) 0xfffffffd) |>
    <| thread_table := alter (λ t, t <| t_user_context := uc |>) (Z.to_nat (current k)) (thread_table k) |>.

(** The answer is in register V0 and the program goes on after the instruction. *)
Definition answered (uc : Z) (ret : option Z) (c : context_t) : context_t :=
  (match ret with Some v => set_V0 v c | None => c end) <| pc := u32 (pc c + 4) |>.
Definition left (uc : Z) (ret : option Z) (k : kstate) : kstate :=
  k <| k_contexts := λ b, if decide (b = uc) then answered uc ret (k_contexts k uc) else k_contexts k b |>
    <| k_status := Z.lor 0x0000ff01 (Z.lor (disabled (k_status k)) 0x00000002) |>.

Lemma bind_register {B} uc r v (f : Z → M sys B) s :
  arr_get (cpu_regs (k_contexts (lget core_l s) uc)) r = Some v → (user_register uc r ≫= f) s = f v s.
Proof. intros Hv. unfold user_register. rw bind_bind bind_gets. by rw Hv. Qed.

(** The context after the answer. *)
Definition answer_context (uc : Z) (ret : option Z) (k : kstate) : kstate :=
  k <| k_contexts := λ b, if decide (b = uc) then answered uc ret (k_contexts k uc) else k_contexts k b |>.

Definition put_context (uc : Z) (f : context_t → context_t) (k : kstate) : kstate :=
  k <| k_contexts := λ b, if decide (b = uc) then f (k_contexts k uc) else k_contexts k b |>.
Lemma put_answer uc v k :
  put_context uc (λ c, c <| pc := u32 (pc c + 4) |>) (put_context uc (set_V0 v) k) = answer_context uc (Some v) k.
Proof.
  assert (∀ g h, (∀ b, g b = h b) → k <| k_contexts := g |> = k <| k_contexts := h |>) as Hext.
  { intros g h Hgh. f_equal. apply functional_extensionality. intros _. by apply functional_extensionality. }
  refine (Hext (λ b, if decide (b = uc) then
      (let c := if decide (uc = uc) then set_V0 v (k_contexts k uc) else k_contexts k uc in c <| pc := u32 (pc c + 4) |>)
    else if decide (b = uc) then set_V0 v (k_contexts k uc) else k_contexts k b) _ _).
  intros b. by repeat case_decide.
Qed.

Lemma bind_ext {S A B} (m : M S A) (f g : A → M S B) s : (∀ a s', f a s' = g a s') → (m ≫= f) s = (m ≫= g) s.
Proof. intros Hfg. f_equal. apply functional_extensionality. intros a. by apply functional_extensionality. Qed.
Lemma alter_found {A} (f : A → A) (l : list A) i x : l !! i = Some x → alter f i l = <[i := f x]> l.
Proof. revert i. induction l as [|y l IH]; intros [|i] Hi; try done; cbn; f_equal; [by injection Hi as ->|by apply IH]. Qed.

Lemma handle_run uc A0 A1 A2 A3 k s ret s2 :
  caller k uc A0 A1 A2 A3 → lget core_l s = entered uc k →
  dispatch A0 (i32 A1) (i32 A2) (i32 A3) s = Done ret s2 →
  syscall_handle L descriptors printer iobase polls thread_stack_areas thread_finish_addr process_table_addr process_start_addr wakeups depth uc s =
    Done tt (lset core_l (answer_context uc ret (lget core_l s2)) s2).
Proof.
  intros [_ _ _ R0 R1 R2 R3] Hk Hrun. unfold syscall_handle.
  assert (∀ r v, arr_get (cpu_regs (k_contexts k uc)) r = Some v →
    arr_get (cpu_regs (k_contexts (lget core_l s) uc)) r = Some v) as Hreg by (intros r v; by rw Hk).
  rw (bind_register _ _ _ _ _ (Hreg _ _ R1)) (bind_register _ _ _ _ _ (Hreg _ _ R2)).
  rw (bind_register _ _ _ _ _ (Hreg _ _ R3)) (bind_register _ _ _ _ _ (Hreg _ _ R0)) (bind_Done _ _ _ _ _ Hrun).
  destruct ret as [v|].
  - erewrite bind_core; [|reflexivity]. unfold zoom. cbn [ozoom upd_context modify]. f_equal.
    rewrite lset_lset. f_equal. rewrite lget_lset. apply put_answer.
  - rw bind_ret. reflexivity.
Qed.

(** The kernel core when the cause of the exception is looked at. *)
Definition trapped (uc : Z) (k : kstate) : kstate :=
  k <| k_status := Z.land (disabled (k_status k)) 0xfffffffd |>
    <| thread_table := alter (λ t, t <| t_user_context := uc |>) (Z.to_nat (current k)) (thread_table k) |>.

Abbreviation handle := (syscall_handle (F := F) (D := D) L descriptors printer iobase polls thread_stack_areas thread_finish_addr process_table_addr
  process_start_addr wakeups depth).

Lemma exception_entry uc A0 A1 A2 A3 exception s :
  let k := lget core_l s in
  caller k uc A0 A1 A2 A3 →
  handle_exception exception s =
    ((match exception with
      | EXCEPTION_SYSCALL =>
        zoom core_l (_interrupt_enable #k_status);;
        e ← zoom core_l (get_thread (current k));
        handle (t_user_context e);;
        zoom core_l (_interrupt_disable #k_status);;
        mret tt
      | _ => panic (exception_message exception)
      end);;
     zoom core_l _interrupt_set_EXL;;
     zoom core_l (_interrupt_enable #k_status);;
     mret tt) (lset core_l (trapped uc k) s).
Proof.
  intros k [Hs [Hcpu Hst] (e & He & Hu) _ _ _ _]. unfold user_exception_handle.
  set (k1 := k <| k_status := Z.land (disabled (k_status k)) 0xfffffffd |>).
  assert (cpu_ok k1) as Hok1 by (split; [done|apply land_range; by apply disabled_range]).
  assert (get_thread (current k1) k1 = Done e k1) as Hget
    by (unfold get_thread; change (arr_get (thread_table k1) (current k1)) with (arr_get (thread_table k) (current k)); by rewrite He).
  assert (upd_thread (current k1) (λ t, t <| t_user_context := t_context e |>) k1 = Done tt (trapped uc k)) as Hupd.
  { unfold upd_thread. change (arr_get (thread_table k1) (current k1)) with (arr_get (thread_table k) (current k)). rewrite He Hu.
    apply arr_get_Some in He as [_ He]. unfold trapped. by rewrite (alter_found _ _ _ _ He). }
  rewrite (bind_core _ _ _ (k_status k) (kd k)); [reflexivity|].
  rewrite (bind_core _ _ _ tt k1); [reflexivity|]. rewrite lset_lset.
  rewrite (bind_core _ _ _ _ _ (thread_get_current_thread_run k1 Hs Hok1 : thread_get_current_thread_entry (lget core_l (lset core_l k1 s)) = _)).
  rewrite lset_lset (bind_core _ _ _ _ _ (Hget : get_thread _ (lget core_l (lset core_l k1 s)) = _)) lset_lset.
  by rewrite (bind_core _ _ _ _ _ (Hupd : upd_thread _ _ (lget core_l (lset core_l k1 s)) = _)) lset_lset.
Qed.

Lemma exception_calls uc A0 A1 A2 A3 s :
  caller (lget core_l s) uc A0 A1 A2 A3 →
  handle_exception EXCEPTION_SYSCALL s =
    (handle uc;;
     zoom core_l (_interrupt_disable #k_status);;
     zoom core_l _interrupt_set_EXL;;
     zoom core_l (_interrupt_enable #k_status);;
     mret tt) (lset core_l (entered uc (lget core_l s)) s).
Proof.
  intros Hc. pose proof Hc as [_ _ (e & He & Hu) _ _ _ _]. rewrite (exception_entry _ _ _ _ _ _ _ Hc).
  set (k := lget core_l s) in *. rewrite bind_bind (bind_core _ _ _ (k_status (trapped uc k)) (entered uc k)); [reflexivity|].
  rewrite lset_lset bind_bind.
  assert (get_thread (current k) (entered uc k) = Done (e <| t_user_context := uc |>) (entered uc k)) as Hget.
  { unfold get_thread, entered. unfold update at 1; cbn. apply arr_get_Some in He as [Hc0 He].
    rewrite (alter_found _ _ _ _ He). unfold arr_get. rewrite decide_True //.
    rewrite list_lookup_insert_eq //. by apply lookup_lt_Some in He. }
  rewrite (bind_core _ _ _ _ _ (Hget : get_thread _ (lget core_l (lset core_l (entered uc k) s)) = _)) lset_lset bind_bind.
  change (t_user_context _) with uc. apply bind_ext. intros [] s'. by rewrite bind_bind.
Qed.

(** A system call that returns: the caller finds the answer in V0 and goes on. *)
Lemma exception_run uc A0 A1 A2 A3 s ret s2 :
  caller (lget core_l s) uc A0 A1 A2 A3 →
  dispatch A0 (i32 A1) (i32 A2) (i32 A3) (lset core_l (entered uc (lget core_l s)) s) = Done ret s2 →
  handle_exception EXCEPTION_SYSCALL s = Done tt (lset core_l (left uc ret (lget core_l s2)) s2).
Proof.
  intros Hc Hrun. rewrite (exception_calls _ _ _ _ _ _ Hc).
  rewrite (bind_Done _ _ _ _ _ (handle_run uc _ _ _ _ _ (lset core_l (entered uc (lget core_l s)) s) ret s2 Hc eq_refl Hrun)).
  set (k3 := answer_context _ _ _). rewrite (bind_core _ _ _ (k_status k3) (kd k3)); [reflexivity|].
  rewrite lset_lset (bind_core _ _ _ tt ((kd k3) <| k_status := Z.lor (disabled (k_status k3)) 2 |>)); [reflexivity|].
  rewrite lset_lset (bind_core _ _ _ (k_status ((kd k3) <| k_status := Z.lor (disabled (k_status k3)) 2 |>)) (left uc ret (lget core_l s2))); [reflexivity|].
  by rewrite lset_lset.
Qed.

(** A call that stops the kernel. *)
Lemma exception_panic uc A0 A1 A2 A3 s msg :
  caller (lget core_l s) uc A0 A1 A2 A3 →
  dispatch A0 (i32 A1) (i32 A2) (i32 A3) (lset core_l (entered uc (lget core_l s)) s) = Panic msg →
  handle_exception EXCEPTION_SYSCALL s = Panic msg.
Proof.
  intros Hc Hrun. rewrite (exception_calls _ _ _ _ _ _ Hc). pose proof Hc as [_ _ _ R0 R1 R2 R3].
  set (s1 := lset core_l (entered uc (lget core_l s)) s) in *.
  assert (∀ r v, arr_get (cpu_regs (k_contexts (lget core_l s) uc)) r = Some v →
    arr_get (cpu_regs (k_contexts (lget core_l s1) uc)) r = Some v) as Hreg by done.
  assert (handle uc s1 = Panic msg) as Hh.
  { unfold syscall_handle.
    rewrite (bind_register _ _ _ _ _ (Hreg _ _ R1)) (bind_register _ _ _ _ _ (Hreg _ _ R2)).
    rewrite (bind_register _ _ _ _ _ (Hreg _ _ R3)) (bind_register _ _ _ _ _ (Hreg _ _ R0)).
    unfold mbind at 1, M_bind at 1. by rewrite Hrun. }
  unfold mbind at 1, M_bind at 1. by rewrite Hh.
Qed.

(** ** User buffers *)

Lemma with_buffer_run p len at_ m (s : sys) r sl (s2 : sys) :
  let b := user_bytes (user_span (tlb_of s)) (tlb_of s) (ram s) p in
  p ≠ 0 → mapped (tlb_of s) p len at_ → Z.of_nat (length sl) ≤ len →
  m (Some b) s = Done (r, splice b 0 sl) s2 → tlb_of s2 = tlb_of s → ram s2 = ram s →
  ∃ ram', with_buffer p m s = Done r (s2 <| ram := ram' |>) ∧
    (∀ i c, arr_get sl i = Some c → ram' (at_ i) = c) ∧
    (∀ a, (∀ i, 0 ≤ i < Z.of_nat (length sl) → at_ i ≠ a) → ram' a = ram s a).
Proof.
  intros b Hp Hm Hl Hrun Ht Hr.
  pose proof (user_bytes_long (user_span (tlb_of s)) (tlb_of s) (ram s) p len at_ (mp_at _ _ _ _ Hm) (mp_span _ _ _ _ Hm)) as Hb.
  fold b in Hb.
  destruct (user_store_run (tlb_of s) b p len at_ (splice b 0 sl) (ram s)) as (ram' & Hst & Hnew & Hkeep).
  - apply Hm.
  - apply Hm.
  - rewrite length_splice; lia.
  - intros i Hi. destruct (decide (0 ≤ i)); [|unfold arr_get; by rewrite !decide_False].
    rewrite arr_get_splice; [lia..|]. by rewrite decide_False; [lia|].
  - intros i c Hi Hc. rewrite (mapped_bytes _ _ _ _ _ _ Hm Hi : arr_get b i = _) in Hc. by injection Hc.
  - exists ram'. split; [|split].
    + unfold with_buffer, user_pointer. rewrite decide_False // bind_bind. unfold user_memory. rewrite bind_gets bind_ret.
      rewrite (bind_Done _ _ _ _ _ Hrun). cbn [default fst snd]. unfold user_result. rewrite bind_bind bind_gets bind_bind bind_gets.
      rewrite Ht Hr. fold b. by rewrite Hst.
    + intros i c Hc. pose proof (arr_get_lt _ _ _ Hc). apply Hnew; [lia|]. rewrite arr_get_splice; [lia..|].
      rewrite decide_True; [lia|]. by rewrite Z.sub_0_r.
    + intros a Ha. apply Hkeep. intros i Hi Hne Heq. apply (Ha i); [|done].
      destruct (decide (i < Z.of_nat (length sl))); [lia|]. destruct Hne. rewrite arr_get_splice; [lia..|]. by rewrite decide_False; [lia|].
Qed.

(** The numbers syscall_handle knows. *)
Definition syscalls : list Z :=
  [SYSCALL_HALT; SYSCALL_EXEC; SYSCALL_EXIT; SYSCALL_JOIN; SYSCALL_READ; SYSCALL_WRITE; SYSCALL_OPEN; SYSCALL_CLOSE;
   SYSCALL_SEEK; SYSCALL_CREATE; SYSCALL_DELETE; SYSCALL_FILECOUNT; SYSCALL_FILE].

Lemma dispatch_unknown A0 A1 A2 A3 s : A0 ∉ syscalls → dispatch A0 A1 A2 A3 s = Panic "Unhandled system call\n".
Proof.
  intros Hn. destruct A0 as [|p|p]; try done. unfold syscalls in Hn.
  do 10 (try (destruct p as [p|p|]; try done)); exfalso; apply Hn; rewrite !elem_of_cons; tauto.
Qed.

(** C22 (error): every exception of a user program other than a system call stops the
    kernel with the message of its cause, and so does a system call whose number
    syscall_handle does not know; the numbers of the user semaphores are such. *)
Theorem user_exception_stops uc A0 A1 A2 A3 exception s :
  caller (lget core_l s) uc A0 A1 A2 A3 →
  (exception = EXCEPTION_SYSCALL → A0 ∉ syscalls) →
  handle_exception exception s =
    Panic (if decide (exception = EXCEPTION_SYSCALL) then "Unhandled system call\n" else exception_message exception).
Proof.
  intros Hc Hn. case_decide as He.
  - subst. apply (exception_panic _ _ _ _ _ _ _ Hc). apply dispatch_unknown. by apply Hn.
  - rewrite (exception_entry _ _ _ _ _ _ _ Hc). destruct exception as [|p|p]; [done| |done].
    destruct p as [p|[p|[p|[p|p|]|]|]|]; try done; by destruct He.
Qed.


Lemma exception_returns uc A0 A1 A2 A3 s ret s2 :
  caller (lget core_l s) uc A0 A1 A2 A3 → let s1 := lset core_l (entered uc (lget core_l s)) s in
  dispatch A0 (i32 A1) (i32 A2) (i32 A3) s1 = Done ret s2 → lget core_l s2 = lget core_l s1 →
  ∃ s', handle_exception EXCEPTION_SYSCALL s = Done tt s' ∧ lget core_l s' = left uc ret (entered uc (lget core_l s)) ∧
    vfs s' = vfs s2 ∧ ram s' = ram s2.
Proof.
  intros Hc s1 Hrun Hk. eexists. split; [by apply (exception_run _ _ _ _ _ _ _ _ Hc Hrun)|]. rewrite Hk. done.
Qed.

(** ** Opening a file *)

(** SYSCALL_OPEN answers the handle of vfs_open shifted past the three handles of the
    console, or its error. *)
Lemma user_opens_file (dr : Z → F) (opened : Z → list Z → Z * F) uc p x y l fss fl u n (s : sys) :
  (∀ q buf name, cstr buf = Some name → fs_open buf (dr q) = Done (opened q name).1 (opened q name).2) →
  caller (lget core_l s) uc SYSCALL_OPEN p x y → 0 ≤ p < 2 ^ 32 →
  vfs s = vfs_at fss fl u n dr → tables_ok fss fl → 0 ≤ n →
  cstr (user_bytes (user_span (tlb_of s)) (tlb_of s) (ram s) p) = Some l →
  let r := (open_spec dr opened l fss fl u n).1 in
  ∃ s', handle_exception EXCEPTION_SYSCALL s = Done tt s' ∧
    lget core_l s' = left uc (Some (if decide (r < 0) then r else i32 (r + 3))) (entered uc (lget core_l s)) ∧
    vfs s' = (open_spec dr opened l fss fl u n).2 ∧ ram s' = ram s.
Proof.
  intros Ho Hc Hp Hv Ht Hn Hl r. set (s1 := lset core_l (entered uc (lget core_l s)) s).
  pose proof (vfs_open_run dr opened Ho _ l fss fl u n Ht Hn Hl) as Hrun. fold r in Hrun.
  destruct (exception_returns uc _ _ _ _ s (Some (if decide (r < 0) then r else i32 (r + 3)))
    (s1 <| vfs := (open_spec dr opened l fss fl u n).2 |>) Hc) as (s' & E & Hcore & Hvfs & Hram); [|done|by exists s'].
  unfold syscall_dispatch, answer, syscall_open. rewrite u32_i32 u32_small // bind_bind. unfold user_memory. rewrite bind_gets bind_bind.
  erewrite bind_zoom; [|change (lget #vfs _) with (vfs s); rewrite Hv; exact Hrun]. fold s1 r. by case_decide.
Qed.

(** ** The console *)

(** The first terminal, in whose driver the buffers are at [rd]. *)
Record console (s : dev_t) (rd : Z) : Prop := {
  cs_device : ∃ a d g, device_get YAMS_TYPECODE_TTY 0 s = Done a s ∧ heap s !! a = Some (ODevice d) ∧
    heap s !! generic_device d = Some (OGcd g) ∧ gcd_device g = a ∧ real_device d = rd ∧
    gcd_write g = tty_write_addr L ∧ gcd_read g = tty_read_addr L }.

Lemma bind_console {A} rd (s : sys) (f : gcd_t → M sys A) :
  console (devs s) rd → ∃ g d, (console_gcd ≫= f) s = f g s ∧ heap (devs s) !! gcd_device g = Some (ODevice d) ∧
    real_device d = rd ∧ gcd_write g = tty_write_addr L ∧ gcd_read g = tty_read_addr L.
Proof.
  intros [(a & d & g & Hg & Ha & Hd & E1 & E2 & E3 & E4)]. exists g, d. split_and!; try done; [|by rewrite E1].
  assert (∀ x : dev_t, x = devs s → s <| devs := x |> = s) as Hid by (intros x ->; by destruct s).
  unfold console_gcd. rewrite bind_bind. erewrite bind_zoom; [|exact Hg]. cbn [lset]. rewrite Hid // bind_bind.
  erewrite bind_zoom; [|change (lget #devs s) with (devs s); unfold get_device; rewrite bind_gets Ha; reflexivity].
  cbn [lset]. rewrite Hid // bind_bind bind_gets Hd. done.
Qed.

(** C12 (refinement): a write to standard output or standard error hands the bytes of
    the user's buffer to the first terminal: the call is a run of the terminal's
    driver that delivers exactly those bytes, in order and each once. *)
Theorem user_writes_console `{!TtyLaws D} fd p len at_ rd q (s : sys) :
  let t := terminals s rd in
  console (devs s) rd → fd = FILEHANDLE_STDOUT ∨ fd = FILEHANDLE_STDERR →
  0 ≤ len → mapped (tlb_of s) p len at_ →
  kern_ok (lget core_l s) q → running (lget core_l s) → u32 (rd + WRITE_BUF) ≠ 0 → wring (term_rd t) → term_slock t = 0 →
  ∃ o buf, syscall_write L (S wakeups) fd p len s = ozoom (terminal_l rd) s o ∧
    delivers (rd + WRITE_BUF) wakeups (current (lget core_l s)) (output (term_rd t) (term_io t)) buf len o ∧
    Z.of_nat (length buf) = len ∧ ∀ i, 0 ≤ i < len → arr_get buf i = Some (ram s (at_ i)).
Proof.
  intros t Hcs Hfd Hlen Hm Hk Hr Ha Hw Hl. set (b := user_bytes (user_span (tlb_of s)) (tlb_of s) (ram s) p).
  assert (len ≤ Z.of_nat (length b)) as Hb by (eapply user_bytes_long; apply Hm).
  exists (tty_write (rd + WRITE_BUF) (S wakeups) b len (lget (terminal_l rd) s)), (slice b 0 len). split_and!.
  - unfold syscall_write. rewrite decide_False; [unfold FILEHANDLE_STDOUT, FILEHANDLE_STDERR in *; lia|]. rewrite decide_True //.
    destruct (bind_console rd s (λ gcd, b ← user_memory p; gcd_call_write L (S wakeups) gcd b len) Hcs) as (g & d & Hg & Hd & E1 & E2 & _).
    rewrite Hg. unfold user_memory. rewrite bind_gets. fold b. unfold gcd_call_write. rewrite decide_True //.
    erewrite bind_zoom; [|change (lget #devs s) with (devs s); unfold get_device; rewrite bind_gets Hd; reflexivity].
    assert (lset #devs (devs s) s = s) as -> by (by destruct s). by rewrite E1.
  - cbn [terminal_l lget]. fold t. rewrite Hl. by apply (tty_write_run _ (lget core_l s) q).
  - rewrite length_slice; lia.
  - intros i Hi. rewrite arr_get_slice; [lia..|]. by apply (mapped_bytes _ _ _ len).
Qed.

(** ** Calls that stop the kernel *)

(** Handles 0, 1 and 2 are not open files: closing one of them fails the assertion
    of vfs_verify_open. *)
Lemma close_console_panics fd uc x y fss fl u n dr (s : sys) :
  caller (lget core_l s) uc SYSCALL_CLOSE fd x y → 0 ≤ fd ≤ 2 → vfs s = vfs_at fss fl u n dr →
  handle_exception EXCEPTION_SYSCALL s = Panic "Assertion failed".
Proof.
  intros Hc Hfd Hv. apply (exception_panic _ _ _ _ _ _ _ Hc).
  unfold syscall_dispatch, answer, syscall_close. rewrite (i32_small fd); [lia|]. rewrite i32_small; [lia|].
  assert (vfs_close (fd - 3) (vfs_at fss fl u n dr) = Panic "Assertion failed") as Hp.
  { unfold vfs_close, vfs_at. rewrite bind_start. destruct (decide (VFS_OK ≠ VFS_OK)) as [Hx|_]; [by destruct Hx|].
    rewrite bind_sem_P //. unfold vfs_verify_open. rewrite bind_bind bind_assert_fails //. lia. }
  unfold mbind, M_bind, zoom. change (lget #vfs _) with (vfs s). by rewrite Hv Hp.
Qed.

(** So do reading standard output and writing standard input. *)
Lemma console_direction_panics uc fd p len (s : sys) :
  (caller (lget core_l s) uc SYSCALL_READ fd p len → 1 ≤ fd ≤ 2 →
   handle_exception EXCEPTION_SYSCALL s = Panic "Read syscall not finished yet.") ∧
  (caller (lget core_l s) uc SYSCALL_WRITE 0 p len →
   handle_exception EXCEPTION_SYSCALL s = Panic "Write syscall not finished yet.").
Proof.
  split; [intros Hc Hfd|intros Hc]; apply (exception_panic _ _ _ _ _ _ _ Hc); unfold syscall_dispatch, answer.
  - unfold syscall_read. rewrite !u32_i32 (u32_small fd); [lia|].
    rewrite decide_False; [lia|]. rewrite decide_False; [unfold FILEHANDLE_STDIN; lia|]. done.
  - done.
Qed.
End calls.

(** ** Files of the trivial file system *)

Section files.
Context {B : Type} `{Gbd B} `{!GbdLaws B} (works : B → Prop) `{!GbdReliable B works}.
Context {D : Type} `{TtyPorts D}.
Variables (L : layout) (descriptors : list io_descriptor).
Variables (printer iobase : Z) (polls : nat).
Variables thread_stack_areas thread_finish_addr process_table_addr process_start_addr : Z.
Variables wakeups depth : nat.
Abbreviation sys := (sys_t (F := volume (D := B)) (D := D)).
Abbreviation handle_exception := (user_exception_handle (F := volume (D := B)) (D := D) L descriptors printer iobase polls thread_stack_areas
  thread_finish_addr process_table_addr process_start_addr wakeups depth).

(** C1 (functional): the system call SYSCALL_READ on the handle of an open file, with
    a buffer the program has mapped, puts the bytes of the file from the file's
    position on into the buffer, as many as were asked for or as the file has left,
    answers their number in V0, moves the position and changes no other byte of
    physical memory and nothing of the kernel core but the caller's registers. *)
Theorem user_reads_file uc file p n at_ fss fl u k dr e img (s : sys) :
  caller (lget core_l s) uc SYSCALL_READ (file + 3) p n →
  vfs s = vfs_at fss fl u k dr → 0 ≤ k →
  reads_file works dr fl file e img → 0 ≤ seek_position e ≤ fsize img (fileid e) →
  0 < p < 2 ^ 32 → 0 ≤ n < 2 ^ 31 → mapped (tlb_of s) p n at_ →
  let count := Z.min n (fsize img (fileid e) - seek_position e) in
  ∃ s', handle_exception EXCEPTION_SYSCALL s = Done tt s' ∧
    lget core_l s' = left uc (Some count) (entered uc (lget core_l s)) ∧
    (∀ i, 0 ≤ i < count → arr_get (fbytes img (fileid e)) (seek_position e + i) = Some (ram s' (at_ i))) ∧
    (∀ a, (∀ i, 0 ≤ i < count → at_ i ≠ a) → ram s' a = ram s a) ∧
    ∃ fl' dr', vfs s' = vfs_at fss fl' u k dr' ∧ reads_file works dr' fl' file (e <| seek_position := seek_position e + count |>) img.
Proof.
  intros Hc Hv Hk R Hpos Hp Hn Hm count. pose proof (rf_file _ _ _ _ _ _ R) as Hf.
  assert (img_ok img) as Himg by (intros b; rewrite -(rf_image _ _ _ _ _ _ R); by apply (image_ok works), R).
  set (s1 := lset core_l (entered uc (lget core_l s)) s).
  set (b := user_bytes (user_span (tlb_of s1)) (tlb_of s1) (ram s1) p).
  assert (n ≤ Z.of_nat (length b)) as Hb by (eapply user_bytes_long; apply Hm).
  destruct (vfs_read_file works fss fl u k dr file e img b n R Hpos Hk) as (fl' & dr' & Hrun & R'); [lia|]. fold count in Hrun, R'.
  assert (0 ≤ count ≤ n) as Hcount by lia.
  set (bytes := slice (fbytes img (fileid e)) (seek_position e) count) in *.
  assert (length bytes = Z.to_nat count) as Hlen.
  { unfold bytes. pose proof (rf_ok _ _ _ _ _ _ R) as Hok. pose proof (fo_size _ _ _ Hok). apply length_slice; [lia..|]. rewrite length_fbytes //; lia. }
  destruct (with_buffer_run p n at_ (λ b, zoom #vfs (vfs_read (i32 (file + 3 - 3)) b n)) s1 count bytes
    (s1 <| vfs := vfs_at fss fl' u k dr' |>)) as (ram' & Hw & Hnew & Hkeep); [lia|done|lia| |done|done|].
  { rewrite Z.add_simpl_r i32_small; [lia|]. unfold zoom. change (lget #vfs s1) with (vfs s). rewrite Hv Hrun. done. }
  destruct (exception_returns L descriptors printer iobase polls thread_stack_areas thread_finish_addr process_table_addr process_start_addr wakeups depth
    uc _ _ _ _ s (Some count) ((s1 <| vfs := vfs_at fss fl' u k dr' |>) <| ram := ram' |>) Hc) as (s' & E & Hcore & Hvfs & Hram).
  { unfold syscall_dispatch. rewrite !u32_i32 !u32_small; [lia..|]. rewrite (i32_small n); [lia|].
    unfold answer, syscall_read. rewrite decide_True; [lia|]. by rewrite (bind_Done _ _ _ _ _ Hw). }
  { done. }
  exists s'. split_and!; [done|done| | |].
  - intros i Hi. rewrite Hram. assert (arr_get bytes i = arr_get (fbytes img (fileid e)) (seek_position e + i)) as <-
      by (apply arr_get_slice; lia).
    destruct (arr_get_is_Some bytes i) as [c Hc']; [lia|]. rewrite Hc'. f_equal. symmetry. by apply Hnew.
  - intros a Ha. rewrite Hram. apply Hkeep. intros i Hi. apply Ha. lia.
  - exists fl', dr'. split; [by rewrite Hvfs|done].
Qed.
End files.

(** ** A machine with a console, a mounted volume and a page of user memory *)

Definition example_tlb : tlb_t :=
  Tlb [TlbEntry 0 1 0 0 0 0 9 1 1 0] 1.
Definition example_console : gmap Z object :=
  {[0x80040000 := ODevice (DeviceT 0x80040020 0x80040014 None 0xb0008020 0x201);
    0x80040014 := OGcd (Gcd 0x80040000 0x80012000 0x80012100)]}.
Definition example_layout : layout :=
  Layout 0x80010100 0x80010120 0x80010140 0x80010160 0x80012000 0x80012100 0x80012200 0x80012300 0x80012400
    0x80012500 0x80012600 0x80012700 0x80012800.
Definition example_devs (regs : list Z) : dev_t :=
  Dev (IntState unit (example_running <| k_contexts := λ _, Context regs 0 0 0x2000 0 0 |>)
      (Kmalloc 0x80060000 0x80400000) (Vm.Vm (Pagepool.Pagepool.Pagepool [] 0 0 0 0 0 (Kmalloc 0x80060000 0x80400000)) []) example_tlb [] [] [] [] [] tt)
    example_console (0x80040000 :: replicate 127 0) 1 1 false false false [].
Definition example_registers (A0 A1 A2 A3 : Z) : list Z := [0; 0; 0; A0; A1; A2; A3] ++ replicate 22 0.
Definition example_system (A0 A1 A2 A3 : Z) : sys_t (F := volume (D := ramdisk)) (D := terminal) :=
  Sys (example_devs (example_registers A0 A1 A2 A3)) [] 0 example_vfs
    (λ _, TerminalT terminal 0 empty_tty (Terminal [] [])) (λ a, if decide (a = 0x9000) then 104 else if decide (a = 0x9001) then 105 else 0).

Lemma example_caller A0 A1 A2 A3 : caller (lget core_l (example_system A0 A1 A2 A3)) 0 A0 A1 A2 A3.
Proof.
  constructor; try done. eexists. split; [vm_compute; reflexivity|reflexivity].
Qed.

Lemma example_mapped A0 A1 A2 A3 : mapped (tlb_of (example_system A0 A1 A2 A3)) 0x1000 4 (λ i, 0x9000 + i).
Proof.
  constructor.
  - intros i Hi. assert (i = 0 ∨ i = 1 ∨ i = 2 ∨ i = 3) as [ -> | [ -> | [ -> | -> ] ] ] by lia; by vm_compute.
  - intros i j _ _ Hij. lia.
  - vm_compute. congruence.
Qed.

Lemma user_exception_stops_witness :
  user_exception_handle example_layout [] 0 0 0 0 0 0 0 0 0 EXCEPTION_SYSCALL (example_system 0x300 0 0 0) =
    Panic "Unhandled system call\n".
Proof.
  apply (user_exception_stops example_layout [] 0 0 0 0 0 0 0 0 0 0 0x300 0 0 0 EXCEPTION_SYSCALL).
  - apply example_caller.
  - intros _. by apply (bool_decide_unpack _).
Defined.

Lemma user_reads_file_witness :
  ∃ s', user_exception_handle example_layout [] 0 0 0 0 0 0 0 0 0 EXCEPTION_SYSCALL (example_system SYSCALL_READ 3 0x1000 4) = Done tt s' ∧
    arr_get (cpu_regs (k_contexts (lget core_l s') 0)) MIPS_REGISTER_V0 = Some 4.
Proof.
  destruct (user_reads_file (λ _, True) example_layout [] 0 0 0 0 0 0 0 0 0 0 0 0x1000 4 (λ i, 0x9000 + i)
    example_mounts example_files 0 0 (λ _, example_driver) (OpenFile 64 3 500) (image example_volume)
    (example_system SYSCALL_READ 3 0x1000 4)) as (s' & E & Hk & _).
  - apply example_caller.
  - done.
  - lia.
  - constructor; [lia|reflexivity|discriminate|exact example_volume_mounted|reflexivity|reflexivity|exact example_file_ok].
  - cbn [seek_position fileid]. rewrite example_size. lia.
  - lia.
  - lia.
  - apply example_mapped.
  - exists s'. split; [exact E|]. rewrite Hk. cbn [seek_position fileid]. rewrite example_size. by vm_compute.
Defined.

Lemma user_writes_console_witness :
  ∃ o, syscall_write example_layout 1 1 0x1000 4 (example_system 0 0 0 0) =
      ozoom (terminal_l 0x80040020) (example_system 0 0 0 0) o ∧
    delivers (0x80040020 + WRITE_BUF) 0 1 [] [104; 105; 0; 0] 4 o.
Proof.
  destruct example_tty_kernel as [Hk Hr].
  destruct (user_writes_console example_layout 0 1 0x1000 4 (λ i, 0x9000 + i) 0x80040020 (Queues.Queues [] (λ _, []))
    (example_system 0 0 0 0)) as (o & buf & E & Hd & Hl & Hb).
  - constructor. eexists _, _, _. split_and!; by vm_compute.
  - by left.
  - lia.
  - apply example_mapped.
  - destruct Hk as [K1 [K2 K3] K4 K5 K6]. constructor; try done.
  - destruct Hr. by constructor.
  - done.
  - apply empty_tty_ok.
  - done.
  - exists o. split; [exact E|]. assert (buf = [104; 105; 0; 0]) as <-; [|exact Hd].
    destruct buf as [|b0 [|b1 [|b2 [|b3 [|]]]]]; cbn in Hl; try lia.
    pose proof (Hb 0 ltac:(lia)) as H0. pose proof (Hb 1 ltac:(lia)) as H1. pose proof (Hb 2 ltac:(lia)) as H2.
    pose proof (Hb 3 ltac:(lia)) as H3. vm_compute in H0, H1, H2, H3. congruence.
Defined.
End SyscallSpec.
