(* ===== verification/Start.v ===== *)
(** * Starting a program (process_start of proc/process.c)

    On the state of [Syscall]: the address space is built in the page table of
    the thread and written to the TLB, and the segments are stored through it.
    Interrupts can come between its steps: a timer interrupt switches threads and
    fills the TLB from the page table of the thread that runs on. *)
From S2P Require Import Prelude Bytes Cpu Kstate Pagepool Vm Thread Interrupt Device Tty Process Vfs Elf Usermem Syscall.
Import Pagepool Vm Thread Interrupt Device Tty Process Vfs Elf Usermem Syscall.

Module Start.

Definition USERLAND_STACK_TOP : Z := 0x7fffeffc.
Definition CONFIG_USERLAND_STACK_SIZE : Z := 1.
Definition PAGE_SIZE_MASK : Z := 0xfffff000.

(** The page table at an address. *)
Fixpoint tables_set (l : list (Z * pagetable_t)) (a : Z) (pt : pagetable_t) : list (Z * pagetable_t) :=
  match l with
  | [] => []
  | (b, x) :: l' => if decide (a = b) then (b, pt) :: l' else (b, x) :: tables_set l' a pt
  end.

Definition on_table {A} (a : Z) (m : M pagetable_t A) : M vm_t A := fun v =>
  match tables_get (vm_tables v) a with
  | None => Fault
  | Some pt =>
    ozoom (Lens (λ v, default pt (tables_get (vm_tables v) a)) (λ pt v, v <| vm_tables := tables_set (vm_tables v) a pt |>))
      v (m pt)
  end.

Section start.
Context {F : Type} `{FileSystem F} {D : Type} `{TtyPorts D}.
Abbreviation Y A := (M (sys_t (F := F) (D := D)) A).

Definition memory_l : lens (sys_t (F := F) (D := D)) vm_t :=
  Lens (λ s, Interrupt.memory (ints (devs s)))
    (λ m s, s <| devs := (devs s) <| ints := (ints (devs s)) <| Interrupt.memory := m |> |> |>).
Definition tlb_l : lens (sys_t (F := F) (D := D)) tlb_t :=
  Lens tlb_of (λ t s, s <| devs := (devs s) <| ints := (ints (devs s)) <| tlb := t |> |> |>).

(** What a page holds before it is used, the elf_info_t and the address of the
    context_t on the kernel stack, and the way to user mode. *)
Variable ram_entries : Z → list tlb_entry.
Variable elf0 : elf_info_t.
Variable user_context : Z.
Variable _cswitch_to_userland : Z → M kstate unit.

(** What interrupts, and the threads they switch to, do before the statement of
    process.c at a line, in a turn of its loop.  Those inside the routines it
    calls are taken to come before the call. *)
Variable preempt : Z → Z → Y unit.
(** They come only while the status register enables them. *)
Definition interrupts (lineno turn : Z) : Y unit :=
  status ← gets (λ s, k_status (lget core_l s));
  if decide (Z.land status 3 = 1) then preempt lineno turn else mret tt.

Definition my_pagetable (my_entry : Z) : Y Z :=
  e ← zoom core_l (get_thread my_entry); mret (t_pagetable e).

(** The loop at a line that allocates and maps the [n] pages at [vaddr i]. *)
Definition map_pages (lineno my_entry : Z) (n : Z) (vaddr : Z → Z) : Y unit :=
  for_loop (Z.to_nat n) 0 (λ i,
    interrupts lineno i;;
    phys_page ← zoom memory_l (zoom #vm_pool pagepool_get_phys_page);
    kernel_assert (bool_decide (phys_page ≠ 0));;
    interrupts (lineno + 3) i;;
    pagetable ← my_pagetable my_entry;
    zoom memory_l (on_table pagetable (vm_map phys_page (vaddr i) 1))).

Definition fill_tlb (my_entry : Z) : Y unit :=
  intr_status ← zoom core_l (_interrupt_disable #k_status);
  pagetable ← my_pagetable my_entry;
  pt ← gets (λ s, tables_get (vm_tables (lget memory_l s)) pagetable);
  (match pt with
   | None => if decide (pagetable = 0) then mret tt else fault
   | Some pt => zoom tlb_l (tlb_fill (Some pt))
   end);;
  zoom core_l (_interrupt_set_state #k_status intr_status);;
  mret tt.

(** memoryset on user memory, byte by byte; an access the TLB refuses is an
    exception of the kernel. *)
Definition user_memoryset (lineno target value size : Z) : Y unit :=
  for_loop (Z.to_nat size) 0 (λ i,
    interrupts lineno i;;
    t ← gets tlb_of;
    r ← gets ram;
    match user_fill 1 t (u32 (target + i)) value r with
    | inr r' => modify (λ s, s <| ram := r' |>)
    | inl e => zoom core_l (kernel_exception_handle e)
    end).

(** Copy a segment from the file. *)
Definition copy_segment (lineno file location size vaddr : Z) : Y unit :=
  if decide (0 < size) then
    kernel_assert (bool_decide (PAGE_SIZE ≤ vaddr));;
    interrupts (lineno + 3) 0;;
    ret ← zoom #vfs (vfs_seek file (i32 location));
    kernel_assert (bool_decide (ret = VFS_OK));;
    interrupts (lineno + 4) 0;;
    ret ← with_buffer vaddr (λ b, zoom #vfs (vfs_read file b (i32 size)));
    kernel_assert (bool_decide (ret = i32 size))
  else mret tt.

(** The beginning of process_start: the thread becomes the process and gets a page
    table and an address space number. *)
Definition new_address_space (pid : Z) : Y (Z * process_t) :=
  interrupts 123 0;;
  my_entry ← zoom core_l thread_get_current_thread_entry;
  zoom core_l (upd_thread my_entry (λ t, t <| t_process_id := pid |>));;
  p ← zoom process_l (get_proc pid);
  pagetable ← my_pagetable my_entry;
  kernel_assert (bool_decide (pagetable = 0));;
  interrupts 132 0;;
  tid ← zoom core_l thread_get_current_thread;
  pagetable ← zoom memory_l (vm_create_pagetable ram_entries tid);
  kernel_assert (bool_decide (pagetable ≠ 0));;
  interrupts 135 0;;
  intr_status ← zoom core_l (_interrupt_disable #k_status);
  zoom core_l (upd_thread my_entry (λ t, t <| t_pagetable := pagetable |>));;
  tid ← zoom core_l thread_get_current_thread;
  zoom tlb_l (modify (_tlb_set_asid tid));;
  zoom core_l (_interrupt_set_state #k_status intr_status);;
  mret (my_entry, p).

Definition process_start (pid : Z) : Y unit :=
  y ← new_address_space pid;
  let '(my_entry, p) := y in
  interrupts 144 0;;
  file ← zoom #vfs (vfs_open (executable p));
  kernel_assert (bool_decide (0 ≤ file));;
  interrupts 147 0;;
  x ← zoom #vfs (elf_parse_header elf0 file);
  kernel_assert (bool_decide (x.1 ≠ 0));;
  let elf := x.2 in
  kernel_assert (bool_decide (PAGE_SIZE ≤ entry_point elf));;
  interrupts 155 0;;
  maxindex ← gets (λ s, _tlb_get_maxindex (tlb_of s));
  kernel_assert (bool_decide (u32 (ro_pages elf + rw_pages elf + CONFIG_USERLAND_STACK_SIZE) ≤ maxindex + 1));;
  map_pages 159 my_entry CONFIG_USERLAND_STACK_SIZE (λ i, Z.land USERLAND_STACK_TOP PAGE_SIZE_MASK - i * PAGE_SIZE);;
  interrupts 169 0;;
  fill_tlb my_entry;;
  map_pages 178 my_entry (i32 (ro_pages elf)) (λ i, u32 (ro_vaddr elf + i * PAGE_SIZE));;
  map_pages 185 my_entry (i32 (rw_pages elf)) (λ i, u32 (rw_vaddr elf + i * PAGE_SIZE));;
  user_memoryset 193 (ro_vaddr elf) 0 (i32 (u32 (ro_pages elf * PAGE_SIZE)));;
  user_memoryset 194 (rw_vaddr elf) 0 (i32 (u32 (rw_pages elf * PAGE_SIZE)));;
  let stack_bottom := Z.land USERLAND_STACK_TOP PAGE_SIZE_MASK - (CONFIG_USERLAND_STACK_SIZE - 1) * PAGE_SIZE in
  user_memoryset 198 stack_bottom 0 (CONFIG_USERLAND_STACK_SIZE * PAGE_SIZE);;
  copy_segment 202 file (ro_location elf) (ro_size elf) (ro_vaddr elf);;
  copy_segment 210 file (rw_location elf) (rw_size elf) (rw_vaddr elf);;
  for_loop (Z.to_nat (i32 (ro_pages elf))) 0 (λ i,
    interrupts 221 i;;
    pagetable ← my_pagetable my_entry;
    zoom memory_l (on_table pagetable (vm_set_dirty (u32 (ro_vaddr elf + i * PAGE_SIZE)) 0)));;
  interrupts 225 0;;
  fill_tlb my_entry;;
  interrupts 232 0;;
  zoom core_l (upd_context user_context (λ _,
    Context (<[Z.to_nat MIPS_REGISTER_SP := USERLAND_STACK_TOP]> (replicate 29 0)) 0 0 (entry_point elf) 0 0));;
  interrupts 236 0;;
  zoom core_l (thread_goto_userland _cswitch_to_userland user_context);;
  panic "thread_goto_userland failed.".
End start.
End Start.
