(* ===== verification/StartSpec.v ===== *)
(** * What becomes of a program that is started

    process_start writes the TLB before it maps the segments, and then stores
    into them: the theorem here is that the kernel stops at that store. *)
From Stdlib Require Import FunctionalExtensionality.
From S2P Require Import Prelude Bytes Cpu Kmalloc Pagepool Kstate Sleepq Semaphore Kservice Vm Thread Interrupt Device Tty TtySpec Process Sync Vfs VfsFile VfsTfs Elf ElfSpec.
From S2P Require Import Usermem Syscall Start.
Import Kmalloc Pagepool Sleepq Semaphore Vm Thread Interrupt Device Tty TtySpec Process Vfs VfsFile VfsTfs Elf ElfSpec Usermem Syscall Start.

Module StartSpec.

(** ** Page tables at their addresses *)

Lemma tables_get_head l a pt : tables_get ((a, pt) :: l) a = Some pt.
Proof. simpl. by destruct (decide (a = a)) as [_|[]]. Qed.
Lemma tables_get_set l a pt pt' : tables_get l a = Some pt → tables_get (tables_set l a pt') a = Some pt'.
Proof.
  induction l as [|[b x] l IH]; [done|]. simpl. case_decide as Hd; simpl; [by rewrite decide_True|].
  intros Hx. rewrite decide_False //. by apply IH.
Qed.

Lemma on_table_run {A} a (m : M pagetable_t A) v pt x pt' :
  tables_get (vm_tables v) a = Some pt → m pt = Done x pt' →
  on_table a m v = Done x (v <| vm_tables := tables_set (vm_tables v) a pt' |>).
Proof. intros Ha Hm. unfold on_table. by rewrite Ha Hm. Qed.

(** A page table in use, and [free] pages left in the pool. *)
Record ready (m : vm_t) (a : Z) (pt : pagetable_t) (free : nat) : Prop := {
  rd_table : tables_get (vm_tables m) a = Some pt;
  rd_ok : pt_ok pt;
  rd_pool : pp_inv (vm_pool m);
  rd_static : 0 < pagepool_static_end (vm_pool m);
  rd_free : length (free_list (vm_pool m)) = free }.

(** One page from the pool. *)
Lemma get_page_run m free :
  pp_inv (vm_pool m) → 0 < pagepool_static_end (vm_pool m) → length (free_list (vm_pool m)) = S free →
  ∃ k p, 0 < k ∧ zoom #vm_pool pagepool_get_phys_page m = Done (k * 4096) (m <| vm_pool := p |>) ∧ pp_inv p ∧
    0 < pagepool_static_end p ∧ length (free_list p) = free.
Proof.
  intros Hp Hs Hl. pose proof (get_phys_page_run (vm_pool m) Hp) as Hrun.
  destruct (free_list (vm_pool m)) as [|k rest] eqn:E; [done|]. destruct Hrun as (p & Hrun & Hp' & Hr & Hw).
  exists k, p. pose proof (free_list_above_static (vm_pool m) k Hp) as Hk. rewrite E in Hk. specialize (Hk ltac:(by left)).
  split_and!; [lia| |done| |].
  - unfold zoom. cbn [lget]. by rewrite Hrun.
  - by rewrite Hw.
  - rewrite Hr. by injection Hl.
Qed.

Section start.
Context {F : Type} `{FileSystem F} {D : Type} `{TtyPorts D}.
Abbreviation sys := (sys_t (F := F) (D := D)).
Variable ram_entries : Z → list tlb_entry.
Variable elf0 : elf_info_t.
Variable user_context : Z.
Variable _cswitch_to_userland : Z → M kstate unit.
Variable preempt : Z → Z → M sys unit.
Abbreviation interrupts := (interrupts (F := F) (D := D) preempt).

(** The parts of the state a starting program changes. *)
Definition at_state (s : sys) (c : kstate) (m : vm_t) (t : tlb_t) (v : vfs_t (F := F)) : sys :=
  let d := devs s in let i := ints d in
  Sys (Dev (IntState unit c (kmem i) m t (interrupt_handlers i) (interrupt_stacks i) (iv_area1 i) (iv_area2 i) (iv_area3 i) (devices i))
         (heap d) (device_table d) (number_of_devices d) (tty_inits d) (rtc_init_done d) (meminfo_init_done d)
         (shutdown_init_done d) (port_writes d))
    (processes s) (processes_slock s) v (terminals s) (ram s).

Lemma at_state_self s : at_state s (lget core_l s) (lget memory_l s) (tlb_of s) (vfs s) = s.
Proof. destruct s as [[[]] ?????]. done. Qed.

Lemma at_core {A B} (g : M kstate A) (f : A → M sys B) s c m t v a c' :
  g c = Done a c' → (zoom core_l g ≫= f) (at_state s c m t v) = f a (at_state s c' m t v).
Proof. intros Hg. by rewrite (bind_zoom core_l g f _ a c'). Qed.
Lemma at_memory {A B} (g : M vm_t A) (f : A → M sys B) s c m t v a m' :
  g m = Done a m' → (zoom memory_l g ≫= f) (at_state s c m t v) = f a (at_state s c m' t v).
Proof. intros Hg. by rewrite (bind_zoom memory_l g f _ a m'). Qed.
Lemma at_tlb {A B} (g : M tlb_t A) (f : A → M sys B) s c m t v a t' :
  g t = Done a t' → (zoom tlb_l g ≫= f) (at_state s c m t v) = f a (at_state s c m t' v).
Proof. intros Hg. by rewrite (bind_zoom tlb_l g f _ a t'). Qed.
Lemma at_vfs {A B} (g : M (vfs_t (F := F)) A) (f : A → M sys B) s c m t v a v' :
  g v = Done a v' → (zoom #vfs g ≫= f) (at_state s c m t v) = f a (at_state s c m t v').
Proof. intros Hg. by rewrite (bind_zoom #vfs g f _ a v'). Qed.

(** The entry of the thread [my], whose page table is at [a]. *)
Definition owns (c : kstate) (my a : Z) : Prop :=
  ∃ e, arr_get (thread_table c) my = Some e ∧ t_pagetable e = a.

Lemma at_pagetable {B} (f : Z → M sys B) s c m t v my a :
  owns c my a → (my_pagetable my ≫= f) (at_state s c m t v) = f a (at_state s c m t v).
Proof.
  intros (e & He & <-). unfold my_pagetable. rewrite bind_bind.
  rewrite (at_core _ _ _ _ _ _ _ e c); [unfold get_thread; by rewrite He|]. done.
Qed.

(** ** Interrupts that switch to no other thread

    They can do anything but take the CPU from the thread: its table entry, the
    address spaces, the TLB, the volumes and the processes are as they were. *)
Record undisturbed (s s' : sys) : Prop := {
  ud_memory : lget memory_l s' = lget memory_l s;
  ud_tlb : tlb_of s' = tlb_of s;
  ud_vfs : vfs s' = vfs s;
  ud_processes : processes s' = processes s;
  ud_current : current (lget core_l s') = current (lget core_l s);
  ud_entry : arr_get (thread_table (lget core_l s')) (current (lget core_l s)) =
    arr_get (thread_table (lget core_l s)) (current (lget core_l s));
  ud_cpu : this_cpu (lget core_l s') = this_cpu (lget core_l s);
  ud_status : k_status (lget core_l s') = k_status (lget core_l s);
  ud_sizes : c_sizes (core_of (lget core_l s)) → c_sizes (core_of (lget core_l s')) }.
Definition no_switch : Prop := ∀ lineno turn s, ∃ s', preempt lineno turn s = Done tt s' ∧ undisturbed s s'.
Hypothesis calm : no_switch.

Lemma undisturbed_refl s : undisturbed s s.
Proof. by constructor. Qed.

(** What stays of the kernel core. *)
Record core_kept (c c' : kstate) : Prop := {
  ck_current : current c' = current c;
  ck_entry : arr_get (thread_table c') (current c) = arr_get (thread_table c) (current c);
  ck_cpu : this_cpu c' = this_cpu c;
  ck_status : k_status c' = k_status c;
  ck_sizes : c_sizes (core_of c) → c_sizes (core_of c') }.
Lemma core_kept_refl c : core_kept c c.
Proof. by constructor. Qed.
Lemma core_kept_trans c c1 c2 : core_kept c c1 → core_kept c1 c2 → core_kept c c2.
Proof. intros [A1 A2 A3 A4 A5] [B1 B2 B3 B4 B5]. rewrite A1 in B1, B2. constructor; try congruence; auto. Qed.
Lemma core_kept_ok c c' : core_kept c c' → cpu_ok c → cpu_ok c'.
Proof. intros [_ _ A3 A4 _] [Q1 Q2]. split; [by rewrite A3|by rewrite A4]. Qed.
Lemma core_kept_owns c c' a : core_kept c c' → owns c (current c) a → owns c' (current c') a.
Proof. intros [A1 A2 _ _ _] (e & He & Ha). exists e. by rewrite A1 A2. Qed.

Lemma at_interrupts {B} lineno turn (f : unit → M sys B) s c m t v :
  ∃ s' c', (interrupts lineno turn ≫= f) (at_state s c m t v) = f tt (at_state s' c' m t v) ∧
    core_kept c c' ∧ processes s' = processes s.
Proof using calm.
  unfold Start.interrupts. rewrite bind_bind bind_gets. case_decide.
  - destruct (calm lineno turn (at_state s c m t v)) as (s' & E & [U1 U2 U3 U4 U5 U6 U7 U8 U9]).
    exists s', (lget core_l s'). rewrite (bind_Done _ _ _ _ _ E). split; [|split; [by constructor|exact U4]].
    f_equal. rewrite -{1}(at_state_self s'). by rewrite U1 U2 U3.
  - exists s, c. split; [done|]. split; [apply core_kept_refl|done].
Qed.

(** The interrupts before the next step. *)
Ltac interrupted s' c' K P :=
  let E := fresh in
  match goal with |- context [(Start.interrupts _ ?l ?i ≫= ?f) (at_state ?s ?c ?m ?t ?v)] =>
    destruct (at_interrupts l i f s c m t v) as (s' & c' & E & K & P); rewrite E; clear E
  end.

(** ** Mapping pages *)

Definition map_body (lineno my : Z) (vaddr : Z → Z) (i : Z) : M sys unit :=
  interrupts lineno i;;
  phys_page ← zoom memory_l (zoom #vm_pool pagepool_get_phys_page);
  kernel_assert (bool_decide (phys_page ≠ 0));;
  interrupts (lineno + 3) i;;
  pagetable ← my_pagetable my;
  zoom memory_l (on_table pagetable (vm_map phys_page (vaddr i) 1)).

Lemma map_loop lineno t v a vaddr n : ∀ i s c m pt free,
  owns c (current c) a → ready m a pt (n + free) → valid_count pt + Z.of_nat n ≤ PAGETABLE_ENTRIES →
  (∀ j, i ≤ j < i + Z.of_nat n → pt_translate pt (vaddr j) = None) →
  (∀ j k, i ≤ j < i + Z.of_nat n → i ≤ k < i + Z.of_nat n → same_page (vaddr j) (vaddr k) → j = k) →
  ∃ s' c' m' pt', for_loop n i (map_body lineno (current c) vaddr) (at_state s c m t v) = Done tt (at_state s' c' m' t v) ∧
    core_kept c c' ∧ ready m' a pt' free ∧ pt_ASID pt' = pt_ASID pt ∧ valid_count pt' ≤ valid_count pt + Z.of_nat n ∧
    (∀ w, (∀ j, i ≤ j < i + Z.of_nat n → ¬ same_page w (vaddr j)) → pt_translate pt' w = pt_translate pt w).
Proof using calm.
  induction n as [|n IH]; intros i s c m pt free Ho Hr Hn Hnone Hd.
  { exists s, c, m, pt. split_and!; [done|apply core_kept_refl|done|done|lia|done]. }
  destruct Hr as [R1 R2 R3 R4 R5]. destruct (get_page_run m (n + free) R3 R4 R5) as (k & p & Hk & Hget & P1 & P2 & P3).
  destruct (vm_map_run pt (k * 4096) (vaddr i) 1 R2 ltac:(by right) ltac:(apply Hnone; lia) ltac:(left; lia)) as (pt1 & Hmap & Hok1 & Ha1 & Htr1).
  pose proof (vm_map_valid_count _ _ _ _ _ R2 ltac:(by right) Hmap) as Hvc.
  set (m1 := m <| vm_pool := p |>).
  cbn [for_loop]. unfold map_body at 1. rewrite bind_bind.
  interrupted s1 c1 K1 P1'.
  rewrite bind_bind (at_memory _ _ _ _ _ _ _ _ _ Hget) bind_bind bind_assert; [lia|]. rewrite bind_bind.
  interrupted s2 c2 K2 P2'.
  pose proof (core_kept_trans _ _ _ K1 K2) as K. pose proof (core_kept_owns _ _ _ K Ho) as Ho2.
  rewrite bind_bind -(ck_current _ _ K) (at_pagetable _ _ _ _ _ _ _ a Ho2).
  rewrite (at_memory _ _ _ _ _ _ _ _ _ (on_table_run a _ m1 pt tt pt1 R1 Hmap)).
  destruct (IH (i + 1) s2 c2 (m1 <| vm_tables := tables_set (vm_tables m1) a pt1 |>) pt1 free Ho2)
    as (s' & c' & m' & pt' & Hrun & Hk' & Hr' & Hasid & Hvc' & Htr').
  - constructor; try done. exact (tables_get_set _ _ _ _ R1).
  - lia.
  - intros j Hj. rewrite Htr1 decide_False; [|apply Hnone; lia]. intros Hs. apply Hd in Hs; lia.
  - intros j j' Hj Hj'. apply Hd; lia.
  - exists s', c', m', pt'. split_and!; [exact Hrun|by apply (core_kept_trans _ c2)|done|congruence|lia|].
    intros w Hw. rewrite Htr'; [intros j Hj; apply Hw; lia|]. rewrite Htr1 decide_False //. apply Hw. lia.
Qed.

(** ** The TLB *)

Lemma fill_tlb_run {B} (f : unit → M sys B) s c m t v my a pt free t' :
  owns c my a → ready m a pt free → 0 ≤ k_status c < 2 ^ 32 → tlb_fill (Some pt) t = Done tt t' →
  (fill_tlb my ≫= f) (at_state s c m t v) = f tt (at_state s c m t' v).
Proof.
  intros Ho Hr Hst Hf. unfold fill_tlb. rewrite bind_bind (at_core _ _ _ _ _ _ _ (k_status c) (kd c)) // bind_bind.
  rewrite (at_pagetable _ _ (kd c) _ _ _ _ a) // bind_bind bind_gets.
  change (vm_tables (lget memory_l _)) with (vm_tables m). rewrite (rd_table _ _ _ _ Hr) bind_bind (at_tlb _ _ _ _ _ _ _ _ _ Hf).
  rewrite bind_bind (at_core _ _ _ _ _ _ _ _ c (restored_kd c Hst)). by rewrite bind_ret.
Qed.

Lemma memoryset_refused {B} (f : unit → M sys B) s c m t v lineno target value size e :
  0 < size → store_exception t (u32 target) = Some e →
  (user_memoryset preempt lineno target value size ≫= f) (at_state s c m t v) = Panic (exception_message e).
Proof using calm.
  intros Hn He. unfold user_memoryset. replace (Z.to_nat size) with (S (Z.to_nat (size - 1))) by lia.
  cbn [for_loop]. rewrite bind_bind bind_bind. interrupted s1 c1 K1 P1'.
  rewrite bind_bind bind_gets bind_bind bind_gets. rewrite Z.add_0_r. cbn [user_fill].
  change (tlb_of (at_state s1 c1 m t v)) with t. by rewrite He.
Qed.

(** ** The theorem *)

Definition stack_page : Z := 0x7fffe000.

(** What holds when process_start begins: the thread has no address space yet and
    the TLB no rows of its number, the executable can be opened and parsed, and
    there is memory for its pages, which lie below the stack and do not overlap. *)
Record startable (s : sys) (pid file : Z) (elf : elf_info_t) : Prop := {
  sb_sizes : c_sizes (core_of (lget core_l s));
  sb_cpu : cpu_ok (lget core_l s);
  sb_thread : owns (lget core_l s) (current (lget core_l s)) 0;
  sb_pool : pp_inv (vm_pool (lget memory_l s)) ∧ 0 < pagepool_static_end (vm_pool (lget memory_l s));
  sb_free : ro_pages elf + rw_pages elf + 2 ≤ Z.of_nat (length (free_list (vm_pool (lget memory_l s))));
  sb_entries a : Z.of_nat (length (ram_entries a)) = PAGETABLE_ENTRIES;
  sb_tlb : Forall (λ e, ASID e ≠ u8 (current (lget core_l s))) (tlb_rows (tlb_of s));
  sb_rows : ro_pages elf + rw_pages elf + 1 ≤ Z.of_nat (length (tlb_rows (tlb_of s))) ≤ PAGETABLE_ENTRIES;
  sb_file : ∃ e v1 v2 r, arr_get (processes s) pid = Some e ∧ vfs_open (Process.executable e) (vfs s) = Done file v1 ∧ 0 ≤ file ∧
    elf_parse_header elf0 file v1 = Done (r, elf) v2 ∧ r ≠ 0;
  sb_entry : 4096 ≤ entry_point elf;
  sb_pages : 0 < ro_pages elf ∧ 0 ≤ rw_pages elf;
  sb_below : 0 ≤ ro_vaddr elf ∧ ro_vaddr elf + ro_pages elf * 4096 ≤ stack_page ∧
    0 ≤ rw_vaddr elf ∧ rw_vaddr elf + rw_pages elf * 4096 ≤ stack_page;
  sb_apart : ro_vaddr elf `div` 4096 + ro_pages elf ≤ rw_vaddr elf `div` 4096 ∨
    rw_vaddr elf `div` 4096 + rw_pages elf ≤ ro_vaddr elf `div` 4096 }.

Lemma same_page_div a b : same_page a b ↔ a `div` 4096 = b `div` 4096.
Proof. unfold same_page. by rewrite !Z.shiftr_div_pow2. Qed.

Lemma lor_kernel_address k : 0 ≤ k → Z.lor (k * 4096) 0x80000000 ≠ 0.
Proof. intros Hk Hz. apply Z.lor_eq_0_iff in Hz as [_ Hz]. lia. Qed.

Lemma upd_entry_run (k : kstate) my f e :
  arr_get (thread_table k) my = Some e →
  ∃ k', upd_thread my f k = Done tt k' ∧ arr_get (thread_table k') my = Some (f e) ∧
    (c_sizes (core_of k) → c_sizes (core_of k')) ∧ current k' = current k ∧ this_cpu k' = this_cpu k ∧ k_status k' = k_status k.
Proof.
  intros He. unfold upd_thread. rewrite He. eexists. split; [reflexivity|]. split_and!; try done.
  - exact (arr_get_same _ _ _ _ He).
  - intros [S1 S2 S3 S4]. constructor; try done. cbn. by rewrite length_insert.
Qed.

Abbreviation start := (process_start (F := F) (D := D) ram_entries elf0 user_context _cswitch_to_userland preempt).

Lemma upd_entry_kept (k : kstate) f e :
  arr_get (thread_table k) (current k) = Some e → c_sizes (core_of k) → cpu_ok k →
  ∃ k', upd_thread (current k) f k = Done tt k' ∧ arr_get (thread_table k') (current k') = Some (f e) ∧
    c_sizes (core_of k') ∧ cpu_ok k' ∧ current k' = current k ∧ k_status k' = k_status k.
Proof.
  intros He Hs Hc. destruct (upd_entry_run k (current k) f e He) as (k' & U & E & Z & C & T & W).
  exists k'. rewrite C. split_and!; [done|done|auto| |done|done]. destruct Hc as [Q1 Q2]. split; [by rewrite T|by rewrite W].
Qed.

(** The thread owns a fresh page table when the executable is opened. *)
Lemma new_address_space_run s pid file elf p :
  startable s pid file elf → arr_get (processes s) pid = Some p →
  let my := current (lget core_l s) in
  ∃ s' c m t a pt, new_address_space ram_entries preempt pid s = Done (my, p) (at_state s' c m t (vfs s)) ∧
    current c = my ∧ owns c my a ∧ ready m a pt (pred (length (free_list (vm_pool (lget memory_l s))))) ∧
    pt_ASID pt = my ∧ valid_count pt = 0 ∧ (∀ w, pt_translate pt w = None) ∧
    0 ≤ k_status c < 2 ^ 32 ∧ tlb_rows t = tlb_rows (tlb_of s).
Proof using calm.
  intros [S1 S2 (e & He & Hz) [S4 S5] S6 S7 _ S8 _ _ S9 _ _] Hp my.
  set (k0 := lget core_l s) in *. set (m0 := lget memory_l s) in *.
  rewrite (_ : new_address_space ram_entries preempt pid s = new_address_space ram_entries preempt pid (at_state s k0 m0 (tlb_of s) (vfs s)));
    [by rewrite at_state_self|]. unfold new_address_space.
  interrupted s1 c1 K1 P1'.
  pose proof (core_kept_ok _ _ K1 S2) as O1. pose proof (ck_sizes _ _ K1 S1) as Z1. pose proof (ck_current _ _ K1) as C1.
  assert (arr_get (thread_table c1) (current c1) = Some e) as E1 by (by rewrite C1 (ck_entry _ _ K1)).
  rewrite (at_core _ _ _ _ _ _ _ _ _ (thread_get_current_thread_run c1 Z1 O1 : thread_get_current_thread_entry c1 = _)).
  destruct (upd_entry_kept c1 (λ t, t <| t_process_id := pid |>) e E1 Z1 O1) as (c2 & U2 & E2 & Z2 & O2 & C2 & _).
  rewrite (at_core _ _ _ _ _ _ _ _ _ U2).
  rewrite (bind_zoom process_l _ _ _ p (lget process_l (at_state s1 c2 m0 (tlb_of s) (vfs s)))); [unfold get_proc; cbn; by rewrite P1' Hp|].
  change (lset process_l _ _) with (at_state s1 c2 m0 (tlb_of s) (vfs s)).
  rewrite -C2 (at_pagetable _ _ _ _ _ _ _ 0); [by exists (e <| t_process_id := pid |>)|]. rewrite bind_assert //.
  interrupted s3 c3 K3 P3'.
  pose proof (core_kept_ok _ _ K3 O2) as O3. pose proof (ck_sizes _ _ K3 Z2) as Z3. pose proof (ck_current _ _ K3) as C3.
  rewrite -C3. assert (arr_get (thread_table c3) (current c3) = Some (e <| t_process_id := pid |>)) as E3 by (by rewrite C3 (ck_entry _ _ K3)).
  assert (current c3 = my) as Hmy by (by rewrite C3 C2 C1).
  rewrite (at_core _ _ _ _ _ _ _ _ _ (thread_get_current_thread_run c3 Z3 O3)).
  destruct (length (free_list (vm_pool m0))) as [|free] eqn:El; [lia|].
  destruct (get_page_run m0 free S4 S5 El) as (k & pool & Hk & Hget & P1 & P2 & P3).
  set (a := ADDR_PHYS_TO_KERNEL (k * 4096)).
  set (m1 := (m0 <| vm_pool := pool |>) <| vm_tables := (a, Pagetable (current c3) 0 (ram_entries a)) :: vm_tables m0 |>).
  assert (vm_create_pagetable ram_entries (current c3) m0 = Done a m1) as Hc.
  { unfold vm_create_pagetable. rewrite (bind_Done _ _ _ _ _ Hget) decide_False; [lia|]. done. }
  rewrite (at_memory _ _ _ _ _ _ _ _ _ Hc) bind_assert; [by apply lor_kernel_address; lia|].
  interrupted s4 c4 K4 P4'.
  pose proof (core_kept_ok _ _ K4 O3) as O4. pose proof (ck_sizes _ _ K4 Z3) as Z4. pose proof (ck_current _ _ K4) as C4.
  assert (arr_get (thread_table c4) (current c4) = Some (e <| t_process_id := pid |>)) as E4 by (by rewrite C4 (ck_entry _ _ K4)).
  rewrite -C4. rewrite (at_core _ _ _ _ _ _ _ (k_status c4) (kd c4)) //.
  assert (cpu_ok (kd c4)) as O4'.
  { destruct O4 as [Q1 Q2]. split; [done|]. by apply disabled_range. }
  destruct (upd_entry_kept (kd c4) (λ t, t <| t_pagetable := a |>) _ E4 Z4 O4') as (c5 & U5 & E5 & Z5 & O5 & C5 & _).
  change (current (kd c4)) with (current c4) in U5, C5.
  rewrite (at_core _ _ _ _ _ _ _ _ _ U5).
  rewrite (at_core _ _ _ _ _ _ _ _ _ (thread_get_current_thread_run c5 Z5 O5)).
  erewrite at_tlb; [|reflexivity]. erewrite at_core; [|reflexivity].
  destruct (fresh_pt_ok (current c3) (ram_entries a) (S7 a)) as [Hfresh Hnone].
  assert (current c5 = my) as Hmy5 by congruence.
  eexists s4, _, m1, _, a, (Pagetable (current c3) 0 (ram_entries a)). split; [rewrite C4 Hmy; reflexivity|]. split_and!; try done.
  - rewrite -Hmy5. by exists (e <| t_process_id := pid |> <| t_pagetable := a |>).
  - constructor; [apply tables_get_head|exact Hfresh|done..].
  - by apply set_state_range, O5.
  - by apply set_state_range, O5.
Qed.

(** map_pages for the pages of a segment below the stack. *)
Lemma map_segment lineno s c m t v a pt n vaddr free :
  owns c (current c) a → ready m a pt (Z.to_nat n + free) → 0 ≤ n → valid_count pt + n ≤ PAGETABLE_ENTRIES →
  0 ≤ vaddr → vaddr + n * 4096 ≤ stack_page →
  (∀ w, vaddr `div` 4096 ≤ w `div` 4096 < vaddr `div` 4096 + n → pt_translate pt w = None) →
  ∃ s' c' m' pt', map_pages preempt lineno (current c) (i32 n) (λ i, u32 (vaddr + i * PAGE_SIZE)) (at_state s c m t v) =
      Done tt (at_state s' c' m' t v) ∧ core_kept c c' ∧
    ready m' a pt' free ∧ valid_count pt' ≤ valid_count pt + n ∧
    (∀ w, ¬ (vaddr `div` 4096 ≤ w `div` 4096 < vaddr `div` 4096 + n) → pt_translate pt' w = pt_translate pt w).
Proof using calm.
  intros Ho Hr Hn Hv Hlo Hb Hnone. unfold stack_page, PAGETABLE_ENTRIES in *.
  assert (∀ j, 0 ≤ j < n → u32 (vaddr + j * 4096) = vaddr + j * 4096) as Hu by (intros j Hj; apply u32_small; lia).
  pose proof (rd_ok _ _ _ _ Hr) as [_ Hvc _ _].
  destruct (map_loop lineno t v a (λ i, u32 (vaddr + i * 4096)) (Z.to_nat n) 0 s c m pt free Ho Hr)
    as (s' & c' & m' & pt' & Hrun & Hk' & Hr' & _ & Hvc' & Htr).
  - unfold PAGETABLE_ENTRIES. lia.
  - intros j Hj. rewrite Hu; [lia|]. apply Hnone. rewrite Z.div_add; lia.
  - intros j k Hj Hk. rewrite !Hu; [lia..|]. rewrite same_page_div !Z.div_add; lia.
  - exists s', c', m', pt'. split_and!; [|done|done|lia|].
    + unfold map_pages. rewrite i32_small; [lia|]. exact Hrun.
    + intros w Hw. apply Htr. intros j Hj. rewrite Hu; [lia|]. rewrite same_page_div Z.div_add; lia.
Qed.

(** C23 (error): process_start does not get past clearing the first segment
    unless a timer interrupt helps it. The executable can be opened and parsed
    without waiting, its entry point is behind the first page, its first segment
    has a page, there is memory for all its pages, which lie below the stack and do
    not overlap, and the TLB has a row for each and none of this thread's number
    from before. Then the kernel stops at the first byte that is cleared, because
    the TLB was written when only the stack was mapped. Interrupts may do anything
    in the meantime but switch to another thread or change the address spaces, the
    TLB, the volumes or the processes; a timer interrupt writes the TLB. *)
Theorem process_start_stops s pid file elf :
  startable s pid file elf → start pid s = Panic "TLB Store: not handled yet".
Proof using calm.
  intros Hs. pose proof Hs as [S1 S2 S3 S4 S5 S6 S7 S8 (p & v1 & v2 & r & Hp & Hopen & Hfile & Hparse & Hr) S9 [S10 S11] (S12 & S13 & S14 & S15) S16].
  destruct (new_address_space_run s pid file elf p Hs Hp) as (s0 & c & m & t & a & pt & Hn & Hc & Ho & Hrd & Ha & Hvc & Hnone & Hst & Hrows).
  unfold process_start. rewrite (bind_Done _ _ _ _ _ Hn). rewrite -Hc in Ho Ha S7 |- *.
  interrupted s1 c1 K1 P1. rewrite (at_vfs _ _ _ _ _ _ _ _ _ Hopen) bind_assert //.
  interrupted s2 c2 K2 P2. rewrite (at_vfs _ _ _ _ _ _ _ _ _ Hparse) bind_assert // bind_assert //.
  interrupted s3 c3 K3 P3. rewrite bind_gets bind_assert.
  { unfold _tlb_get_maxindex, CONFIG_USERLAND_STACK_SIZE. change (tlb_of _) with t. cbn [fst snd]. rewrite Hrows u32_small; [|lia].
    unfold PAGETABLE_ENTRIES in *. lia. }
  cbn [fst snd].
  pose proof (core_kept_trans _ _ _ (core_kept_trans _ _ _ K1 K2) K3) as K.
  pose proof (core_kept_owns _ _ _ K Ho) as Ho3. rewrite -(ck_current _ _ K) in Ha S7 |- *. rewrite -(ck_status _ _ K) in Hst.
  clear dependent c1. clear dependent c2. clear K Ho.
  set (free := (length (free_list (vm_pool (lget memory_l s))) - 2 - Z.to_nat (ro_pages elf) - Z.to_nat (rw_pages elf))%nat).
  replace (pred _) with (1 + (Z.to_nat (ro_pages elf) + (Z.to_nat (rw_pages elf) + free)))%nat in Hrd by lia.
  (* the stack *)
  destruct (map_loop 159 t v2 a (λ i, Z.land USERLAND_STACK_TOP PAGE_SIZE_MASK - i * PAGE_SIZE) 1 0 s3 c3 m pt
    (Z.to_nat (ro_pages elf) + (Z.to_nat (rw_pages elf) + free)) Ho3 Hrd) as (s4 & c4 & m1 & pt1 & Hrun1 & K4 & Hr1 & Ha1 & Hvc1 & Htr1);
    [unfold PAGETABLE_ENTRIES; lia|intros; apply Hnone|intros; lia|].
  rewrite Hvc in Hvc1. assert (∀ w, w `div` 4096 < 0x7fffe → pt_translate pt1 w = None) as Hnone1.
  { intros w Hw. rewrite Htr1; [|apply Hnone]. intros j Hj. assert (j = 0) as -> by lia. rewrite same_page_div.
    change ((Z.land USERLAND_STACK_TOP PAGE_SIZE_MASK - 0 * PAGE_SIZE) `div` 4096) with 0x7fffe. lia. }
  change (map_pages preempt 159 (current c3) CONFIG_USERLAND_STACK_SIZE (λ i, Z.land USERLAND_STACK_TOP PAGE_SIZE_MASK - i * PAGE_SIZE)
    (at_state s3 c3 m t v2) = Done tt (at_state s4 c4 m1 t v2)) in Hrun1.
  rewrite (bind_Done _ _ _ _ _ Hrun1). pose proof (core_kept_owns _ _ _ K4 Ho3) as Ho4.
  (* the TLB *)
  pose proof (rd_ok _ _ _ _ Hr1) as Hok1. pose proof (po_count _ Hok1) as Hc1.
  assert (∀ w, w `div` 4096 < 0x7fffe → ∃ t', tlb_fill (Some pt1) t = Done tt t' ∧ tlb_translate t' w = None) as Hfill.
  { intros w Hw. destruct (tlb_fill_translate pt1 t w Hok1) as (t' & Hf & Ht'); [rewrite Hrows; lia| |].
    - rewrite Hrows Ha1 Ha. by apply Forall_drop.
    - exists t'. by rewrite Ht' Hnone1. }
  interrupted s5 c5 K5 P5. pose proof (core_kept_trans _ _ _ K4 K5) as K. pose proof (core_kept_owns _ _ _ K Ho3) as Ho5.
  rewrite -(ck_current _ _ K). rewrite -(ck_status _ _ K) in Hst. unfold stack_page in *. destruct (Hfill (ro_vaddr elf) ltac:(zdm)) as (t' & Hf & Htr).
  rewrite (fill_tlb_run _ _ _ _ _ _ _ _ _ _ _ Ho5 Hr1 Hst Hf).
  (* the segments *)
  destruct (map_segment 178 s5 c5 m1 t' v2 a pt1 (ro_pages elf) (ro_vaddr elf) (Z.to_nat (rw_pages elf) + free) Ho5 Hr1)
    as (s6 & c6 & m2 & pt2 & Hrun2 & K6 & Hr2 & Hvc2 & Htr2); [lia|unfold PAGETABLE_ENTRIES in *; lia|lia|unfold stack_page; lia|
      intros w Hw; apply Hnone1; zdm|].
  rewrite (bind_Done _ _ _ _ _ Hrun2) -(ck_current _ _ K6).
  destruct (map_segment 185 s6 c6 m2 t' v2 a pt2 (rw_pages elf) (rw_vaddr elf) free (core_kept_owns _ _ _ K6 Ho5) Hr2)
    as (s7 & c7 & m3 & pt3 & Hrun3 & _); [lia|unfold PAGETABLE_ENTRIES in *; lia|lia|unfold stack_page; lia|
      intros w Hw; rewrite Htr2; [lia|apply Hnone1; zdm]|].
  rewrite (bind_Done _ _ _ _ _ Hrun3).
  change "TLB Store: not handled yet" with (exception_message EXCEPTION_TLBS). apply memoryset_refused.
  - unfold PAGE_SIZE, PAGETABLE_ENTRIES in *. rewrite u32_small; [lia|]. rewrite i32_small; lia.
  - unfold store_exception, phys_addr. rewrite u32_small; [unfold PAGETABLE_ENTRIES in *; lia|]. by rewrite Htr.
Qed.

End start.

(** ** A program with one segment, on a machine with pages to spare *)

(** A driver with one file, [example_elf]. *)
Definition elf_driver : FileSystem unit := {|
  fs_volume _ := []; fs_unmount := mret VFS_OK; fs_open _ := mret 7; fs_close _ := mret VFS_OK;
  fs_read _ buffer n offset :=
    let l := slice example_elf offset n in mret (Z.of_nat (length l), splice buffer 0 l);
  fs_write _ _ _ _ := mret 0; fs_create _ _ := mret VFS_ERROR;
  fs_remove _ := mret VFS_ERROR; fs_getfree := mret 0; fs_filecount := mret 1;
  fs_file _ buffer := mret (0, buffer) |}.

Definition spare_devs : dev_t :=
  Dev (IntState unit (example_running <| k_status := 0xff01 |>) (Kmalloc 0x80060000 0x80400000) (Vm.Vm example_pool [])
      (Tlb (replicate 16 (TlbEntry 0 0 0 0 0 0 0 0 0 0)) 0) [] [] [] [] [] tt)
    ∅ (replicate 128 0) 0 0 false false false [].
Definition example_process : process_t :=
  Process (cstring "[v]a" ++ replicate 123 0) PROCESS_RUNNING 0 (-1) (-1) (-1) (-1) 0.
Definition spare_system : sys_t (F := unit) (D := terminal) :=
  Sys spare_devs [example_process] 0 (@vfs_at unit example_mounts (replicate 512 (OpenFile 0 0 0)) 0 0 (λ _, tt))
    (λ _, TerminalT terminal 0 empty_tty (Terminal [] [])) (λ _, 0).

Definition example_entries : Z → list tlb_entry := λ _, replicate 340 (TlbEntry 0 0 0 0 0 0 0 0 0 0).

(** An interrupt that stores a byte somewhere. *)
Definition quiet_interrupt (lineno turn : Z) : M (sys_t (F := unit) (D := terminal)) unit :=
  modify (λ s, s <| ram := λ a, if decide (a = lineno) then turn else ram s a |>).

Lemma quiet_interrupt_switches_nothing : @no_switch unit terminal quiet_interrupt.
Proof. intros lineno turn s. eexists. split; [reflexivity|by constructor]. Qed.

Lemma process_start_stops_witness :
  @process_start unit elf_driver terminal example_entries (ElfInfo 0 0 0 0 0 0 0 0 0) 0
    (λ _, mret tt) quiet_interrupt 0 spare_system = Panic "TLB Store: not handled yet".
Proof.
  apply (@process_start_stops unit elf_driver terminal _ _ _ _ quiet_interrupt quiet_interrupt_switches_nothing
    spare_system 0 0 (ElfInfo 4096 84 16 2 4096 0 0 0 0)).
  constructor.
  - apply example_running_inv.
  - split; by vm_compute.
  - eexists. split; [vm_compute; reflexivity|done].
  - split; [exact example_pool_ok|done].
  - vm_compute. congruence.
  - intros a. by rewrite length_replicate.
  - apply Forall_replicate. by vm_compute.
  - by vm_compute.
  - eexists _, _, _, _. split_and!; [reflexivity|vm_compute; reflexivity|done|vm_compute; reflexivity|done].
  - done.
  - done.
  - by vm_compute.
  - right. by vm_compute.
Defined.
End StartSpec.
