(* ===== verification/Net.v ===== *)
(** * The network (net/network.c, net/protocols.c, net/socket.c, net/pop.c)

    Frames, sockets and the POP protocol.  Frames live in pages of physical memory;
    pointers are kernel addresses.  Semaphores are those of [Sync]; network
    interfaces, the clock and threads are given by [NetEnv]. *)
From S2P Require Import Prelude Bytes Libc Cpu Kmalloc Pagepool Sync.
Import Libc Kmalloc Pagepool.

(** What the network uses of the machine: the clock (drivers/metadev.c), the
    interfaces (drivers/gnd.h; addresses of frames are physical) and threads. *)
Class NetEnv (N : Type) := {
  rtc_get_msec : N → Z * N;
  nic_get : Z → N → Z;
  gnd_frame_size : Z → N → Z;
  gnd_hwaddr : Z → N → Z;
  gnd_send : Z → Z → Z → list Z → N → Z * N;
  gnd_recv : Z → Z → list Z → N → Z * list Z * N;
  thread_create : Z → Z → N → Z * N;
  thread_run : Z → N → N }.

Module Net.

Definition CONFIG_MAX_GNDS : Z := 4.
Definition CONFIG_MAX_OPEN_SOCKETS : Z := 64.
Definition CONFIG_POP_QUEUE_SIZE : Z := 32.
Definition CONFIG_POP_QUEUE_MIN_AGE : Z := 250.
Definition NET_OK : Z := 0.
Definition NET_ERROR : Z := -1.
Definition NET_DOESNT_EXIST : Z := -2.
Definition NETWORK_BROADCAST_ADDRESS : Z := 0xffffffff.
Definition NETWORK_LOOPBACK_ADDRESS : Z := 0.
Definition NETWORK_MAX_MTU : Z := 4096.
Definition PROTOCOL_POP : Z := 1.
Definition PROTOCOL_SOP : Z := 2.
(** network_frame_header_t: destination, source and protocol; the payload follows. *)
Definition SIZEOF_FRAME_HEADER : Z := 12.
(** pop_header_t: source port, destination port and size. *)
Definition SIZEOF_POP_HEADER : Z := 8.

Record network_interface_info_t := Interface { if_address : Z; if_mtu : Z; if_gnd : Z }.
#[export] Instance eta_interface : Eta network_interface_info_t := fun i => Interface (if_address i) (if_mtu i) (if_gnd i).

(** socket_descriptor_t; the semaphore is [None] for NULL, otherwise its permits. *)
Record socket_descriptor_t := Socket {
  port : Z; protocol : Z; receive_complete : option Z;
  rbuf : Z; bufsize : Z; sender : Z; copied : Z; sport : Z }.
#[export] Instance eta_socket : Eta socket_descriptor_t := fun s =>
  Socket (port s) (protocol s) (receive_complete s) (rbuf s) (bufsize s) (sender s) (copied s) (sport s).

Record pop_queue_t := PopEntry { frame : Z; socket : Z; timestamp : Z; from : Z; busy : Z }.
#[export] Instance eta_pop : Eta pop_queue_t := fun p => PopEntry (frame p) (socket p) (timestamp p) (from p) (busy p).

(** [ram] is the physical memory; [free_semaphores] is how many more semaphores
    can be created. *)
Record net_t {N : Type} := NetState {
  network_interfaces : list network_interface_info_t;
  open_sockets : list socket_descriptor_t; open_sockets_sem : Z; socket_init_done : bool;
  pop_queue : list pop_queue_t; pop_queue_sem : Z; pop_send_buffer : Z; pop_send_buffer_sem : Z;
  pop_service_thread_sem : Z; pop_service_thread_id : Z; pop_init_done : bool;
  free_semaphores : Z; pool : pagepool_t; ram : list Z; env : N }.
Arguments net_t N : clear implicits.
#[export] Instance eta_net {N} : Eta (net_t N) := fun s =>
  NetState N (network_interfaces s) (open_sockets s) (open_sockets_sem s) (socket_init_done s)
    (pop_queue s) (pop_queue_sem s) (pop_send_buffer s) (pop_send_buffer_sem s)
    (pop_service_thread_sem s) (pop_service_thread_id s) (pop_init_done s)
    (free_semaphores s) (pool s) (ram s) (env s).

(** A kernel address as an index into [ram]; the other addresses are not mapped. *)
Definition mapped (p : Z) : option Z :=
  if decide (0x80000000 ≤ p < 0xa0000000) then Some (p - 0x80000000) else None.

Section net.
Context {N : Type} `{NetEnv N}.
Abbreviation T A := (M (net_t N) A).

Definition load32 (p : Z) : T Z := fun s => oread (a ← mapped p; ld32 (ram s) a) s.
Definition load16 (p : Z) : T Z := fun s =>
  oread (a ← mapped p; b ← arr_get (ram s) a; c ← arr_get (ram s) (a + 1); Some (b * 256 + c)) s.
Definition store32 (p v : Z) : T unit := fun s =>
  match a ← mapped p; st32 (ram s) a v with Some m => Done tt (s <| ram := m |>) | None => Fault end.
Definition store16 (p v : Z) : T unit := fun s =>
  match a ← mapped p; m ← arr_set (ram s) a (v `div` 256 `mod` 256); arr_set m (a + 1) (v `mod` 256) with
  | Some m => Done tt (s <| ram := m |>)
  | None => Fault
  end.
Definition copy (buflen target source : Z) : T unit :=
  t ← oread (mapped target); f ← oread (mapped source); zoom #ram (memcopy buflen t f).

Definition get_socket (i : Z) : T socket_descriptor_t := fun s => oread (arr_get (open_sockets s) i) s.
Definition upd_socket (i : Z) (f : socket_descriptor_t → socket_descriptor_t) : T unit := fun s =>
  match arr_get (open_sockets s) i with
  | Some e => Done tt (s <| open_sockets := <[Z.to_nat i := f e]> (open_sockets s) |>)
  | None => Fault
  end.
Definition get_pop (i : Z) : T pop_queue_t := fun s => oread (arr_get (pop_queue s) i) s.
Definition upd_pop (i : Z) (f : pop_queue_t → pop_queue_t) : T unit := fun s =>
  match arr_get (pop_queue s) i with
  | Some e => Done tt (s <| pop_queue := <[Z.to_nat i := f e]> (pop_queue s) |>)
  | None => Fault
  end.
Definition get_interface (i : Z) : T network_interface_info_t := fun s => oread (arr_get (network_interfaces s) i) s.
Definition upd_interface (i : Z) (f : network_interface_info_t → network_interface_info_t) : T unit := fun s =>
  match arr_get (network_interfaces s) i with
  | Some e => Done tt (s <| network_interfaces := <[Z.to_nat i := f e]> (network_interfaces s) |>)
  | None => Fault
  end.

(** A call of the environment. *)
Definition ask {A} (f : N → A * N) : T A := fun s => let '(a, e) := f (env s) in Done a (s <| env := e |>).
Definition msec : T Z := t ← ask rtc_get_msec; mret (u32 t).

(** semaphore_create: false is NULL. *)
Definition semaphore_create : T bool := fun s =>
  if decide (0 < free_semaphores s) then Done true (s <| free_semaphores := free_semaphores s - 1 |>) else Done false s.
Definition semaphore_destroy : T unit := modify (λ s, s <| free_semaphores := free_semaphores s + 1 |>).

(** The permits of the semaphore of a socket. *)
Definition socket_sem (i : Z) : lens (net_t N) Z :=
  Lens (λ s, default 0 (e ← arr_get (open_sockets s) i; receive_complete e))
       (λ v s, s <| open_sockets := alter (λ e, e <| receive_complete := Some v |>) (Z.to_nat i) (open_sockets s) |>).
Definition with_sem (i : Z) (op : T unit) : T unit :=
  e ← get_socket i; match receive_complete e with Some _ => op | None => fault end.

(** ** Sockets (net/socket.c) *)

Definition clear_socket (i : Z) : T unit :=
  upd_socket i (λ e, e <| port := 0 |>);;
  upd_socket i (λ e, e <| protocol := 0 |>);;
  upd_socket i (λ e, e <| rbuf := 0 |>);;
  upd_socket i (λ e, e <| bufsize := 0 |>);;
  upd_socket i (λ e, e <| sender := 0 |>);;
  upd_socket i (λ e, e <| copied := 0 |>).

Definition socket_init : T unit :=
  done ← gets socket_init_done;
  kernel_assert (negb done);;
  modify (λ s, s <| socket_init_done := true |>);;
  ok ← semaphore_create;
  if negb ok then panic "socket_init: semaphore allocation failed" else
  modify (λ s, s <| open_sockets_sem := 1 |>);;
  for_loop (Z.to_nat CONFIG_MAX_OPEN_SOCKETS) 0 (λ i,
    clear_socket i;;
    upd_socket i (λ e, e <| sport := 0 |>);;
    upd_socket i (λ e, e <| receive_complete := None |>)).

(** Is the port that of an open socket? *)
Definition port_used (p : Z) : T bool :=
  found ← find_loop (Z.to_nat CONFIG_MAX_OPEN_SOCKETS) 0 (λ i,
    e ← get_socket i; mret (bool_decide (protocol e ≠ 0 ∧ port e = p)));
  mret (bool_decide (is_Some found)).

(** The search for a free port: one turn more than there are sockets. *)
Fixpoint first_port (fuel : nat) (p : Z) : T Z :=
  match fuel with
  | O => spin
  | S n =>
    let p := u16 (p + 1) in
    notfree ← port_used p;
    if notfree : bool then first_port n p else mret p
  end.
Definition port_fuel : nat := Z.to_nat (CONFIG_MAX_OPEN_SOCKETS + 1).

(** The port for the new socket; [None] if the given one is used. *)
Definition choose_port (p : Z) : T (option Z) :=
  if decide (p = 0) then
    p ← first_port port_fuel p;
    kernel_assert (bool_decide (p ≠ 0));;
    mret (Some p)
  else
    used ← port_used p;
    mret (if used : bool then None else Some p).

Definition socket_open (proto p : Z) : T Z :=
  if decide (proto ≠ PROTOCOL_POP ∧ proto ≠ PROTOCOL_SOP) then mret (-1) else
  sem_P #open_sockets_sem;;
  slot ← find_loop (Z.to_nat CONFIG_MAX_OPEN_SOCKETS) 0 (λ i,
    e ← get_socket i; mret (bool_decide (protocol e = 0)));
  match slot with
  | None => sem_V #open_sockets_sem;; mret (-1)
  | Some s =>
    chosen ← choose_port p;
    match chosen with
    | None => sem_V #open_sockets_sem;; mret (-1)
    | Some p =>
      ok ← semaphore_create;
      upd_socket s (λ e, e <| receive_complete := if ok : bool then Some 0 else None |>);;
      if negb ok then sem_V #open_sockets_sem;; mret (-1) else
      upd_socket s (λ e, e <| port := p |>);;
      upd_socket s (λ e, e <| protocol := proto |>);;
      upd_socket s (λ e, e <| rbuf := 0 |>);;
      upd_socket s (λ e, e <| bufsize := 0 |>);;
      upd_socket s (λ e, e <| sender := 0 |>);;
      upd_socket s (λ e, e <| copied := 0 |>);;
      sem_V #open_sockets_sem;;
      mret s
    end
  end.

Definition socket_close (s : Z) : T unit :=
  kernel_assert (bool_decide (0 ≤ s ∧ s < CONFIG_MAX_OPEN_SOCKETS));;
  sem_P #open_sockets_sem;;
  e ← get_socket s;
  (match receive_complete e with
   | Some _ =>
     clear_socket s;;
     semaphore_destroy;;
     upd_socket s (λ e, e <| receive_complete := None |>)
   | None => mret tt
   end);;
  sem_V #open_sockets_sem.

(** ** Frames *)

Definition network_free_frame (payload : Z) : T unit :=
  zoom #pool (pagepool_free_phys_page (Z.land (ADDR_KERNEL_TO_PHYS payload) PAGE_SIZE_MASK)).

(** ** The queue of received packets (net/pop.c) *)

(** The loop over the queue: the first free slot and the oldest that is not busy. *)
Fixpoint push_scan (n : nat) (i free oldest : Z) : T (Z * Z) :=
  match n with
  | O => mret (free, oldest)
  | S n' =>
    e ← get_pop i;
    let free := if decide (free = -1 ∧ frame e = 0) then i else free in
    older ← (if decide (busy e ≠ 0) then mret false
             else if decide (oldest = -1) then mret true
             else o ← get_pop oldest; mret (bool_decide (timestamp e < timestamp o)));
    push_scan n' (i + 1) free (if older : bool then i else oldest)
  end.

Definition pop_push_frame (fromaddr toaddr protocol_id payload : Z) : T Z :=
  kernel_assert (bool_decide (protocol_id = PROTOCOL_POP));;
  sem_P #pop_queue_sem;;
  x ← push_scan (Z.to_nat CONFIG_POP_QUEUE_SIZE) 0 (-1) (-1);
  let '(free, oldest) := x in
  full ← (if decide (free ≠ -1) then mret false
          else if decide (oldest = -1) then mret true
          else now ← msec; o ← get_pop oldest;
               mret (bool_decide (u32 (now - timestamp o) < CONFIG_POP_QUEUE_MIN_AGE)));
  if full : bool then sem_V #pop_queue_sem;; mret 0 else
  let free := if decide (free = -1) then oldest else free in
  e ← get_pop free;
  (if decide (frame e ≠ 0) then network_free_frame (frame e) else mret tt);;
  upd_pop free (λ e, e <| frame := payload |>);;
  upd_pop free (λ e, e <| socket := -1 |>);;
  now ← msec;
  upd_pop free (λ e, e <| timestamp := now |>);;
  upd_pop free (λ e, e <| from := fromaddr |>);;
  upd_pop free (λ e, e <| busy := 0 |>);;
  sem_V #pop_queue_sem;;
  sem_V #pop_service_thread_sem;;
  mret 1.

(** The service thread decides what to do with the first packet it can handle:
    nothing, or to discard or transfer the one in a slot. *)
Inductive pop_action := POP_ACTION_NONE | POP_ACTION_DISCARD (slot f : Z) | POP_ACTION_TRANSFER (slot f : Z).

(** The first POP socket that listens at the port of the packet. *)
Definition find_recipient (i f : Z) : T unit :=
  e ← get_pop i;
  if decide (socket e = -1) then
    found ← find_loop (Z.to_nat CONFIG_MAX_OPEN_SOCKETS) 0 (λ j,
      o ← get_socket j;
      if decide (protocol o = PROTOCOL_POP) then
        d ← load16 (f + 2); mret (bool_decide (port o = d))
      else mret false);
    match found with
    | Some j => upd_pop i (λ e, e <| socket := j |>)
    | None => mret tt
    end
  else mret tt.

Fixpoint service_scan (n : nat) (i : Z) : T pop_action :=
  match n with
  | O => mret POP_ACTION_NONE
  | S n' =>
    e ← get_pop i;
    if decide (frame e = 0) then service_scan n' (i + 1) else
    let f := frame e in
    find_recipient i f;;
    e ← get_pop i;
    if decide (socket e = -1) then mret (POP_ACTION_DISCARD i f) else
    closed ← (if decide (0 ≤ socket e) then
                o ← get_socket (socket e); mret (bool_decide (protocol o ≠ PROTOCOL_POP))
              else mret false);
    if closed : bool then mret (POP_ACTION_DISCARD i f) else
    o ← get_socket (socket e);
    if decide (rbuf o ≠ 0) then
      upd_pop i (λ e, e <| busy := 1 |>);; mret (POP_ACTION_TRANSFER i f)
    else service_scan n' (i + 1)
  end.

(** The part of a turn of the service thread that holds the locks. *)
Definition service_look : T pop_action :=
  sem_P #open_sockets_sem;;
  sem_P #pop_queue_sem;;
  action ← service_scan (Z.to_nat CONFIG_POP_QUEUE_SIZE) 0;
  sem_V #pop_queue_sem;;
  sem_V #open_sockets_sem;;
  mret action.

Definition discard (slot f : Z) : T unit :=
  network_free_frame f;;
  upd_pop slot (λ e, e <| frame := 0 |>).

(** The payload goes to the buffer of the caller of recvfrom, who is woken. *)
Definition transfer (slot f : Z) : T unit :=
  e ← get_pop slot;
  o ← get_socket (socket e);
  size ← load32 (f + 4);
  let bytes := Z.min size (bufsize o) in
  copy (i32 bytes) (rbuf o) (f + SIZEOF_POP_HEADER);;
  store32 (sender o) (from e);;
  store32 (copied o) (i32 bytes);;
  p ← load16 f;
  store16 (sport o) p;;
  upd_socket (socket e) (λ o, o <| rbuf := 0 |>);;
  upd_socket (socket e) (λ o, o <| bufsize := 0 |>);;
  upd_socket (socket e) (λ o, o <| sender := 0 |>);;
  upd_socket (socket e) (λ o, o <| copied := 0 |>);;
  upd_socket (socket e) (λ o, o <| sport := 0 |>);;
  network_free_frame f;;
  with_sem (socket e) (sem_V (socket_sem (socket e)));;
  upd_pop slot (λ e, e <| frame := 0 |>).

(** One turn of the loop of pop_service_thread. *)
Definition service_turn : T unit :=
  action ← service_look;
  match action with
  | POP_ACTION_DISCARD slot f => discard slot f
  | POP_ACTION_TRANSFER slot f => transfer slot f
  | POP_ACTION_NONE => sem_P #pop_service_thread_sem
  end.

(** The service thread never returns: [n] turns of it. *)
Fixpoint pop_service_thread (n : nat) : T unit :=
  match n with O => mret tt | S n' => service_turn;; pop_service_thread n' end.

(** The address of pop_service_thread and of network_receive_thread. *)
Variables pop_service_thread_addr network_receive_thread_addr : Z.

Definition pop_init : T unit :=
  done ← gets pop_init_done;
  kernel_assert (negb done);;
  modify (λ s, s <| pop_init_done := true |>);;
  kernel_assert (bool_decide (SIZEOF_POP_HEADER = 8));;
  addr ← zoom #pool pagepool_get_phys_page;
  if decide (addr = 0) then panic "pop_init: page allocation failed" else
  modify (λ s, s <| pop_send_buffer := ADDR_PHYS_TO_KERNEL addr |>);;
  a ← semaphore_create;
  modify (λ s, s <| pop_send_buffer_sem := 1 |>);;
  b ← semaphore_create;
  modify (λ s, s <| pop_queue_sem := 1 |>);;
  c ← semaphore_create;
  modify (λ s, s <| pop_service_thread_sem := 0 |>);;
  if negb (a && b && c) then panic "pop_init: semaphore allocation failed" else
  for_loop (Z.to_nat CONFIG_POP_QUEUE_SIZE) 0 (λ i,
    upd_pop i (λ e, e <| frame := 0 |>);;
    upd_pop i (λ e, e <| socket := -1 |>);;
    upd_pop i (λ e, e <| timestamp := 0 |>);;
    upd_pop i (λ e, e <| from := 0 |>);;
    upd_pop i (λ e, e <| busy := 0 |>));;
  tid ← ask (thread_create pop_service_thread_addr 0);
  modify (λ s, s <| pop_service_thread_id := tid |>);;
  modify (λ s, s <| env := thread_run tid (env s) |>).

(** ** Protocols (net/protocols.c) *)

Record network_protocols_t := Protocol {
  protocol_id : Z; frame_handler : option (Z → Z → Z → Z → T Z); p_init : T unit }.

Definition network_protocols : list network_protocols_t :=
  [Protocol PROTOCOL_POP (Some pop_push_frame) pop_init; Protocol 0 None (mret tt)].

Fixpoint handler_in (l : list network_protocols_t) (id : Z) : option (Z → Z → Z → Z → T Z) :=
  match l with
  | [] => None
  | p :: l' =>
    match frame_handler p with
    | None => None
    | Some h => if decide (protocol_id p = id) then Some h else handler_in l' id
    end
  end.
Definition protocols_get_frame_handler (id : Z) : option (Z → Z → Z → Z → T Z) := handler_in network_protocols id.

Fixpoint init_in (l : list network_protocols_t) : T unit :=
  match l with
  | [] => fault
  | p :: l' => match frame_handler p with None => mret tt | Some _ => p_init p;; init_in l' end
  end.
Definition protocols_init : T unit := init_in network_protocols.

(** ** The frame layer (net/network.c) *)

Definition network_receive_frame (f : Z) : T Z :=
  id ← load32 (f + 8);
  match protocols_get_frame_handler id with
  | Some h =>
    src ← load32 (f + 4); dst ← load32 f; id ← load32 (f + 8);
    h src dst id (f + SIZEOF_FRAME_HEADER)
  | None => mret 0
  end.

(** [n] turns of the loop of network_receive_thread, with its variables. *)
Fixpoint network_receive_thread (n : nat) (gnd ret frame_phys_addr : Z) : T unit :=
  match n with
  | O => mret tt
  | S n' =>
    phys ← (if decide (ret ≠ 0) then
              p ← zoom #pool pagepool_get_phys_page;
              kernel_assert (bool_decide (p ≠ 0));;
              mret p
            else mret frame_phys_addr);
    r ← (fun s => let '(r, m, e) := gnd_recv gnd phys (ram s) (env s) in Done r (s <| ram := m |> <| env := e |>));
    ret ← (if decide (r = 0) then network_receive_frame (ADDR_PHYS_TO_KERNEL phys) else mret 0);
    network_receive_thread n' gnd ret phys
  end.

Definition init_interface (i : Z) : T unit :=
  gnd ← gets (λ s, nic_get i (env s));
  if decide (gnd = 0) then
    upd_interface i (λ e, e <| if_gnd := 0 |>);;
    upd_interface i (λ e, e <| if_address := 0 |>)
  else
    upd_interface i (λ e, e <| if_gnd := gnd |>);;
    mtu ← gets (λ s, gnd_frame_size gnd (env s));
    upd_interface i (λ e, e <| if_mtu := mtu |>);;
    e ← get_interface i;
    kernel_assert (bool_decide (if_mtu e ≤ PAGE_SIZE));;
    a ← gets (λ s, gnd_hwaddr gnd (env s));
    upd_interface i (λ e, e <| if_address := a |>).

Fixpoint start_receivers (n : nat) (i : Z) : T unit :=
  match n with
  | O => mret tt
  | S n' =>
    e ← get_interface i;
    if decide (if_gnd e ≠ 0) then
      tid ← ask (thread_create network_receive_thread_addr i);
      kernel_assert (bool_decide (0 < tid));;
      modify (λ s, s <| env := thread_run tid (env s) |>);;
      start_receivers n' (i + 1)
    else mret tt
  end.

Definition network_init : T unit :=
  for_loop (Z.to_nat CONFIG_MAX_GNDS) 0 init_interface;;
  socket_init;;
  protocols_init;;
  start_receivers (Z.to_nat CONFIG_MAX_GNDS) 0.

Definition network_get_source_address (i : Z) : T Z :=
  if decide (i < 0 ∨ CONFIG_MAX_GNDS ≤ i) then mret 0 else
  e ← get_interface i; mret (if_address e).
Definition network_get_broadcast_address : Z := NETWORK_BROADCAST_ADDRESS.
Definition network_get_loopback_address : Z := NETWORK_LOOPBACK_ADDRESS.

(** The loops of network_get_mtu end at an entry without interface. *)
Fixpoint minimum_mtu (n : nat) (i min : Z) : T Z :=
  e ← get_interface i;
  if decide (if_gnd e = 0) then mret min else
  match n with O => spin | S n' => minimum_mtu n' (i + 1) (if decide (if_mtu e < min) then if_mtu e else min) end.
Fixpoint find_mtu (n : nat) (i local_address : Z) : T Z :=
  e ← get_interface i;
  if decide (if_gnd e = 0) then mret 0
  else if decide (if_address e = local_address) then mret (i32 (if_mtu e - SIZEOF_FRAME_HEADER))
  else match n with O => spin | S n' => find_mtu n' (i + 1) local_address end.

Definition network_get_mtu (local_address : Z) : T Z :=
  if decide (local_address = NETWORK_BROADCAST_ADDRESS) then
    min ← minimum_mtu (Z.to_nat CONFIG_MAX_GNDS) 0 (NETWORK_MAX_MTU + 1);
    mret (i32 (min - SIZEOF_FRAME_HEADER))
  else if decide (local_address = NETWORK_LOOPBACK_ADDRESS) then mret (PAGE_SIZE - SIZEOF_FRAME_HEADER)
  else find_mtu (Z.to_nat CONFIG_MAX_GNDS) 0 local_address.

Definition network_get_interface (local_address : Z) : T Z :=
  found ← find_loop (Z.to_nat CONFIG_MAX_GNDS) 0 (λ i,
    e ← get_interface i; mret (bool_decide (if_address e = local_address)));
  mret (match found with Some i => i | None => -1 end).

(** A call through the functions of a NULL interface is a fault. *)
Definition network_send_interface (i destination f : Z) : T Z :=
  e ← get_interface i;
  if decide (if_gnd e = 0) then fault else
  (fun s => let '(r, x) := gnd_send (if_gnd e) (ADDR_KERNEL_TO_PHYS f) destination (ram s) (env s) in Done r (s <| env := x |>)).

Fixpoint send_all (n : nat) (i destination f send_ret : Z) : T Z :=
  match n with
  | O => mret send_ret
  | S n' =>
    e ← get_interface i;
    if decide (if_gnd e = 0) then mret send_ret else
    r ← network_send_interface i destination f;
    send_all n' (i + 1) destination f (if decide (r ≠ 0) then NET_ERROR else send_ret)
  end.

Definition network_send (source destination id length buffer : Z) : T Z :=
  kernel_assert (bool_decide (0 < length ∧ length ≤ PAGE_SIZE - SIZEOF_FRAME_HEADER));;
  phys_frame ← zoom #pool pagepool_get_phys_page;
  if decide (phys_frame = 0) then mret NET_ERROR else
  let f := ADDR_PHYS_TO_KERNEL phys_frame in
  store32 (f + 4) source;;
  store32 f destination;;
  store32 (f + 8) id;;
  copy length (f + SIZEOF_FRAME_HEADER) buffer;;
  if decide (destination = NETWORK_LOOPBACK_ADDRESS) then
    src ← load32 (f + 4);
    (if decide (src = NETWORK_BROADCAST_ADDRESS) then store32 (f + 4) NETWORK_LOOPBACK_ADDRESS else mret tt);;
    ret ← network_receive_frame f;
    if decide (ret = 0) then zoom #pool (pagepool_free_phys_page phys_frame);; mret NET_ERROR
    else mret NET_OK
  else if decide (source ≠ NETWORK_BROADCAST_ADDRESS) then
    interface ← network_get_interface source;
    if decide (interface < 0) then zoom #pool (pagepool_free_phys_page phys_frame);; mret NET_DOESNT_EXIST else
    r ← network_send_interface interface destination f;
    zoom #pool (pagepool_free_phys_page phys_frame);;
    mret (if decide (r ≠ 0) then NET_ERROR else NET_OK)
  else
    send_ret ← send_all (Z.to_nat CONFIG_MAX_GNDS) 0 destination f NET_OK;
    zoom #pool (pagepool_free_phys_page phys_frame);;
    mret send_ret.

(** ** Sending and receiving (net/pop.c) *)

Definition socket_sendto (s addr dport buf size : Z) : T Z :=
  kernel_assert (bool_decide (0 ≤ s ∧ s < CONFIG_MAX_OPEN_SOCKETS));;
  if decide (dport = 0) then mret (-1) else
  kernel_assert (bool_decide (1 ≤ size ∧ buf ≠ 0));;
  mtu ← network_get_mtu NETWORK_BROADCAST_ADDRESS;
  let size := i32 (Z.min (Z.min (u32 size) (u32 (mtu - SIZEOF_POP_HEADER))) (PAGE_SIZE - SIZEOF_POP_HEADER)) in
  sem_P #open_sockets_sem;;
  e ← get_socket s;
  if decide (protocol e ≠ PROTOCOL_POP) then sem_V #open_sockets_sem;; mret (-1) else
  let sport := port e in
  sem_V #open_sockets_sem;;
  sem_P #pop_send_buffer_sem;;
  hdr ← gets pop_send_buffer;
  store16 hdr sport;;
  store16 (hdr + 2) dport;;
  store32 (hdr + 4) size;;
  copy size (hdr + SIZEOF_POP_HEADER) buf;;
  r ← network_send NETWORK_BROADCAST_ADDRESS addr PROTOCOL_POP (size + SIZEOF_POP_HEADER) hdr;
  let size := if decide (r ≠ NET_OK) then -1 else size in
  sem_V #pop_send_buffer_sem;;
  mret size.

Definition socket_recvfrom (s addr sport buf buflength length : Z) : T Z :=
  kernel_assert (bool_decide (0 ≤ s ∧ s < CONFIG_MAX_OPEN_SOCKETS));;
  kernel_assert (bool_decide (1 ≤ buflength ∧ buf ≠ 0 ∧ addr ≠ 0 ∧ sport ≠ 0 ∧ length ≠ 0));;
  sem_P #open_sockets_sem;;
  e ← get_socket s;
  if decide (protocol e ≠ PROTOCOL_POP ∨ rbuf e ≠ 0) then sem_V #open_sockets_sem;; mret (-1) else
  upd_socket s (λ e, e <| rbuf := buf |>);;
  upd_socket s (λ e, e <| bufsize := buflength |>);;
  upd_socket s (λ e, e <| sender := addr |>);;
  upd_socket s (λ e, e <| copied := length |>);;
  upd_socket s (λ e, e <| Net.sport := sport |>);;
  sem_V #open_sockets_sem;;
  sem_V #pop_service_thread_sem;;
  with_sem s (sem_P (socket_sem s));;
  r ← load32 length;
  mret (i32 r).
End net.
End Net.
