(* ===== verification/SocketSpec.v ===== *)
(** * Properties of sockets: ports

    The table of open sockets keeps every port to at most one socket. *)
From S2P Require Import Prelude Bytes Pagepool Sync Net.
Import Net.

Module SocketSpec.

Definition is_open (e : socket_descriptor_t) : Prop := protocol e ≠ 0.
#[export] Instance is_open_dec e : Decision (is_open e) := decide (¬ _).

(** The ports in use. *)
Definition open_ports (l : list socket_descriptor_t) : list Z := port <$> filter is_open l.

Definition socket_ok (e : socket_descriptor_t) : Prop :=
  if decide (protocol e = 0) then receive_complete e = None
  else (protocol e = PROTOCOL_POP ∨ protocol e = PROTOCOL_SOP) ∧ is_Some (receive_complete e) ∧ 0 < port e < 2 ^ 16.

Record sockets_ok (l : list socket_descriptor_t) : Prop := {
  so_length : Z.of_nat (length l) = CONFIG_MAX_OPEN_SOCKETS;
  so_entries : Forall socket_ok l;
  so_ports : NoDup (open_ports l) }.

(** The entry of a socket just opened. *)
Definition opened (proto p : Z) (e : socket_descriptor_t) : socket_descriptor_t :=
  Socket p proto (Some 0) 0 0 0 0 (sport e).
Definition closed (e : socket_descriptor_t) : socket_descriptor_t := Socket 0 0 None 0 0 0 0 (sport e).

Lemma open_ports_split l i e :
  l !! i = Some e →
  open_ports l = open_ports (take i l) ++ (if decide (is_open e) then [port e] else []) ++ open_ports (drop (S i) l).
Proof.
  intros H. rewrite -{1}(take_drop_middle _ _ _ H). unfold open_ports. rewrite filter_app filter_cons fmap_app.
  by destruct (decide (is_open e)).
Qed.

Lemma open_ports_insert l i x e :
  l !! i = Some x → open_ports (<[i := e]> l) = open_ports (take i l) ++ (if decide (is_open e) then [port e] else []) ++ open_ports (drop (S i) l).
Proof.
  intros H. pose proof (lookup_lt_Some _ _ _ H). rewrite (open_ports_split _ i e); [by apply list_lookup_insert_eq|].
  by rewrite take_insert_ge // drop_insert_lt.
Qed.

Lemma elem_of_open_ports l p : p ∈ open_ports l ↔ ∃ e, e ∈ l ∧ is_open e ∧ port e = p.
Proof.
  unfold open_ports. rewrite list_elem_of_fmap. setoid_rewrite list_elem_of_filter. naive_solver.
Qed.

(** A free slot takes a new port. *)
Lemma sockets_ok_open l i x proto p :
  sockets_ok l → l !! i = Some x → protocol x = 0 → proto = PROTOCOL_POP ∨ proto = PROTOCOL_SOP → 0 < p < 2 ^ 16 → p ∉ open_ports l →
  sockets_ok (<[i := opened proto p x]> l).
Proof.
  intros [H1 H2 H3] Hx Hp Hproto Hr Hnew. constructor; [by rewrite length_insert| |].
  - apply Forall_insert; [done|]. unfold socket_ok. cbn. rw decide_False; [destruct Hproto; unfold PROTOCOL_POP, PROTOCOL_SOP in *; lia|]. by split; [|split; [eexists|]].
  - rewrite (open_ports_insert _ _ _ _ Hx). rewrite (open_ports_split _ _ _ Hx) in H3, Hnew.
    destruct (decide (is_open x)) as [Ho|_]; [by destruct Ho|]. cbn [app] in H3, Hnew.
    destruct (decide (is_open (opened proto p x))); [|done]. cbn. apply NoDup_app in H3 as (A & B & C).
    rewrite not_elem_of_app in Hnew. apply NoDup_app. split; [done|]. split; [|constructor; [by destruct Hnew|done]].
    intros y Hy [->|Hy']%elem_of_cons; [by destruct Hnew|by apply (B y)].
Qed.

Lemma sockets_ok_close l i x :
  sockets_ok l → l !! i = Some x → sockets_ok (<[i := closed x]> l).
Proof.
  intros [H1 H2 H3] Hx. constructor; [by rewrite length_insert| |].
  - by apply Forall_insert.
  - rewrite (open_ports_insert _ _ _ _ Hx). rewrite (open_ports_split _ _ _ Hx) in H3.
    destruct (decide (is_open (closed x))) as [Ho|_]; [by destruct Ho|]. cbn [app].
    apply NoDup_app in H3 as (A & B & C). apply NoDup_app in C as (_ & _ & C). apply NoDup_app. split; [done|]. split; [|done].
    intros y Hy Hy'. apply (B y); [done|]. apply elem_of_app. by right.
Qed.

Section run.
Context {N : Type} `{NetEnv N}.
Implicit Types s : net_t N.

Lemma bind_socket {B} i (k : socket_descriptor_t → M (net_t N) B) s e :
  open_sockets s !! Z.to_nat i = Some e → 0 ≤ i → (get_socket i ≫= k) s = k e s.
Proof.
  intros He Hi. apply bind_Done. unfold get_socket. assert (arr_get (open_sockets s) i = Some e) as ->; [by apply arr_get_Some|done].
Qed.
Lemma bind_upd_socket {B} i f (k : unit → M (net_t N) B) s e :
  open_sockets s !! Z.to_nat i = Some e → 0 ≤ i →
  (upd_socket i f ≫= k) s = k tt (s <| open_sockets := <[Z.to_nat i := f e]> (open_sockets s) |>).
Proof.
  intros He Hi. apply bind_Done. unfold upd_socket. assert (arr_get (open_sockets s) i = Some e) as ->; [by apply arr_get_Some|done].
Qed.
(** The updates of one entry, one after another. *)
Lemma bind_upd_again {B} i f x (k : unit → M (net_t N) B) s :
  0 ≤ i < Z.of_nat (length (open_sockets s)) →
  (upd_socket i f ≫= k) (s <| open_sockets := <[Z.to_nat i := x]> (open_sockets s) |>) =
    k tt (s <| open_sockets := <[Z.to_nat i := f x]> (open_sockets s) |>).
Proof.
  intros Hi. rw (bind_upd_socket i f k _ x); [apply list_lookup_insert_eq; lia|lia|].
  change (k tt (s <| open_sockets := <[Z.to_nat i := f x]> (<[Z.to_nat i := x]> (open_sockets s)) |>) =
    k tt (s <| open_sockets := <[Z.to_nat i := f x]> (open_sockets s) |>)).
  by rewrite list_insert_insert_eq.
Qed.

Lemma scan_sockets (P : socket_descriptor_t → Prop) `{∀ e, Decision (P e)} s :
  Z.of_nat (length (open_sockets s)) = CONFIG_MAX_OPEN_SOCKETS →
  find_loop (Z.to_nat CONFIG_MAX_OPEN_SOCKETS) 0 (λ i, e ← get_socket i; mret (bool_decide (P e))) s =
    Done ((λ r, Z.of_nat r.1) <$> list_find P (open_sockets s)) s.
Proof.
  intros Hl. rewrite -Hl Nat2Z.id. rewrite (find_loop_list P (open_sockets s)); [|done].
  intros i e He. rewrite Z.add_0_l. rw (bind_socket (Z.of_nat i) _ s e); [by rewrite Nat2Z.id|lia|done].
Qed.

Lemma port_used_run p s :
  sockets_ok (open_sockets s) → port_used p s = Done (bool_decide (p ∈ open_ports (open_sockets s))) s.
Proof.
  intros [Hl _ _]. unfold port_used. rw (bind_Done _ _ _ _ _ (scan_sockets (λ e, protocol e ≠ 0 ∧ port e = p) s Hl)).
  unfold mret, M_ret. f_equal. apply bool_decide_ext. rewrite elem_of_open_ports. destruct (list_find _ _) as [[i e]|] eqn:E.
  - apply list_find_Some in E as (He & [H1 H2] & _). split; [|by intros _; eexists].
    intros _. exists e. split; [exact (list_elem_of_lookup_2 _ _ _ He)|done].
  - cbn. split; [intros [? ?]; done|]. intros (e & He & H1 & H2). apply list_find_None in E. rewrite Forall_forall in E.
    by destruct (E e He).
Qed.

(** The search ends at the lowest unused port behind the start. *)
Lemma first_port_run fuel p q s :
  sockets_ok (open_sockets s) → 0 ≤ p → p < q → q < 2 ^ 16 → q ∉ open_ports (open_sockets s) → q ≤ p + Z.of_nat fuel →
  ∃ r, first_port fuel p s = Done r s ∧ p < r ≤ q ∧ r ∉ open_ports (open_sockets s) ∧
    ∀ x, p < x < r → x ∈ open_ports (open_sockets s).
Proof.
  intros Hok. revert p. induction fuel as [|n IH]; intros p Hp Hpq Hq Hin Hf; [lia|]. cbn [first_port].
  assert (u16 (p + 1) = p + 1) as -> by (apply u16_small; lia). cbn zeta.
  rw (bind_Done _ _ _ _ _ (port_used_run (p + 1) s Hok)). destruct (decide (p + 1 ∈ open_ports (open_sockets s))) as [Hu|Hu].
  - rw bool_decide_true //. assert (p + 1 ≠ q) by congruence. destruct (IH (p + 1)) as (r & Hr & H1 & H2 & H3); [lia..|done|lia|].
    exists r. split_and!; [done|lia|lia|done|]. intros x Hx. destruct (decide (x = p + 1)) as [->|]; [done|apply H3; lia].
  - rw bool_decide_false //. exists (p + 1). split_and!; [done|lia|lia|done|lia].
Qed.

(** There are fewer sockets than ports. *)
Lemma unused_port l : sockets_ok l → ∃ q, 0 < q ≤ CONFIG_MAX_OPEN_SOCKETS + 1 ∧ q ∉ open_ports l.
Proof.
  intros [Hl _ _]. destruct (decide (Forall (λ q, q ∈ open_ports l) (seqZ 1 65))) as [Hall|Hn].
  - assert (seqZ 1 65 ⊆+ open_ports l) as Hs.
    { apply NoDup_submseteq; [apply NoDup_seqZ|]. by rewrite Forall_forall in Hall. }
    apply submseteq_length in Hs. unfold open_ports in Hs. rewrite length_seqZ length_fmap in Hs.
    pose proof (length_filter is_open l). unfold CONFIG_MAX_OPEN_SOCKETS in Hl. lia.
  - apply not_Forall_Exists in Hn; [|apply _]. apply Exists_exists in Hn as (q & Hq%elem_of_seqZ & Hn).
    exists q. split; [unfold CONFIG_MAX_OPEN_SOCKETS; lia|done].
Qed.

Lemma choose_port_run p s :
  sockets_ok (open_sockets s) → 0 ≤ p →
  ∃ r, choose_port p s = Done r s ∧
    match r with
    | None => p ≠ 0 ∧ p ∈ open_ports (open_sockets s)
    | Some q => q ∉ open_ports (open_sockets s) ∧
        if decide (p = 0) then 0 < q ≤ CONFIG_MAX_OPEN_SOCKETS + 1 ∧ ∀ x, 0 < x < q → x ∈ open_ports (open_sockets s) else q = p
    end.
Proof.
  intros Hok Hp. unfold choose_port. destruct (decide (p = 0)) as [->|Hne].
  - destruct (unused_port _ Hok) as (q & Hq & Hn). unfold CONFIG_MAX_OPEN_SOCKETS in *.
    destruct (first_port_run port_fuel 0 q s Hok) as (r & Hr & H1 & H2 & H3); [lia..|done| |].
    { change (Z.of_nat port_fuel) with 65. lia. }
    exists (Some r). rw (bind_Done _ _ _ _ _ Hr). rw bind_assert; [lia|]. split; [done|]. split; [done|]. split; [lia|]. intros. by apply H3.
  - rw (bind_Done _ _ _ _ _ (port_used_run p s Hok)).
    destruct (decide (p ∈ open_ports (open_sockets s))); [rw bool_decide_true //; by exists None|rw bool_decide_false //; by exists (Some p)].
Qed.

(** ** Opening and closing *)

Lemma sem_round s : open_sockets_sem s = 1 → s <| open_sockets_sem := 1 - 1 |> <| open_sockets_sem := 1 - 1 + 1 |> = s.
Proof. intros H1. destruct s. cbn in H1. by subst. Qed.

(** Socket_open gives the first free socket the port asked for, or
    the lowest port no open socket has when asked for port 0; the search ends. Ports
    stay distinct. It refuses, and changes nothing, exactly for an unknown protocol, a
    full table, a port in use or when there is no semaphore left. *)
Theorem socket_open_binds proto p s :
  sockets_ok (open_sockets s) → open_sockets_sem s = 1 → 0 ≤ p < 2 ^ 16 →
  let l := open_sockets s in
  (socket_open proto p s = Done (-1) s ∧
    ((proto ≠ PROTOCOL_POP ∧ proto ≠ PROTOCOL_SOP) ∨ Forall is_open l ∨ (p ≠ 0 ∧ p ∈ open_ports l) ∨ free_semaphores s ≤ 0)) ∨
  ∃ i x q, l !! i = Some x ∧ ¬ is_open x ∧ Forall is_open (take i l) ∧ 0 < free_semaphores s ∧ q ∉ open_ports l ∧
    (if decide (p = 0) then 0 < q ∧ ∀ y, 0 < y < q → y ∈ open_ports l else q = p) ∧
    socket_open proto p s = Done (Z.of_nat i)
      (s <| open_sockets := <[i := opened proto q x]> l |> <| free_semaphores := free_semaphores s - 1 |>) ∧
    sockets_ok (<[i := opened proto q x]> l).
Proof.
  intros Hok Hsem Hp l. unfold socket_open. destruct (decide (proto ≠ PROTOCOL_POP ∧ proto ≠ PROTOCOL_SOP)) as [Hpr|Hpr].
  { left. split; [done|by left]. }
  set (s1 := s <| open_sockets_sem := 1 - 1 |>). assert (open_sockets s1 = l) as Hs1 by done.
  assert (∀ r, (sem_V #open_sockets_sem;; mret r : M (net_t N) Z) s1 = Done r s) as Hback.
  { intros r. rw bind_sem_V. unfold mret, M_ret. f_equal. exact (sem_round s Hsem). }
  assert (∀ B (k : unit → M (net_t N) B), (sem_P #open_sockets_sem ≫= k) s = k tt s1) as Hacq.
  { intros B k. rw bind_sem_P; [cbn; lia|]. unfold s1. cbn [lget lset]. by rewrite Hsem. }
  rw Hacq. rw (bind_Done _ _ _ _ _ (scan_sockets (λ e, protocol e = 0) s1 (so_length _ Hok))). rewrite Hs1.
  destruct (list_find (λ e, protocol e = 0) l) as [[i x]|] eqn:E; cbn [fmap option_fmap option_map fst].
  2: { left. split; [apply Hback|]. right. left. by apply list_find_None in E. }
  apply list_find_Some in E as (Hx & Hx0 & Hfirst).
  destruct (choose_port_run p s1 Hok (proj1 Hp)) as (r & Hrun & Hr). rw (bind_Done _ _ _ _ _ Hrun). rewrite Hs1 in Hr.
  destruct r as [q|]; [|left; split; [apply Hback|by right; right; left]]. destruct Hr as [Hq Hwhich].
  destruct (decide (0 < free_semaphores s)) as [Hfree|Hfree].
  - right. exists i, x, q. assert (sockets_ok (<[i := opened proto q x]> l)) as Hok'.
    { apply (sockets_ok_open _ _ _ _ _ Hok Hx Hx0); [unfold PROTOCOL_POP, PROTOCOL_SOP in *; lia| |done]. destruct (decide (p = 0)); [unfold CONFIG_MAX_OPEN_SOCKETS in *|]; lia. }
    assert (Forall is_open (take i l)) as Hbefore.
    { apply Forall_forall. intros y [j Hj]%list_elem_of_lookup. apply lookup_take_Some in Hj as [Hj Hlt]. by apply (Hfirst j y). }
    split; [done|]. split; [unfold is_open; tauto|]. split; [done|]. split; [done|]. split; [done|].
    split; [by destruct (decide (p = 0)); [destruct Hwhich as [[? _] ?]|]|]. split; [|done].
    assert (semaphore_create s1 = Done true (s1 <| free_semaphores := free_semaphores s - 1 |>)) as Hcr.
    { unfold semaphore_create. change (free_semaphores s1) with (free_semaphores s). by rw decide_True. }
    rw (bind_Done _ _ _ _ _ Hcr). pose proof (lookup_lt_Some _ _ _ Hx) as Hlt.
    rw (bind_upd_socket (Z.of_nat i) _ _ _ x); [by rewrite Nat2Z.id|lia|].
    cbn [negb]. do 6 (rw bind_upd_again; [change (0 ≤ Z.of_nat i < Z.of_nat (length l)); lia|]). rw bind_sem_V. unfold mret, M_ret. f_equal.
    rewrite Nat2Z.id. clear - Hsem. subst s1 l. destruct s, x. cbn in Hsem. by subst.
  - left. assert (semaphore_create s1 = Done false s1) as Hcr.
    { unfold semaphore_create. change (free_semaphores s1) with (free_semaphores s). by rw decide_False. }
    rw (bind_Done _ _ _ _ _ Hcr). rw (bind_upd_socket (Z.of_nat i) _ _ _ x); [by rewrite Nat2Z.id|lia|].
    cbn [negb]. rewrite Nat2Z.id.
    assert (x <| receive_complete := None |> = x) as Hsame.
    { pose proof (proj1 (Forall_lookup _ _) (so_entries _ Hok) _ _ Hx) as Hxo. unfold socket_ok in Hxo. rw decide_True in Hxo; [done|].
      destruct x. cbn in Hxo. by subst. }
    rewrite Hsame list_insert_id; [done|]. split; [|by right; right; right; lia].
    transitivity ((sem_V #open_sockets_sem;; mret (-1) : M (net_t N) Z) s1); [|apply Hback]. f_equal.
Qed.

(** Closing a socket frees its port and its semaphore; closing a free one does nothing. *)
Lemma socket_close_frees i e s :
  sockets_ok (open_sockets s) → open_sockets_sem s = 1 → open_sockets s !! i = Some e →
  socket_close (Z.of_nat i) s =
    Done tt (if decide (is_open e) then s <| open_sockets := <[i := closed e]> (open_sockets s) |> <| free_semaphores := free_semaphores s + 1 |> else s).
Proof.
  intros Hok Hsem He. pose proof (lookup_lt_Some _ _ _ He) as Hlt. pose proof (so_length _ Hok) as Hlen. unfold socket_close.
  rw bind_assert; [lia|]. rw bind_sem_P; [cbn; lia|]. cbn [lget lset]. rewrite Hsem.
  set (s1 := s <| open_sockets_sem := 1 - 1 |>). rw (bind_socket (Z.of_nat i) _ s1 e); [by rewrite Nat2Z.id|lia|].
  pose proof (proj1 (Forall_lookup _ _) (so_entries _ Hok) _ _ He) as Heo. unfold socket_ok in Heo. unfold is_open.
  destruct (decide (protocol e = 0)) as [H0|H0].
  - rewrite Heo. rw decide_False; [tauto|]. clear - Hsem. subst s1. destruct s. cbn in Hsem. by subst.
  - destruct Heo as (_ & [v Hv] & _). rewrite Hv. rw decide_True //. unfold clear_socket. rewrite !bind_bind.
    rw (bind_upd_socket (Z.of_nat i) _ _ _ e); [by rewrite Nat2Z.id|lia|].
    do 5 (rewrite ?bind_bind; rw bind_upd_again; [change (0 ≤ Z.of_nat i < Z.of_nat (length (open_sockets s))); lia|]).
    rewrite bind_bind. unfold semaphore_destroy. rw bind_modify.
    rw (bind_upd_socket (Z.of_nat i) _ _ _ (Socket 0 0 (receive_complete e) 0 0 0 0 (sport e))); [|lia|].
    { change (<[Z.to_nat (Z.of_nat i) := Socket 0 0 (receive_complete e) 0 0 0 0 (sport e)]> (open_sockets s) !! Z.to_nat (Z.of_nat i) =
        Some (Socket 0 0 (receive_complete e) 0 0 0 0 (sport e))). apply list_lookup_insert_eq. lia. }
    rewrite Nat2Z.id.
    change (Done tt (s <| open_sockets := <[i := closed e]> (<[i := Socket 0 0 (receive_complete e) 0 0 0 0 (sport e)]> (open_sockets s)) |>
      <| free_semaphores := free_semaphores s + 1 |> <| open_sockets_sem := 1 - 1 + 1 |>) =
      Done tt (s <| open_sockets := <[i := closed e]> (open_sockets s) |> <| free_semaphores := free_semaphores s + 1 |>)).
    rewrite list_insert_insert_eq. f_equal. clear - Hsem. destruct s. cbn in Hsem. by subst.
Qed.
End run.
End SocketSpec.
