(* ===== verification/NetMem.v ===== *)
(** * Memory accesses of the network

    Loads, stores and copies through kernel addresses, as slices of the physical
    memory; regions that do not overlap. *)
From S2P Require Import Prelude Bytes Libc Net.
Import Libc Net.

Module NetMem.

(** The kernel address of a physical address. *)
Definition kp (a : Z) : Z := 0x80000000 + a.
Definition be16 (v : Z) : list Z := [v `div` 256 `mod` 256; v `mod` 256].

(** A region of [m]: first byte and length. *)
Definition inside (m : list Z) (r : Z * Z) : Prop := 0 ≤ r.1 ∧ 0 ≤ r.2 ∧ r.1 + r.2 ≤ Z.of_nat (length m).
Definition apart (r r' : Z * Z) : Prop := r.1 + r.2 ≤ r'.1 ∨ r'.1 + r'.2 ≤ r.1.
Fixpoint all_apart (l : list (Z * Z)) : Prop :=
  match l with [] => True | r :: l' => Forall (apart r) l' ∧ all_apart l' end.

(** Write several pieces, one after another. *)
Fixpoint write_all (m : list Z) (l : list (Z * list Z)) : list Z :=
  match l with [] => m | (a, b) :: l' => write_all (splice m a b) l' end.
Definition region (w : Z * list Z) : Z * Z := (w.1, Z.of_nat (length w.2)).

Lemma length_write_all m l : Forall (λ w, inside m (region w)) l → length (write_all m l) = length m.
Proof.
  revert m. induction l as [|[a b] l IH]; intros m Hl; [done|]. apply Forall_cons in Hl as [[H1 [H2 H3]] Hl]. cbn in H1, H2, H3.
  assert (length (splice m a b) = length m) as E by (apply length_splice; lia).
  cbn. rewrite IH; [|done]. apply (Forall_impl _ _ _ Hl). unfold inside. intros w. by rewrite E.
Qed.

Lemma bytes_write_all m l : bytes_ok m → Forall (λ w, bytes_ok w.2) l → bytes_ok (write_all m l).
Proof.
  intros Hm Hl. revert m Hm. induction Hl as [|[a b] l Hb Hl IH]; intros m Hm; [done|]. cbn. apply IH. by apply splice_bytes.
Qed.

(** What is not written stays. *)
Lemma write_all_apart m l r :
  Forall (λ w, inside m (region w)) l → inside m r → Forall (λ w, apart r (region w)) l →
  slice (write_all m l) r.1 r.2 = slice m r.1 r.2.
Proof.
  revert m. induction l as [|[a b] l IH]; intros m Hl Hr Ha; [done|].
  apply Forall_cons in Hl as [[H1 [H2 H3]] Hl]. apply Forall_cons in Ha as [Ha Hal]. cbn in H1, H2, H3. destruct Hr as (R1 & R2 & R3).
  assert (length (splice m a b) = length m) as E by (apply length_splice; lia). cbn. rewrite IH.
  - apply (Forall_impl _ _ _ Hl). unfold inside. intros w. by rewrite E.
  - split_and!; [done|done|by rewrite E].
  - done.
  - unfold apart in Ha. cbn in Ha. apply slice_splice_disj; lia.
Qed.

(** What is written, and not written over, can be read. *)
Lemma write_all_read m l1 a b l2 :
  Forall (λ w, inside m (region w)) (l1 ++ (a, b) :: l2) → Forall (λ w, apart (region (a, b)) (region w)) l2 →
  slice (write_all m (l1 ++ (a, b) :: l2)) a (Z.of_nat (length b)) = b.
Proof.
  revert m. induction l1 as [|[a1 b1] l1 IH]; intros m Hl Ha; cbn [app write_all]; apply Forall_cons in Hl as [[H1 [H2 H3]] Hl]; cbn in H1, H2, H3.
  - assert (length (splice m a b) = length m) as E by (apply length_splice; lia).
    assert (Forall (λ w, inside (splice m a b) (region w)) l2) as Hl' by (apply (Forall_impl _ _ _ Hl); unfold inside; intros w; by rewrite E).
    pose proof (write_all_apart (splice m a b) l2 (region (a, b)) Hl' ltac:(unfold inside; cbn; rewrite E; lia) Ha) as Hs. cbn in Hs.
    rewrite Hs. apply slice_splice_same; lia.
  - apply IH; [|done]. assert (length (splice m a1 b1) = length m) as E by (apply length_splice; lia).
    apply (Forall_impl _ _ _ Hl). unfold inside. intros w. by rewrite E.
Qed.

Lemma write_all_app m l1 l2 : write_all m (l1 ++ l2) = write_all (write_all m l1) l2.
Proof. revert m. induction l1 as [|[a b] l1 IH]; intros m; [done|]. cbn. apply IH. Qed.

(** ** Accesses *)

Lemma mapped_kp a : 0 ≤ a < 0x20000000 → mapped (kp a) = Some a.
Proof. intros Ha. unfold mapped, kp. rw decide_True; [lia|]. f_equal. lia. Qed.

Lemma slice_two m a v : 0 ≤ a → slice m a 2 = be16 v → arr_get m a = Some (v `div` 256 `mod` 256) ∧ arr_get m (a + 1) = Some (v `mod` 256).
Proof.
  intros Ha Hs. split.
  - rewrite -(Z.add_0_r a) -(arr_get_slice m a 2 0); [done|lia|]. by rewrite Hs.
  - rewrite -(arr_get_slice m a 2 1); [done|lia|]. by rewrite Hs.
Qed.

Lemma slice_word m a v : 0 ≤ a → 0 ≤ v < 2 ^ 32 → slice m a 4 = be_split v → ld32 m a = Some v.
Proof.
  intros Ha Hv Hs. assert (∀ i x, 0 ≤ i < 4 → arr_get (be_split v) i = Some x → arr_get m (a + i) = Some x) as Hg.
  { intros i x Hi Hx. rewrite -(arr_get_slice m a 4 i); [done|lia|]. by rewrite Hs. }
  pose proof (Hg 0 _ ltac:(lia) eq_refl) as H0. rewrite Z.add_0_r in H0.
  unfold ld32. rewrite H0 (Hg 1 _ ltac:(lia) eq_refl) (Hg 2 _ ltac:(lia) eq_refl) (Hg 3 _ ltac:(lia) eq_refl).
  cbn [mbind option_bind]. f_equal. by apply be_join_split.
Qed.

Lemma word_of_slice m a v : ld32 m a = Some v → bytes_ok m → 0 ≤ a → a + 4 ≤ Z.of_nat (length m) → slice m a 4 = be_split v ∧ 0 ≤ v < 2 ^ 32.
Proof. intros Hv Hm Ha Hl. destruct (ld32_Some m a Hm Ha Hl) as (w & Hw & Hr & Hs). rewrite Hv in Hw. by injection Hw as <-. Qed.

Lemma length_be16 v : length (be16 v) = 2%nat.
Proof. done. Qed.
Lemma be16_bytes v : bytes_ok (be16 v).
Proof. unfold be16. repeat constructor; zdm. Qed.

Section access.
Context {N : Type} `{NetEnv N}.
Implicit Types s : net_t N.

Definition with_ram (m : list Z) s : net_t N := s <| ram := m |>.

Lemma bind_load16 {B} a v (k : Z → M (net_t N) B) s :
  0 ≤ a < 0x20000000 → 0 ≤ v < 2 ^ 16 → slice (ram s) a 2 = be16 v → (load16 (kp a) ≫= k) s = k v s.
Proof.
  intros Ha Hv Hs. destruct (slice_two _ _ _ (proj1 Ha) Hs) as [H1 H2]. apply bind_Done. unfold load16. rw mapped_kp //.
  cbn [mbind option_bind]. rw H1. cbn [mbind option_bind]. rw H2. cbn [mbind option_bind oread]. unfold mret, M_ret. f_equal. zdm.
Qed.
Lemma bind_load32 {B} a v (k : Z → M (net_t N) B) s :
  0 ≤ a < 0x20000000 → 0 ≤ v < 2 ^ 32 → slice (ram s) a 4 = be_split v → (load32 (kp a) ≫= k) s = k v s.
Proof.
  intros Ha Hv Hs. apply bind_Done. unfold load32. rw mapped_kp //. cbn [mbind option_bind]. rw (slice_word _ _ v) //. lia.
Qed.
Lemma bind_store32 {B} a v (k : unit → M (net_t N) B) s :
  a < 0x20000000 → inside (ram s) (a, 4) → (store32 (kp a) v ≫= k) s = k tt (with_ram (splice (ram s) a (be_split v)) s).
Proof.
  intros Ha (H1 & _ & H2). cbn in H1, H2. apply bind_Done. unfold store32. rw mapped_kp; [lia|]. cbn [mbind option_bind].
  by rw st32_splice; [lia..|].
Qed.
Lemma bind_store16 {B} a v (k : unit → M (net_t N) B) s :
  a < 0x20000000 → inside (ram s) (a, 2) → (store16 (kp a) v ≫= k) s = k tt (with_ram (splice (ram s) a (be16 v)) s).
Proof.
  intros Ha (H1 & _ & H2). cbn in H1, H2. apply bind_Done. unfold store16. rw mapped_kp; [lia|]. cbn [mbind option_bind].
  rw arr_set_Some; [lia|]. cbn [mbind option_bind]. rw arr_set_Some; [rewrite length_insert; lia|].
  unfold with_ram. do 2 f_equal.
  assert (<[Z.to_nat (a + 1) := v `mod` 256]> (<[Z.to_nat a := v `div` 256 `mod` 256]> (ram s)) = splice (ram s) a (be16 v)) as ->; [|done].
  apply arr_ext. intros i Hi. rewrite arr_get_splice; [lia|cbn; lia|]. rw !arr_get_insert; [rewrite length_insert; lia|lia|].
  cbn [length be16]. destruct (decide (i = a + 1)) as [->|]; [by rw decide_True; [lia|]; rewrite (_ : a + 1 - a = 1); [lia|]|].
  destruct (decide (i = a)) as [->|]; [by rw decide_True; [lia|]; rewrite Z.sub_diag|]. by rw decide_False; [lia|].
Qed.
Lemma bind_copy {B} n a b (k : unit → M (net_t N) B) s :
  bytes_ok (ram s) → a < 0x20000000 → b < 0x20000000 → inside (ram s) (a, n) → inside (ram s) (b, n) → apart (a, n) (b, n) →
  (copy n (kp a) (kp b) ≫= k) s = k tt (with_ram (splice (ram s) a (slice (ram s) b n)) s).
Proof.
  intros Hm Ha Hb (A1 & A2 & A3) (B1 & B2 & B3) Hd. cbn in *. apply bind_Done. unfold copy. rw !mapped_kp; [lia..|].
  cbn [mbind option_bind]. unfold oread. rw !bind_ret. unfold zoom. change (lget #ram s) with (ram s).
  unfold apart in Hd. cbn in Hd. rw memcopy_spec; [done|lia|lia|lia|lia|lia|unfold disjoint_ranges; lia|]. done.
Qed.

(** The same in a state with the memory [m]. *)
Lemma load16_in {B} m a v (k : Z → M (net_t N) B) s :
  0 ≤ a < 0x20000000 → 0 ≤ v < 2 ^ 16 → slice m a 2 = be16 v → (load16 (kp a) ≫= k) (with_ram m s) = k v (with_ram m s).
Proof. apply (bind_load16 a v k (with_ram m s)). Qed.
Lemma load32_in {B} m a v (k : Z → M (net_t N) B) s :
  0 ≤ a < 0x20000000 → 0 ≤ v < 2 ^ 32 → slice m a 4 = be_split v → (load32 (kp a) ≫= k) (with_ram m s) = k v (with_ram m s).
Proof. apply (bind_load32 a v k (with_ram m s)). Qed.
Lemma store32_in {B} m a v (k : unit → M (net_t N) B) s :
  a < 0x20000000 → inside m (a, 4) → (store32 (kp a) v ≫= k) (with_ram m s) = k tt (with_ram (splice m a (be_split v)) s).
Proof. intros Ha Hi. by rw (bind_store32 a v k (with_ram m s)). Qed.
Lemma store16_in {B} m a v (k : unit → M (net_t N) B) s :
  a < 0x20000000 → inside m (a, 2) → (store16 (kp a) v ≫= k) (with_ram m s) = k tt (with_ram (splice m a (be16 v)) s).
Proof. intros Ha Hi. by rw (bind_store16 a v k (with_ram m s)). Qed.
Lemma copy_in {B} n m a b (k : unit → M (net_t N) B) s :
  bytes_ok m → a < 0x20000000 → b < 0x20000000 → inside m (a, n) → inside m (b, n) → apart (a, n) (b, n) →
  (copy n (kp a) (kp b) ≫= k) (with_ram m s) = k tt (with_ram (splice m a (slice m b n)) s).
Proof. intros. by rw (bind_copy n a b k (with_ram m s)). Qed.
End access.
End NetMem.
