(* ===== verification/PopSpec.v ===== *)
(** * Properties of POP: the queue of received packets

    The queue owns the pages of the frames in it; the service thread gives every
    page back exactly once. *)
From S2P Require Import Prelude Bytes Libc Kmalloc Bitmap Pagepool Sync Net SocketSpec.
Import Libc Kmalloc Pagepool Net SocketSpec.

Module PopSpec.

(** The frames in the queue. *)
Definition frames (q : list pop_queue_t) : list Z := filter (λ f, f ≠ 0) (frame <$> q).

(** The address of the payload of the frame in page [k]. *)
Definition frame_at (k : Z) : Z := 0x80000000 + k * PAGE_SIZE + SIZEOF_FRAME_HEADER.
(** [f] is in a page in use. *)
Definition frame_ok (p : pagepool_t) (f : Z) : Prop :=
  ∃ k, f = frame_at k ∧ pagepool_static_end p ≤ k < pagepool_num_pages p ∧ k ∉ free_list p.

(** Memory behind the pool, below the end of the kernel segment. *)
Record memory_ok {N} (s : net_t N) : Prop := {
  mo_pool : pp_inv (pool s);
  mo_segment : pagepool_num_pages (pool s) * PAGE_SIZE ≤ 0x20000000;
  mo_ram : Z.of_nat (length (ram s)) = pagepool_num_pages (pool s) * PAGE_SIZE;
  mo_bytes : bytes_ok (ram s) }.

Definition entry_ok (e : pop_queue_t) : Prop := socket e = -1 ∨ 0 ≤ socket e < CONFIG_MAX_OPEN_SOCKETS.

Record queue_ok (q : list pop_queue_t) (p : pagepool_t) : Prop := {
  qo_length : Z.of_nat (length q) = CONFIG_POP_QUEUE_SIZE;
  qo_entries : Forall entry_ok q;
  qo_frames : Forall (frame_ok p) (frames q);
  qo_NoDup : NoDup (frames q) }.

(** ** Frames of a changed queue *)

Definition frame_of (e : pop_queue_t) : list Z := if decide (frame e ≠ 0) then [frame e] else [].

Lemma frames_split q i e :
  q !! i = Some e → frames q = frames (take i q) ++ frame_of e ++ frames (drop (S i) q).
Proof.
  intros H. rewrite -{1}(take_drop_middle _ _ _ H). unfold frames. rewrite fmap_app filter_app fmap_cons filter_cons.
  unfold frame_of. by destruct (decide (frame e ≠ 0)).
Qed.
Lemma frames_insert q i x e :
  q !! i = Some x → frames (<[i := e]> q) = frames (take i q) ++ frame_of e ++ frames (drop (S i) q).
Proof.
  intros H. pose proof (lookup_lt_Some _ _ _ H). rewrite (frames_split _ i e); [by apply list_lookup_insert_eq|].
  by rewrite take_insert_ge // drop_insert_lt.
Qed.
Lemma frames_perm q i x e :
  q !! i = Some x → frame_of x ++ frames (<[i := e]> q) ≡ₚ frame_of e ++ frames q.
Proof.
  intros H. rewrite (frames_insert _ _ _ _ H) (frames_split _ _ _ H).
  rewrite !(Permutation_app_comm (frames (take i q))) -!app_assoc. apply Permutation_app_swap_app.
Qed.

Lemma elem_of_frames q f : f ∈ frames q ↔ f ≠ 0 ∧ ∃ e, e ∈ q ∧ frame e = f.
Proof. unfold frames. rewrite list_elem_of_filter list_elem_of_fmap. naive_solver. Qed.

Lemma frame_at_inj k k' : frame_at k = frame_at k' → k = k'.
Proof. unfold frame_at, PAGE_SIZE. lia. Qed.
Lemma frame_ok_nonzero p f : pp_inv p → frame_ok p f → f ≠ 0.
Proof. intros Hp (k & -> & Hk & _). pose proof (pi_static _ Hp). unfold frame_at, PAGE_SIZE, SIZEOF_FRAME_HEADER. lia. Qed.

(** The page of a frame, as network_free_frame computes it. *)
Lemma frame_page k : 0 ≤ k < 0x20000 → Z.land (ADDR_KERNEL_TO_PHYS (frame_at k)) PAGE_SIZE_MASK = k * PAGE_SIZE + 0.
Proof.
  intros Hk.
  unfold ADDR_KERNEL_TO_PHYS, frame_at, PAGE_SIZE, PAGE_SIZE_MASK, SIZEOF_FRAME_HEADER in *.
  change 0x7fffffff with (Z.ones 31). rewrite Z.land_ones; [lia|].
  assert ((0x80000000 + k * 4096 + 12) `mod` 2 ^ 31 = k * 4096 + 12) as ->.
  { replace (0x80000000 + k * 4096 + 12) with (k * 4096 + 12 + 1 * 2 ^ 31) by lia. rewrite Z.mod_add; [lia|]. apply Z.mod_small. lia. }
  change 0xfffff000 with (Z.ldiff (Z.ones 32) (Z.ones 12)).
  replace (Z.land (k * 4096 + 12) (Z.ldiff (Z.ones 32) (Z.ones 12))) with (Z.ldiff (Z.land (k * 4096 + 12) (Z.ones 32)) (Z.ones 12)).
  - rewrite Z.land_ones; [lia|]. rewrite Z.mod_small; [lia|]. rewrite Z.ldiff_ones_r; [lia|].
    rewrite Z.shiftr_div_pow2; [lia|]. rewrite Z.shiftl_mul_pow2; [lia|]. zdm.
  - apply Z.bits_inj'. intros n Hn. rewrite !Z.ldiff_spec !Z.land_spec !Z.ldiff_spec. by rewrite andb_assoc.
Qed.

(** One entry of the queue changes. *)
Lemma queue_ok_set q p i x e :
  queue_ok q p → q !! i = Some x → entry_ok e →
  frame e = 0 ∨ (frame_ok p (frame e) ∧ (frame e ∉ frames q ∨ frame e = frame x)) →
  queue_ok (<[i := e]> q) p.
Proof.
  intros [H1 H2 H3 H4] Hx He Hf. pose proof (frames_perm q i x e Hx) as Hperm.
  assert (Forall (frame_ok p) (frame_of e ++ frames q) ∧ NoDup (frames (<[i := e]> q))) as [Hall Hnd].
  { unfold frame_of in *. destruct (decide (frame e ≠ 0)) as [Hne|Heq], (decide (frame x ≠ 0)) as [Hnx|Hx0].
    - destruct Hf as [Hf|[Hf Hf']]; [done|]. split; [by constructor|]. destruct (decide (frame e = frame x)) as [E|E].
      + rewrite E in Hperm. apply Permutation.Permutation_app_inv_l in Hperm. by rewrite Hperm.
      + destruct Hf' as [Hf'|]; [|done]. apply (NoDup_app [frame x]). rewrite Hperm. by constructor.
    - destruct Hf as [Hf|[Hf Hf']]; [done|]. split; [by constructor|]. cbn in Hperm. rewrite Hperm. constructor; [|done].
      destruct Hf' as [Hf'|Hf']; [done|]. rewrite Hf' in Hne. tauto.
    - split; [done|]. apply (NoDup_app [frame x]). by rewrite Hperm.
    - split; [done|]. cbn in Hperm. by rewrite Hperm. }
  constructor; [by rewrite length_insert|by apply Forall_insert| |done].
  rewrite -Hperm in Hall. by apply Forall_app in Hall as [_ ?].
Qed.

(** A page that holds no frame of the queue goes back to the pool. *)
Lemma queue_ok_free q p p' k :
  queue_ok q p → frame_at k ∉ frames q → free_list p' ≡ₚ k :: free_list p →
  pagepool_static_end p' = pagepool_static_end p → pagepool_num_pages p' = pagepool_num_pages p → queue_ok q p'.
Proof.
  intros [H1 H2 H3 H4] Hk Hfree Hs Hn. constructor; [done|done| |done].
  rewrite Forall_forall in H3. apply Forall_forall. intros f Hf. destruct (H3 f Hf) as (k' & -> & Hr & Hin).
  exists k'. rewrite Hs Hn Hfree. split_and!; [done|lia|lia|]. apply not_elem_of_cons. split; [|done]. by intros ->.
Qed.

Section run.
Context {N : Type} `{NetEnv N}.
Implicit Types s : net_t N.

(** The page of a frame that no other frame is in goes back to the pool. *)
Lemma free_frame_run k s :
  memory_ok s → pagepool_static_end (pool s) ≤ k < pagepool_num_pages (pool s) → k ∉ free_list (pool s) →
  ∃ p', network_free_frame (frame_at k) s = Done tt (s <| pool := p' |>) ∧ pp_inv p' ∧
    free_list p' ≡ₚ k :: free_list (pool s) ∧
    pagepool_static_end p' = pagepool_static_end (pool s) ∧ pagepool_num_pages p' = pagepool_num_pages (pool s).
Proof.
  intros [Hp Hseg _ _] Hk Hin. pose proof (pi_static _ Hp).
  destruct (free_phys_page_run (pool s) k 0 Hp Hk Hin ltac:(unfold PAGE_SIZE; lia)) as (p' & Hrun & Hp' & Hfree & Heq).
  exists p'. split; [|split_and!; [done|done|by rewrite Heq..]].
  unfold network_free_frame. rewrite (frame_page k); [unfold PAGE_SIZE in *; lia|].
  unfold zoom. change (lget #pool s) with (pool s). by rw Hrun.
Qed.

Lemma bind_pop {B} i (k : pop_queue_t → M (net_t N) B) s e :
  pop_queue s !! Z.to_nat i = Some e → 0 ≤ i → (get_pop i ≫= k) s = k e s.
Proof.
  intros He Hi. apply bind_Done. unfold get_pop. assert (arr_get (pop_queue s) i = Some e) as ->; [by apply arr_get_Some|done].
Qed.
Lemma bind_upd_pop {B} i f (k : unit → M (net_t N) B) s e :
  pop_queue s !! Z.to_nat i = Some e → 0 ≤ i →
  (upd_pop i f ≫= k) s = k tt (s <| pop_queue := <[Z.to_nat i := f e]> (pop_queue s) |>).
Proof.
  intros He Hi. apply bind_Done. unfold upd_pop. assert (arr_get (pop_queue s) i = Some e) as ->; [by apply arr_get_Some|done].
Qed.
Lemma bind_upd_pop_again {B} i f x (k : unit → M (net_t N) B) s q :
  0 ≤ i < Z.of_nat (length q) →
  (upd_pop i f ≫= k) (s <| pop_queue := <[Z.to_nat i := x]> q |>) = k tt (s <| pop_queue := <[Z.to_nat i := f x]> q |>).
Proof.
  intros Hi. rw (bind_upd_pop i f k _ x); [apply list_lookup_insert_eq; lia|lia|].
  change (k tt (s <| pop_queue := <[Z.to_nat i := f x]> (<[Z.to_nat i := x]> q) |>) = k tt (s <| pop_queue := <[Z.to_nat i := f x]> q |>)).
  by rewrite list_insert_insert_eq.
Qed.

(** ** The search for a slot *)

(** What the search knows after the first [i] entries. *)
Definition free_upto (q : list pop_queue_t) (i free : Z) : Prop :=
  if decide (free = -1) then ∀ j e, 0 ≤ j < i → arr_get q j = Some e → frame e ≠ 0
  else 0 ≤ free < i ∧ (∃ e, arr_get q free = Some e ∧ frame e = 0) ∧ ∀ j e, 0 ≤ j < free → arr_get q j = Some e → frame e ≠ 0.
Definition oldest_upto (q : list pop_queue_t) (i oldest : Z) : Prop :=
  if decide (oldest = -1) then ∀ j e, 0 ≤ j < i → arr_get q j = Some e → busy e ≠ 0
  else 0 ≤ oldest < i ∧ ∃ o, arr_get q oldest = Some o ∧ busy o = 0 ∧
    ∀ j e, 0 ≤ j < i → arr_get q j = Some e → busy e = 0 → timestamp o ≤ timestamp e.

Lemma free_upto_step q i free e :
  0 ≤ i → arr_get q i = Some e → free_upto q i free →
  free_upto q (i + 1) (if decide (free = -1 ∧ frame e = 0) then i else free).
Proof.
  unfold free_upto. intros Hi He Hf. destruct (decide (free = -1)) as [->|Hne].
  - destruct (decide (-1 = -1 ∧ frame e = 0)) as [[_ Hz]|Hz].
    + rw decide_False; [lia|]. split; [lia|]. split; [by exists e|done].
    + destruct (decide (-1 = -1)); [|done]. intros j x Hj Hx.
      destruct (decide (j = i)) as [->|]; [assert (x = e) as -> by congruence; tauto|apply (Hf j x); [lia|done]].
  - rw (decide_False (P := free = -1 ∧ frame e = 0)); [tauto|]. rw decide_False //. destruct Hf as (H1 & H2 & H3). split; [lia|done].
Qed.

Lemma push_scan_run n i free oldest s :
  Z.of_nat n + i = Z.of_nat (length (pop_queue s)) → 0 ≤ i →
  free_upto (pop_queue s) i free → oldest_upto (pop_queue s) i oldest →
  ∃ free' oldest', push_scan n i free oldest s = Done (free', oldest') s ∧
    free_upto (pop_queue s) (i + Z.of_nat n) free' ∧ oldest_upto (pop_queue s) (i + Z.of_nat n) oldest'.
Proof.
  revert i free oldest. induction n as [|n IH]; intros i free oldest Hn Hi Hf Ho.
  { exists free, oldest. split; [done|]. by rewrite Z.add_0_r. }
  cbn [push_scan]. destruct (arr_get_is_Some (pop_queue s) i) as [e He]; [lia|]. pose proof (proj1 (arr_get_Some _ _ _) He) as [_ He'].
  rw (bind_pop i _ _ e He' Hi). cbn zeta.
  assert (∃ b, (if decide (busy e ≠ 0) then mret false else if decide (oldest = -1) then mret true
      else o ← get_pop oldest; mret (bool_decide (timestamp e < timestamp o)) : M (net_t N) bool) s = Done b s ∧
    oldest_upto (pop_queue s) (i + 1) (if b : bool then i else oldest)) as (b & Hb & Ho').
  { unfold oldest_upto in Ho |- *. destruct (decide (busy e ≠ 0)) as [Hbusy|Hidle].
    - exists false. split; [done|]. destruct (decide (oldest = -1)) as [->|Hne].
      + intros j x Hj Hx. destruct (decide (j = i)) as [->|]; [congruence|]. apply (Ho j x); [lia|done].
      + destruct Ho as (H1 & o & H2 & H3 & H4). split; [lia|]. exists o. split; [done|]. split; [done|]. intros j x Hj Hx Hx0.
        destruct (decide (j = i)) as [->|]; [congruence|]. apply (H4 j x); [lia|done|done].
    - destruct (decide (oldest = -1)) as [->|Hne].
      + exists true. split; [done|]. rw decide_False; [lia|]. split; [lia|]. exists e. split; [done|]. split; [lia|]. intros j x Hj Hx Hx0.
        destruct (decide (j = i)) as [->|]; [assert (x = e) as -> by congruence; lia|]. destruct (Ho j x); [lia|done|done].
      + destruct Ho as (H1 & o & H2 & H3 & H4). exists (bool_decide (timestamp e < timestamp o)).
        pose proof (proj1 (arr_get_Some _ _ _) H2) as [_ H2']. split; [by rw (bind_pop oldest _ _ o H2'); [lia|]|].
        destruct (decide (timestamp e < timestamp o)) as [Hlt|Hge].
        * rw bool_decide_true //. rw decide_False; [lia|]. split; [lia|]. exists e. split; [done|]. split; [lia|]. intros j x Hj Hx Hx0.
          destruct (decide (j = i)) as [->|]; [assert (x = e) as -> by congruence; lia|].
          pose proof (H4 j x ltac:(lia) Hx Hx0). lia.
        * rw bool_decide_false //. rw decide_False //. split; [lia|]. exists o. split; [done|]. split; [done|]. intros j x Hj Hx Hx0.
          destruct (decide (j = i)) as [->|]; [assert (x = e) as -> by congruence; lia|]. apply (H4 j x); [lia|done|done]. }
  rw (bind_Done _ _ _ _ _ Hb).
  destruct (IH (i + 1) _ _ ltac:(lia) ltac:(lia) (free_upto_step _ _ _ _ Hi He Hf) Ho') as (f' & o' & Hrun & H1 & H2).
  exists f', o'. rw Hrun. split; [done|]. by replace (i + Z.of_nat (S n)) with (i + 1 + Z.of_nat n) by lia.
Qed.

(** ** Pushing a frame *)

Definition clock (e : N) : Z := u32 (rtc_get_msec e).1.
Definition later (e : N) : N := (rtc_get_msec e).2.

Lemma bind_msec {B} (k : Z → M (net_t N) B) s : (msec ≫= k) s = k (clock (env s)) (s <| env := later (env s) |>).
Proof. unfold msec, ask, clock, later. unfold mbind, M_bind, obind. by destruct (rtc_get_msec (env s)). Qed.

(** The entry of a new frame. *)
Definition pushed (f now src : Z) : pop_queue_t := PopEntry f (-1) now src 0.

Lemma push_tail i x f src s :
  pop_queue s !! i = Some x →
  (upd_pop (Z.of_nat i) (λ e, e <| frame := f |>);;
   upd_pop (Z.of_nat i) (λ e, e <| socket := -1 |>);;
   now ← msec;
   upd_pop (Z.of_nat i) (λ e, e <| timestamp := now |>);;
   upd_pop (Z.of_nat i) (λ e, e <| from := src |>);;
   upd_pop (Z.of_nat i) (λ e, e <| busy := 0 |>);;
   sem_V #pop_queue_sem;;
   sem_V #pop_service_thread_sem;;
   mret 1 : M (net_t N) Z) s =
  Done 1 (s <| pop_queue := <[i := pushed f (clock (env s)) src]> (pop_queue s) |> <| env := later (env s) |>
            <| pop_queue_sem := pop_queue_sem s + 1 |> <| pop_service_thread_sem := pop_service_thread_sem s + 1 |>).
Proof.
  intros Hx. pose proof (lookup_lt_Some _ _ _ Hx).
  rw (bind_upd_pop (Z.of_nat i) _ _ _ x); [by rewrite Nat2Z.id|lia|]. rw bind_upd_pop_again; [lia|]. rw bind_msec.
  change (s <| pop_queue := ?l |> <| env := ?e |>) with (s <| env := e |> <| pop_queue := l |>).
  do 3 (rw bind_upd_pop_again; [lia|]). rewrite Nat2Z.id. by destruct s, x.
Qed.

(** The oldest entry that is not busy. *)
Definition oldest (q : list pop_queue_t) (i : nat) (o : pop_queue_t) : Prop :=
  q !! i = Some o ∧ busy o = 0 ∧ ∀ j e, q !! j = Some e → busy e = 0 → timestamp o ≤ timestamp e.
Definition full (q : list pop_queue_t) : Prop := Forall (λ e, frame e ≠ 0) q.

Lemma free_full q free :
  free_upto q (Z.of_nat (length q)) free →
  (free = -1 ∧ full q) ∨ ∃ i x, free = Z.of_nat i ∧ q !! i = Some x ∧ frame x = 0 ∧ full (take i q).
Proof.
  unfold free_upto. intros Hf. assert (∀ j e, q !! j = Some e → arr_get q (Z.of_nat j) = Some e) as Hget.
  { intros j e He. apply arr_get_Some. split; [lia|]. by rewrite Nat2Z.id. }
  destruct (decide (free = -1)) as [->|Hne].
  - left. split; [done|]. apply Forall_lookup. intros j e He. apply (Hf (Z.of_nat j) e); [apply lookup_lt_Some in He; lia|by apply Hget].
  - right. destruct Hf as (H1 & (x & Hx & Hx0) & H2). apply arr_get_Some in Hx as [_ Hx]. exists (Z.to_nat free), x.
    split; [lia|]. split; [done|]. split; [done|]. apply Forall_lookup. intros j e [He Hlt]%lookup_take_Some.
    apply (H2 (Z.of_nat j) e); [lia|by apply Hget].
Qed.
Lemma oldest_all q old :
  oldest_upto q (Z.of_nat (length q)) old →
  (old = -1 ∧ Forall (λ e, busy e ≠ 0) q) ∨ ∃ i o, old = Z.of_nat i ∧ oldest q i o.
Proof.
  unfold oldest_upto. intros Hf. assert (∀ j e, q !! j = Some e → arr_get q (Z.of_nat j) = Some e) as Hget.
  { intros j e He. apply arr_get_Some. split; [lia|]. by rewrite Nat2Z.id. }
  destruct (decide (old = -1)) as [->|Hne].
  - left. split; [done|]. apply Forall_lookup. intros j e He. apply (Hf (Z.of_nat j) e); [apply lookup_lt_Some in He; lia|by apply Hget].
  - right. destruct Hf as (H1 & o & Ho & Hb & H2). apply arr_get_Some in Ho as [_ Ho]. exists (Z.to_nat old), o.
    split; [lia|]. split; [done|]. split; [done|]. intros j e He Hbe.
    apply (H2 (Z.of_nat j) e); [apply lookup_lt_Some in He; lia|by apply Hget|done].
Qed.

Lemma memory_ok_same s s' : memory_ok s → pool s' = pool s → ram s' = ram s → memory_ok s'.
Proof. intros [H1 H2 H3 H4] Hp Hr. constructor; by rewrite ?Hp ?Hr. Qed.

Lemma pop_push_frame_spec src dst f s :
  memory_ok s → queue_ok (pop_queue s) (pool s) → pop_queue_sem s = 1 →
  frame_ok (pool s) f → f ∉ frames (pop_queue s) →
  let q := pop_queue s in
  ∃ ret s', pop_push_frame src dst PROTOCOL_POP f s = Done ret s' ∧
    memory_ok s' ∧ queue_ok (pop_queue s') (pool s') ∧ pop_queue_sem s' = 1 ∧ ram s' = ram s ∧ open_sockets s' = open_sockets s ∧
    ((ret = 1 ∧ ∃ i x, q !! i = Some x ∧ frame x = 0 ∧ full (take i q) ∧
        s' = s <| pop_queue := <[i := pushed f (clock (env s)) src]> q |> <| env := later (env s) |>
               <| pop_service_thread_sem := pop_service_thread_sem s + 1 |>) ∨
     (ret = 0 ∧ full q ∧ pop_queue s' = q ∧ pool s' = pool s ∧ pop_service_thread_sem s' = pop_service_thread_sem s ∧
        (Forall (λ e, busy e ≠ 0) q ∨ ∃ i o, oldest q i o ∧ u32 (clock (env s) - timestamp o) < CONFIG_POP_QUEUE_MIN_AGE)) ∨
     (ret = 1 ∧ full q ∧ ∃ i o k, oldest q i o ∧ CONFIG_POP_QUEUE_MIN_AGE ≤ u32 (clock (env s) - timestamp o) ∧
        frame o = frame_at k ∧ free_list (pool s') ≡ₚ k :: free_list (pool s) ∧
        pop_queue s' = <[i := pushed f (clock (later (env s))) src]> q ∧ pop_service_thread_sem s' = pop_service_thread_sem s + 1)).
Proof.
  intros Hm Hq Hsem Hf Hnew q. pose proof (frame_ok_nonzero _ _ (mo_pool _ Hm) Hf) as Hf0.
  unfold pop_push_frame. rw bind_assert //. rw bind_sem_P; [cbn; lia|]. cbn [lget lset]. rewrite Hsem.
  set (s1 := s <| pop_queue_sem := 1 - 1 |>).
  destruct (push_scan_run (Z.to_nat CONFIG_POP_QUEUE_SIZE) 0 (-1) (-1) s1) as (free & old & Hscan & Hfree & Hold).
  { change (pop_queue s1) with q. rewrite (qo_length _ _ Hq). done. }
  { lia. }
  { intros j e Hj. lia. }
  { intros j e Hj. lia. }
  change (pop_queue s1) with q in Hfree, Hold. rewrite Z.add_0_l Z2Nat.id in Hfree, Hold; [done|].
  rewrite -(qo_length _ _ Hq) in Hfree, Hold. rw (bind_Done _ _ _ _ _ Hscan). cbn beta iota.
  apply free_full in Hfree as [[-> Hfull]|(i & x & -> & Hx & Hx0 & Hbefore)].
  2: { rw (decide_True (P := Z.of_nat i ≠ -1)); [lia|]. rw bind_ret. rw (decide_False (P := Z.of_nat i = -1)); [lia|]. cbn zeta.
    rw (bind_pop (Z.of_nat i) _ s1 x); [by rewrite Nat2Z.id|lia|]. rw (decide_False (P := frame x ≠ 0)); [tauto|]. rw bind_ret.
    eexists 1, _. split; [exact (push_tail i x f src s1 Hx)|].
    set (s' := s1 <| pop_queue := _ |> <| env := _ |> <| pop_queue_sem := _ |> <| pop_service_thread_sem := _ |>).
    split; [by apply (memory_ok_same s)|]. split.
    { apply (queue_ok_set _ _ _ x); [done|done|by left|right; split; [done|by left]]. }
    split; [done|]. split; [done|]. split; [done|]. left. split; [done|]. exists i, x. split_and!; [done|done|done|].
    clear - Hsem. subst s' s1 q. destruct s. cbn in Hsem. by subst. }
  destruct (decide (-1 ≠ -1)); [done|]. apply oldest_all in Hold as [[-> Hbusy]|(i & o & -> & Ho)].
  { destruct (decide (-1 = -1)); [|done]. rw bind_ret. eexists 0, _. split; [reflexivity|].
    split; [by apply (memory_ok_same s)|]. split_and!; try done. right. left. split_and!; try done. by left. }
  rw (decide_False (P := Z.of_nat i = -1)); [lia|]. rw bind_bind bind_msec. destruct Ho as (Hoq & Hob & Homin).
  rw bind_bind. rw (bind_pop (Z.of_nat i) _ _ o); [by rewrite Nat2Z.id|lia|]. rw bind_ret.
  change (env s1) with (env s). destruct (decide (u32 (clock (env s) - timestamp o) < CONFIG_POP_QUEUE_MIN_AGE)) as [Hyoung|Hage].
  { rw bool_decide_true //. eexists 0, _. split; [reflexivity|].
    split; [by apply (memory_ok_same s)|]. split_and!; try done. right. left. split_and!; try done. right. by exists i, o. }
  rw bool_decide_false //. destruct (decide (-1 = -1)); [|done]. cbn zeta.
  set (s2 := s1 <| env := later (env s) |>).
  rw (bind_pop (Z.of_nat i) _ s2 o); [by rewrite Nat2Z.id|lia|].
  pose proof (proj1 (Forall_lookup _ _) Hfull _ _ Hoq) as Ho0. cbn in Ho0. rw (decide_True (P := frame o ≠ 0)); [done|].
  assert (frame o ∈ frames q) as Hin by (apply elem_of_frames; split; [done|]; exists o; split; [exact (list_elem_of_lookup_2 _ _ _ Hoq)|done]).
  pose proof (proj1 (Forall_forall _ _) (qo_frames _ _ Hq) _ Hin) as (k & Hk & Hkr & Hkfree).
  destruct (free_frame_run k s2) as (p' & Hfree & Hp' & Hfl & Hst & Hnum); [by apply (memory_ok_same s)|done|done|].
  rewrite Hk. rw (bind_Done _ _ _ _ _ Hfree). set (s3 := s2 <| pool := p' |>).
  pose proof (push_tail i o f src s3 Hoq) as Htail. exists 1. eexists. split; [exact Htail|]. clear Htail.
  set (s' := s3 <| pop_queue := _ |> <| env := _ |> <| pop_queue_sem := _ |> <| pop_service_thread_sem := _ |>).
  assert (memory_ok s') as Hm'.
  { destruct Hm as [M1 M2 M3 M4]. constructor; [done|..]; change (pool s') with p'; by rewrite ?Hnum. }
  split; [done|]. split.
  { assert (queue_ok (<[i := pushed f (clock (later (env s))) src]> q) (pool s)) as Hq'.
    { apply (queue_ok_set _ _ _ o); [done|done|by left|right; split; [done|by left]]. }
    apply (queue_ok_free _ (pool s) p' k Hq'); [|done|done|done].
    rewrite (frames_insert _ _ _ _ Hoq). pose proof (qo_NoDup _ _ Hq) as Hnd. rewrite (frames_split _ _ _ Hoq) in Hnd.
    unfold frame_of in Hnd at 1. rw decide_True // in Hnd. rewrite Hk in Hnd. apply NoDup_app in Hnd as (A & B & C).
    apply NoDup_app in C as (_ & C & D). unfold frame_of. rw decide_True //. cbn [frame pushed app].
    rewrite not_elem_of_app. split; [intros Hi; by apply (B _ Hi), elem_of_app; left; left|].
    apply not_elem_of_cons. split; [intros <-; rewrite Hk in Hin; done|]. apply C. by left. }
  split; [done|]. split; [done|]. split; [done|]. right. right. split; [done|]. split; [done|]. exists i, o, k.
  split; [done|]. split; [lia|]. split; [done|]. split; [done|]. by split.
Qed.

(** Pop_push_frame puts a frame into the first free slot of the queue.
    When there is none it takes the place of the oldest frame nobody is working on,
    whose page it frees, provided that one is old enough; otherwise it refuses the
    frame and the queue stays as it was. An accepted frame is stamped with the time and
    the service thread is signalled. No page is in the queue twice. *)
Theorem pop_push_frame_queues src dst f s :
  memory_ok s → queue_ok (pop_queue s) (pool s) → pop_queue_sem s = 1 →
  frame_ok (pool s) f → f ∉ frames (pop_queue s) →
  let q := pop_queue s in
  ∃ ret s', pop_push_frame src dst PROTOCOL_POP f s = Done ret s' ∧
    memory_ok s' ∧ queue_ok (pop_queue s') (pool s') ∧ pop_queue_sem s' = 1 ∧ ram s' = ram s ∧ open_sockets s' = open_sockets s ∧
    ((ret = 1 ∧ ∃ i x, q !! i = Some x ∧ frame x = 0 ∧ full (take i q) ∧
        s' = s <| pop_queue := <[i := pushed f (clock (env s)) src]> q |> <| env := later (env s) |>
               <| pop_service_thread_sem := pop_service_thread_sem s + 1 |>) ∨
     (ret = 0 ∧ full q ∧ pop_queue s' = q ∧ pool s' = pool s ∧ pop_service_thread_sem s' = pop_service_thread_sem s ∧
        (Forall (λ e, busy e ≠ 0) q ∨ ∃ i o, oldest q i o ∧ u32 (clock (env s) - timestamp o) < CONFIG_POP_QUEUE_MIN_AGE)) ∨
     (ret = 1 ∧ full q ∧ ∃ i o k, oldest q i o ∧ CONFIG_POP_QUEUE_MIN_AGE ≤ u32 (clock (env s) - timestamp o) ∧
        frame o = frame_at k ∧ free_list (pool s') ≡ₚ k :: free_list (pool s) ∧
        pop_queue s' = <[i := pushed f (clock (later (env s))) src]> q ∧ pop_service_thread_sem s' = pop_service_thread_sem s + 1)).
Proof. exact (pop_push_frame_spec src dst f s). Qed.
End run.
End PopSpec.
