(* ===== verification/PopService.v ===== *)
(** * Properties of POP: the service thread

    One turn of its loop: the first packet of the queue it can handle is
    delivered to the socket that listens at its port, or thrown away. *)
From S2P Require Import Prelude Bytes Libc Kmalloc Bitmap Pagepool Sync Net SocketSpec NetMem PopSpec.
Import Libc Kmalloc Pagepool Net SocketSpec NetMem PopSpec.

Module PopService.

(** The first POP socket that listens at a port. *)
Definition listens (d : Z) (e : socket_descriptor_t) : Prop := protocol e = PROTOCOL_POP ∧ port e = d.
#[export] Instance listens_dec d e : Decision (listens d e) := decide (_ ∧ _).
Definition recipient (l : list socket_descriptor_t) (d : Z) : option Z := (λ r, Z.of_nat r.1) <$> list_find (listens d) l.

(** The entry once its recipient is known. *)
Definition resolved (l : list socket_descriptor_t) (d : Z) (e : pop_queue_t) : pop_queue_t :=
  if decide (socket e = -1) then match recipient l d with Some j => e <| socket := j |> | None => e end else e.

(** Nothing to do for an entry: it is empty, or its socket does not receive. *)
Definition waiting (l : list socket_descriptor_t) (e : pop_queue_t) : Prop :=
  frame e = 0 ∨ (0 ≤ socket e ∧ ∃ o, l !! Z.to_nat (socket e) = Some o ∧ protocol o = PROTOCOL_POP ∧ rbuf o = 0).

(** The physical address of the packet in page [k], and its header. *)
Definition data (k : Z) : Z := k * PAGE_SIZE + SIZEOF_FRAME_HEADER.
Definition header (sp d size : Z) : list Z := be16 sp ++ be16 d ++ be_split size.

Lemma slice_parts (m : list Z) a n1 n2 l1 l2 :
  0 ≤ a → 0 ≤ n1 → 0 ≤ n2 → a + n1 + n2 ≤ Z.of_nat (length m) → slice m a (n1 + n2) = l1 ++ l2 → Z.of_nat (length l1) = n1 →
  slice m a n1 = l1 ∧ slice m (a + n1) n2 = l2.
Proof.
  intros Ha H1 H2 Hl Hs Hl1. rewrite slice_app // in Hs. apply app_inj_1 in Hs; [done|]. rewrite length_slice; lia.
Qed.

Lemma header_parts m k sp d size :
  0 ≤ data k → data k + 8 ≤ Z.of_nat (length m) → slice m (data k) 8 = header sp d size →
  slice m (data k) 2 = be16 sp ∧ slice m (data k + 2) 2 = be16 d ∧ slice m (data k + 4) 4 = be_split size.
Proof.
  intros Ha Hl Hs. destruct (slice_parts m (data k) 2 6 (be16 sp) (be16 d ++ be_split size)) as [H1 H2]; [lia..|done|done|].
  destruct (slice_parts m (data k + 2) 2 4 (be16 d) (be_split size)) as [H3 H4]; [lia..|done|done|].
  split_and!; [done|done|]. by replace (data k + 4) with (data k + 2 + 2) by lia.
Qed.

Lemma frame_at_kp k : frame_at k = kp (data k).
Proof. unfold frame_at, kp, data. lia. Qed.

Section run.
Context {N : Type} `{NetEnv N}.
Implicit Types s : net_t N.

Lemma page_inside s k :
  memory_ok s → pagepool_static_end (pool s) ≤ k < pagepool_num_pages (pool s) →
  0 ≤ k * PAGE_SIZE ∧ inside (ram s) (k * PAGE_SIZE, PAGE_SIZE) ∧ k * PAGE_SIZE + PAGE_SIZE ≤ 0x20000000.
Proof.
  intros [H1 H2 H3 _] Hk. pose proof (pi_static _ H1). unfold inside. cbn. rewrite H3. unfold PAGE_SIZE in *. lia.
Qed.

Lemma find_recipient_run i e k d s :
  memory_ok s → sockets_ok (open_sockets s) → pop_queue s !! i = Some e →
  pagepool_static_end (pool s) ≤ k < pagepool_num_pages (pool s) → 0 ≤ d < 2 ^ 16 → slice (ram s) (data k + 2) 2 = be16 d →
  find_recipient (Z.of_nat i) (frame_at k) s =
    Done tt (s <| pop_queue := <[i := resolved (open_sockets s) d e]> (pop_queue s) |>).
Proof.
  intros Hm Hok He Hk Hd Hs. unfold find_recipient, resolved. rw (bind_pop (Z.of_nat i) _ s e); [by rewrite Nat2Z.id|lia|].
  destruct (page_inside s k Hm Hk) as (P1 & (_ & _ & P2) & P3). unfold PAGE_SIZE in *.
  destruct (decide (socket e = -1)) as [Hun|_].
  2: { unfold mret, M_ret. f_equal. rewrite list_insert_id //. by destruct s. }
  set (t := λ j : Z, o ← get_socket j; if decide (protocol o = PROTOCOL_POP) then d0 ← load16 (frame_at k + 2); mret (bool_decide (port o = d0)) else mret false : M (net_t N) bool).
  assert (find_loop (Z.to_nat CONFIG_MAX_OPEN_SOCKETS) 0 t s = Done (recipient (open_sockets s) d) s) as Hfind.
  { rewrite -(so_length _ Hok) Nat2Z.id. rewrite (find_loop_list (listens d) (open_sockets s) 0 t s); [|done].
    intros j o Ho. rewrite Z.add_0_l. subst t. cbn beta. rw (bind_socket (Z.of_nat j) _ s o); [by rewrite Nat2Z.id|lia|].
    unfold listens. destruct (decide (protocol o = PROTOCOL_POP)) as [Hp|Hp].
    - replace (frame_at k + 2) with (kp (data k + 2)) by (unfold frame_at, kp, data, PAGE_SIZE; lia).
      rw (bind_load16 _ d); [unfold data, PAGE_SIZE, SIZEOF_FRAME_HEADER; lia|done|done|].
      unfold mret, M_ret. f_equal. apply bool_decide_ext. tauto.
    - unfold mret, M_ret. f_equal. symmetry. apply bool_decide_false. tauto. }
  rw (bind_Done _ _ _ _ _ Hfind). destruct (recipient (open_sockets s) d) as [j|].
  - unfold upd_pop. assert (arr_get (pop_queue s) (Z.of_nat i) = Some e) as ->; [apply arr_get_Some; split; [lia|by rewrite Nat2Z.id]|].
    by rewrite Nat2Z.id.
  - unfold mret, M_ret. f_equal. rewrite list_insert_id //. by destruct s.
Qed.

(** The search passes over entries with nothing to do. *)
Lemma scan_skip i n j s :
  Forall (waiting (open_sockets s)) (take i (drop j (pop_queue s))) → (j + i ≤ length (pop_queue s))%nat →
  service_scan (i + n) (Z.of_nat j) s = service_scan n (Z.of_nat (j + i)) s.
Proof.
  revert j. induction i as [|i IH]; intros j Hw Hl; [by rewrite Nat.add_0_r|].
  destruct (lookup_lt_is_Some_2 (pop_queue s) j) as [e He]; [lia|]. rewrite (drop_S _ _ _ He) in Hw. cbn [take] in Hw.
  apply Forall_cons in Hw as [Hw Hrest]. specialize (IH (S j) Hrest ltac:(lia)).
  replace (Z.of_nat (S j)) with (Z.of_nat j + 1) in IH by lia. replace (S j + i)%nat with (j + S i)%nat in IH by lia.
  cbn [Nat.add service_scan]. rw (bind_pop (Z.of_nat j) _ s e); [by rewrite Nat2Z.id|lia|].
  destruct Hw as [Hw|(Hj & o & Ho & Hp & Hr)]; [by rw decide_True|]. destruct (decide (frame e = 0)); [done|]. cbn zeta.
  assert (find_recipient (Z.of_nat j) (frame e) s = Done tt s) as Hfind.
  { unfold find_recipient. rw (bind_pop (Z.of_nat j) _ s e); [by rewrite Nat2Z.id|lia|]. by rw decide_False; [lia|]. }
  rw (bind_Done _ _ _ _ _ Hfind). rw (bind_pop (Z.of_nat j) _ s e); [by rewrite Nat2Z.id|lia|].
  rw (decide_False (P := socket e = -1)); [lia|]. rw (decide_True (P := 0 ≤ socket e)); [lia|]. rw bind_bind.
  rw (bind_socket (socket e) _ s o Ho Hj). rw bool_decide_false; [tauto|]. rw bind_ret.
  rw (bind_socket (socket e) _ s o Ho Hj). by rw decide_False; [tauto|].
Qed.

(** What a turn does with the first entry that is not waiting. *)
Definition action_of (l : list socket_descriptor_t) (i : nat) (e' : pop_queue_t) : pop_action :=
  if decide (socket e' = -1) then POP_ACTION_DISCARD (Z.of_nat i) (frame e')
  else match l !! Z.to_nat (socket e') with
       | Some o =>
         if decide (protocol o ≠ PROTOCOL_POP) then POP_ACTION_DISCARD (Z.of_nat i) (frame e')
         else if decide (rbuf o ≠ 0) then POP_ACTION_TRANSFER (Z.of_nat i) (frame e') else POP_ACTION_NONE
       | None => POP_ACTION_NONE
       end.

Lemma resolved_entry l d e : sockets_ok l → entry_ok e → entry_ok (resolved l d e).
Proof.
  intros Hok He. unfold resolved. destruct (decide (socket e = -1)); [|done]. unfold recipient.
  destruct (list_find (listens d) l) as [[j o]|] eqn:E; [|done]. apply list_find_Some in E as (Hj & _).
  apply lookup_lt_Some in Hj. right. pose proof (so_length _ Hok). change (0 ≤ Z.of_nat j < CONFIG_MAX_OPEN_SOCKETS). lia.
Qed.
Lemma resolved_frame l d e : frame (resolved l d e) = frame e ∧ from (resolved l d e) = from e.
Proof. unfold resolved. destruct (decide _); [|done]. by destruct (recipient l d). Qed.

Lemma queue_frame q p i e k :
  queue_ok q p → q !! i = Some e → frame e = frame_at k →
  frame e ≠ 0 ∧ frame e ∈ frames q ∧ pagepool_static_end p ≤ k < pagepool_num_pages p ∧ k ∉ free_list p.
Proof.
  intros Hq He Hk. assert (frame e ≠ 0) as H0 by (rewrite Hk; unfold frame_at, PAGE_SIZE, SIZEOF_FRAME_HEADER; lia).
  assert (frame e ∈ frames q) as Hin.
  { apply elem_of_frames. split; [done|]. exists e. split; [exact (list_elem_of_lookup_2 _ _ _ He)|done]. }
  split; [done|]. split; [done|]. destruct (proj1 (Forall_forall _ _) (qo_frames _ _ Hq) _ Hin) as (k' & Hk' & Hr & Hf).
  rewrite Hk in Hk'. by apply frame_at_inj in Hk' as <-.
Qed.

Lemma service_look_run i e k d s :
  memory_ok s → sockets_ok (open_sockets s) → queue_ok (pop_queue s) (pool s) → open_sockets_sem s = 1 → pop_queue_sem s = 1 →
  pop_queue s !! i = Some e → Forall (waiting (open_sockets s)) (take i (pop_queue s)) →
  frame e = frame_at k → 0 ≤ d < 2 ^ 16 → slice (ram s) (data k + 2) 2 = be16 d →
  let e' := resolved (open_sockets s) d e in
  action_of (open_sockets s) i e' ≠ POP_ACTION_NONE →
  ∃ b : bool, service_look s = Done (action_of (open_sockets s) i e')
      (s <| pop_queue := <[i := if b then e' <| busy := 1 |> else e']> (pop_queue s) |>).
Proof.
  intros Hm Hok Hq Hos Hqs He Hw Hk Hd Hhdr e' Hact. destruct (queue_frame _ _ _ _ _ Hq He Hk) as (Hf0 & _ & Hr & _).
  pose proof (lookup_lt_Some _ _ _ He) as Hlt. pose proof (qo_length _ _ Hq) as Hlen.
  unfold service_look. rw bind_sem_P; [cbn; lia|]. cbn [lget lset]. rewrite Hos.
  rw bind_sem_P; [change (0 < pop_queue_sem s); lia|]. cbn [lget lset].
  set (s1 := s <| open_sockets_sem := 1 - 1 |> <| pop_queue_sem := _ |>).
  assert (s1 = s <| open_sockets_sem := 0 |> <| pop_queue_sem := 0 |>) as Hs1.
  { subst s1. clear - Hqs. destruct s. cbn in Hqs. by subst. }
  clearbody s1. subst s1. set (s1 := s <| open_sockets_sem := 0 |> <| pop_queue_sem := 0 |>).
  set (after := λ x : pop_queue_t, s1 <| pop_queue := <[i := x]> (pop_queue s) |>).
  assert (∃ b : bool, service_scan (Z.to_nat CONFIG_POP_QUEUE_SIZE) 0 s1 =
    Done (action_of (open_sockets s) i e') (after (if b then e' <| busy := 1 |> else e'))) as (b & Hscan).
  { replace (Z.to_nat CONFIG_POP_QUEUE_SIZE) with (i + S (Z.to_nat CONFIG_POP_QUEUE_SIZE - S i))%nat by lia.
    change 0 with (Z.of_nat 0) at 1. rw scan_skip; [by rewrite drop_0|change (pop_queue s1) with (pop_queue s); lia|].
    cbn [Nat.add service_scan]. rw (bind_pop (Z.of_nat i) _ s1 e); [by rewrite Nat2Z.id|lia|]. rw decide_False //. cbn zeta.
    rewrite {1 2 4}Hk. assert (find_recipient (Z.of_nat i) (frame_at k) s1 = Done tt (after e')) as Hfind.
    { apply (find_recipient_run i e k d s1); [by apply (memory_ok_same s)|done..]. }
    rw (bind_Done _ _ _ _ _ Hfind). rw (bind_pop (Z.of_nat i) _ (after e') e'); [rewrite Nat2Z.id; by apply list_lookup_insert_eq|lia|].
    pose proof (proj1 (Forall_lookup _ _) (qo_entries _ _ Hq) _ _ He) as Hent. cbn in Hent.
    pose proof (resolved_entry (open_sockets s) d e Hok Hent) as Hent'. fold e' in Hent'.
    destruct (resolved_frame (open_sockets s) d e) as [Hfr _]. fold e' in Hfr. unfold action_of in Hact |- *. rewrite Hfr Hk.
    destruct (decide (socket e' = -1)); [by exists false|]. destruct Hent' as [?|Hsock]; [done|].
    destruct (lookup_lt_is_Some_2 (open_sockets s) (Z.to_nat (socket e'))) as [o Ho]; [pose proof (so_length _ Hok); lia|]. rewrite Ho in Hact |- *.
    rw (decide_True (P := 0 ≤ socket e')); [lia|]. rw bind_bind. rw (bind_socket (socket e') _ (after e') o Ho ltac:(lia)). rw bind_ret.
    destruct (decide (protocol o ≠ PROTOCOL_POP)) as [Hp|Hp]; [rw bool_decide_true //; by exists false|]. rw bool_decide_false //.
    rw (bind_socket (socket e') _ (after e') o Ho ltac:(lia)). destruct (decide (rbuf o ≠ 0)); [|done]. exists true.
    assert (pop_queue (after e') !! Z.to_nat (Z.of_nat i) = Some e') as Hat by (rewrite Nat2Z.id; by apply list_lookup_insert_eq).
    rw (bind_upd_pop (Z.of_nat i) _ _ (after e') e' Hat ltac:(lia)). rewrite Nat2Z.id. unfold mret, M_ret. f_equal. unfold after.
    change (s1 <| pop_queue := <[i := e' <| busy := 1 |>]> (<[i := e']> (pop_queue s)) |> = s1 <| pop_queue := <[i := e' <| busy := 1 |>]> (pop_queue s) |>).
    by rewrite list_insert_insert_eq. }
  rw (bind_Done _ _ _ _ _ Hscan). exists b. rw !bind_sem_V. unfold mret, M_ret. f_equal.
  clear - Hos Hqs. subst after s1. destruct s. cbn in Hos, Hqs. by subst.
Qed.

(** ** Discarding *)

(** The slot is empty again. *)
Definition emptied (x : pop_queue_t) : pop_queue_t := x <| frame := 0 |>.

Lemma cleared_frame q p i x k :
  queue_ok q p → q !! i = Some x → frame x = frame_at k → frame_at k ∉ frames (<[i := emptied x]> q).
Proof.
  intros Hq Hx Hk. pose proof (frames_perm q i x (emptied x) Hx) as Hp. unfold frame_of in Hp.
  destruct (decide (frame (emptied x) ≠ 0)) as [Hn|_]; [by destruct Hn|].
  destruct (decide (frame x ≠ 0)) as [_|Hn]; [|destruct Hn; rewrite Hk; unfold frame_at, PAGE_SIZE, SIZEOF_FRAME_HEADER; lia].
  assert (NoDup ([frame x] ++ frames (<[i := emptied x]> q))) as Hnd by (rewrite Hp; apply Hq).
  rewrite -Hk. by apply NoDup_cons in Hnd as [? _].
Qed.

Lemma queue_emptied q p p' i x k :
  queue_ok q p → q !! i = Some x → frame x = frame_at k → free_list p' ≡ₚ k :: free_list p →
  pagepool_static_end p' = pagepool_static_end p → pagepool_num_pages p' = pagepool_num_pages p →
  queue_ok (<[i := emptied x]> q) p'.
Proof.
  intros Hq Hx Hk Hf Hs Hn. apply (queue_ok_free _ p p' k); [|by apply (cleared_frame _ p)|done..].
  apply (queue_ok_set _ _ _ x); [done|done| |by left]. exact (proj1 (Forall_lookup _ _) (qo_entries _ _ Hq) _ _ Hx).
Qed.

Lemma memory_ok_freed s s' p' :
  memory_ok s → pool s' = p' → pp_inv p' → pagepool_num_pages p' = pagepool_num_pages (pool s) →
  length (ram s') = length (ram s) → bytes_ok (ram s') → memory_ok s'.
Proof. intros [H1 H2 H3 H4] Hp Hp' Hn Hl Hb. constructor; rewrite ?Hp ?Hn; [done|done|by rewrite Hl|done]. Qed.

Lemma discard_run i x k s :
  memory_ok s → queue_ok (pop_queue s) (pool s) → pop_queue s !! i = Some x → frame x = frame_at k →
  ∃ p', discard (Z.of_nat i) (frame_at k) s = Done tt (s <| pool := p' |> <| pop_queue := <[i := emptied x]> (pop_queue s) |>) ∧
    pp_inv p' ∧ free_list p' ≡ₚ k :: free_list (pool s) ∧
    pagepool_static_end p' = pagepool_static_end (pool s) ∧ pagepool_num_pages p' = pagepool_num_pages (pool s).
Proof.
  intros Hm Hq Hx Hk. destruct (queue_frame _ _ _ _ _ Hq Hx Hk) as (_ & _ & Hr & Hfree).
  destruct (free_frame_run k s Hm Hr Hfree) as (p' & Hrun & Hp' & Hfl & Hst & Hnum). exists p'. split; [|done].
  unfold discard. rw (bind_Done _ _ _ _ _ Hrun). unfold upd_pop.
  assert (arr_get (pop_queue (s <| pool := p' |>)) (Z.of_nat i) = Some x) as ->; [apply arr_get_Some; split; [lia|by rewrite Nat2Z.id]|].
  by rewrite Nat2Z.id.
Qed.

(** ** Delivering *)

(** Where recvfrom wants the payload ([n] bytes at [b]), the sender, the number of bytes
    and the port: in memory, apart from each other and from page [k]. *)
Record target (m : list Z) (k : Z) (o : socket_descriptor_t) (n b a c p : Z) : Prop := {
  tg_rbuf : rbuf o = kp b; tg_sender : sender o = kp a; tg_copied : copied o = kp c; tg_sport : sport o = kp p;
  tg_buffer : b < 0x20000000;
  tg_inside : Forall (inside m) [(b, n); (a, 4); (c, 4); (p, 2)];
  tg_apart : all_apart [(b, n); (a, 4); (c, 4); (p, 2); (k * PAGE_SIZE, PAGE_SIZE)] }.

(** The socket after the delivery, its semaphore with one permit more. *)
Definition served (o : socket_descriptor_t) : socket_descriptor_t :=
  Socket (port o) (protocol o) ((λ v, v + 1) <$> receive_complete o) 0 0 0 0 0.

(** What is written. *)
Definition delivery (m : list Z) (k src sp n b a c p : Z) : list (Z * list Z) :=
  [(b, slice m (data k + 8) n); (a, be_split src); (c, be_split n); (p, be16 sp)].

Lemma transfer_run i x j o k sp d size n b a c p s :
  memory_ok s → sockets_ok (open_sockets s) → queue_ok (pop_queue s) (pool s) →
  pop_queue s !! i = Some x → frame x = frame_at k → socket x = Z.of_nat j → open_sockets s !! j = Some o → protocol o = PROTOCOL_POP →
  slice (ram s) (data k) 8 = header sp d size → 0 ≤ sp < 2 ^ 16 → 0 ≤ size < 2 ^ 32 → 0 ≤ bufsize o < 2 ^ 31 →
  n = Z.min size (bufsize o) → n ≤ PAGE_SIZE - 20 → target (ram s) k o n b a c p →
  ∃ p', transfer (Z.of_nat i) (frame_at k) s =
      Done tt (with_ram (write_all (ram s) (delivery (ram s) k (from x) sp n b a c p)) s
                 <| open_sockets := <[j := served o]> (open_sockets s) |> <| pool := p' |>
                 <| pop_queue := <[i := emptied x]> (pop_queue s) |>) ∧
    pp_inv p' ∧ free_list p' ≡ₚ k :: free_list (pool s) ∧
    pagepool_static_end p' = pagepool_static_end (pool s) ∧ pagepool_num_pages p' = pagepool_num_pages (pool s).
Proof.
  intros Hm Hok Hq Hx Hk Hj Ho Hp Hh Hsp Hsize Hbuf Hn Hn' [T1 T2 T3 T4 T5 Tin Tap].
  destruct (queue_frame _ _ _ _ _ Hq Hx Hk) as (_ & _ & Hr & Hfree). destruct (page_inside s k Hm Hr) as (P1 & P2 & P3).
  pose proof (mo_bytes _ Hm) as Hb. set (m := ram s) in *.
  apply Forall_cons in Tin as [I1 Tin]. apply Forall_cons in Tin as [I2 Tin]. apply Forall_cons in Tin as [I3 Tin]. apply Forall_cons in Tin as [I4 _].
  cbn [all_apart] in Tap. rewrite !Forall_cons in Tap. destruct Tap as ((A1 & A2 & A3 & A4 & _) & (A5 & A6 & A7 & _) & (A8 & A9 & _) & (A10 & _) & _).
  assert (Z.of_nat (length m) ≤ 0x20000000) as Hlen by (rewrite (mo_ram _ Hm); apply (mo_segment _ Hm)).
  destruct P2 as (_ & _ & P2). cbn in P2. unfold PAGE_SIZE in *.
  destruct (header_parts m k sp d size) as (H1 & H2 & H3); [unfold data, PAGE_SIZE, SIZEOF_FRAME_HEADER; lia..|done|].
  assert (0 ≤ data k ∧ data k + 8 + n ≤ k * 4096 + 4096 ∧ data k = k * 4096 + 12) as (D1 & D2 & D3) by (unfold data, PAGE_SIZE, SIZEOF_FRAME_HEADER; lia).
  unfold apart, inside in *. cbn in I1, I2, I3, I4, A1, A2, A3, A4, A5, A6, A7, A8, A9, A10.
  assert (length (slice m (data k + 8) n) = Z.to_nat n) as Hpl by (apply length_slice; lia).
  assert (Forall (λ w, inside m (region w)) (delivery m k (from x) sp n b a c p)) as Hins.
  { unfold delivery. repeat (apply Forall_cons_2; [unfold inside, region; cbn; rewrite ?Hpl; lia|]). apply Forall_nil_2. }
  unfold transfer. rw (bind_pop (Z.of_nat i) _ s x); [by rewrite Nat2Z.id|lia|]. rewrite Hj. rw (bind_socket (Z.of_nat j) _ s o); [by rewrite Nat2Z.id|lia|].
  rewrite frame_at_kp. replace (kp (data k) + 4) with (kp (data k + 4)) by (unfold kp; lia).
  replace (kp (data k) + SIZEOF_POP_HEADER) with (kp (data k + 8)) by (unfold kp, SIZEOF_POP_HEADER; lia).
  assert (s = with_ram m s) as Es by by destruct s. rewrite {1}Es.
  rw (load32_in m _ size); [lia|done|done|]. rewrite -Hn T1 T2 T3 T4. assert (i32 n = n) as -> by (apply i32_small; lia).
  rw copy_in; [done|lia|lia|unfold inside; cbn; lia|unfold inside; cbn; lia|unfold apart; cbn; lia|].
  pose proof (length_write_all m (take 1 (delivery m k (from x) sp n b a c p)) ltac:(by apply Forall_take)) as L1. cbn in L1.
  pose proof (length_write_all m (take 2 (delivery m k (from x) sp n b a c p)) ltac:(by apply Forall_take)) as L2. cbn in L2.
  pose proof (length_write_all m (take 3 (delivery m k (from x) sp n b a c p)) ltac:(by apply Forall_take)) as L3. cbn in L3.
  rw store32_in; [lia|unfold inside; cbn; rewrite L1; lia|].
  rw store32_in; [lia|unfold inside; cbn; rewrite L2; lia|].
  rw (load16_in _ _ sp); [lia|done| |].
  { rewrite -H1. apply (write_all_apart m (take 3 (delivery m k (from x) sp n b a c p)) (data k, 2)).
    - by apply Forall_take.
    - unfold inside. cbn. lia.
    - repeat (apply Forall_cons_2; [unfold apart, region; cbn; rewrite ?Hpl; lia|]). apply Forall_nil_2. }
  rw store16_in; [lia|unfold inside; cbn; rewrite L3; lia|].
  pose proof (length_write_all m (delivery m k (from x) sp n b a c p) Hins) as L4.
  assert (bytes_ok (write_all m (delivery m k (from x) sp n b a c p))) as B4.
  { apply bytes_write_all; [done|]. repeat (apply Forall_cons_2; [first [by apply slice_bytes|apply be_split_bytes|apply be16_bytes]|]). apply Forall_nil_2. }
  match goal with |- context [with_ram ?w s] => change w with (write_all m (delivery m k (from x) sp n b a c p)) end.
  set (m4 := write_all m (delivery m k (from x) sp n b a c p)) in *. set (s1 := with_ram m4 s).
  pose proof (lookup_lt_Some _ _ _ Ho) as Hlt.
  rw (bind_upd_socket (Z.of_nat j) _ _ s1 o); [by rewrite Nat2Z.id|lia|].
  do 4 (rw bind_upd_again; [change (0 ≤ Z.of_nat j < Z.of_nat (length (open_sockets s))); lia|]). rewrite Nat2Z.id.
  set (o1 := o <| rbuf := 0 |> <| bufsize := 0 |> <| sender := 0 |> <| copied := 0 |> <| sport := 0 |>).
  set (s2 := s1 <| open_sockets := <[j := o1]> (open_sockets s1) |>).
  assert (memory_ok s2) as Hm2 by (apply (memory_ok_freed s s2 (pool s)); [done|done|apply Hm|done|done|done]).
  destruct (free_frame_run k s2 Hm2 Hr Hfree) as (p' & Hrun & Hp' & Hfl & Hst & Hnum). exists p'. split; [|done].
  rewrite -frame_at_kp. rw (bind_Done _ _ _ _ _ Hrun). unfold with_sem. rw bind_bind.
  rw (bind_socket (Z.of_nat j) _ _ o1); [rewrite Nat2Z.id; by apply list_lookup_insert_eq|lia|].
  pose proof (proj1 (Forall_lookup _ _) (so_entries _ Hok) _ _ Ho) as Hso. unfold socket_ok in Hso.
  destruct (decide (protocol o = 0)) as [Hz|_]; [rewrite Hp in Hz; done|]. destruct Hso as (_ & [v Hv] & _).
  change (receive_complete o1) with (receive_complete o). rewrite Hv. rw bind_sem_V.
  assert (lset (socket_sem (Z.of_nat j)) (lget (socket_sem (Z.of_nat j)) (s2 <| pool := p' |>) + 1) (s2 <| pool := p' |>) =
    s2 <| pool := p' |> <| open_sockets := <[j := served o]> (open_sockets s) |>) as ->.
  { cbn [lset lget socket_sem]. change (open_sockets (s2 <| pool := p' |>)) with (<[j := o1]> (open_sockets s)).
    rewrite (proj2 (arr_get_Some (<[j := o1]> (open_sockets s)) (Z.of_nat j) o1)); [split; [lia|rewrite Nat2Z.id; by apply list_lookup_insert_eq]|].
    cbn [mbind option_bind]. change (receive_complete o1) with (receive_complete o). rewrite Hv. cbn [default from_option id].
    rewrite Nat2Z.id. assert (served o = o1 <| receive_complete := Some (v + 1) |>) as -> by (unfold served; by rewrite Hv).
    by rewrite !list_insert_alter list_alter_alter_eq. }
  unfold upd_pop.
  assert (arr_get (pop_queue (s2 <| pool := p' |> <| open_sockets := <[j := served o]> (open_sockets s) |>)) (Z.of_nat i) = Some x) as ->.
  { apply arr_get_Some. split; [lia|by rewrite Nat2Z.id]. }
  by rewrite Nat2Z.id.
Qed.

(** ** A turn of the service thread *)

(** The turn can begin: the locks are free, the tables are in order, and entry [i] is
    the first with something to do: a packet in page [k] with this header. *)
Record turn_ready s (i : nat) (e : pop_queue_t) (k sp d size : Z) : Prop := {
  tr_memory : memory_ok s; tr_sockets : sockets_ok (open_sockets s); tr_queue : queue_ok (pop_queue s) (pool s);
  tr_sems : open_sockets_sem s = 1 ∧ pop_queue_sem s = 1;
  tr_entry : pop_queue s !! i = Some e; tr_first : Forall (waiting (open_sockets s)) (take i (pop_queue s));
  tr_frame : frame e = frame_at k; tr_header : slice (ram s) (data k) 8 = header sp d size;
  tr_ports : 0 ≤ sp < 2 ^ 16 ∧ 0 ≤ d < 2 ^ 16; tr_size : 0 ≤ size < 2 ^ 32 }.

Lemma turn_look s i e k sp d size :
  turn_ready s i e k sp d size →
  let e' := resolved (open_sockets s) d e in
  action_of (open_sockets s) i e' ≠ POP_ACTION_NONE →
  ∃ x s1, service_look s = Done (action_of (open_sockets s) i e') s1 ∧ s1 = s <| pop_queue := <[i := x]> (pop_queue s) |> ∧
    frame x = frame_at k ∧ socket x = socket e' ∧ from x = from e ∧ queue_ok (pop_queue s1) (pool s).
Proof.
  intros [Hm Hok Hq [Ho Hqs] He Hw Hk Hh [Hsp Hd] Hsize] e' Hact.
  destruct (queue_frame _ _ _ _ _ Hq He Hk) as (_ & _ & Hr & _). destruct (page_inside s k Hm Hr) as (P1 & (_ & _ & P2) & P3). cbn in P2.
  destruct (header_parts (ram s) k sp d size) as (_ & H2 & _); [unfold data, PAGE_SIZE, SIZEOF_FRAME_HEADER in *; lia..|done|].
  destruct (service_look_run i e k d s Hm Hok Hq Ho Hqs He Hw Hk Hd H2 Hact) as (b & Hrun).
  destruct (resolved_frame (open_sockets s) d e) as [Hf Hs]. fold e' in Hrun, Hf, Hs.
  exists (if b then e' <| busy := 1 |> else e'). eexists. split; [exact Hrun|]. split; [done|].
  split; [by destruct b; rewrite -Hk -Hf|]. split; [by destruct b|]. split; [by destruct b; rewrite -Hs|].
  apply (queue_ok_set _ _ _ e); [done|done| |right].
  - pose proof (proj1 (Forall_lookup _ _) (qo_entries _ _ Hq) _ _ He) as Hent. pose proof (resolved_entry _ d e Hok Hent) as Hent'. by destruct b.
  - assert (frame (if b then e' <| busy := 1 |> else e') = frame e) as -> by (by destruct b; rewrite -Hf).
    split; [rewrite Hk; exists k; split; [done|]; by destruct (queue_frame _ _ _ _ _ Hq He Hk) as (_ & _ & ? & ?)|by right].
Qed.

Lemma service_turn_delivery s i e k sp d size j o n b a c p :
  turn_ready s i e k sp d size →
  socket (resolved (open_sockets s) d e) = Z.of_nat j → open_sockets s !! j = Some o → protocol o = PROTOCOL_POP → rbuf o ≠ 0 →
  0 ≤ bufsize o < 2 ^ 31 → n = Z.min size (bufsize o) → n ≤ PAGE_SIZE - 20 → 0 ≤ from e < 2 ^ 32 → target (ram s) k o n b a c p →
  ∃ s', service_turn s = Done tt s' ∧
    slice (ram s') b n = slice (ram s) (data k + 8) n ∧ ld32 (ram s') a = Some (from e) ∧ ld32 (ram s') c = Some n ∧ slice (ram s') p 2 = be16 sp ∧
    (∀ r, inside (ram s) r → Forall (apart r) [(b, n); (a, 4); (c, 4); (p, 2)] → slice (ram s') r.1 r.2 = slice (ram s) r.1 r.2) ∧
    open_sockets s' = <[j := served o]> (open_sockets s) ∧
    free_list (pool s') ≡ₚ k :: free_list (pool s) ∧ frame_at k ∉ frames (pop_queue s') ∧
    memory_ok s' ∧ queue_ok (pop_queue s') (pool s').
Proof.
  intros Hready Hj Ho Hp Hrb Hbuf Hn Hn' Hfrom Htarget. pose proof Hready as [Hm Hok Hq _ He _ Hk Hh [Hsp Hd] Hsize].
  destruct (turn_look s i e k sp d size Hready) as (x & s1 & Hlook & Es & Hxk & Hxs & Hxf & Hq1).
  { unfold action_of. rewrite Hj. rw decide_False; [lia|]. rewrite Nat2Z.id Ho. rw decide_False; [tauto|]. by rw decide_True. }
  assert (action_of (open_sockets s) i (resolved (open_sockets s) d e) = POP_ACTION_TRANSFER (Z.of_nat i) (frame_at k)) as Hact.
  { unfold action_of. rewrite Hj. rw decide_False; [lia|]. rewrite Nat2Z.id Ho. rw decide_False; [tauto|]. rw decide_True //. f_equal.
    by rewrite (proj1 (resolved_frame _ d e)). }
  rewrite Hact in Hlook. assert (pop_queue s1 !! i = Some x) as Hx by (rewrite Es; apply list_lookup_insert_eq; exact (lookup_lt_Some _ _ _ He)).
  assert (memory_ok s1) as Hm1 by (rewrite Es; by apply (memory_ok_same s)).
  destruct (transfer_run i x j o k sp d size n b a c p s1) as (p' & Hrun & Hp' & Hfl & Hst & Hnum); try (rewrite Es; done); try done.
  { rewrite Es. rewrite Es in Hq1. exact Hq1. }
  { by rewrite Hxs. }
  assert (ram s1 = ram s ∧ pool s1 = pool s ∧ open_sockets s1 = open_sockets s) as (Er & Ep & Eo) by by rewrite Es.
  rewrite Er Eo in Hrun. rewrite Ep in Hfl, Hst, Hnum. rewrite Hxf in Hrun.
  unfold service_turn. rw (bind_Done _ _ _ _ _ Hlook). eexists. split; [exact Hrun|].
  set (s' := with_ram _ s1 <| open_sockets := _ |> <| pool := _ |> <| pop_queue := _ |>).
  set (ws := delivery (ram s) k (from e) sp n b a c p) in *.
  change (ram s') with (write_all (ram s) ws). change (open_sockets s') with (<[j := served o]> (open_sockets s)).
  change (pool s') with p'. change (pop_queue s') with (<[i := emptied x]> (pop_queue s1)).
  destruct (queue_frame _ _ _ _ _ Hq He Hk) as (_ & _ & Hr & _). destruct (page_inside s k Hm Hr) as (P1 & (_ & _ & P2) & P3). cbn in P2.
  destruct Htarget as [_ _ _ _ _ Tin Tap]. pose proof (proj1 (Forall_cons _ _ _) Tin) as [(B1 & B2 & B3) _]. cbn in B1, B2, B3.
  assert (length (slice (ram s) (data k + 8) n) = Z.to_nat n) as Hpl.
  { apply length_slice; unfold data, PAGE_SIZE, SIZEOF_FRAME_HEADER in *; lia. }
  assert (region <$> ws = [(b, n); (a, 4); (c, 4); (p, 2)]) as Hregions.
  { unfold ws, delivery, region. cbn. rewrite Hpl. do 2 f_equal. lia. }
  assert (Forall (λ w, inside (ram s) (region w)) ws) as Hin by (rewrite -Forall_fmap Hregions; exact Tin).
  cbn [all_apart] in Tap. rewrite !Forall_cons in Tap. destruct Tap as ((A1 & A2 & A3 & _ & _) & (A5 & A6 & _ & _) & (A8 & _ & _) & _).
  assert (∀ l1 y z l2, ws = l1 ++ (y, z) :: l2 → Forall (apart (y, Z.of_nat (length z))) (region <$> l2) →
    slice (write_all (ram s) ws) y (Z.of_nat (length z)) = z) as Hread.
  { intros l1 y z l2 E Hap. rewrite E. apply write_all_read; [by rewrite -E|]. by rewrite Forall_fmap in Hap. }
  split.
  { rewrite -{1}(Z2Nat.id n) // -Hpl. apply (Hread [] b _ (drop 1 ws) eq_refl). unfold ws, delivery. cbn. rewrite Hpl Z2Nat.id //. by repeat apply Forall_cons_2. }
  split.
  { apply slice_word; [|done|]. { rewrite !Forall_cons in Tin. unfold inside in Tin. cbn in Tin. lia. }
    apply (Hread (take 1 ws) a (be_split (from e)) (drop 2 ws) eq_refl). by repeat apply Forall_cons_2. }
  split.
  { apply slice_word; [|unfold PAGE_SIZE in *; lia|]. { rewrite !Forall_cons in Tin. unfold inside in Tin. cbn in Tin. lia. }
    apply (Hread (take 2 ws) c (be_split n) (drop 3 ws) eq_refl). by repeat apply Forall_cons_2. }
  split; [by apply (Hread (take 3 ws) p (be16 sp) [] eq_refl)|].
  split.
  { intros r Hr1 Hr2. apply write_all_apart; [done|done|]. rewrite -Hregions in Hr2. by rewrite Forall_fmap in Hr2. }
  split; [done|]. split; [done|]. split; [by apply (cleared_frame _ (pool s))|]. split.
  - apply (memory_ok_freed s _ p'); [done|done|done|done|by apply length_write_all|].
    apply bytes_write_all; [apply Hm|]. unfold ws, delivery.
    repeat (apply Forall_cons_2; [first [by apply slice_bytes, Hm|apply be_split_bytes|apply be16_bytes]|]). apply Forall_nil_2.
  - by apply (queue_emptied _ (pool s) _ _ _ k).
Qed.

(** One turn of pop_service_thread delivers the first packet whose
    socket waits in recvfrom: the payload, cut to the caller's buffer, is in that
    buffer, the sender's address and port and the number of bytes are where the caller
    wants them, no other memory changes, the caller's semaphore is signalled, and the
    packet's page is back in the pool and no longer in the queue. *)
Theorem service_turn_delivers s i e k sp d size j o n b a c p :
  turn_ready s i e k sp d size →
  socket (resolved (open_sockets s) d e) = Z.of_nat j → open_sockets s !! j = Some o → protocol o = PROTOCOL_POP → rbuf o ≠ 0 →
  0 ≤ bufsize o < 2 ^ 31 → n = Z.min size (bufsize o) → n ≤ PAGE_SIZE - 20 → 0 ≤ from e < 2 ^ 32 → target (ram s) k o n b a c p →
  ∃ s', service_turn s = Done tt s' ∧
    slice (ram s') b n = slice (ram s) (data k + 8) n ∧ ld32 (ram s') a = Some (from e) ∧ ld32 (ram s') c = Some n ∧ slice (ram s') p 2 = be16 sp ∧
    (∀ r, inside (ram s) r → Forall (apart r) [(b, n); (a, 4); (c, 4); (p, 2)] → slice (ram s') r.1 r.2 = slice (ram s) r.1 r.2) ∧
    open_sockets s' = <[j := served o]> (open_sockets s) ∧
    free_list (pool s') ≡ₚ k :: free_list (pool s) ∧ frame_at k ∉ frames (pop_queue s') ∧
    memory_ok s' ∧ queue_ok (pop_queue s') (pool s').
Proof. exact (service_turn_delivery s i e k sp d size j o n b a c p). Qed.

(** A packet for a port nobody listens at, or whose socket is closed by the
    time it is looked at, is thrown away: its page is back in the pool, its slot is
    free, and neither memory nor the sockets change. *)
Theorem service_turn_discards s i e k sp d size :
  turn_ready s i e k sp d size →
  let j := socket (resolved (open_sockets s) d e) in
  j = -1 ∨ (0 ≤ j ∧ ∃ o, open_sockets s !! Z.to_nat j = Some o ∧ protocol o ≠ PROTOCOL_POP) →
  ∃ s', service_turn s = Done tt s' ∧ ram s' = ram s ∧ open_sockets s' = open_sockets s ∧
    free_list (pool s') ≡ₚ k :: free_list (pool s) ∧ frame_at k ∉ frames (pop_queue s') ∧
    memory_ok s' ∧ queue_ok (pop_queue s') (pool s').
Proof.
  intros Hready j Hj. pose proof Hready as [Hm Hok Hq _ He _ Hk Hh [Hsp Hd] Hsize].
  assert (action_of (open_sockets s) i (resolved (open_sockets s) d e) = POP_ACTION_DISCARD (Z.of_nat i) (frame_at k)) as Hact.
  { unfold action_of. rewrite (proj1 (resolved_frame _ d e)) Hk. fold j. destruct Hj as [->|(Hj0 & o & Ho & Hp)]; [by destruct (decide (-1 = -1))|].
    rw decide_False; [lia|]. rewrite Ho. by rw decide_True. }
  destruct (turn_look s i e k sp d size Hready) as (x & s1 & Hlook & Es & Hxk & Hxs & Hxf & Hq1); [by rewrite Hact|].
  rewrite Hact in Hlook. assert (pop_queue s1 !! i = Some x) as Hx by (rewrite Es; apply list_lookup_insert_eq; exact (lookup_lt_Some _ _ _ He)).
  assert (memory_ok s1) as Hm1 by (rewrite Es; by apply (memory_ok_same s)).
  assert (ram s1 = ram s ∧ pool s1 = pool s ∧ open_sockets s1 = open_sockets s) as (Er & Ep & Eo) by by rewrite Es.
  destruct (discard_run i x k s1 Hm1) as (p' & Hrun & Hp' & Hfl & Hst & Hnum); [by rewrite Ep|done|done|].
  rewrite Ep in Hfl, Hst, Hnum. unfold service_turn. rw (bind_Done _ _ _ _ _ Hlook). eexists. split; [exact Hrun|].
  split; [done|]. split; [done|]. split; [done|]. split; [by apply (cleared_frame _ (pool s))|]. split.
  - by apply (memory_ok_freed s1 _ p'); [done|done|done|rewrite Ep| |apply Hm1].
  - by apply (queue_emptied _ (pool s) _ _ _ k).
Qed.
End run.
End PopService.
