(* ===== verification/NetSpec.v ===== *)
(** * The network from end to end

    A packet sent to the loopback address reaches the socket that waits for it. *)
From S2P Require Import Prelude Bytes Libc Kmalloc Bitmap Pagepool Sync Net SocketSpec NetMem PopSpec PopService.
Import Libc Kmalloc Pagepool Net SocketSpec NetMem PopSpec PopService.

Module NetSpec.

(** The smallest MTU of the interfaces before the first empty entry; [None] when
    the table has no empty entry. *)
Fixpoint smallest_mtu (l : list network_interface_info_t) (min : Z) : option Z :=
  match l with
  | [] => None
  | e :: l' => if decide (if_gnd e = 0) then Some min else smallest_mtu l' (if decide (if_mtu e < min) then if_mtu e else min)
  end.

Lemma slice_prefix (m : list Z) a n n' l :
  0 ≤ a → 0 ≤ n' ≤ n → a + n ≤ Z.of_nat (length m) → slice m a n = l → slice m a n' = take (Z.to_nat n') l.
Proof.
  intros Ha Hn Hl <-. unfold slice. rewrite take_take. f_equal. lia.
Qed.

Section run.
Context {N : Type} `{NetEnv N}.
Implicit Types s : net_t N.

Lemma bind_interface {B} i (k : network_interface_info_t → M (net_t N) B) s e :
  network_interfaces s !! Z.to_nat i = Some e → 0 ≤ i → (get_interface i ≫= k) s = k e s.
Proof.
  intros He Hi. apply bind_Done. unfold get_interface. assert (arr_get (network_interfaces s) i = Some e) as ->; [by apply arr_get_Some|done].
Qed.

Lemma minimum_mtu_run l n i min r s :
  drop i (network_interfaces s) = l → smallest_mtu l min = Some r → (length l ≤ n)%nat →
  minimum_mtu n (Z.of_nat i) min s = Done r s.
Proof.
  revert n i min. induction l as [|e l IH]; intros n i min Hl Hr Hn; [done|].
  assert (network_interfaces s !! i = Some e) as He by (rewrite -(Nat.add_0_r i) -lookup_drop Hl; done).
  destruct n as [|n]; cbn [length] in Hn; [lia|]. cbn [minimum_mtu smallest_mtu] in Hr |- *.
  rw (bind_interface (Z.of_nat i) _ s e); [by rewrite Nat2Z.id|lia|]. destruct (decide (if_gnd e = 0)); [by injection Hr as ->|].
  replace (Z.of_nat i + 1) with (Z.of_nat (S i)) by lia. apply IH; [|done|lia].
  by rewrite -(Nat.add_1_r i) -drop_drop Hl.
Qed.

Lemma network_get_mtu_run r s :
  length (network_interfaces s) = Z.to_nat CONFIG_MAX_GNDS → smallest_mtu (network_interfaces s) (NETWORK_MAX_MTU + 1) = Some r →
  network_get_mtu NETWORK_BROADCAST_ADDRESS s = Done (i32 (r - SIZEOF_FRAME_HEADER)) s.
Proof.
  intros Hl Hr. unfold network_get_mtu. destruct (decide (NETWORK_BROADCAST_ADDRESS = NETWORK_BROADCAST_ADDRESS)); [|done].
  pose proof (minimum_mtu_run _ (Z.to_nat CONFIG_MAX_GNDS) 0 _ _ s eq_refl Hr ltac:(rewrite drop_0; lia)) as Hrun.
  change (Z.of_nat 0) with 0 in Hrun. by rw (bind_Done _ _ _ _ _ Hrun).
Qed.

(** A page leaves the pool. *)
Lemma take_page s k rest :
  memory_ok s → free_list (pool s) = k :: rest →
  ∃ p', (∀ B (f : Z → M (net_t N) B), (zoom #pool pagepool_get_phys_page ≫= f) s = f (k * PAGE_SIZE) (s <| pool := p' |>)) ∧
    pp_inv p' ∧ free_list p' = rest ∧ pagepool_static_end p' = pagepool_static_end (pool s) ∧
    pagepool_num_pages p' = pagepool_num_pages (pool s) ∧ pagepool_static_end (pool s) ≤ k < pagepool_num_pages (pool s) ∧ k ∉ rest.
Proof.
  intros Hm Hf. pose proof (mo_pool _ Hm) as Hp. pose proof (get_phys_page_run (pool s) Hp) as Hrun. rewrite Hf in Hrun.
  destruct Hrun as (p' & Hrun & Hp' & Hrest & Heq). exists p'. split; [intros B f; exact (bind_zoom #pool _ f s _ p' Hrun)|].
  split; [done|]. split; [done|]. split; [by rewrite Heq|]. split; [by rewrite Heq|].
  assert (k ∈ free_list (pool s)) as Hk by (rewrite Hf; left). split.
  - split.
    + destruct (decide (pagepool_static_end (pool s) ≤ k)) as [|Hlt]; [done|]. exfalso. apply elem_of_free_list in Hk as Hk'.
      apply (pi_reserved _ Hp k); [lia|done].
    + apply elem_of_free_list in Hk. lia.
  - pose proof (free_list_NoDup (pool s)) as Hnd. rewrite Hf in Hnd. by apply NoDup_cons in Hnd as [? _].
Qed.

(** ** Sending to the loopback address *)

Lemma phys_kernel a : 0 ≤ a < 2 ^ 31 → ADDR_PHYS_TO_KERNEL a = kp a.
Proof.
  intros Ha. unfold ADDR_PHYS_TO_KERNEL, kp. change 0x80000000 with (2 ^ 31).
  assert (Z.land a (2 ^ 31) = 0) as Hl.
  { apply Z.bits_inj'. intros n Hn. rewrite Z.land_spec Z.bits_0 Z.pow2_bits_eqb; [lia|]. destruct (Z.eqb_spec 31 n) as [<-|]; [|by rewrite andb_false_r].
    rewrite andb_true_r. apply Z.testbit_false; [lia|]. by rewrite Z.div_small. }
  rewrite -Z.lxor_lor // -Z.add_nocarry_lxor //. lia.
Qed.

(** The pool after the page [k] was taken. *)
Lemma queue_ok_take q p p' k rest :
  queue_ok q p → free_list p = k :: rest → free_list p' = rest → pagepool_static_end p' = pagepool_static_end p →
  pagepool_num_pages p' = pagepool_num_pages p → queue_ok q p' ∧ frame_at k ∉ frames q.
Proof.
  intros [H1 H2 H3 H4] Hf Hf' Hs Hn. rewrite Forall_forall in H3. split.
  - constructor; [done|done| |done]. apply Forall_forall. intros f Hin. destruct (H3 f Hin) as (k' & -> & Hr & Hn').
    exists k'. rewrite Hs Hn Hf'. split; [done|]. split; [done|]. intros Hk. apply Hn'. rewrite Hf. by right.
  - intros Hin. destruct (H3 _ Hin) as (k' & Hk & _ & Hn'). apply frame_at_inj in Hk as ->. apply Hn'. rewrite Hf. left.
Qed.

(** The frame at [f] when it is sent to the loopback address. *)
Definition frame_writes (f : Z) (payload : list Z) : list (Z * list Z) :=
  [(f + 4, be_split NETWORK_BROADCAST_ADDRESS); (f, be_split NETWORK_LOOPBACK_ADDRESS); (f + 8, be_split PROTOCOL_POP); (f + 12, payload);
   (f + 4, be_split NETWORK_LOOPBACK_ADDRESS)].

Lemma forall_take {A} (P : A → Prop) n l : Forall P l → Forall P (take n l).
Proof. apply Forall_take. Qed.

Lemma frame_memory m f l :
  0 ≤ f → f + PAGE_SIZE ≤ Z.of_nat (length m) → bytes_ok m → bytes_ok l → Z.of_nat (length l) ≤ PAGE_SIZE - 12 →
  let m' := write_all m (frame_writes f l) in
  Forall (λ w, inside m (region w)) (frame_writes f l) ∧ length m' = length m ∧ bytes_ok m' ∧
  slice (write_all m (take 4 (frame_writes f l))) (f + 4) 4 = be_split NETWORK_BROADCAST_ADDRESS ∧
  slice m' (f + 4) 4 = be_split NETWORK_LOOPBACK_ADDRESS ∧ slice m' f 4 = be_split NETWORK_LOOPBACK_ADDRESS ∧
  slice m' (f + 8) 4 = be_split PROTOCOL_POP ∧ slice m' (f + 12) (Z.of_nat (length l)) = l ∧
  ∀ r, inside m r → apart r (f, PAGE_SIZE) → slice m' r.1 r.2 = slice m r.1 r.2.
Proof.
  intros Hf Hlen Hm Hl Hll m'. unfold PAGE_SIZE in *.
  assert (Forall (λ w, inside m (region w)) (frame_writes f l)) as Hin.
  { unfold frame_writes. repeat (apply Forall_cons_2; [unfold inside, region; cbn; lia|]). apply Forall_nil_2. }
  assert (∀ l1 y z l2, frame_writes f l = l1 ++ (y, z) :: l2 → Forall (λ w, apart (y, Z.of_nat (length z)) (region w)) l2 →
    slice m' y (Z.of_nat (length z)) = z) as Hread.
  { intros l1 y z l2 E Hap. unfold m'. rewrite E. apply write_all_read; [by rewrite -E|done]. }
  split; [done|]. split; [by apply length_write_all|]. split.
  { apply bytes_write_all; [done|]. unfold frame_writes. repeat (apply Forall_cons_2; [first [done|apply be_split_bytes]|]). apply Forall_nil_2. }
  split.
  { apply (write_all_read m [] (f + 4) (be_split NETWORK_BROADCAST_ADDRESS) (drop 1 (take 4 (frame_writes f l)))); [exact (forall_take _ 4 _ Hin)|].
    cbn. repeat (apply Forall_cons_2; [unfold apart, region; cbn; lia|]). apply Forall_nil_2. }
  split; [by apply (Hread (take 4 (frame_writes f l)) (f + 4) (be_split NETWORK_LOOPBACK_ADDRESS) [] eq_refl)|].
  split.
  { apply (Hread (take 1 (frame_writes f l)) f (be_split NETWORK_LOOPBACK_ADDRESS) (drop 2 (frame_writes f l)) eq_refl).
    cbn. repeat (apply Forall_cons_2; [unfold apart, region; cbn; lia|]). apply Forall_nil_2. }
  split.
  { apply (Hread (take 2 (frame_writes f l)) (f + 8) (be_split PROTOCOL_POP) (drop 3 (frame_writes f l)) eq_refl).
    cbn. repeat (apply Forall_cons_2; [unfold apart, region; cbn; lia|]). apply Forall_nil_2. }
  split.
  { apply (Hread (take 3 (frame_writes f l)) (f + 12) l (drop 4 (frame_writes f l)) eq_refl).
    cbn. repeat (apply Forall_cons_2; [unfold apart, region; cbn; lia|]). apply Forall_nil_2. }
  intros r Hr Ha. apply write_all_apart; [done|done|]. unfold apart in Ha. cbn in Ha. unfold frame_writes.
  repeat (apply Forall_cons_2; [unfold apart, region; cbn; lia|]). apply Forall_nil_2.
Qed.

Lemma network_send_loopback thread len hb kf rest i x s :
  memory_ok s → queue_ok (pop_queue s) (pool s) → pop_queue_sem s = 1 → free_list (pool s) = kf :: rest →
  pop_queue s !! i = Some x → frame x = 0 → full (take i (pop_queue s)) →
  0 < len ≤ PAGE_SIZE - SIZEOF_FRAME_HEADER → hb < 0x20000000 → inside (ram s) (hb, len) → apart (hb, len) (kf * PAGE_SIZE, PAGE_SIZE) →
  ∃ m p' sv, network_send thread NETWORK_BROADCAST_ADDRESS NETWORK_LOOPBACK_ADDRESS PROTOCOL_POP len (kp hb) s =
      Done NET_OK (with_ram m s <| pool := p' |> <| pop_queue := <[i := pushed (frame_at kf) (clock (env s)) NETWORK_LOOPBACK_ADDRESS]> (pop_queue s) |>
        <| env := later (env s) |> <| pop_service_thread_sem := sv |>) ∧
    length m = length (ram s) ∧ bytes_ok m ∧ pp_inv p' ∧ free_list p' = rest ∧
    pagepool_static_end p' = pagepool_static_end (pool s) ∧ pagepool_num_pages p' = pagepool_num_pages (pool s) ∧
    queue_ok (<[i := pushed (frame_at kf) (clock (env s)) NETWORK_LOOPBACK_ADDRESS]> (pop_queue s)) p' ∧
    slice m (data kf) len = slice (ram s) hb len ∧
    ∀ r, inside (ram s) r → apart r (kf * PAGE_SIZE, PAGE_SIZE) → slice m r.1 r.2 = slice (ram s) r.1 r.2.
Proof.
  intros Hm Hq Hsem Hfree Hx Hx0 Hfull Hlen Hhb Hin Hap.
  destruct (take_page s kf rest Hm Hfree) as (p' & Htake & Hp' & Hrest & Hst & Hnum & Hr & Hnotin).
  destruct (queue_ok_take _ _ _ _ _ Hq Hfree Hrest Hst Hnum) as [Hq' Hnew].
  destruct (page_inside s kf Hm Hr) as (_ & (_ & _ & P2) & P3). cbn in P2.
  assert (0 < kf * PAGE_SIZE) as P1 by (pose proof (pi_static _ (mo_pool _ Hm)); unfold PAGE_SIZE; lia). set (F := kf * PAGE_SIZE) in *.
  pose proof (mo_bytes _ Hm) as Hb. destruct Hin as (I1 & I2 & I3). cbn in I1, I2, I3. unfold apart in Hap. cbn in Hap.
  set (m := ram s) in *. set (l := slice m hb len). assert (Z.of_nat (length l) = len) as Hll by (unfold l; rewrite length_slice; lia).
  unfold SIZEOF_FRAME_HEADER in Hlen.
  destruct (frame_memory m F l) as (Win & Wlen & Wb & W1 & W2 & W3 & W4 & W5 & W6); [lia|done|done|by apply slice_bytes|lia|].
  set (m5 := write_all m (frame_writes F l)) in *. unfold PAGE_SIZE in *.
  pose proof (length_write_all m (take 1 (frame_writes F l)) (forall_take _ 1 _ Win)) as L1. cbn in L1.
  pose proof (length_write_all m (take 2 (frame_writes F l)) (forall_take _ 2 _ Win)) as L2. cbn in L2.
  pose proof (length_write_all m (take 3 (frame_writes F l)) (forall_take _ 3 _ Win)) as L3. cbn in L3.
  pose proof (length_write_all m (take 4 (frame_writes F l)) (forall_take _ 4 _ Win)) as L4. cbn in L4.
  unfold network_send. rw bind_assert; [unfold PAGE_SIZE, SIZEOF_FRAME_HEADER; lia|]. rw Htake.
  change (kf * PAGE_SIZE) with F. rw decide_False; [lia|]. cbn zeta.
  rewrite (phys_kernel F); [lia|]. replace (kp F + 4) with (kp (F + 4)) by (unfold kp; lia). replace (kp F + 8) with (kp (F + 8)) by (unfold kp; lia).
  replace (kp F + SIZEOF_FRAME_HEADER) with (kp (F + 12)) by (unfold kp, SIZEOF_FRAME_HEADER; lia).
  set (s1 := s <| pool := p' |>). assert (s1 = with_ram m s1) as E1 by by destruct s. rewrite E1.
  rw store32_in; [lia|unfold inside; cbn; lia|]. rw store32_in; [lia|unfold inside; cbn; rewrite L1; lia|].
  rw store32_in; [lia|unfold inside; cbn; rewrite L2; lia|].
  rw copy_in; [|lia|lia|unfold inside; cbn; rewrite L3; lia|unfold inside; cbn; rewrite L3; lia|unfold apart; cbn; lia|].
  { repeat (apply splice_bytes; [|apply be_split_bytes]). done. }
  assert (slice (write_all m (take 3 (frame_writes F l))) hb len = l) as Hl.
  { apply (write_all_apart m (take 3 (frame_writes F l)) (hb, len)); [exact (forall_take _ 3 _ Win)|unfold inside; cbn; lia|].
    cbn. repeat (apply Forall_cons_2; [unfold apart, region; cbn; lia|]). apply Forall_nil_2. }
  cbn [write_all frame_writes take] in Hl. rewrite Hl.
  destruct (decide (NETWORK_LOOPBACK_ADDRESS = NETWORK_LOOPBACK_ADDRESS)); [|done].
  rw (load32_in _ (F + 4) NETWORK_BROADCAST_ADDRESS); [lia|vm_compute; split; congruence|exact W1|].
  destruct (decide (NETWORK_BROADCAST_ADDRESS = NETWORK_BROADCAST_ADDRESS)); [|done].
  rw store32_in; [lia|unfold inside; cbn; rewrite L4; lia|].
  match goal with |- context [with_ram ?w s1] => change w with m5 end.
  assert (∀ B (k : Z → M (net_t N) B), (network_receive_frame thread (kp F) ≫= k) (with_ram m5 s1) =
    (pop_push_frame NETWORK_LOOPBACK_ADDRESS NETWORK_LOOPBACK_ADDRESS PROTOCOL_POP (frame_at kf) ≫= k) (with_ram m5 s1)) as Hrecv.
  { intros B k. unfold network_receive_frame. replace (kp F + 8) with (kp (F + 8)) by (unfold kp; lia). replace (kp F + 4) with (kp (F + 4)) by (unfold kp; lia).
    rewrite bind_bind. rw (load32_in m5 (F + 8) PROTOCOL_POP); [lia|vm_compute; split; congruence|done|].
    assert (protocols_get_frame_handler thread PROTOCOL_POP = Some pop_push_frame) as -> by reflexivity.
    rewrite bind_bind. rw (load32_in m5 (F + 4) NETWORK_LOOPBACK_ADDRESS); [lia|vm_compute; split; congruence|done|].
    rewrite bind_bind. rw (load32_in m5 F NETWORK_LOOPBACK_ADDRESS); [lia|vm_compute; split; congruence|done|].
    rewrite bind_bind. rw (load32_in m5 (F + 8) PROTOCOL_POP); [lia|vm_compute; split; congruence|done|].
    by replace (kp F + SIZEOF_FRAME_HEADER) with (frame_at kf) by (unfold frame_at, kp, F, PAGE_SIZE; lia). }
  rw Hrecv.
  destruct (pop_push_frame_spec NETWORK_LOOPBACK_ADDRESS NETWORK_LOOPBACK_ADDRESS (frame_at kf) (with_ram m5 s1))
    as (ret & s' & Hpush & Hm' & Hq'' & _ & _ & _ & Hcases).
  { apply (memory_ok_freed s _ p'); [done|done|done|done|done|done]. }
  { done. }
  { done. }
  { exists kf. split; [done|]. change (pool (with_ram m5 s1)) with p'. rewrite Hst Hnum Hrest. done. }
  { done. }
  rw (bind_Done _ _ _ _ _ Hpush).
  destruct Hcases as [(-> & i' & x' & Hx' & Hx0' & Hfull' & Es')|[(_ & Hfull' & _)|(_ & Hfull' & _)]].
  2-3: pose proof (proj1 (Forall_lookup _ _) Hfull' i x Hx); done.
  change (pop_queue (with_ram m5 s1)) with (pop_queue s) in *.
  assert (i' = i) as ->.
  { destruct (lt_eq_lt_dec i' i) as [[Hlt|]|Hlt]; [exfalso| done|exfalso].
    - apply (proj1 (Forall_lookup _ _) Hfull i' x'); [rewrite lookup_take_lt; done|done].
    - apply (proj1 (Forall_lookup _ _) Hfull' i x); [rewrite lookup_take_lt; done|done]. }
  exists m5, p', (pop_service_thread_sem s + 1). split; [rewrite Es'; reflexivity|].
  rewrite Es' in Hq''. split_and!; try done.
  rewrite -Hll. by replace (data kf) with (F + 12) by (unfold data, SIZEOF_FRAME_HEADER, PAGE_SIZE; lia).
Qed.

(** The packet in the send buffer. *)
Definition packet_writes (hb sp d : Z) (payload : list Z) : list (Z * list Z) :=
  [(hb, be16 sp); (hb + 2, be16 d); (hb + 4, be_split (Z.of_nat (length payload))); (hb + 8, payload)].

Lemma packet_memory m hb sp d l :
  0 ≤ hb → hb + 8 + Z.of_nat (length l) ≤ Z.of_nat (length m) → bytes_ok m → bytes_ok l →
  let m' := write_all m (packet_writes hb sp d l) in
  Forall (λ w, inside m (region w)) (packet_writes hb sp d l) ∧ length m' = length m ∧ bytes_ok m' ∧
  slice m' hb (8 + Z.of_nat (length l)) = header sp d (Z.of_nat (length l)) ++ l ∧
  ∀ r, inside m r → apart r (hb, 8 + Z.of_nat (length l)) → slice m' r.1 r.2 = slice m r.1 r.2.
Proof.
  intros Hh Hlen Hm Hl m'.
  assert (Forall (λ w, inside m (region w)) (packet_writes hb sp d l)) as Hin.
  { unfold packet_writes. repeat (apply Forall_cons_2; [unfold inside, region; cbn; lia|]). apply Forall_nil_2. }
  split; [done|]. split; [by apply length_write_all|]. split.
  { apply bytes_write_all; [done|]. unfold packet_writes.
    repeat (apply Forall_cons_2; [first [done|apply be_split_bytes|apply be16_bytes]|]). apply Forall_nil_2. }
  split.
  - assert (m' = splice m hb (header sp d (Z.of_nat (length l)) ++ l)) as ->.
    { unfold m', packet_writes, header. cbn [write_all].
      change (hb + 2) with (hb + Z.of_nat (length (be16 sp))). rewrite splice_app; [lia|cbn; lia|].
      change (hb + 4) with (hb + Z.of_nat (length (be16 sp ++ be16 d))). rewrite splice_app; [lia|cbn; lia|].
      change (hb + 8) with (hb + Z.of_nat (length ((be16 sp ++ be16 d) ++ be_split (Z.of_nat (length l))))). rewrite splice_app; [lia|cbn; lia|].
      by rewrite -!app_assoc. }
    rewrite (_ : 8 + Z.of_nat (length l) = Z.of_nat (length (header sp d (Z.of_nat (length l)) ++ l))); [rewrite length_app; cbn; lia|].
    apply slice_splice_same; [lia|]. rewrite length_app. cbn. lia.
  - intros r Hr Ha. apply write_all_apart; [done|done|]. unfold apart in Ha. cbn in Ha. unfold packet_writes.
    repeat (apply Forall_cons_2; [unfold apart, region; cbn; lia|]). apply Forall_nil_2.
Qed.

(** What the sender needs: its socket, the send buffer in page [kb], a free page [kf], a
    free slot of the queue, and [n] bytes at [u] that are in neither page. *)
Record can_send s (sock : nat) (es : socket_descriptor_t) (kb kf : Z) (rest : list Z) (i : nat) (x : pop_queue_t) (u n : Z) : Prop := {
  cs_memory : memory_ok s; cs_queue : queue_ok (pop_queue s) (pool s);
  cs_sems : open_sockets_sem s = 1 ∧ pop_queue_sem s = 1 ∧ pop_send_buffer_sem s = 1;
  cs_index : Z.of_nat sock < CONFIG_MAX_OPEN_SOCKETS; cs_socket : open_sockets s !! sock = Some es; cs_pop : protocol es = PROTOCOL_POP;
  cs_buffer : pop_send_buffer s = kp (kb * PAGE_SIZE); cs_page : 0 ≤ kb < pagepool_num_pages (pool s); cs_other : kb ≠ kf;
  cs_free : free_list (pool s) = kf :: rest;
  cs_slot : pop_queue s !! i = Some x; cs_empty : frame x = 0; cs_first : full (take i (pop_queue s));
  cs_data : u < 0x20000000; cs_inside : inside (ram s) (u, n);
  cs_apart : apart (u, n) (kb * PAGE_SIZE, PAGE_SIZE) ∧ apart (u, n) (kf * PAGE_SIZE, PAGE_SIZE) }.

(** The state after sending: the packet waits in slot [i]. *)
Definition sent (m : list Z) (p' : pagepool_t) (sv : Z) (kf : Z) (i : nat) s : net_t N :=
  with_ram m s <| pool := p' |> <| pop_queue := <[i := pushed (frame_at kf) (clock (env s)) NETWORK_LOOPBACK_ADDRESS]> (pop_queue s) |>
    <| env := later (env s) |> <| pop_service_thread_sem := sv |>.

Lemma sendto_loopback thread sock es kb kf rest i x u size dport r s :
  length (network_interfaces s) = Z.to_nat CONFIG_MAX_GNDS → smallest_mtu (network_interfaces s) (NETWORK_MAX_MTU + 1) = Some r → 20 < r ≤ PAGE_SIZE →
  dport ≠ 0 → 1 ≤ size < 2 ^ 31 → let n := Z.min size (r - 20) in
  can_send s sock es kb kf rest i x u n →
  ∃ m p' sv, socket_sendto thread (Z.of_nat sock) NETWORK_LOOPBACK_ADDRESS dport (kp u) size s = Done n (sent m p' sv kf i s) ∧
    length m = length (ram s) ∧ bytes_ok m ∧ pp_inv p' ∧ free_list p' = rest ∧
    pagepool_static_end p' = pagepool_static_end (pool s) ∧ pagepool_num_pages p' = pagepool_num_pages (pool s) ∧
    queue_ok (pop_queue (sent m p' sv kf i s)) p' ∧
    slice m (data kf) (8 + n) = header (port es) dport n ++ slice (ram s) u n ∧
    ∀ r, inside (ram s) r → apart r (kb * PAGE_SIZE, PAGE_SIZE) → apart r (kf * PAGE_SIZE, PAGE_SIZE) → slice m r.1 r.2 = slice (ram s) r.1 r.2.
Proof.
  intros Hif Hmtu Hr Hdp Hsize n [Hm Hq (S1 & S2 & S3) Hidx Hes Hpop Hbuf Hkb Hother Hfree Hx Hx0 Hfull Hu Hin [Hap1 Hap2]].
  pose proof (mo_ram _ Hm) as Hram. pose proof (mo_segment _ Hm) as Hseg. pose proof (mo_bytes _ Hm) as Hb.
  set (hb := kb * PAGE_SIZE) in *. assert (0 ≤ hb ∧ hb + PAGE_SIZE ≤ Z.of_nat (length (ram s)) ∧ hb + PAGE_SIZE ≤ 0x20000000) as (B1 & B2 & B3).
  { rewrite Hram. unfold hb, PAGE_SIZE in *. lia. }
  destruct Hin as (I1 & I2 & I3). cbn in I1, I2, I3. unfold apart in Hap1. cbn in Hap1. unfold PAGE_SIZE in Hr.
  set (m := ram s) in *. set (l := slice m u n). assert (length l = Z.to_nat n) as Hl by (apply length_slice; lia).
  destruct (packet_memory m hb (port es) dport l) as (Win & Wlen & Wb & W1 & W2); [done|unfold PAGE_SIZE in *; lia|done|by apply slice_bytes|].
  set (m4 := write_all m (packet_writes hb (port es) dport l)) in *.
  pose proof (length_write_all m (take 1 (packet_writes hb (port es) dport l)) (forall_take _ 1 _ Win)) as L1. cbn in L1.
  pose proof (length_write_all m (take 2 (packet_writes hb (port es) dport l)) (forall_take _ 2 _ Win)) as L2. cbn in L2.
  pose proof (length_write_all m (take 3 (packet_writes hb (port es) dport l)) (forall_take _ 3 _ Win)) as L3. cbn in L3.
  assert (Z.of_nat (length l) = n) as Hln by lia. rewrite Hln in L3, W1, W2.
  unfold socket_sendto. rw bind_assert; [lia|]. rw decide_False; [done|]. rw bind_assert; [unfold kp; lia|].
  rw (bind_Done _ _ _ _ _ (network_get_mtu_run r s Hif Hmtu)).
  assert (i32 (Z.min (Z.min (u32 size) (u32 (i32 (r - SIZEOF_FRAME_HEADER) - SIZEOF_POP_HEADER))) (PAGE_SIZE - SIZEOF_POP_HEADER)) = n) as ->.
  { unfold SIZEOF_FRAME_HEADER, SIZEOF_POP_HEADER, PAGE_SIZE. rewrite (i32_small (r - 12)); [lia|]. rewrite (u32_small size); [lia|].
    rewrite u32_small; [lia|]. rewrite i32_small; unfold n; lia. }
  cbn zeta. rw bind_sem_P; [cbn; lia|]. cbn [lset lget]. rewrite S1.
  rw (bind_socket (Z.of_nat sock) _ _ es); [by rewrite Nat2Z.id|lia|]. rw decide_False; [tauto|]. rw bind_sem_V.
  set (sA := lset #open_sockets_sem _ _). assert (sA = s) as ->.
  { subst sA. clear - S1. destruct s. cbn in S1. by subst. }
  rw bind_sem_P; [cbn; lia|]. set (s1 := lset #pop_send_buffer_sem _ s). rw bind_gets.
  change (pop_send_buffer s1) with (pop_send_buffer s). rewrite Hbuf.
  replace (kp hb + 2) with (kp (hb + 2)) by (unfold kp; lia). replace (kp hb + 4) with (kp (hb + 4)) by (unfold kp; lia).
  replace (kp hb + SIZEOF_POP_HEADER) with (kp (hb + 8)) by (unfold kp, SIZEOF_POP_HEADER; lia).
  assert (s1 = with_ram m s1) as E1 by (subst s1; by destruct s). rewrite {1}E1. unfold PAGE_SIZE in B2, B3.
  rw store16_in; [lia|unfold inside; cbn; lia|]. rw store16_in; [lia|unfold inside; cbn; rewrite L1; lia|].
  rw store32_in; [lia|unfold inside; cbn; rewrite L2; lia|].
  unfold PAGE_SIZE in Hap1.
  rw copy_in; [|lia|lia|unfold inside; cbn; rewrite L3; lia|unfold inside; cbn; rewrite L3; lia|unfold apart; cbn; lia|].
  { apply splice_bytes; [|apply be_split_bytes]. repeat (apply splice_bytes; [|apply be16_bytes]). done. }
  assert (slice (write_all m (take 3 (packet_writes hb (port es) dport l))) u n = l) as Hsl.
  { apply (write_all_apart m (take 3 (packet_writes hb (port es) dport l)) (u, n)); [exact (forall_take _ 3 _ Win)|unfold inside; cbn; lia|].
    cbn. repeat (apply Forall_cons_2; [unfold apart, region; cbn; lia|]). apply Forall_nil_2. }
  cbn [write_all packet_writes take] in Hsl. rewrite Hln in Hsl. rewrite Hsl.
  assert (splice (splice (splice (splice m hb (be16 (port es))) (hb + 2) (be16 dport)) (hb + 4) (be_split n)) (hb + 8) l = m4) as ->.
  { unfold m4, packet_writes. cbn [write_all]. by rewrite Hln. }
  destruct (network_send_loopback thread (n + SIZEOF_POP_HEADER) hb kf rest i x (with_ram m4 s1))
    as (m5 & p' & sv & Hsend & X1 & X2 & X3 & X4 & X5 & X6 & X7 & X8 & X9).
  { apply (memory_ok_freed s _ (pool s)); [done|done|apply Hm|done|done|done]. }
  { done. }
  { done. }
  { done. }
  { done. }
  { done. }
  { done. }
  { unfold SIZEOF_POP_HEADER, PAGE_SIZE, SIZEOF_FRAME_HEADER. lia. }
  { lia. }
  { unfold inside, SIZEOF_POP_HEADER. cbn. fold m4. rewrite Wlen. lia. }
  { unfold apart, hb, SIZEOF_POP_HEADER, PAGE_SIZE. cbn. lia. }
  rw (bind_Done _ _ _ _ _ Hsend). destruct (decide (NET_OK ≠ NET_OK)); [done|]. rw bind_sem_V.
  exists m5, p', sv. split.
  { unfold mret, M_ret. f_equal. clear - S3. subst s1. destruct s. cbn in S3. by subst. }
  change (ram (with_ram m4 s1)) with m4 in X1, X8, X9. rewrite Wlen in X1.
  split_and!; try done.
  - rewrite (Z.add_comm 8 n). rewrite X8. change SIZEOF_POP_HEADER with 8. by rewrite (Z.add_comm n 8).
  - intros q Hq1 Hq2 Hq3. rewrite X9; [|done|].
    + destruct Hq1 as (?&?&?). unfold inside. by rewrite Wlen.
    + apply W2; [done|]. unfold apart in *. cbn in *. unfold PAGE_SIZE in *. lia.
Qed.

(** C31 (functional): POP over the loopback address, from end to end. A packet is
    sent from a POP socket to the loopback address while the semaphores of sockets,
    queue and send buffer are free, a page is free, the queue has a free slot with
    nothing to deliver before it, the table of interfaces is not full, and the
    smallest MTU leaves room for the headers and fits a page. The receiver waits in
    recvfrom at the port with a buffer; the data lies outside the send buffer and
    the free page, and so do the places for the answer, which do not overlap. Then
    socket_sendto returns the number of bytes sent, cut to what the MTU holds; the
    next turn of the service thread copies them into the buffer of the receiver (as
    many as fit), stores the loopback address, the sender's port and the number of
    bytes, and signals the receiver. All pages used on the way are free again. *)
Theorem pop_loopback_delivers thread sock es kb kf rest i x u size dport r j o b a c p s :
  length (network_interfaces s) = Z.to_nat CONFIG_MAX_GNDS → smallest_mtu (network_interfaces s) (NETWORK_MAX_MTU + 1) = Some r → 20 < r ≤ PAGE_SIZE →
  0 < dport < 2 ^ 16 → 1 ≤ size < 2 ^ 31 → let n := Z.min size (r - 20) in
  can_send s sock es kb kf rest i x u n → sockets_ok (open_sockets s) → Forall (waiting (open_sockets s)) (take i (pop_queue s)) →
  recipient (open_sockets s) dport = Some (Z.of_nat j) → open_sockets s !! j = Some o → rbuf o ≠ 0 → 0 ≤ bufsize o < 2 ^ 31 →
  let n' := Z.min n (bufsize o) in target (ram s) kf o n' b a c p →
  ∃ s1 s2, socket_sendto thread (Z.of_nat sock) NETWORK_LOOPBACK_ADDRESS dport (kp u) size s = Done n s1 ∧ service_turn s1 = Done tt s2 ∧
    slice (ram s2) b n' = slice (ram s) u n' ∧ ld32 (ram s2) a = Some NETWORK_LOOPBACK_ADDRESS ∧ ld32 (ram s2) c = Some n' ∧
    slice (ram s2) p 2 = be16 (port es) ∧ open_sockets s2 = <[j := served o]> (open_sockets s) ∧
    free_list (pool s2) ≡ₚ free_list (pool s) ∧ frame_at kf ∉ frames (pop_queue s2) ∧ memory_ok s2 ∧ queue_ok (pop_queue s2) (pool s2).
Proof.
  intros Hif Hmtu Hr Hdp Hsize n Hcs Hok Hw Hrec Ho Hrb Hbuf n' Htg.
  destruct (sendto_loopback thread sock es kb kf rest i x u size dport r s Hif Hmtu Hr ltac:(lia) Hsize Hcs)
    as (m & p' & sv & Hsend & Hlm & Hbm & Hp' & Hrest & Hst & Hnum & Hq' & Hpacket & _). fold n in Hsend, Hpacket.
  destruct Hcs as [Hm Hq (S1 & S2 & S3) Hidx Hes Hpop _ _ _ Hfree Hx Hx0 Hfull Hu Hin _].
  set (s1 := sent m p' sv kf i s) in *. assert (memory_ok s1) as Hm1 by by apply (memory_ok_freed s s1 p').
  destruct (take_page s kf rest Hm Hfree) as (_ & _ & _ & _ & _ & _ & Hkf & _).
  destruct (page_inside s kf Hm Hkf) as (P1 & (_ & _ & P2) & P3). cbn in P2. unfold PAGE_SIZE in *.
  assert (data kf = kf * 4096 + 12) as Hd by (unfold data, PAGE_SIZE, SIZEOF_FRAME_HEADER; lia).
  destruct Hin as (I1 & I2 & I3). cbn in I1, I2, I3. assert (0 < n ≤ 4076) as Hn by lia.
  destruct (slice_parts m (data kf) 8 n (header (port es) dport n) (slice (ram s) u n)) as [Hhead Hpay]; [lia..|done|done|].
  pose proof (proj1 (Forall_lookup _ _) (so_entries _ Hok) _ _ Hes) as Hso. unfold socket_ok in Hso.
  destruct (decide (protocol es = 0)) as [Hz|_]; [rewrite Hpop in Hz; done|]. destruct Hso as (_ & _ & Hport).
  assert (protocol o = PROTOCOL_POP) as Hpo.
  { unfold recipient in Hrec. destruct (list_find (listens dport) (open_sockets s)) as [[j' o']|] eqn:E; [|done]. injection Hrec as Hj.
    apply Nat2Z.inj in Hj as ->. apply list_find_Some in E as (Ho' & [Hl _] & _). congruence. }
  assert (turn_ready s1 i (pushed (frame_at kf) (clock (env s)) NETWORK_LOOPBACK_ADDRESS) kf (port es) dport n) as Hready.
  { constructor; try done; try (split; lia); try lia.
    - change (pop_queue s1) with (<[i := pushed (frame_at kf) (clock (env s)) NETWORK_LOOPBACK_ADDRESS]> (pop_queue s)).
      apply list_lookup_insert_eq. exact (lookup_lt_Some _ _ _ Hx).
    - change (pop_queue s1) with (<[i := pushed (frame_at kf) (clock (env s)) NETWORK_LOOPBACK_ADDRESS]> (pop_queue s)). by rewrite take_insert_ge. }
  destruct (service_turn_delivery s1 i _ kf (port es) dport n j o n' b a c p Hready)
    as (s2 & Hturn & R1 & R2 & R3 & R4 & _ & R6 & R7 & R8 & R9 & R10); [|done|done|done|done|done|unfold PAGE_SIZE; lia|done| |].
  { unfold resolved, pushed. cbn [socket]. destruct (decide (-1 = -1)); [|done]. change (open_sockets s1) with (open_sockets s). by rewrite Hrec. }
  { destruct Htg as [T1 T2 T3 T4 T5 T6 T7]. constructor; try done. apply (Forall_impl _ _ _ T6). intros q (Q1 & Q2 & Q3).
    split_and!; [done|done|]. change (ram s1) with m. by rewrite Hlm. }
  exists s1, s2. split; [done|]. split; [done|]. split.
  { rewrite R1. change (ram s1) with m. rewrite (slice_prefix m _ n n' (slice (ram s) u n)); [lia|lia|lia|done|].
    symmetry. apply (slice_prefix _ _ n); [lia|lia|lia|done]. }
  split; [done|]. split; [done|]. split; [done|]. split; [done|]. split; [|done].
  rewrite R7. change (pool s1) with p'. by rewrite Hrest Hfree.
Qed.

(** ** Where the code fails *)

(** Without a network interface the MTU is taken as 4085 bytes, one more than a frame
    holds: sending the longest packet stops the kernel. *)
Lemma mtu_without_interface thread src dst id buf s e l :
  network_interfaces s = e :: l → if_gnd e = 0 →
  network_get_mtu NETWORK_BROADCAST_ADDRESS s = Done 4085 s ∧ network_send thread src dst id 4085 buf s = Panic "Assertion failed".
Proof.
  intros Hl He. split; [|by unfold network_send; rw bind_assert_fails; [unfold PAGE_SIZE, SIZEOF_FRAME_HEADER; lia|]].
  unfold network_get_mtu. destruct (decide (NETWORK_BROADCAST_ADDRESS = NETWORK_BROADCAST_ADDRESS)); [|done].
  assert (minimum_mtu (Z.to_nat CONFIG_MAX_GNDS) 0 (NETWORK_MAX_MTU + 1) s = Done 4097 s) as Hrun.
  { change (Z.to_nat CONFIG_MAX_GNDS) with 4%nat. cbn [minimum_mtu]. rw (bind_interface 0 _ s e); [by rewrite Hl|lia|]. by rw decide_True. }
  by rw (bind_Done _ _ _ _ _ Hrun).
Qed.

(** With an interface in every entry the search for the MTU leaves the table. *)
Lemma mtu_full_table s :
  length (network_interfaces s) = Z.to_nat CONFIG_MAX_GNDS → Forall (λ e, if_gnd e ≠ 0) (network_interfaces s) →
  network_get_mtu NETWORK_BROADCAST_ADDRESS s = Fault.
Proof.
  intros Hl Hall. unfold network_get_mtu. destruct (decide (NETWORK_BROADCAST_ADDRESS = NETWORK_BROADCAST_ADDRESS)); [|done].
  assert (∀ n i min, (i + n = 4)%nat → minimum_mtu n (Z.of_nat i) min s = Fault) as Hf.
  { induction n as [|n IH]; intros i min Hi; cbn [minimum_mtu]; unfold mbind at 1, M_bind at 1, get_interface.
    - assert (arr_get (network_interfaces s) (Z.of_nat i) = None) as ->; [|done]. apply arr_get_None. rewrite Hl. change (Z.to_nat CONFIG_MAX_GNDS) with 4%nat. lia.
    - destruct (arr_get_is_Some (network_interfaces s) (Z.of_nat i)) as [x He]; [rewrite Hl; change (Z.to_nat CONFIG_MAX_GNDS) with 4%nat; lia|].
      rewrite He. cbn. apply arr_get_Some in He as [_ He]. rw decide_False; [exact (proj1 (Forall_lookup _ _) Hall _ _ He)|].
      replace (Z.of_nat i + 1) with (Z.of_nat (S i)) by lia. apply IH. lia. }
  unfold mbind, M_bind. change 0 with (Z.of_nat 0). by rw (Hf (Z.to_nat CONFIG_MAX_GNDS) 0%nat).
Qed.

(** The service thread discards without the locks: when the page of the frame has been
    freed in between (pop_push_frame took the slot), the kernel stops. *)
Lemma late_discard_panics i k s :
  memory_ok s → k ∈ free_list (pool s) → discard i (frame_at k) s = Panic "Assertion failed".
Proof.
  intros Hm Hk. pose proof (free_list_above_static _ _ (mo_pool _ Hm) Hk). pose proof (pi_static _ (mo_pool _ Hm)).
  apply elem_of_free_list in Hk as Hk'. pose proof (mo_segment _ Hm).
  unfold discard, network_free_frame. rewrite (frame_page k); [unfold PAGE_SIZE in *; lia|]. unfold mbind, M_bind, zoom. change (lget #pool s) with (pool s).
  by rw (free_phys_page_free (pool s) k 0 (mo_pool _ Hm) Hk ltac:(unfold PAGE_SIZE; lia)).
Qed.

(** A packet keeps the socket it was meant for: when that socket is closed and opened
    again at another port, the packet goes to the new port. *)
Lemma reopened_socket_receives l i e o d :
  0 ≤ socket e → l !! Z.to_nat (socket e) = Some o → protocol o = PROTOCOL_POP → rbuf o ≠ 0 → port o ≠ d →
  action_of l i (resolved l d e) = POP_ACTION_TRANSFER (Z.of_nat i) (frame e).
Proof.
  intros Hs Ho Hp Hr _. unfold resolved. rw decide_False; [lia|]. unfold action_of. rw decide_False; [lia|]. rewrite Ho.
  rw decide_False; [tauto|]. by rw decide_True.
Qed.
End run.

(** ** An example: no interface but the loopback, two sockets *)

#[export] Instance example_env : NetEnv unit := {
  rtc_get_msec _ := (1000, tt); nic_get _ _ := 0; gnd_frame_size _ _ := 0; gnd_hwaddr _ _ := 0;
  gnd_send _ _ _ _ _ := (1, tt); gnd_recv _ _ m _ := (1, m, tt); thread_create _ _ _ := (1, tt); thread_run _ _ := tt }.

Definition no_socket : socket_descriptor_t := Socket 0 0 None 0 0 0 0 0.
Definition sender_socket : socket_descriptor_t := Socket 5 PROTOCOL_POP (Some 0) 0 0 0 0 0.
Definition receiver_socket : socket_descriptor_t := Socket 9 PROTOCOL_POP (Some 0) (kp 200) 64 (kp 300) (kp 304) (kp 308).
Definition example_sockets : list socket_descriptor_t := sender_socket :: receiver_socket :: replicate 62 no_socket.
Definition no_packet : pop_queue_t := PopEntry 0 (-1) 0 0 0.

(** Pages 0 and 1 are permanent, page 2 is the send buffer; a five-letter word at 100. *)
Definition net_pool : pagepool_t := Pagepool [7] 8 5 2 0 0xff01 (Kmalloc 0x80002000 0x80008000).
Definition net_ram : list Z := replicate 100 0 ++ [72; 101; 108; 108; 111] ++ replicate (Z.to_nat 32663) 0.
Definition one_card : list network_interface_info_t := Interface 0x0a000001 1500 7 :: replicate 3 (Interface 0 0 0).
Definition example_net (q : list pop_queue_t) (m : list Z) : net_t unit :=
  NetState unit one_card example_sockets 1 true q 1 (kp (2 * PAGE_SIZE)) 1 0 3 true 10 net_pool m tt.

Lemma net_pool_ok : pp_inv net_pool.
Proof.
  constructor; cbn.
  - constructor; [lia|constructor].
  - unfold Bitmap.bm_len. simpl. lia.
  - unfold PAGE_SIZE. lia.
  - reflexivity.
  - lia.
  - intros k Hk [_ Hb]%elem_of_free_list. assert (k = 0 ∨ k = 1) as [-> | ->] by lia; vm_compute in Hb; discriminate.
  - reflexivity.
  - lia.
Qed.

Lemma length_net_ram : Z.of_nat (length net_ram) = 32768.
Proof. unfold net_ram. rewrite !length_app !length_replicate. cbn [length]. lia. Qed.

Lemma example_memory_ok q : memory_ok (example_net q net_ram).
Proof.
  constructor; [exact net_pool_ok|vm_compute; congruence| |].
  - change (Z.of_nat (length net_ram) = 8 * PAGE_SIZE). by rewrite length_net_ram.
  - change (bytes_ok net_ram). unfold net_ram. apply Forall_app_2; [by apply Forall_replicate|]. apply Forall_app_2; [repeat constructor; lia|by apply Forall_replicate].
Qed.

Lemma example_sockets_ok : sockets_ok example_sockets.
Proof.
  constructor; [done| |].
  - apply Forall_cons_2; [|apply Forall_cons_2; [|by apply Forall_replicate]].
    + split; [by left|]. split; [by eexists|]. vm_compute. split; congruence.
    + split; [by left|]. split; [by eexists|]. vm_compute. split; congruence.
  - change (NoDup [5; 9]). apply NoDup_cons. split; [|apply NoDup_singleton]. intros H%list_elem_of_singleton. lia.
Qed.

Lemma example_queue_empty : queue_ok (replicate 32 no_packet) net_pool.
Proof. constructor; [done|apply Forall_replicate; by left|constructor|constructor]. Qed.

Lemma socket_open_binds_witness :
  ∃ x q, socket_open PROTOCOL_POP 0 (example_net [] []) =
    Done 2 ((example_net [] []) <| open_sockets := <[2%nat := opened PROTOCOL_POP q x]> example_sockets |> <| free_semaphores := 9 |>) ∧ q = 1.
Proof.
  destruct (socket_open_binds PROTOCOL_POP 0 (example_net [] []) example_sockets_ok eq_refl ltac:(lia))
    as [[_ [[H _]|[H|[[H _]|H]]]]|(i & x & q & Hx & Hf & Ht & _ & _ & Hq & Hrun & _)].
  - by destruct H.
  - exfalso. apply (proj1 (Forall_lookup _ _) H 2%nat no_socket); reflexivity.
  - done.
  - by destruct H.
  - assert (i = 2%nat) as ->.
    { destruct (decide (i < 2)%nat) as [Hlt|Hge].
      - exfalso. apply Hf. destruct i as [|[|]]; [vm_compute in Hx; injection Hx as <-; done|vm_compute in Hx; injection Hx as <-; done|lia].
      - destruct (decide (i = 2)%nat) as [|Hne]; [done|]. exfalso. apply (proj1 (Forall_lookup _ _) Ht 2%nat no_socket); [|done].
        rewrite lookup_take_lt; [lia|reflexivity]. }
    exists x, q. split; [exact Hrun|]. change (0 < q ∧ ∀ y, 0 < y < q → y ∈ [5; 9]) in Hq. destruct Hq as [Hq1 Hq2].
    destruct (decide (q = 1)) as [|Hne]; [done|]. specialize (Hq2 1 ltac:(lia)).
    rewrite !elem_of_cons in Hq2. destruct Hq2 as [?|[?|?%elem_of_nil]]; [lia|lia|done].
Defined.

Lemma pop_push_frame_queues_witness :
  ∃ ret s', pop_push_frame 7 0 PROTOCOL_POP (frame_at 2) (example_net (replicate 32 no_packet) net_ram) = Done ret s' ∧ ret = 1.
Proof.
  destruct (pop_push_frame_queues 7 0 (frame_at 2) (example_net (replicate 32 no_packet) net_ram) (example_memory_ok _) example_queue_empty eq_refl)
    as (ret & s' & Hrun & _ & _ & _ & _ & _ & [[-> _]|[(_ & Hfull & _)|[-> _]]]).
  - exists 2. split; [reflexivity|]. split; [vm_compute; split; congruence|]. intros [_ Hb]%elem_of_free_list. vm_compute in Hb. discriminate.
  - intros Hf. vm_compute in Hf. by apply elem_of_nil in Hf.
  - exists 1, s'. split; [exact Hrun|reflexivity].
  - exfalso. apply (proj1 (Forall_lookup _ _) Hfull 0%nat no_packet); reflexivity.
  - exists 1, s'. split; [exact Hrun|reflexivity].
Defined.

Lemma example_can_send : can_send (example_net (replicate 32 no_packet) net_ram) 0 sender_socket 2 3 [4; 5; 6; 7] 0 no_packet 100 5.
Proof.
  constructor; try reflexivity; try lia.
  - apply example_memory_ok.
  - apply example_queue_empty.
  - done.
  - vm_compute. split; congruence.
  - constructor.
  - split; [cbn; lia|]. split; [cbn; lia|]. change (100 + 5 ≤ Z.of_nat (length net_ram)). by rewrite length_net_ram.
  - unfold apart, PAGE_SIZE. cbn. lia.
Qed.

Lemma example_target : target net_ram 3 receiver_socket 5 200 300 304 308.
Proof.
  constructor; try reflexivity.
  - repeat (apply Forall_cons_2; [unfold inside; cbn -[net_ram]; rewrite ?length_net_ram; lia|]). apply Forall_nil_2.
  - cbn [all_apart]. unfold PAGE_SIZE. rewrite !Forall_cons !Forall_nil. unfold apart. cbn. lia.
Qed.

Lemma pop_loopback_delivers_witness :
  ∃ s1 s2, socket_sendto 0 0 NETWORK_LOOPBACK_ADDRESS 9 (kp 100) 5 (example_net (replicate 32 no_packet) net_ram) = Done 5 s1 ∧
    service_turn s1 = Done tt s2 ∧ slice (ram s2) 200 5 = [72; 101; 108; 108; 111] ∧ free_list (pool s2) ≡ₚ [3; 4; 5; 6; 7].
Proof.
  destruct (pop_loopback_delivers 0 0 sender_socket 2 3 [4; 5; 6; 7] 0 no_packet 100 5 9 1500 1 receiver_socket 200 300 304 308
    (example_net (replicate 32 no_packet) net_ram) eq_refl eq_refl ltac:(unfold PAGE_SIZE; lia) ltac:(lia) ltac:(lia) example_can_send example_sockets_ok
    ltac:(constructor) eq_refl eq_refl ltac:(vm_compute; congruence) ltac:(cbn; lia) example_target)
    as (s1 & s2 & H1 & H2 & H3 & _ & _ & _ & _ & H4 & _).
  exists s1, s2. split; [exact H1|]. split; [exact H2|]. split; [|exact H4].
  change (slice (ram s2) 200 5 = slice net_ram 100 5) in H3. rewrite H3. vm_compute. reflexivity.
Defined.

(** The same packet, as it lies in the queue with its frame in page 2. *)
Definition received_ram (d : Z) : list Z :=
  replicate (Z.to_nat 8192) 0 ++ replicate 12 0 ++ header 5 d 5 ++ [72; 101; 108; 108; 111] ++ replicate (Z.to_nat 24551) 0.
Definition one_packet : list pop_queue_t := pushed (frame_at 2) 900 0 :: replicate 31 no_packet.

Lemma length_received d : Z.of_nat (length (received_ram d)) = 32768.
Proof. unfold received_ram. rewrite !length_app !length_replicate. cbn [length header app be16 be_split]. lia. Qed.

Lemma example_turn d : 0 ≤ d < 2 ^ 16 → turn_ready (example_net one_packet (received_ram d)) 0 (pushed (frame_at 2) 900 0) 2 5 d 5.
Proof.
  intros Hd. assert (memory_ok (example_net one_packet (received_ram d))) as Hm.
  { constructor; [exact net_pool_ok|vm_compute; congruence| |].
    - cbn -[received_ram]. by rewrite length_received.
    - cbn -[received_ram]. unfold received_ram. apply Forall_app_2; [by apply Forall_replicate|]. apply Forall_app_2; [by apply Forall_replicate|].
      apply Forall_app_2; [|apply Forall_app_2; [repeat constructor; lia|by apply Forall_replicate]].
      apply Forall_app_2; [apply be16_bytes|]. apply Forall_app_2; [apply be16_bytes|apply be_split_bytes]. }
  constructor; [done|exact example_sockets_ok| |done|done|constructor|done| |split; [lia|done]|lia].
  - constructor; [done| | |apply NoDup_singleton].
    + apply Forall_cons_2; [by left|apply Forall_replicate; by left].
    + apply Forall_cons_2; [|constructor]. exists 2. split; [done|]. split; [vm_compute; split; congruence|].
      intros [_ Hb]%elem_of_free_list. vm_compute in Hb. discriminate.
  - cbn -[received_ram]. unfold slice, received_ram, data, PAGE_SIZE, SIZEOF_FRAME_HEADER. change (Z.to_nat (2 * 4096 + 12)) with (Z.to_nat 8192 + 12)%nat.
    rewrite -drop_drop drop_app_length'; [by rewrite length_replicate|]. rewrite drop_app_length'; [by rewrite length_replicate|].
    by rewrite take_app_length'.
Qed.

Lemma service_turn_delivers_witness :
  ∃ s', service_turn (example_net one_packet (received_ram 9)) = Done tt s' ∧ slice (ram s') 200 5 = slice (received_ram 9) 8212 5.
Proof.
  destruct (service_turn_delivers _ _ _ _ _ _ _ 1 receiver_socket 5 200 300 304 308 (example_turn 9 ltac:(lia)) eq_refl eq_refl eq_refl
    ltac:(vm_compute; congruence) ltac:(cbn; lia) eq_refl ltac:(unfold PAGE_SIZE; lia) ltac:(cbn; lia)) as (s' & H1 & H2 & _).
  - constructor; try reflexivity; cbn -[received_ram].
    + repeat (apply Forall_cons_2; [unfold inside; cbn -[received_ram]; rewrite ?length_received; lia|]). apply Forall_nil_2.
    + unfold PAGE_SIZE. rewrite !Forall_cons !Forall_nil. unfold apart. cbn. lia.
  - exists s'. split; [exact H1|exact H2].
Defined.

Lemma service_turn_discards_witness :
  ∃ s', service_turn (example_net one_packet (received_ram 8)) = Done tt s' ∧ free_list (pool s') ≡ₚ [2; 3; 4; 5; 6; 7].
Proof.
  destruct (service_turn_discards _ _ _ _ _ _ _ (example_turn 8 ltac:(lia)) (or_introl eq_refl)) as (s' & H1 & _ & _ & H2 & _).
  exists s'. split; [exact H1|exact H2].
Defined.
End NetSpec.
