(* ===== verification/Hostio.v ===== *)
(** * The host of util/tfstool.c: files, streams and the monad of a program

    util/tfstool.c is not kernel code: it runs on the development machine and
    works on the image of a volume through the C library.  This file models
    what it uses of the C library: a file system of named files, the streams
    of stdio (position, end-of-file and error indicators, mode), the string
    functions that stop after a number of characters, and strtoul.  A program
    is a function from the host's state to a [run]: [exit] keeps the state, so
    that what a failed command leaves behind can be stated.

    A write reaches its file at once (the C library may delay it until fclose
    or exit) and the host itself never fails (no permissions, no full disk). *)
From stdpp Require Import gmap.
From S2P Require Import Prelude Bytes.

Module Hostio.

(** ** The state and the monad *)

(** A stream: the file, its position and indicators, what its mode allows. *)
Record FILE := File {
  path : list Z; pos : Z; at_eof : bool; in_error : bool; readable : bool; writable : bool }.
#[global] Instance eta_FILE : Eta FILE := fun f =>
  File (path f) (pos f) (at_eof f) (in_error f) (readable f) (writable f).

(** An argument of printf: a number or the characters of a string. *)
Inductive arg := Num (z : Z) | Str (s : list Z).

(** A FILE pointer is an index into [streams], [None] is NULL; a closed stream
    is [None].  [output] holds the calls of printf and perror, the last first.
    [disk] is the program's global variable. *)
Abbreviation stream := (option nat).
Record host := Host {
  files : gmap (list Z) (list Z); streams : list (option FILE);
  disk : stream; output : list (string * list arg) }.
#[global] Instance eta_host : Eta host := fun h => Host (files h) (streams h) (disk h) (output h).

Inductive run (A : Type) : Type :=
| Ret (a : A) (h : host)
| Exit (status : Z) (h : host)
| Undefined.
Arguments Ret {A} a h.
Arguments Exit {A} status h.
Arguments Undefined {A}.

Definition prog (A : Type) : Type := host → run A.

#[export] Instance prog_ret : MRet prog := fun A a h => Ret a h.
#[export] Instance prog_bind : MBind prog := fun A B f m h =>
  match m h with
  | Ret a h' => f a h'
  | Exit st h' => Exit st h'
  | Undefined => Undefined
  end.

Definition exit {A} (status : Z) : prog A := fun h => Exit status h.
Definition undefined {A} : prog A := fun _ => Undefined.
(** An access inside an object, [None] outside of it. *)
Definition valid {A} (o : option A) : prog A :=
  match o with Some a => mret a | None => undefined end.
Definition the_disk : prog stream := fun h => Ret (disk h) h.
Definition set_disk (fp : stream) : prog unit := fun h => Ret tt (h <| disk := fp |>).

(** ** Strings *)

(** The characters before the NUL of a string. *)
Fixpoint cstr (l : list Z) : option (list Z) :=
  match l with
  | [] => None
  | c :: r => if decide (c = 0) then Some [] else s ← cstr r; Some (c :: s)
  end.

(** strncmp: compares at most [n] characters. *)
Fixpoint strncmp (n : nat) (a b : list Z) : option Z :=
  match n, a, b with
  | O, _, _ => Some 0
  | S n', x :: a', y :: b' =>
    if decide (x = y) then if decide (x = 0) then Some 0 else strncmp n' a' b'
    else Some (x - y)
  | _, _, _ => None
  end.

(** strncpy: the [n] characters it stores. *)
Fixpoint strncpy (n : nat) (src : list Z) : option (list Z) :=
  match n, src with
  | O, _ => Some []
  | S n', c :: r => if decide (c = 0) then Some (replicate n 0) else l ← strncpy n' r; Some (c :: l)
  | S _, [] => None
  end.

(** strtoul in base 10: white space, a sign, digits; ULONG_MAX when the number
    does not fit. *)
Definition is_space (c : Z) : bool := bool_decide (c = 32 ∨ 9 ≤ c ≤ 13).
Definition is_digit (c : Z) : bool := bool_decide (48 ≤ c ≤ 57).
Fixpoint skip_spaces (s : list Z) : list Z :=
  match s with
  | c :: r => if is_space c then skip_spaces r else s
  | [] => []
  end.
Fixpoint digits (s : list Z) (v : Z) : Z :=
  match s with
  | c :: r => if is_digit c then digits r (10 * v + (c - 48)) else v
  | [] => v
  end.
Definition ulong (v : Z) : Z := Z.min v (2 ^ 64 - 1).
Definition strtoul (s : list Z) : Z :=
  match skip_spaces s with
  | 43 :: r => ulong (digits r 0)
  | 45 :: r => if decide (digits r 0 ≤ 2 ^ 64 - 1) then (- digits r 0) `mod` 2 ^ 64 else 2 ^ 64 - 1
  | r => ulong (digits r 0)
  end.

(** ** Messages *)

Fixpoint arguments (l : list arg) : option (list arg) :=
  match l with
  | [] => Some []
  | Num z :: r => r' ← arguments r; Some (Num z :: r')
  | Str s :: r => s' ← cstr s; r' ← arguments r; Some (Str s' :: r')
  end.
Definition printf (fmt : string) (args : list arg) : prog unit := fun h =>
  match arguments args with
  | Some args' => Ret tt (h <| output := (fmt, args') :: output h |>)
  | None => Undefined
  end.
Definition perror (msg : string) : prog unit := printf msg [].

(** ** Streams *)

Definition get_stream (fp : stream) : prog (nat * FILE) := fun h =>
  match i ← fp; f ← mjoin (streams h !! i); Some (i, f) with
  | Some (i, f) => Ret (i, f) h
  | None => Undefined
  end.
Definition set_stream (i : nat) (f : option FILE) : prog unit := fun h =>
  Ret tt (h <| streams := <[i := f]> (streams h) |>).
Definition get_file (p : list Z) : prog (list Z) := fun h => valid (files h !! p) h.
Definition set_file (p l : list Z) : prog unit := fun h =>
  Ret tt (h <| files := <[p := l]> (files h) |>).

Definition file_exists (p : list Z) : prog bool := fun h =>
  Ret (bool_decide (is_Some (files h !! p))) h.
Definition new_stream (f : FILE) : prog stream := fun h =>
  Ret (Some (length (streams h))) (h <| streams := streams h ++ [Some f] |>).

(** fopen; the modes of the program. *)
Definition fopen (filename : list Z) (mode : string) : prog stream :=
  p ← valid (cstr filename);
  if decide (mode = "r") then
    b ← file_exists p; if b : bool then new_stream (File p 0 false false true false) else mret None
  else if decide (mode = "r+") then
    b ← file_exists p; if b : bool then new_stream (File p 0 false false true true) else mret None
  else if decide (mode = "w" ∨ mode = "wb") then
    set_file p [];; new_stream (File p 0 false false false true)
  else undefined.

Definition fclose (fp : stream) : prog unit := x ← get_stream fp; set_stream x.1 None.
Definition feof (fp : stream) : prog bool := x ← get_stream fp; mret (at_eof x.2).
Definition ferror (fp : stream) : prog bool := x ← get_stream fp; mret (in_error x.2).
Definition ftell (fp : stream) : prog Z := x ← get_stream fp; mret (pos x.2).

Inductive whence := SEEK_SET | SEEK_END.
Definition fseek (fp : stream) (offset : Z) (w : whence) : prog Z :=
  x ← get_stream fp;
  l ← get_file (path x.2);
  let new := match w with SEEK_SET => offset | SEEK_END => Z.of_nat (length l) + offset end in
  if decide (new < 0) then mret (-1) else
  set_stream x.1 (Some ((x.2 <| pos := new |>) <| at_eof := false |>));;
  mret 0.

(** fread of [n] bytes: the bytes that were there. *)
Definition fread (n : Z) (fp : stream) : prog (list Z) :=
  x ← get_stream fp;
  if negb (readable x.2) then set_stream x.1 (Some (x.2 <| in_error := true |>));; mret [] else
  l ← get_file (path x.2);
  let got := slice l (pos x.2) n in
  set_stream x.1 (Some ((x.2 <| pos := pos x.2 + Z.of_nat (length got) |>)
    <| at_eof := at_eof x.2 || bool_decide (Z.of_nat (length got) < n) |>));;
  mret got.

(** fwrite: the file grows when needed, a gap reads as zeros. *)
Definition overwrite (l : list Z) (p : Z) (d : list Z) : list Z :=
  take (Z.to_nat p) (l ++ replicate (Z.to_nat p - length l) 0) ++ d ++ drop (Z.to_nat p + length d) l.
Definition fwrite (d : list Z) (fp : stream) : prog Z :=
  x ← get_stream fp;
  if negb (writable x.2) then set_stream x.1 (Some (x.2 <| in_error := true |>));; mret 0 else
  if decide (d = []) then mret 0 else
  l ← get_file (path x.2);
  set_file (path x.2) (overwrite l (pos x.2) d);;
  set_stream x.1 (Some (x.2 <| pos := pos x.2 + Z.of_nat (length d) |>));;
  mret (Z.of_nat (length d)).

(** The bytes of [n] that were read stored at the start of an array. *)
Definition stored (data got : list Z) : list Z := got ++ drop (length got) data.

(** ** Rules *)

Lemma bind_Ret {A B} (m : prog A) (f : A → prog B) h a h' :
  m h = Ret a h' → (m ≫= f) h = f a h'.
Proof. unfold mbind, prog_bind. by intros ->. Qed.
Lemma prog_bind_ret {A B} (a : A) (f : A → prog B) h : (mret a ≫= f) h = f a h.
Proof. done. Qed.
Lemma bind_valid {A B} (o : option A) (a : A) (f : A → prog B) h :
  o = Some a → (valid o ≫= f) h = f a h.
Proof. by intros ->. Qed.
Lemma bind_set_disk {B} (fp : stream) (f : unit → prog B) h :
  (set_disk fp ≫= f) h = f tt (h <| disk := fp |>).
Proof. done. Qed.
Lemma bind_Exit {A B} (m : prog A) (f : A → prog B) h st h' :
  m h = Exit st h' → (m ≫= f) h = Exit st h'.
Proof. unfold mbind, prog_bind. by intros ->. Qed.
Lemma prog_bind_bind {A B C} (m : prog A) (f : A → prog B) (g : B → prog C) h :
  ((m ≫= f) ≫= g) h = (m ≫= λ a, f a ≫= g) h.
Proof. unfold mbind, prog_bind. by destruct (m h). Qed.

End Hostio.
