(* ===== verification/Tfstool.v ===== *)
(** * The volume tool (util/tfstool.c)

    The program that makes the volumes fs/tfs.c mounts: it creates an image,
    copies files in and out of it, lists and deletes them.  Blocks are byte
    arrays; the words in them are big-endian ([htonl] and [ntohl] are the
    accesses [st32] and [ld32]).  Every array the program does not initialise
    starts as [stack] of its name. *)
From S2P Require Import Prelude Bytes Tfs Hostio.
Import Tfs Hostio.

Module Tfstool.

Definition TFS_HEADER_BLOCK : Z := 0.
Definition TFS_MAX_FILESIZE : Z := TFS_BLOCK_SIZE * TFS_BLOCKS_MAX.
Definition EXIT_FAILURE : Z := 1.
(** The C library's limit on the length of a path. *)
Definition FILENAME_MAX : Z := 4096.

Section tfstool.
Context (stack : string → list Z).

(** ** The bitmap routines *)

Definition bitmap_sizeof (num_bits : Z) : Z := Z.quot (num_bits + 31) 32 * 4.

Fixpoint bitmap_clear (n : nat) (i : Z) (bitmap : list Z) : prog (list Z) :=
  match n with
  | O => mret bitmap
  | S n' => bitmap ← valid (st32 bitmap (4 * i) 0); bitmap_clear n' (i + 1) bitmap
  end.
Definition bitmap_init (bitmap : list Z) (size : Z) : prog (list Z) :=
  bitmap_clear (Z.to_nat (Z.quot (size + 31) 32)) 0 bitmap.

Definition bitmap_get (bitmap : list Z) (pos : Z) : prog Z :=
  let i := Z.quot pos 32 in
  let j := Z.rem pos 32 in
  if decide (j < 0) then undefined else
  w ← valid (ld32 bitmap (4 * i));
  mret (Z.land (Z.shiftr w j) 1).

Definition bitmap_set (bitmap : list Z) (pos value : Z) : prog (list Z) :=
  let i := Z.quot pos 32 in
  let j := Z.rem pos 32 in
  if decide (value = 0) then
    if decide (j < 0) then undefined else
    w ← valid (ld32 bitmap (4 * i));
    valid (st32 bitmap (4 * i) (Z.land w (u32 (Z.lnot (i32 (Z.shiftl 1 j))))))
  else if decide (value = 1) then
    if decide (j < 0) then undefined else
    w ← valid (ld32 bitmap (4 * i));
    valid (st32 bitmap (4 * i) (Z.lor w (u32 (i32 (Z.shiftl 1 j)))))
  else
    printf "bitmap_set:bit value other than 0 or 1" [];;
    exit EXIT_FAILURE.

Fixpoint findnset_loop (n : nat) (i : Z) (bitmap : list Z) : prog (Z * list Z) :=
  match n with
  | O => mret (-1, bitmap)
  | S n' =>
    b ← bitmap_get bitmap i;
    if decide (b = 0) then bitmap ← bitmap_set bitmap i 1; mret (i, bitmap)
    else findnset_loop n' (i + 1) bitmap
  end.
Definition bitmap_findnset (bitmap : list Z) (l : Z) : prog (Z * list Z) :=
  findnset_loop (Z.to_nat l) 0 bitmap.

(** ** Files and blocks *)

Definition getfilesize (fp : stream) : prog Z :=
  pos ← ftell fp;
  (if decide (pos = -1) then perror "ftell" else mret tt);;
  r ← fseek fp 0 SEEK_END;
  (if decide (r ≠ 0) then perror "fseek" else mret tt);;
  size ← ftell fp;
  (if decide (size = -1) then perror "ftell" else mret tt);;
  r ← fseek fp pos SEEK_SET;
  (if decide (r ≠ 0) then perror "fseek" else mret tt);;
  mret (size `mod` 2 ^ 64).

Definition tfstool_numblocks (fp : stream) : prog Z :=
  size ← getfilesize fp; mret (Z.quot size TFS_BLOCK_SIZE).

Definition openfile (filename : list Z) (mode : string) : prog stream :=
  fp ← fopen filename mode;
  if decide (fp = None) then
    printf "Unable to open file: %s\n" [Str filename];;
    perror "fopen";;
    exit EXIT_FAILURE
  else mret fp.

(** The offset of a block, an [int] product. *)
Definition block_offset (block : Z) : prog Z :=
  let o := block * TFS_BLOCK_SIZE in
  if decide (- 2 ^ 31 ≤ o < 2 ^ 31) then mret o else undefined.

Definition read_block (data : list Z) (block : Z) : prog (list Z) :=
  d ← the_disk;
  o ← block_offset block;
  r ← fseek d o SEEK_SET;
  if decide (r ≠ 0) then perror "read_block:fseek";; exit EXIT_FAILURE else
  got ← fread TFS_BLOCK_SIZE d;
  e ← ferror d;
  if e : bool then printf "error reading block: %d\n" [Num block];; exit EXIT_FAILURE else
  mret (stored data got).

(** [data] is [None] for NULL: a block of zeros. *)
Definition write_block (data : option (list Z)) (block : Z) : prog unit :=
  d ← the_disk;
  o ← block_offset block;
  r ← fseek d o SEEK_SET;
  if decide (r ≠ 0) then perror "fseek";; exit EXIT_FAILURE else
  let data := match data with Some l => l | None => replicate 512 0 end in
  n ← fwrite (take 512 data) d;
  e ← ferror d;
  if decide (n = 0 ∧ e = true) then perror "fwrite";; exit EXIT_FAILURE else mret tt.

(** memcpy of [n] bytes to offset [a] of an array. *)
Definition memcpy (dst : list Z) (a : Z) (src : list Z) (n : Z) : option (list Z) :=
  if decide (n ≤ Z.of_nat (length src) ∧ a + n ≤ Z.of_nat (length dst))
  then Some (splice dst a (take (Z.to_nat n) src)) else None.

(** ** Creating a volume *)

Fixpoint write_empty (n : nat) (i : Z) : prog unit :=
  match n with
  | O => mret tt
  | S n' => write_block None i;; write_empty n' (i + 1)
  end.

Definition tfstool_createvol (diskfilename : list Z) (size : Z) (volumename : list Z) : prog unit :=
  let tfsmagic := be_split TFS_MAGIC in
  allocation ← bitmap_init (stack "allocation") (8 * TFS_BLOCK_SIZE);
  d ← fopen diskfilename "r"; set_disk d;;
  if decide (d ≠ None) then
    printf "tfstool: File '%s' already exists?\n" [Str diskfilename];;
    exit EXIT_FAILURE
  else
  if decide (size < 3) then
    printf "tfstool: Disk size too small. Disk size must be" [];;
    printf " at least 3 blocks.\n" [];;
    exit EXIT_FAILURE
  else
  d ← openfile diskfilename "wb"; set_disk d;;
  let header := replicate 512 0 in
  let bat := replicate 512 0 in
  header ← valid (memcpy header 0 tfsmagic 4);
  header ← valid (memcpy header 4 volumename TFS_VOLUMENAME_MAX);
  write_block (Some header) TFS_HEADER_BLOCK;;
  allocation ← bitmap_set allocation TFS_HEADER_BLOCK 1;
  allocation ← bitmap_set allocation TFS_ALLOCATION_BLOCK 1;
  allocation ← bitmap_set allocation TFS_DIRECTORY_BLOCK 1;
  bat ← valid (memcpy bat 0 allocation TFS_BLOCK_SIZE);
  write_block (Some bat) TFS_ALLOCATION_BLOCK;;
  write_block None TFS_DIRECTORY_BLOCK;;
  write_empty (Z.to_nat (size - 3)) 3;;
  fclose d;;
  printf "Disk image '%s', volume name '%s', size %d blocks created.\n"
    [Str diskfilename; Str volumename; Num size].

(** ** Directory entries *)

Definition entry_inode (dir : list Z) (i : Z) : prog Z := valid (ld32 dir (SIZEOF_DIRENTRY * i)).
Definition name_at (dir : list Z) (i : Z) : list Z := drop (Z.to_nat (SIZEOF_DIRENTRY * i + 4)) dir.
Definition name_cmp (dir : list Z) (i : Z) (name : list Z) : prog Z :=
  valid (strncmp 16 (name_at dir i) name).

(** The scan for a free entry, which stops the program at the name. *)
Fixpoint free_entry (n : nat) (i index : Z) (dir target : list Z) : prog Z :=
  match n with
  | O => mret index
  | S n' =>
    inode ← entry_inode dir i;
    let index := if decide (inode = 0 ∧ index = -1) then i else index in
    c ← name_cmp dir i target;
    if decide (c = 0) then
      printf "File %s already exists in TFS.\n" [Str target];;
      exit EXIT_FAILURE
    else free_entry n' (i + 1) index dir target
  end.

(** The scan for a name, -1 when no entry has it. *)
Fixpoint find_entry (n : nat) (i : Z) (dir name : list Z) : prog Z :=
  match n with
  | O => mret (-1)
  | S n' =>
    c ← name_cmp dir i name;
    if decide (c = 0) then mret i else find_entry n' (i + 1) dir name
  end.

(** [block[i]] of an inode; its word 0 is the size. *)
Definition block_at (inode : list Z) (i : Z) : prog Z := valid (ld32 inode (4 * (i + 1))).

(** ** Copying a file into the volume *)

(** One block after the other is reserved, filled and entered in the inode:
    the size, whether it fitted, the bitmap and the inode. *)
Fixpoint write_loop (n : nat) (i num_blocks filesize : Z) (bat inode data : list Z)
    (source_fp : stream) : prog (Z * bool * list Z * list Z) :=
  match n with
  | O => mret (filesize, true, bat, inode)
  | S n' =>
    if negb (bool_decide (filesize < TFS_MAX_FILESIZE)) then mret (filesize, true, bat, inode) else
    '(bnum, bat) ← bitmap_findnset bat (i32 num_blocks);
    if decide (2 < u32 bnum < num_blocks) then
      got ← fread TFS_BLOCK_SIZE source_fp;
      let data := stored data got in
      let filesize := u32 (filesize + Z.of_nat (length got)) in
      write_block (Some data) (i32 (u32 bnum));;
      inode ← valid (st32 inode (4 * (i + 1)) (u32 bnum));
      e ← feof source_fp;
      if e : bool then mret (filesize, true, bat, inode)
      else write_loop n' (i + 1) num_blocks filesize bat inode data source_fp
    else mret (filesize, false, bat, inode)
  end.

(** The inode, the directory entry and the bitmap, in this order. *)
Definition commit (filesize : Z) (bat inode dir : list Z) (inode_bnum index : Z) (target : list Z) : prog unit :=
  inode ← valid (st32 inode 0 filesize);
  write_block (Some inode) (i32 inode_bnum);;
  dir ← valid (st32 dir (SIZEOF_DIRENTRY * index) inode_bnum);
  name ← valid (strncpy 16 target);
  dir ← valid (memcpy dir (SIZEOF_DIRENTRY * index + 4) name TFS_FILENAME_MAX);
  write_block (Some dir) TFS_DIRECTORY_BLOCK;;
  write_block (Some bat) TFS_ALLOCATION_BLOCK.

Definition fails (source_fp : stream) (fmt : string) (args : list arg) : prog unit :=
  printf fmt args;;
  fclose source_fp;;
  d ← the_disk; fclose d;;
  exit EXIT_FAILURE.

Definition tfstool_write (diskfilename source target : list Z) : prog unit :=
  d ← openfile diskfilename "r+"; set_disk d;;
  source_fp ← openfile source "r";
  source_filesize ← getfilesize source_fp;
  let inode_block := replicate 512 0 in
  master_dir ← read_block (stack "master_dir") TFS_DIRECTORY_BLOCK;
  index ← free_entry 25 0 (-1) master_dir target;
  if decide (index < 0) then printf "TFS full.\n" [];; exit EXIT_FAILURE else
  allocation_block ← read_block (stack "allocation_block") TFS_ALLOCATION_BLOCK;
  nb ← tfstool_numblocks d;
  let num_blocks := u32 nb in
  '(r, bat) ← bitmap_findnset allocation_block (i32 num_blocks);
  let inode_bnum := u32 r in
  if decide (2 < inode_bnum < num_blocks) then
    '(filesize, writeok, bat, inode) ←
      write_loop (Z.to_nat num_blocks) 0 num_blocks 0 bat inode_block (stack "data") source_fp;
    if decide (filesize ≠ source_filesize) then
      fails source_fp "Error: Only %d bytes (of %ld bytes) fit to the file -- wrote nothing.\n"
        [Num filesize; Num source_filesize]
    else if writeok : bool then
      commit filesize bat inode master_dir inode_bnum index target;;
      fclose source_fp;;
      fclose d;;
      printf "File '%s' written to '%s' as '%s'.\n" [Str source; Str diskfilename; Str target]
    else fails source_fp "Error: while writing file to tfs-file (disk full?)\n" []
  else fails source_fp "Error: Could not allocate inode (disk full?).\n" [].

(** ** Copying a file out of the volume *)

Fixpoint read_loop (n : nat) (i filesize count : Z) (inode data : list Z) (t : stream) : prog Z :=
  match n with
  | O => mret count
  | S n' =>
    bnum ← block_at inode i;
    if decide (bnum = 0) then mret count else
    data ← read_block data (i32 bnum);
    let size := u32 (filesize - count) in
    let size := if decide (size > TFS_BLOCK_SIZE) then TFS_BLOCK_SIZE else size in
    w ← fwrite (take (Z.to_nat size) data) t;
    read_loop n' (i + 1) filesize (i32 (count + w)) inode data t
  end.

Definition tfstool_read (diskfilename source target : list Z) : prog unit :=
  d ← openfile diskfilename "r+"; set_disk d;;
  t ← openfile target "w";
  master_dir ← read_block (stack "master_dir") TFS_DIRECTORY_BLOCK;
  index ← find_entry 25 0 master_dir source;
  if decide (index < 0) then printf "File '%s' not found.\n" [Str source];; exit EXIT_FAILURE else
  inode_bn ← entry_inode master_dir index;
  inode ← read_block (stack "inode_block") (i32 inode_bn);
  filesize ← valid (ld32 inode 0);
  count ← read_loop 127 0 filesize 0 inode (stack "data") t;
  printf "%d bytes written to file '%s'.\n" [Num count; Str target];;
  fclose t;;
  fclose d.

(** ** Listing *)

Fixpoint list_blocks (n : nat) (j : Z) (inode : list Z) : prog unit :=
  match n with
  | O => mret tt
  | S n' =>
    b ← block_at inode j;
    if decide (b = 0) then mret tt else
    printf " %3u" [Num b];;
    list_blocks n' (j + 1) inode
  end.

Fixpoint list_files (n : nat) (i : Z) (dir : list Z) : prog unit :=
  match n with
  | O => mret tt
  | S n' =>
    inode_bn ← entry_inode dir i;
    (if decide (inode_bn > 0) then
       data ← read_block (stack "data") (i32 inode_bn);
       filesize ← valid (ld32 data 0);
       printf "  %3u %5u  %-16s" [Num inode_bn; Num filesize; Str (name_at dir i)];;
       list_blocks 127 0 data;;
       printf "\n" []
     else mret tt);;
    list_files n' (i + 1) dir
  end.

Definition tfstool_list (diskfilename : list Z) : prog unit :=
  d ← openfile diskfilename "r"; set_disk d;;
  header ← read_block (stack "header") TFS_HEADER_BLOCK;
  master_dir ← read_block (stack "master_dir") TFS_DIRECTORY_BLOCK;
  nb ← tfstool_numblocks d;
  let numblocks := i32 nb in
  printf "diskfilename: %s, volume name: %s, volume blocks: %d\n\n"
    [Str diskfilename; Str (drop 4 header); Num numblocks];;
  printf "inode  size  name               block numbers\n" [];;
  list_files 25 0 master_dir.

(** ** Deleting *)

Fixpoint release_blocks (n : nat) (i : Z) (inode bat : list Z) : prog (list Z) :=
  match n with
  | O => mret bat
  | S n' =>
    b ← block_at inode i;
    if decide (b = 0) then mret bat else
    bat ← bitmap_set bat (i32 b) 0;
    release_blocks n' (i + 1) inode bat
  end.

Definition tfstool_delete (diskfilename filename : list Z) : prog unit :=
  let zeros := replicate 512 0 in
  d ← openfile diskfilename "r+"; set_disk d;;
  master_dir ← read_block zeros TFS_DIRECTORY_BLOCK;
  index ← find_entry 25 0 master_dir filename;
  if decide (index < 0) then printf "File '%s' not found.\n" [Str filename];; exit EXIT_FAILURE else
  allocation_block ← read_block zeros TFS_ALLOCATION_BLOCK;
  inode_bn ← entry_inode master_dir index;
  inode ← read_block zeros (i32 inode_bn);
  bat ← release_blocks 127 0 inode allocation_block;
  bat ← bitmap_set bat (i32 inode_bn) 0;
  master_dir ← valid (st32 master_dir (SIZEOF_DIRENTRY * index) 0);
  master_dir ← valid (arr_set master_dir (SIZEOF_DIRENTRY * index + 4) 0);
  write_block (Some bat) TFS_ALLOCATION_BLOCK;;
  write_block (Some master_dir) TFS_DIRECTORY_BLOCK;;
  fclose d;;
  printf "File '%s' deleted from '%s'.\n" [Str filename; Str diskfilename].

(** ** The command line *)

Definition print_usage {A} : prog A :=
  printf "Buenos Trivial Filesystem (TFS) Tool -- Version %s\n\n" [Str (cstring "1.01")];;
  printf "Copyright (C) 2003  Juha Aatrokoski, Timo Lilja,\n" [];;
  printf "  Leena Salmela, Teemu Takanen, Aleksi Virtanen.\n\n" [];;
  printf "THIS SOFTWARE COMES WITH ABSOLUTELY NO WARRANTY!\n" [];;
  printf "See 'COPYING' in Buenos main directory for details.\n\n" [];;
  printf "Usage: tfstool arguments ...\n" [];;
  printf "Commands:\n" [];;
  printf "  create <image name> <size in %d-byte blocks> <volume name>\n" [Num TFS_BLOCK_SIZE];;
  printf "  list   <image name>\n" [];;
  printf "  write  <image name> <local file name> [<tfs filename>]\n" [];;
  printf "  read   <image name> <TFS filename> [<local filename>]\n" [];;
  printf "  delete <image name> <TFS filename>\n" [];;
  printf "\n" [];;
  printf "N.B.: You need to make the size at least 3 blocks in order to\n" [];;
  printf "      include header, allocaton table and master directory.\n" [];;
  exit EXIT_FAILURE.

(** [argv] is the list of the arguments, each with its NUL. *)
Definition nth_arg (argv : list (list Z)) (i : Z) : prog (list Z) := valid (arr_get argv i).
Definition command (argv : list (list Z)) (name : string) (n : nat) : prog bool :=
  a ← nth_arg argv 1; c ← valid (strncmp n a (cstring name)); mret (bool_decide (c = 0)).
Definition copy_arg (argv : list (list Z)) (i n : Z) : prog (list Z) :=
  a ← nth_arg argv i; valid (strncpy (Z.to_nat n) a).
(** [name[15] = 0]. *)
Definition terminate (name : list Z) : list Z := <[15%nat := 0]> name.

Definition main_create (argv : list (list Z)) : prog unit :=
  if decide (length argv ≠ 5%nat) then print_usage else
  diskfilename ← copy_arg argv 2 FILENAME_MAX;
  a ← nth_arg argv 3;
  let size := strtoul a in
  volumename ← copy_arg argv 4 TFS_VOLUMENAME_MAX;
  tfstool_createvol diskfilename (i32 size) (terminate volumename).

Definition main_write (argv : list (list Z)) : prog unit :=
  if decide (length argv < 4 ∨ 5 < length argv)%nat then print_usage else
  diskfilename ← copy_arg argv 2 FILENAME_MAX;
  localfilename ← copy_arg argv 3 FILENAME_MAX;
  tfsfilename ← (if decide (length argv = 5%nat) then copy_arg argv 4 TFS_FILENAME_MAX
                 else valid (strncpy 16 localfilename));
  tfstool_write diskfilename localfilename (terminate tfsfilename).

Definition main_read (argv : list (list Z)) : prog unit :=
  if decide (length argv < 4 ∨ 5 < length argv)%nat then print_usage else
  diskfilename ← copy_arg argv 2 FILENAME_MAX;
  tfsfilename ← copy_arg argv 3 TFS_FILENAME_MAX;
  localfilename ← (if decide (length argv = 5%nat) then copy_arg argv 4 FILENAME_MAX
                   else valid (strncpy (Z.to_nat FILENAME_MAX) tfsfilename));
  tfstool_read diskfilename tfsfilename localfilename.

Definition main_delete (argv : list (list Z)) : prog unit :=
  if decide (length argv ≠ 4%nat) then print_usage else
  diskfilename ← copy_arg argv 2 FILENAME_MAX;
  tfsfilename ← copy_arg argv 3 TFS_FILENAME_MAX;
  tfstool_delete diskfilename tfsfilename.

Definition main_list (argv : list (list Z)) : prog unit :=
  if decide (length argv ≠ 3%nat) then print_usage else
  diskfilename ← copy_arg argv 2 FILENAME_MAX;
  tfstool_list diskfilename.

Definition main (argv : list (list Z)) : prog Z :=
  if decide (length argv < 3)%nat then print_usage else
  c ← command argv "create" 6; if c : bool then main_create argv;; mret 0 else
  c ← command argv "list" 4; if c : bool then main_list argv;; mret 0 else
  c ← command argv "write" 5; if c : bool then main_write argv;; mret 0 else
  c ← command argv "read" 4; if c : bool then main_read argv;; mret 0 else
  c ← command argv "delete" 6; if c : bool then main_delete argv;; mret 0 else
  print_usage.

End tfstool.
End Tfstool.
