(* ===== verification/Volume.v ===== *)
(** * Volumes as the content of an image

    The content of an image file is a list of bytes; this file reads it as a
    volume of fs/tfs.c: blocks, bits of the allocation bitmap, directory
    entries, the blocks an entry owns.  [volume_ok] is the invariant of a
    volume: every file's blocks are on the disk, reserved in the bitmap, and
    shared with no other file.  The lemmas say what changing one block, one
    word or one bit does; they are about data only, not about a program. *)
From S2P Require Import Prelude Bytes Bitmap Tfs TfsFile.
Import Tfs TfsFile.

Module Volume.

(** ** Blocks *)

(** Block [b]; past the end of the image it reads as zeros. *)
Definition img (d : list Z) (b : Z) : list Z :=
  let s := slice d (512 * b) 512 in s ++ replicate (512 - length s) 0.

(** The content after block [b] is replaced. *)
Definition put (d : list Z) (b : Z) (l : list Z) : list Z := splice d (512 * b) l.

Lemma img_buf_ok d b : bytes_ok d → buf_ok (img d b).
Proof.
  intros Hd. unfold img, buf_ok. split.
  - rw length_app length_replicate. unfold slice. rw length_take. lia.
  - apply Forall_app_2; [by apply slice_bytes|]. apply Forall_replicate. unfold is_byte. lia.
Qed.

Lemma img_slice d b : 0 ≤ b → 512 * b + 512 ≤ Z.of_nat (length d) → img d b = slice d (512 * b) 512.
Proof. intros. unfold img. rw length_slice; [lia..|]. by rw app_nil_r. Qed.

Lemma length_put d b l :
  length l = 512%nat → 0 ≤ b → 512 * b + 512 ≤ Z.of_nat (length d) → length (put d b l) = length d.
Proof. intros. unfold put. rw length_splice; lia. Qed.

Lemma put_bytes d b l : bytes_ok d → bytes_ok l → bytes_ok (put d b l).
Proof. apply splice_bytes. Qed.

Lemma img_put d n b l b' :
  Z.of_nat (length d) = 512 * n → length l = 512%nat → 0 ≤ b < n → 0 ≤ b' < n →
  img (put d b l) b' = if decide (b' = b) then l else img d b'.
Proof.
  intros Hd Hl Hb Hb'. rw img_slice; [lia|rw length_put; lia|]. unfold put.
  case_decide as E; [subst b'|].
  - replace 512 with (Z.of_nat (length l)) at 3 by lia. by apply slice_splice_same; lia.
  - rw img_slice; [lia..|]. apply slice_splice_disj; lia.
Qed.

(** ** Words and bits *)

Definition set_word (l : list Z) (k w : Z) : list Z := splice l (4 * k) (be_split w).

Lemma set_word_ok l k w : buf_ok l → 0 ≤ k < 128 → buf_ok (set_word l k w).
Proof.
  intros [Hl Hb] Hk. unfold set_word. split.
  - rw length_splice; [lia|simpl; lia|done].
  - apply splice_bytes; [done|apply be_split_bytes].
Qed.

Lemma st32_set_word l k w : buf_ok l → 0 ≤ k < 128 → st32 l (4 * k) w = Some (set_word l k w).
Proof. intros [Hl _] Hk. apply st32_splice; lia. Qed.

Lemma word_set_word l k w j :
  buf_ok l → 0 ≤ w < 2 ^ 32 → 0 ≤ k < 128 → word (set_word l k w) j = if decide (j = k) then w else word l j.
Proof.
  intros [Hl Hb] Hw Hk. unfold word, set_word. case_decide as E; [subst j|].
  - rw ld32_splice_word; [lia..|done].
  - by rw ld32_splice_disj; [lia|simpl; lia|simpl; lia|].
Qed.

Lemma word_zeros k : 0 ≤ k < 128 → word (replicate 512 0) k = 0.
Proof. intros Hk. unfold word, ld32. by rw !arr_get_replicate; [lia..|]. Qed.

(** Bit [k] of a bitmap, and the bitmap with it changed. *)
Definition bit (bat : list Z) (k : Z) : bool := Z.testbit (word bat (k `div` 32)) (k `mod` 32).
Definition set_bit (bat : list Z) (k : Z) (b : bool) : list Z :=
  let w := word bat (k `div` 32) in
  set_word bat (k `div` 32) (if b then Z.setbit w (k `mod` 32) else Z.clearbit w (k `mod` 32)).

Lemma set_bit_ok bat k b : buf_ok bat → 0 ≤ k < 4096 → buf_ok (set_bit bat k b).
Proof. intros Hb Hk. apply set_word_ok; [done|zdm]. Qed.

Lemma bit_set_bit bat k b j :
  buf_ok bat → 0 ≤ k < 4096 → 0 ≤ j → bit (set_bit bat k b) j = if decide (j = k) then b else bit bat j.
Proof.
  intros Hbat Hk Hj. unfold bit, set_bit. assert (0 ≤ k `div` 32 < 128) as Hw by zdm.
  pose proof (word_range bat (k `div` 32) Hbat Hw) as Hr. assert (0 ≤ k `mod` 32 < 32) by zdm.
  rw word_set_word; [done|destruct b; [by apply Bitmap.setbit_range|by apply Bitmap.clearbit_range]|done|].
  assert (0 ≤ j `mod` 32) by zdm. destruct (decide (j `div` 32 = k `div` 32)) as [E|E].
  - destruct b; [rw Z.setbit_eqb; [lia|]|rw Z.clearbit_eqb]; rw -E;
      destruct (Z.eqb_spec (k `mod` 32) (j `mod` 32)) as [E'|E'];
      destruct (decide (j = k)) as [E2|E2]; try subst j; try done;
      try (exfalso; apply E2; zdm); simpl; by rw ?andb_true_r ?andb_false_r.
  - rw decide_False; [|done]. intros ->. done.
Qed.

(** ** Files *)

(** The number of a directory entry's inode block, 0 when it is free. *)
Definition entry (im : Z → list Z) (i : Z) : Z := word (im TFS_DIRECTORY_BLOCK) (5 * i).
(** The 16 bytes of its name. *)
Definition entry_name16 (im : Z → list Z) (i : Z) : list Z := slice (im TFS_DIRECTORY_BLOCK) (20 * i + 4) 16.

(** The block numbers of an inode block up to the first 0. *)
Fixpoint chain_from (n : nat) (k : Z) (inode : list Z) : list Z :=
  match n with
  | O => []
  | S n' => if decide (word inode k = 0) then [] else word inode k :: chain_from n' (k + 1) inode
  end.
Definition chain (inode : list Z) : list Z := chain_from 127 1 inode.

(** The blocks of entry [i]. *)
Definition owned (im : Z → list Z) (i : Z) : list Z :=
  if decide (entry im i = 0) then [] else entry im i :: chain (im (entry im i)).

(** The invariant of a volume of [n] blocks. *)
Record volume_ok (d : list Z) (n : Z) : Prop := {
  vo_size : 3 ≤ n ≤ 4096;
  vo_length : Z.of_nat (length d) = 512 * n;
  vo_bytes : bytes_ok d;
  vo_system b : 0 ≤ b < 3 → bit (img d TFS_ALLOCATION_BLOCK) b = true;
  vo_owned i b : 0 ≤ i < TFS_MAX_FILES → b ∈ owned (img d) i →
    3 ≤ b < n ∧ bit (img d TFS_ALLOCATION_BLOCK) b = true;
  vo_nodup i : 0 ≤ i < TFS_MAX_FILES → NoDup (owned (img d) i);
  vo_apart i j b : 0 ≤ i < TFS_MAX_FILES → 0 ≤ j < TFS_MAX_FILES → i ≠ j →
    b ∈ owned (img d) i → b ∈ owned (img d) j → False;
  vo_fsize i : 0 ≤ i < TFS_MAX_FILES → entry (img d) i ≠ 0 →
    fsize (img d) (entry (img d) i) ≤ 512 * Z.of_nat (length (chain (img d (entry (img d) i)))) }.

(** An entry with the same name, the same inode block and the same bytes. *)
Record same_file (im im' : Z → list Z) (i : Z) : Prop := {
  sf_entry : entry im' i = entry im i;
  sf_name : entry_name16 im' i = entry_name16 im i;
  sf_owned b : b ∈ owned im i → im' b = im b }.

(** ** Chains *)

Lemma length_chain_from n k inode : (length (chain_from n k inode) ≤ n)%nat.
Proof. revert k. induction n as [|n IH]; intros k; simpl; [lia|]. case_decide; simpl; [lia|]. specialize (IH (k + 1)). lia. Qed.

Lemma arr_get_chain_from n k inode j b :
  arr_get (chain_from n k inode) j = Some b → b = word inode (k + j) ∧ b ≠ 0.
Proof.
  revert k j. induction n as [|n IH]; intros k j; cbn [chain_from].
  { by intros [_ ?]%arr_get_Some. }
  case_decide as Hw; [by intros [_ ?]%arr_get_Some|]. intros [Hj Hl]%arr_get_Some.
  destruct (decide (j = 0)) as [->|Hj0].
  - simpl in Hl. simplify_eq. by rw Z.add_0_r.
  - replace (Z.to_nat j) with (S (Z.to_nat (j - 1))) in Hl by lia.
    destruct (IH (k + 1) (j - 1)) as [-> H]; [apply arr_get_Some; split; [lia|done]|].
    replace (k + 1 + (j - 1)) with (k + j) in * by lia. done.
Qed.

Lemma arr_get_chain inode j b :
  arr_get (chain inode) j = Some b → b = word inode (j + 1) ∧ b ≠ 0.
Proof. intros H%arr_get_chain_from. by replace (j + 1) with (1 + j) by lia. Qed.

(** The chain of an inode that lists [bl]. *)
Lemma chain_from_list n k inode bl :
  (length bl ≤ n)%nat → (∀ b, b ∈ bl → b ≠ 0) →
  (∀ j, k ≤ j < k + Z.of_nat n → word inode j = default 0 (arr_get bl (j - k))) → chain_from n k inode = bl.
Proof.
  revert k bl. induction n as [|n IH]; intros k bl Hl Hnz Hw; simpl; [by destruct bl; simpl in *; [|lia]|].
  assert (word inode k = default 0 (arr_get bl 0)) as -> by (rw Hw; [lia|]; by rw Z.sub_diag).
  destruct bl as [|b bl]; [done|]. change (default 0 (arr_get (b :: bl) 0)) with b. rw decide_False; [apply Hnz; left|]. f_equal.
  apply IH; [simpl in Hl; lia|intros b' Hb'; apply Hnz; by right|].
  intros j Hj. rw Hw; [lia|]. unfold arr_get. rw !decide_True; [lia..|].
  by replace (Z.to_nat (j - k)) with (S (Z.to_nat (j - (k + 1)))) by lia.
Qed.

(** ** What a file of a good volume is for the driver *)

Lemma img_ok_img d : bytes_ok d → img_ok (img d).
Proof. intros Hd b. by apply img_buf_ok. Qed.

Lemma owned_inode im i : entry im i ≠ 0 → entry im i ∈ owned im i.
Proof. intros. unfold owned. rw decide_False //. left. Qed.

Lemma owned_block im i k :
  entry im i ≠ 0 → 0 ≤ k < Z.of_nat (length (chain (im (entry im i)))) →
  fblock im (entry im i) k ∈ owned im i ∧ arr_get (chain (im (entry im i))) k = Some (fblock im (entry im i) k).
Proof.
  intros He Hk. destruct (arr_get_is_Some (chain (im (entry im i))) k) as [b Hb]; [done|].
  destruct (arr_get_chain _ _ _ Hb) as [-> _]. split; [|done].
  unfold owned. rw decide_False //. right. apply arr_get_Some in Hb as [_ Hb]. by apply (list_elem_of_lookup_2 _ _ _ Hb).
Qed.

Section good.
Context (d : list Z) (n : Z) (Hv : volume_ok d n).

Lemma volume_img_ok : img_ok (img d).
Proof. apply img_ok_img, Hv. Qed.

Lemma entry_range i : 0 ≤ i < 25 → 0 ≤ entry (img d) i < 2 ^ 32.
Proof. intros. apply word_range; [apply volume_img_ok|lia]. Qed.

Lemma entry_block i : 0 ≤ i < 25 → entry (img d) i ≠ 0 → 3 ≤ entry (img d) i < n.
Proof. intros Hi He. apply (vo_owned d n Hv i); [done|by apply owned_inode]. Qed.

Lemma file_nblocks i :
  0 ≤ i < 25 → entry (img d) i ≠ 0 →
  0 ≤ fsize (img d) (entry (img d) i) ∧
  nblocks (fsize (img d) (entry (img d) i)) ≤ Z.of_nat (length (chain (img d (entry (img d) i)))) ≤ 127.
Proof.
  intros Hi He. pose proof (vo_fsize d n Hv i Hi He) as Hs.
  pose proof (word_range (img d (entry (img d) i)) 0 (volume_img_ok _) ltac:(lia)) as Hr.
  fold (fsize (img d) (entry (img d) i)) in Hr.
  pose proof (length_chain_from 127 1 (img d (entry (img d) i))). unfold chain in *.
  pose proof (nblocks_le (fsize (img d) (entry (img d) i)) ltac:(lia)). lia.
Qed.

Lemma volume_file_ok i : 0 ≤ i < 25 → entry (img d) i ≠ 0 → file_ok (img d) n (entry (img d) i).
Proof.
  intros Hi He. pose proof (entry_block i Hi He). destruct (file_nblocks i Hi He) as [H0 Hn].
  constructor; [lia| |].
  - pose proof (nblocks_le _ H0). lia.
  - intros k Hk. destruct (owned_block (img d) i k He ltac:(lia)) as [Ho _].
    pose proof (vo_owned d n Hv i _ Hi Ho). lia.
Qed.

Lemma volume_file_sep i : 0 ≤ i < 25 → entry (img d) i ≠ 0 → file_sep (img d) (entry (img d) i).
Proof.
  intros Hi He. destruct (file_nblocks i Hi He) as [H0 Hn].
  pose proof (vo_nodup d n Hv i Hi) as Hnd. unfold owned in Hnd. rw decide_False // in Hnd.
  apply NoDup_cons in Hnd as [Hin Hnd]. constructor.
  - intros k k' Hk Hk' E.
    destruct (owned_block (img d) i k He ltac:(lia)) as [_ H1]. destruct (owned_block (img d) i k' He ltac:(lia)) as [_ H2].
    rw E in H1. apply arr_get_Some in H1 as [_ H1], H2 as [_ H2].
    pose proof (NoDup_lookup _ _ _ _ Hnd H1 H2). lia.
  - intros k Hk E. destruct (owned_block (img d) i k He ltac:(lia)) as [_ H1].
    apply arr_get_Some in H1 as [_ H1]. apply Hin. rw E in H1. by apply (list_elem_of_lookup_2 _ _ _ H1).
Qed.

End good.

(** A file that is the same has the same blocks and the same bytes. *)
Lemma same_file_owned im im' i : same_file im im' i → owned im' i = owned im i.
Proof.
  intros [He _ Ho]. unfold owned. rw He. case_decide; [done|]. rw Ho //. by apply owned_inode.
Qed.

Lemma same_file_fsize im im' i :
  same_file im im' i → entry im i ≠ 0 → fsize im' (entry im' i) = fsize im (entry im i).
Proof. intros [He _ Ho] Hn. unfold fsize. rw He Ho //. by apply owned_inode. Qed.

Lemma same_file_fbytes d d' n i :
  volume_ok d n → 0 ≤ i < 25 → entry (img d) i ≠ 0 → same_file (img d) (img d') i →
  fbytes (img d') (entry (img d') i) = fbytes (img d) (entry (img d) i).
Proof.
  intros Hv Hi He Hs. destruct (file_nblocks d n Hv i Hi He) as [_ Hn].
  unfold fbytes. rw (same_file_fsize _ _ _ Hs He). do 2 f_equal. apply list_fmap_ext.
  intros j k Hk%lookup_seqZ. destruct (owned_block (img d) i k He ltac:(lia)) as [Ho _].
  assert (fblock (img d') (entry (img d') i) k = fblock (img d) (entry (img d) i) k) as ->.
  { unfold fblock. rw (sf_entry _ _ _ Hs) (sf_owned _ _ _ Hs) //. by apply owned_inode. }
  by apply (sf_owned _ _ _ Hs).
Qed.

Lemma same_file_refl im i : same_file im im i.
Proof. done. Qed.

(** ** Changes of a volume *)

(** The volumes agree on what the entries other than those in [skip] say. *)
Definition same_entry (im im' : Z → list Z) (i : Z) : Prop :=
  entry im' i = entry im i ∧ entry_name16 im' i = entry_name16 im i.

(** The invariant for a volume [d'], when every entry that is not free either
    kept its blocks or is well formed by itself. *)
Lemma volume_from d d' n i :
  volume_ok d n → Z.of_nat (length d') = 512 * n → bytes_ok d' → 0 ≤ i < 25 →
  (∀ b, 0 ≤ b < 3 → bit (img d' 1) b = true) →
  (∀ k, 0 ≤ k < 25 → k ≠ i → same_file (img d) (img d') k) →
  (∀ b, b ∈ owned (img d') i → 3 ≤ b < n ∧ bit (img d' 1) b = true) →
  NoDup (owned (img d') i) →
  (∀ k b, 0 ≤ k < 25 → k ≠ i → b ∈ owned (img d) k → bit (img d' 1) b = true ∧ b ∉ owned (img d') i) →
  (entry (img d') i ≠ 0 →
    fsize (img d') (entry (img d') i) ≤ 512 * Z.of_nat (length (chain (img d' (entry (img d') i))))) →
  volume_ok d' n.
Proof.
  intros Hv Hl Hb Hi Hsys Hsame Hown Hnd Hapart Hfs.
  assert (∀ k, 0 ≤ k < 25 → k ≠ i → owned (img d') k = owned (img d) k) as Ho.
  { intros k Hk Hki. by apply same_file_owned, Hsame. }
  constructor; try done; [apply Hv| | | |].
  - intros k b Hk. destruct (decide (k = i)) as [->|Hki]; [apply Hown|]. rw Ho // => Hin.
    split; [by apply (vo_owned d n Hv k)|by apply (Hapart k)].
  - intros k Hk. destruct (decide (k = i)) as [->|Hki]; [done|]. rw Ho //. by apply (vo_nodup d n Hv).
  - intros k k' b Hk Hk' Hkk. destruct (decide (k = i)) as [->|Hki], (decide (k' = i)) as [->|Hki'].
    + done.
    + rw (Ho k') // => H1 H2. by apply (proj2 (Hapart k' b Hk' Hki' H2)).
    + rw (Ho k) // => H1 H2. by apply (proj2 (Hapart k b Hk Hki H1)).
    + rw !Ho //. by apply (vo_apart d n Hv).
  - intros k Hk. destruct (decide (k = i)) as [->|Hki]; [done|]. intros He.
    pose proof (Hsame k Hk Hki) as Hs. assert (entry (img d) k ≠ 0) as He' by by rw -(sf_entry _ _ _ Hs).
    rw (same_file_fsize _ _ _ Hs He') (sf_entry _ _ _ Hs) (sf_owned _ _ _ Hs); [by apply owned_inode|].
    by apply (vo_fsize d n Hv).
Qed.

(** Only blocks that are not reserved changed. *)
Record scribbled (d d' : list Z) (n : Z) : Prop := {
  sc_length : length d' = length d;
  sc_bytes : bytes_ok d';
  sc_img b : 0 ≤ b < n → bit (img d 1) b = true → img d' b = img d b }.

Lemma scribbled_same d d' n i :
  volume_ok d n → scribbled d d' n → 0 ≤ i < 25 → same_file (img d) (img d') i.
Proof.
  intros Hv [Hl Hb Hi] Hr.
  assert (img d' 2 = img d 2) as E2 by (apply Hi; [pose proof (vo_size d n Hv); lia|by apply Hv]).
  constructor; [by rw /entry E2|by rw /entry_name16 E2|].
  intros b Hin. destruct (vo_owned d n Hv i b Hr Hin). by apply Hi; [lia|].
Qed.

Lemma scribbled_ok d d' n : volume_ok d n → scribbled d d' n → volume_ok d' n.
Proof.
  intros Hv Hs. assert (img d' 1 = img d 1) as E1.
  { apply (sc_img _ _ _ Hs); [pose proof (vo_size d n Hv); lia|by apply Hv]. }
  pose proof (scribbled_same d d' n 0 Hv Hs ltac:(lia)) as H0.
  apply (volume_from d d' n 0 Hv); rw ?E1; try lia.
  - rw (sc_length _ _ _ Hs). apply Hv.
  - apply Hs.
  - apply Hv.
  - intros k Hk _. by apply (scribbled_same d d' n).
  - intros b. rw (same_file_owned _ _ _ H0). by apply (vo_owned d n Hv).
  - rw (same_file_owned _ _ _ H0). by apply (vo_nodup d n Hv).
  - intros k b Hk Hk0 Hin. split; [by apply (vo_owned d n Hv k)|]. rw (same_file_owned _ _ _ H0).
    intros H. by apply (vo_apart d n Hv k 0 b).
  - intros He. assert (entry (img d) 0 ≠ 0) as He' by by rw -(sf_entry _ _ _ H0).
    rw (same_file_fsize _ _ _ H0 He') (sf_entry _ _ _ H0) (sf_owned _ _ _ H0); [by apply owned_inode|].
    by apply (vo_fsize d n Hv).
Qed.

(** Entry [i], which was free, became a file with inode block [f] and blocks
    [bl], which were free. *)
Record added (d d' : list Z) (n i f : Z) (bl : list Z) : Prop := {
  ad_index : 0 ≤ i < 25;
  ad_free : entry (img d) i = 0;
  ad_length : length d' = length d;
  ad_bytes : bytes_ok d';
  ad_nodup : NoDup (f :: bl);
  ad_blocks b : b ∈ f :: bl → 3 ≤ b < n ∧ bit (img d 1) b = false;
  ad_bits b : 0 ≤ b < n → bit (img d' 1) b = bit (img d 1) b || bool_decide (b ∈ f :: bl);
  ad_entry : entry (img d') i = f;
  ad_entries k : 0 ≤ k < 25 → k ≠ i → same_entry (img d) (img d') k;
  ad_chain : chain (img d' f) = bl;
  ad_fsize : fsize (img d') f ≤ 512 * Z.of_nat (length bl);
  ad_img b : 3 ≤ b < n → b ∉ f :: bl → img d' b = img d b }.

Lemma added_same d d' n i f bl k :
  volume_ok d n → added d d' n i f bl → 0 ≤ k < 25 → k ≠ i → same_file (img d) (img d') k.
Proof.
  intros Hv Ha Hk Hki. destruct (ad_entries _ _ _ _ _ _ Ha k Hk Hki) as [H1 H2]. constructor; [done..|].
  intros b Hb. destruct (vo_owned d n Hv k b Hk Hb) as [Hr Hbit]. apply Ha; [done|].
  intros Hin. apply Ha in Hin as [_ Hf]. exact (eq_true_false_abs _ Hbit Hf).
Qed.

Lemma added_owned d d' n i f bl : added d d' n i f bl → owned (img d') i = f :: bl.
Proof.
  intros Ha. unfold owned. rw (ad_entry _ _ _ _ _ _ Ha) (ad_chain _ _ _ _ _ _ Ha).
  rw decide_False //. intros E. destruct (ad_blocks _ _ _ _ _ _ Ha f ltac:(left)). lia.
Qed.

Lemma added_ok d d' n i f bl : volume_ok d n → added d d' n i f bl → volume_ok d' n.
Proof.
  intros Hv Ha. pose proof (added_owned _ _ _ _ _ _ Ha) as Ho. pose proof (vo_size d n Hv).
  apply (volume_from d d' n i Hv); rw ?Ho.
  - rw (ad_length _ _ _ _ _ _ Ha). apply Hv.
  - apply Ha.
  - apply Ha.
  - intros b Hb. rw (ad_bits _ _ _ _ _ _ Ha); [lia|]. by rw (vo_system d n Hv).
  - intros k Hk Hki. by apply (added_same _ _ _ _ _ _ _ Hv Ha).
  - intros b Hb. destruct (ad_blocks _ _ _ _ _ _ Ha b Hb). split; [done|].
    rw (ad_bits _ _ _ _ _ _ Ha); [lia|]. by rw (bool_decide_true (b ∈ f :: bl)) // orb_true_r.
  - apply Ha.
  - intros k b Hk Hki Hb. destruct (vo_owned d n Hv k b Hk Hb) as [Hr Hbit]. split.
    + rw (ad_bits _ _ _ _ _ _ Ha); [lia|]. by rw Hbit.
    + intros Hin. apply Ha in Hin as [_ Hf]. exact (eq_true_false_abs _ Hbit Hf).
  - intros _. rw (ad_entry _ _ _ _ _ _ Ha) (ad_chain _ _ _ _ _ _ Ha). apply Ha.
Qed.

(** Entry [i] became free and its blocks were released. *)
Record removed (d d' : list Z) (n i : Z) : Prop := {
  rm_index : 0 ≤ i < 25;
  rm_length : length d' = length d;
  rm_bytes : bytes_ok d';
  rm_bits b : 0 ≤ b < n → bit (img d' 1) b = bit (img d 1) b && bool_decide (b ∉ owned (img d) i);
  rm_entry : entry (img d') i = 0;
  rm_entries k : 0 ≤ k < 25 → k ≠ i → same_entry (img d) (img d') k;
  rm_img b : 3 ≤ b < n → img d' b = img d b }.

Lemma removed_same d d' n i k :
  volume_ok d n → removed d d' n i → 0 ≤ k < 25 → k ≠ i → same_file (img d) (img d') k.
Proof.
  intros Hv Hr Hk Hki. destruct (rm_entries _ _ _ _ Hr k Hk Hki) as [H1 H2]. constructor; [done..|].
  intros b Hb. destruct (vo_owned d n Hv k b Hk Hb) as [Hbr _]. by apply Hr.
Qed.

Lemma removed_ok d d' n i : volume_ok d n → removed d d' n i → volume_ok d' n.
Proof.
  intros Hv Hr. pose proof (vo_size d n Hv).
  assert (owned (img d') i = []) as Ho by by rw /owned (rm_entry _ _ _ _ Hr).
  apply (volume_from d d' n i Hv); rw ?Ho.
  - rw (rm_length _ _ _ _ Hr). apply Hv.
  - apply Hr.
  - apply Hr.
  - intros b Hb. rw (rm_bits _ _ _ _ Hr); [lia|]. rw (vo_system d n Hv) //=. apply bool_decide_true.
    intros Hin. pose proof (vo_owned d n Hv i b (rm_index _ _ _ _ Hr) Hin). lia.
  - intros k Hk Hki. by apply (removed_same _ _ _ _ _ Hv Hr).
  - by intros b ?%not_elem_of_nil.
  - constructor.
  - intros k b Hk Hki Hb. destruct (vo_owned d n Hv k b Hk Hb) as [Hbr Hbit].
    split; [|apply not_elem_of_nil]. rw (rm_bits _ _ _ _ Hr); [lia|]. rw Hbit /=. apply bool_decide_true.
    intros Hin. exact (vo_apart d n Hv k i b Hk (rm_index _ _ _ _ Hr) Hki Hb Hin).
  - by rw (rm_entry _ _ _ _ Hr).
Qed.

End Volume.
