(* ===== verification/Toolrun.v ===== *)
(** * Runs of the routines of util/tfstool.c

    What the stream operations, the block accesses, the bitmap routines and
    the directory scans of the tool return, in terms of the volume in the
    image ([Volume.img], [Volume.put], [Volume.bit]).  [at_disk h i f d] is
    the host [h] with stream [i] = [f] open on an image of content [d]. *)
From stdpp Require Import gmap.
From S2P Require Import Prelude Bytes Bitmap Tfs TfsFile Hostio Tfstool Volume.
Import Tfs TfsFile Hostio Tfstool Volume.

Module Toolrun.

(** ** Streams *)

Definition with_stream (h : host) (k : nat) (g : FILE) : host :=
  h <| streams := <[k := Some g]> (streams h) |>.

(** Stream [k] of the host is [g], its file has content [l]. *)
Record open_on (h : host) (k : nat) (g : FILE) (l : list Z) : Prop := {
  oo_stream : streams h !! k = Some (Some g);
  oo_file : files h !! path g = Some l }.

Lemma get_stream_run h k g l : open_on h k g l → get_stream (Some k) h = Ret (k, g) h.
Proof. intros [Hs _]. unfold get_stream. cbn. by rw Hs. Qed.

Lemma get_file_run h k g l : open_on h k g l → get_file (path g) h = Ret l h.
Proof. intros [_ Hf]. unfold get_file. by rw Hf. Qed.

Lemma with_stream_open h k g l g' :
  open_on h k g l → path g' = path g → open_on (with_stream h k g') k g' l.
Proof.
  intros [Hs Hf] Hp. constructor; [|by rw Hp]. cbn. apply list_lookup_insert_eq. by apply (lookup_lt_Some _ _ _ Hs).
Qed.

Lemma with_stream_twice h k g g' : with_stream (with_stream h k g) k g' = with_stream h k g'.
Proof. unfold with_stream. destruct h. unfold update. cbn. by rw list_insert_insert_eq. Qed.

Definition sought (g : FILE) (p : Z) : FILE := (g <| pos := p |>) <| at_eof := false |>.

Lemma fseek_run h k g l o w :
  open_on h k g l →
  let new := match w with SEEK_SET => o | SEEK_END => Z.of_nat (length l) + o end in
  0 ≤ new → fseek (Some k) o w h = Ret 0 (with_stream h k (sought g new)).
Proof.
  intros Ho new Hn. unfold fseek. rw (bind_Ret _ _ _ _ _ (get_stream_run _ _ _ _ Ho)) /=.
  rw (bind_Ret _ _ _ _ _ (get_file_run _ _ _ _ Ho)). by rw decide_False; [subst new; lia|].
Qed.

Lemma ftell_run h k g l : open_on h k g l → ftell (Some k) h = Ret (pos g) h.
Proof. intros Ho. unfold ftell. by rw (bind_Ret _ _ _ _ _ (get_stream_run _ _ _ _ Ho)). Qed.
Lemma ferror_run h k g l : open_on h k g l → ferror (Some k) h = Ret (in_error g) h.
Proof. intros Ho. unfold ferror. by rw (bind_Ret _ _ _ _ _ (get_stream_run _ _ _ _ Ho)). Qed.
Lemma feof_run h k g l : open_on h k g l → feof (Some k) h = Ret (at_eof g) h.
Proof. intros Ho. unfold feof. by rw (bind_Ret _ _ _ _ _ (get_stream_run _ _ _ _ Ho)). Qed.

(** The stream after [n] bytes were asked for. *)
Definition after_read (g : FILE) (l : list Z) (n : Z) : FILE :=
  let got := slice l (pos g) n in
  (g <| pos := pos g + Z.of_nat (length got) |>)
    <| at_eof := at_eof g || bool_decide (Z.of_nat (length got) < n) |>.

Lemma fread_run h k g l n :
  open_on h k g l → readable g = true →
  fread n (Some k) h = Ret (slice l (pos g) n) (with_stream h k (after_read g l n)).
Proof.
  intros Ho Hr. unfold fread. rw (bind_Ret _ _ _ _ _ (get_stream_run _ _ _ _ Ho)) /= Hr /=.
  by rw (bind_Ret _ _ _ _ _ (get_file_run _ _ _ _ Ho)).
Qed.

Lemma fwrite_run h k g l data :
  open_on h k g l → writable g = true → data ≠ [] →
  fwrite data (Some k) h = Ret (Z.of_nat (length data))
    (with_stream (h <| files := <[path g := overwrite l (pos g) data]> (files h) |>) k
       (g <| pos := pos g + Z.of_nat (length data) |>)).
Proof.
  intros Ho Hw Hd. unfold fwrite. rw (bind_Ret _ _ _ _ _ (get_stream_run _ _ _ _ Ho)) /= Hw /=.
  rw decide_False //. by rw (bind_Ret _ _ _ _ _ (get_file_run _ _ _ _ Ho)).
Qed.

(** Writing at the end of a file. *)
Lemma overwrite_end (out l : list Z) : overwrite out (Z.of_nat (length out)) l = out ++ l.
Proof.
  unfold overwrite. rw Nat2Z.id Nat.sub_diag app_nil_r firstn_all drop_ge; [lia|]. by rw app_nil_r.
Qed.

Lemma fclose_run h k g l :
  open_on h k g l → fclose (Some k) h = Ret tt (h <| streams := <[k := None]> (streams h) |>).
Proof. intros Ho. unfold fclose. by rw (bind_Ret _ _ _ _ _ (get_stream_run _ _ _ _ Ho)). Qed.

Lemma printf_run fmt args args' h :
  arguments args = Some args' → printf fmt args h = Ret tt (h <| output := (fmt, args') :: output h |>).
Proof. intros Ha. unfold printf. by rw Ha. Qed.

(** The test that fseek succeeded. *)
Ltac seek_ok := destruct (decide ((0 : Z) ≠ 0)) as [Hne|_]; [by destruct Hne|].

Lemma getfilesize_run h k g l :
  open_on h k g l → 0 ≤ pos g → Z.of_nat (length l) < 2 ^ 64 →
  getfilesize (Some k) h = Ret (Z.of_nat (length l)) (with_stream h k (sought g (pos g))).
Proof.
  intros Ho Hp Hl. unfold getfilesize. rw (bind_Ret _ _ _ _ _ (ftell_run _ _ _ _ Ho)).
  rw decide_False; [lia|]. rw prog_bind_ret.
  rw (bind_Ret _ _ _ _ _ (fseek_run _ _ _ _ 0 SEEK_END Ho ltac:(cbn; lia))). cbn [decide].
  set (h1 := with_stream _ _ _).
  assert (open_on h1 k (sought g (Z.of_nat (length l) + 0)) l) as Ho1 by by apply (with_stream_open h k g l).
  seek_ok. rw prog_bind_ret.
  rw (bind_Ret _ _ _ _ _ (ftell_run _ _ _ _ Ho1)).
  change (pos (sought g (Z.of_nat (length l) + 0))) with (Z.of_nat (length l) + 0).
  rw decide_False; [lia|]. rw prog_bind_ret.
  rw (bind_Ret _ _ _ _ _ (fseek_run _ _ _ _ (pos g) SEEK_SET Ho1 Hp)).
  seek_ok. cbn. unfold h1. rw with_stream_twice. f_equal.
  change (2 ^ 64) with 18446744073709551616 in *. rw Z.add_0_r Z.mod_small //. lia.
Qed.

(** ** Blocks of the image *)

Definition at_disk (h : host) (i : nat) (f : FILE) (d : list Z) : host :=
  Host (<[path f := d]> (files h)) (<[i := Some f]> (streams h)) (Some i) (output h).

(** A stream on which blocks can be read and written. *)
Record image_stream (h : host) (i : nat) (f : FILE) : Prop := {
  is_index : (i < length (streams h))%nat;
  is_readable : readable f = true;
  is_writable : writable f = true;
  is_error : in_error f = false }.

(** A stream on which blocks can be written, as fopen's mode "wb" makes it. *)
Record write_stream (h : host) (i : nat) (f : FILE) : Prop := {
  ws_index : (i < length (streams h))%nat;
  ws_writable : writable f = true;
  ws_error : in_error f = false }.

Lemma image_write_stream h i f : image_stream h i f → write_stream h i f.
Proof. by intros []. Qed.

(** The stream after block [b] was read or written. *)
Definition moved (f : FILE) (b : Z) : FILE := sought f (512 * b + 512).

Lemma moved_moved f b b' : moved (moved f b) b' = moved f b'.
Proof. done. Qed.
Lemma moved_stream h i f b : image_stream h i f → image_stream h i (moved f b).
Proof. by intros []. Qed.

Lemma at_disk_opened h i f d : (i < length (streams h))%nat → open_on (at_disk h i f d) i f d.
Proof. intros Hi. constructor; cbn; [by apply list_lookup_insert_eq|by rw lookup_insert_eq]. Qed.
Lemma at_disk_open h i f d : image_stream h i f → open_on (at_disk h i f d) i f d.
Proof. intros Hi. by apply at_disk_opened, Hi. Qed.

Lemma at_disk_stream h i f d g : path g = path f → with_stream (at_disk h i f d) i g = at_disk h i g d.
Proof. intros Hp. unfold with_stream, at_disk, update. cbn. by rw list_insert_insert_eq Hp. Qed.

Lemma block_offset_run b h' : 0 ≤ b < 4096 → block_offset b h' = Ret (512 * b) h'.
Proof.
  intros Hb. unfold block_offset, TFS_BLOCK_SIZE. rw decide_True; [lia|]. by rw Z.mul_comm.
Qed.

Lemma seek_block_run h i f d b : (i < length (streams h))%nat → 0 ≤ b →
  fseek (Some i) (512 * b) SEEK_SET (at_disk h i f d) = Ret 0 (at_disk h i (sought f (512 * b)) d).
Proof.
  intros Hi Hb. rw (fseek_run _ _ _ _ (512 * b) SEEK_SET (at_disk_opened h i f d Hi) ltac:(lia)).
  by rw at_disk_stream.
Qed.

(** A block written anywhere; the image may grow. *)
Lemma write_block_over h i f d l b :
  write_stream h i f → 0 ≤ b < 4096 → length l = 512%nat →
  write_block (Some l) b (at_disk h i f d) = Ret tt (at_disk h i (moved f b) (overwrite d (512 * b) l)).
Proof.
  intros [Hi Hw He] Hb Hl. unfold write_block. rw (bind_Ret _ _ _ _ _ (eq_refl : the_disk (at_disk h i f d) = Ret (Some i) _)).
  rw (bind_Ret _ _ _ _ _ (block_offset_run b _ Hb)).
  rw (bind_Ret _ _ _ _ _ (seek_block_run h i f d b Hi ltac:(lia))). seek_ok. cbn zeta.
  pose proof (at_disk_opened h i (sought f (512 * b)) d Hi) as Ho. rw take_ge; [lia|].
  rw (bind_Ret _ _ _ _ _ (fwrite_run _ _ _ _ l Ho Hw ltac:(by intros ->))).
  change (path (sought f (512 * b))) with (path f). change (pos (sought f (512 * b))) with (512 * b).
  set (d' := overwrite d (512 * b) l).
  assert (with_stream ((at_disk h i (sought f (512 * b)) d) <|
      files := <[path f:=d']> (files (at_disk h i (sought f (512 * b)) d)) |>) i
      ((sought f (512 * b)) <| pos := 512 * b + Z.of_nat (length l) |>) =
    at_disk h i (moved f b) d') as ->.
  { rw Hl. unfold with_stream, at_disk, moved, sought, update. cbn.
    by rw insert_insert_eq list_insert_insert_eq. }
  rw (bind_Ret _ _ _ _ _ (ferror_run _ _ _ _ (at_disk_opened h i (moved f b) d' Hi))).
  change (in_error (moved f b)) with (in_error f). rw He. rw decide_False; [|done]. by intros [_ ?].
Qed.

Section blocks.
Context (h : host) (i : nat) (f : FILE) (d : list Z) (n : Z).
Context (Hf : image_stream h i f) (Hd : Z.of_nat (length d) = 512 * n) (Hn : n ≤ 4096).

Lemma the_disk_run : the_disk (at_disk h i f d) = Ret (Some i) (at_disk h i f d).
Proof. done. Qed.

Lemma read_block_run data b :
  0 ≤ b < n → length data = 512%nat →
  read_block data b (at_disk h i f d) = Ret (img d b) (at_disk h i (moved f b) d).
Proof.
  intros Hb Hl. unfold read_block. rw (bind_Ret _ _ _ _ _ the_disk_run).
  rw (bind_Ret _ _ _ _ _ (block_offset_run b _ ltac:(lia))).
  rw (bind_Ret _ _ _ _ _ (seek_block_run h i f d b (is_index _ _ _ Hf) ltac:(lia))). seek_ok.
  assert (image_stream h i (sought f (512 * b))) as Hf' by by destruct Hf.
  pose proof (at_disk_open h i _ d Hf') as Ho.
  rw (bind_Ret _ _ _ _ _ (fread_run _ _ _ _ TFS_BLOCK_SIZE Ho (is_readable _ _ _ Hf'))). rw at_disk_stream //.
  cbn [pos sought update]. change (pos (sought f (512 * b))) with (512 * b).
  assert (slice d (512 * b) TFS_BLOCK_SIZE = img d b) as Hs by (rw img_slice; [lia..|done]).
  assert (length (slice d (512 * b) 512) = 512%nat) as Hls by (rw length_slice; lia).
  assert (after_read (sought f (512 * b)) d TFS_BLOCK_SIZE = moved f b) as ->.
  { unfold after_read. change (pos (sought f (512 * b))) with (512 * b). unfold TFS_BLOCK_SIZE. rw Hls.
    unfold moved, sought, update. cbn. by rw bool_decide_false; [lia|]. }
  pose proof (at_disk_open h i _ d (moved_stream h i f b Hf)) as Ho'.
  rw (bind_Ret _ _ _ _ _ (ferror_run _ _ _ _ Ho')). rw (is_error _ _ _ (moved_stream h i f b Hf)).
  rw Hs. unfold stored. assert (length (img d b) = 512%nat) as Hli by by rw -Hs.
  rw Hli drop_ge; [lia|]. by rw app_nil_r.
Qed.

Lemma write_block_run l b :
  0 ≤ b < n → length l = 512%nat →
  write_block (Some l) b (at_disk h i f d) = Ret tt (at_disk h i (moved f b) (put d b l)).
Proof.
  intros Hb Hl. rw write_block_over //; [by apply image_write_stream|lia|]. do 2 f_equal.
  unfold overwrite, put, splice. replace (Z.to_nat (512 * b) - length d)%nat with 0%nat by lia. by rw app_nil_r.
Qed.

Lemma numblocks_run :
  0 ≤ pos f → tfstool_numblocks (Some i) (at_disk h i f d) = Ret n (at_disk h i (sought f (pos f)) d).
Proof.
  intros Hp. unfold tfstool_numblocks. pose proof (at_disk_open h i f d Hf) as Ho.
  assert (Z.of_nat (length d) < 2 ^ 64) as Hlt.
  { change (2 ^ 64) with 18446744073709551616. lia. }
  rw (bind_Ret _ _ _ _ _ (getfilesize_run _ _ _ _ Ho Hp Hlt)). rw at_disk_stream //.
  rw Hd. unfold TFS_BLOCK_SIZE. rw Z.mul_comm Z.quot_mul; [lia|done].
Qed.

(** The image does not change when another stream is used. *)
Lemma at_disk_other k g : k ≠ i → with_stream (at_disk h i f d) k g = at_disk (with_stream h k g) i f d.
Proof.
  intros Hk. unfold with_stream, at_disk, update. cbn. by rw list_insert_insert_ne.
Qed.

Lemma at_disk_open_other k g l :
  k ≠ i → path g ≠ path f → open_on h k g l → open_on (at_disk h i f d) k g l.
Proof.
  intros Hk Hp [Hs Hg]. constructor; cbn; [rw list_lookup_insert_ne; [congruence|done]|rw lookup_insert_ne; [congruence|done]].
Qed.

End blocks.

(** ** Bitmaps *)

Section bitmaps.
Context (bat : list Z) (Hbat : buf_ok bat).

Lemma bitmap_get_run k h : 0 ≤ k < 4096 → bitmap_get bat k h = Ret (Z.b2z (bit bat k)) h.
Proof.
  intros Hk. unfold bitmap_get. rw Z.quot_div_nonneg; [lia..|]. rw Z.rem_mod_nonneg; [lia..|].
  rw decide_False; [zdm|]. rw (bind_valid _ _ _ _ (ld32_word bat (k `div` 32) Hbat ltac:(zdm))). cbn. by rw Bitmap.shiftr_land_1; [zdm|].
Qed.

Lemma bitmap_set_run k b h : 0 ≤ k < 4096 → bitmap_set bat k (Z.b2z b) h = Ret (set_bit bat k b) h.
Proof.
  intros Hk. unfold bitmap_set. rw Z.quot_div_nonneg; [lia..|]. rw Z.rem_mod_nonneg; [lia..|].
  assert (0 ≤ k `div` 32 < 128) as Hw by zdm. assert (0 ≤ k `mod` 32 < 32) as Hj by zdm.
  pose proof (word_range bat (k `div` 32) Hbat Hw). destruct b; simpl; rw decide_False; [lia| |lia|].
  - rw (bind_valid _ _ _ _ (ld32_word bat _ Hbat Hw)). rw Bitmap.mask_set // st32_set_word //.
  - rw (bind_valid _ _ _ _ (ld32_word bat _ Hbat Hw)). rw Bitmap.mask_clear // st32_set_word //.
Qed.

(** What bitmap_findnset returns: the first clear bit below [l], set. *)
Definition finds (l : Z) (r : Z * list Z) : Prop :=
  (r = (-1, bat) ∧ ∀ j, 0 ≤ j < l → bit bat j = true) ∨
  (∃ k, r = (k, set_bit bat k true) ∧ 0 ≤ k < l ∧ bit bat k = false ∧ ∀ j, 0 ≤ j < k → bit bat j = true).

Lemma findnset_loop_run m i l h :
  0 ≤ i → i + Z.of_nat m = l → l ≤ 4096 → (∀ j, 0 ≤ j < i → bit bat j = true) →
  ∃ r, findnset_loop m i bat h = Ret r h ∧ finds l r.
Proof.
  revert i. induction m as [|m IH]; intros i Hi Hl Hmax Hset; simpl.
  - exists (-1, bat). split; [done|]. left. split; [done|]. intros j Hj. apply Hset. lia.
  - rw (bind_Ret _ _ _ _ _ (bitmap_get_run i h ltac:(lia))). destruct (bit bat i) eqn:Eb; simpl.
    + apply IH; [lia..|]. intros j Hj. destruct (decide (j = i)) as [->|]; [done|]. apply Hset. lia.
    + change 1 with (Z.b2z true). rw (bind_Ret _ _ _ _ _ (bitmap_set_run i true h ltac:(lia))).
      eexists. split; [done|]. right. exists i. split; [done|]. split; [lia|done].
Qed.

Lemma bitmap_findnset_run l h :
  0 ≤ l ≤ 4096 → ∃ r, bitmap_findnset bat l h = Ret r h ∧ finds l r.
Proof. intros Hl. apply findnset_loop_run; [lia..|]. intros j Hj. lia. Qed.

End bitmaps.

End Toolrun.
