(* ===== verification/Toolscan.v ===== *)
(** * Names and the directory scans of util/tfstool.c

    [cname]: the characters of a name, up to its NUL and at most 16.  The
    scans of the directory are searches for a name and for a free entry. *)
From stdpp Require Import gmap.
From S2P Require Import Prelude Bytes Tfs TfsFile Hostio Tfstool Volume Toolrun.
Import Tfs TfsFile Hostio Tfstool Volume Toolrun.

Module Toolscan.

(** ** Names *)

Fixpoint cname (n : nat) (l : list Z) : list Z :=
  match n, l with
  | S n', c :: r => if decide (c = 0) then [] else c :: cname n' r
  | _, _ => []
  end.

Lemma strncmp_cname n a b v : strncmp n a b = Some v → v = 0 ↔ cname n a = cname n b.
Proof.
  revert a b. induction n as [|n IH]; intros a b; simpl; [by intros [= <-]|].
  destruct a as [|x a], b as [|y b]; try done. destruct (decide (x = y)) as [->|Hxy].
  - case_decide; [by intros [= <-]|]. intros Hc. rw (IH a b Hc). split; [by intros ->|by intros [= ?]].
  - intros [= <-]. split; [lia|]. repeat case_decide; subst; try done. by intros [= ?].
Qed.

Lemma strncmp_Some n a b l :
  strncpy n b = Some l → (n ≤ length a)%nat → is_Some (strncmp n a b).
Proof.
  revert a b l. induction n as [|n IH]; intros a b l; simpl; [by eexists|].
  destruct b as [|y b]; [done|]. destruct a as [|x a]; simpl; [lia|]. intros Hb Hl.
  destruct (decide (x = y)) as [->|]; [|by eexists]. destruct (decide (y = 0)) as [->|]; [by eexists|].
  destruct (strncpy n b) as [r|] eqn:E; [|done]. by apply (IH a b r); [|lia].
Qed.

Lemma strncpy_length n b l : strncpy n b = Some l → length l = n.
Proof.
  revert b l. induction n as [|n IH]; intros b l; simpl; [by intros [= <-]|].
  destruct b as [|y b]; [done|]. case_decide; [intros [= <-]; simpl; by rw length_replicate|].
  destruct (strncpy n b) as [r|] eqn:E; [|done]. intros [= <-]. simpl. by rw (IH b r).
Qed.

Lemma strncpy_cname n b l : strncpy n b = Some l → cname n l = cname n b.
Proof.
  revert b l. induction n as [|n IH]; intros b l; simpl; [done|].
  destruct b as [|y b]; [done|]. case_decide as Hy; [by intros [= <-]|].
  destruct (strncpy n b) as [r|] eqn:E; [|done]. intros [= <-]. rw decide_False //. by rw (IH b r).
Qed.

Lemma strncpy_bytes n b l : bytes_ok b → strncpy n b = Some l → bytes_ok l.
Proof.
  revert b l. induction n as [|n IH]; intros b l Hb; simpl; [by intros [= <-]|].
  destruct b as [|y b]; [done|]. apply Forall_cons in Hb as [Hy Hb]. case_decide.
  - intros [= <-]. constructor; [unfold is_byte; lia|]. apply Forall_replicate. unfold is_byte. lia.
  - destruct (strncpy n b) as [r|] eqn:E; [|done]. intros [= <-]. constructor; [done|]. by apply (IH b r).
Qed.

Lemma strncpy_cstr n b s : cstr b = Some s → is_Some (strncpy n b).
Proof.
  revert b s. induction n as [|n IH]; intros b s; simpl; [by eexists|].
  destruct b as [|y b]; [done|]. simpl. case_decide; [by eexists|].
  destruct (cstr b) as [r|] eqn:E; [|done]. intros _. destruct (IH b r E) as [l ->]. by eexists.
Qed.

Lemma cname_take n m l : (n ≤ m)%nat → cname n (take m l) = cname n l.
Proof.
  revert m l. induction n as [|n IH]; intros m l Hm; simpl; [done|].
  destruct m as [|m]; [lia|]. destruct l as [|c l]; simpl; [done|]. case_decide; [done|]. rw IH //. lia.
Qed.

(** The name of entry [k] of a directory block. *)
Definition dir_name (dir : list Z) (k : Z) : list Z := cname 16 (name_at dir k).

Lemma dir_name_img im k : 0 ≤ k → dir_name (im TFS_DIRECTORY_BLOCK) k = cname 16 (entry_name16 im k).
Proof. intros Hk. unfold dir_name, name_at, entry_name16, slice, SIZEOF_DIRENTRY. by rw cname_take; [lia|]. Qed.

(** ** The scans *)

Section scans.
Context (dir : list Z) (name name16 : list Z) (Hdir : buf_ok dir).
Context (Hname : strncpy 16 name = Some name16).

Lemma entry_inode_run i h : 0 ≤ i < 25 → entry_inode dir i h = Ret (word dir (5 * i)) h.
Proof.
  intros Hi. unfold entry_inode, SIZEOF_DIRENTRY.
  replace (20 * i) with (4 * (5 * i)) by lia. by rw ld32_word; [done|lia|].
Qed.

Lemma name_cmp_run i h : 0 ≤ i < 25 →
  ∃ v, name_cmp dir i name h = Ret v h ∧ (v = 0 ↔ dir_name dir i = cname 16 name).
Proof.
  intros Hi. unfold name_cmp. destruct Hdir as [Hl _].
  destruct (strncmp_Some 16 (name_at dir i) name name16 Hname) as [v Hv].
  { unfold name_at, SIZEOF_DIRENTRY. rw length_drop Hl. lia. }
  exists v. rw Hv. split; [done|]. by apply strncmp_cname.
Qed.

(** The name is not in the directory. *)
Definition no_entry : Prop := ∀ k, 0 ≤ k < 25 → dir_name dir k ≠ cname 16 name.

Lemma tool_find_entry_from m i h :
  0 ≤ i → i + Z.of_nat m = 25 → (∀ k, 0 ≤ k < i → dir_name dir k ≠ cname 16 name) →
  ∃ r, find_entry m i dir name h = Ret r h ∧
    ((r = -1 ∧ no_entry) ∨
     (0 ≤ r < 25 ∧ dir_name dir r = cname 16 name ∧ ∀ k, 0 ≤ k < r → dir_name dir k ≠ cname 16 name)).
Proof.
  revert i. induction m as [|m IH]; intros i Hi Hm Hbefore; simpl.
  - exists (-1). split; [done|]. left. split; [done|]. intros k Hk. apply Hbefore. lia.
  - destruct (name_cmp_run i h ltac:(lia)) as (v & Hr & Hv). rw (bind_Ret _ _ _ _ _ Hr). case_decide as Hv0.
    + exists i. split; [done|]. right. split; [lia|]. split; [by apply Hv|done].
    + apply IH; [lia..|]. intros k Hk. destruct (decide (k = i)) as [->|]; [by rw -Hv|]. apply Hbefore. lia.
Qed.

Lemma tool_find_entry_run h :
  ∃ r, find_entry 25 0 dir name h = Ret r h ∧
    ((r = -1 ∧ no_entry) ∨
     (0 ≤ r < 25 ∧ dir_name dir r = cname 16 name ∧ ∀ k, 0 ≤ k < r → dir_name dir k ≠ cname 16 name)).
Proof. apply tool_find_entry_from; [lia..|]. intros k Hk. lia. Qed.

(** The scan of tfstool_write: [s] is the text of the name for its message. *)
Lemma free_entry_from s m i index h :
  cstr name = Some s → 0 ≤ i → i + Z.of_nat m = 25 →
  (index = -1 ∧ (∀ k, 0 ≤ k < i → word dir (5 * k) ≠ 0) ∨ 0 ≤ index < 25 ∧ word dir (5 * index) = 0) →
  (∀ k, 0 ≤ k < i → dir_name dir k ≠ cname 16 name) →
  (∃ r, free_entry m i index dir name h = Ret r h ∧ no_entry ∧
    (r = -1 ∧ (∀ k, 0 ≤ k < 25 → word dir (5 * k) ≠ 0) ∨ 0 ≤ r < 25 ∧ word dir (5 * r) = 0)) ∨
  (∃ h', free_entry m i index dir name h = Exit EXIT_FAILURE h' ∧ files h' = files h ∧ ¬ no_entry).
Proof.
  intros Hs. revert i index. induction m as [|m IH]; intros i index Hi Hm Hix Hbefore; simpl.
  - left. exists index. split; [done|]. split; [intros k Hk; apply Hbefore; lia|].
    destruct Hix as [[-> Hz]|Hix]; [left|by right]. split; [done|]. intros k Hk. apply Hz. lia.
  - rw (bind_Ret _ _ _ _ _ (entry_inode_run i h ltac:(lia))).
    destruct (name_cmp_run i h ltac:(lia)) as (v & Hr & Hv). rw (bind_Ret _ _ _ _ _ Hr).
    destruct (decide (v = 0)) as [Hv0|Hv0].
    + right. rw (bind_Ret _ _ _ _ _ (printf_run _ [Str name] [Str s] h ltac:(by rw /= Hs))).
      eexists. split; [done|]. split; [done|]. intros Hno. apply (Hno i); [lia|]. by apply Hv.
    + apply IH; [lia..| |].
      * case_decide as Hc; [right; split; [lia|by apply Hc]|].
        destruct Hix as [[-> Hz]|Hix]; [left|by right]. split; [done|]. intros k Hk.
        destruct (decide (k = i)) as [->|]; [|apply Hz; lia]. intros E. by apply Hc.
      * intros k Hk. destruct (decide (k = i)) as [->|]; [by rw -Hv|]. apply Hbefore. lia.
Qed.

Lemma free_entry_run s h :
  cstr name = Some s →
  (∃ r, free_entry 25 0 (-1) dir name h = Ret r h ∧ no_entry ∧
    (r = -1 ∧ (∀ k, 0 ≤ k < 25 → word dir (5 * k) ≠ 0) ∨ 0 ≤ r < 25 ∧ word dir (5 * r) = 0)) ∨
  (∃ h', free_entry 25 0 (-1) dir name h = Exit EXIT_FAILURE h' ∧ files h' = files h ∧ ¬ no_entry).
Proof.
  intros Hs. apply (free_entry_from s); [done|lia..| |].
  - left. split; [done|]. intros k Hk. lia.
  - intros k Hk. lia.
Qed.

End scans.

(** ** Opening an image *)

Definition pushed (h : host) (g : FILE) : host := h <| streams := streams h ++ [Some g] |>.

Lemma pushed_open h g l : files h !! path g = Some l → open_on (pushed h g) (length (streams h)) g l.
Proof.
  intros Hg. constructor; cbn; [|done]. rw lookup_app_r; [lia|]. by rw Nat.sub_diag.
Qed.

(** The stream of fopen with mode "r" or "r+". *)
Definition reads (p : list Z) (w : bool) : FILE := File p 0 false false true w.

Lemma fopen_read h name p (w : bool) :
  cstr name = Some p →
  fopen name (if w then "r+" else "r") h =
    if bool_decide (is_Some (files h !! p)) then Ret (Some (length (streams h))) (pushed h (reads p w))
    else Ret None h.
Proof.
  intros Hn. unfold fopen. rw (bind_valid _ _ _ _ Hn).
  destruct w;
    [destruct (decide ("r+" = "r")) as [?|_]; [done|]; destruct (decide ("r+" = "r+")) as [_|[]]; [|done]
    |destruct (decide ("r" = "r")) as [_|[]]; [|done]];
    unfold mbind, prog_bind, file_exists; by case_bool_decide.
Qed.

Lemma openfile_run h name p l (w : bool) :
  cstr name = Some p → files h !! p = Some l →
  openfile name (if w then "r+" else "r") h = Ret (Some (length (streams h))) (pushed h (reads p w)).
Proof.
  intros Hn Hf. unfold openfile. pose proof (fopen_read h name p w Hn) as Ho.
  rw bool_decide_true in Ho; [by rw Hf|]. by rw (bind_Ret _ _ _ _ _ Ho).
Qed.

Lemma openfile_missing h name p (w : bool) :
  cstr name = Some p → files h !! p = None →
  ∃ h', openfile name (if w then "r+" else "r") h = Exit EXIT_FAILURE h' ∧ files h' = files h.
Proof.
  intros Hn Hf. unfold openfile. pose proof (fopen_read h name p w Hn) as Ho.
  rw bool_decide_false in Ho; [rw Hf; by intros [? ?]|]. rw (bind_Ret _ _ _ _ _ Ho).
  destruct (decide ((None : stream) = None)) as [_|[]]; [|done].
  rw (bind_Ret _ _ _ _ _ (printf_run "Unable to open file: %s\n" [Str name] [Str p] h ltac:(by rw /= Hn))).
  by eexists.
Qed.

Lemma openfile_w h name p (b : bool) :
  cstr name = Some p →
  openfile name (if b then "wb" else "w") h = Ret (Some (length (streams h)))
    (pushed (h <| files := <[p := []]> (files h) |>) (File p 0 false false false true)).
Proof.
  intros Hn. unfold openfile, fopen. rw prog_bind_bind (bind_valid _ _ _ _ Hn). set (m := if b then _ else _).
  assert (m ≠ "r" ∧ m ≠ "r+" ∧ (m = "w" ∨ m = "wb")) as (H1 & H2 & H3) by (subst m; destruct b; naive_solver).
  by rw decide_False // decide_False // decide_True.
Qed.

(** The global variable set to a stream that was opened on an image. *)
Lemma set_disk_run h p d :
  files h !! p = Some d →
  set_disk (Some (length (streams h))) (pushed h (reads p true)) =
  Ret tt (at_disk (pushed h (reads p true)) (length (streams h)) (reads p true) d).
Proof.
  intros Hf. unfold set_disk, at_disk, pushed, update. cbn. do 2 f_equal.
  - by rw insert_id.
  - rw list_insert_id //. rw lookup_app_r; [lia|]. by rw Nat.sub_diag.
Qed.

Lemma pushed_image h p : image_stream (pushed h (reads p true)) (length (streams h)) (reads p true).
Proof. constructor; try done. cbn. rw length_app /=. lia. Qed.

(** A stream opened while the image is open. *)
Lemma at_disk_pushed h i f d g :
  (i < length (streams h))%nat → pushed (at_disk h i f d) g = at_disk (pushed h g) i f d.
Proof. intros Hi. unfold pushed, at_disk, update. cbn. by rw insert_app_l. Qed.

Lemma at_disk_length h i f d : length (streams (at_disk h i f d)) = length (streams h).
Proof. cbn. by rw length_insert. Qed.

End Toolscan.
