(* ===== verification/ToolWrite.v ===== *)
(** * tfstool_write copies a file into a volume

    The run of [tfstool_write] on a volume with [Volume.volume_ok]: it either
    ends with the file added, every other file unchanged and the invariant
    kept, or it exits with every file unchanged. *)
From stdpp Require Import gmap.
From S2P Require Import Prelude Bytes Tfs TfsFile Hostio Tfstool Volume Toolrun Toolscan.
Import Tfs TfsFile Hostio Tfstool Volume Toolrun Toolscan.

Module ToolWrite.

Section write.
Context (F : gmap (list Z) (list Z)) (i j : nat) (p ps src : list Z).
Context (Hij : j ≠ i) (Hp : ps ≠ p) (Hsrc : bytes_ok src).

(** The image is open as stream [i] with content [d]; stream [j] reads [src]
    and stands at [spos]. *)
Inductive tool_at (d : list Z) (spos : Z) (eof : bool) : host → Prop :=
| Tool_at hb f sf :
    image_stream hb i f → path f = p → 0 ≤ pos f →
    open_on hb j sf src → readable sf = true → path sf = ps → pos sf = spos → at_eof sf = eof →
    files hb = F → tool_at d spos eof (at_disk hb i f d).

Context (n : Z) (Hn : n ≤ 4096).

Lemma tool_read d spos eof h data b :
  tool_at d spos eof h → Z.of_nat (length d) = 512 * n → 0 ≤ b < n → length data = 512%nat →
  ∃ h', read_block data b h = Ret (img d b) h' ∧ tool_at d spos eof h'.
Proof.
  intros [hb f sf Hi Hpf Hpos Ho] Hd Hb Hl.
  eexists. split; [by apply (read_block_run hb i f d n)|].
  apply (Tool_at d spos eof hb (moved f b) sf); try done; [by apply moved_stream|change (0 ≤ 512 * b + 512); lia].
Qed.

Lemma tool_write d spos eof h l b :
  tool_at d spos eof h → Z.of_nat (length d) = 512 * n → 0 ≤ b < n → length l = 512%nat →
  ∃ h', write_block (Some l) b h = Ret tt h' ∧ tool_at (put d b l) spos eof h'.
Proof.
  intros [hb f sf Hi Hpf Hpos Ho] Hd Hb Hl.
  eexists. split; [by apply (write_block_run hb i f d n)|].
  apply (Tool_at (put d b l) spos eof hb (moved f b) sf); try done; [by apply moved_stream|change (0 ≤ 512 * b + 512); lia].
Qed.

Lemma tool_numblocks d spos eof h :
  tool_at d spos eof h → Z.of_nat (length d) = 512 * n →
  ∃ h', tfstool_numblocks (Some i) h = Ret n h' ∧ tool_at d spos eof h'.
Proof.
  intros [hb f sf Hi Hpf Hpos Ho] Hd. eexists. split; [by apply (numblocks_run hb i f d n)|].
  apply (Tool_at d spos eof hb (sought f (pos f)) sf); try done. by destruct Hi.
Qed.

Lemma tool_fread d spos h :
  tool_at d spos false h →
  let got := slice src spos 512 in
  ∃ h', fread TFS_BLOCK_SIZE (Some j) h = Ret got h' ∧
    tool_at d (spos + Z.of_nat (length got)) (bool_decide (Z.of_nat (length got) < 512)) h'.
Proof.
  intros [hb f sf Hi Hpf Hpos Ho Hr Hps Hsp He HF] got.
  assert (open_on (at_disk hb i f d) j sf src) as Ho'.
  { apply at_disk_open_other; [done| |done]. by rw Hps Hpf. }
  pose proof (fread_run _ _ _ _ TFS_BLOCK_SIZE Ho' Hr) as Hrun. rw Hsp at_disk_other // in Hrun.
  eexists. split; [exact Hrun|].
  apply (Tool_at _ _ _ (with_stream hb j (after_read sf src TFS_BLOCK_SIZE)) f (after_read sf src TFS_BLOCK_SIZE));
    try done.
  - destruct Hi. constructor; [cbn; by rw length_insert|done..].
  - by apply (with_stream_open hb j sf src).
  - unfold after_read, update. cbn. by rw Hsp.
  - unfold after_read, update. cbn. by rw He Hsp.
Qed.

Lemma tool_feof d spos eof h : tool_at d spos eof h → feof (Some j) h = Ret eof h.
Proof.
  intros [hb f sf Hi Hpf Hpos Ho Hr Hps Hsp He HF]. rw -He. apply (feof_run _ _ _ src).
  apply at_disk_open_other; [done| |done]. by rw Hps Hpf.
Qed.

(** ** The blocks of the copy *)

Context (d0 bat0 : list Z) (Hd0 : Z.of_nat (length d0) = 512 * n) (Hb0 : bytes_ok d0).
Context (Hbat0 : buf_ok bat0) (Hsys : ∀ b, 0 ≤ b < 3 → bit bat0 b = true) (Hn3 : 3 ≤ n).

(** The blocks [bl] were reserved and hold the start of the source. *)
Record written (d bat inode bl : list Z) : Prop := {
  wn_length : length d = length d0;
  wn_bytes : bytes_ok d;
  wn_other b : 0 ≤ b < n → b ∉ bl → img d b = img d0 b;
  wn_nodup : NoDup bl;
  wn_free b : b ∈ bl → 3 ≤ b < n ∧ bit bat0 b = false;
  wn_bat : buf_ok bat;
  wn_bits b : 0 ≤ b < 4096 → bit bat b = bit bat0 b || bool_decide (b ∈ bl);
  wn_inode : buf_ok inode;
  wn_words k : 0 ≤ k < 128 → word inode k = default 0 (arr_get (0 :: bl) k);
  wn_data k b : arr_get bl k = Some b →
    take (length (slice src (512 * k) 512)) (img d b) = slice src (512 * k) 512 }.

Lemma written_start inode :
  buf_ok inode → (∀ k, 0 ≤ k < 128 → word inode k = 0) → written d0 bat0 inode [].
Proof.
  intros Hi Hw. constructor; try done.
  - constructor.
  - by intros b ?%not_elem_of_nil.
  - intros b Hb. rw bool_decide_false; [apply not_elem_of_nil|]. by rw orb_false_r.
  - intros k Hk. rw Hw //. unfold arr_get. rw decide_True; [lia|]. by destruct (Z.to_nat k).
  - intros k b [_ H]%arr_get_Some. done.
Qed.

Lemma arr_get_snoc (bl : list Z) x k :
  arr_get (bl ++ [x]) k = if decide (k = Z.of_nat (length bl)) then Some x else arr_get bl k.
Proof.
  unfold arr_get. destruct (decide (0 ≤ k)); [|by rw decide_False; [lia|]].
  case_decide as E; [subst k; rw lookup_app_r; [lia|]; by rw Nat2Z.id Nat.sub_diag|].
  destruct (decide (Z.to_nat k < length bl)%nat); [by rw lookup_app_l|].
  rw lookup_app_r; [lia|]. rw (lookup_ge_None_2 bl); [lia|]. apply lookup_ge_None_2. simpl. lia.
Qed.

Lemma written_step d bat inode bl b data :
  written d bat inode bl → bit bat b = false → 3 ≤ b < n → (length bl < 127)%nat → buf_ok data →
  let got := slice src (512 * Z.of_nat (length bl)) 512 in
  take (length got) data = got →
  written (put d b data) (set_bit bat b true) (set_word inode (Z.of_nat (length bl) + 1) b) (bl ++ [b]).
Proof.
  intros Hw Hbit Hb Hbl Hdata got Hgot. destruct Hw.
  assert (b ∉ bl) as Hnin.
  { intros Hin. rw wn_bits0 in Hbit; [lia|]. rw bool_decide_true // orb_true_r // in Hbit. }
  assert (bit bat0 b = false) as Hbit0.
  { rw wn_bits0 in Hbit; [lia|]. by apply orb_false_elim in Hbit as [? _]. }
  assert (∀ b', 0 ≤ b' < n → img (put d b data) b' = if decide (b' = b) then data else img d b') as Himg.
  { intros b' Hb'. apply (img_put d n); [by rw wn_length0|by apply Hdata|lia|done]. }
  constructor.
  - rw length_put; [apply Hdata|lia|lia|done].
  - apply put_bytes; [done|apply Hdata].
  - intros b' Hb' Hin. apply not_elem_of_app in Hin as [Hin Hne]. apply not_elem_of_cons in Hne as [Hne _].
    rw Himg // decide_False //. by apply wn_other0.
  - apply NoDup_app. split; [done|]. split; [|apply NoDup_singleton].
    intros x Hx ->%list_elem_of_singleton. done.
  - intros b' [Hin| ->%list_elem_of_singleton]%elem_of_app; [by apply wn_free0|done].
  - apply set_bit_ok; [done|lia].
  - intros b' Hb'. rw bit_set_bit; [done|lia|lia|]. case_decide as E; [subst b'|].
    + by rw (bool_decide_true (b ∈ bl ++ [b])) ?orb_true_r //; apply elem_of_app; right; left.
    + rw wn_bits0 //. f_equal. apply bool_decide_ext. rw elem_of_app list_elem_of_singleton. naive_solver.
  - apply set_word_ok; [done|lia].
  - intros k Hk. rw word_set_word; [done|change (2 ^ 32) with 4294967296; lia|lia|].
    change (0 :: bl ++ [b]) with ((0 :: bl) ++ [b]). rw arr_get_snoc. simpl length.
    destruct (decide (k = Z.of_nat (length bl) + 1)); [by rw decide_True; [lia|]|].
    rw decide_False; [lia|]. by apply wn_words0.
  - intros k b'. rw arr_get_snoc. case_decide as E; [intros [= <-]; subst k|intros Hk].
    + rw Himg; [lia|]. by rw decide_True.
    + pose proof (proj2 (proj1 (arr_get_Some _ _ _) Hk)) as Hl. pose proof (list_elem_of_lookup_2 _ _ _ Hl) as Hin.
      pose proof (wn_free0 b' Hin). rw Himg; [lia|]. rw decide_False; [by intros ->|]. by apply wn_data0.
Qed.

(** ** The loop *)

Lemma length_got spos : 0 ≤ spos ≤ Z.of_nat (length src) →
  Z.of_nat (length (slice src spos 512)) = Z.min 512 (Z.of_nat (length src) - spos).
Proof. intros. unfold slice. rw length_take length_drop. lia. Qed.

Lemma take_stored (data got : list Z) : take (length got) (stored data got) = got.
Proof. unfold stored. by rw take_app_length. Qed.

Lemma stored_ok data got : buf_ok data → bytes_ok got → (length got ≤ 512)%nat → buf_ok (stored data got).
Proof.
  intros [Hl Hb] Hg Hle. unfold stored. split; [rw length_app length_drop; lia|].
  apply Forall_app_2; [done|]. by apply Forall_drop.
Qed.

(** The size the loop counts while [m] blocks are in use. *)
Definition copied (bl : list Z) : Z := Z.min (512 * Z.of_nat (length bl)) (Z.of_nat (length src)).

(** Why the loop ended after [t] turns at most: the source is copied, the table
    is full, or (it did not fit) the disk is. *)
Definition loop_reason (t : nat) (ok : bool) (bat bl : list Z) : Prop :=
  if ok then copied bl = Z.of_nat (length src) ∨ length bl = 127%nat ∨ length bl = t
  else 512 * Z.of_nat (length bl) ≤ Z.of_nat (length src) ∧ ∀ b, 0 ≤ b < n → bit bat b = true.

Definition loop_end (t : nat) (r : run (Z * bool * list Z * list Z)) : Prop :=
  ∃ ok d bat inode bl h spos eof,
    r = Ret (copied bl, ok, bat, inode) h ∧ written d bat inode bl ∧ (length bl ≤ 127)%nat ∧
    loop_reason t ok bat bl ∧ tool_at d spos eof h.

Lemma loop_stops t (ok : bool) d bat inode bl h :
  written d bat inode bl → 512 * Z.of_nat (length bl) ≤ Z.of_nat (length src) → (length bl ≤ 127)%nat →
  (if ok then copied bl = Z.of_nat (length src) ∨ length bl = 127%nat ∨ length bl = t
   else ∀ b, 0 ≤ b < n → bit bat b = true) →
  tool_at d (512 * Z.of_nat (length bl)) false h →
  loop_end t (Ret (512 * Z.of_nat (length bl), ok, bat, inode) h).
Proof.
  intros Hw Hle Hbl Hwhy Ht. exists ok, d, bat, inode, bl, h. do 2 eexists.
  split; [unfold copied; by rw Z.min_l; [lia|]|]. split; [exact Hw|]. split; [done|]. split; [|exact Ht].
  by destruct ok.
Qed.

Lemma write_loop_run m d bat inode data bl h :
  written d bat inode bl → 512 * Z.of_nat (length bl) ≤ Z.of_nat (length src) → (length bl ≤ 127)%nat →
  buf_ok data → tool_at d (512 * Z.of_nat (length bl)) false h →
  loop_end (length bl + m) (write_loop m (Z.of_nat (length bl)) n (512 * Z.of_nat (length bl)) bat inode data (Some j) h).
Proof.
  revert d bat inode data bl h. induction m as [|m IH]; intros d bat inode data bl h Hw Hle Hbl Hdata Ht.
  - apply (loop_stops _ true d); try done. right. right. lia.
  - cbn [write_loop]. unfold TFS_MAX_FILESIZE, TFS_BLOCK_SIZE, TFS_BLOCKS_MAX.
    case_bool_decide as Hmax; cbn [negb].
    2:{ apply (loop_stops _ true d); try done. right. left. lia. }
    rw (i32_small n); [lia|].
    destruct (bitmap_findnset_run bat (wn_bat _ _ _ _ Hw) n h ltac:(lia)) as (r & Hr & Hf).
    rw (bind_Ret _ _ _ _ _ Hr). destruct Hf as [[-> Hfull]|(b & -> & Hb & Hbit & _)].
    { change (u32 (-1)) with 4294967295. rw decide_False; [lia|].
      by apply (loop_stops _ false d). }
    assert (3 ≤ b) as Hb3.
    { destruct (decide (3 ≤ b)); [done|]. rw (wn_bits _ _ _ _ Hw) in Hbit; [lia|]. by rw Hsys in Hbit; [lia|]. }
    rw (u32_small b); [change (2 ^ 32) with 4294967296; lia|]. rw decide_True; [lia|].
    destruct (tool_fread _ _ _ Ht) as (h1 & Hr1 & Ht1). rw (bind_Ret _ _ _ _ _ Hr1).
    pose proof (length_got (512 * Z.of_nat (length bl)) ltac:(lia)) as Hlg.
    set (got := slice src (512 * Z.of_nat (length bl)) 512) in *. cbv zeta.
    assert (buf_ok (stored data got)) as Hst by (apply stored_ok; [done|by apply slice_bytes|lia]).
    rw (i32_small b); [lia|].
    assert (Z.of_nat (length d) = 512 * n) as Hd by by rw (wn_length _ _ _ _ Hw).
    destruct (tool_write _ _ _ _ (stored data got) b Ht1 Hd ltac:(lia) (proj1 Hst)) as (h2 & Hr2 & Ht2).
    rw (bind_Ret _ _ _ _ _ Hr2).
    rw (bind_valid _ _ _ _ (st32_set_word inode (Z.of_nat (length bl) + 1) b (wn_inode _ _ _ _ Hw) ltac:(lia))).
    rw (bind_Ret _ _ _ _ _ (tool_feof _ _ _ _ Ht2)).
    pose proof (written_step d bat inode bl b (stored data got) Hw Hbit ltac:(lia) ltac:(lia) Hst
      (take_stored data got)) as Hw'.
    assert (length (bl ++ [b]) = S (length bl)) as Hlen by (rw length_app /=; lia).
    rw (u32_small (512 * Z.of_nat (length bl) + Z.of_nat (length got)));
      [change (2 ^ 32) with 4294967296; lia|].
    case_bool_decide as Heof.
    + exists true. do 7 eexists. split; [|split; [exact Hw'|split; [lia|split; [|exact Ht2]]]].
      2:{ left. unfold copied. lia. }
      cbn. do 4 f_equal. unfold copied. rw Hlen. lia.
    + assert (512 * Z.of_nat (length bl) + Z.of_nat (length got) = 512 * Z.of_nat (length (bl ++ [b]))) as Ep by lia.
      assert (Z.of_nat (length bl) + 1 = Z.of_nat (length (bl ++ [b]))) as Ei by lia.
      rw Ep in Ht2. rw Ep Ei. rw Ei in Hw'.
      replace (length bl + S m)%nat with (length (bl ++ [b]) + m)%nat by lia.
      apply (IH _ _ _ _ _ _ Hw'); [lia|lia|done|exact Ht2].
Qed.

(** ** The contents of the new file *)

(** An image in which block [f] is the inode with its size and the blocks hold
    what was copied has the source as the contents of file [f]. *)
Lemma written_bytes d bat inode bl f (im : Z → list Z) :
  written d bat inode bl → img_ok im → (length bl ≤ 127)%nat → Z.of_nat (length src) = copied bl →
  im f = set_word inode 0 (copied bl) → (∀ b, b ∈ bl → im b = img d b) →
  fsize im f = Z.of_nat (length src) ∧ chain (im f) = bl ∧ fbytes im f = src.
Proof.
  intros Hw Him Hbl Hlen Hf Hb. pose proof Hw as [].
  assert (0 ≤ copied bl < 2 ^ 32) as Hc.
  { change (2 ^ 32) with 4294967296. unfold copied. lia. }
  assert (∀ k, 0 ≤ k < 127 → word (im f) (k + 1) = default 0 (arr_get bl k)) as Hwords.
  { intros k Hk. rw Hf word_set_word //. rw decide_False; [lia|]. rw wn_words0; [lia|].
    unfold arr_get. rw !decide_True; [lia..|]. by replace (Z.to_nat (k + 1)) with (S (Z.to_nat k)) by lia. }
  assert (fsize im f = Z.of_nat (length src)) as Hs.
  { unfold fsize. by rw Hf word_set_word. }
  split; [done|]. split.
  { apply chain_from_list; [lia| |].
    - intros b Hin. pose proof (wn_free0 b Hin). lia.
    - intros k Hk. replace k with (k - 1 + 1) at 1 by lia. apply Hwords. lia. }
  apply arr_ext. intros k Hk0. destruct (decide (k < Z.of_nat (length src))) as [Hk|Hk].
  2:{ transitivity (@None Z); [|symmetry]; apply arr_get_None; [rw length_fbytes; [done|lia|lia]|lia]. }
  rw arr_get_fbytes; [done|lia|]. unfold fblock.
  assert (0 ≤ k `div` 512 < Z.of_nat (length bl)) as Hq by (unfold copied in Hlen; zdm).
  destruct (arr_get_is_Some bl (k `div` 512) Hq) as [b Hbk].
  rw Hwords; [lia|]. rw Hbk /=.
  pose proof (proj2 (proj1 (arr_get_Some _ _ _) Hbk)) as Hl. rw Hb; [by apply (list_elem_of_lookup_2 _ _ _ Hl)|].
  pose proof (wn_data0 _ _ Hbk) as Hd. pose proof (length_got (512 * (k `div` 512)) ltac:(zdm)) as Hg.
  transitivity (arr_get (slice src (512 * (k `div` 512)) 512) (k `mod` 512)).
  - rw -Hd. unfold arr_get. rw !decide_True; [zdm..|]. symmetry. apply lookup_take_lt. zdm.
  - rw arr_get_slice; [zdm|zdm|]. f_equal. zdm.
Qed.

End write.
End ToolWrite.
