(* ===== verification/ToolAdd.v ===== *)
(** * The result of tfstool_write

    The last steps of [tfstool_write] (the inode, the directory and the
    bitmap reach the image) and its result as a whole: the volume with the
    file added, or an exit that left every file as it was. *)
From stdpp Require Import gmap.
From S2P Require Import Prelude Bytes Tfs TfsFile Hostio Tfstool Volume Toolrun Toolscan ToolWrite.
Import Tfs TfsFile Hostio Tfstool Volume Toolrun Toolscan ToolWrite.

Module ToolAdd.

(** ** The directory block with a new entry *)

Definition new_dir (dir : list Z) (i f : Z) (name16 : list Z) : list Z :=
  splice (set_word dir (5 * i) f) (20 * i + 4) name16.

Section new_dir.
Context (dir name16 : list Z) (i f : Z).
Context (Hdir : buf_ok dir) (Hi : 0 ≤ i < 25) (Hname : length name16 = 16%nat) (Hnb : bytes_ok name16).
Context (Hf : 0 ≤ f < 2 ^ 32).

Lemma new_dir_ok : buf_ok (new_dir dir i f name16).
Proof.
  destruct (set_word_ok dir (5 * i) f Hdir ltac:(lia)) as [Hl Hb]. unfold new_dir. split.
  - rw length_splice; lia.
  - by apply splice_bytes.
Qed.

Lemma new_dir_word k : 0 ≤ k < 25 → word (new_dir dir i f name16) (5 * k) = if decide (k = i) then f else word dir (5 * k).
Proof.
  intros Hk. destruct (set_word_ok dir (5 * i) f Hdir ltac:(lia)) as [Hl Hb].
  unfold new_dir. unfold word at 1. rw ld32_splice_disj; [lia..|].
  change (default 0 (ld32 (set_word dir (5 * i) f) (4 * (5 * k)))) with (word (set_word dir (5 * i) f) (5 * k)).
  rw word_set_word //; [lia|]. case_decide; case_decide; try done; lia.
Qed.

Lemma new_dir_name k : 0 ≤ k < 25 →
  slice (new_dir dir i f name16) (20 * k + 4) 16 = if decide (k = i) then name16 else slice dir (20 * k + 4) 16.
Proof.
  intros Hk. destruct (set_word_ok dir (5 * i) f Hdir ltac:(lia)) as [Hl Hb]. destruct Hdir as [Hl0 _].
  unfold new_dir. case_decide as E; [subst k|].
  - change 16 with (Z.of_nat 16). rw -Hname. apply slice_splice_same; lia.
  - rw slice_splice_disj; [lia..|]. unfold set_word. rw slice_splice_disj //; simpl; lia.
Qed.

End new_dir.

(** ** The last steps *)

Section committed.
Context (n : Z) (Hn : n ≤ 4096).

(** The image after [commit]. *)
Definition committed (d inode dir bat : list Z) (f : Z) : list Z := put (put (put d f inode) 2 dir) 1 bat.

Lemma committed_img d inode dir bat f b :
  Z.of_nat (length d) = 512 * n → 3 ≤ f < n → buf_ok inode → buf_ok dir → buf_ok bat → 0 ≤ b < n →
  img (committed d inode dir bat f) b =
    if decide (b = 1) then bat else if decide (b = 2) then dir else if decide (b = f) then inode else img d b.
Proof.
  intros Hd Hf [Hi _] [Hdl _] [Hb _] Hbn. unfold committed.
  rw (img_put _ n); [rw !length_put; lia|done|lia|lia|]. case_decide; [done|].
  rw (img_put _ n); [rw length_put; lia|done|lia|lia|]. case_decide; [done|].
  by rw (img_put _ n); [done|done|lia|lia|].
Qed.

Lemma committed_ok d inode dir bat f :
  Z.of_nat (length d) = 512 * n → bytes_ok d → 3 ≤ f < n → buf_ok inode → buf_ok dir → buf_ok bat →
  length (committed d inode dir bat f) = length d ∧ bytes_ok (committed d inode dir bat f).
Proof.
  intros Hd Hb Hf [Hi Hib] [Hdl Hdb] [Hbl Hbb]. unfold committed. split.
  - rw !length_put; lia.
  - by repeat apply put_bytes.
Qed.

End committed.

Section last.
Context (F : gmap (list Z) (list Z)) (i j : nat) (p ps src : list Z).
Context (Hij : j ≠ i) (Hp : ps ≠ p) (n : Z) (Hn : n ≤ 4096).
Abbreviation tool_at := (tool_at F i j p ps src).

Lemma commit_run fs bat inode dir f index target name16 d spos eof h :
  tool_at d spos eof h → Z.of_nat (length d) = 512 * n → 3 ≤ f < n → buf_ok inode → buf_ok dir → buf_ok bat →
  0 ≤ index < 25 → strncpy 16 target = Some name16 → bytes_ok name16 →
  ∃ h', commit fs bat inode dir f index target h = Ret tt h' ∧
    tool_at (committed d (set_word inode 0 fs) (new_dir dir index f name16) bat f) spos eof h'.
Proof.
  intros Ht Hd Hf Hi Hdir Hb Hix Hname Hnb. unfold commit.
  rw (bind_valid _ _ _ _ (st32_set_word inode 0 fs Hi ltac:(lia))). rw i32_small; [lia|].
  pose proof (set_word_ok inode 0 fs Hi ltac:(lia)) as [Hil _].
  destruct (tool_write F i j p ps src Hij n Hn _ _ _ _ (set_word inode 0 fs) f Ht Hd ltac:(lia) Hil) as (h1 & Hr1 & Ht1).
  rw (bind_Ret _ _ _ _ _ Hr1).
  assert (SIZEOF_DIRENTRY * index = 4 * (5 * index)) as Ew by (unfold SIZEOF_DIRENTRY; lia).
  rw Ew (bind_valid _ _ _ _ (st32_set_word dir (5 * index) f Hdir ltac:(lia))).
  rw (bind_valid _ _ _ _ Hname). pose proof (strncpy_length _ _ _ Hname) as Hl16.
  pose proof (set_word_ok dir (5 * index) f Hdir ltac:(lia)) as [Hdl _].
  assert (memcpy (set_word dir (5 * index) f) (4 * (5 * index) + 4) name16 TFS_FILENAME_MAX =
    Some (new_dir dir index f name16)) as Hm.
  { unfold memcpy, TFS_FILENAME_MAX. rw decide_True; [lia|]. rw take_ge; [lia|].
    unfold new_dir. by replace (4 * (5 * index) + 4) with (20 * index + 4) by lia. }
  rw (bind_valid _ _ _ _ Hm).
  assert (buf_ok (new_dir dir index f name16)) as [Hnl _].
  { pose proof (set_word_ok dir (5 * index) f Hdir ltac:(lia)) as [_ Hb2]. split.
    - unfold new_dir. rw length_splice; lia.
    - by apply splice_bytes. }
  destruct (tool_write F i j p ps src Hij n Hn _ _ _ _ (new_dir dir index f name16) 2 Ht1) as (h2 & Hr2 & Ht2);
    [rw length_put; lia|lia|done|].
  rw (bind_Ret _ _ _ _ _ Hr2). apply (tool_write F i j p ps src Hij n Hn _ _ _ _ bat 1 Ht2); [|lia|apply Hb].
  rw !length_put; lia.
Qed.

(** Both streams closed: the image keeps its content. *)
Lemma close_run d spos eof h :
  tool_at d spos eof h →
  ∃ h1 h2, fclose (Some j) h = Ret tt h1 ∧ the_disk h1 = Ret (Some i) h1 ∧ fclose (Some i) h1 = Ret tt h2 ∧
    files h2 = <[p := d]> F.
Proof.
  intros [hb f sf Hi Hpf Hpos Ho Hr Hps Hsp He HF].
  assert (open_on (at_disk hb i f d) j sf src) as Ho'.
  { apply at_disk_open_other; [done| |done]. by rw Hps Hpf. }
  eexists. eexists. split; [exact (fclose_run _ _ _ _ Ho')|]. split; [done|]. split.
  - apply (fclose_run _ _ f d). constructor; cbn; [|by rw lookup_insert_eq].
    rw list_lookup_insert_ne //. by apply list_lookup_insert_eq, Hi.
  - by rw -Hpf -HF.
Qed.

Lemma fails_run d spos eof h fmt args args' :
  tool_at d spos eof h → arguments args = Some args' →
  ∃ h', fails (Some j) fmt args h = Exit EXIT_FAILURE h' ∧ files h' = <[p := d]> F.
Proof.
  intros Ht Ha. unfold fails. rw (bind_Ret _ _ _ _ _ (printf_run fmt args args' h Ha)).
  set (h0 := _ <| output := _ |>).
  assert (tool_at d spos eof h0) as Ht0.
  { destruct Ht as [hb f sf Hi Hpf Hpos Ho Hr Hps Hsp He HF].
    assert (h0 = at_disk (hb <| output := (fmt, args') :: output hb |>) i f d) as -> by reflexivity.
    apply (Tool_at F i j p ps src d spos eof (hb <| output := (fmt, args') :: output hb |>) f sf); try done;
      [by destruct Hi|by destruct Ho]. }
  destruct (close_run _ _ _ _ Ht0) as (h1 & h2 & H1 & H2 & H3 & H4).
  rw (bind_Ret _ _ _ _ _ H1) (bind_Ret _ _ _ _ _ H2) (bind_Ret _ _ _ _ _ H3). by exists h2.
Qed.

End last.

(** ** tfstool_write *)

(** The first steps: both files are open, the size of the source is known. *)
Lemma start_run h dn sn p ps d src :
  cstr dn = Some p → cstr sn = Some ps → files h !! p = Some d → files h !! ps = Some src → ps ≠ p →
  Z.of_nat (length src) < 2 ^ 64 →
  ∃ i j h1, j ≠ i ∧ tool_at (files h) i j p ps src d 0 false h1 ∧
    ∀ B (k : stream → stream → Z → prog B),
      (d ← openfile dn "r+"; set_disk d;; s ← openfile sn "r"; z ← getfilesize s; k d s z) h =
      k (Some i) (Some j) (Z.of_nat (length src)) h1.
Proof.
  intros Hdn Hsn Hd Hs Hps Hlen.
  pose proof (openfile_run h dn p d true Hdn Hd) as H1. pose proof (set_disk_run h p d Hd) as H2.
  pose proof (pushed_image h p) as Hi. set (i := length (streams h)) in *.
  set (hb := pushed h (reads p true)) in *.
  assert (files (at_disk hb i (reads p true) d) !! ps = Some src) as Hs1.
  { cbn. rw lookup_insert_ne //. congruence. }
  pose proof (openfile_run _ sn ps src false Hsn Hs1) as H3.
  rw at_disk_length at_disk_pushed // in H3; [apply Hi|]. set (j := length (streams hb)) in *.
  assert (j ≠ i) as Hij by (pose proof (is_index _ _ _ Hi); lia).
  pose proof (pushed_open hb (reads ps false) src Hs) as Ho. set (hb2 := pushed hb (reads ps false)) in *.
  assert (image_stream hb2 i (reads p true)) as Hi2.
  { constructor; try done. cbn. rw !length_app /=. subst i. lia. }
  assert (open_on (at_disk hb2 i (reads p true) d) j (reads ps false) src) as Ho2.
  { by apply at_disk_open_other. }
  pose proof (getfilesize_run _ _ _ _ Ho2 ltac:(cbn; lia) Hlen) as H4.
  rw at_disk_other // in H4.
  exists i, j. eexists. split; [done|]. split.
  2:{ intros B k. rw (bind_Ret _ _ _ _ _ H1) (bind_Ret _ _ _ _ _ H2) (bind_Ret _ _ _ _ _ H3).
      by rw (bind_Ret _ _ _ _ _ H4). }
  apply (Tool_at _ _ _ _ _ _ _ _ _ (with_stream hb2 j (sought (reads ps false) 0)) (reads p true)
    (sought (reads ps false) 0)); try done.
  - destruct Hi2. constructor; try done. cbn. by rw length_insert.
  - by apply (with_stream_open hb2 j (reads ps false) src).
Qed.

Section tool.
Context (stack : string → list Z) (Hstack : ∀ v, buf_ok (stack v)).
Context (h : host) (dn sn tn p ps t d src : list Z) (n : Z).
Context (Hdn : cstr dn = Some p) (Hsn : cstr sn = Some ps) (Htn : cstr tn = Some t) (Htb : bytes_ok tn).
Context (Hps : ps ≠ p) (Hd : files h !! p = Some d) (Hsrc : files h !! ps = Some src).
Context (Hv : volume_ok d n) (Hb : bytes_ok src) (Hlen : Z.of_nat (length src) < 2 ^ 64).

(** The file [tn] with the bytes of the source was added as entry [k]. *)
Record file_added (d' : list Z) (k : Z) : Prop := {
  fa_added : ∃ f bl, added d d' n k f bl;
  fa_name : cname 16 (entry_name16 (img d') k) = cname 16 tn;
  fa_new : no_entry (img d TFS_DIRECTORY_BLOCK) tn;
  fa_size : fsize (img d') (entry (img d') k) = Z.of_nat (length src);
  fa_bytes : fbytes (img d') (entry (img d') k) = src }.

(** The reasons for which the program gives up: the name is taken, the directory
    is full, the file is too long for an inode, or the disk is full: an inode
    and the blocks do not fit, where a file of a multiple of 512 bytes needs one
    block more than its size. *)
Definition refused : Prop :=
  ¬ no_entry (img d TFS_DIRECTORY_BLOCK) tn ∨
  (∀ k, 0 ≤ k < 25 → entry (img d) k ≠ 0) ∨
  TFS_MAX_FILESIZE < Z.of_nat (length src) ∨
  (∀ fl, NoDup fl → (∀ b, b ∈ fl → 0 ≤ b < n ∧ bit (img d TFS_ALLOCATION_BLOCK) b = false) →
    512 * (Z.of_nat (length fl) - 1) ≤ Z.of_nat (length src)).

(** What the program promises. *)
Definition write_promise (r : run unit) : Prop :=
  match r with
  | Ret _ h' => ∃ d' k, files h' = <[p := d']> (files h) ∧ file_added d' k
  | Exit st h' => st = EXIT_FAILURE ∧ refused ∧ ∃ d', files h' = <[p := d']> (files h) ∧ scribbled d d' n
  | Undefined => False
  end.

Lemma scribbled_refl : scribbled d d n.
Proof. constructor; try done. apply Hv. Qed.

(** The new volume, from the blocks of the copy. *)
Lemma committed_added bat0 d1 bat inode bl f k name16 :
  3 ≤ f < n → bit (img d 1) f = false → bat0 = set_bit (img d 1) f true →
  written src n d bat0 d1 bat inode bl → (length bl ≤ 127)%nat → copied src bl = Z.of_nat (length src) →
  0 ≤ k < 25 → entry (img d) k = 0 → strncpy 16 tn = Some name16 → no_entry (img d TFS_DIRECTORY_BLOCK) tn →
  file_added (committed d1 (set_word inode 0 (copied src bl)) (new_dir (img d 2) k f name16) bat f) k.
Proof.
  intros Hf Hfree Hbat0 Hw Hbl Hcp Hk He Hname Hno. pose proof Hw as [].
  pose proof (vo_size d n Hv) as Hn. pose proof (volume_img_ok d n Hv) as Him.
  pose proof (strncpy_length _ _ _ Hname) as Hl16. pose proof (strncpy_bytes _ _ _ Htb Hname) as Hb16.
  assert (0 ≤ f < 2 ^ 32) as Hf32 by (change (2 ^ 32) with 4294967296; lia).
  set (dir' := new_dir (img d 2) k f name16). set (inode' := set_word inode 0 (copied src bl)).
  assert (buf_ok dir') as Hdir by by apply new_dir_ok.
  assert (buf_ok inode') as Hino by (apply set_word_ok; [done|lia]).
  assert (Z.of_nat (length d1) = 512 * n) as Hd1 by (rw wn_length0; apply Hv).
  destruct (committed_ok n d1 inode' dir' bat f Hd1 wn_bytes0 Hf Hino Hdir wn_bat0) as [Hlc Hbc].
  pose proof (λ b, committed_img n d1 inode' dir' bat f b Hd1 Hf Hino Hdir wn_bat0) as Hc.
  set (d' := committed d1 inode' dir' bat f) in *.
  assert (∀ b, 0 ≤ b → bit bat0 b = if decide (b = f) then true else bit (img d 1) b) as Hb0.
  { intros b Hb0. rewrite Hbat0. apply bit_set_bit; [done|lia|done]. }
  assert (f ∉ bl) as Hfbl.
  { intros Hin. destruct (wn_free0 f Hin) as [_ Hbit]. rw Hb0 in Hbit; [lia|]. by case_decide. }
  assert (∀ b, b ∈ bl → 3 ≤ b < n ∧ bit (img d 1) b = false) as Hblf.
  { intros b Hin. destruct (wn_free0 b Hin) as [Hr Hbit]. rw Hb0 in Hbit; [lia|]. by case_decide. }
  assert (img d' 1 = bat) as E1 by (rw Hc; [lia|done]).
  assert (img d' 2 = dir') as E2 by (rw Hc; [lia|done]).
  assert (img d' f = inode') as Ef by (rw Hc; [lia|]; by repeat case_decide; try lia).
  assert (∀ k', 0 ≤ k' < 25 → entry (img d') k' = if decide (k' = k) then f else entry (img d) k') as Hent.
  { intros k' Hk'. unfold entry, TFS_DIRECTORY_BLOCK. rw E2. by apply new_dir_word. }
  assert (∀ k', 0 ≤ k' < 25 → entry_name16 (img d') k' = if decide (k' = k) then name16 else entry_name16 (img d) k') as Hnm.
  { intros k' Hk'. unfold entry_name16, TFS_DIRECTORY_BLOCK. rw E2. by apply new_dir_name. }
  destruct (written_bytes 0 1 src ltac:(done) n d bat0 d1 bat inode bl f (img d') Hw) as (Hs & Hch & Hby).
  { by apply img_ok_img. } { done. } { done. } { exact Ef. }
  { intros b Hin. destruct (Hblf b Hin). assert (b ≠ f) by by intros ->.
    rw Hc; [lia|]. by repeat case_decide; try lia. }
  assert (entry (img d') k = f) as Ek by (rw Hent //; by rw decide_True).
  split.
  - exists f, bl. constructor; try done.
    + by rw Hlc.
    + by apply NoDup_cons.
    + intros b [->|Hin]%elem_of_cons; [done|by apply Hblf].
    + intros b Hbr. rw E1 wn_bits0 ?Hb0; [lia..|].
      destruct (decide (b = f)) as [E|E].
      * rewrite (bool_decide_true (b ∈ f :: bl)); [rewrite E; left|]. by rewrite orb_true_r.
      * f_equal. apply bool_decide_ext. rewrite elem_of_cons. naive_solver.
    + intros k' Hk' Hne. split; [by rw Hent // decide_False|by rw Hnm // decide_False].
    + rw Hs. unfold copied in Hcp. lia.
    + intros b Hbr Hin. apply not_elem_of_cons in Hin as [Hbf Hbbl]. rw Hc; [lia|].
      repeat case_decide; try lia. by apply wn_other0; [lia|].
  - rw Hnm // decide_True //. by rw (strncpy_cname _ _ _ Hname).
  - done.
  - by rw Ek.
  - by rw Ek.
Qed.

(** Exits with the image as it was, or with free blocks overwritten. *)
Lemma exits_promise d' h' : files h' = <[p := d']> (files h) → scribbled d d' n → refused → write_promise (Exit EXIT_FAILURE h').
Proof. intros Hf Hs Hr. split; [done|]. split; [done|]. by exists d'. Qed.

Lemma tool_files i j d' spos eof h' : tool_at (files h) i j p ps src d' spos eof h' → files h' = <[p := d']> (files h).
Proof. intros [hb f sf _ <- _ _ _ _ _ _ <-]. done. Qed.

(** Blocks that were free before hold the copy. *)
Lemma written_scribbled f d1 bat inode bl :
  0 ≤ f < n → written src n d (set_bit (img d 1) f true) d1 bat inode bl → scribbled d d1 n.
Proof.
  intros Hf Hw. pose proof Hw as []. pose proof (vo_size d n Hv). constructor; [done..|].
  intros b Hb' Hbit. apply wn_other0; [done|]. intros Hin. destruct (wn_free0 b Hin) as [_ Hfree].
  rw bit_set_bit in Hfree; [by apply (volume_img_ok d n Hv)|lia|lia|]. case_decide; [done|congruence].
Qed.

(** The bitmap is full: the free blocks of before are the inode and [bl]. *)
Lemma full_refused f d1 bat inode bl :
  0 ≤ f < n → written src n d (set_bit (img d 1) f true) d1 bat inode bl →
  512 * Z.of_nat (length bl) ≤ Z.of_nat (length src) → (∀ b, 0 ≤ b < n → bit bat b = true) → refused.
Proof.
  intros Hf Hw Hle Hfull. do 3 right. intros fl Hnd Hfree. pose proof (vo_size d n Hv) as Hn.
  assert (fl ⊆+ f :: bl) as Hsub.
  { apply NoDup_submseteq; [done|]. intros b Hin. destruct (Hfree b Hin) as [Hb' Hbit].
    pose proof (Hfull b Hb') as Hset. rw (wn_bits _ _ _ _ _ _ _ _ Hw) in Hset; [lia|].
    rw bit_set_bit in Hset; [by apply (volume_img_ok d n Hv)|lia|lia|].
    destruct (decide (b = f)) as [->|]; [left|right]. change (bit (img d 1) b = false) in Hbit.
    rw Hbit /= in Hset. by apply bool_decide_eq_true in Hset. }
  apply submseteq_length in Hsub. simpl in Hsub. lia.
Qed.

(** The whole table or all turns of the loop used: the source is too long. *)
Lemma long_refused f d1 bat inode bl :
  written src n d (set_bit (img d 1) f true) d1 bat inode bl → copied src bl ≠ Z.of_nat (length src) →
  length bl = 127%nat ∨ length bl = Z.to_nat n → refused.
Proof.
  intros Hw Hcp Hc. do 2 right. left. unfold copied in Hcp. pose proof (vo_size d n Hv) as Hn.
  destruct Hc as [Hc|Hc]; [unfold TFS_MAX_FILESIZE, TFS_BLOCK_SIZE, TFS_BLOCKS_MAX; lia|].
  assert (bl ⊆+ seqZ 3 (n - 3)) as Hsub.
  { apply NoDup_submseteq; [apply Hw|]. intros b Hin. apply elem_of_seqZ.
    destruct (wn_free _ _ _ _ _ _ _ _ Hw b Hin). lia. }
  apply submseteq_length in Hsub. rewrite length_seqZ in Hsub. lia.
Qed.

(** The steps after a free entry was found. *)
Lemma after_entry i j h1 k name16 f (bat : list Z) :
  j ≠ i → tool_at (files h) i j p ps src d 0 false h1 → 0 ≤ k < 25 → entry (img d) k = 0 →
  no_entry (img d TFS_DIRECTORY_BLOCK) tn → strncpy 16 tn = Some name16 → 3 ≤ f < n → bit (img d 1) f = false →
  bat = set_bit (img d 1) f true →
  write_promise
    (('(filesize, writeok, bat, inode) ←
      write_loop (Z.to_nat n) 0 n 0 bat (replicate 512 0) (stack "data") (Some j);
    if decide (filesize ≠ Z.of_nat (length src)) then
      fails (Some j) "Error: Only %d bytes (of %ld bytes) fit to the file -- wrote nothing.\n"
        [Num filesize; Num (Z.of_nat (length src))]
    else if writeok : bool then
      commit filesize bat inode (img d TFS_DIRECTORY_BLOCK) f k tn;;
      fclose (Some j);;
      fclose (Some i);;
      printf "File '%s' written to '%s' as '%s'.\n" [Str sn; Str dn; Str tn]
    else fails (Some j) "Error: while writing file to tfs-file (disk full?)\n" []) h1).
Proof.
  intros Hij Ht Hk He Hno Hname Hf Hfree Hbat. pose proof (vo_size d n Hv) as Hn.
  pose proof (volume_img_ok d n Hv) as Him.
  assert (Z.of_nat (length d) = 512 * n) as Hdn' by apply Hv.
  assert (∀ b, 0 ≤ b → bit bat b = if decide (b = f) then true else bit (img d 1) b) as Hbits.
  { intros b Hb'. rewrite Hbat. apply bit_set_bit; [done|lia|done]. }
  assert (∀ b, 0 ≤ b < 3 → bit bat b = true) as Hsys.
  { intros b Hb'. rw Hbits; [lia|]. case_decide; [done|]. by apply (vo_system d n Hv). }
  assert (buf_ok bat) as Hbok by (rw Hbat; apply set_bit_ok; [done|lia]).
  assert (written src n d bat d bat (replicate 512 0) []) as Hw0.
  { apply (written_start 0 1); [done|apply Hv|done|exact zeros_ok|]. apply word_zeros. }
  destruct (write_loop_run (files h) i j p ps src Hij Hps Hb n ltac:(lia) d bat Hdn' Hsys ltac:(lia)
    (Z.to_nat n) d bat (replicate 512 0) (stack "data") [] h1 Hw0 ltac:(simpl; lia) ltac:(simpl; lia) (Hstack _) Ht)
    as (ok & d1 & bat1 & inode1 & bl & h2 & sp & eof & Hr & Hw & Hbl & Hwhy & Ht2).
  rw (bind_Ret _ _ _ _ _ Hr). cbv beta iota.
  assert (scribbled d d1 n) as Hsc by (rewrite Hbat in Hw; apply (written_scribbled f _ _ _ _ ltac:(lia) Hw)).
  case_decide as Hsz; [|destruct ok].
  - destruct (fails_run _ _ _ _ _ _ Hij Hps _ _ _ _ "Error: Only %d bytes (of %ld bytes) fit to the file -- wrote nothing.\n" _ _ Ht2
      (eq_refl : arguments [Num (copied src bl); Num (Z.of_nat (length src))] = Some _)) as (h3 & -> & H3).
    apply (exits_promise d1); [done..|]. rewrite Hbat in Hw. destruct ok.
    + apply (long_refused f _ _ _ _ Hw Hsz). by destruct Hwhy as [?|Hwhy].
    + destruct Hwhy as [Hle Hfull]. by apply (full_refused f d1 bat1 inode1 bl); [lia|..].
  - destruct (commit_run _ _ _ _ _ _ Hij n ltac:(lia) (copied src bl) bat1 inode1 (img d 2) f k tn name16 _ _ _ _ Ht2)
      as (h3 & H3 & Ht3); try done.
    { rw (wn_length _ _ _ _ _ _ _ _ Hw). apply Hv. } { apply Hw. } { apply Hw. }
    { by apply (strncpy_bytes 16 tn). }
    rw (bind_Ret _ _ _ _ _ H3). destruct (close_run _ _ _ _ _ _ Hij Hps _ _ _ _ Ht3) as (h4 & h5 & H4 & _ & H5 & Hf5).
    rw (bind_Ret _ _ _ _ _ H4) (bind_Ret _ _ _ _ _ H5).
    assert (arguments [Str sn; Str dn; Str tn] = Some [Str ps; Str p; Str t]) as Ha by by rw /= Hsn Hdn Htn.
    rw (printf_run _ _ _ _ Ha). exists (committed d1 (set_word inode1 0 (copied src bl)) (new_dir (img d 2) k f name16) bat1 f), k.
    split; [done|]. by apply (committed_added bat); try done; apply dec_stable.
  - destruct (fails_run _ _ _ _ _ _ Hij Hps _ _ _ _ "Error: while writing file to tfs-file (disk full?)\n" [] [] Ht2 eq_refl) as (h3 & -> & H3).
    apply (exits_promise d1); [done..|]. rewrite Hbat in Hw. destruct Hwhy as [Hle Hfull].
    by apply (full_refused f d1 bat1 inode1 bl); [lia|..].
Qed.

Lemma tfstool_write_run : write_promise (tfstool_write stack dn sn tn h).
Proof.
  pose proof (vo_size d n Hv) as Hn. pose proof (volume_img_ok d n Hv) as Him.
  assert (Z.of_nat (length d) = 512 * n) as Hdn' by apply Hv.
  destruct (start_run h dn sn p ps d src Hdn Hsn Hd Hsrc Hps Hlen) as (i & j & h1 & Hij & Ht & Hrun).
  unfold tfstool_write. rw Hrun. cbv zeta.
  destruct (tool_read _ _ _ _ _ _ Hij n ltac:(lia) _ _ _ _ (stack "master_dir") TFS_DIRECTORY_BLOCK Ht Hdn')
    as (h2 & Hr2 & Ht2); [unfold TFS_DIRECTORY_BLOCK; lia|apply Hstack|]. rw (bind_Ret _ _ _ _ _ Hr2).
  destruct (strncpy_cstr 16 tn t Htn) as [name16 Hname].
  destruct (free_entry_run _ _ _ (Him 2) Hname t h2 Htn) as [(k & Hk & Hno & Hcase)|(h3 & H3 & Hf3 & Htaken)].
  2:{ rw (bind_Exit _ _ _ _ _ H3). apply (exits_promise d); [|apply scribbled_refl|by left].
      rw Hf3. by apply (tool_files _ _ _ _ _ _ Ht2). }
  rw (bind_Ret _ _ _ _ _ Hk). destruct Hcase as [[-> Hall]|[Hkr Hke]].
  { destruct (decide (-1 < 0)) as [_|[]]; [|lia]. apply (exits_promise d); [|apply scribbled_refl|by right; left].
    by apply (tool_files _ _ _ _ _ _ Ht2). }
  rw decide_False; [lia|].
  destruct (tool_read _ _ _ _ _ _ Hij n ltac:(lia) _ _ _ _ (stack "allocation_block") TFS_ALLOCATION_BLOCK Ht2 Hdn')
    as (h3 & Hr3 & Ht3); [unfold TFS_ALLOCATION_BLOCK; lia|apply Hstack|]. rw (bind_Ret _ _ _ _ _ Hr3).
  destruct (tool_numblocks _ _ _ _ _ _ n ltac:(lia) _ _ _ _ Ht3 Hdn') as (h4 & Hr4 & Ht4).
  rw (bind_Ret _ _ _ _ _ Hr4). rw (u32_small n); [change (2 ^ 32) with 4294967296; lia|]. rw (i32_small n); [lia|].
  destruct (bitmap_findnset_run (img d 1) (Him 1) n h4 ltac:(lia)) as (r & Hr & Hfind).
  rw (bind_Ret _ _ _ _ _ Hr). destruct Hfind as [[-> Hfull]|(f & -> & Hf & Hfree & _)]; cbv beta iota zeta.
  { change (u32 (-1)) with 4294967295. rw decide_False; [lia|].
    destruct (fails_run _ _ _ _ _ _ Hij Hps _ _ _ _ "Error: Could not allocate inode (disk full?).\n" [] [] Ht4 eq_refl) as (h5 & -> & H5).
    apply (exits_promise d); [done|apply scribbled_refl|]. do 3 right. intros [|b fl] _ Hfl; [simpl; lia|].
    destruct (Hfl b ltac:(left)) as [Hb' Hbit]. by rewrite (Hfull b Hb') in Hbit. }
  assert (3 ≤ f) as Hf3.
  { destruct (decide (3 ≤ f)); [done|]. pose proof (vo_system d n Hv f ltac:(lia)) as Hs. by rewrite Hs in Hfree. }
  rw (u32_small f); [change (2 ^ 32) with 4294967296; lia|]. rw decide_True; [lia|].
  apply (after_entry i j h4 k name16 f); try done; try lia.
Qed.

End tool.
End ToolAdd.
