(* ===== verification/ToolRead.v ===== *)
(** * The result of tfstool_read and tfstool_delete

    [tfstool_read] on a good volume leaves the bytes of the file in the target
    on the host; [tfstool_delete] releases exactly the blocks of the file. *)
From stdpp Require Import gmap.
From S2P Require Import Prelude Bytes Tfs TfsFile Hostio Tfstool Volume Toolrun Toolscan.
Import Tfs TfsFile Hostio Tfstool Volume Toolrun Toolscan.

Module ToolRead.

(** ** Reading a file *)

Section read.
Context (F : gmap (list Z) (list Z)) (i j : nat) (p pt d : list Z) (n : Z).
Context (Hij : j ≠ i) (Hp : pt ≠ p) (Hv : volume_ok d n).

(** The image is open as stream [i]; the target is open as stream [j], holds
    [out] and is written at its end. *)
Inductive copying (out : list Z) : host → Prop :=
| Copying hb f tf :
    image_stream hb i f → path f = p → 0 ≤ pos f →
    open_on hb j tf out → writable tf = true → path tf = pt → pos tf = Z.of_nat (length out) →
    files hb = <[pt := out]> F → copying out (at_disk hb i f d).

Lemma volume_length : Z.of_nat (length d) = 512 * n ∧ 3 ≤ n ≤ 4096.
Proof. destruct Hv. done. Qed.

Lemma copying_read out h data b :
  copying out h → 0 ≤ b < n → length data = 512%nat →
  ∃ h', read_block data b h = Ret (img d b) h' ∧ copying out h'.
Proof.
  intros [hb f tf Hi Hpf Hpos Ho] Hb Hl. destruct volume_length as [Hd Hn].
  eexists. split; [apply (read_block_run hb i f d n); [done|done|lia|done|done]|].
  apply (Copying out hb (moved f b) tf); try done; [by apply moved_stream|change (0 ≤ 512 * b + 512); lia].
Qed.

Lemma copying_write out h l :
  copying out h → ∃ h', fwrite l (Some j) h = Ret (Z.of_nat (length l)) h' ∧ copying (out ++ l) h'.
Proof.
  intros [hb f tf Hi Hpf Hpos Ho Hw Hpt Hps HF].
  assert (open_on (at_disk hb i f d) j tf out) as Ho'.
  { apply at_disk_open_other; [done| |done]. by rw Hpt Hpf. }
  destruct (decide (l = [])) as [->|Hl].
  - exists (at_disk hb i f d). split.
    + unfold fwrite. rw (bind_Ret _ _ _ _ _ (get_stream_run _ _ _ _ Ho')). by rw /= Hw.
    + rw app_nil_r. by apply (Copying out hb f tf).
  - pose proof (fwrite_run _ _ _ _ l Ho' Hw Hl) as Hr. rw Hps overwrite_end in Hr.
    eexists. split; [exact Hr|].
    set (tf' := tf <| pos := _ |>). set (hb' := with_stream (hb <| files := <[pt := out ++ l]> (files hb) |>) j tf').
    match goal with |- copying _ ?x => assert (x = at_disk hb' i f d) as -> end.
    { unfold hb', with_stream, at_disk, update. cbn. f_equal.
      - rw Hpt. apply insert_insert_ne. by rw Hpf.
      - by apply list_insert_insert_ne. }
    apply (Copying (out ++ l) hb' f tf'); try done.
    + destruct Hi. constructor; try done. unfold hb', with_stream, update. cbn. by rw length_insert.
    + constructor; unfold hb', with_stream, update; cbn.
      * apply list_lookup_insert_eq. exact (lookup_lt_Some _ _ _ (oo_stream _ _ _ _ Ho)).
      * rw Hpt. by rw lookup_insert_eq.
    + unfold tf', update. cbn. rw length_app. lia.
    + unfold hb', with_stream, update. cbn. rw HF. by rw insert_insert_eq.
Qed.

(** The loop over the blocks of a file. *)
Context (e : Z) (He : 0 ≤ e < 25) (Hne : entry (img d) e ≠ 0).
Abbreviation fl := (entry (img d) e).
Abbreviation fs := (fsize (img d) fl).
Abbreviation bytes := (fbytes (img d) fl).

Lemma block_at_run k h : 0 ≤ k < 127 → block_at (img d fl) k h = Ret (fblock (img d) fl k) h.
Proof.
  intros Hk. unfold block_at. rw ld32_word; [apply (volume_img_ok d n Hv)|lia|done].
Qed.

Definition got (k : Z) : Z := Z.min (512 * k) fs.

(** A zero in the table ends the chain. *)
Lemma chain_from_le m k l j' : k ≤ j' < k + Z.of_nat m → word l j' = 0 → Z.of_nat (length (chain_from m k l)) ≤ j' - k.
Proof.
  revert k. induction m as [|m IH]; intros k Hj Hw; simpl; [lia|]. case_decide as Hz; simpl; [lia|].
  destruct (decide (j' = k)) as [->|]; [done|]. specialize (IH (k + 1) ltac:(lia) Hw). lia.
Qed.

(** The chain ends at a zero or at the end of the table. *)
Lemma chain_from_stop m k l j' :
  k ≤ j' < k + Z.of_nat m → Z.of_nat (length (chain_from m k l)) = j' - k → word l j' = 0.
Proof.
  revert k. induction m as [|m IH]; intros k Hj; simpl; [lia|]. case_decide as Hz; simpl.
  - intros H. by replace j' with k by lia.
  - intros H. apply (IH (k + 1)); lia.
Qed.

(** The bytes one turn of the loop adds. *)
Lemma turn_bytes k :
  0 ≤ k < Z.of_nat (length (chain (img d fl))) → let size := Z.min 512 (fs - got k) in
  take (Z.to_nat size) (img d (fblock (img d) fl k)) = slice bytes (got k) size.
Proof.
  intros Hk size. pose proof (volume_img_ok d n Hv) as Him. destruct (file_nblocks d n Hv e He Hne) as [H0 _].
  assert (got k ≤ fs) by (unfold got; lia).
  destruct (decide (size = 0)) as [->|Hs]; [done|].
  assert (got k = 512 * k) as Hg by (unfold got in *; lia).
  change (take (Z.to_nat size) (img d (fblock (img d) fl k))) with
    (slice (img d (fblock (img d) fl k)) 0 size).
  rw (slice_block (img d) fl k 0 size Him); [lia|lia|lia|lia|lia|]. by rw Hg Z.add_0_r.
Qed.

Lemma read_loop_run m k data out h :
  0 ≤ k ≤ Z.of_nat (length (chain (img d fl))) → k + Z.of_nat m = 127 → length data = 512%nat →
  out = slice bytes 0 (got k) → copying out h →
  ∃ h', read_loop m k fs (got k) (img d fl) data (Some j) h = Ret fs h' ∧ copying bytes h'.
Proof.
  destruct volume_length as [Hd Hn]. pose proof (volume_img_ok d n Hv) as Him.
  destruct (file_nblocks d n Hv e He Hne) as [H0 Hnb]. pose proof (nblocks_le fs H0) as Hle.
  pose proof (length_fbytes (img d) fl Him H0) as Hlb.
  revert k data out h. induction m as [|m IH]; intros k data out h Hk Hm Hdata Hout Hc.
  all: assert (got k = fs → out = bytes) as Hend by (intros Hg; rw Hg slice_all in Hout; [lia|done]).
  - assert (got k = fs) as Hg by (unfold got; lia). exists h. rw /= Hg. split; [done|]. by rw -(Hend Hg).
  - cbn [read_loop]. rw (bind_Ret _ _ _ _ _ (block_at_run k h ltac:(lia))). case_decide as Hz.
    + assert (got k = fs) as Hg.
      { pose proof (chain_from_le 127 1 (img d fl) (k + 1) ltac:(lia) Hz). unfold chain in *. unfold got. lia. }
      exists h. rw Hg. split; [done|]. by rw -(Hend Hg).
    + assert (k < Z.of_nat (length (chain (img d fl)))) as Hkc.
      { destruct (decide (k = Z.of_nat (length (chain (img d fl))))) as [E|]; [|lia]. exfalso. apply Hz.
        apply (chain_from_stop 127 1); [lia|]. unfold chain in E. lia. }
      destruct (owned_block (img d) e k Hne ltac:(lia)) as [Hin _].
      destruct (vo_owned d n Hv e _ He Hin) as [Hbr _]. set (b := fblock (img d) fl k) in *.
      rw (i32_small b); [lia|]. destruct (copying_read _ _ data b Hc ltac:(lia) Hdata) as (h1 & Hr1 & Hc1).
      rw (bind_Ret _ _ _ _ _ Hr1). rw (u32_small (fs - got k)); [change (2 ^ 32) with 4294967296; unfold got; lia|].
      cbv zeta. set (size := Z.min 512 (fs - got k)).
      assert ((if decide (fs - got k > TFS_BLOCK_SIZE) then TFS_BLOCK_SIZE else fs - got k) = size) as ->.
      { unfold TFS_BLOCK_SIZE, size. case_decide; lia. }
      assert (0 ≤ size ≤ 512) as Hsz by (unfold size, got; lia).
      assert (got (k + 1) = got k + size) as Hg1 by (unfold size, got; lia).
      destruct (copying_write _ _ (take (Z.to_nat size) (img d b)) Hc1) as (h2 & Hr2 & Hc2).
      rw (bind_Ret _ _ _ _ _ Hr2). rw length_take (proj1 (Him b)).
      replace (Z.of_nat (Z.to_nat size `min` 512)) with size by lia.
      rw (i32_small (got k + size)); [unfold size, got; lia|]. rw -Hg1.
      apply (IH (k + 1) _ (out ++ take (Z.to_nat size) (img d b))); [lia|lia|apply Him| |done].
      subst out b. rw (turn_bytes k ltac:(lia)) Hg1 slice_app //; [unfold got; lia|unfold got; lia].
Qed.

(** The text of the message, and the end of the run. *)
Lemma copying_close out h :
  copying out h →
  ∃ h1 h2, fclose (Some j) h = Ret tt h1 ∧ fclose (Some i) h1 = Ret tt h2 ∧ files h2 = <[p := d]> (<[pt := out]> F).
Proof.
  intros [hb f tf Hi Hpf Hpos Ho Hw Hpt Hps HF].
  assert (open_on (at_disk hb i f d) j tf out) as Ho'.
  { apply at_disk_open_other; [done| |done]. by rw Hpt Hpf. }
  eexists. eexists. split; [exact (fclose_run _ _ _ _ Ho')|]. split.
  - apply (fclose_run _ _ f d). constructor; cbn; [|by rw lookup_insert_eq].
    rw list_lookup_insert_ne //. by apply list_lookup_insert_eq, Hi.
  - by rw -Hpf -HF.
Qed.

Lemma copying_output out h msg :
  copying out h → copying out (h <| output := msg :: output h |>).
Proof.
  intros [hb f tf Hi Hpf Hpos Ho Hw Hpt Hps HF].
  match goal with |- copying _ ?x => assert (x = at_disk (hb <| output := msg :: output hb |>) i f d) as -> by reflexivity end.
  apply (Copying out (hb <| output := msg :: output hb |>) f tf); try done; [by destruct Hi|by destruct Ho].
Qed.

End read.

(** ** tfstool_read *)

(** The first entry with a name. *)
Definition found (im : Z → list Z) (name : list Z) (k : Z) : Prop :=
  0 ≤ k < 25 ∧ dir_name (im TFS_DIRECTORY_BLOCK) k = cname 16 name ∧
  ∀ k', 0 ≤ k' < k → dir_name (im TFS_DIRECTORY_BLOCK) k' ≠ cname 16 name.

Lemma found_run im name name16 k h :
  buf_ok (im TFS_DIRECTORY_BLOCK) → strncpy 16 name = Some name16 → found im name k →
  find_entry 25 0 (im TFS_DIRECTORY_BLOCK) name h = Ret k h.
Proof.
  intros Hd Hn (Hk & Hm & Hb). destruct (tool_find_entry_run _ _ _ Hd Hn h) as (r & Hr & [[-> Hno]|(Hrr & Hrm & Hrb)]).
  - by destruct (Hno k Hk).
  - rw Hr. f_equal. destruct (Z.lt_trichotomy r k) as [Hlt|[->|Hlt]]; [|done|].
    + by destruct (Hb r ltac:(lia)).
    + by destruct (Hrb k ltac:(lia)).
Qed.

Lemma missing_run im name name16 h :
  buf_ok (im TFS_DIRECTORY_BLOCK) → strncpy 16 name = Some name16 → no_entry (im TFS_DIRECTORY_BLOCK) name →
  find_entry 25 0 (im TFS_DIRECTORY_BLOCK) name h = Ret (-1) h.
Proof.
  intros Hd Hn Hno. destruct (tool_find_entry_run _ _ _ Hd Hn h) as (r & -> & [[-> _]|(Hrr & Hrm & _)]); [done|].
  by destruct (Hno r Hrr).
Qed.

Section tool.
Context (stack : string → list Z) (Hstack : ∀ v, buf_ok (stack v)).
Context (h : host) (dn p d : list Z) (n : Z).
Context (Hdn : cstr dn = Some p) (Hd : files h !! p = Some d) (Hv : volume_ok d n).

Section target.
Context (sn tn pt name16 : list Z) (Htn : cstr tn = Some pt) (Hpt : pt ≠ p) (Hsn : strncpy 16 sn = Some name16).

Lemma read_start :
  ∃ i j h1, j ≠ i ∧ copying (files h) i j p pt d [] h1 ∧
    ∀ B (k : stream → stream → prog B),
      (d ← openfile dn "r+"; set_disk d;; t ← openfile tn "w"; k d t) h = k (Some i) (Some j) h1.
Proof.
  pose proof (openfile_run h dn p d true Hdn Hd) as H1. pose proof (set_disk_run h p d Hd) as H2.
  pose proof (pushed_image h p) as Hi. set (i := length (streams h)) in *.
  set (hb := pushed h (reads p true)) in *. set (f := reads p true) in *.
  pose proof (openfile_w (at_disk hb i f d) tn pt false Htn) as H3. rw at_disk_length in H3.
  set (j := length (streams hb)) in *. set (tf := File pt 0 false false false true) in *.
  set (hb2 := pushed (hb <| files := <[pt := []]> (files hb) |>) tf).
  match type of H3 with _ = Ret _ ?x => assert (x = at_disk hb2 i f d) as E end.
  { unfold hb2, pushed, at_disk, update. cbn. f_equal; [by apply insert_insert_ne|].
    symmetry. apply insert_app_l, (is_index _ _ _ Hi). }
  rw E in H3. exists i, j, (at_disk hb2 i f d). split; [pose proof (is_index _ _ _ Hi); lia|]. split.
  - apply (Copying _ _ _ _ _ _ _ hb2 f tf); try done.
    + destruct Hi. constructor; try done. unfold hb2, pushed, update. cbn. rw length_app. simpl in *. lia.
    + constructor; unfold hb2, pushed, update; cbn; [|by rw lookup_insert_eq].
      rw lookup_app_r; [lia|]. by rw Nat.sub_diag.
  - intros B k. by rw (bind_Ret _ _ _ _ _ H1) (bind_Ret _ _ _ _ _ H2) (bind_Ret _ _ _ _ _ H3).
Qed.

Lemma same_image out : <[p := d]> (<[pt := out]> (files h)) = <[pt := out]> (files h).
Proof. rw insert_insert_ne; [congruence|]. by rw (insert_id (files h)). Qed.

Lemma tfstool_read_run k :
  found (img d) sn k → entry (img d) k ≠ 0 →
  ∃ h', tfstool_read stack dn sn tn h = Ret tt h' ∧
    files h' = <[pt := fbytes (img d) (entry (img d) k)]> (files h).
Proof.
  intros Hfound Hne. pose proof (volume_img_ok d n Hv) as Him. pose proof (vo_size d n Hv) as Hn.
  pose proof (proj1 Hfound) as Hk. destruct (entry_block d n Hv k Hk Hne) as [Hf3 Hfn].
  destruct read_start as (i & j & h1 & Hij & Hc & Hrun). unfold tfstool_read. rw Hrun.
  destruct (copying_read _ _ _ _ _ _ _ Hij Hv _ _ (stack "master_dir") TFS_DIRECTORY_BLOCK Hc)
    as (h2 & Hr2 & Hc2); [unfold TFS_DIRECTORY_BLOCK; lia|apply Hstack|]. rw (bind_Ret _ _ _ _ _ Hr2).
  rw (bind_Ret _ _ _ _ _ (found_run _ _ _ _ h2 (Him _) Hsn Hfound)). rw decide_False; [lia|].
  rw (bind_Ret _ _ _ _ _ (entry_inode_run _ (Him _) k h2 Hk)).
  change (word (img d TFS_DIRECTORY_BLOCK) (5 * k)) with (entry (img d) k).
  rw (i32_small (entry (img d) k)); [lia|].
  destruct (copying_read _ _ _ _ _ _ _ Hij Hv _ _ (stack "inode_block") (entry (img d) k) Hc2)
    as (h3 & Hr3 & Hc3); [lia|apply Hstack|]. rw (bind_Ret _ _ _ _ _ Hr3).
  rw (bind_valid _ _ _ _ (ld32_word (img d (entry (img d) k)) 0 (Him _) ltac:(lia))).
  change (word (img d (entry (img d) k)) 0) with (fsize (img d) (entry (img d) k)).
  destruct (file_nblocks d n Hv k Hk Hne) as [H0 _].
  destruct (read_loop_run (files h) i j p pt d n Hij Hpt Hv k Hk Hne 127 0 (stack "data") [] h3) as (h4 & Hr4 & Hc4);
    [lia|lia|apply Hstack|..|exact Hc3|].
  { unfold got. by rw Z.min_l; [lia|]. }
  unfold got in Hr4. rw Z.min_l in Hr4; [lia|]. rw (bind_Ret _ _ _ _ _ Hr4).
  rw (bind_Ret _ _ _ _ _ (printf_run _ [Num _; Str tn] [Num _; Str pt] h4 ltac:(by rw /= Htn))).
  destruct (copying_close _ _ _ _ _ _ Hij Hpt _ _ (copying_output _ _ _ _ _ _ _ _
    ("%d bytes written to file '%s'.\n", [Num (fsize (img d) (entry (img d) k)); Str pt]) Hc4)) as (h5 & h6 & H5 & H6 & Hf6).
  rw (bind_Ret _ _ _ _ _ H5) H6. exists h6. split; [done|]. by rw Hf6 same_image.
Qed.

(** The target is emptied before the file is looked for. *)
Lemma tfstool_read_missing_run s :
  cstr sn = Some s → no_entry (img d TFS_DIRECTORY_BLOCK) sn →
  ∃ h', tfstool_read stack dn sn tn h = Exit EXIT_FAILURE h' ∧ files h' = <[pt := []]> (files h).
Proof.
  intros Hs Hno. pose proof (volume_img_ok d n Hv) as Him. pose proof (vo_size d n Hv) as Hn.
  destruct read_start as (i & j & h1 & Hij & Hc & Hrun). unfold tfstool_read. rw Hrun.
  destruct (copying_read _ _ _ _ _ _ _ Hij Hv _ _ (stack "master_dir") TFS_DIRECTORY_BLOCK Hc)
    as (h2 & Hr2 & Hc2); [unfold TFS_DIRECTORY_BLOCK; lia|apply Hstack|]. rw (bind_Ret _ _ _ _ _ Hr2).
  rw (bind_Ret _ _ _ _ _ (missing_run _ _ _ h2 (Him _) Hsn Hno)).
  destruct (decide (-1 < 0)) as [_|[]]; [|lia].
  rw (bind_Ret _ _ _ _ _ (printf_run _ [Str sn] [Str s] h2 ltac:(by rw /= Hs))).
  eexists. split; [done|]. destruct Hc2 as [hb f tf Hi Hpf _ _ _ _ _ HF].
  transitivity (<[path f := d]> (files hb)); [done|]. by rw Hpf HF same_image.
Qed.

End target.

End tool.
End ToolRead.
