(* ===== verification/ToolCreate.v ===== *)
(** * The result of tfstool_createvol

    [tfstool_createvol] makes a volume that satisfies [Volume.volume_ok] and
    holds no file; it does nothing when the image exists or is too small. *)
From stdpp Require Import gmap.
From S2P Require Import Prelude Bytes Tfs TfsFile Hostio Tfstool Volume Toolrun Toolscan ToolRead.
Import Tfs TfsFile Hostio Tfstool Volume Toolrun Toolscan ToolRead.

Module ToolCreate.

(** ** The bitmap *)

Lemma bitmap_clear_run m k bm h :
  buf_ok bm → 0 ≤ k → k + Z.of_nat m ≤ 128 →
  ∃ bm', bitmap_clear m k bm h = Ret bm' h ∧ buf_ok bm' ∧
    ∀ q, 0 ≤ q < 128 → word bm' q = if decide (k ≤ q < k + Z.of_nat m) then 0 else word bm q.
Proof.
  revert k bm. induction m as [|m IH]; intros k bm Hb Hk Hm; cbn [bitmap_clear].
  - exists bm. split; [done|]. split; [done|]. intros q Hq. by rw decide_False; [lia|].
  - rw (bind_valid _ _ _ _ (st32_set_word bm k 0 Hb ltac:(lia))).
    destruct (IH (k + 1) (set_word bm k 0)) as (bm' & -> & Hb' & Hw); [by apply set_word_ok; [|lia]|lia|lia|].
    exists bm'. split; [done|]. split; [done|]. intros q Hq. rw Hw // word_set_word //; [lia|].
    repeat case_decide; try done; lia.
Qed.

(** The bitmap of a new volume: the first three blocks are reserved. *)
Definition new_bat (bm : list Z) : list Z := set_bit (set_bit (set_bit bm 0 true) 1 true) 2 true.

Lemma new_bat_ok bm : buf_ok bm → buf_ok (new_bat bm).
Proof. intros Hb. by repeat apply set_bit_ok. Qed.

Lemma new_bat_bits bm b :
  buf_ok bm → (∀ q, 0 ≤ q < 128 → word bm q = 0) → 0 ≤ b < 4096 → bit (new_bat bm) b = bool_decide (b < 3).
Proof.
  intros Hb Hw Hbr. unfold new_bat.
  assert (buf_ok (set_bit bm 0 true)) as H0 by (apply set_bit_ok; [done|lia]).
  assert (buf_ok (set_bit (set_bit bm 0 true) 1 true)) as H1 by (apply set_bit_ok; [done|lia]).
  rw bit_set_bit //; [lia..|]. rw bit_set_bit //; [lia..|]. rw bit_set_bit //; [lia..|].
  assert (bit bm b = false) as -> by (unfold bit; rw Hw; [zdm|]; apply Z.testbit_0_l).
  repeat case_decide; case_bool_decide; try done; lia.
Qed.

(** ** The image *)

Lemma write_empty_run hb i f d m b :
  write_stream hb i f → Z.of_nat (length d) = 512 * b → 0 ≤ b → b + Z.of_nat m ≤ 4096 →
  ∃ f', write_stream hb i f' ∧ path f' = path f ∧
    write_empty m b (at_disk hb i f d) = Ret tt (at_disk hb i f' (d ++ replicate (512 * m) 0)).
Proof.
  revert f d b. induction m as [|m IH]; intros f d b Hf Hd Hb Hm; cbn [write_empty].
  - exists f. split; [done|]. split; [done|]. by rw app_nil_r.
  - assert (write_block None b (at_disk hb i f d) = Ret tt (at_disk hb i (moved f b) (d ++ replicate 512 0))) as Hr.
    { change (write_block None b) with (write_block (Some (replicate 512 0)) b).
      rw write_block_over //; [lia|]. by rw -Hd overwrite_end. }
    rw (bind_Ret _ _ _ _ _ Hr).
    destruct (IH (moved f b) (d ++ replicate 512 0) (b + 1)) as (f' & Hf' & Hp' & ->).
    { by destruct Hf. } { rw length_app length_replicate. lia. } { lia. } { lia. }
    exists f'. split; [done|]. split; [done|]. do 2 f_equal.
    replace (512 * S m)%nat with (512 + 512 * m)%nat by lia. by rw replicate_add app_assoc.
Qed.

(** An image of a header, a bitmap and zeros. *)
Definition new_image (hdr bat : list Z) (n : Z) : list Z := hdr ++ bat ++ replicate (512 * Z.to_nat (n - 2)) 0.

Section image.
Context (hdr bat : list Z) (n : Z) (Hh : buf_ok hdr) (Hb : buf_ok bat) (Hn : 3 ≤ n ≤ 4096).
Abbreviation d := (new_image hdr bat n).

Lemma new_image_length : Z.of_nat (length d) = 512 * n.
Proof. unfold new_image. rw !length_app length_replicate (proj1 Hh) (proj1 Hb). lia. Qed.

Lemma new_image_bytes : bytes_ok d.
Proof.
  apply Forall_app_2; [apply Hh|]. apply Forall_app_2; [apply Hb|]. apply Forall_replicate. unfold is_byte. lia.
Qed.

Lemma new_image_header : img d 0 = hdr.
Proof.
  pose proof new_image_length. rw img_slice; [lia|lia|]. unfold slice, new_image.
  rw drop_0 take_app_length' //. by rw (proj1 Hh).
Qed.

Lemma new_image_bat : img d 1 = bat.
Proof.
  pose proof new_image_length. rw img_slice; [lia|lia|]. unfold slice, new_image.
  rw drop_app_length'; [by rw (proj1 Hh)|]. rw take_app_length' //. by rw (proj1 Hb).
Qed.

Lemma new_image_zeros b : 2 ≤ b < n → img d b = replicate 512 0.
Proof.
  intros Hbr. pose proof new_image_length. rw img_slice; [lia|lia|]. unfold slice, new_image.
  rw app_assoc. rw drop_app_ge; [rw length_app (proj1 Hh) (proj1 Hb); lia|].
  rw drop_replicate take_replicate. f_equal. rw length_app (proj1 Hh) (proj1 Hb). lia.
Qed.

Lemma new_image_entry k : 0 ≤ k < 25 → entry (img d) k = 0.
Proof.
  intros Hk. unfold entry. rw new_image_zeros; [unfold TFS_DIRECTORY_BLOCK; lia|]. apply word_zeros. lia.
Qed.

Lemma new_image_ok : (∀ b, 0 ≤ b < 3 → bit bat b = true) → volume_ok d n.
Proof.
  intros Hbits.
  assert (∀ k, 0 ≤ k < 25 → owned (img d) k = []) as Ho.
  { intros k Hk. unfold owned. by rw new_image_entry // decide_True. }
  constructor.
  - done.
  - apply new_image_length.
  - apply new_image_bytes.
  - intros b Hbr. unfold TFS_ALLOCATION_BLOCK. rw new_image_bat. by apply Hbits.
  - intros k b Hk. rw Ho //. by intros ?%not_elem_of_nil.
  - intros k Hk. rw Ho //. constructor.
  - intros k k' b Hk Hk' _. rw Ho //. by intros ?%not_elem_of_nil.
  - intros k Hk He. by destruct He; apply new_image_entry.
Qed.

End image.

(** ** tfstool_createvol *)

(** The header: the magic number, the name, zeros. *)
Definition new_header (vn : list Z) : list Z :=
  splice (splice (replicate 512 0) 0 (be_split TFS_MAGIC)) 4 (take 16 vn).

Lemma new_header_ok vn : (16 ≤ length vn)%nat → bytes_ok vn → buf_ok (new_header vn).
Proof.
  intros Hl Hb. unfold new_header. destruct zeros_ok as [Hz Hzb]. split.
  - assert (length (splice (replicate 512 0) 0 (be_split TFS_MAGIC)) = 512%nat) as H1 by (rw length_splice ?Hz //; simpl; lia).
    rw length_splice ?H1 // length_take. lia.
  - apply splice_bytes; [|by apply Forall_take]. apply splice_bytes; [done|apply be_split_bytes].
Qed.

Section create.
Context (stack : string → list Z) (Hstack : ∀ v, buf_ok (stack v)).
Context (h : host) (dn p vn v : list Z) (size : Z).
Context (Hdn : cstr dn = Some p) (Hvn : cstr vn = Some v) (Hvl : (16 ≤ length vn)%nat) (Hvb : bytes_ok vn).

Lemma bitmap_init_run h' :
  ∃ bm, bitmap_init (stack "allocation") (8 * TFS_BLOCK_SIZE) h' = Ret bm h' ∧ buf_ok bm ∧
    ∀ q, 0 ≤ q < 128 → word bm q = 0.
Proof.
  destruct (bitmap_clear_run 128 0 (stack "allocation") h' (Hstack _)) as (bm & Hr & Hb & Hw); [lia|lia|].
  exists bm. split; [exact Hr|]. split; [done|]. intros q Hq. rw Hw //. by rw decide_True; [lia|].
Qed.

(** The image exists, or the size is too small: nothing changes. *)
Lemma createvol_refuses :
  is_Some (files h !! p) ∨ size < 3 →
  ∃ h', tfstool_createvol stack dn size vn h = Exit EXIT_FAILURE h' ∧ files h' = files h.
Proof.
  intros Hc. destruct (bitmap_init_run h) as (bm & Hr & _). unfold tfstool_createvol. cbv zeta.
  rw (bind_Ret _ _ _ _ _ Hr). pose proof (fopen_read h dn p false Hdn) as Ho. cbv iota in Ho.
  case_bool_decide as Hx; rw (bind_Ret _ _ _ _ _ Ho) bind_set_disk.
  - match goal with |- context [if ?c then _ else _] => destruct c as [_|Hn] end; [|by destruct Hn].
    rw (bind_Ret _ _ _ _ _ (printf_run _ [Str dn] [Str p] _ ltac:(by rw /= Hdn))). by eexists.
  - destruct Hc as [Hc|Hc]; [done|].
    match goal with |- context [if ?c then _ else _] => destruct c as [Hn|_] end; [by destruct Hn|].
    rw decide_True //. by eexists.
Qed.

(** The blocks of the image, in the order in which they are written. *)
Lemma fill_image_run hb i f bm :
  write_stream hb i f → buf_ok (new_header vn) → buf_ok bm → 3 ≤ size ≤ 4096 →
  ∃ f', path f' = path f ∧ ∀ B (k : prog B),
    (write_block (Some (new_header vn)) TFS_HEADER_BLOCK;;
     allocation ← bitmap_set bm TFS_HEADER_BLOCK 1;
     allocation ← bitmap_set allocation TFS_ALLOCATION_BLOCK 1;
     allocation ← bitmap_set allocation TFS_DIRECTORY_BLOCK 1;
     bat ← valid (memcpy (replicate 512 0) 0 allocation TFS_BLOCK_SIZE);
     write_block (Some bat) TFS_ALLOCATION_BLOCK;;
     write_block None TFS_DIRECTORY_BLOCK;;
     write_empty (Z.to_nat (size - 3)) 3;; k) (at_disk hb i f []) =
    k (at_disk hb i f' (new_image (new_header vn) (new_bat bm) size)).
Proof.
  intros Hf Hhok Hb Hsz. destruct zeros_ok as [Hz Hzb].
  pose proof (set_bit_ok bm 0 true Hb ltac:(lia)) as Hb0.
  pose proof (set_bit_ok _ 1 true Hb0 ltac:(lia)) as Hb1. pose proof (set_bit_ok _ 2 true Hb1 ltac:(lia)) as Hb2.
  fold (new_bat bm) in Hb2. assert (write_stream hb i (moved f 2)) as Hf2 by by destruct Hf.
  destruct (write_empty_run hb i (moved f 2) ((new_header vn ++ new_bat bm) ++ replicate 512 0) (Z.to_nat (size - 3)) 3)
    as (f' & Hf' & Hp' & Hr'); [done|rw (length_app (_ ++ _)) (length_app (new_header vn)) Hz (proj1 Hhok) (proj1 Hb2); lia|lia|lia|].
  exists f'. split; [done|]. intros B k.
  rw (bind_Ret _ _ _ _ _ (write_block_over hb i f [] (new_header vn) 0 Hf ltac:(lia) (proj1 Hhok))).
  change (overwrite [] (512 * 0) (new_header vn)) with (overwrite [] (Z.of_nat (length ([] : list Z))) (new_header vn)).
  rw overwrite_end app_nil_l. assert (write_stream hb i (moved f 0)) as Hf0 by by destruct Hf.
  rw (bind_Ret _ _ _ _ _ (bitmap_set_run bm Hb 0 true _ ltac:(lia))).
  rw (bind_Ret _ _ _ _ _ (bitmap_set_run _ Hb0 1 true _ ltac:(lia))).
  rw (bind_Ret _ _ _ _ _ (bitmap_set_run _ Hb1 2 true _ ltac:(lia))). fold (new_bat bm).
  assert (memcpy (replicate 512 0) 0 (new_bat bm) TFS_BLOCK_SIZE = Some (new_bat bm)) as H3.
  { unfold memcpy, TFS_BLOCK_SIZE. rw Hz decide_True; [rw (proj1 Hb2); lia|]. rw take_ge; [rw (proj1 Hb2); lia|].
    f_equal. apply splice_all. by rw Hz (proj1 Hb2). }
  rw (bind_valid _ _ _ _ H3).
  rw (bind_Ret _ _ _ _ _ (write_block_over hb i (moved f 0) _ (new_bat bm) 1 Hf0 ltac:(lia) (proj1 Hb2))).
  replace (512 * 1) with (Z.of_nat (length (new_header vn))) by (rw (proj1 Hhok); lia). rw overwrite_end moved_moved.
  assert (write_stream hb i (moved f 1)) as Hf1 by by destruct Hf.
  change (write_block None TFS_DIRECTORY_BLOCK) with (write_block (Some (replicate 512 0)) 2).
  rw (bind_Ret _ _ _ _ _ (write_block_over hb i (moved f 1) _ (replicate 512 0) 2 Hf1 ltac:(lia) Hz)).
  replace (512 * 2) with (Z.of_nat (length (new_header vn ++ new_bat bm))) by (rw (length_app (new_header vn)) (proj1 Hhok) (proj1 Hb2); lia).
  rw overwrite_end moved_moved.
  rw (bind_Ret _ _ _ _ _ Hr').
  assert (((new_header vn ++ new_bat bm) ++ replicate 512 0) ++ replicate (512 * Z.to_nat (size - 3)) 0 =
    new_image (new_header vn) (new_bat bm) size) as ->.
  { unfold new_image. replace (512 * Z.to_nat (size - 2))%nat with (512 + 512 * Z.to_nat (size - 3))%nat by lia.
    by rw replicate_add -!app_assoc. }
  done.
Qed.

Lemma createvol_run :
  files h !! p = None → 3 ≤ size ≤ 4096 →
  ∃ h' d, tfstool_createvol stack dn size vn h = Ret tt h' ∧ files h' = <[p := d]> (files h) ∧
    volume_ok d size ∧ (∀ k, 0 ≤ k < 25 → entry (img d) k = 0) ∧ img d 0 = new_header vn.
Proof.
  intros Hnone Hsz. destruct (bitmap_init_run h) as (bm & Hr & Hb & Hw). unfold tfstool_createvol. cbv zeta.
  rw (bind_Ret _ _ _ _ _ Hr). pose proof (fopen_read h dn p false Hdn) as Ho. cbv iota in Ho.
  rw bool_decide_false in Ho; [rw Hnone; by intros [? ?]|].
  rw (bind_Ret _ _ _ _ _ Ho) bind_set_disk.
  match goal with |- context [if ?c then _ else _] => destruct c as [Hn|_] end; [by destruct Hn|].
  rw decide_False; [lia|].
  pose proof (openfile_w (h <| disk := None |>) dn p true Hdn) as Hw'. cbv iota in Hw'.
  rw (bind_Ret _ _ _ _ _ Hw') bind_set_disk. set (f := File p 0 false false false true). set (i := length (streams h)).
  set (hb := pushed (h <| files := <[p := []]> (files h) |>) f).
  match goal with |- context [(_ ≫= _) ?x] => assert (x = at_disk hb i f []) as -> end.
  { unfold hb, pushed, at_disk, update. cbn. f_equal; [by rw insert_insert_eq|].
    rw list_insert_id //. rw lookup_app_r; [done|]. by rw Nat.sub_diag. }
  assert (write_stream hb i f) as Hf by (constructor; [cbn; rw length_app /= /i; lia|done..]).
  destruct zeros_ok as [Hz Hzb].
  assert (memcpy (replicate 512 0) 0 (be_split TFS_MAGIC) 4 = Some (splice (replicate 512 0) 0 (be_split TFS_MAGIC))) as H1 by done.
  rw (bind_valid _ _ _ _ H1). pose proof (new_header_ok vn Hvl Hvb) as Hhok.
  assert (length (splice (replicate 512 0) 0 (be_split TFS_MAGIC)) = 512%nat) as Hl1 by (rw length_splice ?Hz //; simpl; lia).
  assert (memcpy (splice (replicate 512 0) 0 (be_split TFS_MAGIC)) 4 vn TFS_VOLUMENAME_MAX = Some (new_header vn)) as H2.
  { unfold memcpy, TFS_VOLUMENAME_MAX. by rw decide_True; [lia|]. }
  rw (bind_valid _ _ _ _ H2).
  destruct (fill_image_run hb i f bm Hf Hhok Hb ltac:(lia)) as (f' & Hp' & Hfill). rw Hfill.
  rw (bind_Ret _ _ _ _ _ (fclose_run _ _ _ _ (at_disk_opened hb i f' _ (ws_index _ _ _ Hf)))).
  assert (arguments [Str dn; Str vn; Num size] = Some [Str p; Str v; Num size]) as Ha by by rw /= Hdn Hvn.
  pose proof (new_bat_ok bm Hb) as Hb2.
  rw (printf_run _ _ _ _ Ha). eexists. exists (new_image (new_header vn) (new_bat bm) size).
  split; [done|]. split.
  { change (<[path f' := new_image (new_header vn) (new_bat bm) size]> (<[p := []]> (files h)) =
      <[p := new_image (new_header vn) (new_bat bm) size]> (files h)). by rw Hp' insert_insert_eq. }
  split; [|split; [by apply new_image_entry|by apply new_image_header]].
  apply new_image_ok; [done..|]. intros b Hbr. rw new_bat_bits //; [lia|]. by apply bool_decide_true; lia.
Qed.

End create.
End ToolCreate.
