(* ===== verification/TfstoolSpec.v ===== *)
(** * What util/tfstool.c promises, and that the kernel reads what it writes

    The theorems about the commands of the tool on volumes that satisfy
    [Volume.volume_ok], and the bridge to fs/tfs.c: a file that
    [tfstool_write] copied into an image is found by [tfs_open] and read by
    [tfs_read] on a disk with the contents of that image. *)
From stdpp Require Import gmap.
From S2P Require Import Prelude Bytes Libc Sync Tfs TfsFile Hostio Tfstool Volume Toolrun Toolscan ToolWrite ToolAdd ToolRead ToolDelete ToolCreate.
Import Libc Tfs TfsFile Hostio Tfstool Volume Toolrun Toolscan ToolWrite ToolAdd ToolRead ToolDelete ToolCreate.

Module TfstoolSpec.

(** ** The driver on the image *)

(** The driver compares whole strings, the tool the first 16 characters. *)
Lemma stringcmp_cname n a b t :
  cstr b = Some t → (length t < n ≤ length a)%nat →
  ∃ v, stringcmp a b = Some v ∧ (v = 0 ↔ cname n a = cname n b).
Proof.
  revert n a t. induction b as [|y b IH]; intros n a t; cbn [cstr]; [done|].
  destruct n as [|n]; [lia|]. destruct a as [|x a]; [simpl; lia|]. cbn [stringcmp cname].
  destruct (decide (y = 0)) as [->|Hy].
  - intros [= <-] _. destruct (decide (x = 0)) as [->|Hx].
    + by exists 0.
    + rw decide_False; [by intros [? _]|]. rw decide_True; [by right; left|]. exists (x - 0). split; [done|]. split; [lia|done].
  - destruct (cstr b) as [r|] eqn:E; [|done]. intros [= <-] Hl. simpl in Hl.
    destruct (decide (x = y)) as [->|Hxy].
    + rw decide_False; [by intros [? _]|]. rw decide_False; [naive_solver|]. rw decide_False //.
      destruct (IH n a r eq_refl ltac:(lia)) as (v & -> & Hv). exists v. split; [done|]. rw Hv.
      split; [by intros ->|by intros [= ?]].
    + rw decide_False; [by intros [? ?]|]. rw decide_True; [by right; right|]. exists (x - y). split; [done|].
      split; [lia|]. case_decide; [done|]. by intros [= ?].
Qed.

Section driver.
Context {D : Type} `{Gbd D} `{!GbdLaws D} (works : D → Prop) `{!GbdReliable D works}.
Abbreviation mounted := (mounted works).

(** A mounted volume with the contents of an image. *)
Record shows (s : tfs_t (D := D)) (d : list Z) (n : Z) : Prop := {
  sh_mounted : mounted s;
  sh_lock : 0 < lock s;
  sh_total : totalblocks s = n;
  sh_image b : 0 ≤ b < n → image s b = img d b }.

Lemma tfs_open_run s d n fn t k :
  shows s d n → volume_ok d n → cstr fn = Some t → (length t < 16)%nat → found (img d) fn k →
  ∃ s', tfs_open fn s = Done (i32 (entry (img d) k)) s' ∧ shows s' d n.
Proof.
  intros [Hm Hlk Ht Hi] Hv Hfn Htl (Hk & Hkn & Hkb). unfold tfs_open. rw bind_sem_P //.
  set (s0 := lset #lock _ s). assert (mounted s0) as Hm0 by by apply mounted_lock.
  pose proof (vo_size d n Hv) as Hn.
  destruct (read_block_ok works #buffer_md s0 TFS_DIRECTORY_BLOCK (is_md) Hm0) as (r & s1 & Hr & Hrun & [(d1 & Hs1) Himg Hm1]).
  { change (totalblocks s0) with (totalblocks s). unfold TFS_DIRECTORY_BLOCK. lia. }
  rw (bind_Done _ _ _ _ _ Hrun) decide_False //.
  assert (buffer_md s1 = img d 2) as Hmd.
  { rw Hs1. change (image s 2 = img d 2). apply Hi. lia. }
  pose proof (volume_img_ok d n Hv 2) as Hb2.
  assert (∀ i, 0 ≤ i < 25 → ∃ v, md_stringcmp i fn s1 = Done v s1 ∧ (v = 0 ↔ dir_name (img d 2) i = cname 16 fn)) as Hcmp.
  { intros i Hir. unfold md_stringcmp. rw Hmd.
    destruct (stringcmp_cname 16 (entry_name (img d 2) i) fn t Hfn) as (v & Hv' & Hiff).
    { unfold entry_name, SIZEOF_DIRENTRY. rw length_drop (proj1 Hb2). lia. }
    exists v. rw Hv'. split; [done|]. exact Hiff. }
  destruct (find_loop_pure 25 0 (λ i, c ← md_stringcmp i fn; mret (bool_decide (c = 0)))
    (λ i, bool_decide (dir_name (img d 2) i = cname 16 fn)) s1) as (o & Ho & Hspec).
  { intros i Hir _. destruct (Hcmp i ltac:(lia)) as (v & Hv' & Hiff). rw (bind_Done _ _ _ _ _ Hv').
    cbn. f_equal. by apply bool_decide_ext. }
  change (Z.to_nat TFS_MAX_FILES) with 25%nat. rw (bind_Done _ _ _ _ _ Ho). destruct o as [i|].
  2:{ specialize (Hspec k ltac:(lia)). by apply bool_decide_eq_false in Hspec. }
  destruct Hspec as (Hir & Hin & Hib). apply bool_decide_eq_true in Hin.
  assert (i = k) as ->.
  { destruct (Z.lt_trichotomy i k) as [Hlt|[->|Hlt]]; [|done|].
    - by destruct (Hkb i ltac:(lia)).
    - specialize (Hib k ltac:(lia)). by apply bool_decide_eq_false in Hib. }
  rw bind_sem_V. set (s2 := lset #lock _ s1).
  assert (md_inode k s2 = Done (entry (img d) k) s2) as Hino.
  { unfold md_inode. change (buffer_md s2) with (buffer_md s1). rw Hmd. unfold SIZEOF_DIRENTRY.
    replace (20 * k) with (4 * (5 * k)) by lia. by rw ld32_word; [done|lia|]. }
  rw (bind_Done _ _ _ _ _ Hino). exists s2. split; [done|]. constructor.
  - by apply mounted_lock.
  - unfold s2. cbn. rw Hs1. change (0 < lock s - 1 + 1). lia.
  - unfold s2. rw Hs1. exact Ht.
  - intros b Hb. change (image s1 b = img d b). rw Himg. by apply Hi.
Qed.

(** A file of the image is a file of the volume. *)
Lemma shows_file s d n k :
  shows s d n → volume_ok d n → 0 ≤ k < 25 → entry (img d) k ≠ 0 →
  file_ok (image s) n (entry (img d) k) ∧ fsize (image s) (entry (img d) k) = fsize (img d) (entry (img d) k) ∧
  fbytes (image s) (entry (img d) k) = fbytes (img d) (entry (img d) k).
Proof.
  intros [Hm Hlk Ht Hi] Hv Hk Hne. destruct (volume_file_ok d n Hv k Hk Hne) as [F1 F2 F3].
  pose proof (entry_block d n Hv k Hk Hne) as Hf. set (f := entry (img d) k) in *.
  assert (image s f = img d f) as Ef by (apply Hi; lia).
  assert (fsize (image s) f = fsize (img d) f) as Es by by rw /fsize Ef.
  assert (∀ q, fblock (image s) f q = fblock (img d) f q) as Eb by (intros q; by rw /fblock Ef).
  split; [constructor; rw ?Es; [done|done|intros q; rw Eb; apply F3]|]. split; [done|].
  unfold fbytes. rw Es. do 2 f_equal. apply list_fmap_ext. intros q z Hz%lookup_seqZ. rw Eb. apply Hi. pose proof (F3 z ltac:(lia)). lia.
Qed.

End driver.

(** ** The commands *)

Section commands.
Context (stack : string → list Z) (Hstack : ∀ v, buf_ok (stack v)).

(** The entry of a new file is the first one with its name. *)
Lemma added_found tn src d d' n k :
  volume_ok d n → file_added tn d src n d' k → found (img d') tn k ∧ entry (img d') k ≠ 0.
Proof.
  intros Hv [(f & bl & Ha) Hname Hnew Hsz Hby]. pose proof (ad_index _ _ _ _ _ _ Ha) as Hk.
  split.
  - split; [done|]. rw dir_name_img; [lia|]. split; [done|]. intros k' Hk'.
    pose proof (added_same _ _ _ _ _ _ k' Hv Ha ltac:(lia) ltac:(lia)) as [_ Hn _].
    rw dir_name_img; [lia|]. rw Hn -dir_name_img; [lia|]. apply Hnew. lia.
  - rw (ad_entry _ _ _ _ _ _ Ha). destruct (ad_blocks _ _ _ _ _ _ Ha f ltac:(left)). lia.
Qed.

Lemma added_good tn src d d' n k :
  volume_ok d n → file_added tn d src n d' k → volume_ok d' n ∧ found (img d') tn k ∧ entry (img d') k ≠ 0.
Proof.
  intros Hv Hfa. split; [|by apply (added_found tn src d d' n)].
  destruct Hfa as [(f & bl & Ha) _ _ _ _]. by apply (added_ok d d' n k f bl).
Qed.

(** C6 (invariant): [tfstool_write] on a volume that satisfies [volume_ok]
    always ends, with the file added under its name with the bytes of the
    source, or with status 1; either way the image satisfies [volume_ok] again
    and every other file has the same name, blocks and bytes. *)
Theorem tfstool_write_keeps_volume h dn sn tn p ps t d src n :
  cstr dn = Some p → cstr sn = Some ps → cstr tn = Some t → bytes_ok tn → ps ≠ p →
  files h !! p = Some d → files h !! ps = Some src → volume_ok d n → bytes_ok src → Z.of_nat (length src) < 2 ^ 64 →
  match tfstool_write stack dn sn tn h with
  | Ret _ h' => ∃ d' k, files h' = <[p := d']> (files h) ∧ volume_ok d' n ∧ 0 ≤ k < 25 ∧ entry (img d) k = 0 ∧
      cname 16 (entry_name16 (img d') k) = cname 16 tn ∧ fbytes (img d') (entry (img d') k) = src ∧
      ∀ k', 0 ≤ k' < 25 → k' ≠ k → same_file (img d) (img d') k'
  | Exit status h' => status = 1 ∧ ∃ d', files h' = <[p := d']> (files h) ∧ volume_ok d' n ∧
      ∀ k, 0 ≤ k < 25 → same_file (img d) (img d') k
  | Undefined => False
  end.
Proof.
  intros Hdn Hsn Htn Htb Hps Hd Hs Hv Hb Hl.
  pose proof (tfstool_write_run stack Hstack h dn sn tn p ps t d src n Hdn Hsn Htn Htb Hps Hd Hs Hv Hb Hl) as Hp.
  destruct (tfstool_write stack dn sn tn h) as [[] h'|st h'|]; simpl in Hp; [| |done].
  - destruct Hp as (d' & k & Hf & [(f & bl & Ha) Hname Hnew Hsz Hby]). exists d', k. split; [done|].
    split; [by apply (added_ok d d' n k f bl)|]. split; [apply Ha|]. split; [apply Ha|].
    do 2 (split; [done|]). intros k' Hk' Hne. by apply (added_same d d' n k f bl).
  - destruct Hp as (-> & _ & d' & Hf & Hsc). split; [done|]. exists d'. split; [done|].
    split; [by apply (scribbled_ok d)|]. intros k Hk. by apply (scribbled_same d d' n).
Qed.

(** C34 (liveness): [tfstool_write] succeeds for every new name when an entry
    is free, the source fits an inode, and the free blocks are enough for an
    inode and one block more than the source fills completely. *)
Theorem tfstool_write_succeeds h dn sn tn p ps t d src n k fl :
  cstr dn = Some p → cstr sn = Some ps → cstr tn = Some t → bytes_ok tn → ps ≠ p →
  files h !! p = Some d → files h !! ps = Some src → volume_ok d n → bytes_ok src →
  no_entry (img d TFS_DIRECTORY_BLOCK) tn → 0 ≤ k < 25 → entry (img d) k = 0 →
  Z.of_nat (length src) ≤ TFS_MAX_FILESIZE →
  NoDup fl → (∀ b, b ∈ fl → 0 ≤ b < n ∧ bit (img d TFS_ALLOCATION_BLOCK) b = false) →
  Z.of_nat (length src) < 512 * (Z.of_nat (length fl) - 1) →
  ∃ h', tfstool_write stack dn sn tn h = Ret tt h'.
Proof.
  intros Hdn Hsn Htn Htb Hps Hd Hs Hv Hb Hno Hk He Hmax Hnd Hfree Hroom.
  assert (Z.of_nat (length src) < 2 ^ 64) as Hl.
  { unfold TFS_MAX_FILESIZE, TFS_BLOCK_SIZE, TFS_BLOCKS_MAX in Hmax. change (2 ^ 64) with 18446744073709551616. lia. }
  pose proof (tfstool_write_run stack Hstack h dn sn tn p ps t d src n Hdn Hsn Htn Htb Hps Hd Hs Hv Hb Hl) as Hp.
  destruct (tfstool_write stack dn sn tn h) as [[] h'|st h'|]; simpl in Hp; [by exists h'| |done].
  destruct Hp as (_ & [Hr|[Hr|[Hr|Hr]]] & _); exfalso.
  - by apply Hr.
  - by apply (Hr k).
  - lia.
  - specialize (Hr fl Hnd Hfree). lia.
Qed.

(** C33 (roundtrip): a file that [tfstool_write] copied into a volume is copied
    out by [tfstool_read] as it was. *)
Theorem tfstool_write_then_read h h1 dn sn tn on p ps po t d src n :
  cstr dn = Some p → cstr sn = Some ps → cstr tn = Some t → cstr on = Some po → bytes_ok tn → ps ≠ p → po ≠ p →
  files h !! p = Some d → files h !! ps = Some src → volume_ok d n → bytes_ok src → Z.of_nat (length src) < 2 ^ 64 →
  tfstool_write stack dn sn tn h = Ret tt h1 →
  ∃ h2, tfstool_read stack dn tn on h1 = Ret tt h2 ∧ files h2 !! po = Some src.
Proof.
  intros Hdn Hsn Htn Hon Htb Hps Hpo Hd Hs Hv Hb Hl Hrun.
  pose proof (tfstool_write_run stack Hstack h dn sn tn p ps t d src n Hdn Hsn Htn Htb Hps Hd Hs Hv Hb Hl) as Hp.
  rw Hrun in Hp. destruct Hp as (d' & k & Hf & Hfa). destruct (added_good _ _ _ _ _ _ Hv Hfa) as (Hv' & Hfound & Hne).
  assert (files h1 !! p = Some d') as Hd1 by by rw Hf lookup_insert_eq.
  destruct (strncpy_cstr 16 tn t Htn) as [nm Hnm].
  destruct (tfstool_read_run stack Hstack h1 dn p d' n Hdn Hd1 Hv' tn on po nm Hon Hpo Hnm k Hfound Hne) as (h2 & Hr & Hf2).
  exists h2. split; [done|]. rw Hf2 lookup_insert_eq. f_equal. apply Hfa.
Qed.

(** C5 (refinement): the driver of the kernel reads what the tool wrote: on a
    mounted disk with the contents of the image after [tfstool_write],
    [tfs_open] finds the file and [tfs_read] copies its bytes. *)
Theorem kernel_reads_tool_file {D : Type} `{Gbd D} `{!GbdLaws D} (works : D → Prop) `{!GbdReliable D works}
    (s : tfs_t (D := D)) h h1 dn sn tn p ps t d src n d' buffer bufsize :
  cstr dn = Some p → cstr sn = Some ps → cstr tn = Some t → (length t < 16)%nat → bytes_ok tn → ps ≠ p →
  files h !! p = Some d → files h !! ps = Some src → volume_ok d n → bytes_ok src → Z.of_nat (length src) < 2 ^ 64 →
  tfstool_write stack dn sn tn h = Ret tt h1 → files h1 !! p = Some d' → shows works s d' n →
  0 ≤ bufsize ≤ Z.of_nat (length buffer) →
  ∃ f s1 s2, tfs_open tn s = Done f s1 ∧
    tfs_read f buffer bufsize 0 s1 = Done (Z.min bufsize (Z.of_nat (length src)),
      splice buffer 0 (slice src 0 (Z.min bufsize (Z.of_nat (length src))))) s2.
Proof.
  intros Hdn Hsn Htn Htl Htb Hps Hd Hs Hv Hb Hl Hrun Hd1 Hshow Hbuf.
  pose proof (tfstool_write_run stack Hstack h dn sn tn p ps t d src n Hdn Hsn Htn Htb Hps Hd Hs Hv Hb Hl) as Hp.
  rw Hrun in Hp. destruct Hp as (d2 & k & Hf & Hfa). rw Hf lookup_insert_eq in Hd1. injection Hd1 as ->.
  destruct (added_good _ _ _ _ _ _ Hv Hfa) as (Hv' & Hfound & Hne). pose proof (proj1 Hfound) as Hk.
  destruct (tfs_open_run works s d' n tn t k Hshow Hv' Htn Htl Hfound) as (s1 & Hopen & Hshow1).
  destruct (shows_file works s1 d' n k Hshow1 Hv' Hk Hne) as (Hfo & Hfs & Hfb).
  pose proof (entry_block d' n Hv' k Hk Hne) as Hfr. pose proof (vo_size d' n Hv') as Hn.
  rw i32_small in Hopen; [lia|]. pose proof (fa_size _ _ _ _ _ _ Hfa) as Hsz.
  destruct (tfs_read_run works s1 (entry (img d') k) buffer bufsize 0) as (s2 & Hread & _);
    [apply Hshow1|apply Hshow1|by rw (sh_total _ _ _ _ Hshow1)|rw Hfs Hsz; lia|done|].
  rw Hfs Hsz Hfb (fa_bytes _ _ _ _ _ _ Hfa) Z.sub_0_r in Hread. by exists (entry (img d') k), s1, s2.
Qed.

(** C35 (functional): [tfstool_delete] of a file frees its entry, releases
    exactly the blocks of the file and leaves every other file as it was. *)
Theorem tfstool_delete_releases h dn fn p d n k s :
  cstr dn = Some p → cstr fn = Some s → files h !! p = Some d → volume_ok d n →
  found (img d) fn k → entry (img d) k ≠ 0 →
  ∃ h' d', tfstool_delete dn fn h = Ret tt h' ∧ files h' = <[p := d']> (files h) ∧ volume_ok d' n ∧
    entry (img d') k = 0 ∧
    (∀ b, 0 ≤ b < n → bit (img d' TFS_ALLOCATION_BLOCK) b =
      bit (img d TFS_ALLOCATION_BLOCK) b && bool_decide (b ∉ owned (img d) k)) ∧
    ∀ k', 0 ≤ k' < 25 → k' ≠ k → same_file (img d) (img d') k'.
Proof.
  intros Hdn Hs Hd Hv Hfound Hne. destruct (strncpy_cstr 16 fn s Hs) as [nm Hnm].
  destruct (tfstool_delete_run h dn p d fn nm s n k Hdn Hd Hv Hnm Hs Hfound Hne) as (h' & d' & Hrun & Hf & Hr).
  exists h', d'. split; [done|]. split; [done|]. split; [by apply (removed_ok d d' n k)|].
  split; [apply Hr|]. split; [apply Hr|]. intros k' Hk' Hk. by apply (removed_same d d' n k).
Qed.

(** C36 (type): [tfstool_createvol] makes an image of the given size that
    satisfies [volume_ok], holds no file and begins with the header of a
    volume: the magic number and the name. *)
Theorem tfstool_createvol_makes_volume h dn p vn v size :
  cstr dn = Some p → cstr vn = Some v → (16 ≤ length vn)%nat → bytes_ok vn → files h !! p = None →
  3 ≤ size ≤ 4096 →
  ∃ h' d, tfstool_createvol stack dn size vn h = Ret tt h' ∧ files h' = <[p := d]> (files h) ∧
    volume_ok d size ∧ (∀ k, 0 ≤ k < 25 → entry (img d) k = 0) ∧
    ld32 (img d TFS_HEADER_BLOCK) 0 = Some TFS_MAGIC ∧ slice (img d TFS_HEADER_BLOCK) 4 16 = take 16 vn.
Proof.
  intros Hdn Hvn Hvl Hvb Hnone Hsz.
  destruct (createvol_run stack Hstack h dn p vn v size Hdn Hvn Hvl Hvb Hnone Hsz) as (h' & d & Hr & Hf & Hv & He & Hh).
  exists h', d. do 4 (split; [done|]). unfold TFS_HEADER_BLOCK. rw Hh. destruct zeros_ok as [Hz _].
  assert (length (splice (replicate 512 0) 0 (be_split TFS_MAGIC)) = 512%nat) as Hl1 by (rw length_splice ?Hz //; simpl; lia).
  unfold new_header. split.
  - rw ld32_splice_disj; [lia|rw length_take; lia|lia|]. rw ld32_splice_word //; rw ?Hz; unfold TFS_MAGIC; lia.
  - replace 16 with (Z.of_nat (length (take 16 vn))) at 1 by (rw length_take; lia).
    apply slice_splice_same; [lia|]. rw length_take. lia.
Qed.

End commands.

(** ** A volume of ten blocks *)

Definition example_stack (v : string) : list Z := replicate 512 7.
Definition example_name : list Z := text "volume" ++ replicate 10 0.
Definition example_image (n : Z) : list Z := new_image (new_header example_name) (new_bat (replicate 512 0)) n.
Definition example_host (n : Z) (src : list Z) : host :=
  Host {[ text "disk" := example_image n; text "src" := src ]} [] None [].
Abbreviation ds := (cstring "disk").
Abbreviation sr := (cstring "src").
Abbreviation nm := (cstring "file").

Lemma example_stack_ok v : buf_ok (example_stack v).
Proof. split; [done|]. apply Forall_replicate. unfold is_byte. lia. Qed.

Lemma text_bytes s : bytes_ok (text s).
Proof.
  unfold text. apply Forall_fmap, Forall_true. intros c. unfold is_byte. simpl. unfold chr.
  pose proof (Ascii.N_ascii_bounded c). lia.
Qed.

Lemma cstring_bytes s : bytes_ok (cstring s).
Proof. apply Forall_app_2; [apply text_bytes|]. repeat constructor; unfold is_byte; lia. Qed.

Lemma example_name_bytes : bytes_ok example_name.
Proof. apply Forall_app_2; [apply text_bytes|]. apply Forall_replicate. unfold is_byte. lia. Qed.

Lemma example_header_ok : buf_ok (new_header example_name).
Proof. apply new_header_ok; [simpl; lia|]. apply example_name_bytes. Qed.

Lemma example_bat_ok : buf_ok (new_bat (replicate 512 0)).
Proof. apply new_bat_ok, zeros_ok. Qed.

Lemma example_bits b : 0 ≤ b < 4096 → bit (new_bat (replicate 512 0)) b = bool_decide (b < 3).
Proof. apply new_bat_bits; [apply zeros_ok|apply word_zeros]. Qed.

Lemma example_volume_ok n : 3 ≤ n ≤ 4096 → volume_ok (example_image n) n.
Proof.
  intros Hn. apply new_image_ok; [apply example_header_ok|apply example_bat_ok|done|].
  intros b Hb. rw example_bits; [lia|]. apply bool_decide_true. lia.
Qed.

Lemma example_no_entry n name : 3 ≤ n ≤ 4096 → cname 16 name ≠ [] →
  no_entry (img (example_image n) TFS_DIRECTORY_BLOCK) name.
Proof.
  intros Hn Hne k Hk. rw dir_name_img; [lia|]. unfold entry_name16.
  rw (new_image_zeros _ _ n example_header_ok example_bat_ok Hn 2); [lia|].
  assert (slice (replicate 512 0) (20 * k + 4) 16 = replicate 16 0) as ->.
  { unfold slice. rw drop_replicate take_replicate. f_equal. lia. }
  intros E. by apply Hne.
Qed.

Definition returned (r : run unit) : bool := match r with Ret _ _ => true | _ => false end.

Lemma example_returns : returned (tfstool_write example_stack ds sr nm (example_host 10 (replicate 600 65))) = true.
Proof. by vm_compute. Qed.

Lemma replicate_bytes n c : is_byte c → bytes_ok (replicate n c).
Proof. intros. by apply Forall_replicate. Qed.

Lemma tfstool_write_keeps_volume_witness :
  ∃ h' d' k, tfstool_write example_stack ds sr nm (example_host 10 (replicate 600 65)) = Ret tt h' ∧
    volume_ok d' 10 ∧ fbytes (img d') (entry (img d') k) = replicate 600 65.
Proof.
  pose proof (tfstool_write_keeps_volume example_stack example_stack_ok (example_host 10 (replicate 600 65))
    ds sr nm (text "disk") (text "src") (text "file") (example_image 10) (replicate 600 65) 10
    eq_refl eq_refl eq_refl (cstring_bytes _) ltac:(done) eq_refl eq_refl (example_volume_ok 10 ltac:(lia))
    (replicate_bytes 600 65 ltac:(unfold is_byte; lia)) ltac:(by vm_compute)) as H.
  pose proof example_returns as Hr.
  destruct (tfstool_write example_stack ds sr nm (example_host 10 (replicate 600 65))) as [[] h'|st h'|]; [|done|done].
  destruct H as (d' & k & _ & Hv & _ & _ & _ & Hb & _). exists h', d', k. split; [reflexivity|]. split; [exact Hv|exact Hb].
Defined.

Lemma tfstool_write_succeeds_witness :
  ∃ h', tfstool_write example_stack ds sr nm (example_host 10 (replicate 600 65)) = Ret tt h'.
Proof.
  refine (tfstool_write_succeeds example_stack example_stack_ok (example_host 10 (replicate 600 65))
    ds sr nm (text "disk") (text "src") (text "file") (example_image 10) (replicate 600 65) 10 0 (seqZ 3 7)
    eq_refl eq_refl eq_refl (cstring_bytes _) ltac:(done) eq_refl eq_refl (example_volume_ok 10 ltac:(lia))
    (replicate_bytes 600 65 ltac:(unfold is_byte; lia)) (example_no_entry 10 nm ltac:(lia) ltac:(done)) ltac:(lia)
    _ ltac:(by vm_compute) (NoDup_seqZ _ _) _ ltac:(by vm_compute)).
  - apply new_image_entry; [apply example_header_ok|apply example_bat_ok|lia|lia].
  - intros b Hb%elem_of_seqZ. split; [lia|]. unfold TFS_ALLOCATION_BLOCK.
    rewrite (new_image_bat _ _ 10 example_header_ok example_bat_ok ltac:(lia)).
    rewrite example_bits; [lia|]. apply bool_decide_eq_false. lia.
Defined.

(** The host after the copy. *)
Definition example_after : host :=
  match tfstool_write example_stack ds sr nm (example_host 10 (replicate 600 65)) with
  | Ret _ h' | Exit _ h' => h'
  | Undefined => example_host 10 []
  end.

Lemma example_after_run :
  tfstool_write example_stack ds sr nm (example_host 10 (replicate 600 65)) = Ret tt example_after.
Proof. by vm_compute. Qed.

Lemma tfstool_write_then_read_witness :
  ∃ h2, tfstool_read example_stack ds nm (cstring "out") example_after = Ret tt h2 ∧
    files h2 !! text "out" = Some (replicate 600 65).
Proof.
  exact (tfstool_write_then_read example_stack example_stack_ok (example_host 10 (replicate 600 65)) example_after
    ds sr nm (cstring "out") (text "disk") (text "src") (text "out") (text "file") (example_image 10) (replicate 600 65) 10
    eq_refl eq_refl eq_refl eq_refl (cstring_bytes _) ltac:(done) ltac:(done) eq_refl eq_refl
    (example_volume_ok 10 ltac:(lia)) (replicate_bytes 600 65 ltac:(unfold is_byte; lia)) ltac:(by vm_compute) example_after_run).
Defined.

Definition example_written : list Z := default [] (files example_after !! text "disk").
Definition example_mount : tfs_t (D := ramdisk) :=
  TfsT 10 (Ramdisk (img example_written) 10) 0 1 (replicate 512 0) (replicate 512 0) (replicate 512 0).

Lemma example_written_file : files example_after !! text "disk" = Some example_written.
Proof. by vm_compute. Qed.

Definition all_bytes (l : list Z) : bool := forallb (λ b, (0 <=? b) && (b <? 256)) l.
Lemma all_bytes_ok l : all_bytes l = true → bytes_ok l.
Proof.
  unfold all_bytes. intros H. apply Forall_forall. intros b Hb%list_elem_of_In.
  rewrite forallb_forall in H. specialize (H b Hb). simpl in H. unfold is_byte. lia.
Qed.
Lemma example_written_bytes : bytes_ok example_written.
Proof. apply all_bytes_ok. by vm_compute. Qed.

Lemma example_mount_shows : shows (λ _, True) example_mount example_written 10.
Proof.
  constructor; [|done|done|].
  - constructor; try exact zeros_ok; done.
  - intros b Hb. destruct (img_buf_ok example_written b example_written_bytes). by apply fit_id.
Qed.

Lemma kernel_reads_tool_file_witness :
  ∃ f s1 s2, tfs_open nm example_mount = Done f s1 ∧
    tfs_read f (replicate 1000 0) 1000 0 s1 = Done (600, splice (replicate 1000 0) 0 (replicate 600 65)) s2.
Proof.
  exact (kernel_reads_tool_file example_stack example_stack_ok (λ _, True) example_mount
    (example_host 10 (replicate 600 65)) example_after
    ds sr nm (text "disk") (text "src") (text "file") (example_image 10) (replicate 600 65) 10 example_written
    (replicate 1000 0) 1000
    eq_refl eq_refl eq_refl ltac:(simpl; lia) (cstring_bytes _) ltac:(done) eq_refl eq_refl
    (example_volume_ok 10 ltac:(lia)) (replicate_bytes 600 65 ltac:(unfold is_byte; lia)) ltac:(by vm_compute) example_after_run
    example_written_file example_mount_shows ltac:(rewrite length_replicate; lia)).
Defined.

Lemma example_written_ok :
  volume_ok example_written 10 ∧ ∃ k, found (img example_written) nm k ∧ entry (img example_written) k ≠ 0.
Proof.
  pose proof (tfstool_write_run example_stack example_stack_ok (example_host 10 (replicate 600 65))
    ds sr nm (text "disk") (text "src") (text "file") (example_image 10) (replicate 600 65) 10
    eq_refl eq_refl eq_refl (cstring_bytes _) ltac:(done) eq_refl eq_refl (example_volume_ok 10 ltac:(lia))
    (replicate_bytes 600 65 ltac:(unfold is_byte; lia)) ltac:(by vm_compute)) as H.
  rewrite example_after_run in H. destruct H as (d' & k & Hf & Hfa).
  pose proof example_written_file as E. rewrite Hf lookup_insert_eq in E. apply (inj Some) in E. subst d'.
  destruct (added_good _ _ _ _ _ _ (example_volume_ok 10 ltac:(lia)) Hfa) as (Hv & Hfound & Hne).
  split; [exact Hv|]. exists k. split; [exact Hfound|exact Hne].
Qed.

Lemma tfstool_delete_releases_witness :
  ∃ h' d' k, tfstool_delete ds nm example_after = Ret tt h' ∧ files h' = <[text "disk" := d']> (files example_after) ∧
    volume_ok d' 10 ∧ entry (img d') k = 0.
Proof.
  destruct example_written_ok as (Hv & k & Hfound & Hne).
  destruct (tfstool_delete_releases example_after ds nm (text "disk") example_written 10 k (text "file")
    eq_refl eq_refl example_written_file Hv Hfound Hne) as (h' & d' & Hr & Hf & Hv' & He & _).
  exists h', d', k. split; [exact Hr|]. split; [exact Hf|]. split; [exact Hv'|exact He].
Defined.

Lemma tfstool_createvol_makes_volume_witness :
  ∃ h' d, tfstool_createvol example_stack ds 10 example_name (Host ∅ [] None []) = Ret tt h' ∧ volume_ok d 10.
Proof.
  destruct (tfstool_createvol_makes_volume example_stack example_stack_ok (Host ∅ [] None []) ds (text "disk")
    example_name (text "volume") 10 eq_refl eq_refl ltac:(simpl; lia)
    example_name_bytes eq_refl ltac:(lia))
    as (h' & d & Hr & _ & Hv & _).
  exists h', d. split; [exact Hr|exact Hv].
Defined.

(** ** Boundary inputs *)

Definition exited (r : run unit) : bool := match r with Exit _ _ => true | _ => false end.

(** On a volume with two free blocks a source of 511 bytes fits, one of 512
    bytes does not: end of file is seen only in the block after it. *)
Lemma full_block_needs_one_more :
  returned (tfstool_write example_stack ds sr nm (example_host 5 (replicate 511 65))) = true ∧
  exited (tfstool_write example_stack ds sr nm (example_host 5 (replicate 512 65))) = true.
Proof. split; by vm_compute. Qed.

(** The empty name is the name of every free entry: deleting it takes the
    header for an inode and clears bits outside of the bitmap. *)
Lemma delete_empty_name_undefined : tfstool_delete ds (cstring "") (example_host 10 []) = Undefined.
Proof. by vm_compute. Qed.

(** A name of 16 characters or more is stored without its NUL; without a local
    name, main reads past its end. *)
Lemma long_read_name_undefined :
  main example_stack [cstring "tfstool"; cstring "read"; ds; cstring "a-name-that-is-long"] (example_host 10 []) = Undefined.
Proof. by vm_compute. Qed.

(** Reading a file that is not there empties the target. *)
Lemma missing_read_empties_target :
  match main example_stack [cstring "tfstool"; cstring "read"; ds; nm; sr] (example_host 10 [1; 2; 3]) with
  | Exit 1 h' => files h' !! text "src" = Some []
  | _ => False
  end.
Proof. by vm_compute. Qed.

End TfstoolSpec.
