(* ===== verification/Main.v ===== *)
(** * The start of the system (init/main.c, lib/debug.c)

    [init], the first thread and its fallback, on the state of the whole
    machine: that of the system calls with the polling terminal, the boot
    arguments and the network. *)
From stdpp Require Import gmap.
From S2P Require Import Prelude Bytes Libc Cpu Kmalloc Pagepool Vm Kstate Scheduler Sleepq Semaphore Thread Interrupt Tty Polltty Xprintf Bootargs Device Vfs Process Usermem Syscall Net.
Import Kmalloc Pagepool Vm Scheduler Sleepq Semaphore Thread Interrupt Tty Polltty Xprintf Bootargs Device Vfs Process Syscall.

Module Main.

Section main.
Context {F : Type} `{FileSystem F} {D : Type} `{TtyPorts D} {N : Type} `{NetEnv N}.

(** [iobase] is polltty_iobase, [args_base], [args_area] and [args] the copy of
    the boot arguments and their table. *)
Record machine_t := Machine {
  sys : sys_t (F := F) (D := D); iobase : Z;
  args_base : Z; args_area : list Z; args : list bootarg_t;
  net : Net.net_t N; kernel_bootstrap_finished : Z }.
#[global] Instance eta_machine : Eta machine_t := fun s =>
  Machine (sys s) (iobase s) (args_base s) (args_area s) (args s) (net s) (kernel_bootstrap_finished s).

Abbreviation W A := (M machine_t A).

(** The tty_real_device_t of the first terminal: the polling driver uses the
    same ports, and kprintf the same lock. *)
Variable console : Z.
Variables (L : layout) (descriptors : list io_descriptor) (io_word : Z → Z).
Variables KERNEL_ENDS_HERE thread_stack_areas thread_finish_addr idle_loop : Z.
Variables process_table_addr process_start_addr init_startup_thread_addr : Z.
Variables pop_service_thread_addr network_receive_thread_addr empty_string_addr : Z.
Variable ram_words : Z → nat → list Z.
Variable _cswitch_vector_code : list Z.
Variables polls wakeups : nat.
(** BOOT_ARGUMENT_AREA, the drivers of filesystems.c, the disks, and whether
    the semaphores of the virtual file system could be created. *)
Variable boot : list Z.
Variable filesystems : list (Z → M (vfs_t (F := F)) Z).
Variable disk_get : Z → option Z.
Variable created : bool.

Definition ints_l : lens machine_t (int_t unit) :=
  Lens (λ s, ints (devs (sys s))) (λ v s, s <| sys := (sys s) <| devs := (devs (sys s)) <| ints := v |> |> |>).
Definition kernel_l : lens machine_t kstate :=
  Lens (λ s, lget core_l (sys s)) (λ k s, s <| sys := lset core_l k (sys s) |>).
Definition procs_l : lens machine_t pstate :=
  Lens (λ s, lget process_l (sys s)) (λ p s, s <| sys := lset process_l p (sys s) |>).
Definition devs_l : lens machine_t dev_t := Lens (λ s, devs (sys s)) (λ d s, s <| sys := (sys s) <| devs := d |> |>).
Definition vfs_l : lens machine_t (vfs_t (F := F)) := Lens (λ s, vfs (sys s)) (λ v s, s <| sys := (sys s) <| vfs := v |> |>).

(** The polling terminal and kprintf. *)
Definition print_l : lens machine_t (print_t D) :=
  Lens (λ s, Printing D (k_status (lget kernel_l s)) (term_slock (terminals (sys s) console)) []
           (Poll D (iobase s) (term_io (terminals (sys s) console))))
    (λ p s, lset kernel_l ((lget kernel_l s) <| k_status := p_status p |>)
       (s <| iobase := polltty_iobase (poll p) |> <| sys := (sys s) <| terminals := λ q,
          if decide (q = console) then
            TerminalT D (kprintf_slock p) (term_rd (terminals (sys s) console)) (poll_io (poll p))
          else terminals (sys s) q |> |>)).
Definition polltty_l : lens machine_t (polltty_t D) :=
  Lens (λ s, poll (lget print_l s)) (λ p s, lset print_l ((lget print_l s) <| poll := p |>) s).

(** The boot arguments take their memory from kmalloc; so does the page pool. *)
Definition boot_l : lens machine_t boot_t :=
  Lens (λ s, Boot (kmem (lget ints_l s)) (args_base s) (args_area s) (args s))
    (λ b s, lset ints_l ((lget ints_l s) <| kmem := Bootargs.memory b |>)
       (s <| args_base := area_base b |> <| args_area := area b |> <| args := bootargs_values b |>)).
Definition pool_l : lens machine_t pagepool_t :=
  Lens (λ s, (vm_pool (Interrupt.memory (lget ints_l s))) <| pp_kmalloc := kmem (lget ints_l s) |>)
    (λ p s, lset ints_l ((lget ints_l s) <| kmem := pp_kmalloc p |>
       <| Interrupt.memory := (Interrupt.memory (lget ints_l s)) <| vm_pool := p |> |>) s).

(** ** Messages *)

(** lib/libc.c, on a string up to its end. *)
Fixpoint kwrite (s : list Z) : M (polltty_t D) unit :=
  match s with
  | [] => fault
  | c :: s' => if decide (c = 0) then mret tt else polltty_putchar polls c;; kwrite s'
  end.

Definition say (s : string) : W unit := zoom polltty_l (kwrite (cstring s)).
Definition printf (format : string) (ap : list arg_t) : W unit :=
  zoom print_l (Xprintf.kprintf polls (cstring format) ap);; mret tt.

(** A boot argument as an argument of printf. *)
Definition ptr_arg (p : char_ptr) : W arg_t :=
  base ← gets args_base;
  a ← gets args_area;
  mret (Arg (match p with NULL => 0 | InArea o => u32 (base + o) | EmptyString => empty_string_addr end) (chars a p)).
Definition bootarg (key : string) : W char_ptr := zoom boot_l (bootargs_get (cstring key)).

Definition DEBUG (debuglevelname format : string) (ap : list arg_t) : W unit :=
  p ← bootarg debuglevelname;
  if decide (p ≠ NULL) then zoom print_l (kvprintf polls (cstring format) ap);; mret tt else mret tt.

(** snprintf into a local array: its result and the array. *)
Definition sprint (buffer : list Z) (size : Z) (format : string) (ap : list arg_t) : W (Z * list Z) := fun s =>
  match snprintf polls 0 size (cstring format) ap ((lget print_l s) <| out := buffer |>) with
  | Done n p => Done (n, out p) (lset print_l p s)
  | Blocked _ _ | Spin => Spin
  | Panic msg => Panic msg
  | Fault => Fault
  end.

(** ** The first thread *)

Definition sys_l : lens machine_t (sys_t (F := F) (D := D)) := #sys.

Definition halt : W unit :=
  base ← gets iobase;
  zoom sys_l (halt_kernel L descriptors console base polls).

(** The console test; the local arrays hold anything before. *)
Definition console_test (buffer buffer2 : list Z) : W unit :=
  DEBUG "debuginit" (line "In console test") [];;
  dev ← zoom devs_l (device_get YAMS_TYPECODE_TTY 0);
  kernel_assert (bool_decide (dev ≠ 0));;
  d ← zoom devs_l (get_device dev);
  kernel_assert (bool_decide (generic_device d ≠ 0));;
  gcd ← zoom sys_l console_gcd;
  '(len, buffer) ← sprint buffer 63 (line "Hello user! Press any key.") [];
  zoom sys_l (gcd_call_write L wakeups gcd buffer len);;
  '(len, buffer2) ← zoom sys_l (gcd_call_read L wakeups gcd buffer2 63);
  kernel_assert (bool_decide (0 ≤ len));;
  buffer2 ← oread (arr_set buffer2 len 0);
  '(len, buffer) ← sprint buffer 63 (line "You said: '%s'") [Arg 0 buffer2];
  zoom sys_l (gcd_call_write L wakeups gcd buffer len);;
  DEBUG "debuginit" (line "Console test done, %d bytes written") [Arg (u32 len) []].

Definition init_startup_fallback (buffer buffer2 : list Z) : W unit :=
  DEBUG "debuginit" (line "In init_startup_fallback") [];;
  p ← bootarg "testconsole";
  (if decide (p ≠ NULL) then console_test buffer buffer2 else mret tt);;
  printf (line "Startup fallback code ends.") [];;
  halt.

Definition init_startup_thread (buffer buffer2 : list Z) : W unit :=
  printf (line "Mounting filesystems") [];;
  zoom vfs_l (vfs_mount_all filesystems disk_get);;
  printf (line "Initializing networking") [];;
  zoom #net (Net.network_init pop_service_thread_addr network_receive_thread_addr);;
  p ← bootarg "initprog";
  (if decide (p = NULL) then
     printf (line "No initial program (initprog), dropping to fallback") [];;
     init_startup_fallback buffer buffer2
   else mret tt);;
  p ← bootarg "initprog";
  arg ← ptr_arg p;
  printf (line "Starting initial program '%s'") [arg];;
  p ← bootarg "initprog";
  arg ← ptr_arg p;
  pid ← zoom procs_l (process_spawn thread_stack_areas thread_finish_addr process_start_addr (arg_chars arg));
  (if decide (pid < 0) then panic (line "Couldn't fit initial program in process table.") else mret tt);;
  zoom procs_l (process_join process_table_addr wakeups pid);;
  halt.

(** ** init *)

Definition banner : W unit :=
  say (line "BUENOS is a University Educational Nutshell Operating System");;
  say (line "==========================================================");;
  say (line "");;
  say (line "Copyright (C) 2003-2006  Juha Aatrokoski, Timo Lilja,");;
  say (line "  Leena Salmela, Teemu Takanen, Aleksi Virtanen");;
  say (line "See the file COPYING for licensing details.");;
  say (line "").

Definition seed_random : W unit :=
  p ← bootarg "randomseed";
  if decide (p = NULL) then zoom kernel_l (_set_rand_seed 0)
  else
    arg ← ptr_arg p;
    seed ← oread (Libc.atoi (arg_chars arg));
    printf (line "Seeding pseudorandom number generator with %i") [Arg (u32 seed) []];;
    zoom kernel_l (_set_rand_seed (u32 seed)).

(** vm/vm.c *)
Definition SIZEOF_TLB_ENTRY : Z := 12.
Definition vm_init : M pagepool_t unit :=
  kernel_assert (bool_decide (SIZEOF_TLB_ENTRY = 12));;
  pagepool_init descriptors io_word ram_words;;
  zoom #pp_kmalloc kmalloc_disable.

Definition init : W unit :=
  zoom polltty_l (polltty_init descriptors);;
  banner;;
  say (line "Initializing memory allocation system");;
  zoom ints_l (zoom #kmem (kmalloc_init descriptors io_word KERNEL_ENDS_HERE));;
  say (line "Reading boot arguments");;
  zoom boot_l (bootargs_init boot);;
  seed_random;;
  numcpus ← zoom devs_l (cpustatus_count descriptors);
  printf (line "Detected %i CPUs") [Arg (u32 numcpus) []];;
  kernel_assert (bool_decide (numcpus ≤ CONFIG_MAX_CPUS));;
  say (line "Initializing interrupt handling");;
  zoom ints_l (interrupt_init _cswitch_vector_code numcpus);;
  say (line "Initializing threading system");;
  zoom kernel_l (thread_table_init thread_stack_areas idle_loop);;
  say (line "Initializing user process system");;
  zoom procs_l process_init;;
  say (line "Initializing sleep queue");;
  zoom kernel_l sleepq_init;;
  say (line "Initializing semaphores");;
  zoom kernel_l semaphore_init;;
  say (line "Initializing device drivers");;
  zoom devs_l (device_init L descriptors);;
  printf (line "Initializing virtual filesystem") [];;
  zoom vfs_l (vfs_init created);;
  say (line "Initializing scheduler");;
  zoom kernel_l scheduler_init;;
  say (line "Initializing virtual memory");;
  zoom pool_l vm_init;;
  printf (line "Creating initialization thread") [];;
  startup_thread ← zoom kernel_l (thread_create thread_stack_areas thread_finish_addr init_startup_thread_addr 0);
  zoom kernel_l (thread_run startup_thread);;
  printf (line "Starting threading system and SMP") [];;
  modify (λ s, s <| kernel_bootstrap_finished := 1 |>);;
  zoom kernel_l _interrupt_clear_bootstrap;;
  zoom kernel_l (_interrupt_enable #k_status);;
  zoom kernel_l thread_switch;;
  panic "Threading system startup failed.".
End main.
End Main.
