(* ===== verification/MainSpec.v ===== *)
(** * Properties of the start of the system

    What the first thread does when no program is to be run: the fallback says
    so on the terminal, unmounts all volumes and powers the machine off. *)
From stdpp Require Import gmap.
From S2P Require Import Prelude Bytes Libc Cpu Kmalloc Kstate Interrupt Tty TtySpec Polltty Xprintf XprintfSpec Bootargs Device Sync Vfs Process Usermem Syscall SyscallSpec ElfSpec Start StartSpec Net NetSpec Main.
Import Libc Kmalloc Interrupt Tty TtySpec Polltty Xprintf XprintfSpec Bootargs Device Vfs Process Syscall SyscallSpec Main.

Module MainSpec.

(** ** What a shutdown writes *)

(** To the device found at the start, if there was one, and to every shutdown
    device of the descriptors; the first of them stops the machine. *)
Definition poweroff_writes (ds : list io_descriptor) (magic : Z) : list (Z * Z) :=
  (λ d, (io_area_base d, magic)) <$> filter (λ d, io_type d = YAMS_TYPECODE_SHUTDOWN) ds.
Definition found_write (L : layout) (s : dev_t) (magic : Z) : list (Z * Z) :=
  if shutdown_init_done s then
    match heap s !! system_shutdown L with Some (ODevice d) => [(io_address d, magic)] | _ => [] end
  else [].

(** ** What an unmount says *)

Definition unmount_line (e : vfs_entry_t) : list Z :=
  if decide (ve_filesystem e = 0) then []
  else text "VFS: Forcefully unmounting volume [" ++ default [] (cstr (mountpoint e)) ++ text (line "]").
Definition unmount_lines (es : list vfs_entry_t) : list Z := concat (unmount_line <$> es).

Section halt.
Context {F : Type} `{FileSystem F} {D : Type} `{TtyPrompt D}.
Abbreviation sys := (sys_t (F := F) (D := D)).
Variables (L : layout) (descriptors : list io_descriptor).
Variables (console base : Z) (polls : nat).
Abbreviation kprintf := (kprintf (F := F) (D := D) console base polls).

(** What the terminal has sent. *)
Definition sys_shown (x : sys) : list Z := sent (term_io (terminals x console)).

(** kprintf can be used. *)
Definition printable (x : sys) : Prop :=
  term_slock (terminals x console) = 0 ∧ 0 ≤ k_status (lget core_l x) < 2 ^ 32.

(** From [x] to [x'], [l] has appeared on the terminal and the devices have not
    been written to. *)
Record prints (l : list Z) (x x' : sys) : Prop := {
  pr_shown : sys_shown x' = sys_shown x ++ l;
  pr_writes : port_writes (devs x') = port_writes (devs x);
  pr_heap : heap (devs x') = heap (devs x);
  pr_done : shutdown_init_done (devs x') = shutdown_init_done (devs x);
  pr_ready : printable x' }.

Lemma prints_trans l l' x x' x'' : prints l x x' → prints l' x' x'' → prints (l ++ l') x x''.
Proof. intros [A1 A2 A3 A4 A5] [B1 B2 B3 B4 B5]. constructor; try congruence. by rewrite B1 A1 app_assoc. Qed.
Lemma prints_vfs l x x' v : prints l x x' → prints l x (x' <| vfs := v |>).
Proof. intros []. by constructor. Qed.
Lemma prints_refl x : printable x → prints [] x x.
Proof. constructor; try done. by rewrite app_nil_r. Qed.

Hypothesis Hbase : base ≠ 0.
Hypothesis Hpolls : (busy_bound < polls)%nat.

(** A message appears on the terminal. *)
Lemma kprintf_prints m ds ap l x :
  text m = formats ds → formatted ds ap l → Z.of_nat (length l) < 0x7fffffff → 0 ∉ l → printable x →
  ∃ x', kprintf m ap x = Done tt x' ∧ prints l x x' ∧ vfs x' = vfs x.
Proof using Hbase Hpolls.
  intros Hm Hf Hl Hnz [Hk Hst].
  destruct (kprintf_sends polls ds ap l [] (lget (console_l console base) x) Hf Hl Hpolls Hbase Hk Hst) as (p & E & Hsent & _ & Hk' & Hst' & _).
  unfold Syscall.kprintf, cstring. rewrite Hm (bind_zoom (console_l console base) _ _ x _ _ E).
  eexists. split; [reflexivity|]. split; [|done].
  assert (filter (λ c, c ≠ 0) l = l) as Hfl.
  { clear -Hnz. induction l as [|c l IH]; [done|]. apply not_elem_of_cons in Hnz as [? ?]. rewrite filter_cons decide_True; [congruence|]. by rewrite IH. }
  rewrite Hfl in Hsent. cbn [lset console_l]. set (t := TerminalT D _ _ _).
  assert (∀ x' : sys, terminals (x' <| terminals := λ q, if decide (q = console) then t else terminals x q |>) console = t) as Ht
    by (intros x'; exact (decide_True (P := console = console) _ _ eq_refl)).
  constructor; try done.
  - unfold sys_shown. by rewrite Ht.
  - split; [by rewrite Ht|]. change (0 ≤ p_status p < 2 ^ 32). by rewrite Hst'.
Qed.

Lemma bind_kprintf {B} m ds ap l (f : unit → M sys B) x :
  text m = formats ds → formatted ds ap l → Z.of_nat (length l) < 0x7fffffff → 0 ∉ l → printable x →
  ∃ x', (kprintf m ap ≫= f) x = f tt x' ∧ prints l x x' ∧ vfs x' = vfs x.
Proof using Hbase Hpolls.
  intros Hm Hf Hl Hnz Hp. destruct (kprintf_prints m ds ap l x Hm Hf Hl Hnz Hp) as (x' & E & Hx). exists x'. by rewrite (bind_Done _ _ _ _ _ E).
Qed.

Lemma formats_plain l : formats (Lit <$> l) = l.
Proof. unfold formats. induction l as [|c l IH]; [done|]. cbn. by f_equal. Qed.
Lemma formatted_plain l : Forall (λ c, directive_ok (Lit c)) l → formatted (Lit <$> l) [] l.
Proof. induction 1; cbn; by constructor. Qed.

Lemma plain_nonzero l : Forall (λ c, directive_ok (Lit c)) l → 0 ∉ l.
Proof. induction 1 as [|c l [Hc _] _ IH]; [by apply not_elem_of_nil|]. apply not_elem_of_cons. by split; [congruence|]. Qed.

(** One without conversions appears as it is. *)
Lemma kprintf_prints_plain m x :
  Forall (λ c, directive_ok (Lit c)) (text m) → Z.of_nat (length (text m)) < 0x7fffffff → printable x →
  ∃ x', kprintf m [] x = Done tt x' ∧ prints (text m) x x' ∧ vfs x' = vfs x.
Proof using Hbase Hpolls.
  intros Hm Hl. apply kprintf_prints with (ds := Lit <$> text m);
    [by rewrite formats_plain|by apply formatted_plain|done|by apply plain_nonzero].
Qed.
Lemma bind_kprintf_plain {B} m (f : unit → M sys B) x :
  Forall (λ c, directive_ok (Lit c)) (text m) → Z.of_nat (length (text m)) < 0x7fffffff → printable x →
  ∃ x', (kprintf m [] ≫= f) x = f tt x' ∧ prints (text m) x x' ∧ vfs x' = vfs x.
Proof using Hbase Hpolls.
  intros Hm Hl Hp. destruct (kprintf_prints_plain m x Hm Hl Hp) as (x' & E & Hx). exists x'. by rewrite (bind_Done _ _ _ _ _ E).
Qed.

(** ** Unmounting *)

(** Drivers answer when they are told to unmount. *)
Hypothesis unmounts : ∀ d : F, ∃ r d', fs_unmount d = Done r d'.

(** Nothing is in progress, and the mount points have names. *)
Record quiet (v : vfs_t (F := F)) : Prop := {
  qu_sem : vfs_sem v = 1; qu_files : openfile_sem v = 1; qu_op : vfs_op_sem v = 1;
  qu_ops : vfs_ops v ≤ 0;
  qu_rows : Z.of_nat (length (vfs_filesystems v)) = CONFIG_MAX_FILESYSTEMS;
  qu_names : Forall (λ e, is_Some (cstr (mountpoint e)) ∧ length (mountpoint e) = Z.to_nat VFS_NAME_LENGTH) (vfs_filesystems v) }.

(** The first [i] rows are free, which the terminal shows; the others are [rows]'s. *)
Record cleared (x0 : sys) (rows : list vfs_entry_t) (i : Z) (x : sys) : Prop := {
  cl_prints : prints (unmount_lines (take (Z.to_nat i) rows)) x0 x;
  cl_rows : length (vfs_filesystems (vfs x)) = length rows;
  cl_free j e : 0 ≤ j < i → arr_get (vfs_filesystems (vfs x)) j = Some e → ve_filesystem e = 0;
  cl_same j : i ≤ j → arr_get (vfs_filesystems (vfs x)) j = arr_get rows j;
  cl_usable : vfs_usable (vfs x) = 0 }.

Definition unmount_row (row : Z) : M sys unit :=
  e ← zoom #vfs (get_fs row);
  let fs := ve_filesystem e in
  if decide (fs ≠ 0) then
    kprintf (line "VFS: Forcefully unmounting volume [%s]") [Arg 0 (mountpoint e)];;
    zoom #vfs (zoom (driver fs) fs_unmount);;
    zoom #vfs (set_fs row (λ e, e <| ve_filesystem := 0 |>))
  else mret tt.

Lemma unmount_message e :
  ve_filesystem e ≠ 0 → is_Some (cstr (mountpoint e)) → length (mountpoint e) = Z.to_nat VFS_NAME_LENGTH →
  ∃ ds, text (line "VFS: Forcefully unmounting volume [%s]") = formats ds ∧
    formatted ds [Arg 0 (mountpoint e)] (unmount_line e) ∧ Z.of_nat (length (unmount_line e)) < 0x7fffffff ∧ 0 ∉ unmount_line e.
Proof.
  intros He [name Hn] Hl.
  exists ((Lit <$> text "VFS: Forcefully unmounting volume [") ++ Chars None :: (Lit <$> text (line "]"))).
  unfold unmount_line. rewrite decide_False // Hn. change (default [] (Some name)) with name.
  assert (length name ≤ 16)%nat as Hname.
  { destruct (cstr_inv _ _ Hn) as [_ [r Hr]]. rewrite Hr length_app in Hl. change (Z.to_nat VFS_NAME_LENGTH) with 16%nat in Hl. lia. }
  split_and!.
  - reflexivity.
  - assert (∀ l, Forall (λ c, directive_ok (Lit c)) l → formatted ((Lit <$> l) ++ Chars None :: (Lit <$> text (line "]")))
      [Arg 0 (mountpoint e)] (l ++ name ++ text (line "]"))) as Hp; [|apply Hp; by apply (bool_decide_unpack _)].
    induction 1 as [|c l Hc _ IH]; cbn [app fmap list_fmap]; [|by constructor].
    replace (name ++ text (line "]")) with (show (Chars None) (Arg 0 (mountpoint e)) ++ text (line "]")) by (cbn; by rewrite Hn).
    constructor; [done|done|by exists name|]. apply formatted_plain. by apply (bool_decide_unpack _).
  - rewrite !length_app. change (length (text (line "]"))) with 2%nat.
    change (length (text "VFS: Forcefully unmounting volume [")) with 35%nat. lia.
  - rewrite !not_elem_of_app. split_and!; [|by apply (cstr_inv _ _ Hn)|]; apply plain_nonzero; by apply (bool_decide_unpack _).
Qed.

Lemma unmount_lines_snoc rows i e : 0 ≤ i → arr_get rows i = Some e →
  unmount_lines (take (Z.to_nat (i + 1)) rows) = unmount_lines (take (Z.to_nat i) rows) ++ unmount_line e.
Proof.
  intros Hi He. apply arr_get_Some in He as [_ He]. replace (Z.to_nat (i + 1)) with (S (Z.to_nat i)) by lia.
  unfold unmount_lines. rewrite (take_S_r _ _ _ He) fmap_app concat_app. cbn. by rewrite app_nil_r.
Qed.

Lemma unmount_row_clears x0 rows i x :
  0 ≤ i < Z.of_nat (length rows) →
  Forall (λ e, is_Some (cstr (mountpoint e)) ∧ length (mountpoint e) = Z.to_nat VFS_NAME_LENGTH) rows →
  cleared x0 rows i x → wp (unmount_row i) (λ _, cleared x0 rows (i + 1)) x.
Proof using Hbase Hpolls unmounts.
  intros Hi Hnames [Hp Hr Hf Hs Hu]. destruct (arr_get_is_Some rows i) as [e He]; [lia|].
  pose proof (Hs i ltac:(lia)) as Hget. rewrite He in Hget.
  assert (get_fs i (vfs x) = Done e (vfs x)) as E1 by (unfold get_fs; by rewrite Hget).
  unfold wp, unmount_row. rewrite (bind_zoom #vfs _ _ x _ _ E1). cbv zeta.
  change (lset #vfs (vfs x) x) with (x <| vfs := vfs x |>). rewrite (_ : x <| vfs := vfs x |> = x); [by destruct x|].
  pose proof (unmount_lines_snoc rows i e ltac:(lia) He) as Hsnoc.
  destruct (decide (ve_filesystem e ≠ 0)) as [Hne|Hz].
  - assert (is_Some (cstr (mountpoint e)) ∧ length (mountpoint e) = Z.to_nat VFS_NAME_LENGTH) as [Hn1 Hn2].
    { apply arr_get_Some in He as [_ He]. by apply (Forall_lookup_1 _ _ _ _ Hnames He). }
    destruct (unmount_message e Hne Hn1 Hn2) as (ds & M1 & M2 & M3 & M4).
    destruct (bind_kprintf _ ds _ _ (λ _, zoom #vfs (zoom (driver (ve_filesystem e)) fs_unmount);;
      zoom #vfs (set_fs i (λ e, e <| ve_filesystem := 0 |>))) x M1 M2 M3 M4 (pr_ready _ _ _ Hp)) as (x' & -> & Hp' & Hv).
    destruct (unmounts (drivers (vfs x') (ve_filesystem e))) as (r & d & Hd).
    set (v1 := lset (driver (ve_filesystem e)) d (vfs x')).
    assert (zoom (driver (ve_filesystem e)) fs_unmount (vfs x') = Done r v1) as E2 by (unfold zoom; cbn [lget driver]; by rewrite Hd).
    rewrite (bind_zoom #vfs _ _ x' _ _ E2). unfold zoom.
    assert (vfs_filesystems v1 = vfs_filesystems (vfs x)) as Hv1 by (by rewrite -Hv).
    unfold set_fs. change (lget #vfs (lset #vfs v1 x')) with v1. rewrite Hv1 Hget. cbn [ozoom].
    set (es := <[_:=_]> (vfs_filesystems (vfs x))).
    match goal with |- cleared _ _ _ ?y => assert (vfs_filesystems (vfs y) = es) as Hes by reflexivity end.
    constructor.
    + rewrite Hsnoc. apply (prints_trans _ _ _ x); [done|]. by apply (prints_vfs _ _ _ _ (prints_vfs _ _ _ v1 Hp')).
    + by rewrite Hes length_insert.
    + intros j e' Hj. rewrite Hes arr_get_insert; [exact (arr_get_lt _ _ _ Hget)|].
      case_decide as Hji; [by intros [= <-]|]. apply Hf. lia.
    + intros j Hj. rewrite Hes arr_get_insert; [exact (arr_get_lt _ _ _ Hget)|]. rewrite decide_False; [lia|]. apply Hs. lia.
    + change (vfs_usable (vfs x') = 0). by rewrite Hv.
  - assert (ve_filesystem e = 0) as Hz' by (destruct (decide (ve_filesystem e = 0)); [done|by destruct Hz]).
    constructor; [|done| |intros; apply Hs; lia|done].
    + rewrite Hsnoc /unmount_line decide_True // app_nil_r //.
    + intros j e' Hj Hj'. destruct (decide (j = i)) as [->|]; [congruence|apply (Hf j); [lia|done]].
Qed.

Lemma unmounted_all x0 rows x e :
  cleared x0 rows (Z.of_nat (length rows)) x → e ∈ vfs_filesystems (vfs x) → ve_filesystem e = 0.
Proof.
  intros [_ Hr Hf _ _] He. apply list_elem_of_lookup in He as [j Hj]. pose proof (lookup_lt_Some _ _ _ Hj).
  apply (Hf (Z.of_nat j)); [lia|]. apply arr_get_Some. split; [lia|]. by rewrite Nat2Z.id.
Qed.

Lemma bind_vfs_P {B} (l : lens (vfs_t (F := F)) Z) (f : unit → M sys B) x :
  0 < lget l (vfs x) → (zoom #vfs (sem_P l) ≫= f) x = f tt (x <| vfs := lset l (lget l (vfs x) - 1) (vfs x) |>).
Proof. 
  intros Hl. assert (sem_P l (vfs x) = Done tt (lset l (lget l (vfs x) - 1) (vfs x))) as E by (unfold sem_P; by case_decide).
  exact (bind_zoom #vfs (sem_P l) f x tt _ E).
Qed.

Lemma bind_vfs_V {B} (l : lens (vfs_t (F := F)) Z) (f : unit → M sys B) x :
  (zoom #vfs (sem_V l) ≫= f) x = f tt (x <| vfs := lset l (lget l (vfs x) + 1) (vfs x) |>).
Proof. exact (bind_zoom #vfs (sem_V l) f x tt _ eq_refl). Qed.

Definition deinit_text (rows : list vfs_entry_t) : list Z :=
  text (line "VFS: Entering forceful unmount of all filesystems.") ++ unmount_lines rows.

(** The forced unmount of a volume table at rest. *)
Lemma vfs_deinit_unmounts {B} (f : unit → M sys B) x : quiet (vfs x) → printable x →
  ∃ x', (vfs_deinit #vfs kprintf ≫= f) x = f tt x' ∧ prints (deinit_text (vfs_filesystems (vfs x))) x x' ∧
    vfs_usable (vfs x') = 0 ∧ Forall (λ e, ve_filesystem e = 0) (vfs_filesystems (vfs x')).
Proof using Hbase Hpolls unmounts.
  intros [Q1 Q2 Q3 Q4 Q5 Q6] Hpr. unfold vfs_deinit.
  rewrite bind_bind bind_vfs_P; [cbn; lia|]. set (v1 := lset #vfs_op_sem _ _).
  rewrite bind_bind. rewrite (bind_zoom #vfs _ _ (x <| vfs := v1 |>) tt (v1 <| vfs_usable := 0 |>)); [done|]. rewrite bind_bind.
  set (x1 := lset #vfs (v1 <| vfs_usable := 0 |>) (x <| vfs := v1 |>)).
  match goal with |- context [(kprintf ?m [] ≫= ?g) x1] => destruct (bind_kprintf_plain m g x1) as (x2 & -> & Hp2 & Hv2) end;
    [by apply (bool_decide_unpack _)|by vm_compute|done|].
  rewrite bind_bind. rewrite (bind_zoom #vfs _ _ x2 (vfs_ops (vfs x2)) (vfs x2)); [done|].
  assert (vfs_ops (vfs x2) = vfs_ops (vfs x) ∧ vfs_sem (vfs x2) = vfs_sem (vfs x) ∧ openfile_sem (vfs x2) = openfile_sem (vfs x) ∧
    vfs_filesystems (vfs x2) = vfs_filesystems (vfs x) ∧ vfs_usable (vfs x2) = 0) as (F1 & F2 & F3 & F4 & F5) by (rewrite Hv2; done).
  clear Hv2. rewrite decide_False; [lia|]. rewrite bind_bind bind_ret.
  rewrite (_ : lset #vfs (vfs x2) x2 = x2); [by destruct x2|].
  rewrite bind_bind bind_vfs_P; [change (0 < vfs_sem (vfs x2)); lia|].
  rewrite bind_bind bind_vfs_P; [change (0 < openfile_sem (vfs x2)); lia|].
  set (rows := vfs_filesystems (vfs x)) in *.
  match goal with |- context [(_ ≫= f) ?y] => set (x3 := y) end.
  assert (cleared x3 rows 0 x3) as Hstart.
  { constructor; [apply prints_refl, Hp2|by rewrite -F4|lia|by rewrite -F4|exact F5]. }
  assert (wp (for_loop (Z.to_nat CONFIG_MAX_FILESYSTEMS) 0 unmount_row) (λ _, cleared x3 rows (Z.of_nat (length rows))) x3) as Hloop.
  { apply (wp_for_loop (cleared x3 rows)); [done| |].
    - intros i t Hi Ht. apply unmount_row_clears; [lia|done|done].
    - intros t. by rewrite Z2Nat.id // -Q5. }
  apply wp_Done in Hloop as ([] & x4 & Hrun & Hc). rewrite bind_bind (bind_Done _ _ _ _ _ Hrun).
  rewrite bind_bind bind_vfs_V bind_bind bind_vfs_V bind_vfs_V. eexists. split; [reflexivity|].
  assert (unmount_lines (take (Z.to_nat (Z.of_nat (length rows))) rows) = unmount_lines rows) as Ht by (by rewrite Nat2Z.id firstn_all).
  split; [|split].
  - pose proof (cl_prints _ _ _ _ Hc) as Hp4. rewrite Ht in Hp4. do 3 apply prints_vfs.
    apply (prints_trans _ _ _ x3); [|exact Hp4]. do 2 apply prints_vfs. destruct Hp2. by constructor.
  - exact (cl_usable _ _ _ _ Hc).
  - apply Forall_forall. intros e He. by apply (unmounted_all x3 rows x4).
Qed.

(** ** Power off *)

(** The static structure is filled when its flag is set. *)
Definition shutdown_ready (s : dev_t) : Prop :=
  shutdown_init_done s = true → ∃ d, heap s !! system_shutdown L = Some (ODevice d).

Definition written (ws : list (Z * Z)) (x : sys) : sys :=
  x <| devs := (devs x) <| port_writes := port_writes (devs x) ++ ws |> |>.

Lemma shutdown_write_stops {B} port magic (f : unit → M sys B) x :
  ∃ k, (shutdown_write #devs port magic ≫= f) x = Blocked (written [(port, magic)] x) k.
Proof. eexists. reflexivity. Qed.

(** The first shutdown device stops the machine. *)
Lemma shutdown_loop {B} (f : unit → M sys B) magic n : ∀ k x, (n + k = length descriptors)%nat →
  let r := (for_loop n (Z.of_nat k) (λ i,
    d ← oread (arr_get descriptors i);
    if decide (io_type d = YAMS_TYPECODE_SHUTDOWN) then shutdown_write #devs (io_area_base d) magic else mret tt) ≫= f) x in
  match poweroff_writes (drop k descriptors) magic with
  | w :: _ => ∃ c, r = Blocked (written [w] x) c
  | [] => r = f tt x
  end.
Proof.
  induction n as [|n IH]; intros k x Hk; cbn [for_loop]; cbv zeta.
  { rewrite drop_ge; [lia|]. by rewrite bind_ret. }
  destruct (lookup_lt_is_Some_2 descriptors k) as [d Hd]; [lia|].
  assert (arr_get descriptors (Z.of_nat k) = Some d) as Hg by (apply arr_get_Some; split; [lia|]; by rewrite Nat2Z.id).
  rewrite (drop_S _ _ _ Hd). unfold poweroff_writes. rewrite filter_cons.
  replace (Z.of_nat k + 1) with (Z.of_nat (S k)) by lia.
  rewrite bind_bind bind_bind Hg bind_oread. case_decide as Hs.
  - apply shutdown_write_stops.
  - rewrite bind_ret. apply IH. lia.
Qed.

Definition all_writes (s : dev_t) (magic : Z) : list (Z * Z) := found_write L s magic ++ poweroff_writes descriptors magic.

Definition failed_text (ws : list (Z * Z)) : list Z :=
  match ws with [] => text (line "Shutdown failed. Hardware failure!") | _ => [] end.

(** How a run that writes [ws] ends: stopped at the first of them, or returning
    when there is none. *)
Definition ends_with {S} (ws : list (Z * Z)) (o : outcome S unit) (s' : S) : Prop :=
  match ws with [] => o = Done tt s' | _ => ∃ k, o = Blocked s' k end.

Lemma shutdown_ends magic x : Z.of_nat (length descriptors) = YAMS_MAX_DEVICES → shutdown_ready (devs x) → printable x →
  let ws := all_writes (devs x) magic in
  ∃ x', ends_with ws (shutdown L #devs kprintf descriptors magic x) x' ∧ sys_shown x' = sys_shown x ++ failed_text ws ∧
    port_writes (devs x') = port_writes (devs x) ++ take 1 ws ∧ vfs x' = vfs x.
Proof using Hbase Hpolls.
  intros Hl Hr Hp ws. unfold ws, all_writes, found_write, shutdown.
  rewrite (bind_zoom #devs _ _ x (shutdown_init_done (devs x)) (devs x)) //. rewrite (_ : lset #devs (devs x) x = x); [by destruct x|].
  destruct (shutdown_init_done (devs x)) eqn:E.
  - destruct (Hr E) as [d Hd]. rewrite Hd. rewrite bind_bind (bind_zoom #devs _ _ x d (devs x)).
    { unfold get_device. cbn [lget]. by rewrite bind_gets Hd. }
    rewrite (_ : lset #devs (devs x) x = x); [by destruct x|].
    match goal with |- context [(shutdown_write _ ?p ?m ≫= ?g) x] => destruct (shutdown_write_stops p m g x) as [k ->] end.
    eexists. split; [by eexists|]. cbn [failed_text app]. by rewrite app_nil_r.
  - rewrite bind_ret. cbn [app].
    match goal with |- context [(for_loop ?n 0 _ ≫= ?g) x] => pose proof (shutdown_loop g magic n 0 x) as Hloop end.
    specialize (Hloop ltac:(lia)). cbv zeta in Hloop. rewrite drop_0 in Hloop. change (Z.of_nat 0) with 0 in Hloop.
    destruct (poweroff_writes descriptors magic) as [|w l].
    + rewrite Hloop.
      destruct (kprintf_prints_plain (line "Shutdown failed. Hardware failure!") x) as (x' & E' & Hx & Hv);
        [by apply (bool_decide_unpack _)|by vm_compute|done|].
      exists x'. split; [|split; [apply Hx|split; [|done]]]; [|rewrite (pr_writes _ _ _ Hx); by rewrite app_nil_r].
      exact E'.
    + destruct Hloop as [k ->]. eexists. split; [by eexists|]. cbn [failed_text]. by rewrite app_nil_r.
Qed.

Definition halt_text (rows : list vfs_entry_t) : list Z :=
  text (line "Kernel: System shutdown started...") ++ deinit_text rows ++
  text (line "Kernel: System shutdown complete, powering off").

(** The whole of halt_kernel on a system at rest. *)
Lemma halt_kernel_ends x :
  Z.of_nat (length descriptors) = YAMS_MAX_DEVICES → shutdown_ready (devs x) → quiet (vfs x) → printable x →
  let ws := all_writes (devs x) POWEROFF_SHUTDOWN_MAGIC in
  ∃ x', ends_with ws (halt_kernel L descriptors console base polls x) x' ∧
    sys_shown x' = sys_shown x ++ halt_text (vfs_filesystems (vfs x)) ++ failed_text ws ∧
    vfs_usable (vfs x') = 0 ∧ Forall (λ e, ve_filesystem e = 0) (vfs_filesystems (vfs x')) ∧
    port_writes (devs x') = port_writes (devs x) ++ take 1 ws.
Proof using Hbase Hpolls unmounts.
  intros Hl Hr Hq Hp ws. unfold halt_kernel.
  match goal with |- context [(kprintf ?m [] ≫= ?g) x] => destruct (bind_kprintf_plain m g x) as (x1 & -> & Hp1 & Hv1) end;
    [by apply (bool_decide_unpack _)|by vm_compute|done|].
  rewrite -Hv1 in Hq. destruct (vfs_deinit_unmounts (λ _, kprintf (line "Kernel: System shutdown complete, powering off") [];;
    shutdown L #devs kprintf descriptors POWEROFF_SHUTDOWN_MAGIC) x1 Hq (pr_ready _ _ _ Hp1)) as (x2 & -> & Hp2 & Hu & Hfree).
  match goal with |- context [(kprintf ?m [] ≫= ?g) x2] => destruct (bind_kprintf_plain m g x2) as (x3 & -> & Hp3 & Hv3) end;
    [by apply (bool_decide_unpack _)|by vm_compute|apply Hp2|].
  pose proof (prints_trans _ _ _ _ _ Hp1 (prints_trans _ _ _ _ _ Hp2 Hp3)) as [P1 P2 P3 P4 P5].
  assert (shutdown_ready (devs x3)) as Hr3 by (unfold shutdown_ready; by rewrite P3 P4).
  destruct (shutdown_ends POWEROFF_SHUTDOWN_MAGIC x3 Hl Hr3 P5) as (x' & He & Hs & Hw & Hv).
  assert (all_writes (devs x3) POWEROFF_SHUTDOWN_MAGIC = ws) as Hws by (unfold ws, all_writes, found_write; by rewrite P3 P4).
  rewrite Hws in He, Hs, Hw. exists x'. split; [exact He|]. split_and!.
  - rewrite Hs P1 Hv1 /halt_text -!app_assoc //.
  - by rewrite Hv Hv3.
  - by rewrite Hv Hv3.
  - by rewrite Hw P2.
Qed.
End halt.

(** ** The fallback *)

Section fallback.
Context {F : Type} `{FileSystem F} {D : Type} `{TtyPrompt D} {N : Type} `{NetEnv N}.
Abbreviation machine := (machine_t (F := F) (D := D) (N := N)).
Variable console : Z.
Variables (L : layout) (descriptors : list io_descriptor).
Variables polls wakeups : nat.

Abbreviation printf := (printf (F := F) (D := D) (N := N) console polls).
Abbreviation init_startup_fallback := (init_startup_fallback (F := F) (D := D) (N := N) console L descriptors polls wakeups).

(** What the terminal has sent. *)
Definition shown (s : machine) : list Z := sys_shown console (sys s).

(** The terminal can be used, no operation on the volumes is in progress, and
    the shutdown device is as device_init leaves it. *)
Record at_rest (s : machine) : Prop := {
  ar_base : iobase s ≠ 0;
  ar_lock : term_slock (terminals (sys s) console) = 0;
  ar_status : 0 ≤ k_status (lget kernel_l s) < 2 ^ 32;
  ar_vfs : quiet (vfs (sys s));
  ar_power : shutdown_ready L (devs (sys s)) }.

(** The key is not among the boot arguments. *)
Definition absent (key : string) (s : machine) : Prop :=
  bootargs_get (cstring key) (lget boot_l s) = Done NULL (lget boot_l s).

Lemma boot_l_same (s : machine) : lset boot_l (lget boot_l s) s = s.
Proof. destruct s as [[[[]]] ? ? ? ? ?]. reflexivity. Qed.

Lemma bind_absent {B} key (f : char_ptr → M machine B) s :
  absent key s → (bootarg key ≫= f) s = f NULL s.
Proof. intros Ha. unfold bootarg. rewrite (bind_zoom boot_l _ _ s NULL (lget boot_l s) Ha). by rewrite boot_l_same. Qed.

(** A message of init/main.c without conversions. *)
Lemma printf_plain s m :
  Forall (λ c, directive_ok (Lit c)) (text m) → Z.of_nat (length (text m)) < 0x7fffffff → (busy_bound < polls)%nat →
  at_rest s →
  ∃ s', printf m [] s = Done tt s' ∧ prints console (text m) (sys s) (sys s') ∧ vfs (sys s') = vfs (sys s) ∧ iobase s' = iobase s.
Proof.
  intros Hm Hl Hp [Hb Hk Hst _ _].
  destruct (kprintf_sends polls (Lit <$> text m) [] (text m) [] (lget (print_l console) s)) as (p & E & Hsent & _ & Hk' & Hst' & _ & Hbase);
    [by apply formatted_plain|done|done|exact Hb|exact Hk|exact Hst|].
  rewrite formats_plain in E.
  exists (lset (print_l console) p s). unfold Main.printf. rewrite (bind_zoom (print_l console) _ _ s _ _ E).
  split; [reflexivity|]. split; [|done].
  assert (filter (λ c, c ≠ 0) (text m) = text m) as Hfl.
  { clear -Hm. induction Hm as [|c l [Hc _] _ IH]; [done|]. by rewrite filter_cons decide_True ?IH. }
  rewrite Hfl in Hsent. set (t := TerminalT D (kprintf_slock p) (term_rd (terminals (sys s) console)) (poll_io (poll p))).
  assert (terminals (sys (lset (print_l console) p s)) console = t) as Ht by exact (decide_True (P := console = console) _ _ eq_refl).
  constructor; try done.
  - unfold sys_shown. by rewrite Ht.
  - split; [by rewrite Ht|]. change (0 ≤ p_status p < 2 ^ 32). by rewrite Hst'.
Qed.

Section theorem.
Hypothesis unmounts : ∀ d : F, ∃ r d', fs_unmount d = Done r d'.

(** C20 (functional): without a program to run, and without the boot arguments
    for the console test and its messages, the fallback of the first thread ends
    the system in order, if no operation is in progress, the volumes have names,
    their drivers answer and the console is free: the terminal shows its last message, those of the
    kernel and one for every mounted volume, the file systems are unusable and
    every volume is unmounted, and then the power-off word is written, to the
    shutdown device that was found at the start or else to the first one of the
    machine, where the system stops; without such a device nothing is written, a
    message says so and the fallback returns. *)
Theorem startup_fallback_powers_off s buffer buffer2 :
  Z.of_nat (length descriptors) = YAMS_MAX_DEVICES → (busy_bound < polls)%nat → at_rest s →
  absent "debuginit" s → absent "testconsole" s →
  let ws := found_write L (devs (sys s)) POWEROFF_SHUTDOWN_MAGIC ++ poweroff_writes descriptors POWEROFF_SHUTDOWN_MAGIC in
  ∃ s', match ws with
        | [] => init_startup_fallback buffer buffer2 s = Done tt s'
        | _ => ∃ resume, init_startup_fallback buffer buffer2 s = Blocked s' resume
        end ∧
    shown s' = shown s ++ text (line "Startup fallback code ends.") ++ text (line "Kernel: System shutdown started...") ++
      text (line "VFS: Entering forceful unmount of all filesystems.") ++ unmount_lines (vfs_filesystems (vfs (sys s))) ++
      text (line "Kernel: System shutdown complete, powering off") ++
      match ws with [] => text (line "Shutdown failed. Hardware failure!") | _ => [] end ∧
    vfs_usable (vfs (sys s')) = 0 ∧ Forall (λ e, ve_filesystem e = 0) (vfs_filesystems (vfs (sys s'))) ∧
    port_writes (devs (sys s')) = port_writes (devs (sys s)) ++ take 1 ws.
Proof.
  intros Hd Hp Hr Hdebug Htest ws. unfold Main.init_startup_fallback, DEBUG.
  rewrite bind_bind (bind_absent _ _ _ Hdebug) bind_ret (bind_absent _ _ _ Htest) bind_ret.
  destruct (printf_plain s (line "Startup fallback code ends.")) as (s1 & E1 & [P1 P2 P3 P4 P5] & Hv & Hb); [|by vm_compute|done|done|].
  { by apply (bool_decide_unpack _). }
  rewrite (bind_Done _ _ _ _ _ E1). unfold halt. rewrite bind_gets.
  assert (shutdown_ready L (devs (sys s1))) as Hready by (unfold shutdown_ready; rewrite P3 P4; by apply ar_power).
  assert (all_writes L descriptors (devs (sys s1)) POWEROFF_SHUTDOWN_MAGIC = ws) as Hws
    by (unfold ws, all_writes, found_write; by rewrite P3 P4).
  destruct (halt_kernel_ends L descriptors console (iobase s1) polls ltac:(rewrite Hb; by apply ar_base) Hp unmounts (sys s1) Hd Hready)
    as (x' & He & Hs & Hu & Hf & Hw); [rewrite Hv; by apply ar_vfs|done|].
  rewrite Hws in He, Hs, Hw. exists (s1 <| sys := x' |>). split_and!.
  - unfold zoom. change (lget sys_l s1) with (sys s1). destruct ws as [|w l]; cbn [ends_with] in He.
    + by rewrite He.
    + destruct He as [k ->]. by eexists.
  - change (sys_shown console x' = sys_shown console (sys s) ++ text (line "Startup fallback code ends.") ++
      text (line "Kernel: System shutdown started...") ++ text (line "VFS: Entering forceful unmount of all filesystems.") ++
      unmount_lines (vfs_filesystems (vfs (sys s))) ++ text (line "Kernel: System shutdown complete, powering off") ++ failed_text ws).
    rewrite Hs P1 Hv /halt_text /deinit_text -!app_assoc //.
  - exact Hu.
  - exact Hf.
  - change (port_writes (devs x') = port_writes (devs (sys s)) ++ take 1 ws). by rewrite Hw P2.
Qed.
End theorem.
End fallback.

(** ** A machine with a shutdown device and a mounted volume *)

Definition example_shutdown : list io_descriptor :=
  replicate 127 (IoDescriptor 0 0 0) ++ [IoDescriptor YAMS_TYPECODE_SHUTDOWN 0xb0001000 0].
Definition example_links : layout := Layout 1 2 3 4 5 6 7 8 9 10 11 12 13.
Definition example_machine : machine_t (F := unit) (D := terminal) (N := unit) :=
  @Machine unit terminal unit StartSpec.spare_system 0xb0008000 0 [] (replicate 32 (Bootarg NULL NULL))
    (NetSpec.example_net [] []) 1.

Lemma startup_fallback_powers_off_witness :
  ∃ s' k, @init_startup_fallback unit StartSpec.elf_driver terminal _ unit 0 example_links example_shutdown 1 0 [] [] example_machine = Blocked s' k ∧
    shown 0 s' = text (line "Startup fallback code ends.") ++ text (line "Kernel: System shutdown started...") ++
      text (line "VFS: Entering forceful unmount of all filesystems.") ++ text (line "VFS: Forcefully unmounting volume [v]") ++
      text (line "Kernel: System shutdown complete, powering off") ∧
    port_writes (devs (sys s')) = [(0xb0001000, POWEROFF_SHUTDOWN_MAGIC)].
Proof.
  destruct (@startup_fallback_powers_off unit StartSpec.elf_driver terminal _ _ _ unit 0 example_links example_shutdown 1 0
    (λ d, ex_intro _ VFS_OK (ex_intro _ d eq_refl)) example_machine [] []) as (s' & Hrun & Hs & _ & _ & Hw).
  - reflexivity.
  - cbn. lia.
  - constructor; [done|done|by vm_compute| |done]. constructor; try by vm_compute. by apply (bool_decide_unpack _).
  - by vm_compute.
  - by vm_compute.
  - assert (found_write example_links (devs (sys example_machine)) POWEROFF_SHUTDOWN_MAGIC ++
      poweroff_writes example_shutdown POWEROFF_SHUTDOWN_MAGIC = [(0xb0001000, POWEROFF_SHUTDOWN_MAGIC)]) as Hws by (by vm_compute).
    rewrite Hws in Hrun, Hs, Hw. destruct Hrun as [k Hrun]. exists s', k. split; [exact Hrun|]. split; [|exact Hw].
    rewrite Hs. vm_compute. reflexivity.
Defined.
End MainSpec.
