(* ===== verification/Userheap.v ===== *)
(** * The heap of user programs (tests/lib.c)

    heap_init, malloc, free, calloc and realloc on the bytes of the array
    [heap] of the program, which hold the headers of the blocks: the size of a
    block and, while it is free, the next free block. *)
From S2P Require Import Prelude Bytes.

Module Userheap.

Definition HEAP_SIZE : Z := 256.
Definition MIN_ALLOC_SIZE : Z := 8.
Definition SIZEOF_SIZE_T : Z := 4.

(** The pointer free_list and the bytes of the array heap. *)
Record uheap_t := Uheap { free_list : Z; heap : list Z }.
#[export] Instance eta_uheap : Eta uheap_t := fun s => Uheap (free_list s) (heap s).

Abbreviation H A := (M uheap_t A).

(** A [free_block_t **]: &free_list or the field next of a block. *)
Inductive link_t := ListHead | NextOf (block : Z).

Section heap.
(** The address of the array. *)
Variable heap_addr : Z.

(** An access outside the array is undefined, a word that is not aligned is an
    exception of the processor. *)
Definition get_word (a : Z) : H Z :=
  h ← gets heap;
  if decide (a `mod` 4 = 0) then oread (ld32 h (a - heap_addr)) else fault.
Definition set_word (a w : Z) : H unit :=
  h ← gets heap;
  if decide (a `mod` 4 = 0) then
    h' ← oread (st32 h (a - heap_addr) w);
    modify (λ s, s <| heap := h' |>)
  else fault.
Definition get_byte (a : Z) : H Z := h ← gets heap; oread (arr_get h (a - heap_addr)).
Definition set_byte (a c : Z) : H unit :=
  h ← gets heap;
  h' ← oread (arr_set h (a - heap_addr) c);
  modify (λ s, s <| heap := h' |>).

(** The fields of a free_block_t. *)
Definition get_size (block : Z) : H Z := get_word block.
Definition set_size (block size : Z) : H unit := set_word block size.
Definition get_next (block : Z) : H Z := get_word (block + 4).
Definition set_next (block next : Z) : H unit := set_word (block + 4) next.
Definition set_link (p : link_t) (block : Z) : H unit :=
  match p with
  | ListHead => modify (λ s, s <| free_list := block |>)
  | NextOf b => set_next b block
  end.

Definition heap_init : H unit :=
  modify (λ s, s <| free_list := heap_addr |>);;
  block ← gets free_list;
  set_size block HEAP_SIZE;;
  set_next block 0.

(** The size of a request: at least MIN_ALLOC_SIZE, and a multiple of 4. *)
Definition round_size (size : Z) : Z :=
  let size := if decide (size < MIN_ALLOC_SIZE) then MIN_ALLOC_SIZE else size in
  if decide (size `mod` 4 ≠ 0) then u32 (Z.land size 0xFFFFFFFC + 4) else size.

(** The loop over the free blocks.  The array has 64 words: a list of more than
    [fuel] = 64 blocks is cyclic, and the loop, which changes nothing before it
    returns, goes on for ever. *)
Fixpoint malloc_loop (fuel : nat) (block : Z) (prev_p : link_t) (size : Z) : H Z :=
  if decide (block = 0) then mret 0 else
  match fuel with
  | O => spin
  | S f =>
    block_size ← get_size block;
    if decide (MIN_ALLOC_SIZE + SIZEOF_SIZE_T ≤ i32 (block_size - size - SIZEOF_SIZE_T)) then
      set_size block (u32 (block_size - (size + SIZEOF_SIZE_T)));;
      block_size ← get_size block;
      let new_block := u32 (block + block_size) in
      set_size new_block (u32 (size + SIZEOF_SIZE_T));;
      mret (u32 (new_block + SIZEOF_SIZE_T))
    else if decide (u32 (size + SIZEOF_SIZE_T) ≤ block_size) then
      next ← get_next block;
      set_link prev_p next;;
      mret (u32 (block + SIZEOF_SIZE_T))
    else
      next ← get_next block;
      malloc_loop f next (NextOf block) size
  end.

Definition malloc (size : Z) : H Z :=
  if decide (size = 0) then mret 0 else
  block ← gets free_list;
  malloc_loop 64 block ListHead (round_size size).

(** Put [block] between [prev_block] and [cur_block], and merge it with them. *)
Definition insert_block (block prev_block cur_block : Z) : H unit :=
  (if decide (prev_block = 0) then modify (λ s, s <| free_list := block |>)
   else set_next prev_block block);;
  set_next block cur_block;;
  block ← (if decide (prev_block ≠ 0) then
             prev_size ← get_size prev_block;
             if decide (u32 (block - prev_block) = prev_size) then
               size ← get_size block;
               set_size prev_block (u32 (prev_size + size));;
               set_next prev_block cur_block;;
               mret prev_block
             else mret block
           else mret block);
  if decide (cur_block ≠ 0) then
    size ← get_size block;
    if decide (u32 (cur_block - block) = size) then
      cur_size ← get_size cur_block;
      set_size block (u32 (size + cur_size));;
      cur_next ← get_next cur_block;
      set_next block cur_next
    else mret tt
  else mret tt.

Fixpoint free_loop (fuel : nat) (block prev_block cur_block : Z) : H unit :=
  match fuel with
  | O => spin
  | S f =>
    if decide (block < cur_block ∨ cur_block = 0) then insert_block block prev_block cur_block
    else
      next ← get_next cur_block;
      free_loop f block cur_block next
  end.

Definition free (ptr : Z) : H unit :=
  if decide (ptr ≠ 0) then
    let block := u32 (ptr - SIZEOF_SIZE_T) in
    cur_block ← gets free_list;
    free_loop 65 block 0 cur_block
  else mret tt.

Definition calloc (nmemb size : Z) : H Z :=
  ptr ← malloc (u32 (nmemb * size));
  (if decide (ptr ≠ 0) then
     for_loop (Z.to_nat (u32 (nmemb * size))) 0 (λ i, set_byte (ptr + i) 0)
   else mret tt);;
  mret ptr.

Definition realloc (ptr size : Z) : H Z :=
  if decide (ptr = 0) then malloc size
  else if decide (size = 0) then free ptr;; mret 0
  else
    new_ptr ← malloc size;
    (if decide (new_ptr ≠ 0) then
       for_loop (Z.to_nat size) 0 (λ i, c ← get_byte (ptr + i); set_byte (new_ptr + i) c);;
       free ptr
     else mret tt);;
    mret new_ptr.
End heap.
End Userheap.
