(* ===== verification/Heaplayout.v ===== *)
(** * Layouts of the user heap

    A layout is the list of the blocks that tile the array, each used or free;
    it determines the words that the allocator keeps in the array: the size of
    every block and, in a free block, the address of the next one.  Here are the
    facts about layouts alone and about the accesses to a heap that has one. *)
From S2P Require Import Prelude Bytes Userheap.
Import Userheap.

Module Heaplayout.

(** A block: whether it is used, and its size with the header. *)
Definition block_t : Type := bool * Z.

Definition total (L : list block_t) : Z := foldr (λ b x, b.2 + x) 0 L.
Definition block_ok (b : block_t) : Prop := 12 ≤ b.2 ∧ b.2 `mod` 4 = 0.
Definition used (b : block_t) : Prop := b.1 = true.

(** Free neighbours become one block. *)
Definition cons_free (n : Z) (L : list block_t) : list block_t :=
  match L with (false, m) :: L' => (false, n + m) :: L' | _ => (false, n) :: L end.
Fixpoint coalesce (L : list block_t) : list block_t :=
  match L with
  | [] => []
  | (true, n) :: L' => (true, n) :: coalesce L'
  | (false, n) :: L' => cons_free n (coalesce L')
  end.

(** Offset [i] is in the part of a used block that the program may use. *)
Fixpoint in_used (o : Z) (L : list block_t) (i : Z) : Prop :=
  match L with
  | [] => False
  | (u, n) :: L' => (u = true ∧ o + 4 ≤ i < o + n) ∨ in_used (o + n) L' i
  end.

Section layout.
Variable heap_addr : Z.

(** The address of the first free block, [nxt] when there is none; of the last
    one, [acc] when there is none. *)
Fixpoint first_free (o : Z) (L : list block_t) (nxt : Z) : Z :=
  match L with
  | [] => nxt
  | (true, n) :: L' => first_free (o + n) L' nxt
  | (false, _) :: _ => heap_addr + o
  end.
Fixpoint last_free (o : Z) (L : list block_t) (acc : Z) : Z :=
  match L with
  | [] => acc
  | (true, n) :: L' => last_free (o + n) L' acc
  | (false, n) :: L' => last_free (o + n) L' (heap_addr + o)
  end.

(** The words of the allocator, by their offset. *)
Fixpoint headers (o : Z) (L : list block_t) (nxt : Z) : list (Z * Z) :=
  match L with
  | [] => []
  | (true, n) :: L' => (o, n) :: headers (o + n) L' nxt
  | (false, n) :: L' => (o, n) :: (o + 4, first_free (o + n) L' nxt) :: headers (o + n) L' nxt
  end.

Definition holds (h : list Z) (ws : list (Z * Z)) : Prop := Forall (λ w, ld32 h w.1 = Some w.2) ws.

(** The blocks handed out: the pointer and the bytes behind it. *)
Fixpoint allocated (o : Z) (L : list block_t) : list (Z * Z) :=
  match L with
  | [] => []
  | (true, n) :: L' => (heap_addr + o + 4, n - 4) :: allocated (o + n) L'
  | (false, n) :: L' => allocated (o + n) L'
  end.

(** First fit: a block that leaves 12 bytes or more is cut at its end, a
    smaller one is taken whole.  The pointer and the new layout. *)
Fixpoint alloc (k o : Z) (L : list block_t) : option (Z * list block_t) :=
  match L with
  | [] => None
  | (true, n) :: L' => r ← alloc k (o + n) L'; Some (r.1, (true, n) :: r.2)
  | (false, n) :: L' =>
    if decide (12 ≤ n - k) then Some (heap_addr + (o + (n - k)) + 4, (false, n - k) :: (true, k) :: L')
    else if decide (k ≤ n) then Some (heap_addr + o + 4, (true, n) :: L')
    else r ← alloc k (o + n) L'; Some (r.1, (false, n) :: r.2)
  end.

(** The free list and the array agree with the layout up to the end of [L],
    where the list goes on with [nxt]. *)
Record chain (s : uheap_t) (L : list block_t) (nxt : Z) : Prop := {
  ch_head : free_list s = first_free 0 L nxt;
  ch_words : holds (heap s) (headers 0 L nxt) }.

Record heap_ok (s : uheap_t) (L : list block_t) : Prop := {
  ho_length : Z.of_nat (length (heap s)) = HEAP_SIZE;
  ho_total : total L = HEAP_SIZE;
  ho_blocks : Forall block_ok L;
  ho_coalesced : coalesce L = L;
  ho_chain : chain s L 0 }.

(** ** Lists of blocks *)

Lemma total_app L1 L2 : total (L1 ++ L2) = total L1 + total L2.
Proof. induction L1 as [|[u n] L1 IH]; [done|]. cbn. fold (total (L1 ++ L2)) (total L1). lia. Qed.
Lemma total_cons u n L : total ((u, n) :: L) = n + total L.
Proof. done. Qed.
Lemma total_ok L : Forall block_ok L → 12 * Z.of_nat (length L) ≤ total L ∧ total L `mod` 4 = 0.
Proof.
  induction 1 as [|[u n] L [Hn Hm] _ IH]; [done|]. cbn in Hn, Hm. rewrite total_cons. cbn [length].
  split; [lia|]. rewrite Z.add_mod; [lia|]. by rewrite Hm (proj2 IH).
Qed.

Lemma first_free_app o L1 L2 nxt :
  first_free o (L1 ++ L2) nxt = first_free o L1 (first_free (o + total L1) L2 nxt).
Proof.
  revert o. induction L1 as [|[[] n] L1 IH]; intros o; cbn [app first_free]; [by rewrite Z.add_0_r| |done].
  rewrite IH total_cons. by rewrite Z.add_assoc.
Qed.
Lemma last_free_app o L1 L2 acc :
  last_free o (L1 ++ L2) acc = last_free (o + total L1) L2 (last_free o L1 acc).
Proof.
  revert o acc. induction L1 as [|[[] n] L1 IH]; intros o acc; cbn [app last_free];
    [by rewrite Z.add_0_r| |]; rewrite IH total_cons; by rewrite Z.add_assoc.
Qed.
Lemma headers_app o L1 L2 nxt :
  headers o (L1 ++ L2) nxt =
    headers o L1 (first_free (o + total L1) L2 nxt) ++ headers (o + total L1) L2 nxt.
Proof.
  revert o. induction L1 as [|[[] n] L1 IH]; intros o; cbn [app headers]; [by rewrite Z.add_0_r| |];
    rewrite IH total_cons ?first_free_app; by rewrite ?Z.add_assoc.
Qed.
Lemma allocated_app o L1 L2 : allocated o (L1 ++ L2) = allocated o L1 ++ allocated (o + total L1) L2.
Proof.
  revert o. induction L1 as [|[[] n] L1 IH]; intros o; cbn [app allocated]; [by rewrite Z.add_0_r| |];
    rewrite IH total_cons; by rewrite Z.add_assoc.
Qed.
Lemma in_used_app o L1 L2 i : in_used o (L1 ++ L2) i ↔ in_used o L1 i ∨ in_used (o + total L1) L2 i.
Proof.
  revert o. induction L1 as [|[u n] L1 IH]; intros o; cbn [app in_used].
  - rewrite Z.add_0_r. tauto.
  - rewrite IH total_cons Z.add_assoc. tauto.
Qed.
Lemma in_used_range o L i : Forall block_ok L → in_used o L i → o + 4 ≤ i < o + total L.
Proof.
  intros HL. revert o. induction HL as [|[u n] L [Hn _] HL IH]; intros o; cbn [in_used]; [done|].
  cbn in Hn. pose proof (total_ok L HL). rewrite total_cons. intros [?|Hi]; [lia|]. apply IH in Hi. lia.
Qed.

Lemma headers_range o L nxt : Forall block_ok L → o `mod` 4 = 0 →
  Forall (λ w, o ≤ w.1 ∧ w.1 + 4 ≤ o + total L ∧ w.1 `mod` 4 = 0) (headers o L nxt).
Proof.
  intros HL. revert o. induction HL as [|[u n] L [Hn Hm] HL IH]; intros o Ho; [constructor|].
  cbn in Hn, Hm. pose proof (total_ok L HL). rewrite total_cons.
  assert ((o + n) `mod` 4 = 0) as Ho' by (rewrite Z.add_mod; [lia|]; by rewrite Ho Hm).
  assert (Forall (λ w, o ≤ w.1 ∧ w.1 + 4 ≤ o + (n + total L) ∧ w.1 `mod` 4 = 0) (headers (o + n) L nxt)) as Hr.
  { eapply Forall_impl; [apply (IH _ Ho')|]. cbn. intros w Hw. destruct Hw as (?&?&?). split_and!; lia. }
  assert ((o + 4) `mod` 4 = 0) by zdm.
  destruct u; cbn [headers]; repeat constructor; cbn; try lia; done.
Qed.

(** The last and the first free block of a list. *)
Lemma last_free_cases o L acc :
  (Forall used L ∧ last_free o L acc = acc) ∨
  ∃ L1 m U, L = L1 ++ (false, m) :: U ∧ Forall used U ∧ last_free o L acc = heap_addr + o + total L1.
Proof.
  induction L as [|[u n] L IH] using rev_ind; [by left|]. rewrite last_free_app. destruct u; cbn [last_free].
  - destruct IH as [[HL ->]|(L1 & m & U & -> & HU & ->)].
    + left. split; [|done]. apply Forall_app_2; [done|]. by constructor.
    + right. exists L1, m, (U ++ [(true, n)]). rewrite -app_assoc. split_and!; [done| |done].
      apply Forall_app_2; [done|]. by constructor.
  - right. exists L, n, []. split_and!; [done|constructor|lia].
Qed.
Lemma first_free_cases o L nxt :
  (Forall used L ∧ first_free o L nxt = nxt) ∨
  ∃ U m L2, L = U ++ (false, m) :: L2 ∧ Forall used U ∧ first_free o L nxt = heap_addr + o + total U.
Proof.
  revert o. induction L as [|[u n] L IH]; intros o; [by left|]. destruct u; cbn [first_free].
  - destruct (IH (o + n)) as [[HL ->]|(U & m & L2 & -> & HU & ->)].
    + left. split; [|done]. by constructor.
    + right. exists ((true, n) :: U), m, L2. split_and!; [done|by constructor|]. rewrite total_cons. lia.
  - right. exists [], n, L. split_and!; [done|constructor|]. cbn. lia.
Qed.

Lemma first_free_used o U nxt : Forall used U → first_free o U nxt = nxt.
Proof. intros HU. revert o. induction HU as [|[u n] U Hu _ IH]; intros o; [done|]. red in Hu. cbn in Hu. subst u. apply IH. Qed.
Lemma headers_used o U nxt nxt' : Forall used U → headers o U nxt = headers o U nxt'.
Proof.
  intros HU. revert o. induction HU as [|[u n] U Hu _ IH]; intros o; [done|]. red in Hu. cbn in Hu. subst u.
  cbn [headers]. by rewrite IH.
Qed.

(** ** Merging *)

Lemma cons_free_cons_free m n L : cons_free m (cons_free n L) = cons_free (m + n) L.
Proof. destruct L as [|[[] x] L]; cbn; [done|done|]. by rewrite Z.add_assoc. Qed.

Lemma coalesce_two L1 m n L2 :
  coalesce (L1 ++ (false, m) :: (false, n) :: L2) = coalesce (L1 ++ (false, m + n) :: L2).
Proof.
  induction L1 as [|[[] x] L1 IH]; cbn [app coalesce]; [apply cons_free_cons_free| |]; by rewrite IH.
Qed.
Lemma coalesce_mid L1 n L2 : coalesce (L1 ++ (true, n) :: L2) = coalesce L1 ++ (true, n) :: coalesce L2.
Proof.
  induction L1 as [|[[] x] L1 IH]; cbn [app coalesce]; [done| |]; rewrite IH; [done|].
  by destruct (coalesce L1) as [|[[] y] l].
Qed.
Lemma length_coalesce L : (length (coalesce L) ≤ length L)%nat.
Proof.
  induction L as [|[[] x] L IH]; cbn; [done|lia|]. destruct (coalesce L) as [|[[] y] l]; cbn in *; lia.
Qed.

(** Both sides of a used block are coalesced on their own. *)
Lemma coalesced_mid L1 n L2 :
  coalesce (L1 ++ (true, n) :: L2) = L1 ++ (true, n) :: L2 → coalesce L1 = L1 ∧ coalesce L2 = L2.
Proof.
  rewrite coalesce_mid. intros Heq.
  pose proof (length_coalesce L1). pose proof (length_coalesce L2).
  pose proof (f_equal length Heq) as Hl. rewrite !length_app in Hl. cbn in Hl.
  apply app_inj_1 in Heq as [-> Heq]; [|lia]. split; [done|]. congruence.
Qed.

Lemma coalesce_app L1 L2 :
  (∀ L n, L1 ≠ L ++ [(false, n)]) → coalesce (L1 ++ L2) = coalesce L1 ++ coalesce L2.
Proof.
  intros HL. destruct L1 as [|[u x] L1 _] using rev_ind; [done|]. destruct u; [|by destruct (HL L1 x)].
  by rewrite -app_assoc !coalesce_mid -app_assoc.
Qed.

(** No two free neighbours. *)
Fixpoint apart (L : list block_t) : Prop :=
  match L with
  | (false, _) :: (((false, _) :: _) as L') => False
  | _ :: L' => apart L'
  | [] => True
  end.

Lemma apart_cons b L : apart (b :: L) → apart L.
Proof. destruct b as [[] n], L as [|[[] m] L]; cbn; done. Qed.
Lemma coalesced_apart L : coalesce L = L ↔ apart L.
Proof.
  split.
  - induction L as [|[[] n] L IH]; [done| |]; cbn [coalesce]; intros Heq.
    { injection Heq as Heq. specialize (IH Heq). by destruct L as [|[[] m] L]. }
    pose proof (length_coalesce L) as Hl. destruct (coalesce L) as [|[[] m] l] eqn:El; cbn in Heq, Hl.
    + injection Heq as <-. done.
    + injection Heq as <-. apply IH. done.
    + injection Heq as Hm ->. lia.
  - induction L as [|[[] n] L IH]; [done| |]; intros Ha; cbn [coalesce]; rewrite (IH (apart_cons _ _ Ha)); [done|].
    destruct L as [|[[] m] L]; done.
Qed.
Lemma apart_app L1 b L2 : apart (L1 ++ b :: L2) ↔ apart (L1 ++ [b]) ∧ apart (b :: L2).
Proof.
  induction L1 as [|[[] n] L1 IH]; cbn [app].
  - destruct b as [[] m]; cbn; tauto.
  - destruct L1 as [|[[] m] L1]; cbn [app apart] in *; [|exact IH..]. destruct b as [[] m]; cbn in *; tauto.
  - destruct L1 as [|[[] m] L1]; cbn [app apart] in *; [|exact IH|tauto]. destruct b as [[] m]; cbn in *; tauto.
Qed.
Lemma apart_size L n m : apart (L ++ [(false, n)]) → apart (L ++ [(false, m)]).
Proof.
  induction L as [|[[] x] L IH]; [done| |]; destruct L as [|[[] y] L]; cbn [app apart] in *; tauto.
Qed.
Lemma apart_last_used L n : apart L → apart (L ++ [(true, n)]).
Proof. induction L as [|[[] x] L IH]; [done| |]; destruct L as [|[[] y] L]; cbn [app apart] in *; tauto. Qed.
Lemma apart_prefix L1 L2 : apart (L1 ++ L2) → apart L1.
Proof.
  revert L2. induction L1 as [|[[] x] L1 IH]; intros L2; [done| |]; destruct L1 as [|[[] y] L1];
    cbn [app apart] in *; try done; apply IH.
Qed.

(** ** The blocks handed out *)

Lemma allocated_coalesce o L : allocated o (coalesce L) = allocated o L.
Proof.
  revert o. induction L as [|[[] n] L IH]; intros o; [done| |]; cbn [coalesce allocated]; [by rewrite IH|].
  rewrite -IH. destruct (coalesce L) as [|[[] m] l]; [done..|]. cbn [cons_free allocated]. by rewrite Z.add_assoc.
Qed.

Lemma allocated_inside o L p c : Forall block_ok L → o `mod` 4 = 0 → heap_addr `mod` 4 = 0 →
  (p, c) ∈ allocated o L →
  heap_addr + o + 4 ≤ p ∧ 8 ≤ c ∧ p + c ≤ heap_addr + o + total L ∧ p `mod` 4 = 0 ∧
  ∀ i, p - heap_addr ≤ i < p - heap_addr + c → in_used o L i.
Proof.
  intros HL Ho Hh. revert o Ho. induction HL as [|[u n] L [Hn Hm] HL IH]; intros o Ho; [by intros ?%elem_of_nil|].
  cbn in Hn, Hm. rewrite total_cons. pose proof (total_ok L HL). cbn [in_used].
  assert ((p, c) ∈ allocated (o + n) L →
    heap_addr + o + 4 ≤ p ∧ 8 ≤ c ∧ p + c ≤ heap_addr + o + (n + total L) ∧ p `mod` 4 = 0 ∧
    ∀ i, p - heap_addr ≤ i < p - heap_addr + c → (u = true ∧ o + 4 ≤ i < o + n) ∨ in_used (o + n) L i) as Hrec.
  { intros Hp. destruct (IH (o + n)) as (?&?&?&?&Hi); [rewrite Z.add_mod; [lia|]; by rewrite Ho Hm|done|].
    split_and!; [lia..|done|]. intros i ?. right. by apply Hi. }
  destruct u; cbn [allocated]; [|exact Hrec]. intros [Hp|Hp]%elem_of_cons; [|by apply Hrec].
  injection Hp as -> ->. split_and!; [lia..|zdm|]. intros i Hi. left. split; [done|lia].
Qed.

Lemma allocated_apart o L p c q d : Forall block_ok L → o `mod` 4 = 0 → heap_addr `mod` 4 = 0 →
  (p, c) ∈ allocated o L → (q, d) ∈ allocated o L → (p = q ∧ c = d) ∨ p + c ≤ q ∨ q + d ≤ p.
Proof.
  intros HL Ho Hh. revert o Ho. induction HL as [|[u n] L [Hn Hm] HL IH]; intros o Ho; [by intros ?%elem_of_nil|].
  cbn in Hn, Hm. assert ((o + n) `mod` 4 = 0) as Ho' by (rewrite Z.add_mod; [lia|]; by rewrite Ho Hm).
  destruct u; cbn [allocated]; [|by apply IH].
  intros [Hp|Hp]%elem_of_cons [Hq|Hq]%elem_of_cons.
  - left. by simplify_eq.
  - injection Hp as -> ->. apply allocated_inside in Hq; [lia|done..].
  - injection Hq as -> ->. apply allocated_inside in Hp; [lia|done..].
  - by apply (IH (o + n)).
Qed.

Lemma allocated_NoDup o L : Forall block_ok L → o `mod` 4 = 0 → heap_addr `mod` 4 = 0 →
  NoDup (allocated o L).*1.
Proof.
  intros HL Ho Hh. revert o Ho. induction HL as [|[u n] L [Hn Hm] HL IH]; intros o Ho; [constructor|].
  cbn in Hn, Hm. assert ((o + n) `mod` 4 = 0) as Ho' by (rewrite Z.add_mod; [lia|]; by rewrite Ho Hm).
  destruct u; cbn [allocated]; [|by apply IH]. constructor; [|by apply IH].
  intros ([p c] & Hp & Hin)%list_elem_of_fmap. cbn in Hp. apply allocated_inside in Hin; [lia|done..].
Qed.

(** ** First fit *)

Lemma alloc_cases k o L p L' : alloc k o L = Some (p, L') →
  ∃ A n B, L = A ++ (false, n) :: B ∧ (∀ m, (false, m) ∈ A → m < k) ∧ k ≤ n ∧
    ((12 ≤ n - k ∧ p = heap_addr + (o + total A + (n - k)) + 4 ∧ L' = A ++ (false, n - k) :: (true, k) :: B) ∨
     (n - k < 12 ∧ p = heap_addr + (o + total A) + 4 ∧ L' = A ++ (true, n) :: B)).
Proof.
  revert o L'. induction L as [|[u n] L IH]; intros o L'; [done|].
  assert ((∀ m, (u, n) = (false, m) → m < k) → (r ← alloc k (o + n) L; Some (r.1, (u, n) :: r.2)) = Some (p, L') →
    ∃ A x B, (u, n) :: L = A ++ (false, x) :: B ∧ (∀ m, (false, m) ∈ A → m < k) ∧ k ≤ x ∧
    ((12 ≤ x - k ∧ p = heap_addr + (o + total A + (x - k)) + 4 ∧ L' = A ++ (false, x - k) :: (true, k) :: B) ∨
     (x - k < 12 ∧ p = heap_addr + (o + total A) + 4 ∧ L' = A ++ (true, x) :: B))) as Hrec.
  { intros Hu. destruct (alloc k (o + n) L) as [[q L1]|] eqn:E; [|done]. cbn. intros [= -> <-].
    destruct (IH _ _ E) as (A & x & B & -> & HA & Hx & Hc). exists ((u, n) :: A), x, B.
    split_and!; [done| |done|].
    - intros m [Hm|Hm]%elem_of_cons; [by apply Hu|by apply HA].
    - rewrite total_cons. destruct Hc as [(?&->&->)|(?&->&->)]; [left|right]; split_and!; [done|lia|done..|lia|done]. }
  destruct u; cbn [alloc].
  - by apply Hrec.
  - case_decide as H1; [|case_decide as H2].
    + intros [= <- <-]. exists [], n, L. cbn. rewrite Z.add_0_r. split_and!; [done|by intros m ?%elem_of_nil|lia|by left].
    + intros [= <- <-]. exists [], n, L. cbn. rewrite Z.add_0_r. split_and!; [done|by intros m ?%elem_of_nil|lia|right].
      split_and!; [lia|done..].
    + apply Hrec. intros m [= <-]. lia.
Qed.

Lemma alloc_fails k o L : alloc k o L = None → ∀ n, (false, n) ∈ L → n < k.
Proof.
  revert o. induction L as [|[u n] L IH]; intros o; cbn [alloc]; [intros _ n ?%elem_of_nil; done|].
  destruct u; [|case_decide; [done|]; case_decide as H2; [done|]];
    (destruct (alloc k (o + n) L) eqn:E; [done|]); intros _ m [Hm|Hm]%elem_of_cons; try done; try by apply (IH _ E).
  injection Hm as ->. lia.
Qed.

(** The new layout tiles the array in the same way. *)
Lemma alloc_ok k o L p L' :
  12 ≤ k → k `mod` 4 = 0 → alloc k o L = Some (p, L') → Forall block_ok L →
  total L' = total L ∧ Forall block_ok L' ∧ (coalesce L = L → coalesce L' = L').
Proof.
  intros Hk Hk4 Ha HL. destruct (alloc_cases _ _ _ _ _ Ha) as (A & n & B & -> & _ & Hn & Hc).
  apply Forall_app in HL as [HA HL]. apply Forall_cons in HL as [[Hn12 Hn4] HB]. cbn in Hn12, Hn4.
  rewrite !coalesced_apart (apart_app A (false, n) B).
  destruct Hc as [(Hr & _ & ->)|(Hr & _ & ->)]; (split_and!; [rewrite !total_app !total_cons; lia| |]).
  - apply Forall_app_2; [done|]. constructor; [split; cbn; [done|zdm]|]. by constructor.
  - intros [H1 H2]. apply apart_app. split; [by apply (apart_size A n)|]. cbn. by apply apart_cons in H2.
  - apply Forall_app_2; [done|]. by constructor.
  - intros [H1 H2]. apply apart_app. split; [|cbn; by apply apart_cons in H2].
    apply apart_last_used. by apply apart_prefix in H1.
Qed.

Lemma alloc_allocated k o L p L' : alloc k o L = Some (p, L') →
  ∃ c, k - 4 ≤ c < k + 8 ∧ allocated o L' ≡ₚ (p, c) :: allocated o L.
Proof.
  intros Ha. destruct (alloc_cases _ _ _ _ _ Ha) as (A & n & B & -> & _ & Hn & Hc).
  destruct Hc as [(Hr & -> & ->)|(Hr & -> & ->)]; [exists (k - 4)|exists (n - 4)]; (split; [lia|]);
    rewrite !allocated_app; cbn [allocated].
  - replace (o + total A + (n - k) + k) with (o + total A + n) by lia. rewrite -Permutation_middle. f_equiv.
  - by rewrite -Permutation_middle.
Qed.
End layout.

Arguments holds _ _ /.
#[export] Hint Resolve Forall_app_2 : buenos.
End Heaplayout.
