(* ===== verification/Heaprun.v ===== *)
(** * Runs of the allocator of user programs

    What malloc, free, calloc and realloc do on a heap with a layout: a first
    fit that cuts blocks at their end, and an insertion in address order that
    merges with both neighbours. *)
From S2P Require Import Prelude Bytes Userheap Heaplayout.
Import Userheap Heaplayout.

Module Heaprun.

Lemma round_size_ok size : 0 < size ≤ 2 ^ 31 - 16 →
  8 ≤ round_size size ≤ 2 ^ 31 - 12 ∧ round_size size `mod` 4 = 0 ∧ size ≤ round_size size ∧
  (8 ≤ size → round_size size < size + 4).
Proof.
  intros Hs. unfold round_size, MIN_ALLOC_SIZE.
  assert (∀ x, 0 ≤ x < 2 ^ 32 → Z.land x 0xFFFFFFFC = x - x `mod` 4) as Hland.
  { intros x Hx. change 0xFFFFFFFC with (Z.land (Z.ones 32) (Z.lnot (Z.ones 2))).
    rewrite Z.land_assoc Z.land_ones; [lia|]. rewrite (Z.mod_small x); [lia|]. rewrite -Z.ldiff_land Z.ldiff_ones_r; [lia|].
    rewrite Z.shiftl_mul_pow2 ?Z.shiftr_div_pow2; [lia..|]. change (2 ^ 2) with 4. zdm. }
  destruct (decide (size < 8)) as [H1|H1].
  - destruct (decide (8 `mod` 4 ≠ 0)) as [H2|_]; [by destruct H2|]. change (8 `mod` 4) with 0. lia.
  - case_decide as H2; [|lia]. rewrite Hland; [lia|]. rewrite u32_small; [zdm|]. zdm.
Qed.

Section run.
Variable heap_addr : Z.
Hypothesis heap_aligned : heap_addr `mod` 4 = 0.
Hypothesis heap_low : 0 < heap_addr.
Hypothesis heap_high : heap_addr + HEAP_SIZE < 2 ^ 32.

Local Abbreviation chain := (chain heap_addr).
Local Abbreviation headers := (headers heap_addr).
Local Abbreviation first_free := (first_free heap_addr).
Local Abbreviation last_free := (last_free heap_addr).
Local Abbreviation heap_ok := (heap_ok heap_addr).
Local Abbreviation allocated := (allocated heap_addr).

(** ** Accesses *)

Definition store (a w : Z) (s : uheap_t) : uheap_t := s <| heap := splice (heap s) a (be_split w) |>.

Lemma addr_aligned a : (heap_addr + a) `mod` 4 = a `mod` 4.
Proof. rewrite Z.add_mod; [lia|]. rewrite heap_aligned Z.add_0_l. by rewrite Z.mod_mod. Qed.

Lemma get_word_run s a w :
  a `mod` 4 = 0 → ld32 (heap s) a = Some w → get_word heap_addr (heap_addr + a) s = Done w s.
Proof.
  intros Ha Hw. unfold get_word. rewrite bind_gets addr_aligned decide_True //.
  replace (heap_addr + a - heap_addr) with a by lia. by rewrite Hw.
Qed.
Lemma set_word_run s a w :
  a `mod` 4 = 0 → 0 ≤ a → a + 4 ≤ Z.of_nat (length (heap s)) →
  set_word heap_addr (heap_addr + a) w s = Done tt (store a w s).
Proof.
  intros Ha H0 Hl. unfold set_word. rewrite bind_gets addr_aligned decide_True //.
  replace (heap_addr + a - heap_addr) with a by lia. by rewrite st32_splice.
Qed.

Lemma store_length a w s :
  0 ≤ a → a + 4 ≤ Z.of_nat (length (heap s)) → length (heap (store a w s)) = length (heap s).
Proof. intros. by apply length_splice. Qed.
Lemma store_get a w s i :
  0 ≤ a → a + 4 ≤ Z.of_nat (length (heap s)) → i < a ∨ a + 4 ≤ i →
  arr_get (heap (store a w s)) i = arr_get (heap s) i.
Proof. intros Ha Hl Hi. unfold store. rsimpl. rewrite arr_get_splice //. rewrite decide_False; [cbn; lia|done]. Qed.

Lemma holds_store a w s ws :
  0 ≤ a → a + 4 ≤ Z.of_nat (length (heap s)) → Forall (λ x, x.1 + 4 ≤ a ∨ a + 4 ≤ x.1) ws →
  holds (heap s) ws → holds (heap (store a w s)) ws.
Proof.
  intros Ha Hl Hws Hh. unfold holds in *. rewrite Forall_forall in Hws. rewrite Forall_forall in Hh.
  apply Forall_forall. intros x Hx. unfold store. rsimpl. rewrite ld32_splice_disj //; [cbn; specialize (Hws x Hx); lia|].
  by apply Hh.
Qed.
Lemma holds_stored a w s ws :
  0 ≤ a → a + 4 ≤ Z.of_nat (length (heap s)) → 0 ≤ w < 2 ^ 32 →
  holds (heap (store a w s)) ws → holds (heap (store a w s)) ((a, w) :: ws).
Proof. intros Ha Hl Hw Hh. constructor; [|done]. unfold store. rsimpl. by apply ld32_splice_word. Qed.

(** Every byte outside [lo, hi) is the same. *)
Definition same_but (lo hi : Z) (h h' : list Z) : Prop :=
  length h' = length h ∧ ∀ i, i < lo ∨ hi ≤ i → arr_get h' i = arr_get h i.

Lemma same_but_refl lo hi h : same_but lo hi h h.
Proof. done. Qed.
Lemma same_but_trans lo hi h h' h'' : same_but lo hi h h' → same_but lo hi h' h'' → same_but lo hi h h''.
Proof. intros [H1 H2] [H3 H4]. split; [congruence|]. intros i Hi. by rewrite H4 // H2. Qed.
Lemma same_but_weaken lo hi lo' hi' h h' : lo' ≤ lo → hi ≤ hi' → same_but lo hi h h' → same_but lo' hi' h h'.
Proof. intros ? ? [H1 H2]. split; [done|]. intros i Hi. apply H2. lia. Qed.
Lemma same_but_store a w s :
  0 ≤ a → a + 4 ≤ Z.of_nat (length (heap s)) → same_but a (a + 4) (heap s) (heap (store a w s)).
Proof. intros. split; [by apply store_length|]. intros i Hi. apply store_get; [done..|]. lia. Qed.

Lemma holds_same lo hi h h' ws :
  same_but lo hi h h' → Forall (λ x, x.1 + 4 ≤ lo ∨ hi ≤ x.1) ws → holds h ws → holds h' ws.
Proof.
  intros [_ Hs] Hws Hh. unfold holds in *. rewrite Forall_forall in Hws. rewrite Forall_forall in Hh.
  apply Forall_forall. intros x Hx. rewrite -(Hh x Hx). specialize (Hws x Hx). unfold ld32. rewrite !Hs; [lia..|done].
Qed.

(** ** Lists of words on both sides of an offset *)

Lemma headers_below L nxt (e : Z) :
  Forall block_ok L → total L ≤ e → Forall (λ x, x.1 + 4 ≤ e) (headers 0 L nxt).
Proof.
  intros HL He. eapply Forall_impl; [by apply (headers_range heap_addr 0 L nxt)|]. cbn. intros x Hx. lia.
Qed.
Lemma headers_above o L nxt (e : Z) :
  Forall block_ok L → o `mod` 4 = 0 → e ≤ o → Forall (λ x, e ≤ x.1) (headers o L nxt).
Proof.
  intros HL Ho He. eapply Forall_impl; [by apply (headers_range heap_addr o L nxt)|]. cbn. intros x Hx. lia.
Qed.

Lemma chain_block s L1 u n L2 nxt :
  chain s (L1 ++ (u, n) :: L2) nxt → ld32 (heap s) (total L1) = Some n.
Proof.
  intros [_ Hw]. rewrite headers_app in Hw. apply Forall_app in Hw as [_ Hw]. rewrite Z.add_0_l in Hw.
  destruct u; cbn in Hw; by apply Forall_cons in Hw as [Hw _].
Qed.
Lemma chain_next s L1 n L2 nxt :
  chain s (L1 ++ (false, n) :: L2) nxt → ld32 (heap s) (total L1 + 4) = Some (first_free (total L1 + n) L2 nxt).
Proof.
  intros [_ Hw]. rewrite headers_app in Hw. apply Forall_app in Hw as [_ Hw]. rewrite Z.add_0_l in Hw.
  cbn in Hw. apply Forall_cons in Hw as [_ Hw]. by apply Forall_cons in Hw as [Hw _].
Qed.

Lemma get_size_run s L1 u n L2 nxt :
  Forall block_ok L1 → chain s (L1 ++ (u, n) :: L2) nxt → get_size heap_addr (heap_addr + total L1) s = Done n s.
Proof. intros HL Hc. apply get_word_run; [by apply total_ok|]. exact (chain_block _ _ _ _ _ _ Hc). Qed.
Lemma get_next_run s L1 n L2 nxt :
  Forall block_ok L1 → chain s (L1 ++ (false, n) :: L2) nxt →
  get_next heap_addr (heap_addr + total L1) s = Done (first_free (total L1 + n) L2 nxt) s.
Proof.
  intros HL Hc. unfold get_next. rewrite -Z.add_assoc. apply get_word_run; [|exact (chain_next _ _ _ _ _ Hc)].
  pose proof (proj2 (total_ok L1 HL)). zdm.
Qed.

(** ** Links *)

Definition link_of (b : Z) : link_t := if decide (b = 0) then ListHead else NextOf b.

Lemma addr_nonzero a : 0 ≤ a → heap_addr + a ≠ 0.
Proof. lia. Qed.

(** Changing the link after the last free block of [L]. *)
Lemma set_link_run s L nxt nxt' :
  Forall block_ok L → total L ≤ Z.of_nat (length (heap s)) → 0 ≤ nxt' < 2 ^ 32 → chain s L nxt →
  ∃ s', set_link heap_addr (link_of (last_free 0 L 0)) nxt' s = Done tt s' ∧ chain s' L nxt' ∧
    length (heap s') = length (heap s) ∧
    ∀ i, (total L ≤ i ∨ in_used 0 L i) → arr_get (heap s') i = arr_get (heap s) i.
Proof.
  intros HL Hlen Hn [Hh Hw]. destruct (last_free_cases heap_addr 0 L 0) as [[HU ->]|(L1 & m & U & -> & HU & ->)].
  - exists (s <| free_list := nxt' |>). split; [done|]. split_and!; [|done|done]. constructor; rsimpl.
    + by rewrite first_free_used.
    + by rewrite (headers_used _ _ _ nxt' nxt).
  - apply Forall_app in HL as [HL1 HL]. apply Forall_cons in HL as [[Hm Hm4] HLU]. cbn in Hm, Hm4.
    pose proof (total_ok L1 HL1) as [Ht1 Ht4]. pose proof (total_ok U HLU) as [HtU _].
    rewrite total_app total_cons in Hlen.
    exists (store (total L1 + 4) nxt' s). rewrite Z.add_0_r. unfold link_of. rewrite decide_False; [lia|].
    assert (∀ i, i < total L1 + 4 ∨ total L1 + 8 ≤ i → arr_get (heap (store (total L1 + 4) nxt' s)) i = arr_get (heap s) i) as Hsame.
    { intros i Hi. apply store_get; lia. }
    split_and!.
    + cbn [set_link]. unfold set_next. rewrite -Z.add_assoc. apply set_word_run; [zdm|lia..].
    + constructor; unfold store; rsimpl.
      * rewrite Hh !first_free_app. done.
      * rewrite headers_app in Hw. rewrite headers_app. apply Forall_app in Hw as [Hw1 Hw2]. rewrite Z.add_0_l in Hw2. rewrite Z.add_0_l.
        cbn [headers first_free] in Hw2. apply Forall_cons in Hw2 as [Hw2 Hw3]. apply Forall_cons in Hw3 as [_ Hw3].
        cbn [headers first_free]. rewrite (first_free_used _ _ U) //.
        change (splice _ _ _) with (heap (store (total L1 + 4) nxt' s)).
        apply Forall_app_2; [|constructor; [|apply holds_stored; [lia..|]]].
        -- apply holds_store; [lia..| |done]. eapply Forall_impl; [apply (headers_below L1 _ (total L1)); [done|lia]|]. cbn. lia.
        -- cbn. rewrite -Hw2. cbn. unfold ld32. rewrite !Hsame; [lia..|done].
        -- apply holds_store; [lia..| |by rewrite (headers_used _ _ U nxt' nxt)].
           eapply Forall_impl; [apply (headers_above (total L1 + m) U _ (total L1 + 8)); [done|zdm|lia]|]. cbn. lia.
    + apply store_length; lia.
    + intros i Hi. apply Hsame. rewrite total_app total_cons in Hi. destruct Hi as [Hi|Hi]; [lia|].
      apply in_used_app in Hi as [Hi|Hi]; [apply in_used_range in Hi; [lia|done]|]. cbn [in_used] in Hi.
      destruct Hi as [[? _]|Hi]; [done|]. apply in_used_range in Hi; [|done]. lia.
Qed.
(** ** malloc *)

Local Abbreviation alloc := (alloc heap_addr).

Lemma last_free_used_end L n acc : last_free 0 (L ++ [(true, n)]) acc = last_free 0 L acc.
Proof. by rewrite last_free_app. Qed.
Lemma last_free_free_end L n acc : last_free 0 (L ++ [(false, n)]) acc = heap_addr + total L.
Proof. rewrite last_free_app. cbn. lia. Qed.

(** A block is cut at its end. *)
Lemma split_run s A n k B :
  Forall block_ok (A ++ (false, n) :: B) → total (A ++ (false, n) :: B) = HEAP_SIZE →
  Z.of_nat (length (heap s)) = HEAP_SIZE → chain s (A ++ (false, n) :: B) 0 →
  12 ≤ k → k `mod` 4 = 0 → 12 ≤ n - k →
  let s' := store (total A + (n - k)) k (store (total A) (n - k) s) in
  chain s' (A ++ (false, n - k) :: (true, k) :: B) 0 ∧ length (heap s') = length (heap s) ∧
  ∀ i, in_used 0 (A ++ (false, n) :: B) i → arr_get (heap s') i = arr_get (heap s) i.
Proof.
  intros HL Ht Hlen [Hh Hw] Hk Hk4 Hr s'. rewrite total_app total_cons in Ht. unfold HEAP_SIZE in *.
  apply Forall_app in HL as [HA HL]. apply Forall_cons in HL as [[Hn Hn4] HB]. cbn in Hn, Hn4.
  pose proof (total_ok A HA) as [HtA HA4]. pose proof (total_ok B HB) as [HtB _].
  set (s1 := store (total A) (n - k) s) in *.
  assert (length (heap s1) = length (heap s)) as Hl1 by (apply store_length; lia).
  assert (length (heap s') = length (heap s)) as Hl' by (rewrite -Hl1; apply store_length; lia).
  split_and!; [|done|].
  - rewrite headers_app in Hw. apply Forall_app in Hw as [Hw1 Hw2]. rewrite Z.add_0_l in Hw2. cbn [headers first_free] in Hw1, Hw2.
    apply Forall_cons in Hw2 as [_ Hw2]. apply Forall_cons in Hw2 as [Hw2 Hw3]. cbn in Hw2.
    assert (∀ ws, Forall (λ x, x.1 + 4 ≤ total A ∨ total A + 4 ≤ x.1 ∧ x.1 + 4 ≤ total A + (n - k) ∨ total A + (n - k) + 4 ≤ x.1) ws →
      holds (heap s) ws → holds (heap s') ws) as Hkeep.
    { intros ws Hws Hs. apply holds_store; [lia|lia| |apply holds_store; [lia|lia| |done]];
        (eapply Forall_impl; [exact Hws|]); cbn; lia. }
    constructor.
    + unfold s', s1, store. rsimpl. by rewrite Hh !first_free_app.
    + rewrite headers_app Z.add_0_l. cbn [headers first_free]. replace (total A + (n - k) + k) with (total A + n) by lia.
      apply Forall_app_2; [|constructor; [|constructor; [|constructor]]].
      * apply Hkeep; [|exact Hw1]. eapply Forall_impl; [apply (headers_below A _ (total A)); [done|lia]|]. cbn. lia.
      * cbn. unfold s', store. rsimpl. rewrite ld32_splice_disj; [lia|cbn; lia|cbn; lia|]. apply ld32_splice_word; lia.
      * cbn. specialize (Hkeep [(total A + 4, first_free (total A + n) B 0)]). cbn in Hkeep.
        rewrite !Forall_singleton in Hkeep. apply Hkeep; [cbn; lia|exact Hw2].
      * cbn. unfold s', store. rsimpl. apply ld32_splice_word; lia.
      * apply Hkeep; [|exact Hw3].
        eapply Forall_impl; [apply (headers_above (total A + n) B _ (total A + n)); [done|zdm|lia]|]. cbn. lia.
  - intros i Hi. apply in_used_app in Hi as [Hi|Hi].
    + apply in_used_range in Hi; [|done]. rewrite !store_get; [lia..|done].
    + cbn [in_used] in Hi. destruct Hi as [[? _]|Hi]; [done|]. apply in_used_range in Hi; [|done]. rewrite !store_get; [lia..|done].
Qed.

(** A block is taken whole. *)
Lemma take_run s A n B :
  Forall block_ok (A ++ (false, n) :: B) → total (A ++ (false, n) :: B) = HEAP_SIZE →
  Z.of_nat (length (heap s)) = HEAP_SIZE → chain s (A ++ (false, n) :: B) 0 →
  ∃ s', set_link heap_addr (link_of (last_free 0 A 0)) (first_free (total A + n) B 0) s = Done tt s' ∧
    chain s' (A ++ (true, n) :: B) 0 ∧ length (heap s') = length (heap s) ∧
    ∀ i, in_used 0 (A ++ (false, n) :: B) i → arr_get (heap s') i = arr_get (heap s) i.
Proof.
  intros HL Ht Hlen Hc. rewrite total_app total_cons in Ht. unfold HEAP_SIZE in *.
  apply Forall_app in HL as [HA HL]. apply Forall_cons in HL as [[Hn Hn4] HB]. cbn in Hn, Hn4.
  pose proof (total_ok A HA) as [HtA HA4]. pose proof (total_ok B HB) as [HtB _].
  set (nx := first_free (total A + n) B 0).
  assert (0 ≤ nx < 2 ^ 32) as Hnx.
  { unfold nx. destruct (first_free_cases heap_addr (total A + n) B 0) as [[_ ->]|(U & m & B' & -> & HU & ->)]; [lia|].
    apply Forall_app in HB as [HBU HB]. apply Forall_cons in HB as [[Hm _] HB']. cbn in Hm. rewrite total_app total_cons in Ht.
    pose proof (total_ok U HBU). pose proof (total_ok B' HB'). unfold HEAP_SIZE in heap_high. lia. }
  destruct Hc as [Hh Hw]. rewrite headers_app in Hw. apply Forall_app in Hw as [Hw1 Hw2]. rewrite Z.add_0_l in Hw2. cbn [headers first_free] in Hw1, Hw2.
  rewrite first_free_app in Hh.
  apply Forall_cons in Hw2 as [Hw2 Hw3]. apply Forall_cons in Hw3 as [_ Hw3].
  destruct (set_link_run s A (first_free (0 + total A) ((false, n) :: B) 0) nx) as (s' & Hrun & [Hh' Hw'] & Hl & Hsame); [done|lia|lia|by constructor|].
  exists s'. split_and!; [done| |done|].
  - constructor.
    + rewrite Hh' first_free_app. done.
    + rewrite headers_app. apply Forall_app_2; [exact Hw'|]. rewrite Z.add_0_l. cbn [headers].
      assert (same_but 0 (total A) (heap s) (heap s')) as Hsb by (split; [done|]; intros i [Hi|Hi]; [|apply Hsame; lia]; unfold arr_get; rewrite !decide_False; lia || done).
      apply (holds_same _ _ _ _ _ Hsb).
      * constructor; [cbn; lia|].
        eapply Forall_impl; [apply (headers_above (total A + n) B _ (total A)); [done|zdm|lia]|]. cbn. lia.
      * by constructor.
  - intros i Hi. apply Hsame. apply in_used_app in Hi as [Hi|Hi]; [by right|]. left.
    cbn [in_used] in Hi. destruct Hi as [[? _]|Hi]; [done|]. apply in_used_range in Hi; [lia|done].
Qed.
Lemma block_bounds A u n B :
  Forall block_ok (A ++ (u, n) :: B) → total (A ++ (u, n) :: B) = HEAP_SIZE →
  Forall block_ok A ∧ 12 ≤ n ∧ n `mod` 4 = 0 ∧ Forall block_ok B ∧ 0 ≤ total A ∧ total A `mod` 4 = 0 ∧
  0 ≤ total B ∧ total A + n + total B = HEAP_SIZE.
Proof.
  intros HL Ht. rewrite total_app total_cons in Ht.
  apply Forall_app in HL as [HA HL]. apply Forall_cons in HL as [[Hn Hn4] HB]. cbn in Hn, Hn4.
  pose proof (total_ok A HA) as [HtA HA4]. pose proof (total_ok B HB) as [HtB _].
  split_and!; [done..|lia|done|lia|lia].
Qed.

Lemma malloc_loop_run B : ∀ A s fuel size,
  Forall block_ok (A ++ B) → total (A ++ B) = HEAP_SIZE → Z.of_nat (length (heap s)) = HEAP_SIZE →
  chain s (A ++ B) 0 → 8 ≤ size ≤ 2 ^ 31 → size `mod` 4 = 0 → (length B ≤ fuel)%nat →
  match alloc (size + 4) (total A) B with
  | None => malloc_loop heap_addr fuel (first_free (total A) B 0) (link_of (last_free 0 A 0)) size s = Done 0 s
  | Some (p, B') =>
    ∃ s', malloc_loop heap_addr fuel (first_free (total A) B 0) (link_of (last_free 0 A 0)) size s = Done p s' ∧
      chain s' (A ++ B') 0 ∧ length (heap s') = length (heap s) ∧
      ∀ i, in_used 0 (A ++ B) i → arr_get (heap s') i = arr_get (heap s) i
  end.
Proof.
  induction B as [|[[] n] B IH]; intros A s fuel size HL Ht Hlen Hc Hs Hs4 Hf.
  { cbn. by destruct fuel. }
  - cbn [alloc first_free]. specialize (IH (A ++ [(true, n)]) s fuel size).
    rewrite -app_assoc last_free_used_end in IH. cbn [app] in IH.
    replace (total (A ++ [(true, n)])) with (total A + n) in IH by (rewrite total_app; cbn; lia).
    specialize (IH HL Ht Hlen Hc Hs Hs4 ltac:(cbn in Hf; lia)).
    destruct (alloc _ _ B) as [[p B']|]; [|exact IH]. cbn. destruct IH as (s' & Hrun & Hc' & Hl' & Hsame).
    exists s'. rewrite -app_assoc in Hc'. by split_and!.
  - destruct (block_bounds A false n B HL Ht) as (HA & Hn & Hn4 & HB & HtA & HA4 & HtB & Hsum).
    unfold HEAP_SIZE in Hsum. destruct fuel as [|fuel]; [cbn in Hf; lia|].
    cbn [alloc first_free malloc_loop]. unfold HEAP_SIZE in heap_high.
    rewrite (decide_False (P := heap_addr + total A = 0)); [apply addr_nonzero; lia|].
    rewrite (bind_Done _ _ _ _ _ (get_size_run _ _ _ _ _ _ HA Hc)).
    unfold MIN_ALLOC_SIZE, SIZEOF_SIZE_T. rewrite (i32_small (n - size - 4)); [lia|]. rewrite !(u32_small (size + 4)); [lia..|].
    assert (total A + n + 4 ≤ Z.of_nat (length (heap s)) + 4) as Hin by (unfold HEAP_SIZE in Hlen; lia).
    destruct (decide (12 ≤ n - (size + 4))) as [H1|H1]; [|destruct (decide (size + 4 ≤ n)) as [H2|H2]].
    + rewrite decide_True; [lia|].
      pose proof (split_run s A n (size + 4) B HL Ht Hlen Hc ltac:(lia) ltac:(zdm) ltac:(lia)) as (Hc' & Hl' & Hsame).
      set (s1 := store (total A) (n - (size + 4)) s) in *. set (s2 := store (total A + (n - (size + 4))) (size + 4) s1) in *.
      exists s2. split_and!; [|done..].
      assert (set_size heap_addr (heap_addr + total A) (u32 (n - (size + 4))) s = Done tt s1) as E1.
      { rewrite u32_small; [lia|]. apply set_word_run; [done|lia..]. }
      rewrite (bind_Done _ _ _ _ _ E1).
      assert (get_size heap_addr (heap_addr + total A) s1 = Done (n - (size + 4)) s1) as E2.
      { apply get_word_run; [done|]. unfold s1, store. rsimpl. apply ld32_splice_word; lia. }
      rewrite (bind_Done _ _ _ _ _ E2).
      assert (set_size heap_addr (u32 (heap_addr + total A + (n - (size + 4)))) (size + 4) s1 = Done tt s2) as E3.
      { rewrite u32_small; [lia|]. rewrite -Z.add_assoc. apply set_word_run; [zdm|lia|]. unfold s1. rewrite store_length; lia. }
      rewrite (bind_Done _ _ _ _ _ E3) !u32_small; [lia..|]. unfold mret, M_ret. do 2 f_equal. lia.
    + rewrite decide_False; [lia|]. rewrite (bind_Done _ _ _ _ _ (get_next_run _ _ _ _ _ HA Hc)).
      destruct (take_run s A n B HL Ht Hlen Hc) as (s' & Hrun & Hc' & Hl' & Hsame). exists s'.
      rewrite (bind_Done _ _ _ _ _ Hrun) u32_small; [lia|]. by split_and!.
    + rewrite decide_False; [lia|]. rewrite (bind_Done _ _ _ _ _ (get_next_run _ _ _ _ _ HA Hc)).
      specialize (IH (A ++ [(false, n)]) s fuel size).
      rewrite -app_assoc last_free_free_end in IH. cbn [app] in IH.
      replace (total (A ++ [(false, n)])) with (total A + n) in IH by (rewrite total_app; cbn; lia).
      specialize (IH HL Ht Hlen Hc Hs Hs4 ltac:(cbn in Hf; lia)).
      unfold link_of in IH. rewrite decide_False in IH; [apply addr_nonzero; lia|].
      destruct (alloc _ _ B) as [[p B']|]; [|exact IH]. cbn. destruct IH as (s' & Hrun & Hc' & Hl' & Hsame).
      exists s'. rewrite -app_assoc in Hc'. by split_and!.
Qed.

(** malloc is first fit on the layout. *)
Lemma malloc_run s L size : heap_ok s L → 0 < size ≤ 2 ^ 31 - 16 →
  match alloc (round_size size + 4) 0 L with
  | None => malloc heap_addr size s = Done 0 s
  | Some (p, L') => ∃ s', malloc heap_addr size s = Done p s' ∧ heap_ok s' L' ∧
      ∀ i, in_used 0 L i → arr_get (heap s') i = arr_get (heap s) i
  end.
Proof.
  intros [Hlen Ht HL Hco Hc] Hs. pose proof (round_size_ok size Hs) as (Hr & Hr4 & _).
  assert (length L ≤ 64)%nat as Hfuel by (pose proof (total_ok L HL) as [H1 _]; rewrite Ht in H1; unfold HEAP_SIZE in H1; lia).
  pose proof (malloc_loop_run L [] s 64 (round_size size) HL Ht Hlen Hc ltac:(lia) Hr4 Hfuel) as Hrun.
  unfold malloc. rewrite decide_False; [lia|]. rewrite bind_gets (ch_head _ _ _ _ Hc). cbn [total foldr app] in Hrun.
  destruct (alloc _ 0 L) as [[p L']|] eqn:E; [|exact Hrun].
  destruct Hrun as (s' & Hrun & Hc' & Hl & Hsame). exists s'. split; [exact Hrun|]. split; [|exact Hsame].
  destruct (alloc_ok heap_addr (round_size size + 4) 0 L p L') as (Ht' & HL' & Hco'); [lia|zdm|done|done|].
  constructor; [congruence|congruence|done|by apply Hco'|done].
Qed.
End run.
End Heaprun.
