(* ===== verification/Heapfree.v ===== *)
(** * Returning a block to the user heap

    free puts the block into the free list in address order and merges it with
    the free blocks on both sides. *)
From S2P Require Import Prelude Bytes Userheap Heaplayout Heaprun.
Import Userheap Heaplayout Heaprun.

Module Heapfree.

Section run.
Variable heap_addr : Z.
Hypothesis heap_aligned : heap_addr `mod` 4 = 0.
Hypothesis heap_low : 0 < heap_addr.
Hypothesis heap_high : heap_addr + HEAP_SIZE < 2 ^ 32.

Local Abbreviation chain := (chain heap_addr).
Local Abbreviation headers := (headers heap_addr).
Local Abbreviation first_free := (first_free heap_addr).
Local Abbreviation last_free := (last_free heap_addr).
Local Abbreviation heap_ok := (heap_ok heap_addr).

(** A heap without the condition on neighbours. *)
Record laid (s : uheap_t) (L : list block_t) : Prop := {
  la_length : Z.of_nat (length (heap s)) = HEAP_SIZE;
  la_total : total L = HEAP_SIZE;
  la_blocks : Forall block_ok L;
  la_chain : chain s L 0 }.

(** The bytes of the used blocks are the same. *)
Definition keeps (L : list block_t) (s s' : uheap_t) : Prop :=
  ∀ i, in_used 0 L i → arr_get (heap s') i = arr_get (heap s) i.

Lemma chain_prefix s A X : chain s (A ++ X) 0 → chain s A (first_free (total A) X 0).
Proof.
  intros [Hh Hw]. rewrite first_free_app in Hh. rewrite headers_app in Hw. apply Forall_app in Hw as [Hw _].
  by constructor.
Qed.

Lemma first_free_range o B : 0 ≤ o → Forall block_ok B → o + total B = HEAP_SIZE →
  0 ≤ first_free o B 0 < 2 ^ 32.
Proof.
  intros Ho HB Ht. unfold HEAP_SIZE in *.
  destruct (first_free_cases heap_addr o B 0) as [[_ ->]|(U & m & B' & -> & HU & ->)]; [lia|].
  apply Forall_app in HB as [HBU HB]. apply Forall_cons in HB as [[Hm _] HB']. cbn in Hm. rewrite total_app total_cons in Ht.
  pose proof (total_ok U HBU). pose proof (total_ok B' HB'). lia.
Qed.

(** The block enters the list. *)
Lemma link_free_run s A n B :
  laid s (A ++ (true, n) :: B) →
  let block := heap_addr + total A in
  let cur := first_free (total A + n) B 0 in
  ∃ s1, set_link heap_addr (link_of (last_free 0 A 0)) block s = Done tt s1 ∧
    set_next heap_addr block cur s1 = Done tt (store (total A + 4) cur s1) ∧
    laid (store (total A + 4) cur s1) (A ++ (false, n) :: B) ∧
    keeps (A ++ (false, n) :: B) s (store (total A + 4) cur s1).
Proof.
  intros [Hlen Ht HL Hc] block cur.
  destruct (block_bounds A true n B HL Ht) as (HA & Hn & Hn4 & HB & HtA & HA4 & HtB & Hsum). unfold HEAP_SIZE in *.
  assert (0 ≤ cur < 2 ^ 32) as Hcur by (apply first_free_range; [lia|done|unfold HEAP_SIZE; lia]).
  destruct (set_link_run heap_addr heap_aligned heap_low s A (first_free (total A) ((true, n) :: B) 0) block)
    as (s1 & Hrun & [Hh1 Hw1] & Hl1 & Hsame); [done|lia|unfold block; lia|by apply chain_prefix|].
  assert (same_but 0 (total A) (heap s) (heap s1)) as Hsb.
  { split; [done|]. intros i [Hi|Hi]; [|apply Hsame; lia]. unfold arr_get. by rewrite !decide_False; [lia..|]. }
  set (s2 := store (total A + 4) cur s1).
  assert (∀ i, i < total A + 4 ∨ total A + 8 ≤ i → arr_get (heap s2) i = arr_get (heap s1) i) as Hsame2.
  { intros i Hi. apply store_get; lia. }
  assert (length (heap s2) = length (heap s1)) as Hl2 by (apply store_length; lia).
  exists s1. fold s2. split_and!; [exact Hrun| | |].
  - unfold set_next, block. rewrite -Z.add_assoc. apply set_word_run; [done|zdm|lia|lia].
  - constructor; [unfold HEAP_SIZE; lia|by rewrite total_app total_cons; unfold HEAP_SIZE; lia| |].
    + apply Forall_app_2; [done|]. by constructor.
    + destruct Hc as [_ Hw]. rewrite headers_app Z.add_0_l in Hw. apply Forall_app in Hw as [_ Hw].
      cbn [headers first_free] in Hw. apply Forall_cons in Hw as [Hwn Hw].
      constructor; [unfold s2, store; rsimpl; by rewrite Hh1 first_free_app|].
      rewrite headers_app Z.add_0_l. cbn [headers first_free].
      apply Forall_app_2; [|constructor; [|apply holds_stored; [lia..|]]].
      * apply holds_store; [lia..| |exact Hw1].
        eapply Forall_impl; [apply (headers_below heap_addr A _ (total A)); [done|lia]|]. cbn. lia.
      * cbn in Hwn |- *. rewrite -Hwn. unfold ld32. rewrite !Hsame2; [lia..|]. rewrite !(proj2 Hsb); [lia..|done].
      * assert (Forall (λ x, total A + n ≤ x.1) (headers (total A + n) B 0)) as Hab by (apply headers_above; [done|zdm|lia]).
        apply holds_store; [lia..| |apply (holds_same _ _ _ _ _ Hsb); [|exact Hw]]; (eapply Forall_impl; [exact Hab|]); cbn; lia.
  - intros i Hi. apply in_used_app in Hi as [Hi|Hi].
    + rewrite Hsame2; [apply in_used_range in Hi; [lia|done]|]. apply Hsame. by right.
    + cbn [in_used] in Hi. destruct Hi as [[? _]|Hi]; [done|]. apply in_used_range in Hi; [|done].
      rewrite Hsame2; [lia|]. apply Hsame. lia.
Qed.

(** Two neighbours become one block. *)
Lemma merge_run s A m n B :
  laid s (A ++ (false, m) :: (false, n) :: B) →
  let block := heap_addr + total A in
  let s1 := store (total A) (m + n) s in
  let s2 := store (total A + 4) (first_free (total A + (m + n)) B 0) s1 in
  set_size heap_addr block (u32 (m + n)) s = Done tt s1 ∧
  get_next heap_addr (block + m) s1 = Done (first_free (total A + (m + n)) B 0) s1 ∧
  set_next heap_addr block (first_free (total A + (m + n)) B 0) s1 = Done tt s2 ∧
  laid s2 (A ++ (false, m + n) :: B) ∧ keeps (A ++ (false, m + n) :: B) s s2.
Proof.
  intros [Hlen Ht HL Hc] block s1 s2.
  destruct (block_bounds A false m ((false, n) :: B) HL Ht) as (HA & Hm & Hm4 & HnB & HtA & HA4 & HtB & Hsum).
  apply Forall_cons in HnB as [[Hn Hn4] HB]. cbn in Hn, Hn4. rewrite total_cons in Hsum. pose proof (total_ok B HB) as [HtB' _]. unfold HEAP_SIZE in *.
  set (nx := first_free (total A + (m + n)) B 0) in *.
  assert (0 ≤ nx < 2 ^ 32) as Hnx by (apply first_free_range; [lia|done|unfold HEAP_SIZE; lia]).
  assert (length (heap s1) = length (heap s)) as Hl1 by (apply store_length; lia).
  assert (length (heap s2) = length (heap s1)) as Hl2 by (apply store_length; lia).
  assert (∀ i, i < total A ∨ total A + 8 ≤ i → arr_get (heap s2) i = arr_get (heap s) i) as Hsame.
  { intros i Hi. unfold s2. rewrite store_get; [lia..|]. apply store_get; lia. }
  destruct Hc as [Hh Hw]. rewrite first_free_app in Hh. rewrite headers_app Z.add_0_l in Hw. apply Forall_app in Hw as [Hw1 Hw2].
  cbn [headers first_free] in Hw1, Hw2. do 3 apply Forall_cons in Hw2 as [_ Hw2].
  apply Forall_cons in Hw2 as [Hnext Hw2]. cbn in Hnext. replace (total A + m + n) with (total A + (m + n)) in * by lia. fold nx in Hnext.
  split_and!.
  - rewrite u32_small; [lia|]. apply set_word_run; [done..|lia].
  - unfold get_next, block. rewrite -!Z.add_assoc. apply get_word_run; [done|zdm|].
    replace (total A + (m + 4)) with (total A + m + 4) by lia. unfold s1, store. rsimpl. by rewrite ld32_splice_disj; [cbn; lia..|].
  - unfold set_next, block. rewrite -Z.add_assoc. apply set_word_run; [done|zdm|lia|lia].
  - constructor; [unfold HEAP_SIZE; lia|by rewrite total_app total_cons; unfold HEAP_SIZE; lia| |].
    + apply Forall_app_2; [done|]. constructor; [|done]. split; cbn; [lia|]. rewrite Z.add_mod; [lia|]. by rewrite Hm4 Hn4.
    + constructor; [unfold s2, s1, store; rsimpl; rewrite first_free_app; by rewrite Hh|].
      rewrite headers_app Z.add_0_l. cbn [headers first_free]. fold nx.
      assert (same_but (total A) (total A + 8) (heap s) (heap s2)) as Hsb by (split; [congruence|done]).
      apply Forall_app_2; [|constructor; [|apply holds_stored; [lia..|]]].
      * apply (holds_same _ _ _ _ _ Hsb); [|exact Hw1].
        eapply Forall_impl; [apply (headers_below heap_addr A _ (total A)); [done|lia]|]. cbn. lia.
      * cbn. unfold s2, store. rsimpl. rewrite ld32_splice_disj; [lia|cbn; lia|cbn; lia|].
        unfold s1, store. rsimpl. apply ld32_splice_word; lia.
      * apply (holds_same _ _ _ _ _ Hsb); [|exact Hw2].
        eapply Forall_impl; [apply (headers_above heap_addr (total A + (m + n)) B _ (total A + 8)); [done|zdm|lia]|]. cbn. lia.
  - intros i Hi. apply Hsame. apply in_used_app in Hi as [Hi|Hi].
    + apply in_used_range in Hi; [lia|done].
    + cbn [in_used] in Hi. destruct Hi as [[? _]|Hi]; [done|]. apply in_used_range in Hi; [lia|done].
Qed.
Lemma keeps_trans L s s' s'' : keeps L s s' → keeps L s' s'' → keeps L s s''.
Proof. intros H1 H2 i Hi. rewrite H2; [done|]. by apply H1. Qed.
Lemma keeps_free A n B n' s s' :
  n = n' → keeps (A ++ (false, n) :: B) s s' → keeps (A ++ (false, n') :: B) s s'.
Proof. by intros ->. Qed.

(** Where the used blocks are does not depend on how free space is divided. *)
Lemma in_used_two A m n B i :
  in_used 0 (A ++ (false, m) :: (false, n) :: B) i ↔ in_used 0 (A ++ (false, m + n) :: B) i.
Proof.
  rewrite !in_used_app. cbn [in_used]. replace (0 + total A + m + n) with (0 + total A + (m + n)) by lia. naive_solver.
Qed.

Lemma ends_free L : apart L → ∀ A n, L = A ++ [(false, n)] → ∀ A' m, A ≠ A' ++ [(false, m)].
Proof.
  intros Ha A n -> A' m ->. rewrite -app_assoc in Ha. apply apart_app in Ha as [_ Ha]. done.
Qed.

(** The first merge of insert_block: with the block before. *)
Lemma merge_prev_run s A n B :
  laid s (A ++ (false, n) :: B) → apart A →
  let block := heap_addr + total A in
  let prev := last_free 0 A 0 in
  let cur := first_free (total A + n) B 0 in
  ∃ s' A' n',
    (if decide (prev ≠ 0) then
       prev_size ← get_size heap_addr prev;
       if decide (u32 (block - prev) = prev_size) then
         size ← get_size heap_addr block;
         set_size heap_addr prev (u32 (prev_size + size));;
         set_next heap_addr prev cur;;
         mret prev
       else mret block
     else mret block) s = Done (heap_addr + total A') s' ∧
    laid s' (A' ++ (false, n') :: B) ∧ total A' + n' = total A + n ∧ apart A' ∧
    (∀ X m, A' ≠ X ++ [(false, m)]) ∧
    coalesce (A' ++ (false, n') :: B) = coalesce (A ++ (false, n) :: B) ∧
    (∀ i, in_used 0 (A ++ (false, n) :: B) i ↔ in_used 0 (A' ++ (false, n') :: B) i) ∧
    keeps (A ++ (false, n) :: B) s s'.
Proof.
  intros Hl Ha block prev cur. pose proof Hl as [Hlen Ht HL Hc].
  destruct (block_bounds A false n B HL Ht) as (HA & Hn & Hn4 & HB & HtA & HA4 & HtB & Hsum).
  destruct (last_free_cases heap_addr 0 A 0) as [[HU HE]|(A1 & m & U & -> & HU & HE)]; fold prev in HE.
  { exists s, A, n. destruct (decide (prev ≠ 0)); [done|]. split_and!; try done.
    intros X m ->. apply Forall_app in HU as [_ HU]. by apply Forall_cons in HU as [HU _]. }
  rewrite Z.add_0_r in HE. rewrite decide_True; [unfold HEAP_SIZE in *; rewrite HE; apply Forall_app in HA as [HA1 _]; pose proof (total_ok A1 HA1); lia|].
  pose proof HA as HA'. apply Forall_app in HA' as [HA1 HmU]. apply Forall_cons in HmU as [[Hm _] HUok]. cbn in Hm.
  pose proof (total_ok A1 HA1) as [Ht1 _]. pose proof (total_ok U HUok) as [HtU _]. rewrite total_app total_cons in Hsum.
  unfold HEAP_SIZE in Hsum, heap_high.
  assert (get_size heap_addr prev s = Done m s) as E1.
  { rewrite HE. eapply get_size_run; [done|done|]. rewrite -app_assoc in Hc. exact Hc. }
  rewrite (bind_Done _ _ _ _ _ E1). rewrite u32_small; [unfold block; rewrite HE total_app total_cons; lia|].
  destruct (decide (block - prev = m)) as [Hd|Hd]; unfold block in Hd; rewrite HE total_app total_cons in Hd.
  - assert (U = []) as ->. { destruct U as [|b U]; [done|]. cbn [length] in HtU. lia. }
    rewrite -app_assoc in Hl. cbn [app] in Hl.
    destruct (merge_run s A1 m n B Hl) as (E3 & _ & E4 & Hl' & Hk).
    assert (get_size heap_addr block s = Done n s) as E2 by (eapply get_size_run; [done|done|exact Hc]).
    rewrite (bind_Done _ _ _ _ _ E2). rewrite HE (bind_Done _ _ _ _ _ E3).
    replace cur with (first_free (total A1 + (m + n)) B 0) by (unfold cur; rewrite total_app; cbn; f_equal; lia).
    rewrite (bind_Done _ _ _ _ _ E4).
    exists (store (total A1 + 4) (first_free (total A1 + (m + n)) B 0) (store (total A1) (m + n) s)), A1, (m + n).
    split_and!; [done|exact Hl'|rewrite total_app; cbn; lia|by apply apart_prefix in Ha|by apply (ends_free _ Ha _ _ eq_refl)| | |].
    + rewrite -app_assoc. cbn [app]. by rewrite coalesce_two.
    + intros i. rewrite -app_assoc. apply in_used_two.
    + intros i Hi. apply Hk. rewrite -app_assoc in Hi. by apply in_used_two.
  - exists s, (A1 ++ (false, m) :: U), n. split_and!; try done.
    intros X x HX. destruct U as [|b U _] using rev_ind; [cbn in Hd; lia|].
    apply Forall_app in HU as [_ HU]. apply Forall_cons in HU as [HU _].
    rewrite app_comm_cons app_assoc in HX. apply app_inj_tail in HX as [_ ->]. done.
Qed.

(** The second one: with the block behind. *)
Lemma merge_next_run s A n B :
  laid s (A ++ (false, n) :: B) → (∀ X m, A ≠ X ++ [(false, m)]) → coalesce A = A → coalesce B = B →
  let block := heap_addr + total A in
  let cur := first_free (total A + n) B 0 in
  ∃ s',
    (if decide (cur ≠ 0) then
       size ← get_size heap_addr block;
       if decide (u32 (cur - block) = size) then
         cur_size ← get_size heap_addr cur;
         set_size heap_addr block (u32 (size + cur_size));;
         cur_next ← get_next heap_addr cur;
         set_next heap_addr block cur_next
       else mret tt
     else mret tt) s = Done tt s' ∧
    laid s' (coalesce (A ++ (false, n) :: B)) ∧ keeps (A ++ (false, n) :: B) s s'.
Proof.
  intros Hl HA HcA HcB block cur. pose proof Hl as [Hlen Ht HL Hc].
  destruct (block_bounds A false n B HL Ht) as (HAok & Hn & Hn4 & HB & HtA & HA4 & HtB & Hsum).
  rewrite coalesce_app // HcA. cbn [coalesce]. rewrite HcB. unfold HEAP_SIZE in heap_high, Hsum.
  destruct (first_free_cases heap_addr (total A + n) B 0) as [[HU HE]|(U & m & B' & -> & HU & HE)]; fold cur in HE.
  { exists s. destruct (decide (cur ≠ 0)); [done|]. split_and!; [done| |done].
    destruct B as [|[[] x] B]; [done|done|]. by apply Forall_cons in HU as [HU _]. }
  pose proof HB as HB'. apply Forall_app in HB' as [HUok HmB]. apply Forall_cons in HmB as [[Hm _] HBok]. cbn in Hm.
  pose proof (total_ok U HUok) as [HtU _]. pose proof (total_ok B' HBok) as [HtB' _]. rewrite total_app total_cons in Hsum.
  rewrite decide_True; [rewrite HE; lia|].
  assert (get_size heap_addr block s = Done n s) as E1 by (eapply get_size_run; [done|done|exact Hc]).
  rewrite (bind_Done _ _ _ _ _ E1). rewrite u32_small; [unfold block; rewrite HE; lia|].
  destruct (decide (cur - block = n)) as [Hd|Hd]; unfold block in Hd; rewrite HE in Hd.
  - assert (U = []) as ->. { destruct U as [|b U]; [done|]. cbn [length] in HtU. lia. }
    cbn [app cons_free] in *. destruct (merge_run s A n m B' Hl) as (E3 & E4 & E5 & Hl' & Hk).
    assert (cur = block + n) as Hcur by (unfold block; rewrite HE; cbn; lia).
    assert (get_size heap_addr cur s = Done m s) as E2.
    { rewrite Hcur. unfold block. replace (heap_addr + total A + n) with (heap_addr + total (A ++ [(false, n)])) by (rewrite total_app; cbn; lia).
      eapply get_size_run; [done|apply Forall_app_2; [done|by constructor]|]. rewrite -app_assoc. exact Hc. }
    rewrite (bind_Done _ _ _ _ _ E2) (bind_Done _ _ _ _ _ E3) Hcur (bind_Done _ _ _ _ _ E4) E5.
    eexists. split_and!; [done|exact Hl'|]. intros i Hi. apply Hk. by apply in_used_two.
  - exists s. split_and!; [done| |done].
    destruct U as [|[[] x] U]; [cbn in Hd; lia|done|]. by apply Forall_cons in HU as [HU _].
Qed.
Lemma set_link_prev (prev block : Z) s :
  (if decide (prev = 0) then modify (λ s, s <| free_list := block |>) else set_next heap_addr prev block) s =
    set_link heap_addr (link_of prev) block s.
Proof. unfold link_of. by case_decide. Qed.

Lemma insert_run s A n B :
  laid s (A ++ (true, n) :: B) → apart A → coalesce B = B →
  ∃ s', insert_block heap_addr (heap_addr + total A) (last_free 0 A 0) (first_free (total A + n) B 0) s = Done tt s' ∧
    laid s' (coalesce (A ++ (false, n) :: B)) ∧ keeps (A ++ (false, n) :: B) s s'.
Proof.
  intros Hl HA HB. destruct (link_free_run s A n B Hl) as (s1 & E1 & E2 & Hl2 & Hk2). unfold insert_block.
  pose proof (set_link_prev (last_free 0 A 0) (heap_addr + total A) s) as E0. rewrite E1 in E0.
  rewrite (bind_Done _ _ _ _ _ E0) (bind_Done _ _ _ _ _ E2).
  set (s2 := store _ _ s1) in *. destruct (merge_prev_run s2 A n B Hl2 HA) as (s3 & A3 & n3 & E3 & Hl3 & Ht & HA3 & Hend & Hco & Hin & Hk3).
  rewrite (bind_Done _ _ _ _ _ E3).
  destruct (merge_next_run s3 A3 n3 B Hl3 Hend) as (s4 & E4 & Hl4 & Hk4); [by apply coalesced_apart|done|].
  exists s4. rewrite -Hco. rewrite Ht in E4. split_and!; [exact E4|exact Hl4|].
  eapply keeps_trans; [eapply keeps_trans; [exact Hk2|exact Hk3]|]. intros i Hi. apply Hk4. by apply Hin.
Qed.

(** The loop walks over the free blocks before the block. *)
Lemma free_loop_run C : ∀ A s fuel n B,
  laid s (A ++ C ++ (true, n) :: B) → apart (A ++ C) → coalesce B = B → (length C < fuel)%nat →
  ∃ s', free_loop heap_addr fuel (heap_addr + total (A ++ C)) (last_free 0 A 0)
      (first_free (total A) (C ++ (true, n) :: B) 0) s = Done tt s' ∧
    laid s' (coalesce ((A ++ C) ++ (false, n) :: B)) ∧ keeps ((A ++ C) ++ (false, n) :: B) s s'.
Proof.
  induction C as [|[[] x] C IH]; intros A s fuel n B Hl Ha HB Hf.
  - rewrite app_nil_r in Ha |- *. destruct fuel as [|fuel]; [cbn in Hf; lia|]. cbn [app first_free free_loop] in *.
    pose proof Hl as [Hlen Ht HL Hc]. destruct (block_bounds A true n B HL Ht) as (HA & Hn & Hn4 & HBok & HtA & HA4 & HtB & Hsum).
    rewrite decide_True; [|by apply insert_run].
    destruct (first_free_cases heap_addr (total A + n) B 0) as [[_ ->]|(U & m & B' & -> & HU & ->)]; [by right|left].
    apply Forall_app in HBok as [HUok _]. pose proof (total_ok U HUok). lia.
  - specialize (IH (A ++ [(true, x)]) s fuel n B). rewrite -!app_assoc last_free_used_end in IH. cbn [app] in IH.
    replace (total (A ++ [(true, x)])) with (total A + x) in IH by (rewrite total_app; cbn; lia).
    rewrite -app_assoc. apply IH; [done..|cbn in Hf; lia].
  - destruct fuel as [|fuel]; [cbn in Hf; lia|]. specialize (IH (A ++ [(false, x)]) s fuel n B).
    rewrite -!app_assoc (last_free_free_end heap_addr) in IH. cbn [app] in IH.
    replace (total (A ++ [(false, x)])) with (total A + x) in IH by (rewrite total_app; cbn; lia).
    specialize (IH Hl Ha HB ltac:(cbn in Hf; lia)). destruct IH as (s' & Hrun & Hrest).
    pose proof Hl as [Hlen Ht HL Hc]. cbn [app] in *.
    destruct (block_bounds A false x (C ++ (true, n) :: B) HL Ht) as (HA & Hx & _ & HCB & HtA & _ & HtC & Hsum).
    exists s'. rewrite -!app_assoc. cbn [app]. split; [|exact Hrest]. cbn [free_loop first_free].
    rewrite decide_False.
    + rewrite total_app total_cons. apply Forall_app in HCB as [HC _]. pose proof (total_ok C HC). lia.
    + rewrite (bind_Done _ _ _ _ _ (get_next_run heap_addr heap_aligned s A x (C ++ (true, n) :: B) 0 HA Hc)). exact Hrun.
Qed.

Lemma allocated_block o L p c : (p, c) ∈ allocated heap_addr o L →
  ∃ A n B, L = A ++ (true, n) :: B ∧ p = heap_addr + (o + total A) + 4 ∧ c = n - 4.
Proof.
  revert o. induction L as [|[[] n] L IH]; intros o; cbn [allocated]; [by intros ?%elem_of_nil| |].
  - intros [Hp|Hp]%elem_of_cons.
    + injection Hp as -> ->. exists [], n, L. cbn. split_and!; [done|lia|done].
    + destruct (IH _ Hp) as (A & m & B & -> & -> & ->). exists ((true, n) :: A), m, B. rewrite total_cons. split_and!; [done|lia|done].
  - intros Hp. destruct (IH _ Hp) as (A & m & B & -> & -> & ->). exists ((false, n) :: A), m, B. rewrite total_cons. split_and!; [done|lia|done].
Qed.

Lemma total_coalesce L : total (coalesce L) = total L.
Proof.
  induction L as [|[[] n] L IH]; [done| |]; cbn [coalesce]; rewrite total_cons; [by rewrite total_cons IH|].
  rewrite -IH. destruct (coalesce L) as [|[[] m] l]; cbn; lia.
Qed.
Lemma coalesce_coalesce L : coalesce (coalesce L) = coalesce L.
Proof.
  induction L as [|[[] n] L IH]; [done| |]; cbn [coalesce]; [by rewrite IH|].
  destruct (coalesce L) as [|[[] m] l]; [done| |]; cbn [cons_free].
  - cbn in *. by rewrite IH.
  - apply coalesced_apart in IH. apply coalesced_apart. by destruct l as [|[[] x] l].
Qed.

(** free makes the block free space. *)
Lemma free_run s (A : list block_t) n (B : list block_t) :
  heap_ok s (A ++ (true, n) :: B) →
  ∃ s', Userheap.free heap_addr (heap_addr + total A + 4) s = Done tt s' ∧
    heap_ok s' (coalesce (A ++ (false, n) :: B)) ∧ keeps (A ++ (false, n) :: B) s s'.
Proof.
  intros [Hlen Ht HL Hco Hc]. destruct (block_bounds A true n B HL Ht) as (HA & Hn & Hn4 & HB & HtA & HA4 & HtB & Hsum).
  destruct (coalesced_mid _ _ _ Hco) as [HcA HcB]. unfold HEAP_SIZE in *.
  pose proof (total_ok A HA) as [HlA _].
  destruct (free_loop_run A [] s 65 n B) as (s' & Hrun & [Hlen' Ht' HL' Hc'] & Hk); [by constructor|by apply coalesced_apart|done|unfold block_t in *; lia|].
  exists s'. split_and!; [|constructor; [done|done|done|apply coalesce_coalesce|done]|exact Hk].
  unfold Userheap.free, SIZEOF_SIZE_T. rewrite decide_True; [lia|]. rewrite u32_small; [lia|].
  rewrite bind_gets (ch_head _ _ _ _ Hc). replace (heap_addr + total A + 4 - 4) with (heap_addr + total A) by lia. exact Hrun.
Qed.
End run.
End Heapfree.
