(* ===== verification/UserheapSpec.v ===== *)
(** * What the user heap promises

    The allocator of user programs seen by its client: blocks that do not
    overlap and keep what the program stores, space that is used again once it
    is freed, and blocks that keep their bytes when they move. *)
From stdpp Require Import gmap.
From S2P Require Import Prelude Bytes Userheap Heaplayout Heaprun Heapfree.
Import Userheap Heaplayout Heaprun Heapfree.

Module UserheapSpec.

(** The largest request whose size does not overflow. *)
Definition SIZE_LIMIT : Z := 2 ^ 31 - 16.

Section spec.
Variable heap_addr : Z.

(** The array starts at a word and lies below the kernel's addresses. *)
Record heap_placed : Prop := {
  hp_aligned : heap_addr `mod` 4 = 0;
  hp_low : 0 < heap_addr;
  hp_high : heap_addr + HEAP_SIZE < 2 ^ 32 }.

(** The [n] bytes of a block. *)
Definition block_bytes (s : uheap_t) (p n : Z) : list Z := slice (heap s) (p - heap_addr) n.

(** A program that uses the heap by the rules: [live] are the blocks it holds,
    each with the size it asked for.  It frees only what it holds and stores
    only inside the blocks. *)
Inductive client : uheap_t → gmap Z Z → Prop :=
| client_init s0 s :
    Z.of_nat (length (heap s0)) = HEAP_SIZE → heap_init heap_addr s0 = Done tt s → client s ∅
| client_malloc s live n p s' :
    client s live → 0 < n ≤ SIZE_LIMIT → malloc heap_addr n s = Done p s' →
    client s' (if decide (p = 0) then live else <[p := n]> live)
| client_free s live p n s' :
    client s live → live !! p = Some n → Userheap.free heap_addr p s = Done tt s' →
    client s' (delete p live)
| client_store s live p n i c s' :
    client s live → live !! p = Some n → 0 ≤ i < n → set_byte heap_addr (p + i) c s = Done tt s' →
    client s' live.

(** What holds of the heap of such a program. *)
Record client_inv (s : uheap_t) (live : gmap Z Z) (L : list block_t) : Prop := {
  ci_heap : heap_ok heap_addr s L;
  ci_live p n : live !! p = Some n → 0 < n ∧ ∃ c, (p, c) ∈ allocated heap_addr 0 L ∧ n ≤ c;
  ci_all p c : (p, c) ∈ allocated heap_addr 0 L → is_Some (live !! p) }.

Context (placed : heap_placed).
#[local] Hint Resolve hp_aligned hp_low hp_high : core.

Lemma live_inside s live L p n : client_inv s live L → live !! p = Some n →
  heap_addr + 4 ≤ p ∧ p + n ≤ heap_addr + HEAP_SIZE ∧ p `mod` 4 = 0 ∧
  ∀ i, p - heap_addr ≤ i < p - heap_addr + n → in_used 0 L i.
Proof.
  intros [Hok Hlive _] Hp. destruct Hok as [_ Ht HL _ _]. destruct (Hlive p n Hp) as (Hn & c & Hc & Hnc).
  destruct (allocated_inside heap_addr 0 L p c HL) as (H1 & H2 & H3 & H4 & H5); [done|by apply hp_aligned|done|].
  split_and!; [lia|lia|done|]. intros i Hi. apply H5. lia.
Qed.

Lemma live_apart s live L p n q m : client_inv s live L → live !! p = Some n → live !! q = Some m → p ≠ q →
  p + n ≤ q ∨ q + m ≤ p.
Proof.
  intros [Hok Hlive _] Hp Hq Hne. destruct Hok as [_ _ HL _ _].
  destruct (Hlive p n Hp) as (_ & c & Hc & Hnc). destruct (Hlive q m Hq) as (_ & d & Hd & Hmd).
  destruct (allocated_apart heap_addr 0 L p c q d HL) as [[? _]|Ha]; [done|by apply hp_aligned|done..|lia].
Qed.

Lemma slice_same h h' a n : 0 ≤ a → length h' = length h → a + n ≤ Z.of_nat (length h) →
  (∀ i, a ≤ i < a + n → arr_get h' i = arr_get h i) → slice h' a n = slice h a n.
Proof.
  intros Ha Hl Hn Hi. apply arr_ext. intros i H0. destruct (decide (i < n)).
  - rewrite !arr_get_slice; [lia..|]. apply Hi. lia.
  - unfold arr_get. rewrite !decide_True //. unfold slice. rewrite !lookup_take_ge //; lia.
Qed.

(** Blocks whose bytes are kept by [keeps]. *)
Lemma bytes_kept s s' live L p n : client_inv s live L → length (heap s') = length (heap s) →
  live !! p = Some n → (∀ i, p - heap_addr ≤ i < p - heap_addr + n → arr_get (heap s') i = arr_get (heap s) i) →
  block_bytes s' p n = block_bytes s p n.
Proof.
  intros Hci Hl Hp Hi. pose proof (live_inside _ _ _ _ _ Hci Hp) as (H1 & H2 & _).
  pose proof (ho_length _ _ _ (ci_heap _ _ _ Hci)). unfold HEAP_SIZE in *. apply slice_same; [lia|done|lia|done].
Qed.

Lemma malloc_inv s live L n : client_inv s live L → 0 < n ≤ SIZE_LIMIT →
  ∃ p s' L', malloc heap_addr n s = Done p s' ∧
    client_inv s' (if decide (p = 0) then live else <[p := n]> live) L' ∧
    (p ≠ 0 → live !! p = None) ∧
    (p = 0 → s' = s ∧ ∀ x, (false, x) ∈ L → x < round_size n + 4) ∧
    length (heap s') = length (heap s) ∧ (∀ i, in_used 0 L i → arr_get (heap s') i = arr_get (heap s) i) ∧
    alloc heap_addr (round_size n + 4) 0 L = (if decide (p = 0) then None else Some (p, L')).
Proof.
  intros Hci Hn. pose proof Hci as [Hok Hlive Hall].
  pose proof (malloc_run heap_addr (hp_aligned placed) (hp_low placed) (hp_high placed) s L n Hok Hn) as Hrun.
  destruct (alloc heap_addr (round_size n + 4) 0 L) as [[p L']|] eqn:E.
  - destruct Hrun as (s' & Hrun & Hok' & Hk).
    destruct (alloc_allocated heap_addr _ _ _ _ _ E) as (c & Hc & Hperm). pose proof (round_size_ok n Hn) as (_ & _ & Hr & _).
    assert ((p, c) ∈ allocated heap_addr 0 L') as Hin by (rewrite Hperm; by left).
    pose proof Hok' as [Hlen' _ HL' _ _].
    destruct (allocated_inside heap_addr 0 L' p c HL') as (Hp & _); [done|by apply hp_aligned|done|].
    pose proof (hp_low placed). assert (p ≠ 0) as Hp0 by lia.
    assert (∀ d, (p, d) ∉ allocated heap_addr 0 L) as Hnew.
    { intros d Hd. pose proof (allocated_NoDup heap_addr 0 L' HL' eq_refl (hp_aligned placed)) as Hnd.
      rewrite Hperm in Hnd. apply NoDup_cons in Hnd as [Hnd _]. apply Hnd. apply list_elem_of_fmap. by exists (p, d). }
    exists p, s', L'. rewrite !(decide_False (P := p = 0)) //. split_and!; [done| | |done| |done|done].
    + constructor; [done| |].
      * intros q m Hq. apply lookup_insert_Some in Hq as [[<- <-]|[Hne Hq]].
        -- split; [lia|]. exists c. split; [done|lia].
        -- destruct (Hlive q m Hq) as (Hm & d & Hd & Hmd). split; [done|]. exists d. split; [|done]. rewrite Hperm. by right.
      * intros q d Hd. rewrite Hperm in Hd. destruct (decide (q = p)) as [->|Hne]; [rewrite lookup_insert_eq; eauto|].
        rewrite lookup_insert_ne; [congruence|]. apply elem_of_cons in Hd as [Hd|Hd]; [by simplify_eq|by apply (Hall q d)].
    + intros _. destruct (live !! p) as [m|] eqn:El; [|done]. destruct (Hlive p m El) as (_ & d & Hd & _). by destruct (Hnew d).
    + pose proof (ho_length _ _ _ Hok). lia.
  - exists 0, s, L. split_and!; [done|done|done| |done|done|done].
    intros _. split; [done|]. exact (alloc_fails _ _ _ _ E).
Qed.
Lemma free_inv s live L p n : client_inv s live L → live !! p = Some n →
  ∃ s' L', Userheap.free heap_addr p s = Done tt s' ∧ client_inv s' (delete p live) L' ∧
    length (heap s') = length (heap s) ∧
    (∀ q m i, live !! q = Some m → q ≠ p → q - heap_addr ≤ i < q - heap_addr + m →
      arr_get (heap s') i = arr_get (heap s) i) ∧
    ∃ A x B, L = A ++ (true, x) :: B ∧ L' = coalesce (A ++ (false, x) :: B).
Proof.
  intros Hci Hp. pose proof Hci as [Hok Hlive Hall]. destruct (Hlive p n Hp) as (Hn & c & Hc & Hnc).
  destruct (allocated_block _ _ _ _ _ Hc) as (A & x & B & -> & Hpa & Hcx). rewrite Z.add_0_l in Hpa.
  destruct (free_run heap_addr (hp_aligned placed) (hp_low placed) (hp_high placed) s A x B Hok) as (s' & Hrun & Hok' & Hk).
  rewrite -Hpa in Hrun. pose proof (ho_length _ _ _ Hok) as Hlen. pose proof (ho_length _ _ _ Hok') as Hlen'.
  set (L' := coalesce (A ++ (false, x) :: B)) in *.
  assert (allocated heap_addr 0 (A ++ (true, x) :: B) ≡ₚ (p, c) :: allocated heap_addr 0 L') as Hperm.
  { unfold L'. rewrite allocated_coalesce !allocated_app. cbn [allocated]. rewrite -Permutation_middle Hpa Hcx. by rewrite Z.add_0_l. }
  pose proof (allocated_NoDup heap_addr 0 _ (ho_blocks _ _ _ Hok) eq_refl (hp_aligned placed)) as Hnd.
  rewrite Hperm in Hnd. apply NoDup_cons in Hnd as [Hnd _].
  assert (∀ d, (p, d) ∉ allocated heap_addr 0 L') as Hgone.
  { intros d Hd. apply Hnd. apply list_elem_of_fmap. by exists (p, d). }
  exists s', L'. split_and!; [done| |lia| |by exists A, x, B].
  - constructor; [done| |].
    + intros q m [Hne Hq]%lookup_delete_Some. destruct (Hlive q m Hq) as (Hm & d & Hd & Hmd).
      split; [done|]. exists d. split; [|done]. rewrite Hperm in Hd. apply elem_of_cons in Hd as [Hd|Hd]; [|done].
      by simplify_eq.
    + intros q d Hd. rewrite lookup_delete_ne; [intros <-; by destruct (Hgone d)|]. apply (Hall q d). rewrite Hperm. by right.
  - intros q m i Hq Hne Hi. apply Hk. destruct (Hlive q m Hq) as (_ & d & Hd & Hmd).
    rewrite allocated_app in Hd. cbn [allocated] in Hd. apply in_used_app. pose proof (ho_blocks _ _ _ Hok) as HL.
    apply Forall_app in HL as [HA HxB]. apply Forall_cons in HxB as [[_ Hx4] HB]. pose proof (proj2 (total_ok A HA)) as HA4.
    cbn in Hx4. rewrite Z.add_0_l in Hd |- *. apply elem_of_app in Hd as [Hd|[Hd|Hd]%elem_of_cons].
    + left. apply allocated_inside in Hd as (_&_&_&_&Hd); [|done|done|by apply hp_aligned]. apply Hd. lia.
    + injection Hd as -> _. by rewrite Hpa in Hne.
    + right. cbn [in_used]. right. apply allocated_inside in Hd as (_&_&_&_&Hd); [|done|zdm|by apply hp_aligned]. apply Hd. lia.
Qed.

(** The bytes of the blocks are no words of the allocator. *)
Lemma headers_outside o L a w : Forall block_ok L → o `mod` 4 = 0 → in_used o L a → w ∈ headers heap_addr o L 0 →
  w.1 + 4 ≤ a ∨ a < w.1.
Proof.
  intros HL. revert o. induction HL as [|[u x] L [Hx Hx4] HL IH]; intros o Ho Hu Hw; [by apply elem_of_nil in Hw|].
  cbn in Hx, Hx4. cbn [in_used] in Hu. assert ((o + x) `mod` 4 = 0) as Ho' by (rewrite Z.add_mod; [lia|]; by rewrite Ho Hx4).
  pose proof (headers_range heap_addr (o + x) L 0 HL Ho') as Hr. rewrite Forall_forall in Hr.
  assert (w ∈ headers heap_addr (o + x) L 0 → w.1 + 4 ≤ a ∨ a < w.1) as Hrec.
  { intros Hin. destruct Hu as [[_ Hu]|Hu]; [specialize (Hr w Hin); cbn in Hr; lia|]. by apply (IH (o + x)). }
  destruct Hu as [[-> Hu]|Hu].
  - cbn [headers] in Hw. apply elem_of_cons in Hw as [->|Hw]; [cbn; lia|by apply Hrec].
  - apply in_used_range in Hu; [|done].
    destruct u; cbn [headers] in Hw; apply elem_of_cons in Hw as [->|Hw]; [cbn; lia|by apply Hrec|cbn; lia|].
    apply elem_of_cons in Hw as [->|Hw]; [cbn; lia|by apply Hrec].
Qed.

(** Another content of the blocks changes no word of the allocator. *)
Lemma payload_inv s live L h' : client_inv s live L → length h' = length (heap s) →
  (∀ i, ¬ in_used 0 L i → arr_get h' i = arr_get (heap s) i) → client_inv (s <| heap := h' |>) live L.
Proof.
  intros [Hok Hlive Hall] Hl Hsame. pose proof Hok as [Hlen Ht HL Hco [Hh Hw]].
  constructor; [constructor; [rsimpl; lia|done|done|done|]|done|done]. constructor; rsimpl; [done|].
  unfold holds in *. rewrite Forall_forall in Hw. apply Forall_forall. intros w Hin. rewrite -(Hw w Hin).
  assert (∀ i, w.1 ≤ i < w.1 + 4 → arr_get h' i = arr_get (heap s) i) as Hi.
  { intros i Hi. apply Hsame. intros Hu. pose proof (headers_outside 0 L i w HL eq_refl Hu Hin). lia. }
  unfold ld32. by rewrite !Hi; [lia..|].
Qed.

Lemma store_inv s live L p n i c : client_inv s live L → live !! p = Some n → 0 ≤ i < n →
  ∃ s', set_byte heap_addr (p + i) c s = Done tt s' ∧ client_inv s' live L ∧
    heap s' = <[Z.to_nat (p - heap_addr + i) := c]> (heap s).
Proof.
  intros Hci Hp Hi. pose proof (live_inside _ _ _ _ _ Hci Hp) as (H1 & H2 & _ & Hused).
  pose proof (ho_length _ _ _ (ci_heap _ _ _ Hci)) as Hlen. unfold HEAP_SIZE in *.
  set (a := p - heap_addr + i). set (h' := <[Z.to_nat a := c]> (heap s)).
  exists (s <| heap := h' |>). split_and!; [| |done].
  - unfold set_byte. rewrite bind_gets. replace (p + i - heap_addr) with a by (unfold a; lia). by rewrite arr_set_Some; [unfold a; lia|].
  - apply payload_inv; [done|by unfold h'; rewrite length_insert|]. intros x Hx. unfold h'. rewrite arr_get_insert; [unfold a; lia|].
    rewrite decide_False; [|done]. intros ->. apply Hx, Hused. unfold a. lia.
Qed.

Lemma init_run s0 : Z.of_nat (length (heap s0)) = HEAP_SIZE →
  ∃ s, heap_init heap_addr s0 = Done tt s ∧ heap_ok heap_addr s [(false, HEAP_SIZE)].
Proof.
  intros Hlen. unfold HEAP_SIZE in *. unfold heap_init. rewrite bind_modify bind_gets. rsimpl.
  set (s1 := s0 <| free_list := heap_addr |>). pose proof (hp_aligned placed) as Hal.
  assert (set_size heap_addr heap_addr HEAP_SIZE s1 = Done tt (store 0 HEAP_SIZE s1)) as E1.
  { pose proof (set_word_run heap_addr Hal s1 0 HEAP_SIZE eq_refl) as E. rewrite Z.add_0_r in E. apply E; unfold s1; rsimpl; lia. }
  rewrite (bind_Done _ _ _ _ _ E1). set (s2 := store 0 HEAP_SIZE s1).
  assert (length (heap s2) = length (heap s0)) as Hl2 by (apply (store_length 0 HEAP_SIZE s1); unfold s1; rsimpl; lia).
  exists (store 4 0 s2). split; [apply (set_word_run heap_addr Hal s2 4 0 eq_refl); lia|].
  assert (length (heap (store 4 0 s2)) = length (heap s2)) as Hl3 by (apply store_length; lia).
  constructor; [unfold HEAP_SIZE; lia|done|by repeat constructor|done|]. constructor; [cbn; by rewrite Z.add_0_r|].
  cbn [headers first_free]. constructor; [|apply holds_stored; [lia..|constructor]].
  cbn. unfold store at 1. rsimpl. rewrite ld32_splice_disj; [lia|cbn; lia|cbn; lia|].
  unfold s2, store. rsimpl. apply ld32_splice_word; [done|lia|unfold s1; rsimpl; lia].
Qed.

Lemma client_has_inv s live : client s live → ∃ L, client_inv s live L.
Proof.
  induction 1 as [s0 s Hlen Hrun|s live n p s' _ [L IH] Hn Hrun|s live p n s' _ [L IH] Hp Hrun|s live p n i c s' _ [L IH] Hp Hi Hrun].
  - destruct (init_run s0 Hlen) as (s1 & Hrun1 & Hok). rewrite Hrun in Hrun1. injection Hrun1 as <-.
    exists [(false, HEAP_SIZE)]. constructor; [done|by intros p n ?%lookup_empty_Some|by intros p c ?%elem_of_nil].
  - destruct (malloc_inv s live L n IH Hn) as (p1 & s1 & L1 & Hrun1 & Hci & _). rewrite Hrun in Hrun1. injection Hrun1 as <- <-. eauto.
  - destruct (free_inv s live L p n IH Hp) as (s1 & L1 & Hrun1 & Hci & _). rewrite Hrun in Hrun1. injection Hrun1 as <-. eauto.
  - destruct (store_inv s live L p n i c IH Hp Hi) as (s1 & Hrun1 & Hci & _). rewrite Hrun in Hrun1. injection Hrun1 as <-. eauto.
Qed.
(** ** Moving a block *)

(** The loop of realloc, from byte [i] on, when both blocks are held. *)
Lemma copy_run k : ∀ i t live p m q n,
  client t live → live !! p = Some m → live !! q = Some n → p ≠ q → 0 ≤ i → i + Z.of_nat k = n →
  p + n ≤ heap_addr + HEAP_SIZE →
  ∃ t', for_loop k i (λ i, c ← get_byte heap_addr (p + i); set_byte heap_addr (q + i) c) t = Done tt t' ∧
    client t' live ∧ length (heap t') = length (heap t) ∧
    (∀ x, x < q - heap_addr + i ∨ q - heap_addr + n ≤ x → arr_get (heap t') x = arr_get (heap t) x) ∧
    ∀ j, i ≤ j < n → j < m → arr_get (heap t') (q - heap_addr + j) = arr_get (heap t) (p - heap_addr + j).
Proof.
  induction k as [|k IH]; intros i t live p m q n Hcl Hp Hq Hne Hi Hk Hend.
  { exists t. split_and!; [done..|lia]. }
  destruct (client_has_inv t live Hcl) as [L Hci].
  pose proof (live_inside _ _ _ _ _ Hci Hp) as (Hp1 & Hp2 & _). pose proof (live_inside _ _ _ _ _ Hci Hq) as (Hq1 & Hq2 & _).
  pose proof (live_apart _ _ _ _ _ _ _ Hci Hp Hq Hne) as Hap. pose proof (ho_length _ _ _ (ci_heap _ _ _ Hci)) as Hlen.
  unfold HEAP_SIZE in *.
  destruct (arr_get_is_Some (heap t) (p + i - heap_addr)) as [c Hc]; [lia|].
  destruct (store_inv t live L q n i c Hci Hq ltac:(lia)) as (t1 & E1 & _ & Hh1).
  assert (client t1 live) as Hcl1 by (eapply (client_store t); [exact Hcl|exact Hq| |exact E1]; lia).
  assert (length (heap t1) = length (heap t)) as Hl1 by (rewrite Hh1; apply length_insert).
  assert (∀ x, arr_get (heap t1) x = if decide (x = q - heap_addr + i) then Some c else arr_get (heap t) x) as Hget
    by (intros x; rewrite Hh1; apply arr_get_insert; lia).
  destruct (IH (i + 1) t1 live p m q n Hcl1 Hp Hq Hne ltac:(lia) ltac:(lia) Hend) as (t' & E2 & Hcl2 & Hl2 & Hout & Hin).
  exists t'. split_and!; [|done|lia| |].
  - cbn [for_loop]. rewrite bind_bind. unfold get_byte at 1. rewrite bind_bind bind_gets Hc bind_oread (bind_Done _ _ _ _ _ E1). exact E2.
  - intros x Hx. rewrite Hout; [lia|]. rewrite Hget decide_False; [lia|done].
  - intros j Hj Hjm. destruct (decide (j = i)) as [->|Hji].
    + rewrite Hout; [lia|]. rewrite Hget decide_True //. rewrite -Hc. f_equal. lia.
    + rewrite Hin; [lia..|]. rewrite Hget decide_False; [lia|done].
Qed.

Lemma slice_pointwise h h' a b n : 0 ≤ a → 0 ≤ b → a + n ≤ Z.of_nat (length h) → b + n ≤ Z.of_nat (length h') →
  (∀ j, 0 ≤ j < n → arr_get h' (b + j) = arr_get h (a + j)) → slice h' b n = slice h a n.
Proof.
  intros Ha Hb Hl Hl' Hj. apply arr_ext. intros i Hi. destruct (decide (i < n)).
  - rewrite !arr_get_slice; [lia..|]. by apply Hj.
  - unfold arr_get. rewrite !decide_True //. unfold slice. rewrite !lookup_take_ge //; lia.
Qed.

(** The loop of calloc, from byte [i] on. *)
Lemma clear_run k : ∀ i t live q n,
  client t live → live !! q = Some n → 0 ≤ i → i + Z.of_nat k = n →
  ∃ t', for_loop k i (λ i, set_byte heap_addr (q + i) 0) t = Done tt t' ∧ client t' live ∧
    length (heap t') = length (heap t) ∧
    ∀ x, arr_get (heap t') x =
      if decide (q - heap_addr + i ≤ x < q - heap_addr + n) then Some 0 else arr_get (heap t) x.
Proof.
  induction k as [|k IH]; intros i t live q n Hcl Hq Hi Hk.
  { exists t. split_and!; [done..|]. intros x. rewrite decide_False; [lia|done]. }
  destruct (client_has_inv t live Hcl) as [L Hci].
  pose proof (live_inside _ _ _ _ _ Hci Hq) as (Hq1 & Hq2 & _). pose proof (ho_length _ _ _ (ci_heap _ _ _ Hci)) as Hlen.
  destruct (store_inv t live L q n i 0 Hci Hq ltac:(lia)) as (t1 & E1 & _ & Hh1).
  assert (client t1 live) as Hcl1 by (eapply (client_store t); [exact Hcl|exact Hq| |exact E1]; lia).
  destruct (IH (i + 1) t1 live q n Hcl1 Hq ltac:(lia) ltac:(lia)) as (t' & E2 & Hcl2 & Hl2 & Hget).
  exists t'. split_and!; [|done|by rewrite Hl2 Hh1 length_insert|].
  - cbn [for_loop]. by rewrite (bind_Done _ _ _ _ _ E1).
  - intros x. rewrite Hget Hh1 arr_get_insert; [lia|]. repeat case_decide; lia || done.
Qed.

(** calloc answers NULL or a block of zeros, of the product of its arguments
    modulo 2^32. *)
Lemma calloc_zeroes s live nmemb size : client s live → 0 < u32 (nmemb * size) ≤ SIZE_LIMIT →
  ∃ p s', calloc heap_addr nmemb size s = Done p s' ∧
    (p = 0 ∧ s' = s ∨ p ≠ 0 ∧ client s' (<[p := u32 (nmemb * size)]> live) ∧
      ∀ i, 0 ≤ i < u32 (nmemb * size) → arr_get (heap s') (p - heap_addr + i) = Some 0).
Proof.
  intros Hcl Hn. destruct (client_has_inv s live Hcl) as [L Hci]. unfold calloc. set (n := u32 (nmemb * size)) in *.
  destruct (malloc_inv s live L n Hci Hn) as (p & s1 & L1 & E1 & _ & _ & Hfail & _). rewrite (bind_Done _ _ _ _ _ E1).
  destruct (decide (p = 0)) as [->|Hp].
  { exists 0, s1. split; [done|]. left. split; [done|]. by apply Hfail. }
  pose proof (client_malloc s live n p s1 Hcl Hn E1) as Hcl1. rewrite decide_False // in Hcl1.
  destruct (clear_run (Z.to_nat n) 0 s1 _ p n Hcl1) as (s2 & E2 & Hcl2 & _ & Hget); [by rewrite lookup_insert_eq|lia|lia|].
  exists p, s2. rewrite decide_True // (bind_Done _ _ _ _ _ E2). split; [done|]. right. split_and!; [done|done|].
  intros i Hi. rewrite Hget decide_True; [lia|done].
Qed.

(** ** The promises *)

(** C4 (safety): the heap of a user program serves every program that keeps to
    the rules, whatever it asks for, frees and stores and in whatever order. The
    blocks the program holds are aligned, inside the array and do not overlap.
    malloc of a size that does not overflow always returns, with NULL or with a
    block that the program does not hold yet, and leaves the bytes of all blocks
    as they are. free of a block the program holds returns and leaves the bytes
    of all other blocks as they are. A store is read back and touches no other
    block. *)
Theorem heap_serves_client s live : client s live →
  (∀ p n, live !! p = Some n → p `mod` 4 = 0 ∧ heap_addr ≤ p ∧ p + n ≤ heap_addr + HEAP_SIZE) ∧
  (∀ p n q m, live !! p = Some n → live !! q = Some m → p ≠ q → p + n ≤ q ∨ q + m ≤ p) ∧
  (∀ n, 0 < n ≤ SIZE_LIMIT → ∃ p s', malloc heap_addr n s = Done p s' ∧ live !! p = None ∧
    ∀ q m, live !! q = Some m → block_bytes s' q m = block_bytes s q m) ∧
  (∀ p n, live !! p = Some n → ∃ s', Userheap.free heap_addr p s = Done tt s' ∧
    ∀ q m, live !! q = Some m → q ≠ p → block_bytes s' q m = block_bytes s q m) ∧
  (∀ p n i c, live !! p = Some n → 0 ≤ i < n → ∃ s', set_byte heap_addr (p + i) c s = Done tt s' ∧
    block_bytes s' p n = <[Z.to_nat i := c]> (block_bytes s p n) ∧
    ∀ q m, live !! q = Some m → q ≠ p → block_bytes s' q m = block_bytes s q m).
Proof.
  intros Hcl. destruct (client_has_inv s live Hcl) as [L Hci]. pose proof (ho_length _ _ _ (ci_heap _ _ _ Hci)) as Hlen.
  split_and!.
  - intros p n Hp. pose proof (live_inside _ _ _ _ _ Hci Hp) as (?&?&?&_). split_and!; [done|lia|done].
  - intros p n q m Hp Hq. by apply (live_apart s live L).
  - intros n Hn. destruct (malloc_inv s live L n Hci Hn) as (p & s' & L' & Hrun & _ & Hnew & _ & Hl & Hk & _).
    exists p, s'. split_and!; [done| |].
    + destruct (decide (p = 0)) as [->|]; [|by apply Hnew]. destruct (live !! 0) as [m|] eqn:E; [|done].
      pose proof (live_inside _ _ _ _ _ Hci E). pose proof (hp_low placed). lia.
    + intros q m Hq. apply (bytes_kept s s' live L); [done..|]. intros i Hi. apply Hk.
      pose proof (live_inside _ _ _ _ _ Hci Hq) as (_&_&_&Hu). by apply Hu.
  - intros p n Hp. destruct (free_inv s live L p n Hci Hp) as (s' & L' & Hrun & _ & Hl & Hk & _).
    exists s'. split; [done|]. intros q m Hq Hne. apply (bytes_kept s s' live L); [done..|]. intros i Hi. by apply (Hk q m).
  - intros p n i c Hp Hi. destruct (store_inv s live L p n i c Hci Hp Hi) as (s' & Hrun & _ & Hh).
    pose proof (live_inside _ _ _ _ _ Hci Hp) as (H1 & H2 & _). unfold HEAP_SIZE in *.
    assert (∀ x, arr_get (heap s') x = if decide (x = p - heap_addr + i) then Some c else arr_get (heap s) x) as Hget
      by (intros x; rewrite Hh; apply arr_get_insert; lia).
    exists s'. split_and!; [done| |].
    + unfold block_bytes. apply arr_ext. intros j Hj. rewrite arr_get_insert; [rewrite length_slice; lia|].
      destruct (decide (j < n)).
      * rewrite !arr_get_slice; [lia..|]. rewrite Hget. destruct (decide (j = i)) as [->|]; [by rewrite decide_True|].
        rewrite decide_False; [lia|done].
      * rewrite decide_False; [lia|]. unfold arr_get. rewrite !decide_True //. unfold slice. rewrite !lookup_take_ge //; lia.
    + intros q m Hq Hne. apply (bytes_kept s s' live L); [done|rewrite Hh; apply length_insert|done|].
      intros x Hx. rewrite Hget decide_False; [|done]. pose proof (live_apart _ _ _ _ _ _ _ Hci Hp Hq). lia.
Qed.

(** C18 (liveness): space that is given back can be used again. When a program
    has freed all blocks it held, whatever their sizes and the order, the array is
    one free block as at the start: for every size from 1 to 2^31 - 16, for which
    the sums of malloc do not overflow, malloc returns, and it returns a block
    exactly when the size is at most 252. *)
Theorem heap_all_free_again s n : client s ∅ → 0 < n ≤ SIZE_LIMIT →
  ∃ p s', malloc heap_addr n s = Done p s' ∧ (p ≠ 0 ↔ n ≤ HEAP_SIZE - SIZEOF_SIZE_T).
Proof.
  intros Hcl Hn. destruct (client_has_inv s ∅ Hcl) as [L Hci]. pose proof Hci as [Hok _ Hall].
  pose proof Hok as [Hlen Ht HL Hco Hc].
  assert (L = [(false, HEAP_SIZE)]) as ->.
  { assert (∀ x, (true, x) ∉ L) as Hno.
    { intros x Hx. apply list_elem_of_split in Hx as (A & B & ->). rewrite allocated_app in Hall.
      destruct (Hall (heap_addr + (0 + total A) + 4) (x - 4)) as [? ?]; [|by rewrite lookup_empty in H].
      apply elem_of_app. right. by left. }
    destruct L as [|[[] x] L]; [done|by destruct (Hno x); left|].
    destruct L as [|[[] y] L]; [cbn in Ht; by rewrite Z.add_0_r in Ht; rewrite Ht|destruct (Hno y); right; by left|].
    by apply coalesced_apart in Hco. }
  destruct (malloc_inv s ∅ _ n Hci Hn) as (p & s' & L' & Hrun & _ & _ & Hfail & _). exists p, s'. split; [done|].
  pose proof (malloc_run heap_addr (hp_aligned placed) (hp_low placed) (hp_high placed) s _ n Hok Hn) as Hm.
  pose proof (round_size_ok n Hn) as (_ & Hr4 & Hr & Hr8). unfold HEAP_SIZE, SIZEOF_SIZE_T in *. split.
  - intros Hp. destruct (alloc _ _ _ _) as [[q L1]|] eqn:E.
    + destruct (alloc_cases _ _ _ _ _ _ E) as (A & x & B & HE & _ & Hx & _).
      assert ((false, x) ∈ [(false, 256)]) as Hin by (rewrite HE; apply elem_of_app; right; by left).
      apply list_elem_of_singleton in Hin. simplify_eq. lia.
    + rewrite Hrun in Hm. by simplify_eq.
  - intros Hle ->. destruct (Hfail eq_refl) as [_ Hf]. specialize (Hf 256 ltac:(by left)).
    destruct (decide (8 ≤ n)); [specialize (Hr8 ltac:(lia)); zdm|]. unfold round_size, MIN_ALLOC_SIZE in Hf.
    rewrite (decide_True (P := n < 8)) in Hf; [lia|]. vm_compute in Hf. done.
Qed.

Lemma realloc_moves_run s live p m n : client s live → live !! p = Some m → 0 < n ≤ SIZE_LIMIT →
  p + n ≤ heap_addr + HEAP_SIZE →
  ∃ q s', realloc heap_addr p n s = Done q s' ∧
    ((q = 0 ∧ s' = s) ∨
     (q ≠ 0 ∧ live !! q = None ∧ client s' (delete p (<[q := n]> live)) ∧
      block_bytes s' q (n `min` m) = block_bytes s p (n `min` m) ∧
      ∀ r x, live !! r = Some x → r ≠ p → block_bytes s' r x = block_bytes s r x)).
Proof.
  intros Hcl Hp Hn Hend. destruct (client_has_inv s live Hcl) as [L Hci].
  pose proof (live_inside _ _ _ _ _ Hci Hp) as (Hp1 & Hp2 & _ & _). pose proof (hp_low placed) as Hlow.
  destruct (malloc_inv s live L n Hci Hn) as (q & s1 & L1 & E1 & Hci1 & Hnew & Hfail & Hl1 & Hk1 & _).
  unfold realloc. rewrite decide_False; [lia|]. rewrite decide_False; [lia|]. rewrite (bind_Done _ _ _ _ _ E1).
  destruct (decide (q = 0)) as [->|Hq0].
  { exists 0, s1. split; [done|]. left. split; [done|]. by apply Hfail. }
  pose proof (client_malloc s live n q s1 Hcl Hn E1) as Hcl1. rewrite decide_False // in Hcl1.
  assert (p ≠ q) as Hne by (intros ->; by rewrite Hnew in Hp).
  set (live1 := <[q := n]> live) in *.
  assert (live1 !! p = Some m) as Hp' by (unfold live1; rewrite lookup_insert_ne; [congruence|done]).
  assert (live1 !! q = Some n) as Hq' by (unfold live1; by rewrite lookup_insert_eq).
  destruct (copy_run (Z.to_nat n) 0 s1 live1 p m q n Hcl1 Hp' Hq' Hne ltac:(lia) ltac:(lia) Hend) as (s2 & E2 & Hcl2 & Hl2 & Hout & Hin).
  destruct (client_has_inv s2 live1 Hcl2) as [L2 Hci2].
  destruct (free_inv s2 live1 L2 p m Hci2 Hp') as (s3 & L3 & E3 & Hci3 & Hl3 & Hk3 & _).
  pose proof (live_inside _ _ _ _ _ Hci1 Hq') as (Hq1 & Hq2 & _). pose proof (ho_length _ _ _ (ci_heap _ _ _ Hci)) as Hlen.
  unfold HEAP_SIZE in *.
  exists q, s3. split; [rewrite decide_True // bind_bind; by rewrite (bind_Done _ _ _ _ _ E2) (bind_Done _ _ _ _ _ E3)|]. right.
  split_and!; [done|by apply Hnew|by apply (client_free s2 live1 p m)| |].
  - apply slice_pointwise; [lia..|]. intros j Hj. rewrite (Hk3 q n); [done|congruence|lia|].
    rewrite (Hin j); [lia..|]. apply Hk1. pose proof (live_inside _ _ _ _ _ Hci Hp) as (_&_&_&Hu). apply Hu. lia.
  - intros r x Hr Hrp. assert (q ≠ r) as Hqr by (intros ->; by rewrite Hnew in Hr).
    assert (live1 !! r = Some x) as Hr' by (unfold live1; by rewrite lookup_insert_ne).
    apply (bytes_kept s s3 live L); [done|lia|done|]. intros i Hi. rewrite (Hk3 r x); [done..|].
    pose proof (live_apart _ _ _ _ _ _ _ Hci1 Hq' Hr' Hqr). rewrite Hout; [lia|].
    apply Hk1. pose proof (live_inside _ _ _ _ _ Hci Hr) as (_&_&_&Hu). by apply Hu.
Qed.

(** C21 (functional): realloc does what its three cases are for. Of NULL it is
    malloc. With size 0 it gives the block back and returns NULL; all other blocks
    keep their bytes. With a size from 1 to 2^31 - 16 that does not reach past the
    end of the array from the old block, it returns: with NULL and nothing changed,
    or with a block of the new size that begins with the bytes of the old one, as
    many as both have, which is given back; every other block keeps its bytes. *)
Theorem realloc_moves s live p m n : client s live → live !! p = Some m →
  realloc heap_addr 0 n s = malloc heap_addr n s ∧
  (∃ s', realloc heap_addr p 0 s = Done 0 s' ∧ client s' (delete p live) ∧
    ∀ r x, live !! r = Some x → r ≠ p → block_bytes s' r x = block_bytes s r x) ∧
  (0 < n ≤ SIZE_LIMIT → p + n ≤ heap_addr + HEAP_SIZE →
   ∃ q s', realloc heap_addr p n s = Done q s' ∧
    ((q = 0 ∧ s' = s) ∨
     (q ≠ 0 ∧ live !! q = None ∧ client s' (delete p (<[q := n]> live)) ∧
      block_bytes s' q (n `min` m) = block_bytes s p (n `min` m) ∧
      ∀ r x, live !! r = Some x → r ≠ p → block_bytes s' r x = block_bytes s r x))).
Proof.
  intros Hcl Hp. split_and!; [done| |by apply realloc_moves_run].
  destruct (client_has_inv s live Hcl) as [L Hci]. pose proof (live_inside _ _ _ _ _ Hci Hp) as (Hp1 & _). pose proof (hp_low placed).
  destruct (free_inv s live L p m Hci Hp) as (s' & L' & E & _ & Hl & Hk & _). exists s'.
  unfold realloc. rewrite decide_False; [lia|]. rewrite (bind_Done _ _ _ _ _ E). split_and!; [done|by apply (client_free s live p m)|].
  intros r x Hr Hne. apply (bytes_kept s s' live L); [done..|]. intros i Hi. by apply (Hk r x).
Qed.
End spec.

(** ** A heap at 0x10000 *)

Definition example_addr : Z := 0x10000.
Definition after {A} (m : H A) (s : uheap_t) : uheap_t := match m s with Done _ s' => s' | _ => s end.
Definition answer (o : outcome uheap_t Z) : Z := match o with Done a _ => a | _ => 0 end.
Definition example_heap : uheap_t := after (heap_init example_addr) (Uheap 0 (replicate 256 0)).
Definition example_used : uheap_t := after (malloc example_addr 100) example_heap.

Lemma example_heap_placed : heap_placed example_addr.
Proof. by constructor. Qed.
Lemma example_client : client example_addr example_heap ∅.
Proof. apply (client_init _ (Uheap 0 (replicate 256 0))); [done|]. vm_compute. reflexivity. Qed.
Lemma example_client_used : client example_addr example_used {[ example_addr + 156 := 100 ]}.
Proof.
  apply (client_malloc _ example_heap ∅ 100 (example_addr + 156)); [exact example_client|unfold SIZE_LIMIT; lia|].
  vm_compute. reflexivity.
Qed.

Lemma heap_serves_client_witness :
  ∃ s', malloc example_addr 40 example_used = Done (example_addr + 112) s' ∧
    block_bytes example_addr s' (example_addr + 156) 100 = replicate 100 0.
Proof.
  destruct (heap_serves_client example_addr example_heap_placed example_used _ example_client_used) as (_ & _ & Hm & _).
  destruct (Hm 40) as (p & s' & Hrun & _ & Hk); [unfold SIZE_LIMIT; lia|].
  exists s'. assert (p = example_addr + 112) as ->.
  { transitivity (answer (malloc example_addr 40 example_used)); [by rewrite Hrun|]. vm_compute. reflexivity. }
  split; [exact Hrun|]. rewrite (Hk (example_addr + 156) 100); [by rewrite lookup_singleton_eq|]. vm_compute. reflexivity.
Defined.

Lemma heap_all_free_again_witness :
  let s := after (Userheap.free example_addr (example_addr + 156)) example_used in
  ∃ p s', malloc example_addr 252 s = Done p s' ∧ p ≠ 0.
Proof.
  intros s. assert (client example_addr s ∅) as Hcl.
  { assert (delete (example_addr + 156) {[ example_addr + 156 := 100 ]} = (∅ : gmap Z Z)) as <- by apply delete_singleton_eq.
    eapply (client_free _ example_used); [exact example_client_used|apply lookup_singleton_eq|]. vm_compute. reflexivity. }
  destruct (heap_all_free_again example_addr example_heap_placed s 252 Hcl) as (p & s' & Hrun & Hp); [unfold SIZE_LIMIT; lia|].
  exists p, s'. split; [exact Hrun|]. apply Hp. by vm_compute.
Defined.

Lemma realloc_moves_witness :
  ∃ q s', realloc example_addr (example_addr + 156) 60 example_used = Done q s' ∧ q = example_addr + 92 ∧
    block_bytes example_addr s' q 60 = replicate 60 0.
Proof.
  destruct (realloc_moves example_addr example_heap_placed example_used _ (example_addr + 156) 100 60 example_client_used)
    as (_ & _ & Hmoves); [apply lookup_singleton_eq|].
  destruct (Hmoves) as (q & s' & Hrun & Hcase); [unfold SIZE_LIMIT; lia|by vm_compute|].
  assert (q = example_addr + 92) as ->.
  { transitivity (answer (realloc example_addr (example_addr + 156) 60 example_used)); [by rewrite Hrun|]. vm_compute. reflexivity. }
  exists (example_addr + 92), s'. split_and!; [exact Hrun|reflexivity|].
  destruct Hcase as [[Hq _]|(_ & _ & _ & Hb & _)]; [discriminate Hq|].
  transitivity (block_bytes example_addr example_used (example_addr + 156) 60); [exact Hb|]. vm_compute. reflexivity.
Defined.

(** ** Where the promises end *)

(** The size is rounded up modulo 2^32: the largest request gets a block without
    room, and its pointer is the end of the array. *)
Lemma malloc_of_everything :
  ∃ s', malloc example_addr 0xffffffff example_heap = Done (example_addr + HEAP_SIZE) s'.
Proof. exists (after (malloc example_addr 0xffffffff) example_heap). vm_compute. reflexivity. Qed.

(** The differences of sizes are compared as int: a request of 2^32 - 256 bytes
    seems to fit, and the header of its block is written outside the array. *)
Lemma malloc_of_much : malloc example_addr 0xffffff00 example_heap = Fault.
Proof. vm_compute. reflexivity. Qed.

(** The product of calloc wraps: 2^30 + 1 words are a block of 4 bytes. *)
Lemma calloc_of_much :
  ∃ s', calloc example_addr 0x40000001 4 example_heap = Done (example_addr + 248) s' ∧
    allocated example_addr 0 [(false, 244); (true, 12)] = [(example_addr + 248, 8)] ∧ heap_ok example_addr s' [(false, 244); (true, 12)].
Proof.
  exists (after (calloc example_addr 0x40000001 4) example_heap). split_and!; [vm_compute; reflexivity|reflexivity|].
  constructor; [reflexivity|reflexivity|by repeat constructor|reflexivity|].
  constructor; [reflexivity|]. repeat constructor.
Qed.

(** realloc copies as many bytes as the new block has: enlarging the last block
    of the array reads behind it. *)
Lemma realloc_reads_outside : realloc example_addr (example_addr + 156) 104 example_used = Fault.
Proof. vm_compute. reflexivity. Qed.
End UserheapSpec.
