(* ===== verification/Userio.v ===== *)
(** * Terminal input of user programs (tests/lib.c)

    putc, puts, getc, gets and readline.  The terminal is the two streams of
    characters that system calls on standard input and output move along: what
    was typed and not read yet, and what was written.  A program that reads
    when nothing more is typed waits for ever. *)
From S2P Require Import Prelude Bytes.

Module Userio.

(** The streams and the memory of the program. *)
Record uio_t := Uio { typed : list Z; shown : list Z; umem : list Z }.
#[export] Instance eta_uio : Eta uio_t := fun s => Uio (typed s) (shown s) (umem s).

Abbreviation U A := (M uio_t A).

Definition get_mem (a : Z) : U Z := m ← gets umem; oread (arr_get m a).
Definition set_mem (a c : Z) : U unit :=
  m ← gets umem;
  m' ← oread (arr_set m a c);
  modify (λ s, s <| umem := m' |>).

(** syscall_write(stdout, &c, 1) and syscall_read(stdin, &c, 1). *)
Definition putc (c : Z) : U Z := modify (λ s, s <| shown := shown s ++ [c] |>);; mret 1.
Definition getc_raw : U Z := fun s =>
  match typed s with c :: r => Done c (s <| typed := r |>) | [] => Spin end.
Definition getc : U Z := c ← getc_raw; putc c;; mret c.

(** The length of the string at [s]. *)
Fixpoint strlen_at (m : list Z) (i : Z) : option Z :=
  match m with
  | [] => None
  | c :: m' => if decide (c ≠ 0) then strlen_at m' (i + 1) else Some i
  end.
Definition strlen (s : Z) : U Z :=
  m ← gets umem; oread (if decide (0 ≤ s) then strlen_at (drop (Z.to_nat s) m) 0 else None).

(** A write to the terminal takes all characters: the loop of puts runs once. *)
Definition puts (s : Z) : U Z :=
  len ← strlen s;
  m ← gets umem;
  modify (λ t, t <| shown := shown t ++ slice m s len |>);;
  mret len.

(** [n] characters are still to be read. *)
Fixpoint gets_loop (n : nat) (s count : Z) : U Z :=
  match n with
  | O => mret count
  | S n' => c ← getc; set_mem (s + count) c;; gets_loop n' s (count + 1)
  end.
Definition gets (s size : Z) : U Z :=
  count ← gets_loop (Z.to_nat (size - 1)) s 0;
  set_mem (s + (count + 1)) 0;;
  mret count.

(** Every turn reads a character: [fuel] is more than there are. *)
Fixpoint readline_loop (fuel : nat) (s size count : Z) : U Z :=
  match fuel with
  | O => spin
  | S f =>
    c ← getc_raw;
    if decide (c = 13 ∨ c = 10) then
      putc 10;;
      set_mem (s + count) 0;;
      mret count
    else if decide (c = 127) then
      if decide (0 < count) then
        putc 8;; putc 32;; putc 8;;
        readline_loop f s size (count - 1)
      else readline_loop f s size count
    else if decide (count < u32 (size - 1)) then
      set_mem (s + count) c;;
      putc c;;
      readline_loop f s size (count + 1)
    else readline_loop f s size count
  end.
Definition readline (s size : Z) : U Z := fun st => readline_loop (S (length (typed st))) s size 0 st.

(** ** The line editor

    What readline is for: the line is what was typed, without the characters
    that were taken back and those beyond the limit. *)
Definition edit (limit : Z) (l : list Z) (c : Z) : list Z :=
  if decide (c = 127) then removelast l
  else if decide (Z.of_nat (length l) < limit) then l ++ [c] else l.
Definition line_of (limit : Z) (keys : list Z) : list Z := foldl (edit limit) [] keys.

(** A row of a terminal and the column of the cursor: a character overwrites
    what is there, backspace (8) only moves. *)
Definition type_at (row : list Z * nat) (c : Z) : list Z * nat :=
  if decide (c = 8) then (row.1, Nat.pred row.2)
  else (take row.2 row.1 ++ c :: drop (S row.2) row.1, S row.2).
Definition display (out : list Z) : list Z * nat := foldl type_at ([], O) out.

(** Keys that are neither the end of the line nor a control character other
    than delete. *)
Definition key_ok (c : Z) : Prop := 32 ≤ c ≤ 255.
End Userio.
