(* ===== verification/UserioSpec.v ===== *)
(** * Properties of terminal input of user programs

    readline is a line editor: the program gets the edited line, and the row of
    the terminal shows it. *)
From S2P Require Import Prelude Bytes Userio.
Import Userio.

Module UserioSpec.

(** ** The edited line *)

Lemma edit_length limit l c : 0 ≤ limit → Z.of_nat (length l) ≤ limit → Z.of_nat (length (edit limit l c)) ≤ limit.
Proof.
  intros H0 Hl. unfold edit. repeat case_decide; [|rewrite length_app; cbn; lia|done].
  destruct l as [|x l _] using rev_ind; [done|]. rewrite removelast_last. rewrite length_app in Hl. lia.
Qed.

(** ** The row of the terminal *)

(** The row shows the line, followed by blanks, with the cursor behind it. *)
Definition row_shows (row : list Z * nat) (l : list Z) : Prop :=
  row.2 = length l ∧ ∃ k, row.1 = l ++ replicate k 32.

Lemma type_key row l c : c ≠ 8 → row_shows row l → row_shows (type_at row c) (l ++ [c]).
Proof.
  intros Hc [Hr [k Hk]]. unfold type_at. rewrite decide_False //. split; [cbn; rewrite Hr length_app; cbn; lia|].
  exists (Nat.pred k). cbn. rewrite Hr Hk take_app_length -app_assoc. f_equal. cbn. f_equal.
  rewrite drop_app_ge; [lia|]. replace (S (length l) - length l)%nat with 1%nat by lia. by destruct k.
Qed.

Lemma type_back row : type_at row 8 = (row.1, Nat.pred row.2).
Proof. done. Qed.
Lemma type_blank row : type_at row 32 = (take row.2 row.1 ++ 32 :: drop (S row.2) row.1, S row.2).
Proof. done. Qed.
Lemma type_delete row l x : row_shows row (l ++ [x]) → row_shows (foldl type_at row [8; 32; 8]) l.
Proof.
  intros [Hr [k Hk]]. cbn [foldl]. rewrite !type_back type_blank.
  cbn [fst snd Nat.pred]. rewrite Hr length_app Nat.add_comm. cbn [length Nat.add Nat.pred].
  split; [done|]. exists (S k). cbn [fst]. rewrite Hk -app_assoc take_app_length. f_equal. cbn [replicate]. f_equal.
  rewrite drop_app_ge; [lia|]. by replace (S (length l) - length l)%nat with 1%nat by lia.
Qed.

(** ** The loop *)

Lemma bind_getc {B} (f : Z → M uio_t B) c r st :
  typed st = c :: r → (getc_raw ≫= f) st = f c (st <| typed := r |>).
Proof. intros Ht. unfold mbind, M_bind, getc_raw. by rewrite Ht. Qed.
Lemma bind_putc {B} (f : Z → M uio_t B) c st : (putc c ≫= f) st = f 1 (st <| shown := shown st ++ [c] |>).
Proof. reflexivity. Qed.
Lemma bind_set_mem {B} (f : unit → M uio_t B) a c st : 0 ≤ a < Z.of_nat (length (umem st)) →
  (set_mem a c ≫= f) st = f tt (st <| umem := <[Z.to_nat a := c]> (umem st) |>).
Proof. intros Ha. unfold set_mem. by rewrite bind_bind bind_gets bind_bind arr_set_Some. Qed.

Lemma slice_insert_end m s l c : 0 ≤ s → s + Z.of_nat (length l) < Z.of_nat (length m) →
  slice m s (Z.of_nat (length l)) = l →
  slice (<[Z.to_nat (s + Z.of_nat (length l)) := c]> m) s (Z.of_nat (length (l ++ [c]))) = l ++ [c].
Proof.
  intros Hs Hl Hm. apply arr_ext. intros i Hi. rewrite length_app. cbn.
  destruct (decide (i < Z.of_nat (length l) + 1)) as [Hlt|Hge].
  - rewrite arr_get_slice; [lia..|]. rewrite arr_get_insert; [lia|]. rewrite arr_get_app //.
    destruct (decide (s + i = s + Z.of_nat (length l))).
    + rewrite decide_False; [lia|]. by replace (i - Z.of_nat (length l)) with 0 by lia.
    + rewrite decide_True; [lia|]. rewrite -(arr_get_slice m s (Z.of_nat (length l)) i); [done|lia|]. by rewrite Hm.
  - transitivity (@None Z); [|symmetry]; apply arr_get_None; rewrite ?length_app ?length_slice ?length_insert; cbn; lia.
Qed.
Lemma slice_less m s l l' : 0 ≤ s → slice m s (Z.of_nat (length (l ++ l'))) = l ++ l' → slice m s (Z.of_nat (length l)) = l.
Proof.
  intros Hs Hm. unfold slice in *. rewrite !Nat2Z.id in Hm |- *. rewrite length_app in Hm.
  pose proof (f_equal (take (length l)) Hm) as Ht. rewrite take_take take_app_length in Ht. by rewrite Nat.min_l in Ht; [lia|].
Qed.

(** Everything outside the buffer is as it was. *)
Definition outside_same (s size : Z) (m m' : list Z) : Prop :=
  length m' = length m ∧ ∀ i, i < s ∨ s + size ≤ i → arr_get m' i = arr_get m i.
Lemma outside_refl s size m : outside_same s size m m.
Proof. done. Qed.
Lemma outside_insert s size m m' a c : 0 ≤ a → s ≤ a < s + size → a < Z.of_nat (length m) →
  outside_same s size (<[Z.to_nat a := c]> m) m' → outside_same s size m m'.
Proof.
  intros H0 Ha Hl [H1 H2]. rewrite length_insert in H1. split; [done|]. intros i Hi.
  rewrite H2 // arr_get_insert; [lia|]. rewrite decide_False; [lia|done].
Qed.

Lemma readline_loop_run ks : ∀ fuel s size l st e rest,
  Forall key_ok ks → e = 10 ∨ e = 13 → (length ks < fuel)%nat → typed st = ks ++ e :: rest →
  0 ≤ s → 0 < size < 2 ^ 32 → s + size ≤ Z.of_nat (length (umem st)) → Z.of_nat (length l) ≤ size - 1 →
  slice (umem st) s (Z.of_nat (length l)) = l →
  let l' := foldl (edit (size - 1)) l ks in
  ∃ st' echo, readline_loop fuel s size (Z.of_nat (length l)) st = Done (Z.of_nat (length l')) st' ∧
    typed st' = rest ∧ shown st' = shown st ++ echo ++ [10] ∧
    slice (umem st') s (Z.of_nat (length (l' ++ [0]))) = l' ++ [0] ∧
    outside_same s size (umem st) (umem st') ∧
    ∀ row, row_shows row l → row_shows (foldl type_at row echo) l'.
Proof.
  induction ks as [|c ks IH]; intros fuel s size l st e rest Hks He Hf Ht Hs Hsz Hm Hl Hsl l';
    (destruct fuel as [|fuel]; [cbn in Hf; lia|]); cbn [readline_loop]; cbn [app] in Ht; rewrite (bind_getc _ _ _ _ Ht).
  - rewrite decide_True; [lia|]. rewrite bind_putc bind_set_mem; [unfold update; cbn; lia|].
    eexists _, []. split_and!; [reflexivity|done|done| | |done].
    + unfold l', update. cbn. by apply slice_insert_end; [|lia|].
    + unfold update. cbn. eapply outside_insert; [| | |apply outside_refl]; lia.
  - apply Forall_cons in Hks as [Hc Hks]. cbn in Hf. red in Hc. rewrite decide_False; [lia|].
    set (st1 := st <| typed := ks ++ e :: rest |>).
    destruct (decide (c = 127)) as [->|H127].
    + destruct l as [|x l _] using rev_ind.
      * destruct (IH fuel s size [] st1 e rest Hks He ltac:(lia) eq_refl Hs Hsz Hm Hl Hsl) as (st' & echo & Hrun & Hrest).
        exists st', echo. split; [|exact Hrest]. exact Hrun.
      * rewrite decide_True; [rewrite length_app; cbn; lia|]. rewrite !bind_putc.
        replace (Z.of_nat (length (l ++ [x])) - 1) with (Z.of_nat (length l)) by (rewrite length_app; cbn; lia).
        match goal with |- context [readline_loop _ _ _ _ ?t] => set (st2 := t) end.
        rewrite length_app in Hl. cbn in Hl.
        destruct (IH fuel s size l st2 e rest Hks He ltac:(lia) eq_refl Hs Hsz Hm ltac:(lia)) as (st' & echo & Hrun & Ht' & Hsh & Hsl' & Ho & Hrow).
        { by apply (slice_less _ _ _ [x]). }
        assert (edit (size - 1) (l ++ [x]) 127 = l) as Hed by (unfold edit; destruct (decide (127 = 127)) as [_|[]]; [apply removelast_last|done]).
        exists st', ([8; 32; 8] ++ echo). unfold l'. cbn [foldl]. rewrite Hed. split_and!; [exact Hrun|done| |done|exact Ho|].
        -- rewrite Hsh. unfold st2, update. cbn. by rewrite -!app_assoc.
        -- intros row Hr. rewrite foldl_app. apply Hrow. by apply (type_delete _ _ x).
    + rewrite u32_small; [lia|]. destruct (decide (Z.of_nat (length l) < size - 1)) as [Hlt|Hge].
      * rewrite bind_set_mem; [change (umem st1) with (umem st); lia|]. rewrite bind_putc.
        replace (Z.of_nat (length l) + 1) with (Z.of_nat (length (l ++ [c]))) by (rewrite length_app; cbn; lia).
        match goal with |- context [readline_loop _ _ _ _ ?t] => set (st2 := t) end.
        destruct (IH fuel s size (l ++ [c]) st2 e rest Hks He ltac:(lia) eq_refl Hs Hsz) as (st' & echo & Hrun & Ht' & Hsh & Hsl' & Ho & Hrow).
        { unfold st2, update. cbn. rewrite length_insert. exact Hm. }
        { rewrite length_app. cbn. lia. }
        { unfold st2, update. cbn. apply slice_insert_end; [done|change (umem st1) with (umem st); lia|exact Hsl]. }
        assert (edit (size - 1) l c = l ++ [c]) as Hed by (unfold edit; rewrite decide_False // decide_True //).
        exists st', ([c] ++ echo). unfold l'. cbn [foldl]. rewrite Hed. split_and!; [exact Hrun|done| |done| |].
        -- rewrite Hsh. unfold st2, update. cbn. by rewrite -!app_assoc.
        -- eapply outside_insert; [| | |exact Ho]; lia.
        -- intros row Hr. rewrite foldl_app. apply Hrow. cbn. apply type_key; [lia|done].
      * destruct (IH fuel s size l st1 e rest Hks He ltac:(lia) eq_refl Hs Hsz Hm Hl Hsl) as (st' & echo & Hrun & Hrest).
        assert (edit (size - 1) l c = l) as Hed by (unfold edit; rewrite decide_False // decide_False //).
        exists st', echo. unfold l'. cbn [foldl]. rewrite Hed. split; [exact Hrun|exact Hrest].
Qed.

(** C17 (equivalence): readline is a line editor. When keys (characters from 32 on,
    and delete) and then the end of a line are typed, readline returns with the
    edited line in the buffer: keys that were taken back with delete and keys
    beyond the size of the buffer are not in it. The terminator follows the line
    at once, with no newline before it: the buffer does not show, as the comment of
    readline says it would, whether the line was cut. The answer is the length of
    the line. Nothing outside the buffer changes, what was typed after the line is
    still to be read, and the row of the terminal shows exactly the line. *)
Theorem readline_edits ks e rest s size st :
  Forall key_ok ks → e = 10 ∨ e = 13 → typed st = ks ++ e :: rest →
  0 ≤ s → 0 < size < 2 ^ 32 → s + size ≤ Z.of_nat (length (umem st)) →
  ∃ st' echo, readline s size st = Done (Z.of_nat (length (line_of (size - 1) ks))) st' ∧
    slice (umem st') s (Z.of_nat (length (line_of (size - 1) ks)) + 1) = line_of (size - 1) ks ++ [0] ∧
    (∀ i, i < s ∨ s + size ≤ i → arr_get (umem st') i = arr_get (umem st) i) ∧
    typed st' = rest ∧ shown st' = shown st ++ echo ++ [10] ∧
    ∃ k, display echo = (line_of (size - 1) ks ++ replicate k 32, length (line_of (size - 1) ks)).
Proof.
  intros Hks He Ht Hs Hsz Hm.
  destruct (readline_loop_run ks (S (length (typed st))) s size [] st e rest Hks He) as (st' & echo & Hrun & Ht' & Hsh & Hsl & [_ Ho] & Hrow);
    [rewrite Ht length_app; cbn; lia|done|done|done|done|cbn; lia|done|].
  exists st', echo. fold (line_of (size - 1) ks) in *. split_and!; [exact Hrun| |exact Ho|done|done|].
  - rewrite length_app in Hsl. cbn in Hsl. by rewrite Nat2Z.inj_add in Hsl.
  - destruct (Hrow ([], O)) as [Hc [k Hk]]; [split; [done|by exists O]|]. exists k. unfold display.
    destruct (foldl type_at ([], O) echo) as [row cur]. cbn in Hc, Hk. by rewrite Hc Hk.
Qed.

(** "ab", delete, "cde" and return, with room for three characters. *)
Lemma readline_edits_witness :
  ∃ st', readline 2 4 (Uio [97; 98; 127; 99; 100; 101; 13; 120] [] (replicate 8 63)) = Done 3 st' ∧
    slice (umem st') 2 4 = [97; 99; 100; 0] ∧ typed st' = [120].
Proof.
  destruct (readline_edits [97; 98; 127; 99; 100; 101] 13 [120] 2 4 (Uio [97; 98; 127; 99; 100; 101; 13; 120] [] (replicate 8 63)))
    as (st' & echo & Hrun & Hs & _ & Ht & _).
  - repeat constructor; unfold key_ok; lia.
  - by right.
  - reflexivity.
  - lia.
  - lia.
  - cbn. lia.
  - exists st'. split_and!; [exact Hrun|exact Hs|exact Ht].
Defined.

(** A line that was cut and a line that was read in full leave the same buffer. *)
Lemma readline_hides_cut :
  Userio.readline 0 3 (Uio [97; 98; 99; 10] [] [63; 63; 63]) = Done 2 (Uio [] [97; 98; 10] [97; 98; 0]) ∧
  Userio.readline 0 3 (Uio [97; 98; 10] [] [63; 63; 63]) = Done 2 (Uio [] [97; 98; 10] [97; 98; 0]).
Proof. by vm_compute. Qed.

(** gets reads size - 1 characters and puts the terminator one place too far: a
    byte behind the last character stays as it was, and the terminator is
    written behind the buffer. *)
Lemma gets_terminates_outside :
  Userio.gets 0 3 (Uio [97; 98; 99] [] [63; 63; 63; 63]) = Done 2 (Uio [99] [97; 98] [97; 98; 63; 0]).
Proof. by vm_compute. Qed.
End UserioSpec.
